(* ===== verification/_CoqProject ===== *)
-Q . S2P
Prelude.v
Sequence.v
Frame.v
FrameSpec.v
Rle.v
FrameProps.v
Net.v
Server.v
ServerSpec.v
Str.v
Client.v
ClientProps.v
Lumberjack.v
Digest.v
Fs.v
Json.v
Http.v
BlobStore.v
Regex.v
CargoName.v
CargoVersion.v
CargoIndex.v
CargoState.v
CargoHandlers.v
CargoSafety.v
CargoProps.v
CargoTheorems.v
MavenCoordinate.v
MavenLayout.v
MavenPaths.v
MavenXml.v
MavenHandlers.v
MavenProps.v
MavenTheorems.v
FsStore.v
FsStoreSpec.v
FsConcurrent.v
BlobProps.v
OciError.v
OciReference.v
OciUpload.v
OciRegistry.v
OciRegistryProps.v
OciRegistrySteps.v
OciListing.v
OciMeta.v
OciHttp.v
OciBlobHandlers.v
OciManifestHandlers.v
OciRouter.v
OciServer.v
OciMetaImpl.v
OciServerProps.v
OciPush.v
OciPull.v
OciRoutes.v
OciGauge.v
AirflowText.v
AirflowShield.v
AirflowExtract.v
AirflowChains.v
AirflowMarkers.v
AirflowScopes.v
AirflowCache.v
AirflowCodec.v
Tls.v
OciTypes.v
Metrics.v
Addr.v
SharedDisk.v
Serve.v
CargoServe.v
Harness.v
Fuzz.v
TestLumberjack.v
TestOci.v
TestCargo.v
TestMaven.v
TestAirflow.v
TestServe.v
