(* ===== verification/Prelude.v ===== *)
(** * A verification library for ferro-protocols

    The repository is a Rust workspace of protocol crates. This library models
    them as executable Gallina and proves what makes them correct:

    - [crates/ferro-lumberjack]: the Lumberjack v2 log-shipping protocol, as a
      frame codec, an async server and a client with failover;
    - [crates/ferro-blob-store]: a content-addressed blob store behind one
      trait, in memory and on a file system;
    - [crates/ferro-oci-server]: an OCI distribution registry over a blob store
      and a metadata plane with a durable snapshot, served over HTTP;
    - [crates/ferro-cargo-registry-server]: a Cargo registry over a blob store
      and a durable crate index;
    - [crates/ferro-maven-layout]: a Maven 2/3 repository over a blob store and
      three in-memory indices;
    - [crates/ferro-airflow-dag-parser]: a static extractor of Airflow DAGs, a
      detector of dynamic patterns and a parse cache over a third-party Python
      parser.

    ** How Rust is modelled

    A fallible computation returns an [outcome]: [Ok], [Err] or [Panic]. A
    method with [&mut self] is a state-passing function [stm S E A], with
    stdpp's monad notation. Integers are [Z] kept at their width, with the
    wrapping, saturating and checked operations of the code written out; a
    slice out of range, an [expect] on [None] and a string slice off a
    character boundary are [Panic], so that a theorem that excludes [Panic]
    says the code does not panic. Strings are byte strings, [BTreeMap] is
    stdpp's [gmap] read in key order where the code iterates. Log output is
    left out. Code of other crates is a parameter, with the behaviour relied
    on as the fields of a class of laws, each with a concrete instance:
    [Zlib] (flate2; instance in [Rle]), [Hashing] (sha2, hex; in [Digest]),
    [SnapshotCodec] (serde_json, hex; in [OciRegistry]), [JsonText] (serde_json's
    text layer; in [Json], which models serde's data model on the parsed
    values), [HttpLib] (http, serde_json; in [Http], [OciServerProps] and
    [OciPush]), [UnicodeDigits] (regex; in [Regex]), [Sha1Lib], [Chrono] and
    [QuickXml] (sha1, chrono, quick_xml; in [MavenTheorems]), [PyParser] (the
    ruff lexer and parser, without laws; in [AirflowChains], [AirflowScopes] and
    [AirflowCache]), [UtcText] (chrono's text of an instant; in [AirflowCodec]), [Rustls] (rustls and webpki-roots, without laws; in [Tls]),
    and the DNS-name check of rustls as an argument of the client. The operating system is modelled
    where the code depends on it: a socket is a script of reads and write
    faults ([Net]), dialling a host a script of fates ([Client]), the file
    system a tree with one possibly failing system call per entry of a fault
    script, partial writes included ([Fs]). The clock and fresh UUIDs are
    arguments.

    ** Files

    [Prelude] (this file): outcomes, the state monad and its triples, machine
    integers, big-endian words, tactics and hints. [Str]: the parts of [str] the
    crates use, with their lemmas; Unicode characters, lines, UTF-8 validity.
    [Regex]: regular expressions matched by derivatives, against their
    language. [Json]: JSON values, serde's derived readers and writers. [Http]:
    header maps.

    Lumberjack:
    - [Sequence] ([sequence.rs]): wrapping sequence numbers and when one
      acknowledges another.
    - [Frame] ([frame.rs], [error.rs], [lib.rs]): the encoders and
      [FrameDecoder] with its buffer and cursor. [FrameSpec]: the abstract
      parser [parse_frame] of a byte string, the decoder's invariant, and the
      refinement lemmas. [Rle]: a concrete compressor. [FrameProps]: the
      decoder refines the parser; decoding is independent of chunking; encode
      then decode is the identity; caps; termination of the drain loop.
    - [Net] ([server.rs], [error.rs]): sockets and protocol errors.
    - [Server] ([server.rs]): builder, listener, connection, [read_window]
      with all its branches, [send_ack], [read_and_ack]. [ServerSpec]: the
      abstract receiver [recv] on the whole byte stream and the simulation.
    - [Client] ([client.rs], [tls.rs] [parse_sni]): builder, connect, host
      selection, reconnect, payload building, ACK checking, [send_json].
      [ClientProps]: sequence reservation, ACK classification, failover from the
      cursor, which does not go back to the first host by itself.
    - [Tls] ([tls.rs]): the two configuration builders and the verifier that
      accepts everything; a client's trust is exactly what its builder was given,
      a server's chain and key those of the calls that supplied them.
    - [Lumberjack]: client and server together: a window the client builds is
      what the server delivers and acknowledges, however its bytes are split;
      limits; truncation.

    Blob store:
    - [Digest] ([digest.rs]): parsing, printing and computing digests.
    - [BlobStore] ([blob_store.rs], [error.rs], [memory.rs]): the trait as a
      class, its contract [BlobStoreLaws] against an abstract view, and the
      in-memory store with the instance that discharges it.
    - [Fs]: files, directories, faults, a process's files and counter. [FsStore] ([fs.rs]): the filesystem
      store. [FsStoreSpec]: its invariant and the instance of the contract
      under every fault. [FsConcurrent]: the system calls of concurrent puts
      and deletes as a step relation. [BlobProps]: equivalence of the stores,
      all-or-nothing puts.

    OCI server:
    - [OciError] ([error.rs]), [OciReference] ([reference.rs]), [OciUpload]
      ([upload.rs]): codes and statuses, names and references against the
      specification's grammar, upload sessions and Content-Range.
    - [OciRegistry] ([registry.rs]): every method of the metadata plane, the
      snapshot file, booting, and a concrete codec.
      [OciRegistryProps]: puts and deletes are transactions, the snapshot
      write. [OciRegistrySteps]: calls as a step relation, content addressing
      as an invariant, durability. [OciListing]: pagination and what puts and
      deletes leave visible.
    - [OciMeta] (the trait of [registry.rs]): the metadata plane as an interface,
      the plain catalogue it stands for, with the limits on sessions and when a
      call may be refused, and programs verified against the contract.
      [OciMetaImpl]: the registry discharges it, under every fault, and refuses a
      mutation only when the disk cannot take its snapshot (a snapshot always has
      its text, the law [SnapshotCodecTotal]).
    - [OciHttp] ([router.rs], [error.rs]): requests, responses, [AppState].
      [OciBlobHandlers] ([handlers/blob.rs], [handlers/blob_upload.rs]),
      [OciManifestHandlers] ([handlers/manifest.rs], [tags.rs], [catalog.rs],
      [referrers.rs], [base.rs], [media_types.rs]), [OciRouter]
      ([router.rs]).
    - [OciServer]: triples for state-passing code, one per registry and store
      method, against [BlobStoreLaws]. [OciServerProps]: every handler, the
      router and any sequence of requests keep the server's invariant.
      [OciPush], [OciPull]: chunked uploads, manifest pushes and ranged pulls
      end to end. [OciRoutes]: the path splitter is right for ordinary names.
    - [OciGauge] ([router.rs] [store_blob_counted], [handlers/blob.rs]
      [delete_blob]): pushes and deletes as tasks that interleave, from a server
      started over any blobs; with pushes alone the gauge counts the distinct
      blobs stored since, with deletes it can drift.
    - [OciTypes] ([manifest.rs]): descriptors, manifests and indexes with their
      derived codecs; what the reader accepts is printed and read back unchanged.

    Cargo registry:
    - [CargoName] ([error.rs], [name.rs]), [CargoVersion] ([version.rs], with
      the SemVer grammar the pattern is compared with), [CargoIndex]
      ([index.rs], [publish.rs], [owners.rs], [yank.rs]): names, versions, index
      entries and lines, the publish framing.
    - [CargoState] ([config.rs], [persist.rs], the state of [router.rs]): the
      crate records, their snapshot file, what a save leaves on disk and a load
      reads back.
    - [CargoHandlers] ([handlers.rs], [router.rs]): every handler; each holds
      the write lock from its checks to its answer, so it is one step.
      [CargoSafety]: the server's invariant. [CargoProps]: each mutating handler
      on every branch, any request and any sequence.
      [CargoTheorems]: the server answers and keeps its invariant, published
      versions are immutable, downloadable and durable (a start that cannot read
      the snapshot begins empty), failures change nothing in memory; a failed
      publish can come back after a restart.

    Maven repository:
    - [MavenCoordinate] ([error.rs], [coordinate.rs], [checksum.rs],
      [snapshot.rs]), [MavenLayout] ([layout.rs]), [MavenXml] ([metadata.rs],
      [pom.rs], [xml.rs]). [MavenPaths]: accepted paths are confined,
      printing then parsing a coordinate is the identity, and what the parser
      makes of the path of an artifact's metadata document.
    - [MavenHandlers] ([handlers.rs], [router.rs]): every handler; an upload is
      the composition of storing the blob and registering the path, which a
      concurrent delete can separate. [MavenProps]: triples for
      every handler against the invariant that every registered path has its
      blob. [MavenTheorems]: the invariant over sequences of requests, uploads
      are served back, the regenerated index is exact and where its document can
      be fetched; and, proved, where the code falls short of its documentation.

    The two server processes:
    - [Metrics] ([metrics.rs] of both): registration, labels, the middleware split
      at its await, the gauges; what the series are worth in every reachable state
      of a server with overlapping requests.
    - [Addr]: [std::net] socket addresses, read and printed.
    - [SharedDisk]: the blob store, its listing included, and the snapshot file in
      one directory. Programs that keep to a part of the tree ([local]) and the
      theorem that the models' two file systems are one disk.
    - [Serve] ([serve.rs] and the probes of [router.rs], OCI): the configuration,
      the store behind [dyn BlobStore] as a sum with the contract's instance, the
      application, the start; a started server keeps the invariant of
      [OciServerProps]. [CargoServe] ([serve.rs], Cargo): the same for Cargo; a
      server that starts advertises a reachable origin, and its instrumentation is
      transparent. [Serve.Shutdown] ([serve.rs] of both): the signals that stop a
      server.

    Airflow DAG parser:
    - [AirflowText] ([common.rs], [line_index.rs]): identifiers, results and
      errors, the line index; its binary search agrees with counting line feeds.
    - [AirflowShield] ([panic_safe.rs]): the syntax tree as the crate matches on
      it, the byte scan and the token scan, the guarded call; the parser only
      runs on source within the limits.
    - [AirflowExtract] ([ruff_impl.rs]): the walk that collects DAGs, tasks and
      edges, with its invariant. [AirflowChains]: extractions are well-formed, a
      chain of shift operators gives Airflow's edges.
    - [AirflowMarkers] ([dynamic_markers.rs]): the visitor with its context
      counter. [AirflowScopes]: it computes the markers of a lexical definition,
      in its own order; which decorators and calls it leaves out.
    - [AirflowCache] ([api.rs], [cache.rs]): the interface and the cache; a lookup
      returns the parse of the file's present content.
    - [AirflowCodec] ([common.rs], [dynamic_markers.rs], [api.rs]): the derived
      JSON form of the results; what a parse returns is read back unchanged.

    The crates' own checks:
    - [Harness]: assertions, [unwrap] and the rest of the vocabulary checks are
      written in; a failed assertion is [Panic].
    - [Fuzz] ([fuzz/fuzz_targets], [crates/*/fuzz/fuzz_targets]): the eleven
      fuzz targets; ten return on every input, the eleventh is refuted and its
      failures characterised.
    - [TestLumberjack], [TestOci] (with the blob store), [TestCargo],
      [TestMaven], [TestAirflow], [TestServe] (both processes): the unit tests of the crates ([mod tests] of the modelled files) run on the model, one
      definition per test under its name. They show on concrete inputs that the
      definitions answer what the code is known to answer. A parameter is
      instantiated there by a function that answers the test's inputs: where a
      test hands Python source to the third-party parser, the translation starts
      from its tokens or its syntax tree.

    ** Loops and fuel

    Loops that are not structural run on fuel, and running out of fuel is
    [Panic], so every theorem that excludes [Panic] or gives the result also
    shows that the fuel is enough. The drain loop and the inner-frame loop get
    one unit per buffered byte (a frame has at least six), the legacy-frame
    walk one per byte (a pair has at least eight), the read loop one per
    remaining read of the socket script ([read_budget]), the component walk of
    a repository name one per byte. The binary search of the line index gets one
    per element and is proved to find its element; the sixteen attempts of the
    Cargo snapshot are the code's own bound. Counters that overflow in a checked build (owner
    ids, [u64]; build numbers, lines, columns and DAG contexts, [u32]) are
    [Panic] there, and the theorems bound the number of requests, the length of
    the source or its nesting instead.

    ** What is not modelled

    TLS handshakes other than their outcome and the certificates they check; log
    set-up; the Prometheus text encoder, which is an argument; rendering of most
    error messages by [Display] and all [Debug] output; axum's path matching,
    query and percent decoding; interleavings of two HTTP handlers other than the
    Maven upload, the OCI blob gauge and the metrics middleware (each registry
    method and each blob put is atomic under its lock, a Cargo handler is one
    critical section, and the puts' system calls do interleave in
    [FsConcurrent]); the order in which the system lists a directory, for which the
    models take that of the names; interleavings of cache lookups; the stack the DAG
    parser's thread runs on (the limits on its input are proved, that they suffice
    for the third-party parser is its documentation's claim). Of the checks, the
    integration tests under [tests/], the benchmarks and the unit tests that
    evaluate a library (published hash vectors, XML documents, HTTP extractors) are
    not translated. *)

From Stdlib Require Export ZArith Lia Strings.Byte Ascii.
From Stdlib Require String.
From stdpp Require Export base list gmap strings sorting.

(** ** Outcomes: a Rust computation returns [Ok], returns [Err] or panics *)

Inductive outcome (E A : Type) : Type :=
| Ok (a : A)
| Err (e : E)
| Panic.
Arguments Ok {E A} _.
Arguments Err {E A} _.
Arguments Panic {E A}.

#[export] Instance outcome_ret {E} : MRet (outcome E) := fun _ a => Ok a.
#[export] Instance outcome_bind {E} : MBind (outcome E) := fun _ _ k m =>
  match m with Ok a => k a | Err e => Err e | Panic => Panic end.

(** [Option::ok_or] / [ok_or_else]. *)
Definition ok_or {E A} (o : option A) (e : E) : outcome E A :=
  match o with Some a => Ok a | None => Err e end.

(** [Option::expect]: panics on [None]. *)
Definition expect {E A} (o : option A) : outcome E A :=
  match o with Some a => Ok a | None => Panic end.

(** [Result::map_err], also the conversion the [?] operator inserts. *)
Definition map_err {E F A} (f : E -> F) (m : outcome E A) : outcome F A :=
  match m with Ok a => Ok a | Err e => Err (f e) | Panic => Panic end.

(** [Result::ok]. *)
Definition ok_of {E A} (m : outcome E A) : option A :=
  match m with Ok a => Some a | _ => None end.

(** Computations that cannot panic. *)
Lemma bind_total {E A B} (m : outcome E A) (k : A -> outcome E B) :
  m <> Panic -> (forall a, k a <> Panic) -> (m ≫= k) <> Panic.
Proof. intros Hm Hk. destruct m; [apply Hk|discriminate|contradiction]. Qed.

Lemma ok_or_total {E A} (o : option A) (e : E) : ok_or o e <> Panic.
Proof. destruct o; discriminate. Qed.

(** ** Methods with [&mut self]: state passing over an outcome *)

Definition stm (S E A : Type) : Type := S -> S * outcome E A.

#[export] Instance stm_ret {S E} : MRet (stm S E) := fun _ a s => (s, Ok a).
#[export] Instance stm_bind {S E} : MBind (stm S E) := fun _ _ k m s =>
  match m s with
  | (s', Ok a) => k a s'
  | (s', Err e) => (s', Err e)
  | (s', Panic) => (s', Panic)
  end.

Definition st_get {S E} : stm S E S := fun s => (s, Ok s).
Definition st_modify {S E} (f : S -> S) : stm S E unit := fun s => (f s, Ok tt).
Definition st_lift {S E A} (m : outcome E A) : stm S E A := fun s => (s, m).
Definition st_throw {S E A} (e : E) : stm S E A := fun s => (s, Err e).

(** [for x in l { f(x)?; }]. *)
Definition st_for {S E A} (f : A -> stm S E unit) : list A -> stm S E unit :=
  fix go l := match l with [] => mret tt | x :: l => f x ;; go l end.

(** ** Machine integers: values are kept in [Z] and wrapped explicitly *)

Declare Scope ferro_scope.
Delimit Scope ferro_scope with ferro.

Definition U32_MAX : Z := 4294967295.
Definition U64_MAX : Z := 18446744073709551615.
Definition USIZE_MAX : Z := U64_MAX.
Definition I64_MIN : Z := -9223372036854775808.
Definition I64_MAX : Z := 9223372036854775807.

Definition u32_wrap (z : Z) : Z := Z.modulo z 4294967296.
Definition u32_wrapping_add (a b : Z) : Z := u32_wrap (Z.add a b).
Definition u32_wrapping_sub (a b : Z) : Z := u32_wrap (Z.sub a b).
Definition u64_saturating_add (a b : Z) : Z := Z.min (Z.add a b) U64_MAX.
Definition usize_saturating_add (a b : Z) : Z := Z.min (Z.add a b) USIZE_MAX.
Definition u64_checked_add (a b : Z) : option Z :=
  if Z.leb (Z.add a b) U64_MAX then Some (Z.add a b) else None.
Definition u64_checked_sub (a b : Z) : option Z :=
  if Z.leb b a then Some (Z.sub a b) else None.

(** [u32::try_from(n).unwrap_or(u32::MAX)] for a [usize] [n]. *)
Definition u32_try_from (n : Z) : option Z :=
  if Z.leb n U32_MAX then Some n else None.

Definition is_u32 (z : Z) : Prop := (0 <= z <= U32_MAX)%Z.
Definition is_u64 (z : Z) : Prop := (0 <= z <= U64_MAX)%Z.

(** ** Bytes *)

Abbreviation bytes := (list byte).

Definition byte_Z (b : byte) : Z := Z.of_N (Byte.to_N b).
Definition Z_byte (z : Z) : byte :=
  match Byte.of_N (Z.to_N (Z.modulo z 256)) with Some b => b | None => x00 end.

#[export] Instance byte_eq_dec : EqDecision byte := Byte.byte_eq_dec.

(** Length of a slice as a [usize]. *)
Definition zlen {A} (l : list A) : Z := Z.of_nat (length l).

(** [u32::to_be_bytes] and [u32::from_be_bytes]. *)
Definition u32_to_be_bytes (z : Z) : bytes :=
  [Z_byte (Z.shiftr z 24); Z_byte (Z.shiftr z 16); Z_byte (Z.shiftr z 8); Z_byte z].

Definition u32_from_be_bytes (l : bytes) : Z :=
  fold_left (fun acc b => Z.lor (Z.shiftl acc 8) (byte_Z b)) l 0%Z.

(** [&l[a..b]]: panics unless [a <= b <= len]. *)
Definition slice {E A} (a b : Z) (l : list A) : outcome E (list A) :=
  if (Z.leb 0 a && Z.leb a b && Z.leb b (zlen l))%bool
  then Ok (take (Z.to_nat (Z.sub b a)) (drop (Z.to_nat a) l))
  else Panic.

(** ** Tactics and hints shared by the components *)

Create HintDb ferro.
Create Rewrite HintDb ferro.

(** Run the monadic glue of a method, leaving the operations it calls folded. *)
Ltac run_st :=
  unfold mbind, mret, stm_bind, stm_ret, outcome_bind, outcome_ret,
    st_get, st_modify, st_lift, st_throw;
  cbv beta iota zeta.

Ltac run_st_in H :=
  unfold mbind, mret, stm_bind, stm_ret, outcome_bind, outcome_ret,
    st_get, st_modify, st_lift, st_throw in H;
  cbv beta iota zeta in H.

(** Split the [bool] tests of the code into arithmetic facts. *)
Ltac bool_cases :=
  repeat match goal with
  | |- context [Z.leb ?a ?b] => destruct (Z.leb_spec a b)
  | |- context [Z.ltb ?a ?b] => destruct (Z.ltb_spec a b)
  | |- context [Z.eqb ?a ?b] => destruct (Z.eqb_spec a b)
  | |- context [Z.gtb ?a ?b] => rewrite (Z.gtb_ltb a b)
  | |- context [Z.geb ?a ?b] => rewrite (Z.geb_leb a b)
  end.

Ltac bool_cases_in H :=
  repeat match type of H with
  | context [Z.leb ?a ?b] => destruct (Z.leb_spec a b)
  | context [Z.ltb ?a ?b] => destruct (Z.ltb_spec a b)
  | context [Z.eqb ?a ?b] => destruct (Z.eqb_spec a b)
  | context [Z.gtb ?a ?b] => rewrite (Z.gtb_ltb a b) in H
  | context [Z.geb ?a ?b] => rewrite (Z.geb_leb a b) in H
  end.

(** ** Invariants of state-passing methods *)

(** [m] keeps [P] on the state, whatever it returns. *)
Definition st_keeps {S E A} (P : S -> Prop) (m : stm S E A) : Prop :=
  forall s, P s -> P (fst (m s)).

(** Every value [m] returns normally satisfies [Q]. *)
Definition st_returns {S E A} (P : S -> Prop) (m : stm S E A) (Q : A -> Prop) : Prop :=
  forall s s' a, P s -> m s = (s', Ok a) -> Q a.

Lemma st_keeps_bind {S E A B} (P : S -> Prop) (m : stm S E A) (k : A -> stm S E B) :
  st_keeps P m -> (forall a, st_keeps P (k a)) -> st_keeps P (m ≫= k).
Proof.
  intros Hm Hk s Hs. specialize (Hm s Hs). unfold mbind, stm_bind.
  destruct (m s) as [s' [a|e|]]; [apply Hk|..]; exact Hm.
Qed.

Lemma st_returns_bind {S E A B} (P : S -> Prop) (m : stm S E A) (k : A -> stm S E B) (Q : B -> Prop) :
  st_keeps P m -> (forall a, st_returns P (k a) Q) -> st_returns P (m ≫= k) Q.
Proof.
  intros Hm Hk s s' b Hs. specialize (Hm s Hs). unfold mbind, stm_bind.
  destruct (m s) as [s1 [a|e|]]; [apply Hk, Hm|discriminate ..].
Qed.

Lemma st_keeps_lift {S E A} (P : S -> Prop) (m : outcome E A) : st_keeps P (st_lift m).
Proof. intros s Hs. exact Hs. Qed.

Lemma st_keeps_throw {S E A} (P : S -> Prop) (e : E) : st_keeps P (st_throw (A := A) e).
Proof. intros s Hs. exact Hs. Qed.

Lemma st_keeps_ret {S E A} (P : S -> Prop) (a : A) : st_keeps P (mret (M := stm S E) a).
Proof. intros s Hs. exact Hs. Qed.

Lemma st_keeps_get {S E} (P : S -> Prop) : st_keeps P (st_get (S := S) (E := E)).
Proof. intros s Hs. exact Hs. Qed.

#[export] Hint Resolve st_keeps_bind st_returns_bind st_keeps_lift st_keeps_throw
  st_keeps_ret st_keeps_get : ferro.

(** ** Triples *)

(** From a state satisfying [P], [m] ends in one, does not panic, and a value
    it returns satisfies [Q]. *)
Definition st_safe {S E A} (P : S -> Prop) (m : stm S E A) (Q : A -> Prop) : Prop :=
  forall s, P s -> P (fst (m s)) /\ match snd (m s) with Ok a => Q a | Err _ => True | Panic => False end.

Section Triples.
Context {S E : Type} (P : S -> Prop).

Lemma safe_bind {A B} (m : stm S E A) (k : A -> stm S E B) (Q : A -> Prop) (R : B -> Prop) :
  st_safe P m Q -> (forall a, Q a -> st_safe P (k a) R) -> st_safe P (m ≫= k) R.
Proof.
  intros Hm Hk s Hs. destruct (Hm s Hs) as [H1 H2]. unfold mbind, stm_bind.
  destruct (m s) as [s' [a|e|]]; cbn in *; [exact (Hk a H2 s' H1)|auto|contradiction].
Qed.

Lemma safe_ret {A} (a : A) (Q : A -> Prop) : Q a -> st_safe P (mret (M := stm S E) a) Q.
Proof. intros Ha s Hs. split; assumption. Qed.

Lemma safe_throw {A} (e : E) (Q : A -> Prop) : st_safe P (st_throw e) Q.
Proof. intros s Hs. split; [exact Hs|exact I]. Qed.

Lemma safe_lift {A} (o : outcome E A) (Q : A -> Prop) :
  o <> Panic -> (forall a, o = Ok a -> Q a) -> st_safe P (st_lift o) Q.
Proof. intros Hp Hq s Hs. split; [exact Hs|]. destruct o; cbn; [auto|exact I|contradiction]. Qed.

Lemma safe_weaken {A} (m : stm S E A) (Q R : A -> Prop) :
  st_safe P m Q -> (forall a, Q a -> R a) -> st_safe P m R.
Proof. intros Hm Hqr s Hs. destruct (Hm s Hs) as [H1 H2]. split; [exact H1|]. destruct (snd (m s)); auto. Qed.

End Triples.

Create HintDb safe.
#[export] Hint Resolve safe_throw : safe.

(** Run a do-block: one [safe_bind] per statement. *)
Ltac safe_do := eapply safe_bind; [solve [eauto with safe]|cbv beta; intros].

(** From a state satisfying [P], [m] does not panic; it returns in a state and
    with a value satisfying [Q], or fails in a state satisfying [R]. *)
Definition st_triple {S E A} (P : S -> Prop) (m : stm S E A) (Q : A -> S -> Prop) (R : S -> Prop) : Prop :=
  forall s, P s -> match m s with (s', Ok a) => Q a s' | (s', Err _) => R s' | (_, Panic) => False end.

Lemma triple_bind {S E A B} P (m : stm S E A) (k : A -> stm S E B) Q Q' R :
  st_triple P m Q R -> (forall a, st_triple (Q a) (k a) Q' R) -> st_triple P (m ≫= k) Q' R.
Proof.
  intros Hm Hk s Hs. specialize (Hm s Hs). unfold mbind, stm_bind. destruct (m s) as [s' [a|e|]]; [exact (Hk a s' Hm)|exact Hm|exact Hm].
Qed.

Lemma triple_weaken {S E A} (P P' : S -> Prop) (m : stm S E A) (Q Q' : A -> S -> Prop) (R R' : S -> Prop) :
  st_triple P m Q R -> (forall s, P' s -> P s) -> (forall a s, Q a s -> Q' a s) -> (forall s, R s -> R' s) -> st_triple P' m Q' R'.
Proof.
  intros Hm Hp Hq Hr s Hs. specialize (Hm s (Hp s Hs)). destruct (m s) as [s' [a|e|]]; auto.
Qed.

Lemma triple_ret {S E A} (P : S -> Prop) (a : A) (R : S -> Prop) : st_triple P (mret (M := stm S E) a) (fun _ => P) R.
Proof. intros s Hs. exact Hs. Qed.

Lemma triple_get {S E} (P : S -> Prop) (R : S -> Prop) : st_triple P (st_get (E := E)) (fun a s => a = s /\ P s) R.
Proof. intros s Hs. split; [reflexivity|exact Hs]. Qed.

Lemma triple_throw {S E A} (P : S -> Prop) (e : E) (Q : A -> S -> Prop) (R : S -> Prop) :
  (forall s, P s -> R s) -> st_triple P (st_throw e) Q R.
Proof. intros Hr s Hs. exact (Hr s Hs). Qed.

Lemma triple_lift {S E A} (P : S -> Prop) (o : outcome E A) (R : S -> Prop) :
  o <> Panic -> (forall s, P s -> R s) -> st_triple P (st_lift o) (fun a s => o = Ok a /\ P s) R.
Proof. intros Ho Hr s Hs. cbn. destruct o as [a|e|]; [split; auto|exact (Hr s Hs)|contradiction]. Qed.

Lemma triple_modify {S E} (P : S -> Prop) (Q : unit -> S -> Prop) (f : S -> S) (R : S -> Prop) :
  (forall s, P s -> Q tt (f s)) -> st_triple P (st_modify (E := E) f) Q R.
Proof. intros Hf s Hs. exact (Hf s Hs). Qed.

(** A loop keeps what each of its rounds keeps. *)
Lemma triple_for {S E A} (P R : S -> Prop) (f : A -> stm S E unit) l :
  Forall (fun x => st_triple P (f x) (fun _ => P) R) l -> st_triple P (st_for f l) (fun _ => P) R.
Proof.
  induction 1 as [|x l Hx _ IH]; cbn; [apply triple_ret|].
  eapply triple_bind; [exact Hx|]. intros []. exact IH.
Qed.

(** A run by its result, with the final state left unevaluated. *)
Lemma run_result {A B} (x : A * B) b : snd x = b -> x = (fst x, b).
Proof. destruct x. cbn. intros ->. reflexivity. Defined.

(** ** Lemmas on bytes and words *)

Lemma byte_Z_range b : (0 <= byte_Z b < 256)%Z.
Proof.
  unfold byte_Z. pose proof (Byte.to_N_bounded b). lia.
Qed.

Lemma byte_Z_of_Z z : byte_Z (Z_byte z) = Z.modulo z 256.
Proof.
  unfold byte_Z, Z_byte.
  pose proof (Z.mod_pos_bound z 256 ltac:(lia)) as Hm.
  destruct (Byte.of_N (Z.to_N (z mod 256))) as [b|] eqn:Hb.
  - apply Byte.to_of_N in Hb. rewrite Hb. lia.
  - apply Byte.of_N_None_iff in Hb. lia.
Qed.

Lemma Z_byte_of_byte b : Z_byte (byte_Z b) = b.
Proof.
  unfold Z_byte. rewrite Z.mod_small by apply byte_Z_range.
  unfold byte_Z. rewrite N2Z.id, Byte.of_to_N. reflexivity.
Qed.

Lemma byte_Z_inj a b : byte_Z a = byte_Z b -> a = b.
Proof. intros H. rewrite <- (Z_byte_of_byte a), <- (Z_byte_of_byte b). congruence. Qed.

Local Open Scope Z_scope.

Lemma lor_shiftl_byte a b :
  0 <= b < 256 -> Z.lor (Z.shiftl a 8) b = a * 256 + b.
Proof.
  intros Hb. rewrite Z.shiftl_mul_pow2 by lia. change (2 ^ 8) with 256.
  rewrite <- Z.add_nocarry_lor; [reflexivity|].
  apply Z.bits_inj'. intros n Hn. rewrite Z.land_spec, Z.bits_0.
  change 256 with (2 ^ 8).
  destruct (Z.ltb_spec n 8).
  - rewrite Z.mul_pow2_bits_low by lia. reflexivity.
  - rewrite <- (Z.mod_small b (2 ^ 8)) by lia.
    rewrite Z.mod_pow2_bits_high by lia. apply andb_false_r.
Qed.

Lemma u32_from_be_bytes4 a b c d :
  u32_from_be_bytes [a; b; c; d] =
  ((byte_Z a * 256 + byte_Z b) * 256 + byte_Z c) * 256 + byte_Z d.
Proof.
  unfold u32_from_be_bytes. cbn [fold_left].
  rewrite !lor_shiftl_byte by apply byte_Z_range. lia.
Qed.

(** Decoding four bytes always gives a [u32]. *)
Lemma u32_from_be_bytes_range l :
  length l = 4%nat -> is_u32 (u32_from_be_bytes l).
Proof.
  intros Hl. destruct l as [|a [|b [|c [|d [|]]]]]; try discriminate Hl.
  rewrite u32_from_be_bytes4. unfold is_u32, U32_MAX.
  pose proof (byte_Z_range a). pose proof (byte_Z_range b).
  pose proof (byte_Z_range c). pose proof (byte_Z_range d). lia.
Qed.

(** [u32::from_be_bytes] inverts [u32::to_be_bytes]. *)
Lemma u32_be_roundtrip z : is_u32 z -> u32_from_be_bytes (u32_to_be_bytes z) = z.
Proof.
  unfold is_u32, U32_MAX. intros Hz. unfold u32_to_be_bytes.
  rewrite u32_from_be_bytes4, !byte_Z_of_Z, !Z.shiftr_div_pow2 by lia.
  change (2 ^ 24) with (256 * (256 * 256)). change (2 ^ 16) with (256 * 256).
  change (2 ^ 8) with 256. rewrite <- !Z.div_div by lia.
  pose proof (Z.div_mod z 256). pose proof (Z.div_mod (z / 256) 256).
  pose proof (Z.div_mod (z / 256 / 256) 256).
  rewrite (Z.mod_small (z / 256 / 256 / 256) 256); [lia|].
  split; [repeat (apply Z.div_pos; [|lia]); lia|].
  repeat (apply Z.div_lt_upper_bound; [lia|]). lia.
Qed.

(** [u32::to_be_bytes] inverts [u32::from_be_bytes] on four bytes. *)
Lemma u32_be_roundtrip_bytes l :
  length l = 4%nat -> u32_to_be_bytes (u32_from_be_bytes l) = l.
Proof.
  intros Hl. destruct l as [|a [|b [|c [|d [|]]]]]; try discriminate Hl.
  rewrite u32_from_be_bytes4. unfold u32_to_be_bytes.
  rewrite !Z.shiftr_div_pow2 by lia.
  change (2 ^ 24) with (256 * (256 * 256)). change (2 ^ 16) with (256 * 256).
  change (2 ^ 8) with 256. rewrite <- !Z.div_div by lia.
  assert (Hd : forall x y, (x * 256 + byte_Z y) / 256 = x).
  { intros x y. rewrite Z.div_add_l by lia.
    rewrite Z.div_small by apply byte_Z_range. lia. }
  assert (Hb : forall x y, Z_byte (x * 256 + byte_Z y) = y).
  { intros x y. apply byte_Z_inj. rewrite byte_Z_of_Z, Z.add_comm, Z.mod_add by lia.
    apply Z.mod_small, byte_Z_range. }
  rewrite !Hd, !Hb, Z_byte_of_byte. reflexivity.
Qed.

Lemma length_u32_to_be_bytes z : length (u32_to_be_bytes z) = 4%nat.
Proof. reflexivity. Qed.

(** ** Lemmas on slices and lengths *)

Lemma zlen_nonneg {A} (l : list A) : 0 <= zlen l.
Proof. unfold zlen. lia. Qed.

Lemma zlen_nil {A} : zlen (@nil A) = 0.
Proof. reflexivity. Qed.

Lemma zlen_cons {A} (x : A) l : zlen (x :: l) = 1 + zlen l.
Proof. unfold zlen. cbn [length]. lia. Qed.

Lemma zlen_app {A} (l k : list A) : zlen (l ++ k) = zlen l + zlen k.
Proof. unfold zlen. rewrite length_app. lia. Qed.

Lemma zlen_drop {A} n (l : list A) :
  0 <= n <= zlen l -> zlen (drop (Z.to_nat n) l) = zlen l - n.
Proof. unfold zlen. rewrite length_drop. lia. Qed.

Lemma zlen_take {A} n (l : list A) :
  0 <= n <= zlen l -> zlen (take (Z.to_nat n) l) = n.
Proof. unfold zlen. rewrite length_take. lia. Qed.

Lemma slice_ok {E A} a b (l : list A) :
  0 <= a <= b -> b <= zlen l ->
  slice (E := E) a b l = Ok (take (Z.to_nat (b - a)) (drop (Z.to_nat a) l)).
Proof.
  intros. unfold slice.
  rewrite !(proj2 (Z.leb_le _ _)) by lia. reflexivity.
Qed.

Lemma drop_drop_Z {A} a b (l : list A) :
  0 <= a -> 0 <= b -> drop (Z.to_nat b) (drop (Z.to_nat a) l) = drop (Z.to_nat (a + b)) l.
Proof. intros. rewrite drop_drop. f_equal. lia. Qed.

Lemma take_zlen_app {A} (p q : list A) : take (Z.to_nat (zlen p)) (p ++ q) = p.
Proof. unfold zlen. rewrite Nat2Z.id. apply take_app_length. Qed.

Lemma drop_zlen_app {A} (p q : list A) : drop (Z.to_nat (zlen p)) (p ++ q) = q.
Proof. unfold zlen. rewrite Nat2Z.id. apply drop_app_length. Qed.

Lemma zlen_u32_to_be_bytes z : zlen (u32_to_be_bytes z) = 4.
Proof. reflexivity. Qed.

#[export] Hint Rewrite @zlen_nil @zlen_cons @zlen_app zlen_u32_to_be_bytes : ferro.
#[export] Hint Resolve zlen_nonneg byte_Z_range : ferro.
