(* ===== verification/Sequence.v ===== *)
(** * Serial-number arithmetic of Lumberjack acknowledgements

    Model of [crates/ferro-lumberjack/src/sequence.rs]: the [Sequence]
    newtype over [u32], its wrapping [advance], and the two comparisons an
    ACK is checked with. The theorems relate the wrapped comparisons to the
    distance travelled on the [2^32] circle (RFC 1982). *)

From S2P Require Import Prelude.

Local Open Scope Z_scope.

(** [struct Sequence(u32)]. *)
Record Sequence := mkSequence { seq_raw : Z }.

#[export] Instance Sequence_eq_dec : EqDecision Sequence.
Proof. solve_decision. Defined.

Module Sequence.

Definition new (v : Z) : Sequence := mkSequence v.

Definition value (s : Sequence) : Z := seq_raw s.

Definition advance (s : Sequence) (n : Z) : Sequence :=
  mkSequence (u32_wrapping_add (seq_raw s) n).

Definition is_exactly_acked_by (s : Sequence) (acked : Z) : bool :=
  u32_wrapping_sub acked (seq_raw s) =? 0.

Definition is_at_least_acked_by (s : Sequence) (acked : Z) : bool :=
  u32_wrapping_sub acked (seq_raw s) <? 0x80000000.

(** The values the [u32] field can hold. *)
Definition wf (s : Sequence) : Prop := is_u32 (seq_raw s).

(** ** Lemmas *)

Lemma u32_wrap_range z : is_u32 (u32_wrap z).
Proof.
  unfold is_u32, u32_wrap, U32_MAX.
  pose proof (Z.mod_pos_bound z 4294967296). lia.
Qed.

Lemma u32_wrap_small z : is_u32 z -> u32_wrap z = z.
Proof. unfold is_u32, u32_wrap, U32_MAX. intros. apply Z.mod_small. lia. Qed.

Lemma u32_wrapping_sub_cases a b :
  is_u32 a -> is_u32 b ->
  u32_wrapping_sub a b = if b <=? a then a - b else a - b + 4294967296.
Proof.
  unfold is_u32, U32_MAX, u32_wrapping_sub, u32_wrap. intros Ha Hb.
  bool_cases.
  - apply Z.mod_small. lia.
  - symmetry. apply (Z.mod_unique_pos _ _ (-1)); lia.
Qed.

Lemma advance_wf s n : wf (advance s n).
Proof. apply u32_wrap_range. Qed.

(** Two advances compose, whatever wraps in between. *)
Lemma advance_advance s m n : advance (advance s m) n = advance s (m + n).
Proof.
  unfold advance, u32_wrapping_add, u32_wrap. cbn. f_equal.
  rewrite Zplus_mod_idemp_l. f_equal. lia.
Qed.

Lemma advance_0 s : wf s -> advance s 0 = s.
Proof.
  intros Hs. unfold advance, u32_wrapping_add. rewrite Z.add_0_r, u32_wrap_small by exact Hs.
  destruct s; reflexivity.
Qed.

(** Subtracting the base recovers the distance advanced. *)
Lemma wrapping_sub_advance s n :
  wf s -> is_u32 n -> u32_wrapping_sub (value (advance s n)) (seq_raw s) = n.
Proof.
  unfold wf, is_u32, U32_MAX. intros Hs Hn. unfold value, advance, u32_wrapping_add, u32_wrapping_sub, u32_wrap.
  cbn. rewrite Zminus_mod_idemp_l. rewrite Z.mod_small; lia.
Qed.

(** The exact test is equality of the [u32] values. *)
Lemma is_exactly_acked_by_spec s a :
  wf s -> is_u32 a -> is_exactly_acked_by s a = true <-> a = value s.
Proof.
  intros Hs Ha. unfold is_exactly_acked_by, value. rewrite Z.eqb_eq.
  rewrite u32_wrapping_sub_cases by assumption.
  unfold wf, is_u32, U32_MAX in *. bool_cases; lia.
Qed.

End Sequence.

(** ** Properties *)

(** The at-least test is exactly "on the forward half circle": an ACK [a] is
    accepted for [s] precisely when [a] is reached from [s] by advancing
    fewer than [2^31] steps, wrap-around included. *)
Theorem at_least_acked_iff_forward (s : Sequence) (a : Z)
    (Hs : Sequence.wf s) (Ha : is_u32 a) :
  Sequence.is_at_least_acked_by s a = true <->
  exists n, 0 <= n < 0x80000000 /\ Sequence.value (Sequence.advance s n) = a.
Proof.
  unfold Sequence.is_at_least_acked_by. rewrite Z.ltb_lt. split.
  - intros H. exists (u32_wrapping_sub a (seq_raw s)). split.
    + split; [apply Sequence.u32_wrap_range|exact H].
    + unfold Sequence.value, Sequence.advance, u32_wrapping_add, u32_wrapping_sub, u32_wrap. cbn.
      rewrite Zplus_mod_idemp_r. replace (seq_raw s + (a - seq_raw s)) with a by lia.
      apply Sequence.u32_wrap_small, Ha.
  - intros (n & Hn & <-).
    rewrite Sequence.wrapping_sub_advance; [lia|exact Hs|unfold is_u32, U32_MAX; lia].
Qed.

Lemma at_least_acked_iff_forward_witness :
  (Sequence.is_at_least_acked_by (Sequence.new 4294967290) 3 = true <->
   exists n, 0 <= n < 0x80000000 /\
     Sequence.value (Sequence.advance (Sequence.new 4294967290) n) = 3)
  /\ Sequence.is_at_least_acked_by (Sequence.new 4294967290) 3 = true.
Proof.
  split; [|reflexivity].
  apply (at_least_acked_iff_forward (Sequence.new 4294967290) 3);
    unfold Sequence.wf, is_u32, U32_MAX; cbn; lia.
Defined.

(** Away from the antipode the comparison is a strict order on distinct
    numbers: exactly one of two distinct sequence numbers is acknowledged by
    the other, unless they are exactly [2^31] apart, in which case neither is. *)
Theorem at_least_acked_antisymmetric (a b : Sequence)
    (Ha : Sequence.wf a) (Hb : Sequence.wf b) (Hne : a <> b) :
  (Sequence.is_at_least_acked_by a (Sequence.value b) &&
     Sequence.is_at_least_acked_by b (Sequence.value a) = false)%bool /\
  (Sequence.is_at_least_acked_by a (Sequence.value b) ||
     Sequence.is_at_least_acked_by b (Sequence.value a) = false <->
   Z.abs (seq_raw a - seq_raw b) = 0x80000000)%bool.
Proof.
  assert (seq_raw a <> seq_raw b) by (destruct a, b; cbn in *; congruence).
  unfold Sequence.is_at_least_acked_by, Sequence.value.
  rewrite !Sequence.u32_wrapping_sub_cases by assumption.
  unfold Sequence.wf, is_u32, U32_MAX in *.
  bool_cases; cbn; split; try split; try lia; try discriminate; reflexivity.
Qed.

Lemma at_least_acked_antisymmetric_witness :
  Sequence.is_at_least_acked_by (Sequence.new 4294967295) 0 = true /\
  (Sequence.is_at_least_acked_by (Sequence.new 4294967295) (Sequence.value (Sequence.new 0)) &&
     Sequence.is_at_least_acked_by (Sequence.new 0) (Sequence.value (Sequence.new 4294967295)))%bool = false.
Proof.
  split; [reflexivity|].
  apply (at_least_acked_antisymmetric (Sequence.new 4294967295) (Sequence.new 0));
    [unfold Sequence.wf, is_u32, U32_MAX; cbn; lia ..|discriminate].
Defined.
