(* ===== verification/Frame.v ===== *)
(** * The Lumberjack v2 frame codec

    Model of [crates/ferro-lumberjack/src/frame.rs] (and the codec constants
    and error type of [lib.rs] and [error.rs]): the frame types, the four
    encoders and the streaming [FrameDecoder] with its buffer, read position
    and per-frame size cap. Definitions only; [FrameSpec] states what the
    decoder implements and proves it.

    zlib is third-party code: the class [Zlib] names the two library calls the
    codec makes, and every definition that reaches them takes it as an
    argument. *)

From S2P Require Import Prelude.

Local Open Scope Z_scope.

(** ** Constants *)

Definition PROTOCOL_VERSION : byte := "2"%byte.
Definition DEFAULT_MAX_FRAME_PAYLOAD : Z := 64 * 1024 * 1024.
Definition DEFAULT_MAX_WINDOW_EVENTS : Z := 100000.
Definition DEFAULT_MAX_WINDOW_BYTES : Z := 256 * 1024 * 1024.

Definition FRAME_TYPE_WINDOW : byte := "W"%byte.
Definition FRAME_TYPE_JSON : byte := "J"%byte.
Definition FRAME_TYPE_COMPRESSED : byte := "C"%byte.
Definition FRAME_TYPE_ACK : byte := "A"%byte.
Definition FRAME_TYPE_DATA_LEGACY : byte := "D"%byte.

(** ** Data *)

Inductive FrameError :=
| UnsupportedVersion (b : byte)
| UnknownFrameType (b : byte)
| PayloadTooLarge (requested limit : Z)
| Decompression (msg : string)
| DecompressedTooLarge (limit : Z)
| Compression (msg : string).

Inductive FrameType := FtWindow | FtJson | FtCompressed | FtAck.

Definition wire_byte (t : FrameType) : byte :=
  match t with
  | FtWindow => FRAME_TYPE_WINDOW
  | FtJson => FRAME_TYPE_JSON
  | FtCompressed => FRAME_TYPE_COMPRESSED
  | FtAck => FRAME_TYPE_ACK
  end.

Inductive Frame :=
| Window (count : Z)
| Json (seq : Z) (payload : bytes)
| Compressed (decompressed : bytes)
| Ack (seq : Z)
| Unknown (frame_type : byte) (raw : bytes).

#[export] Instance FrameError_eq_dec : EqDecision FrameError.
Proof. solve_decision. Defined.

#[export] Instance Frame_eq_dec : EqDecision Frame.
Proof. solve_decision. Defined.

(** ** zlib, as the codec calls it *)

(** [zlib_compress level x]: [ZlibEncoder::new(Vec::new(), Compression::new(level))],
    [write_all(x)], [finish()].
    [zlib_read_take c n]: [ZlibDecoder::new(c).take(n).read_to_end(&mut out)]. *)
Class Zlib := {
  zlib_compress : Z -> bytes -> outcome string bytes;
  zlib_read_take : bytes -> Z -> outcome string bytes;
}.

(** Documented behaviour: neither call panics, [Take] never yields more than
    its limit, and decompression inverts compression (up to the limit). *)
Class ZlibLaws (Z0 : Zlib) : Prop := {
  zlib_compress_total : forall l x, zlib_compress l x <> Panic;
  zlib_read_total : forall c n, zlib_read_take c n <> Panic;
  zlib_read_bound : forall c n out, 0 <= n -> zlib_read_take c n = Ok out -> zlen out <= n;
  zlib_read_compress : forall l x c n, 0 <= n ->
    zlib_compress l x = Ok c -> zlib_read_take c n = Ok (take (Z.to_nat n) x);
}.

(** ** Encoders *)

Definition encode_window (count : Z) : bytes :=
  [PROTOCOL_VERSION; FRAME_TYPE_WINDOW] ++ u32_to_be_bytes count.

Definition encode_ack (seq : Z) : bytes :=
  [PROTOCOL_VERSION; FRAME_TYPE_ACK] ++ u32_to_be_bytes seq.

Definition encode_json_frame (seq : Z) (payload : bytes) : bytes :=
  let len := default U32_MAX (u32_try_from (zlen payload)) in
  [PROTOCOL_VERSION; FRAME_TYPE_JSON] ++ u32_to_be_bytes seq ++ u32_to_be_bytes len ++ payload.

Definition encode_compressed `{Zlib} (level : Z) (inner_frames : bytes) : outcome FrameError bytes :=
  compressed ← map_err Compression (zlib_compress level inner_frames);
  len ← ok_or (u32_try_from (zlen compressed)) (PayloadTooLarge (zlen compressed) U32_MAX);
  mret ([PROTOCOL_VERSION; FRAME_TYPE_COMPRESSED] ++ u32_to_be_bytes len ++ compressed).

(** ** Streaming decoder *)

Record FrameDecoder := mkDecoder {
  buf : bytes;
  read_pos : Z;
  max_frame_payload : Z;
}.

Definition with_max_frame_payload (m : Z) : FrameDecoder := mkDecoder [] 0 m.

Definition FrameDecoder_new : FrameDecoder := with_max_frame_payload DEFAULT_MAX_FRAME_PAYLOAD.

Definition feed (d : FrameDecoder) (bs : bytes) : FrameDecoder :=
  let d := if (0 <? read_pos d) && (zlen (buf d) / 2 <=? read_pos d)
           then mkDecoder (drop (Z.to_nat (read_pos d)) (buf d)) 0 (max_frame_payload d)
           else d in
  mkDecoder (buf d ++ bs) (read_pos d) (max_frame_payload d).

Definition pending (d : FrameDecoder) : Z := zlen (buf d) - read_pos d.

(** [self.read_pos += n]. *)
Definition advance_read (n : Z) (d : FrameDecoder) : FrameDecoder :=
  mkDecoder (buf d) (read_pos d + n) (max_frame_payload d).

Definition read_at (m : Z) (offset : Z) (d : FrameDecoder) : outcome FrameError (option bytes) :=
  let start := read_pos d + offset in
  if zlen (buf d) <? start + m then Ok None
  else out ← slice start (start + m) (buf d); mret (Some out).

(** [u32::from_be_bytes(self.read_at::<4>(offset).expect(..))]. *)
Definition read_u32_at (offset : Z) (d : FrameDecoder) : outcome FrameError Z :=
  o ← read_at 4 offset d; b ← expect o; mret (u32_from_be_bytes b).

Definition try_decode_window : stm FrameDecoder FrameError (option Frame) :=
  d ← st_get;
  if pending d <? 6 then mret None else
  count ← st_lift (read_u32_at 2 d);
  st_modify (advance_read 6);;
  mret (Some (Window count)).

Definition try_decode_ack : stm FrameDecoder FrameError (option Frame) :=
  d ← st_get;
  if pending d <? 6 then mret None else
  seq ← st_lift (read_u32_at 2 d);
  st_modify (advance_read 6);;
  mret (Some (Ack seq)).

Definition try_decode_json : stm FrameDecoder FrameError (option Frame) :=
  d ← st_get;
  if pending d <? 10 then mret None else
  seq ← st_lift (read_u32_at 2 d);
  len ← st_lift (read_u32_at 6 d);
  if max_frame_payload d <? len
  then st_throw (PayloadTooLarge len (max_frame_payload d)) else
  if pending d <? 10 + len then mret None else
  let start := read_pos d + 10 in
  payload ← st_lift (slice start (start + len) (buf d));
  st_modify (advance_read (10 + len));;
  mret (Some (Json seq payload)).

Definition decompress_capped `{Zlib} (compressed : bytes) (limit : Z) : outcome FrameError bytes :=
  let take_plus_one := u64_saturating_add limit 1 in
  out ← map_err Decompression (zlib_read_take compressed take_plus_one);
  if limit <? zlen out then Err (DecompressedTooLarge limit) else Ok out.

Definition try_decode_compressed `{Zlib} : stm FrameDecoder FrameError (option Frame) :=
  d ← st_get;
  if pending d <? 6 then mret None else
  len ← st_lift (read_u32_at 2 d);
  if max_frame_payload d <? len
  then st_throw (PayloadTooLarge len (max_frame_payload d)) else
  if pending d <? 6 + len then mret None else
  let start := read_pos d + 6 in
  compressed ← st_lift (slice start (start + len) (buf d));
  decompressed ← st_lift (decompress_capped compressed (max_frame_payload d));
  st_modify (advance_read (6 + len));;
  mret (Some (Compressed decompressed)).

(** One length-prefixed item of the pair walk: [None] asks for more bytes,
    [Some cursor'] is the cursor after the item. *)
Definition walk_item (d : FrameDecoder) (cursor : Z) : outcome FrameError (option Z) :=
  if pending d <? cursor + 4 then Ok None else
  len ← read_u32_at cursor d;
  if max_frame_payload d <? len
  then Err (PayloadTooLarge len (max_frame_payload d))
  else Ok (Some (cursor + (4 + len))).

(** The [for _ in 0..pair_count] loop. Every iteration that continues has read
    eight bytes of the buffer, so the buffer's length bounds the iterations
    whatever the declared count; [FrameSpec] shows the fuel is enough. *)
Fixpoint walk_pairs (fuel : nat) (d : FrameDecoder) (pair_count cursor : Z)
    : outcome FrameError (option Z) :=
  if pair_count <=? 0 then Ok (Some cursor) else
  match fuel with
  | O => Panic
  | S fuel =>
    o1 ← walk_item d cursor;
    match o1 with
    | None => Ok None
    | Some cursor =>
      o2 ← walk_item d cursor;
      match o2 with
      | None => Ok None
      | Some cursor => walk_pairs fuel d (pair_count - 1) cursor
      end
    end
  end.

Definition walk_fuel (d : FrameDecoder) : nat := S (length (buf d)).

Definition try_decode_unknown_with_seq_count (type_byte : byte)
    : stm FrameDecoder FrameError (option Frame) :=
  d ← st_get;
  if pending d <? 10 then mret None else
  pair_count ← st_lift (read_u32_at 6 d);
  o ← st_lift (walk_pairs (walk_fuel d) d pair_count 10);
  match o with
  | None => mret None
  | Some cursor =>
    if pending d <? cursor then mret None else
    raw ← st_lift (slice (read_pos d) (read_pos d + cursor) (buf d));
    st_modify (advance_read cursor);;
    mret (Some (Unknown type_byte raw))
  end.

Definition next_frame `{Zlib} : stm FrameDecoder FrameError (option Frame) :=
  d ← st_get;
  if pending d <? 2 then mret None else
  header ← st_lift (slice (read_pos d) (read_pos d + 2) (buf d));
  match header with
  | [version; frame_type] =>
    if bool_decide (version ≠ PROTOCOL_VERSION) then st_throw (UnsupportedVersion version) else
    if bool_decide (frame_type = FRAME_TYPE_WINDOW) then try_decode_window else
    if bool_decide (frame_type = FRAME_TYPE_ACK) then try_decode_ack else
    if bool_decide (frame_type = FRAME_TYPE_JSON) then try_decode_json else
    if bool_decide (frame_type = FRAME_TYPE_COMPRESSED) then try_decode_compressed else
    if bool_decide (frame_type = FRAME_TYPE_DATA_LEGACY)
    then try_decode_unknown_with_seq_count FRAME_TYPE_DATA_LEGACY
    else st_throw (UnknownFrameType frame_type)
  | _ => st_lift Panic
  end.
