(* ===== verification/FrameSpec.v ===== *)
(** * What the frame decoder implements

    The abstract contract of [FrameDecoder]: a pure parser [parse_frame] of
    the bytes that are pending, with no buffer and no read position. The
    refinement theorem shows that [next_frame] is that parser (and never
    panics), and from it follow the round trips with the encoders, the
    independence of the decoded frames from how the bytes were chunked into
    [feed] calls, the progress of the drain loop and the size caps. *)

From S2P Require Import Prelude Frame.

Local Open Scope Z_scope.

(** ** The abstract parser *)

Definition be_u32_at (off : Z) (p : bytes) : Z :=
  u32_from_be_bytes (take 4 (drop (Z.to_nat off) p)).

(** The bytes not yet consumed, and the invariant that keeps them well defined. *)
Definition rest (d : FrameDecoder) : bytes := drop (Z.to_nat (read_pos d)) (buf d).

Definition wf (d : FrameDecoder) : Prop := 0 <= read_pos d <= zlen (buf d).

(** A parse gives [None] (more bytes needed) or a frame and its length. *)
Definition parsed : Type := outcome FrameError (option (Frame * Z)).

Section Parser.
Context `{Zlib} (max : Z).

Definition parse_fixed6 (mk : Z -> Frame) (p : bytes) : parsed :=
  if zlen p <? 6 then Ok None else Ok (Some (mk (be_u32_at 2 p), 6)).

Definition parse_json (p : bytes) : parsed :=
  if zlen p <? 10 then Ok None else
  let len := be_u32_at 6 p in
  if max <? len then Err (PayloadTooLarge len max) else
  if zlen p <? 10 + len then Ok None else
  Ok (Some (Json (be_u32_at 2 p) (take (Z.to_nat len) (drop 10 p)), 10 + len)).

Definition parse_compressed (p : bytes) : parsed :=
  if zlen p <? 6 then Ok None else
  let len := be_u32_at 2 p in
  if max <? len then Err (PayloadTooLarge len max) else
  if zlen p <? 6 + len then Ok None else
  out ← decompress_capped (take (Z.to_nat len) (drop 6 p)) max;
  Ok (Some (Compressed out, 6 + len)).

Definition parse_item (p : bytes) (cursor : Z) : outcome FrameError (option Z) :=
  if zlen p <? cursor + 4 then Ok None else
  let len := be_u32_at cursor p in
  if max <? len then Err (PayloadTooLarge len max) else Ok (Some (cursor + (4 + len))).

Fixpoint parse_pairs (fuel : nat) (p : bytes) (pair_count cursor : Z)
    : outcome FrameError (option Z) :=
  if pair_count <=? 0 then Ok (Some cursor) else
  match fuel with
  | O => Panic
  | S fuel =>
    o1 ← parse_item p cursor;
    match o1 with
    | None => Ok None
    | Some cursor =>
      o2 ← parse_item p cursor;
      match o2 with
      | None => Ok None
      | Some cursor => parse_pairs fuel p (pair_count - 1) cursor
      end
    end
  end.

Definition parse_legacy (p : bytes) : parsed :=
  if zlen p <? 10 then Ok None else
  o ← parse_pairs (S (length p)) p (be_u32_at 6 p) 10;
  match o with
  | None => Ok None
  | Some cursor =>
    if zlen p <? cursor then Ok None
    else Ok (Some (Unknown FRAME_TYPE_DATA_LEGACY (take (Z.to_nat cursor) p), cursor))
  end.

Definition parse_frame (p : bytes) : parsed :=
  match p with
  | version :: frame_type :: _ =>
    if bool_decide (version ≠ PROTOCOL_VERSION) then Err (UnsupportedVersion version) else
    if bool_decide (frame_type = FRAME_TYPE_WINDOW) then parse_fixed6 Window p else
    if bool_decide (frame_type = FRAME_TYPE_ACK) then parse_fixed6 Ack p else
    if bool_decide (frame_type = FRAME_TYPE_JSON) then parse_json p else
    if bool_decide (frame_type = FRAME_TYPE_COMPRESSED) then parse_compressed p else
    if bool_decide (frame_type = FRAME_TYPE_DATA_LEGACY) then parse_legacy p
    else Err (UnknownFrameType frame_type)
  | _ => Ok None
  end.

(** How a parse of the pending bytes acts on the decoder. *)
Definition apply_parse (d : FrameDecoder) (r : parsed)
    : FrameDecoder * outcome FrameError (option Frame) :=
  match r with
  | Ok None => (d, Ok None)
  | Ok (Some (f, n)) => (advance_read n d, Ok (Some f))
  | Err e => (d, Err e)
  | Panic => (d, Panic)
  end.

(** The drain loop [while let Some(f) = d.next_frame()?], on the abstract side:
    the frames decoded, the error that stopped the loop if any, and the bytes
    left. *)
Fixpoint parse_all (fuel : nat) (p : bytes) : list Frame * outcome FrameError unit * bytes :=
  match fuel with
  | O => ([], Panic, p)
  | S fuel =>
    match parse_frame p with
    | Ok None => ([], Ok tt, p)
    | Ok (Some (f, n)) =>
      let '(fs, r, q) := parse_all fuel (drop (Z.to_nat n) p) in (f :: fs, r, q)
    | Err e => ([], Err e, p)
    | Panic => ([], Panic, p)
    end
  end.

End Parser.

(** ** The drain loop over a decoder, as [read_window] runs it *)

Fixpoint drain `{Zlib} (fuel : nat) (d : FrameDecoder)
    : list Frame * outcome FrameError unit * FrameDecoder :=
  match fuel with
  | O => ([], Panic, d)
  | S fuel =>
    match next_frame d with
    | (d', Ok None) => ([], Ok tt, d')
    | (d', Ok (Some f)) => let '(fs, r, d'') := drain fuel d' in (f :: fs, r, d'')
    | (d', Err e) => ([], Err e, d')
    | (d', Panic) => ([], Panic, d')
    end
  end.

Definition drain_fuel (d : FrameDecoder) : nat := S (length (buf d)).

(** Feed the chunks one after the other, draining after each, until an error. *)
Fixpoint feed_chunks `{Zlib} (d : FrameDecoder) (chunks : list bytes)
    : list Frame * outcome FrameError unit * FrameDecoder :=
  match chunks with
  | [] => ([], Ok tt, d)
  | c :: chunks =>
    let d := feed d c in
    match drain (drain_fuel d) d with
    | (fs, Ok _, d) => let '(fs', r, d) := feed_chunks d chunks in (fs ++ fs', r, d)
    | (fs, r, d) => (fs, r, d)
    end
  end.

#[local] Arguments pending : simpl never.
#[local] Arguments read_u32_at : simpl never.
#[local] Arguments slice : simpl never.
#[local] Arguments zlen : simpl never.
#[local] Arguments be_u32_at : simpl never.
#[local] Arguments rest : simpl never.

(** ** Lemmas: positions in the buffer and in the pending bytes *)

Lemma pending_rest d : wf d -> pending d = zlen (rest d).
Proof. intros Hd. unfold pending, rest. rewrite zlen_drop by exact Hd. lia. Qed.

Lemma slice_rest d a b :
  wf d -> 0 <= a <= b -> b <= zlen (rest d) ->
  slice (E := FrameError) (read_pos d + a) (read_pos d + b) (buf d)
  = Ok (take (Z.to_nat (b - a)) (drop (Z.to_nat a) (rest d))).
Proof.
  intros Hd Hab Hb. rewrite <- pending_rest in Hb by exact Hd. unfold pending in Hb.
  destruct Hd. rewrite slice_ok by lia. unfold rest. rewrite drop_drop_Z by lia.
  f_equal. f_equal. lia.
Qed.

Lemma read_u32_at_rest d off :
  wf d -> 0 <= off -> off + 4 <= zlen (rest d) ->
  read_u32_at off d = Ok (be_u32_at off (rest d)).
Proof.
  intros Hd Ho Hl. unfold read_u32_at, read_at.
  pose proof Hl as Hl'. rewrite <- pending_rest in Hl' by exact Hd. unfold pending in Hl'.
  destruct (Z.ltb_spec (zlen (buf d)) (read_pos d + off + 4)); [lia|].
  replace (read_pos d + off + 4) with (read_pos d + (off + 4)) by lia.
  rewrite slice_rest by (assumption || lia). cbn.
  replace (off + 4 - off) with 4 by lia. reflexivity.
Qed.

Lemma be_u32_at_range off p :
  0 <= off -> off + 4 <= zlen p -> is_u32 (be_u32_at off p).
Proof.
  intros. apply u32_from_be_bytes_range. rewrite length_take, length_drop.
  unfold zlen in *. lia.
Qed.

Lemma be_u32_at_app off p q :
  0 <= off -> off + 4 <= zlen p -> be_u32_at off (p ++ q) = be_u32_at off p.
Proof.
  intros. unfold be_u32_at, zlen in *. f_equal.
  rewrite drop_app_le by lia. rewrite take_app_le; [reflexivity|].
  rewrite length_drop. lia.
Qed.

(** ** Lemmas: the pair walk *)

Section Walk.
Context (max : Z).

Lemma walk_item_rest d cursor :
  wf d -> max = max_frame_payload d -> 0 <= cursor ->
  walk_item d cursor = parse_item max (rest d) cursor.
Proof.
  intros Hd -> Hc. unfold walk_item, parse_item. rewrite pending_rest by exact Hd.
  bool_cases; [reflexivity|..];
    rewrite read_u32_at_rest by (assumption || lia); cbn; bool_cases; reflexivity || lia.
Qed.

Lemma parse_item_grows p cursor c' :
  0 <= cursor -> parse_item max p cursor = Ok (Some c') ->
  cursor + 4 <= c' <= cursor + 4 + U32_MAX /\ cursor + 4 <= zlen p.
Proof.
  unfold parse_item. intros Hc Hi.
  destruct (Z.ltb_spec (zlen p) (cursor + 4)); [discriminate|].
  destruct (max <? be_u32_at cursor p); [discriminate|]. injection Hi as <-.
  pose proof (be_u32_at_range cursor p Hc ltac:(lia)) as Hr. unfold is_u32 in Hr. lia.
Qed.

Lemma walk_pairs_rest fuel d n cursor :
  wf d -> max = max_frame_payload d -> 0 <= cursor ->
  walk_pairs fuel d n cursor = parse_pairs max fuel (rest d) n cursor.
Proof.
  intros Hd Hm. revert n cursor.
  induction fuel as [|fuel IH]; intros n cursor Hc; cbn [walk_pairs parse_pairs]; [reflexivity|].
  destruct (n <=? 0); [reflexivity|]. rewrite walk_item_rest by assumption.
  destruct (parse_item max (rest d) cursor) as [[c1|]| |] eqn:E1; cbn; try reflexivity.
  apply parse_item_grows in E1; [|exact Hc]. rewrite walk_item_rest by (assumption || lia).
  destruct (parse_item max (rest d) c1) as [[c2|]| |] eqn:E2; cbn; try reflexivity.
  apply parse_item_grows in E2; [|lia]. apply IH. lia.
Qed.

(** Fuel beyond the bytes still ahead of the cursor does not matter, and the
    walk never runs out of it. *)
Lemma parse_pairs_fuel f1 f2 p n cursor :
  0 <= cursor -> zlen p - cursor < Z.of_nat f1 -> zlen p - cursor < Z.of_nat f2 ->
  (0 < f1)%nat -> (0 < f2)%nat ->
  parse_pairs max f1 p n cursor = parse_pairs max f2 p n cursor.
Proof.
  revert f2 n cursor. induction f1 as [|f1 IH]; intros f2 n cursor Hc H1 H2 Hp1 Hp2; [lia|].
  destruct f2 as [|f2]; [lia|]. cbn [parse_pairs].
  destruct (n <=? 0) eqn:En; [reflexivity|].
  destruct (parse_item max p cursor) as [[c1|]| |] eqn:E1; cbn; try reflexivity.
  apply parse_item_grows in E1; [|exact Hc].
  destruct (parse_item max p c1) as [[c2|]| |] eqn:E2; cbn; try reflexivity.
  apply parse_item_grows in E2; [|lia]. apply IH; lia.
Qed.

Lemma parse_pairs_total fuel p n cursor :
  0 <= cursor -> zlen p - cursor < Z.of_nat fuel -> (0 < fuel)%nat ->
  parse_pairs max fuel p n cursor <> Panic.
Proof.
  revert n cursor. induction fuel as [|fuel IH]; intros n cursor Hc H1 Hp; [lia|].
  cbn [parse_pairs]. destruct (n <=? 0); [discriminate|].
  destruct (parse_item max p cursor) as [[c1|]| |] eqn:E1; cbn; try discriminate.
  - apply parse_item_grows in E1; [|exact Hc].
    destruct (parse_item max p c1) as [[c2|]| |] eqn:E2; cbn; try discriminate.
    + apply parse_item_grows in E2; [|lia]. apply IH; lia.
    + unfold parse_item in E2. revert E2. repeat case_match; discriminate.
  - unfold parse_item in E1. revert E1. repeat case_match; discriminate.
Qed.

Lemma parse_pairs_grows fuel p n cursor c' :
  0 <= cursor -> parse_pairs max fuel p n cursor = Ok (Some c') -> cursor <= c'.
Proof.
  revert n cursor. induction fuel as [|fuel IH]; intros n cursor Hc; cbn [parse_pairs].
  - destruct (n <=? 0); [|discriminate]. intros [= <-]. lia.
  - destruct (n <=? 0). { intros [= <-]. lia. }
    destruct (parse_item max p cursor) as [[c1|]| |] eqn:E1; cbn; try discriminate.
    apply parse_item_grows in E1; [|exact Hc].
    destruct (parse_item max p c1) as [[c2|]| |] eqn:E2; cbn; try discriminate.
    apply parse_item_grows in E2; [|lia]. intros Hc'. apply IH in Hc'; lia.
Qed.

Lemma parse_item_app p q cursor :
  0 <= cursor -> parse_item max p cursor <> Ok None ->
  parse_item max (p ++ q) cursor = parse_item max p cursor.
Proof.
  unfold parse_item. intros Hc Hn. rewrite zlen_app. pose proof (zlen_nonneg q).
  destruct (Z.ltb_spec (zlen p) (cursor + 4)); [congruence|].
  destruct (Z.ltb_spec (zlen p + zlen q) (cursor + 4)); [lia|].
  rewrite be_u32_at_app by lia. reflexivity.
Qed.

Lemma parse_pairs_app fuel p q n cursor :
  0 <= cursor -> parse_pairs max fuel p n cursor <> Ok None ->
  parse_pairs max fuel p n cursor <> Panic ->
  parse_pairs max fuel (p ++ q) n cursor = parse_pairs max fuel p n cursor.
Proof.
  revert n cursor. induction fuel as [|fuel IH]; intros n cursor Hc; cbn [parse_pairs]; [reflexivity|].
  destruct (n <=? 0); [reflexivity|].
  destruct (parse_item max p cursor) as [o1| |] eqn:E1; cbn;
    [destruct o1 as [c1|]; [|congruence]|..]; intros Hn Hp;
    (rewrite parse_item_app by (rewrite ?E1; assumption || congruence)); rewrite E1; cbn; try reflexivity.
  apply parse_item_grows in E1; [|exact Hc].
  destruct (parse_item max p c1) as [o2| |] eqn:E2; cbn in *;
    [destruct o2 as [c2|]; [|congruence]|..];
    (rewrite parse_item_app by (rewrite ?E2; lia || congruence)); rewrite E2; cbn; try reflexivity.
  apply parse_item_grows in E2; [|lia]. apply IH; [lia|assumption..].
Qed.

End Walk.

(** ** Lemmas: each decoder routine parses the pending bytes *)

Section Refine.
Context `{Z0 : Zlib}.

Lemma length_rest_le d : (length (rest d) <= length (buf d))%nat.
Proof. unfold rest. rewrite length_drop. lia. Qed.

Lemma try_decode_fixed6_refines d (mk : Z -> Frame) :
  wf d ->
  (d ← st_get;
   if pending d <? 6 then mret None else
   c ← st_lift (read_u32_at 2 d);
   st_modify (advance_read 6);; mret (Some (mk c))) d
  = apply_parse d (parse_fixed6 mk (rest d)).
Proof.
  intros Hd. unfold parse_fixed6. run_st. rewrite pending_rest by exact Hd.
  bool_cases; [reflexivity|].
  rewrite read_u32_at_rest by (assumption || lia). reflexivity.
Qed.

Lemma try_decode_json_refines d :
  wf d -> try_decode_json d = apply_parse d (parse_json (max_frame_payload d) (rest d)).
Proof.
  intros Hd. unfold try_decode_json, parse_json. run_st. rewrite pending_rest by exact Hd.
  destruct (Z.ltb_spec (zlen (rest d)) 10); [reflexivity|].
  rewrite !read_u32_at_rest by (assumption || lia).
  pose proof (be_u32_at_range 6 (rest d) ltac:(lia) ltac:(lia)) as Hr. unfold is_u32 in Hr.
  bool_cases; try reflexivity. rewrite <- Z.add_assoc, slice_rest by (assumption || lia).
  cbn. do 5 f_equal. f_equal. lia.
Qed.

Lemma try_decode_compressed_refines d :
  wf d -> try_decode_compressed d = apply_parse d (parse_compressed (max_frame_payload d) (rest d)).
Proof.
  intros Hd. unfold try_decode_compressed, parse_compressed. run_st. rewrite pending_rest by exact Hd.
  destruct (Z.ltb_spec (zlen (rest d)) 6); [reflexivity|].
  rewrite !read_u32_at_rest by (assumption || lia).
  pose proof (be_u32_at_range 2 (rest d) ltac:(lia) ltac:(lia)) as Hr. unfold is_u32 in Hr.
  bool_cases; try reflexivity. rewrite <- Z.add_assoc, slice_rest by (assumption || lia).
  replace (6 + be_u32_at 2 (rest d) - 6) with (be_u32_at 2 (rest d)) by lia.
  change (Z.to_nat 6) with 6%nat.
  destruct (decompress_capped _ _); reflexivity.
Qed.

Lemma try_decode_legacy_refines d :
  wf d ->
  try_decode_unknown_with_seq_count FRAME_TYPE_DATA_LEGACY d
  = apply_parse d (parse_legacy (max_frame_payload d) (rest d)).
Proof.
  intros Hd. unfold try_decode_unknown_with_seq_count, parse_legacy. run_st.
  rewrite pending_rest by exact Hd.
  destruct (Z.ltb_spec (zlen (rest d)) 10); [reflexivity|].
  rewrite read_u32_at_rest by (assumption || lia).
  rewrite (walk_pairs_rest (max_frame_payload d)) by (assumption || reflexivity || lia).
  pose proof (length_rest_le d). unfold walk_fuel.
  rewrite (parse_pairs_fuel _ (S (length (buf d))) (S (length (rest d))))
    by (unfold zlen; lia).
  destruct (parse_pairs _ _ _ _ _) as [[c|]| |] eqn:Ep; try reflexivity.
  apply parse_pairs_grows in Ep; [|lia]. cbn.
  bool_cases; [reflexivity|].
  pose proof (slice_rest d 0 c Hd ltac:(lia) ltac:(lia)) as Hsl.
  rewrite Z.add_0_r in Hsl. rewrite Hsl. cbn. rewrite Z.sub_0_r. reflexivity.
Qed.

(** [next_frame] is [parse_frame] of the pending bytes. *)
Lemma next_frame_parse d :
  wf d -> next_frame d = apply_parse d (parse_frame (max_frame_payload d) (rest d)).
Proof.
  intros Hd. unfold next_frame, parse_frame. run_st. rewrite pending_rest by exact Hd.
  destruct (rest d) as [|v [|t body]] eqn:Hr.
  1, 2: rewrite (proj2 (Z.ltb_lt _ _)) by (unfold zlen; cbn; lia); reflexivity.
  rewrite (proj2 (Z.ltb_ge _ _)) by (unfold zlen; cbn; lia).
  pose proof (slice_rest d 0 2 Hd ltac:(lia) ltac:(rewrite Hr; unfold zlen; cbn; lia)) as Hs.
  rewrite Hr, Z.add_0_r in Hs. rewrite Hs.
  change (take (Z.to_nat (2 - 0)) (drop (Z.to_nat 0) (v :: t :: body))) with [v; t].
  cbv beta iota. repeat case_bool_decide; try contradiction; rewrite <- ?Hr;
    first [ apply try_decode_fixed6_refines; exact Hd
          | apply try_decode_json_refines; exact Hd
          | apply try_decode_compressed_refines; exact Hd
          | apply try_decode_legacy_refines; exact Hd
          | reflexivity ].
Qed.

End Refine.

(** ** Lemmas: the parser reads a prefix, makes progress and is stable under
    more input *)

Section Parser_facts.
Context `{Z0 : Zlib} {ZL : ZlibLaws Z0} (max : Z).

Lemma decompress_total c : decompress_capped c max <> Panic.
Proof using ZL.
  unfold decompress_capped. run_st.
  destruct (zlib_read_take c _) eqn:E; cbn; [case_match; discriminate|discriminate|].
  exfalso. exact (zlib_read_total _ _ E).
Qed.

Lemma parse_frame_total p : parse_frame max p <> Panic.
Proof using ZL.
  unfold parse_frame, parse_fixed6, parse_json, parse_compressed, parse_legacy.
  destruct p as [|v [|t b]]; [discriminate ..|]. remember (v :: t :: b) as p eqn:Hp.
  repeat case_bool_decide; run_st; repeat case_match; try discriminate.
  - exfalso. eapply decompress_total; eassumption.
  - exfalso. eapply (parse_pairs_total max); [..|eassumption]; unfold zlen; lia.
Qed.

Lemma parse_frame_progress p f n :
  parse_frame max p = Ok (Some (f, n)) -> 6 <= n <= zlen p.
Proof.
  unfold parse_frame, parse_fixed6, parse_json, parse_compressed, parse_legacy.
  destruct p as [|v [|t b]]; [discriminate ..|]. remember (v :: t :: b) as p eqn:Hp.
  repeat case_bool_decide; run_st; try discriminate.
  - destruct (Z.ltb_spec (zlen p) 6); [discriminate|]. intros [= _ <-]. lia.
  - destruct (Z.ltb_spec (zlen p) 6); [discriminate|]. intros [= _ <-]. lia.
  - destruct (Z.ltb_spec (zlen p) 10); [discriminate|].
    pose proof (be_u32_at_range 6 p ltac:(lia) ltac:(lia)) as Hr. unfold is_u32 in Hr.
    bool_cases; try discriminate. intros [= _ <-]. lia.
  - destruct (Z.ltb_spec (zlen p) 6); [discriminate|].
    pose proof (be_u32_at_range 2 p ltac:(lia) ltac:(lia)) as Hr. unfold is_u32 in Hr.
    bool_cases; try discriminate. case_match; try discriminate. intros [= _ <-]. lia.
  - destruct (Z.ltb_spec (zlen p) 10); [discriminate|].
    destruct (parse_pairs _ _ _ _ _) as [[c|]| |] eqn:Ep; try discriminate.
    apply parse_pairs_grows in Ep; [|lia]. bool_cases; [discriminate|]. intros [= _ <-]. lia.
Qed.

Lemma take_drop_app (n m : nat) (p q : bytes) :
  (m + n <= length p)%nat -> take n (drop m (p ++ q)) = take n (drop m p).
Proof.
  intros. rewrite drop_app_le by lia. apply take_app_le. rewrite length_drop. lia.
Qed.

Lemma parse_fixed6_app mk p q :
  parse_fixed6 mk p <> Ok None -> parse_fixed6 mk (p ++ q) = parse_fixed6 mk p.
Proof.
  unfold parse_fixed6. rewrite zlen_app. pose proof (zlen_nonneg q).
  destruct (Z.ltb_spec (zlen p) 6); [congruence|]. intros _.
  rewrite (proj2 (Z.ltb_ge _ _)) by lia. rewrite be_u32_at_app by lia. reflexivity.
Qed.

Lemma parse_json_app p q :
  parse_json max p <> Ok None -> parse_json max (p ++ q) = parse_json max p.
Proof.
  unfold parse_json. rewrite zlen_app. pose proof (zlen_nonneg q).
  destruct (Z.ltb_spec (zlen p) 10); [congruence|].
  rewrite (proj2 (Z.ltb_ge (zlen p + zlen q) 10)) by lia. rewrite !be_u32_at_app by lia.
  destruct (max <? _); [reflexivity|].
  pose proof (be_u32_at_range 6 p ltac:(lia) ltac:(lia)) as Hr. unfold is_u32 in Hr.
  destruct (Z.ltb_spec (zlen p) (10 + be_u32_at 6 p)); [congruence|]. intros _.
  rewrite (proj2 (Z.ltb_ge _ _)) by lia.
  rewrite take_drop_app by (unfold zlen in *; lia). reflexivity.
Qed.

Lemma parse_compressed_app p q :
  parse_compressed max p <> Ok None -> parse_compressed max (p ++ q) = parse_compressed max p.
Proof.
  unfold parse_compressed. rewrite zlen_app. pose proof (zlen_nonneg q).
  destruct (Z.ltb_spec (zlen p) 6); [congruence|].
  rewrite (proj2 (Z.ltb_ge (zlen p + zlen q) 6)) by lia. rewrite !be_u32_at_app by lia.
  destruct (max <? _); [reflexivity|].
  pose proof (be_u32_at_range 2 p ltac:(lia) ltac:(lia)) as Hr. unfold is_u32 in Hr.
  destruct (Z.ltb_spec (zlen p) (6 + be_u32_at 2 p)); [congruence|]. intros _.
  rewrite (proj2 (Z.ltb_ge _ _)) by lia.
  rewrite take_drop_app by (unfold zlen in *; lia). reflexivity.
Qed.

Lemma parse_legacy_app p q :
  parse_legacy max p <> Ok None -> parse_legacy max (p ++ q) = parse_legacy max p.
Proof.
  unfold parse_legacy. rewrite zlen_app. pose proof (zlen_nonneg q). run_st.
  destruct (Z.ltb_spec (zlen p) 10); [congruence|].
  rewrite (proj2 (Z.ltb_ge (zlen p + zlen q) 10)) by lia. rewrite !be_u32_at_app by lia.
  rewrite (parse_pairs_fuel max (S (length (p ++ q))) (S (length p + length q)) (p ++ q))
    by (rewrite ?zlen_app; unfold zlen; rewrite ?length_app; lia).
  rewrite (parse_pairs_fuel max (S (length p)) (S (length p + length q)) p)
    by (unfold zlen; lia).
  destruct (parse_pairs max _ p _ _) as [[c|]| |] eqn:Ep; [|congruence|..].
  - intros Hn. rewrite parse_pairs_app by (rewrite ?Ep; lia || discriminate). rewrite Ep.
    apply parse_pairs_grows in Ep; [|lia].
    destruct (Z.ltb_spec (zlen p) c); [congruence|]. rewrite (proj2 (Z.ltb_ge _ _)) by lia.
    rewrite take_app_le by (unfold zlen in *; lia). reflexivity.
  - intros _. rewrite parse_pairs_app by (rewrite ?Ep; lia || discriminate). rewrite Ep. reflexivity.
  - exfalso. revert Ep. apply parse_pairs_total; unfold zlen; lia.
Qed.

(** Once a prefix decides a frame or an error, more bytes change nothing. *)
Lemma parse_frame_app p q :
  parse_frame max p <> Ok None -> parse_frame max (p ++ q) = parse_frame max p.
Proof.
  destruct p as [|v [|t b]]; [intros Hn; exfalso; apply Hn; reflexivity ..|]. intros Hn.
  change (parse_frame max ((v :: t :: b) ++ q)) with (parse_frame max (v :: t :: (b ++ q))).
  revert Hn. unfold parse_frame. change (v :: t :: b ++ q) with ((v :: t :: b) ++ q).
  repeat case_bool_decide; intros; try reflexivity;
    first [ apply parse_fixed6_app | apply parse_json_app
          | apply parse_compressed_app | apply parse_legacy_app ]; assumption.
Qed.

(** ** Lemmas: draining the pending bytes *)

Lemma parse_all_fuel f1 f2 p :
  (length p < f1)%nat -> (length p < f2)%nat -> parse_all max f1 p = parse_all max f2 p.
Proof.
  revert f2 p. induction f1 as [|f1 IH]; intros f2 p H1 H2; [lia|].
  destruct f2 as [|f2]; [lia|]. cbn.
  destruct (parse_frame max p) as [[[f n]|]| |] eqn:E; try reflexivity.
  apply parse_frame_progress in E. unfold zlen in E.
  rewrite (IH f2); [reflexivity|rewrite length_drop; lia ..].
Qed.

Lemma parse_all_total fuel p :
  (length p < fuel)%nat -> snd (fst (parse_all max fuel p)) <> Panic.
Proof using ZL.
  revert p. induction fuel as [|fuel IH]; intros p H1; [lia|]. cbn.
  destruct (parse_frame max p) as [[[f n]|]| |] eqn:E; try discriminate.
  - apply parse_frame_progress in E. unfold zlen in E.
    specialize (IH (drop (Z.to_nat n) p)).
    destruct (parse_all max fuel _) as [[fs r] q]. apply IH. rewrite length_drop. lia.
  - exfalso. exact (parse_frame_total p E).
Qed.

(** Draining [p ++ q] is draining [p], then what was left of it with [q]. *)
Lemma parse_all_app fuel f2 p q fs r left :
  (length p < fuel)%nat -> (length (p ++ q) < f2)%nat ->
  parse_all max fuel p = (fs, r, left) ->
  parse_all max f2 (p ++ q) =
  match r with
  | Ok _ => let '(fs', r', left') := parse_all max f2 (left ++ q) in (fs ++ fs', r', left')
  | _ => (fs, r, left ++ q)
  end.
Proof using ZL.
  revert f2 p fs r left. induction fuel as [|fuel IH]; intros f2 p fs r left H1 H2; [lia|].
  cbn [parse_all]. destruct f2 as [|f2]; [lia|].
  destruct (parse_frame max p) as [[[f n]|]| |] eqn:E.
  - pose proof (parse_frame_progress _ _ _ E) as Hn. unfold zlen in Hn.
    destruct (parse_all max fuel (drop (Z.to_nat n) p)) as [[fs1 r1] l1] eqn:E1.
    intros [= <- <- <-].
    assert (Hstep : parse_all max (S f2) (p ++ q) =
      let '(fs, r, l) := parse_all max f2 (drop (Z.to_nat n) p ++ q) in (f :: fs, r, l)).
    { cbn. rewrite parse_frame_app by congruence. rewrite E, drop_app_le by lia. reflexivity. }
    rewrite Hstep.
    rewrite length_app in H2.
    assert (Hl : (length (drop (Z.to_nat n) p ++ q) < S f2)%nat) by (rewrite length_app, length_drop; lia).
    rewrite (parse_all_fuel f2 (S f2)) by (rewrite length_app, length_drop; lia).
    assert (Hd : (length (drop (Z.to_nat n) p) < fuel)%nat) by (rewrite length_drop; lia).
    rewrite (IH (S f2) _ _ _ _ Hd Hl E1).
    destruct r1; try reflexivity.
    destruct (parse_all max (S f2) (l1 ++ q)) as [[fs2 r2] l2]. reflexivity.
  - intros [= <- <- <-]. destruct (parse_all max (S f2) (p ++ q)) as [[a b] c]. reflexivity.
  - intros [= <- <- <-]. cbn. rewrite parse_frame_app by congruence. rewrite E. reflexivity.
  - exfalso. exact (parse_frame_total p E).
Qed.

(** A drain that ends without error leaves a suffix no frame starts. *)
Lemma parse_all_left fuel p fs r left :
  (length p < fuel)%nat -> parse_all max fuel p = (fs, r, left) ->
  (length left <= length p)%nat /\ (r = Ok tt -> parse_frame max left = Ok None).
Proof using ZL.
  revert p fs r left. induction fuel as [|fuel IH]; intros p fs r left H1; [lia|]. cbn.
  destruct (parse_frame max p) as [[[f n]|]| |] eqn:E.
  - pose proof (parse_frame_progress _ _ _ E) as Hn. unfold zlen in Hn.
    destruct (parse_all max fuel (drop (Z.to_nat n) p)) as [[fs1 r1] l1] eqn:E1.
    intros [= <- <- <-]. apply IH in E1; rewrite length_drop in *; [|lia].
    split; [lia|apply E1].
  - intros [= <- <- <-]. auto.
  - intros [= <- <- <-]. split; [lia|discriminate].
  - exfalso. exact (parse_frame_total p E).
Qed.

End Parser_facts.

(** ** Lemmas: the decoder's operations on the pending bytes *)

Lemma wf_new m : wf (with_max_frame_payload m).
Proof. unfold wf, zlen. cbn. lia. Qed.

Lemma rest_advance d n :
  wf d -> 0 <= n -> rest (advance_read n d) = drop (Z.to_nat n) (rest d).
Proof.
  intros Hd Hn. unfold rest, wf in *. cbn. rewrite drop_drop_Z by lia. reflexivity.
Qed.

Lemma wf_advance d n : wf d -> 0 <= n <= zlen (rest d) -> wf (advance_read n d).
Proof.
  intros Hd Hn. rewrite <- pending_rest in Hn by exact Hd.
  unfold wf, pending in *. cbn. lia.
Qed.

Lemma wf_feed d c : wf d -> wf (feed d c).
Proof.
  unfold wf, feed. intros Hd. cbn. pose proof (zlen_nonneg c).
  case_match; cbn; rewrite zlen_app; pose proof (zlen_nonneg (drop (Z.to_nat (read_pos d)) (buf d))); lia.
Qed.

(** Compaction is invisible: feeding appends to the pending bytes. *)
Lemma rest_feed d c : wf d -> rest (feed d c) = rest d ++ c.
Proof.
  unfold rest, feed, wf, zlen. intros Hd. cbn. case_match; cbn.
  - reflexivity.
  - rewrite drop_app_le by lia. reflexivity.
Qed.

Lemma max_feed d c : max_frame_payload (feed d c) = max_frame_payload d.
Proof. unfold feed. cbn. case_match; reflexivity. Qed.

Lemma length_rest_le_buf d : (length (rest d) <= length (buf d))%nat.
Proof. unfold rest. rewrite length_drop. lia. Qed.

Section Drain.
Context `{Z0 : Zlib} {ZL : ZlibLaws Z0}.

(** The drain loop computes [parse_all] of the pending bytes and leaves a
    well-formed decoder holding exactly the bytes that were left. *)
Lemma drain_parse_all fuel d :
  wf d -> (length (rest d) < fuel)%nat ->
  exists d', drain fuel d =
    (fst (fst (parse_all (max_frame_payload d) fuel (rest d))),
     snd (fst (parse_all (max_frame_payload d) fuel (rest d))), d')
  /\ wf d' /\ rest d' = snd (parse_all (max_frame_payload d) fuel (rest d))
  /\ max_frame_payload d' = max_frame_payload d.
Proof using ZL.
  revert d. induction fuel as [|fuel IH]; intros d Hd Hl; [lia|].
  cbn. rewrite next_frame_parse by exact Hd.
  destruct (parse_frame (max_frame_payload d) (rest d)) as [[[f n]|]| |] eqn:E; cbn.
  - apply parse_frame_progress in E.
    destruct (IH (advance_read n d)) as (d' & Hdr & Hwf & Hr & Hm).
    { apply wf_advance; [exact Hd|lia]. }
    { rewrite rest_advance by (assumption || lia). rewrite length_drop. unfold zlen in *. lia. }
    rewrite rest_advance in Hdr, Hr by (assumption || lia). cbn in *. exists d'. rewrite Hdr.
    destruct (parse_all _ fuel _) as [[fs r] q]. cbn in *. auto.
  - exists d. auto.
  - exists d. auto.
  - exfalso. exact (parse_frame_total _ _ E).
Qed.

(** Frames and result of feeding the chunks one by one, from a decoder with
    nothing decodable pending. *)
Lemma feed_chunks_parse_all d chunks fuel :
  wf d -> parse_frame (max_frame_payload d) (rest d) = Ok None ->
  (length (rest d ++ concat chunks) < fuel)%nat ->
  exists d', feed_chunks d chunks =
    (fst (fst (parse_all (max_frame_payload d) fuel (rest d ++ concat chunks))),
     snd (fst (parse_all (max_frame_payload d) fuel (rest d ++ concat chunks))), d')
  /\ wf d' /\ max_frame_payload d' = max_frame_payload d
  /\ (snd (fst (feed_chunks d chunks)) = Ok tt ->
      rest d' = snd (parse_all (max_frame_payload d) fuel (rest d ++ concat chunks))).
Proof using ZL.
  revert d fuel. induction chunks as [|c chunks IH]; intros d fuel Hd Hst Hf; cbn [feed_chunks concat].
  { rewrite app_nil_r in *. destruct fuel as [|fuel]; [lia|]. cbn. rewrite Hst. exists d. auto. }
  pose proof (wf_feed d c Hd) as Hd1.
  destruct (drain_parse_all (drain_fuel (feed d c)) (feed d c) Hd1) as (d1 & Hdr & Hwf1 & Hr1 & Hm1).
  { unfold drain_fuel. pose proof (length_rest_le_buf (feed d c)). lia. }
  rewrite max_feed in Hm1, Hr1, Hdr. rewrite rest_feed in Hdr, Hr1 by exact Hd.
  rewrite Hdr. cbn [fst snd].
  destruct (parse_all (max_frame_payload d) (drain_fuel (feed d c)) (rest d ++ c))
    as [[fs r] left] eqn:Ep. cbn [fst snd] in *.
  assert (Hlen : (length (rest d ++ c) < drain_fuel (feed d c))%nat).
  { rewrite <- rest_feed by exact Hd. unfold drain_fuel. pose proof (length_rest_le_buf (feed d c)). lia. }
  assert (Hf' : (length ((rest d ++ c) ++ concat chunks) < fuel)%nat)
    by (rewrite <- app_assoc; exact Hf).
  pose proof (parse_all_app (max_frame_payload d) _ fuel _ (concat chunks) _ _ _ Hlen Hf' Ep) as Happ.
  pose proof (parse_all_left (max_frame_payload d) _ _ _ _ _ Hlen Ep) as [Hleft Hstuck].
  rewrite app_assoc, Happ.
  destruct r as [[]| e|].
  - destruct (IH d1 fuel) as (d2 & Hfc & Hwf2 & Hm2 & Hr2).
    + exact Hwf1.
    + rewrite Hm1, Hr1. apply Hstuck. reflexivity.
    + rewrite Hr1. rewrite !length_app in *. lia.
    + rewrite Hm1, Hr1 in *. rewrite Hfc in Hr2 |- *.
      destruct (parse_all (max_frame_payload d) fuel (left ++ concat chunks)) as [[fs2 r2] left2].
      cbn in *. exists d2. auto.
  - exists d1. cbn. split_and!; done.
  - exists d1. cbn. split_and!; done.
Qed.

End Drain.
