(* ===== verification/Rle.v ===== *)
(** * A concrete codec for the [Zlib] interface

    A run-length codec that satisfies [ZlibLaws]: it shows that the laws the
    theorems assume of zlib can hold together, and it is what the witnesses
    evaluate. It is not a model of zlib. *)

From S2P Require Import Prelude Frame.

Local Open Scope Z_scope.

Definition rle_cons (b : byte) (enc : bytes) : bytes :=
  match enc with
  | n :: b' :: t =>
    if bool_decide (b = b') && (byte_Z n <? 255)
    then Z_byte (byte_Z n + 1) :: b' :: t else x01 :: b :: enc
  | _ => x01 :: b :: enc
  end.

Definition rle (x : bytes) : bytes := foldr rle_cons [] x.

Fixpoint unrle (enc : bytes) : option bytes :=
  match enc with
  | [] => Some []
  | [_] => None
  | n :: b :: t => t' ← unrle t; Some (replicate (Z.to_nat (byte_Z n)) b ++ t')
  end.

#[export] Instance rle_zlib : Zlib := {
  zlib_compress _ x := Ok (rle x);
  zlib_read_take c n :=
    match unrle c with
    | Some x => Ok (take (Z.to_nat (Z.min n (zlen x))) x)
    | None => Err "corrupt deflate stream"%string
    end;
}.

Lemma unrle_cons b enc x : unrle enc = Some x -> unrle (rle_cons b enc) = Some (b :: x).
Proof.
  destruct enc as [|n [|b' t]]; cbn; [intros [= <-]; reflexivity|discriminate|].
  intros Hx. case_match eqn:Hc.
  - apply andb_true_iff in Hc as [Hb Hn]. apply bool_decide_eq_true in Hb as <-.
    apply Z.ltb_lt in Hn. cbn. pose proof (byte_Z_range n).
    destruct (unrle t) as [t'|]; cbn in *; [|discriminate]. injection Hx as <-.
    rewrite byte_Z_of_Z, Z.mod_small by lia. rewrite Z2Nat.inj_add by lia.
    rewrite Nat.add_comm. reflexivity.
  - destruct (unrle t) as [t'|] eqn:Et; cbn in Hx; [|discriminate]. injection Hx as <-.
    cbn. rewrite Et. reflexivity.
Qed.

Lemma unrle_rle x : unrle (rle x) = Some x.
Proof. induction x as [|b x IH]; [reflexivity|]. exact (unrle_cons b _ _ IH). Qed.

(** The limit as the data allows it, so that a large one costs nothing. *)
Lemma take_min (n : Z) (x : bytes) : 0 <= n -> take (Z.to_nat (Z.min n (zlen x))) x = take (Z.to_nat n) x.
Proof.
  intros Hn. unfold zlen. destruct (Z.le_ge_cases n (Z.of_nat (length x))) as [H|H].
  - rewrite Z.min_l by exact H. reflexivity.
  - rewrite Z.min_r by exact H. rewrite Nat2Z.id, !take_ge by lia. reflexivity.
Qed.

#[export] Instance rle_zlib_laws : ZlibLaws rle_zlib.
Proof.
  split.
  - discriminate.
  - intros c n. cbn. case_match; discriminate.
  - intros c n out Hn. cbn. case_match; [|discriminate]. intros [= <-].
    unfold zlen. rewrite length_take. lia.
  - intros l x c n Hn [= <-]. cbn. rewrite unrle_rle, take_min by exact Hn. reflexivity.
Qed.
