(* ===== verification/FrameProps.v ===== *)
(** * Properties of the Lumberjack frame codec

    Round trips between the encoders of [frame.rs] and its streaming decoder,
    independence from chunking, progress, caps and absence of panics. The
    proofs apply the lemmas of [FrameSpec]. *)

From S2P Require Import Prelude Frame FrameSpec Rle.

Local Open Scope Z_scope.

(** ** The wire image of a frame, one constructor per encoder *)

Section Wire.
Context `{Z0 : Zlib}.

Inductive encodes (max : Z) : Frame -> bytes -> Prop :=
| enc_window c : is_u32 c -> encodes max (Window c) (encode_window c)
| enc_ack s : is_u32 s -> encodes max (Ack s) (encode_ack s)
| enc_json s p : is_u32 s -> zlen p <= Z.min max U32_MAX ->
    encodes max (Json s p) (encode_json_frame s p)
| enc_compressed level inner w : encode_compressed level inner = Ok w ->
    zlen inner <= max -> zlen w - 6 <= max -> encodes max (Compressed inner) w.

End Wire.

Section Roundtrip.
Context `{Z0 : Zlib} {ZL : ZlibLaws Z0} (max : Z) (Hmax : max < U64_MAX).

Lemma be_u32_at_be (a b : byte) z q : is_u32 z -> be_u32_at 2 ([a; b] ++ u32_to_be_bytes z ++ q) = z.
Proof. intros. unfold be_u32_at. cbn [app drop take Z.to_nat]. apply u32_be_roundtrip. assumption. Qed.

Lemma encode_window_parse c q :
  is_u32 c -> parse_frame max (encode_window c ++ q) = Ok (Some (Window c, 6)).
Proof.
  intros Hc. change (parse_frame max (encode_window c ++ q)) with (parse_fixed6 Window (encode_window c ++ q)).
  unfold parse_fixed6. rewrite (proj2 (Z.ltb_ge _ _)) by (unfold zlen; cbn; lia).
  unfold encode_window. rewrite <- app_assoc, be_u32_at_be by exact Hc. reflexivity.
Qed.

Lemma encode_ack_parse s q :
  is_u32 s -> parse_frame max (encode_ack s ++ q) = Ok (Some (Ack s, 6)).
Proof.
  intros Hc. change (parse_frame max (encode_ack s ++ q)) with (parse_fixed6 Ack (encode_ack s ++ q)).
  unfold parse_fixed6. rewrite (proj2 (Z.ltb_ge _ _)) by (unfold zlen; cbn; lia).
  unfold encode_ack. rewrite <- app_assoc, be_u32_at_be by exact Hc. reflexivity.
Qed.

Lemma encode_json_parse s p q :
  is_u32 s -> zlen p <= Z.min max U32_MAX ->
  parse_frame max (encode_json_frame s p ++ q) = Ok (Some (Json s p, 10 + zlen p)).
Proof.
  intros Hs Hp. unfold encode_json_frame.
  unfold u32_try_from. rewrite (proj2 (Z.leb_le (zlen p) U32_MAX)) by lia. change (default U32_MAX (Some (zlen p))) with (zlen p).
  rewrite <- !app_assoc.
  set (w := [PROTOCOL_VERSION; FRAME_TYPE_JSON] ++ u32_to_be_bytes s ++ u32_to_be_bytes (zlen p) ++ p ++ q).
  change (parse_frame max w) with (parse_json max w). unfold parse_json.
  pose proof (zlen_nonneg p). pose proof (zlen_nonneg q).
  assert (Hw : zlen w = 10 + zlen p + zlen q).
  { unfold w. autorewrite with ferro. lia. }
  assert (Hl : be_u32_at 6 w = zlen p) by (apply u32_be_roundtrip; unfold is_u32; lia).
  assert (H2 : be_u32_at 2 w = s) by (apply be_u32_at_be; exact Hs).
  rewrite Hw, Hl, H2. rewrite !(proj2 (Z.ltb_ge _ _)) by lia.
  do 4 f_equal. change (drop 10 w) with (p ++ q). apply take_zlen_app.
Qed.

Lemma decompress_compress level x c :
  0 <= zlen x <= max -> zlib_compress level x = Ok c -> decompress_capped c max = Ok x.
Proof using ZL Hmax.
  intros Hx Hc. unfold decompress_capped, u64_saturating_add. rewrite Z.min_l by lia.
  run_st. rewrite (zlib_read_compress level x c) by (assumption || lia). cbn [map_err].
  rewrite take_ge by (unfold zlen in *; lia). rewrite (proj2 (Z.ltb_ge _ _)) by lia. reflexivity.
Qed.

Lemma encode_compressed_parse level x w q :
  encode_compressed level x = Ok w -> zlen x <= max -> zlen w - 6 <= max ->
  parse_frame max (w ++ q) = Ok (Some (Compressed x, zlen w)).
Proof using ZL Hmax.
  unfold encode_compressed. run_st.
  destruct (zlib_compress level x) as [c| |] eqn:Ec; cbn [map_err]; [|discriminate..].
  unfold u32_try_from. destruct (Z.leb_spec (zlen c) U32_MAX) as [Hc|]; cbn [ok_or]; [|discriminate].
  intros Hok Hx Hw. pose proof (zlen_nonneg c). pose proof (zlen_nonneg q). pose proof (zlen_nonneg x).
  assert (Ew : w = [PROTOCOL_VERSION; FRAME_TYPE_COMPRESSED] ++ u32_to_be_bytes (zlen c) ++ c) by congruence.
  clear Hok.
  replace (parse_frame max (w ++ q)) with (parse_compressed max (w ++ q)) by (rewrite Ew; reflexivity).
  assert (Hl : zlen w = 6 + zlen c).
  { rewrite Ew. autorewrite with ferro. lia. }
  unfold parse_compressed. rewrite zlen_app, Hl.
  assert (H2 : be_u32_at 2 (w ++ q) = zlen c).
  { rewrite Ew, <- !app_assoc. apply be_u32_at_be. unfold is_u32. lia. }
  rewrite H2, !(proj2 (Z.ltb_ge _ _)) by lia.
  replace (drop 6 (w ++ q)) with (c ++ q) by (rewrite Ew; reflexivity).
  rewrite take_zlen_app.
  run_st. rewrite (decompress_compress level x c) by (assumption || lia). reflexivity.
Qed.

Lemma encodes_parse f w q :
  encodes max f w -> parse_frame max (w ++ q) = Ok (Some (f, zlen w)).
Proof using ZL Hmax.
  intros [c Hc|s Hs|s p Hs Hp|level inner w' Hw Hi Hc].
  - rewrite encode_window_parse by exact Hc. reflexivity.
  - rewrite encode_ack_parse by exact Hs. reflexivity.
  - rewrite encode_json_parse by assumption. do 3 f_equal.
    unfold encode_json_frame. autorewrite with ferro. lia.
  - apply (encode_compressed_parse level); assumption.
Qed.

Lemma parse_all_encoded fuel fs ws :
  (length (concat ws) < fuel)%nat -> Forall2 (encodes max) fs ws ->
  parse_all max fuel (concat ws) = (fs, Ok tt, []).
Proof using ZL Hmax.
  intros Hf HF. revert fuel Hf. induction HF as [|f w fs ws Hw HF IH]; intros fuel Hf.
  - destruct fuel; [lia|reflexivity].
  - destruct fuel as [|fuel]; [lia|]. cbn. pose proof (encodes_parse _ _ (concat ws) Hw) as Hp.
    rewrite Hp. rewrite drop_zlen_app.
    apply parse_frame_progress in Hp. cbn in Hf. rewrite length_app in Hf.
    unfold zlen in Hp. rewrite IH by lia. reflexivity.
Qed.

End Roundtrip.

(** ** Properties *)

(** C2: [FrameDecoder::next_frame] refines the pure parser: on any
    well-formed decoder it returns what [parse_frame] says of the pending
    bytes, consumes exactly the frame's bytes and otherwise leaves the decoder
    untouched (errors included), keeps the decoder well formed and never
    panics (no slice, [expect] or loop bound fails). *)
Theorem next_frame_refines `{Z0 : Zlib} {ZL : ZlibLaws Z0} (d : FrameDecoder) (Hd : wf d) :
  next_frame d = apply_parse d (parse_frame (max_frame_payload d) (rest d)) /\
  wf (fst (next_frame d)) /\ snd (next_frame d) <> Panic.
Proof.
  rewrite next_frame_parse by exact Hd. split; [reflexivity|].
  pose proof (parse_frame_total (max_frame_payload d) (rest d)) as Ht.
  destruct (parse_frame (max_frame_payload d) (rest d)) as [[[f n]|]| |] eqn:E; cbn; split;
    try congruence; try exact Hd.
  apply parse_frame_progress in E. apply wf_advance; [exact Hd|lia].
Qed.

Lemma next_frame_refines_witness :
  wf (feed FrameDecoder_new (encode_ack 7)) /\
  snd (next_frame (feed FrameDecoder_new (encode_ack 7))) <> Panic.
Proof.
  assert (H : wf (feed FrameDecoder_new (encode_ack 7))) by (unfold wf; vm_compute; split; discriminate).
  split; [exact H|]. apply (next_frame_refines (Z0 := rle_zlib) _ H).
Defined.

(** C14: the decoded stream does not depend on how the bytes arrive: feeding
    any chunks one after the other, draining after each, yields the same
    frames and the same final result as feeding their concatenation at once,
    and, when no error occurred, leaves the same bytes pending. *)
Theorem feed_chunking_independent `{Z0 : Zlib} {ZL : ZlibLaws Z0} (m : Z) (chunks : list bytes) :
  let one := feed (with_max_frame_payload m) (concat chunks) in
  let '(fs, r, d) := feed_chunks (with_max_frame_payload m) chunks in
  let '(fs', r', d') := drain (drain_fuel one) one in
  fs = fs' /\ r = r' /\ (r = Ok tt -> rest d = rest d').
Proof.
  cbv zeta. set (d0 := with_max_frame_payload m).
  pose proof (wf_new m) as Hd0. fold d0 in Hd0.
  pose proof (wf_feed d0 (concat chunks) Hd0) as Hd1.
  set (fuel := drain_fuel (feed d0 (concat chunks))).
  assert (Hr : rest (feed d0 (concat chunks)) = concat chunks) by (rewrite rest_feed by exact Hd0; reflexivity).
  assert (Hlen : (length (rest (feed d0 (concat chunks))) < fuel)%nat).
  { unfold fuel, drain_fuel. pose proof (length_rest_le_buf (feed d0 (concat chunks))). lia. }
  destruct (drain_parse_all fuel (feed d0 (concat chunks)) Hd1 Hlen) as (d' & Hdr & _ & Hrd & _).
  rewrite Hdr, max_feed, Hr in *.
  destruct (feed_chunks_parse_all d0 chunks fuel Hd0 eq_refl Hlen) as (d & Hfc & _ & _ & Hrest).
  change (rest d0 ++ concat chunks) with (concat chunks) in *.
  rewrite Hfc in Hrest |- *. cbn in *. rewrite Hrd. auto.
Qed.

Lemma feed_chunking_independent_witness :
  let '(fs, r, d) := feed_chunks (with_max_frame_payload 16) [[x32]; [x57; x00; x00]; [x00; x02; x32]] in
  let one := feed (with_max_frame_payload 16) (concat [[x32]; [x57; x00; x00]; [x00; x02; x32]]) in
  let '(fs', r', d') := drain (drain_fuel one) one in
  fs = fs' /\ r = r' /\ (r = Ok tt -> rest d = rest d').
Proof. exact (feed_chunking_independent 16 [[x32]; [x57; x00; x00]; [x00; x02; x32]]). Defined.

(** C35: encoding then decoding is the identity on sequences of frames:
    any frames encoded by the crate's own encoders (within the decoder's cap),
    concatenated and cut into arbitrary chunks, are decoded to exactly those
    frames, in order, with no error and no byte left over. *)
Theorem encode_decode_roundtrip `{Z0 : Zlib} {ZL : ZlibLaws Z0}
    (m : Z) (fs : list Frame) (ws chunks : list bytes)
    (Hm : m < U64_MAX) (Henc : Forall2 (encodes m) fs ws) (Hcut : concat chunks = concat ws) :
  exists d, feed_chunks (with_max_frame_payload m) chunks = (fs, Ok tt, d) /\ rest d = [].
Proof.
  set (d0 := with_max_frame_payload m).
  destruct (feed_chunks_parse_all d0 chunks (S (length (concat ws))) (wf_new m) eq_refl)
    as (d & Hfc & _ & _ & Hr).
  { change (rest d0 ++ concat chunks) with (concat chunks). rewrite Hcut. lia. }
  change (rest d0 ++ concat chunks) with (concat chunks) in *.
  change (max_frame_payload d0) with m in *. rewrite Hcut in *.
  rewrite (parse_all_encoded m Hm _ fs ws) in Hfc, Hr by (assumption || lia).
  cbn in *. exists d. rewrite Hfc in *. auto.
Qed.

Lemma encode_decode_roundtrip_witness :
  exists d, feed_chunks (with_max_frame_payload 64)
    [encode_window 2 ++ take 5 (encode_json_frame 1 [x61]); drop 5 (encode_json_frame 1 [x61]) ++ encode_ack 9]
    = ([Window 2; Json 1 [x61]; Ack 9], Ok tt, d) /\ rest d = [].
Proof.
  apply (encode_decode_roundtrip 64 [Window 2; Json 1 [x61]; Ack 9]
           [encode_window 2; encode_json_frame 1 [x61]; encode_ack 9]).
  - reflexivity.
  - repeat constructor; vm_compute; discriminate.
  - reflexivity.
Defined.

(** A decoded frame is within the cap. *)
Lemma decoded_within_cap `{Z0 : Zlib} {ZL : ZlibLaws Z0} (d d' : FrameDecoder) (f : Frame) :
  wf d -> next_frame d = (d', Ok (Some f)) ->
  (forall s p, f = Json s p -> zlen p <= max_frame_payload d) /\
  (forall x, f = Compressed x -> zlen x <= max_frame_payload d).
Proof.
  intros Hd Hf. rewrite next_frame_parse in Hf by exact Hd.
  destruct (parse_frame (max_frame_payload d) (rest d)) as [[[g n]|]| |] eqn:E; try discriminate.
  cbn in Hf. injection Hf as _ <-. revert E. generalize (max_frame_payload d). intros m.
  unfold parse_frame, parse_fixed6, parse_json, parse_compressed, parse_legacy.
  destruct (rest d) as [|v [|t b]]; [discriminate ..|]. set (p := v :: t :: b).
  repeat case_bool_decide; run_st; try discriminate.
  1, 2: case_match; try discriminate; intros [= <- <-]; split; discriminate.
  - destruct (Z.ltb_spec (zlen p) 10); [discriminate|].
    pose proof (be_u32_at_range 6 p ltac:(lia) ltac:(lia)) as Hr. unfold is_u32 in Hr.
    destruct (Z.ltb_spec m (be_u32_at 6 p)); [discriminate|].
    destruct (Z.ltb_spec (zlen p) (10 + be_u32_at 6 p)); [discriminate|].
    intros [= <- <-]. split; [|discriminate]. intros s q [= <- <-].
    unfold zlen. rewrite length_take. lia.
  - do 3 (case_match; try discriminate).
    destruct (decompress_capped _ m) as [x| |] eqn:Ed; [|discriminate ..].
    intros [= <- <-]. split; [discriminate|]. intros y [= <-].
    revert Ed. unfold decompress_capped. run_st. repeat case_match; try discriminate.
    intros [= <-]. apply Z.ltb_ge. assumption.
  - repeat case_match; try discriminate. intros [= <- <-]. split; discriminate.
Qed.

(** Per-frame caps: a decoded JSON payload and a decompressed batch
    never exceed the configured maximum, and a JSON or compressed frame whose
    declared length is over the maximum is refused as soon as the length field
    has arrived, whether or not any payload byte has. *)
Theorem frame_caps `{Z0 : Zlib} {ZL : ZlibLaws Z0} (d : FrameDecoder) (Hd : wf d) :
  (forall d' f, next_frame d = (d', Ok (Some f)) ->
     (forall s p, f = Json s p -> zlen p <= max_frame_payload d) /\
     (forall x, f = Compressed x -> zlen x <= max_frame_payload d)) /\
  (forall seq len tail, is_u32 len -> max_frame_payload d < len ->
     rest d = PROTOCOL_VERSION :: FRAME_TYPE_JSON :: u32_to_be_bytes seq ++ u32_to_be_bytes len ++ tail ->
     next_frame d = (d, Err (PayloadTooLarge len (max_frame_payload d)))) /\
  (forall len tail, is_u32 len -> max_frame_payload d < len ->
     rest d = PROTOCOL_VERSION :: FRAME_TYPE_COMPRESSED :: u32_to_be_bytes len ++ tail ->
     next_frame d = (d, Err (PayloadTooLarge len (max_frame_payload d)))).
Proof.
  split_and!.
  - intros d' f. apply decoded_within_cap, Hd.
  - intros seq len tail Hl Hm Hr. rewrite next_frame_parse, Hr by exact Hd.
    unfold parse_frame. rewrite bool_decide_false by (intros Hx; exact (Hx eq_refl)).
    rewrite !bool_decide_false by discriminate. rewrite bool_decide_true by reflexivity. unfold parse_json.
    assert (He : be_u32_at 6 (PROTOCOL_VERSION :: FRAME_TYPE_JSON :: u32_to_be_bytes seq ++ u32_to_be_bytes len ++ tail) = len)
      by (rewrite <- (u32_be_roundtrip len) at 2 by exact Hl; reflexivity).
    rewrite He, (proj2 (Z.ltb_lt (max_frame_payload d) len)) by exact Hm. rewrite (proj2 (Z.ltb_ge _ _)); [reflexivity|].
    autorewrite with ferro. pose proof (zlen_nonneg tail). lia.
  - intros len tail Hl Hm Hr. rewrite next_frame_parse, Hr by exact Hd.
    unfold parse_frame. rewrite bool_decide_false by (intros Hx; exact (Hx eq_refl)).
    rewrite !bool_decide_false by discriminate. rewrite bool_decide_true by reflexivity. unfold parse_compressed.
    assert (He : be_u32_at 2 (PROTOCOL_VERSION :: FRAME_TYPE_COMPRESSED :: u32_to_be_bytes len ++ tail) = len)
      by (rewrite <- (u32_be_roundtrip len) at 2 by exact Hl; reflexivity).
    rewrite He, (proj2 (Z.ltb_lt (max_frame_payload d) len)) by exact Hm. rewrite (proj2 (Z.ltb_ge _ _)); [reflexivity|].
    autorewrite with ferro. pose proof (zlen_nonneg tail). lia.
Qed.

Lemma frame_caps_witness :
  let d := feed (with_max_frame_payload 64) ([PROTOCOL_VERSION; FRAME_TYPE_COMPRESSED] ++ u32_to_be_bytes 65) in
  next_frame (H := rle_zlib) d = (d, Err (PayloadTooLarge 65 64)).
Proof.
  intros d. refine (proj2 (proj2 (frame_caps (Z0 := rle_zlib) d _)) 65 [] _ _ _).
  - unfold wf. vm_compute. split; discriminate.
  - split; [lia|vm_compute; discriminate].
  - reflexivity.
  - reflexivity.
Defined.

(** C40: the drain loop terminates on every input: with one step of fuel
    per buffered byte the loop always reaches its end (no fuel runs out and
    nothing panics), and it decodes at most one frame per six pending bytes. *)
Theorem drain_terminates `{Z0 : Zlib} {ZL : ZlibLaws Z0} (d : FrameDecoder) (Hd : wf d) :
  snd (fst (drain (drain_fuel d) d)) <> Panic /\
  6 * zlen (fst (fst (drain (drain_fuel d) d))) <= pending d.
Proof.
  assert (Hl : (length (rest d) < drain_fuel d)%nat).
  { unfold drain_fuel. pose proof (length_rest_le_buf d). lia. }
  destruct (drain_parse_all _ d Hd Hl) as (d' & -> & _). cbn [fst snd]. rewrite pending_rest by exact Hd.
  split; [apply parse_all_total, Hl|].
  generalize (rest d) (drain_fuel d). clear. intros p fuel. revert p.
  induction fuel as [|fuel IH]; intros p; cbn; [pose proof (zlen_nonneg p); unfold zlen in *; cbn; lia|].
  destruct (parse_frame (max_frame_payload d) p) as [[[f n]|]| |] eqn:E;
    [|unfold zlen; cbn; lia ..].
  apply parse_frame_progress in E. specialize (IH (drop (Z.to_nat n) p)).
  destruct (parse_all _ fuel _) as [[fs r] q]. cbn in *.
  rewrite zlen_drop in IH by lia. autorewrite with ferro. lia.
Qed.

Lemma drain_terminates_witness :
  snd (fst (drain (drain_fuel (feed FrameDecoder_new (encode_window 3 ++ [x32])))
       (feed FrameDecoder_new (encode_window 3 ++ [x32])))) <> Panic.
Proof.
  apply (drain_terminates (feed FrameDecoder_new (encode_window 3 ++ [x32]))).
  unfold wf. vm_compute. split; discriminate.
Defined.

(** [usize] arithmetic of the legacy-frame walk cannot overflow: a
    cursor the walk reaches is at most the bytes pending plus one [u32] length,
    so with a buffer within [isize::MAX] (a [Vec] invariant) the sums
    [cursor + 4] and [read_pos + cursor] stay below [usize::MAX]. *)
Theorem walk_cursor_bound (d : FrameDecoder) (cursor cursor' : Z)
    (Hd : wf d) (Hc : 0 <= cursor) (Hvec : zlen (buf d) <= I64_MAX)
    (Hw : walk_item d cursor = Ok (Some cursor')) :
  cursor + 4 <= cursor' <= pending d + U32_MAX /\ read_pos d + cursor' + 4 <= USIZE_MAX.
Proof.
  rewrite (walk_item_rest (max_frame_payload d)) in Hw by (assumption || reflexivity).
  apply parse_item_grows in Hw; [|exact Hc]. rewrite <- pending_rest in Hw by exact Hd.
  unfold pending, wf, USIZE_MAX, U64_MAX, U32_MAX, I64_MAX in *. lia.
Qed.

Lemma walk_cursor_bound_witness :
  let d := feed (with_max_frame_payload 16) ([x32; x44] ++ u32_to_be_bytes 1 ++ u32_to_be_bytes 1 ++ u32_to_be_bytes 3) in
  10 + 4 <= 17 <= pending d + U32_MAX /\ read_pos d + 17 + 4 <= USIZE_MAX.
Proof.
  apply (walk_cursor_bound (feed (with_max_frame_payload 16)
    ([x32; x44] ++ u32_to_be_bytes 1 ++ u32_to_be_bytes 1 ++ u32_to_be_bytes 3)) 10 17);
    [unfold wf; vm_compute; split; discriminate|lia|vm_compute; discriminate|vm_compute; reflexivity].
Defined.

(** ** Legacy frames are not covered by the cap *)

(** A legacy frame of [n] empty key/value pairs, as a sender would put it on
    the wire. *)
Definition legacy_empty_pairs (n : nat) : bytes :=
  [PROTOCOL_VERSION; FRAME_TYPE_DATA_LEGACY] ++ u32_to_be_bytes 1 ++ u32_to_be_bytes (Z.of_nat n)
    ++ replicate (8 * n) x00.

Lemma be_u32_at_zeros pre k off :
  zlen pre <= off -> off + 4 <= zlen pre + Z.of_nat k ->
  be_u32_at off (pre ++ replicate k x00) = 0.
Proof.
  intros H1 H2. unfold be_u32_at, zlen in *.
  rewrite drop_app_ge by lia. rewrite drop_replicate, take_replicate.
  replace (_ `min` _)%nat with 4%nat by lia. reflexivity.
Qed.

Lemma parse_pairs_zeros m fuel pre k i cursor :
  0 <= m -> zlen pre <= cursor -> cursor + 8 * Z.of_nat i = zlen pre + Z.of_nat k -> (i < fuel)%nat ->
  parse_pairs m fuel (pre ++ replicate k x00) (Z.of_nat i) cursor = Ok (Some (cursor + 8 * Z.of_nat i)).
Proof.
  intros Hm. revert i cursor. induction fuel as [|fuel IH]; intros i cursor Hc He Hi; [lia|].
  assert (Hz : zlen (pre ++ replicate k x00) = zlen pre + Z.of_nat k).
  { rewrite zlen_app. unfold zlen. rewrite length_replicate. reflexivity. }
  pose proof (zlen_nonneg pre). cbn [parse_pairs].
  destruct (Z.leb_spec (Z.of_nat i) 0); [do 2 f_equal; lia|].
  assert (Hitem : forall c, zlen pre <= c -> c + 4 <= zlen pre + Z.of_nat k ->
    parse_item m (pre ++ replicate k x00) c = Ok (Some (c + (4 + 0)))).
  { intros c Hc1 Hc2. unfold parse_item. rewrite Hz, be_u32_at_zeros by lia.
    rewrite !(proj2 (Z.ltb_ge _ _)) by lia. reflexivity. }
  run_st. rewrite Hitem by lia. cbv beta iota. rewrite Hitem by lia. cbv beta iota.
  replace (Z.of_nat i - 1) with (Z.of_nat (i - 1)) by lia.
  rewrite IH by lia. do 2 f_equal. lia.
Qed.

(** The per-frame cap does not bound legacy [D] frames: for every cap,
    even zero, and every number of pairs the wire can declare, the decoder
    accepts a [D] frame of [10 + 8n] bytes, so one buffered frame can be far
    larger than [max_frame_payload]. *)
Theorem legacy_frame_uncapped `{Z0 : Zlib} (m : Z) (n : nat)
    (Hm : 0 <= m) (Hn : Z.of_nat n <= U32_MAX) :
  snd (next_frame (feed (with_max_frame_payload m) (legacy_empty_pairs n)))
  = Ok (Some (Unknown FRAME_TYPE_DATA_LEGACY (legacy_empty_pairs n))) /\
  zlen (legacy_empty_pairs n) = 10 + 8 * Z.of_nat n.
Proof.
  set (pre := [PROTOCOL_VERSION; FRAME_TYPE_DATA_LEGACY] ++ u32_to_be_bytes 1 ++ u32_to_be_bytes (Z.of_nat n)).
  assert (Hp : legacy_empty_pairs n = pre ++ replicate (8 * n) x00)
    by (unfold legacy_empty_pairs, pre; rewrite <- !app_assoc; reflexivity).
  assert (Hlen : zlen (legacy_empty_pairs n) = 10 + 8 * Z.of_nat n).
  { rewrite Hp, zlen_app. unfold zlen at 2. rewrite length_replicate. unfold pre.
    autorewrite with ferro. lia. }
  split; [|exact Hlen].
  rewrite next_frame_parse by apply wf_feed, wf_new. rewrite max_feed, rest_feed by apply wf_new.
  change (rest (with_max_frame_payload m) ++ legacy_empty_pairs n) with (legacy_empty_pairs n).
  change (parse_frame (max_frame_payload (with_max_frame_payload m)) (legacy_empty_pairs n))
    with (parse_legacy m (legacy_empty_pairs n)).
  unfold parse_legacy. rewrite (proj2 (Z.ltb_ge _ _)) by lia.
  assert (H6 : be_u32_at 6 (legacy_empty_pairs n) = Z.of_nat n).
  { apply u32_be_roundtrip. unfold is_u32. lia. }
  assert (Hlp : zlen pre = 10) by reflexivity.
  run_st. rewrite H6, Hp, (parse_pairs_zeros m) by (rewrite ?length_app, ?length_replicate; lia).
  rewrite <- Hp, (proj2 (Z.ltb_ge _ _)) by lia. cbn -[legacy_empty_pairs Z.mul Z.add].
  rewrite take_ge; [reflexivity|]. unfold zlen in Hlen. lia.
Qed.

Lemma legacy_frame_uncapped_witness :
  zlen (legacy_empty_pairs 100) = 10 + 8 * Z.of_nat 100 /\ max_frame_payload (with_max_frame_payload 16) = 16.
Proof.
  split; [|reflexivity]. apply (legacy_frame_uncapped (Z0 := rle_zlib) 16 100); [lia|vm_compute; discriminate].
Defined.
