(* ===== verification/Net.v ===== *)
(** * Transport: I/O errors, sockets and protocol errors

    The socket as the Lumberjack client and server use it
    ([Conn] of [server.rs], [Connection] of [client.rs], both wrappers around
    tokio's stream methods), and [ProtocolError] of [error.rs]. What the peer
    and the operating system do is data: the sequence of read events and write
    faults of the connection. TLS streams behave as plain ones once the
    handshake is over; the handshake's result is an argument where it occurs. *)

From S2P Require Import Prelude Frame.

Local Open Scope Z_scope.

Inductive ErrorKind :=
| KNotFound | KAlreadyExists | KUnexpectedEof | KInvalidData | KInvalidInput | KOther (code : Z).

Record io_error := mkIoError { io_kind : ErrorKind; io_msg : string }.

Inductive ProtocolError :=
| Io (e : io_error)
| Codec (e : FrameError)
| Timeout (what : string)
| UnexpectedAck (version frame_type : byte) (acked_seq expected_seq : Z)
| PartialAck (acked sent : Z)
| NoHostsConfigured
| AllHostsFailed (last : ProtocolError)
| WindowTooLarge (kind : string) (requested limit : Z)
| Tls (msg : string).

#[export] Instance ErrorKind_eq_dec : EqDecision ErrorKind.
Proof. solve_decision. Defined.

#[export] Instance io_error_eq_dec : EqDecision io_error.
Proof. solve_decision. Defined.

(** ** Sockets *)

Inductive read_event :=
| RBytes (b : bytes)
| RError (e : io_error).

(** [incoming]: what successive reads find, end of file when exhausted.
    [write_faults]: for each write or flush, [None] for success or the bytes
    that went out before the error. [outgoing]: what the peer receives. *)
Record Conn := mkConn {
  incoming : list read_event;
  write_faults : list (option (nat * io_error));
  outgoing : bytes;
}.

Module Conn.

(** [read(&mut buf)] with a buffer of [n] bytes: at most [n] bytes, an empty
    result is end of file. *)
Definition read (n : nat) : stm Conn io_error bytes := fun c =>
  match incoming c with
  | [] => (c, Ok [])
  | RError e :: t => (mkConn t (write_faults c) (outgoing c), Err e)
  | RBytes b :: t =>
    if (length b <=? n)%nat
    then (mkConn t (write_faults c) (outgoing c), Ok b)
    else (mkConn (RBytes (drop n b) :: t) (write_faults c) (outgoing c), Ok (take n b))
  end.

Definition write_all (b : bytes) : stm Conn io_error unit := fun c =>
  match write_faults c with
  | Some (k, e) :: t => (mkConn (incoming c) t (outgoing c ++ take k b), Err e)
  | None :: t => (mkConn (incoming c) t (outgoing c ++ b), Ok tt)
  | [] => (mkConn (incoming c) [] (outgoing c ++ b), Ok tt)
  end.

Definition flush : stm Conn io_error unit := fun c =>
  match write_faults c with
  | Some (_, e) :: t => (mkConn (incoming c) t (outgoing c), Err e)
  | None :: t => (mkConn (incoming c) t (outgoing c), Ok tt)
  | [] => (c, Ok tt)
  end.

(** Reads the socket can still serve before end of file, counting oversized
    events once per byte. *)
Definition read_budget (c : Conn) : nat :=
  sum_list_with (fun ev => match ev with RBytes b => S (length b) | RError _ => 1%nat end) (incoming c).

End Conn.
