(* ===== verification/Server.v ===== *)
(** * The Lumberjack server

    Model of [crates/ferro-lumberjack/src/server.rs]: the builder and
    listener, the connection, the per-window accumulator and its caps, and the
    [read_window] loop that drains the decoder, reads the socket and repeats.
    [ServerSpec] relates the loop to a receiver over the whole byte stream. *)

From S2P Require Import Prelude Frame Net.

Local Open Scope Z_scope.

Definition READ_CHUNK : nat := Z.to_nat (8 * 1024).

(** ** Builder and listener *)

Record ServerBuilder := mkServerBuilder {
  sb_max_frame_payload : option Z;
  sb_max_window_events : option Z;
  sb_max_window_bytes : option Z;
  sb_tls : bool;
}.

Definition ServerBuilder_default : ServerBuilder := mkServerBuilder None None None false.

Definition max_frame_payload_set (n : Z) (b : ServerBuilder) : ServerBuilder :=
  mkServerBuilder (Some n) (sb_max_window_events b) (sb_max_window_bytes b) (sb_tls b).

Definition max_window_events_set (n : Z) (b : ServerBuilder) : ServerBuilder :=
  mkServerBuilder (sb_max_frame_payload b) (Some n) (sb_max_window_bytes b) (sb_tls b).

Definition max_window_bytes_set (n : Z) (b : ServerBuilder) : ServerBuilder :=
  mkServerBuilder (sb_max_frame_payload b) (sb_max_window_events b) (Some n) (sb_tls b).

Definition server_tls_set (b : ServerBuilder) : ServerBuilder :=
  mkServerBuilder (sb_max_frame_payload b) (sb_max_window_events b) (sb_max_window_bytes b) true.

Record Listener := mkListener {
  l_max_frame_payload : Z;
  l_max_window_events : Z;
  l_max_window_bytes : Z;
  l_tls : bool;
}.

(** [bind]: [listen] is the result of [TcpListener::bind]. *)
Definition bind (b : ServerBuilder) (listen : outcome io_error unit) : outcome io_error Listener :=
  listen ≫= fun _ =>
  Ok (mkListener (default DEFAULT_MAX_FRAME_PAYLOAD (sb_max_frame_payload b))
                 (default DEFAULT_MAX_WINDOW_EVENTS (sb_max_window_events b))
                 (default DEFAULT_MAX_WINDOW_BYTES (sb_max_window_bytes b))
                 (sb_tls b)).

(** ** Connections *)

Record ServerConnection := mkServerConnection {
  conn : Conn;
  decoder : FrameDecoder;
  sc_max_frame_payload : Z;
  max_window_events : Z;
  max_window_bytes : Z;
}.

(** [accept]: [sock] is the result of [TcpListener::accept], [handshake] what
    the TLS acceptor makes of the socket when the listener has TLS. *)
Definition accept (l : Listener) (sock : outcome io_error Conn)
    (handshake : Conn -> outcome io_error Conn) : outcome ProtocolError ServerConnection :=
  c ← map_err Io sock;
  c ← (if l_tls l then map_err Io (handshake c) else Ok c);
  Ok (mkServerConnection c (with_max_frame_payload (l_max_frame_payload l))
        (l_max_frame_payload l) (l_max_window_events l) (l_max_window_bytes l)).

Record JsonEvent := mkJsonEvent { ev_seq : Z; ev_payload : bytes }.

(** [struct Window]. *)
Record EventWindow := mkEventWindow { w_events : list JsonEvent; w_last_seq : Z }.

(** ** The in-flight window: the locals of [read_window] *)

Record WindowAcc := mkAcc {
  events : list JsonEvent;
  window_remaining : option Z;
  last_seq : Z;
  accumulated_bytes : Z;
}.

Definition acc0 : WindowAcc := mkAcc [] None 0 0.

Definition check_declared_window (count max_events : Z) : outcome ProtocolError unit :=
  if max_events <? count then Err (WindowTooLarge "event count" count max_events) else Ok tt.

Definition record_event (max_events max_bytes seq : Z) (payload : bytes)
    : stm WindowAcc ProtocolError unit := fun a =>
  match window_remaining a with
  | None => (a, Err (Codec (UnknownFrameType "J"%byte)))
  | Some remaining =>
    if remaining =? 0 then (a, Err (Codec (UnknownFrameType "J"%byte))) else
    if max_events <=? zlen (events a)
    then (a, Err (WindowTooLarge "event count" (zlen (events a) + 1) max_events)) else
    let next_bytes := usize_saturating_add (accumulated_bytes a) (zlen payload) in
    if max_bytes <? next_bytes
    then (a, Err (WindowTooLarge "byte total" next_bytes max_bytes)) else
    (mkAcc (events a ++ [mkJsonEvent seq payload]) (Some (remaining - 1)) seq next_bytes, Ok tt)
  end.

Definition consume_slot : stm WindowAcc ProtocolError unit := fun a =>
  match window_remaining a with
  | None => (a, Err (Codec (UnknownFrameType "D"%byte)))
  | Some remaining =>
    if remaining =? 0 then (a, Err (Codec (UnknownFrameType "D"%byte))) else
    (mkAcc (events a) (Some (remaining - 1)) (last_seq a) (accumulated_bytes a), Ok tt)
  end.

(** The two caps a window is held to. *)
Record Caps := mkCaps { cap_frame : Z; cap_events : Z; cap_bytes : Z }.

Definition caps_of (self : ServerConnection) : Caps :=
  mkCaps (sc_max_frame_payload self) (max_window_events self) (max_window_bytes self).

Section Reader.
Context `{Zlib}.

(** [while let Some(f) = inner.next_frame()?] over a decompressed batch. *)
Fixpoint inner_frames (fuel : nat) (k : Caps) (inner : FrameDecoder)
    : stm WindowAcc ProtocolError unit :=
  match fuel with
  | O => st_lift Panic
  | S fuel =>
    match next_frame inner with
    | (_, Err e) => st_throw (Codec e)
    | (_, Panic) => st_lift Panic
    | (_, Ok None) => mret tt
    | (inner, Ok (Some f)) =>
      match f with
      | Json seq payload =>
        record_event (cap_events k) (cap_bytes k) seq payload;; inner_frames fuel k inner
      | Unknown _ _ => consume_slot;; inner_frames fuel k inner
      | Window _ | Compressed _ | Ack _ => st_throw (Codec (UnknownFrameType x00))
      end
    end
  end.

(** [if window_remaining == Some(0) { return Ok(Some(Window { .. })) }]. *)
Definition return_if_complete : stm WindowAcc ProtocolError (option EventWindow) := fun a =>
  match window_remaining a with
  | Some 0 => (a, Ok (Some (mkEventWindow (events a) (last_seq a))))
  | _ => (a, Ok None)
  end.

(** The [match frame] of the drain loop: [Some] is the value [read_window]
    returns with, [None] continues the loop. *)
Definition handle_frame (k : Caps) (f : Frame) : stm WindowAcc ProtocolError (option EventWindow) :=
  match f with
  | Window count => fun a =>
    match window_remaining a with
    | Some _ => (a, Err (Codec (UnknownFrameType "W"%byte)))
    | None =>
      match check_declared_window count (cap_events k) with
      | Err e => (a, Err e)
      | Panic => (a, Panic)
      | Ok _ =>
        if count =? 0 then (a, Ok (Some (mkEventWindow (events a) 0)))
        else (mkAcc (events a) (Some count) (last_seq a) (accumulated_bytes a), Ok None)
      end
    end
  | Json seq payload =>
    record_event (cap_events k) (cap_bytes k) seq payload;; return_if_complete
  | Compressed decompressed =>
    let inner := feed (with_max_frame_payload (cap_frame k)) decompressed in
    inner_frames (S (length decompressed)) k inner;; return_if_complete
  | Unknown _ _ => consume_slot;; return_if_complete
  | Ack _ => st_throw (Codec (UnknownFrameType "A"%byte))
  end.

(** The inner loop: drain what is buffered until a frame is incomplete or the
    window ends. *)
Fixpoint drain_frames (fuel : nat) (k : Caps) (d : FrameDecoder) (a : WindowAcc)
    : FrameDecoder * WindowAcc * outcome ProtocolError (option EventWindow) :=
  match fuel with
  | O => (d, a, Panic)
  | S fuel =>
    match next_frame d with
    | (d, Err e) => (d, a, Err (Codec e))
    | (d, Panic) => (d, a, Panic)
    | (d, Ok None) => (d, a, Ok None)
    | (d, Ok (Some f)) =>
      match handle_frame k f a with
      | (a, Ok None) => drain_frames fuel k d a
      | (a, r) => (d, a, r)
      end
    end
  end.

Definition mid_window_eof : ProtocolError :=
  Io (mkIoError KUnexpectedEof "lumberjack: peer closed connection mid-window").

(** End of file: clean only before a window has started. *)
Definition at_eof (a : WindowAcc) : outcome ProtocolError (option EventWindow) :=
  match window_remaining a, events a with
  | None, [] => Ok None
  | _, _ => Err mid_window_eof
  end.

(** The outer loop: drain, then read the socket. *)
Fixpoint read_loop (fuel : nat) (self : ServerConnection) (a : WindowAcc)
    : ServerConnection * outcome ProtocolError (option EventWindow) :=
  match fuel with
  | O => (self, Panic)
  | S fuel =>
    let k := caps_of self in
    let with_dec d := mkServerConnection (conn self) d (sc_max_frame_payload self)
                        (max_window_events self) (max_window_bytes self) in
    match drain_frames (S (length (buf (decoder self)))) k (decoder self) a with
    | (d, a, Ok None) =>
      match Conn.read READ_CHUNK (conn self) with
      | (c, Err e) => (mkServerConnection c d (sc_max_frame_payload self)
                         (max_window_events self) (max_window_bytes self), Err (Io e))
      | (c, Panic) => (with_dec d, Panic)
      | (c, Ok []) => (mkServerConnection c d (sc_max_frame_payload self)
                         (max_window_events self) (max_window_bytes self), at_eof a)
      | (c, Ok chunk) =>
        read_loop fuel (mkServerConnection c (feed d chunk) (sc_max_frame_payload self)
                          (max_window_events self) (max_window_bytes self)) a
      end
    | (d, a, r) => (with_dec d, r)
    end
  end.

Definition read_window : stm ServerConnection ProtocolError (option EventWindow) := fun self =>
  read_loop (S (Conn.read_budget (conn self))) self acc0.

(** Run a socket operation of the connection. *)
Definition on_conn {A} (m : stm Conn io_error A) : stm ServerConnection ProtocolError A := fun self =>
  let '(c, r) := m (conn self) in
  (mkServerConnection c (decoder self) (sc_max_frame_payload self)
     (max_window_events self) (max_window_bytes self), map_err Io r).

Definition send_ack (seq : Z) : stm ServerConnection ProtocolError unit :=
  on_conn (Conn.write_all (encode_ack seq));;
  on_conn Conn.flush.

Definition read_and_ack : stm ServerConnection ProtocolError (option EventWindow) :=
  w ← read_window;
  match w with
  | None => mret None
  | Some window => send_ack (w_last_seq window);; mret (Some window)
  end.

End Reader.
