(* ===== verification/ServerSpec.v ===== *)
(** * What the Lumberjack server's [read_window] implements

    The abstract receiver [recv] works on the connection's whole byte stream:
    parse a frame, apply it to the window accumulator, repeat; end of stream
    is clean only between windows. The refinement lemma shows that
    [read_window], with its buffer, its reads of at most [READ_CHUNK] bytes
    and its restarts, computes [recv] of the pending bytes followed by
    everything the socket delivers, however it is chunked. *)

From S2P Require Import Prelude Frame FrameSpec Net Server.

Local Open Scope Z_scope.

Section Recv.
Context `{Z0 : Zlib}.

Fixpoint recv (fuel : nat) (m : Z) (k : Caps) (a : WindowAcc) (stream : bytes)
    : outcome ProtocolError (option EventWindow) * bytes :=
  match fuel with
  | O => (Panic, stream)
  | S fuel =>
    match parse_frame m stream with
    | Ok None => (at_eof a, stream)
    | Err e => (Err (Codec e), stream)
    | Panic => (Panic, stream)
    | Ok (Some (f, n)) =>
      let stream := drop (Z.to_nat n) stream in
      match handle_frame k f a with
      | (a, Ok None) => recv fuel m k a stream
      | (a, r) => (r, stream)
      end
    end
  end.

(** Applying a batch of frames, as far as the bytes at hand go. *)
Fixpoint apply_frames (fuel : nat) (m : Z) (k : Caps) (a : WindowAcc) (p : bytes)
    : WindowAcc * outcome ProtocolError (option EventWindow) * bytes :=
  match fuel with
  | O => (a, Panic, p)
  | S fuel =>
    match parse_frame m p with
    | Ok None => (a, Ok None, p)
    | Err e => (a, Err (Codec e), p)
    | Panic => (a, Panic, p)
    | Ok (Some (f, n)) =>
      let p := drop (Z.to_nat n) p in
      match handle_frame k f a with
      | (a, Ok None) => apply_frames fuel m k a p
      | (a, r) => (a, r, p)
      end
    end
  end.

End Recv.

(** The bytes a socket delivers before end of file, when no read fails. *)
Definition socket_bytes (c : Conn) : bytes :=
  concat ((fun ev => match ev with RBytes b => b | RError _ => [] end) <$> incoming c).

Definition healthy_event (ev : read_event) : Prop :=
  match ev with RBytes b => b <> [] | RError _ => False end.

(** No read error, no spurious empty read. *)
Definition healthy (c : Conn) : Prop := Forall healthy_event (incoming c).

(** A connection as [accept] builds it and [read_window] leaves it. *)
Definition conn_wf (self : ServerConnection) : Prop :=
  wf (decoder self) /\ max_frame_payload (decoder self) = sc_max_frame_payload self.

(** Everything the receiver will see: pending bytes, then the socket. *)
Definition stream_of (self : ServerConnection) : bytes :=
  rest (decoder self) ++ socket_bytes (conn self).

Section Facts.
Context `{Z0 : Zlib} {ZL : ZlibLaws Z0}.

Lemma drain_frames_apply fuel k d a :
  wf d -> (length (rest d) < fuel)%nat ->
  exists d', drain_frames fuel k d a =
    (d', fst (fst (apply_frames fuel (max_frame_payload d) k a (rest d))),
     snd (fst (apply_frames fuel (max_frame_payload d) k a (rest d))))
  /\ wf d' /\ max_frame_payload d' = max_frame_payload d
  /\ rest d' = snd (apply_frames fuel (max_frame_payload d) k a (rest d)).
Proof using ZL.
  revert d a. induction fuel as [|fuel IH]; intros d a Hd Hl; [lia|].
  cbn. rewrite next_frame_parse by exact Hd.
  destruct (parse_frame (max_frame_payload d) (rest d)) as [[[f n]|]| |] eqn:E; cbn.
  - apply parse_frame_progress in E.
    assert (Hwf : wf (advance_read n d)) by (apply wf_advance; [exact Hd|lia]).
    assert (Hrest : rest (advance_read n d) = drop (Z.to_nat n) (rest d))
      by (apply rest_advance; [exact Hd|lia]).
    destruct (handle_frame k f a) as [a' [[w|]| |]]; try (exists (advance_read n d); cbn; auto; fail).
    destruct (IH (advance_read n d) a' Hwf) as (d' & Hdr & Hwf' & Hm & Hr).
    { rewrite Hrest, length_drop. unfold zlen in *. lia. }
    rewrite Hrest in Hdr, Hr. cbn in *. exists d'. rewrite Hdr.
    destruct (apply_frames _ _ _ _ _) as [[? ?] ?]. auto.
  - exists d. auto.
  - exists d. auto.
  - exfalso. exact (parse_frame_total _ _ E).
Qed.

Lemma recv_fuel f1 f2 m k a p :
  (length p < f1)%nat -> (length p < f2)%nat -> recv f1 m k a p = recv f2 m k a p.
Proof.
  revert f2 a p. induction f1 as [|f1 IH]; intros f2 a p H1 H2; [lia|].
  destruct f2 as [|f2]; [lia|]. cbn.
  destruct (parse_frame m p) as [[[f n]|]| |] eqn:E; try reflexivity.
  apply parse_frame_progress in E. unfold zlen in E.
  destruct (handle_frame k f a) as [a' [[w|]| |]]; try reflexivity.
  apply IH; rewrite length_drop; lia.
Qed.

(** Receiving [p ++ q] starts by applying the frames of [p]. *)
Lemma recv_app fuel f2 m k a p q a' r left :
  (length p < fuel)%nat -> (length (p ++ q) < f2)%nat ->
  apply_frames fuel m k a p = (a', r, left) ->
  recv f2 m k a (p ++ q) =
  match r with
  | Ok None => recv f2 m k a' (left ++ q)
  | _ => (r, left ++ q)
  end.
Proof using ZL.
  revert f2 a p. induction fuel as [|fuel IH]; intros f2 a p H1 H2; [lia|].
  cbn [apply_frames]. destruct f2 as [|f2]; [lia|].
  destruct (parse_frame m p) as [[[f n]|]| |] eqn:E.
  - pose proof (parse_frame_progress _ _ _ _ E) as Hn. unfold zlen in Hn. rewrite length_app in H2.
    assert (Hstep : recv (S f2) m k a (p ++ q) =
      match handle_frame k f a with
      | (a, Ok None) => recv f2 m k a (drop (Z.to_nat n) p ++ q)
      | (a, r) => (r, drop (Z.to_nat n) p ++ q)
      end).
    { cbn. rewrite parse_frame_app by congruence. rewrite E, drop_app_le by lia. reflexivity. }
    rewrite Hstep. destruct (handle_frame k f a) as [a1 [[w|]| |]];
      try (intros [= <- <- <-]; reflexivity).
    intros Hap. rewrite (recv_fuel f2 (S f2)) by (rewrite length_app, length_drop; lia).
    apply IH; [rewrite length_drop; lia|rewrite length_app, length_drop; lia|exact Hap].
  - intros [= <- <- <-]. reflexivity.
  - intros [= <- <- <-]. cbn. rewrite parse_frame_app by congruence. rewrite E. reflexivity.
  - exfalso. exact (parse_frame_total _ _ E).
Qed.

Lemma apply_frames_left fuel m k a p a' r left :
  (length p < fuel)%nat -> apply_frames fuel m k a p = (a', r, left) ->
  (length left <= length p)%nat /\ (r = Ok None -> parse_frame m left = Ok None).
Proof using ZL.
  revert a p. induction fuel as [|fuel IH]; intros a p H1; [lia|]. cbn.
  destruct (parse_frame m p) as [[[f n]|]| |] eqn:E.
  - pose proof (parse_frame_progress _ _ _ _ E) as Hn. unfold zlen in Hn.
    destruct (handle_frame k f a) as [a1 [[w|]| |]];
      try (intros [= <- <- <-]; rewrite length_drop; split; [lia|discriminate]).
    intros Hap. apply IH in Hap; rewrite length_drop in *; [|lia]. split; [lia|apply Hap].
  - intros [= <- <- <-]. auto.
  - intros [= <- <- <-]. split; [lia|discriminate].
  - exfalso. exact (parse_frame_total _ _ E).
Qed.

(** One socket read consumes budget and moves bytes from the socket. *)
Lemma healthy_read c :
  healthy c ->
  (incoming c = [] /\ Conn.read READ_CHUNK c = (c, Ok [])) \/
  (exists c' chunk, Conn.read READ_CHUNK c = (c', Ok chunk) /\ chunk <> [] /\ healthy c' /\
    socket_bytes c = chunk ++ socket_bytes c' /\ (Conn.read_budget c' < Conn.read_budget c)%nat).
Proof.
  unfold healthy, Conn.read, socket_bytes, Conn.read_budget. intros Hh.
  destruct (incoming c) as [|[b|e] t] eqn:Ei; [left; auto|right..]; apply Forall_cons in Hh as [Hb Ht];
    [|contradiction].
  destruct (Nat.leb_spec (length b) READ_CHUNK).
  - eexists _, b. split; [reflexivity|]. split_and!; [exact Hb|exact Ht|reflexivity|cbn; lia].
  - eexists _, (take READ_CHUNK b). split; [reflexivity|].
    assert (Hchunk : (0 < READ_CHUNK)%nat) by (unfold READ_CHUNK; lia).
    split_and!.
    + destruct b; [cbn in *; lia|]. destruct READ_CHUNK; [lia|discriminate].
    + constructor; [|exact Ht]. cbn. intros Hd. apply (f_equal length) in Hd.
      rewrite length_drop in Hd. cbn in Hd. lia.
    + cbn. rewrite app_assoc, take_drop. reflexivity.
    + cbn. rewrite length_drop. lia.
Qed.

(** The refinement: result and leftover bytes of the read loop. *)
Lemma read_loop_recv fuel f2 self a :
  conn_wf self -> healthy (conn self) ->
  (Conn.read_budget (conn self) < fuel)%nat -> (length (stream_of self) < f2)%nat ->
  snd (read_loop fuel self a)
  = fst (recv f2 (sc_max_frame_payload self) (caps_of self) a (stream_of self)) /\
  conn_wf (fst (read_loop fuel self a)) /\ healthy (conn (fst (read_loop fuel self a))) /\
  caps_of (fst (read_loop fuel self a)) = caps_of self /\
  (forall w, snd (read_loop fuel self a) = Ok (Some w) -> stream_of (fst (read_loop fuel self a))
    = snd (recv f2 (sc_max_frame_payload self) (caps_of self) a (stream_of self))).
Proof using ZL.
  revert self a. induction fuel as [|fuel IH]; intros self a [Hwf Hm] Hh Hf H2; [lia|].
  cbn [read_loop].
  assert (Hl : (length (rest (decoder self)) < S (length (buf (decoder self))))%nat)
    by (pose proof (length_rest_le_buf (decoder self)); lia).
  destruct (drain_frames_apply _ (caps_of self) (decoder self) a Hwf Hl) as (d' & Hdr & Hwf' & Hm' & Hr').
  rewrite Hdr. rewrite Hm in *.
  destruct (apply_frames (S (length (buf (decoder self)))) (sc_max_frame_payload self)
              (caps_of self) a (rest (decoder self))) as [[a' r] left] eqn:Ea.
  cbn [fst snd] in *.
  pose proof (recv_app _ f2 _ _ _ _ (socket_bytes (conn self)) _ _ _ Hl H2 Ea) as Happ.
  pose proof (apply_frames_left _ _ _ _ _ _ _ _ Hl Ea) as [Hleft Hstuck].
  unfold stream_of in *. rewrite Happ.
  destruct r as [[w|]|e|]; cbn [fst snd].
  1, 3, 4: cbn; rewrite Hr'; split_and!; done.
  destruct (healthy_read (conn self) Hh) as [[Hin Hrd]|(c' & chunk & Hrd & Hne & Hh' & Hsb & Hbud)].
  - rewrite Hrd. cbn. unfold socket_bytes. rewrite Hin. cbn. rewrite app_nil_r.
    destruct f2 as [|f2]; [lia|]. cbn. rewrite Hstuck by reflexivity. cbn.
    split_and!; try done.
    intros w Hw. exfalso. unfold at_eof in Hw. repeat case_match; discriminate.
  - rewrite Hrd. destruct chunk as [|b0 chunk]; [contradiction|]. remember (b0 :: chunk) as ch.
    set (self' := mkServerConnection c' (feed d' ch) (sc_max_frame_payload self)
                    (max_window_events self) (max_window_bytes self)).
    destruct (IH self' a') as (Hres & Hcw & Hhe & Hcaps & Hst).
    + split; [apply wf_feed, Hwf'|].
      change (max_frame_payload (feed d' ch) = sc_max_frame_payload self). rewrite max_feed. exact Hm'.
    + exact Hh'.
    + cbn. lia.
    + unfold self'. cbn [decoder conn]. rewrite rest_feed by exact Hwf'. rewrite Hr', <- app_assoc, <- Hsb.
      rewrite length_app in *. lia.
    + unfold self' in Hres, Hst. cbn [decoder conn] in Hres, Hst. rewrite rest_feed in Hres, Hst by exact Hwf'.
      rewrite Hr', <- app_assoc, <- Hsb in Hres, Hst.
      change (caps_of self') with (caps_of self) in *. split_and!; assumption.
Qed.

End Facts.

(** ** The window accumulator's invariant *)

(** Summed payload sizes of a list of events. *)
Definition total_bytes (evs : list JsonEvent) : Z :=
  foldr (fun e acc => zlen (ev_payload e) + acc) 0 evs.

Record acc_ok (k : Caps) (a : WindowAcc) : Prop := {
  ok_count : zlen (events a) <= cap_events k;
  ok_bytes : accumulated_bytes a = total_bytes (events a) /\ total_bytes (events a) <= cap_bytes k;
  ok_last : last_seq a = default 0 (ev_seq <$> last (events a));
  ok_empty : window_remaining a = None -> events a = [];
}.

(** The same facts of a finished window. *)
Definition window_ok (k : Caps) (o : option EventWindow) : Prop :=
  forall w, o = Some w ->
  zlen (w_events w) <= cap_events k /\ total_bytes (w_events w) <= cap_bytes k /\
  w_last_seq w = default 0 (ev_seq <$> last (w_events w)).

Lemma total_bytes_app l k : total_bytes (l ++ k) = total_bytes l + total_bytes k.
Proof. unfold total_bytes. induction l as [|e l IH]; cbn; [reflexivity|]. rewrite IH. lia. Qed.

Lemma total_bytes_nonneg l : 0 <= total_bytes l.
Proof. unfold total_bytes. induction l as [|e l IH]; cbn; [lia|]. pose proof (zlen_nonneg (ev_payload e)). lia. Qed.

Section Accumulator.
Context `{Z0 : Zlib} (k : Caps) (Hk : cap_bytes k < USIZE_MAX).

Lemma acc0_ok : 0 <= cap_events k -> 0 <= cap_bytes k -> acc_ok k acc0.
Proof. intros. split; cbn; auto. Qed.

Lemma record_event_keeps s p :
  st_keeps (acc_ok k) (record_event (cap_events k) (cap_bytes k) s p).
Proof using Hk.
  intros a Ha. pose proof Ha as [Hc [Hb1 Hb2] Hl _]. unfold record_event.
  destruct (window_remaining a) as [r|] eqn:Er; [|exact Ha].
  destruct (Z.eqb_spec r 0); [exact Ha|].
  destruct (Z.leb_spec (cap_events k) (zlen (events a))); [exact Ha|].
  destruct (Z.ltb_spec (cap_bytes k) (usize_saturating_add (accumulated_bytes a) (zlen p)));
    [exact Ha|]. unfold usize_saturating_add in *.
  assert (Hsum : accumulated_bytes a + zlen p <= cap_bytes k) by lia.
  rewrite Z.min_l by lia. split; cbn.
  - autorewrite with ferro. lia.
  - rewrite total_bytes_app. cbn. lia.
  - rewrite last_snoc. reflexivity.
  - discriminate.
Qed.

Lemma consume_slot_keeps : st_keeps (acc_ok k) consume_slot.
Proof.
  intros a Ha. pose proof Ha as [Hc Hb Hl _]. unfold consume_slot.
  destruct (window_remaining a) as [r|] eqn:Er; [|exact Ha].
  destruct (Z.eqb_spec r 0); [exact Ha|split; cbn; auto; discriminate].
Qed.

Lemma inner_frames_keeps fuel d : st_keeps (acc_ok k) (inner_frames fuel k d).
Proof using Hk.
  revert d. induction fuel as [|fuel IH]; intros d; cbn; [auto with ferro|].
  destruct (next_frame d) as [d' [[f|]| |]]; [|auto with ferro ..].
  destruct f; [auto with ferro| |auto with ferro ..|].
  - apply st_keeps_bind; [apply record_event_keeps|intros _; apply IH].
  - apply st_keeps_bind; [apply consume_slot_keeps|intros _; apply IH].
Qed.

Lemma return_if_complete_keeps : st_keeps (acc_ok k) return_if_complete.
Proof. intros a Ha. unfold return_if_complete. repeat case_match; exact Ha. Qed.

Lemma return_if_complete_ok : st_returns (acc_ok k) return_if_complete (window_ok k).
Proof.
  intros a a' o [Hc [Hb1 Hb2] Hl He] Hr w ->. unfold return_if_complete in Hr.
  repeat case_match; try discriminate. injection Hr as <- <-. cbn. auto.
Qed.

(** Handling any frame keeps the accumulator within its caps, error or not. *)
Lemma handle_frame_keeps f : st_keeps (acc_ok k) (handle_frame k f).
Proof using Hk.
  destruct f; cbn [handle_frame].
  - intros a Ha. pose proof Ha as [Hc Hb Hl _].
    repeat case_match; try exact Ha. split; cbn; auto; discriminate.
  - apply st_keeps_bind; [apply record_event_keeps|intros _; apply return_if_complete_keeps].
  - apply st_keeps_bind; [apply inner_frames_keeps|intros _; apply return_if_complete_keeps].
  - apply st_keeps_throw.
  - apply st_keeps_bind; [apply consume_slot_keeps|intros _; apply return_if_complete_keeps].
Qed.

Lemma handle_frame_ok f :
  0 <= cap_events k -> 0 <= cap_bytes k -> st_returns (acc_ok k) (handle_frame k f) (window_ok k).
Proof using Hk.
  intros Hce Hcb. destruct f; cbn [handle_frame].
  - intros a a' o [Hc Hb Hl He]. repeat case_match; try discriminate.
    + intros [= <- <-] w [= <-]. cbn. rewrite He by reflexivity. cbn. auto.
    + intros [= <- <-] w. discriminate.
  - apply st_returns_bind; [apply record_event_keeps|intros _; apply return_if_complete_ok].
  - apply st_returns_bind; [apply inner_frames_keeps|intros _; apply return_if_complete_ok].
  - intros a a' o Ha. discriminate.
  - apply st_returns_bind; [apply consume_slot_keeps|intros _; apply return_if_complete_ok].
Qed.

Lemma drain_frames_ok fuel d a d' a' r :
  0 <= cap_events k -> 0 <= cap_bytes k -> acc_ok k a ->
  drain_frames fuel k d a = (d', a', r) ->
  acc_ok k a' /\ (forall o, r = Ok o -> window_ok k o).
Proof using Hk.
  intros Hce Hcb. revert d a. induction fuel as [|fuel IH]; intros d a Ha; cbn.
  - intros [= <- <- <-]. split; [exact Ha|discriminate].
  - destruct (next_frame d) as [d1 [[f|]|e|]].
    2, 3, 4: intros [= <- <- <-]; split; [exact Ha|intros o Ho; try discriminate; injection Ho as <-; intros w; discriminate].
    pose proof (handle_frame_keeps f a Ha) as Hkp.
    pose proof (handle_frame_ok f Hce Hcb a) as Hok.
    destruct (handle_frame k f a) as [a1 [[w|]|e|]]; cbn in Hkp.
    2: apply IH, Hkp.
    all: intros [= <- <- <-]; split; [exact Hkp|intros o Ho; try discriminate].
    injection Ho as <-. eapply Hok; [exact Ha|reflexivity].
Qed.

Lemma read_loop_ok fuel self a :
  0 <= cap_events k -> 0 <= cap_bytes k -> caps_of self = k -> acc_ok k a ->
  forall o, snd (read_loop fuel self a) = Ok o -> window_ok k o.
Proof using Hk.
  intros Hce Hcb. revert self a. induction fuel as [|fuel IH]; intros self a Hcaps Ha o; [discriminate|].
  cbn [read_loop]. rewrite Hcaps.
  destruct (drain_frames (S (length (buf (decoder self)))) k (decoder self) a) as [[d' a'] r] eqn:Ed.
  pose proof (drain_frames_ok _ _ _ _ _ _ Hce Hcb Ha Ed) as [Ha' Hr].
  destruct r as [[w|]|e|]; cbn; [apply Hr| |discriminate ..].
  destruct (Conn.read READ_CHUNK (conn self)) as [c [[|b chunk]|e|]]; cbn; [|..|discriminate|discriminate].
  - intros Ho w ->. unfold at_eof in Ho. repeat case_match; discriminate.
  - apply IH; [exact Hcaps|exact Ha'].
Qed.

End Accumulator.
