(* ===== verification/Str.v ===== *)
(** * Rust string slices

    A [&str] is its UTF-8 bytes, here a [string]. The functions of [core::str]
    the crates use, written out, with the lemmas the components share. ASCII
    classification is by byte, as [u8::is_ascii_*] has it. *)

From S2P Require Import Prelude.
From stdpp Require Import pretty.

Local Open Scope string_scope.

(** ** Characters *)

Definition code (c : ascii) : N := N_of_ascii c.

Definition in_range (lo hi c : ascii) : bool :=
  ((code lo <=? code c) && (code c <=? code hi))%N.

Definition is_ascii_digit (c : ascii) : bool := in_range "0" "9" c.
Definition is_ascii_lowercase (c : ascii) : bool := in_range "a" "z" c.
Definition is_ascii_uppercase (c : ascii) : bool := in_range "A" "Z" c.
Definition is_ascii_alphabetic (c : ascii) : bool := is_ascii_lowercase c || is_ascii_uppercase c.
Definition is_ascii_alphanumeric (c : ascii) : bool := is_ascii_alphabetic c || is_ascii_digit c.
Definition is_ascii_hexdigit (c : ascii) : bool :=
  is_ascii_digit c || in_range "a" "f" c || in_range "A" "F" c.
(** Whitespace of [str::trim] that is a single byte. *)
Definition is_whitespace (c : ascii) : bool :=
  ((9 <=? code c) && (code c <=? 13) || (code c =? 32))%N.

Definition to_ascii_lowercase_char (c : ascii) : ascii :=
  if is_ascii_uppercase c then ascii_of_N (code c + 32) else c.

Definition not_char (sep c : ascii) : bool := negb (Ascii.eqb c sep).
Arguments not_char : simpl never.
#[local] Arguments Ascii.eqb : simpl never.

(** ** Slices *)

Definition str_len (s : string) : Z := Z.of_nat (String.length s).

Fixpoint str_map (f : ascii -> ascii) (s : string) : string :=
  match s with "" => "" | String c s => String (f c) (str_map f s) end.

Definition to_ascii_lowercase : string -> string := str_map to_ascii_lowercase_char.

Fixpoint str_all (f : ascii -> bool) (s : string) : bool :=
  match s with "" => true | String c s => f c && str_all f s end.

(** [chars().find(|c| p c)]. *)
Fixpoint str_find (p : ascii -> bool) (s : string) : option ascii :=
  match s with "" => None | String c s => if p c then Some c else str_find p s end.

Fixpoint split_once (sep : ascii) (s : string) : option (string * string) :=
  match s with
  | "" => None
  | String c s =>
    if Ascii.eqb c sep then Some ("", s)
    else '(a, b) ← split_once sep s; Some (String c a, b)
  end.

Fixpoint rsplit_once (sep : ascii) (s : string) : option (string * string) :=
  match s with
  | "" => None
  | String c s =>
    match rsplit_once sep s with
    | Some (a, b) => Some (String c a, b)
    | None => if Ascii.eqb c sep then Some ("", s) else None
    end
  end.

(** [split(sep)]: always at least one piece. *)
Fixpoint split (sep : ascii) (s : string) : list string :=
  match s with
  | "" => [""]
  | String c s =>
    if Ascii.eqb c sep then "" :: split sep s
    else match split sep s with
         | [] => [String c ""]
         | p :: ps => String c p :: ps
         end
  end.

Fixpoint strip_prefix (p s : string) : option string :=
  match p, s with
  | "", _ => Some s
  | String a p, String b s => if Ascii.eqb a b then strip_prefix p s else None
  | _, "" => None
  end.

Definition starts_with (p s : string) : bool := bool_decide (is_Some (strip_prefix p s)).

(** [str::contains]. *)
Fixpoint str_contains (p s : string) : bool :=
  starts_with p s || match s with "" => false | String _ s => str_contains p s end.

Definition str_drop (n : nat) (s : string) : string := String.substring n (String.length s - n) s.
Definition str_take (n : nat) (s : string) : string := String.substring 0 n s.

Definition ends_with (p s : string) : bool :=
  (String.length p <=? String.length s)%nat &&
  bool_decide (str_drop (String.length s - String.length p) s = p).

Definition strip_suffix (p s : string) : option string :=
  if ends_with p s then Some (str_take (String.length s - String.length p) s) else None.

(** [str::rfind]: the byte index of the last occurrence. *)
Fixpoint rfind (kw s : string) : option nat :=
  match s with
  | "" => if starts_with kw s then Some O else None
  | String _ t =>
    match rfind kw t with
    | Some i => Some (S i)
    | None => if starts_with kw s then Some O else None
    end
  end.

(** A byte that continues a UTF-8 character. *)
Definition is_continuation (c : ascii) : bool := in_range "128" "191" c.

(** [is_char_boundary(i)] for [i <= len]: the byte there does not continue a
    character. *)
Definition is_char_boundary (i : nat) (s : string) : bool :=
  match String.get i s with
  | Some c => negb (is_continuation c)
  | None => true
  end.

(** [&s[a..b]]: panics out of range and off a character boundary. *)
Definition str_slice {E} (a b : nat) (s : string) : outcome E string :=
  if ((a <=? b) && (b <=? String.length s))%nat && is_char_boundary a s && is_char_boundary b s
  then Ok (String.substring a (b - a) s) else Panic.

Fixpoint trim_start_by (f : ascii -> bool) (s : string) : string :=
  match s with "" => "" | String c s' => if f c then trim_start_by f s' else s end.

Fixpoint trim_end_by (f : ascii -> bool) (s : string) : string :=
  match s with
  | "" => ""
  | String c s =>
    match trim_end_by f s with
    | "" => if f c then "" else String c ""
    | t => String c t
    end
  end.

Definition trim_start_matches (c : ascii) : string -> string := trim_start_by (fun d => Ascii.eqb d c).
Definition trim_end_matches (c : ascii) : string -> string := trim_end_by (fun d => Ascii.eqb d c).
Definition trim (s : string) : string := trim_end_by is_whitespace (trim_start_by is_whitespace s).

(** ** Numbers *)

Definition digit_value (c : ascii) : Z := Z.of_N (code c) - 48.

Fixpoint parse_digits (limit acc : Z) (s : string) : option Z :=
  match s with
  | "" => Some acc
  | String c s =>
    if is_ascii_digit c
    then let acc := (acc * 10 + digit_value c)%Z in
         if Z.leb acc limit then parse_digits limit acc s else None
    else None
  end.

(** [s.parse::<u64>()] (and [usize]): an optional [+], at least one digit, no
    overflow. *)
Definition parse_u64 (s : string) : option Z :=
  let s := match s with String "+" t => if bool_decide (t = "") then s else t | _ => s end in
  if bool_decide (s = "") then None else parse_digits U64_MAX 0 s.

(** [format!("{n}")] of an unsigned integer. *)
Definition display_u64 (n : Z) : string := pretty (Z.to_N n).

(** ** Lemmas *)

Lemma not_char_true sep c : not_char sep c = true <-> c <> sep.
Proof. unfold not_char. destruct (Ascii.eqb_spec c sep); cbn; split; congruence. Qed.

Lemma split_once_spec sep s a b :
  split_once sep s = Some (a, b) ->
  s = (a ++ String sep b)%string /\ str_all (not_char sep) a = true.
Proof.
  revert a b. induction s as [|c s IH]; intros a b; cbn; [discriminate|].
  destruct (Ascii.eqb_spec c sep) as [->|Hc].
  - intros [= <- <-]. auto.
  - destruct (split_once sep s) as [[a' b']|]; cbn; [|discriminate]. intros [= <- <-].
    destruct (IH a' b' eq_refl) as [-> Ha]. cbn. rewrite (proj2 (not_char_true sep c) Hc). auto.
Qed.

Lemma split_once_app sep a b :
  str_all (not_char sep) a = true -> split_once sep (a ++ String sep b)%string = Some (a, b).
Proof.
  induction a as [|c a IH].
  { intros _. change ("" ++ String sep b)%string with (String sep b). cbn.
    rewrite Ascii.eqb_refl. reflexivity. }
  change (String c a ++ String sep b)%string with (String c (a ++ String sep b)). cbn.
  intros [Hc Ha]%andb_true_iff. apply not_char_true in Hc.
  destruct (Ascii.eqb_spec c sep); [contradiction|]. rewrite IH by exact Ha. reflexivity.
Qed.

Lemma str_find_none p s : str_find p s = None <-> str_all (fun c => negb (p c)) s = true.
Proof.
  induction s as [|c s IH]; cbn; [split; reflexivity|].
  destruct (p c); cbn; [split; discriminate|exact IH].
Qed.

Lemma str_map_id f s : str_all (fun c => Ascii.eqb (f c) c) s = true -> str_map f s = s.
Proof.
  induction s as [|c s IH]; cbn; [reflexivity|]. intros [Hc Hs]%andb_true_iff.
  apply Ascii.eqb_eq in Hc. rewrite Hc, IH by exact Hs. reflexivity.
Qed.

Lemma str_all_impl (p q : ascii -> bool) s :
  (forall c, p c = true -> q c = true) -> str_all p s = true -> str_all q s = true.
Proof.
  intros Hpq. induction s as [|c s IH]; cbn; [reflexivity|].
  intros [Hc Hs]%andb_true_iff. rewrite (Hpq _ Hc), IH by exact Hs. reflexivity.
Qed.

Lemma str_all_map p f s : str_all p (str_map f s) = str_all (fun c => p (f c)) s.
Proof. induction s as [|c s IH]; cbn; [reflexivity|]. rewrite IH. reflexivity. Qed.

Lemma length_str_map f s : String.length (str_map f s) = String.length s.
Proof. induction s as [|c s IH]; cbn; [reflexivity|]. rewrite IH. reflexivity. Qed.

Lemma str_map_map f g s : str_map f (str_map g s) = str_map (fun c => f (g c)) s.
Proof. induction s as [|c s IH]; cbn; [reflexivity|]. rewrite IH. reflexivity. Qed.

(** A [bool] fact about every byte, by evaluating all 256. *)
Lemma ascii_forall (p : ascii -> bool) :
  forallb (fun n => p (ascii_of_N (N.of_nat n))) (seq 0 256) = true -> forall c, p c = true.
Proof.
  intros H c. rewrite forallb_forall in H.
  specialize (H (N.to_nat (N_of_ascii c))). rewrite N2Nat.id, ascii_N_embedding in H.
  apply H. apply in_seq. pose proof (N_ascii_bounded c). lia.
Qed.

Lemma substring_full s : String.substring 0 (String.length s) s = s.
Proof. induction s as [|c s IH]; cbn; [reflexivity|]. rewrite IH. reflexivity. Qed.

Lemma str_split_at2 a b t :
  str_take 2 (String a (String b t)) = String a (String b "") /\ str_drop 2 (String a (String b t)) = t.
Proof.
  split; [destruct t; reflexivity|]. unfold str_drop. cbn. rewrite Nat.sub_0_r. apply substring_full.
Qed.

Lemma str_app_assoc a b c : ((a ++ b) ++ c = a ++ b ++ c)%string.
Proof. induction a as [|x a IH]; [reflexivity|]. change (String x ((a ++ b) ++ c) = String x (a ++ b ++ c)). rewrite IH. reflexivity. Qed.

Lemma str_app_cons c a b : (String c a ++ b)%string = String c (a ++ b)%string.
Proof. reflexivity. Qed.

Lemma str_app_nil b : ("" ++ b)%string = b.
Proof. reflexivity. Qed.

Lemma str_app_nil_r a : (a ++ "")%string = a.
Proof. induction a as [|c a IH]; [reflexivity|]. rewrite str_app_cons, IH. reflexivity. Qed.

Lemma str_length_app (a b : string) : String.length (a ++ b) = (String.length a + String.length b)%nat.
Proof. induction a as [|c a IH]; [reflexivity|]. rewrite str_app_cons. cbn. rewrite IH. reflexivity. Qed.

Lemma str_all_app f a b : str_all f (a ++ b)%string = str_all f a && str_all f b.
Proof.
  induction a as [|c a IH]; [reflexivity|]. rewrite str_app_cons. cbn. rewrite IH. apply andb_assoc.
Qed.

Lemma strip_prefix_app p s t : strip_prefix p s = Some t <-> s = p ++ t.
Proof.
  revert s. induction p as [|a p IH]; intros s; cbn [strip_prefix].
  - split; [intros [= <-]; reflexivity|intros ->; reflexivity].
  - destruct s as [|b s]; [split; [discriminate|intros Heq; discriminate Heq]|]. rewrite str_app_cons.
    destruct (Ascii.eqb_spec a b) as [<-|Hne]; [rewrite IH; split; [intros ->; reflexivity|intros [= ->]; reflexivity]|].
    split; [discriminate|intros [= ? _]; congruence].
Qed.

Lemma str_take_app a b : str_take (String.length a) (a ++ b) = a.
Proof.
  unfold str_take. induction a as [|c a IH]; [destruct b; reflexivity|]. rewrite str_app_cons.
  cbn [String.length String.substring]. rewrite IH. reflexivity.
Qed.

Lemma str_drop_app a b : str_drop (String.length a) (a ++ b) = b.
Proof.
  unfold str_drop. rewrite str_length_app. replace (String.length a + String.length b - String.length a)%nat with (String.length b) by lia.
  induction a as [|c a IH]; [apply substring_full|]. rewrite str_app_cons. exact IH.
Qed.

Lemma str_take_drop n s : (n <= String.length s)%nat -> (str_take n s ++ str_drop n s)%string = s.
Proof.
  unfold str_take, str_drop. revert n. induction s as [|c s IH]; intros [|n] Hn; cbn in *; try reflexivity; try lia.
  - rewrite substring_full. reflexivity.
  - rewrite str_app_cons. f_equal. apply IH. lia.
Qed.

Lemma strip_suffix_iff p s a : strip_suffix p s = Some a <-> s = (a ++ p)%string.
Proof.
  unfold strip_suffix, ends_with. split.
  - destruct (Nat.leb_spec (String.length p) (String.length s)) as [Hl|]; [|discriminate]. cbn [andb].
    case_bool_decide as Hd; [|discriminate]. intros [= <-].
    pose proof (str_take_drop (String.length s - String.length p) s ltac:(lia)) as Ht. rewrite Hd in Ht. congruence.
  - intros ->. rewrite str_length_app. replace (String.length a + String.length p - String.length p)%nat with (String.length a) by lia.
    rewrite str_drop_app, str_take_app, bool_decide_true by reflexivity.
    destruct (Nat.leb_spec (String.length p) (String.length a + String.length p)); [reflexivity|lia].
Qed.

Lemma split_once_none sep s : split_once sep s = None <-> str_all (not_char sep) s = true.
Proof.
  split.
  - induction s as [|c s IH]; cbn; [reflexivity|]. destruct (Ascii.eqb_spec c sep) as [|Hc]; [discriminate|].
    destruct (split_once sep s) as [[a b]|]; [discriminate|]. intros _. rewrite IH, (proj2 (not_char_true sep c) Hc); reflexivity.
  - intros Hs. destruct (split_once sep s) as [[a b]|] eqn:E; [|reflexivity]. apply split_once_spec in E as [-> _].
    rewrite str_all_app in Hs. cbn in Hs. apply andb_true_iff in Hs as [_ [Hc _]%andb_true_iff].
    apply not_char_true in Hc. congruence.
Qed.

Lemma rsplit_once_last sep a b :
  str_all (not_char sep) b = true -> rsplit_once sep (a ++ String sep b) = Some (a, b).
Proof.
  intros Hb. assert (Hn : rsplit_once sep b = None).
  { clear a. induction b as [|c b IH]; cbn; [reflexivity|]. cbn in Hb. apply andb_true_iff in Hb as [Hc Hb].
    rewrite IH by exact Hb. apply not_char_true in Hc. destruct (Ascii.eqb_spec c sep); congruence. }
  induction a as [|c a IH].
  - change ("" ++ String sep b) with (String sep b). cbn. rewrite Hn, Ascii.eqb_refl. reflexivity.
  - rewrite str_app_cons. cbn. rewrite IH. reflexivity.
Qed.

Lemma rsplit_once_spec sep s a b :
  rsplit_once sep s = Some (a, b) -> s = (a ++ String sep b)%string /\ str_all (not_char sep) b = true.
Proof.
  assert (Hn : forall t, rsplit_once sep t = None -> str_all (not_char sep) t = true).
  { induction t as [|c t IH]; cbn; [reflexivity|]. destruct (rsplit_once sep t) as [[x y]|]; [discriminate|].
    destruct (Ascii.eqb_spec c sep) as [|Hc]; [discriminate|]. intros _. rewrite IH by reflexivity.
    rewrite (proj2 (not_char_true sep c) Hc). reflexivity. }
  revert a b. induction s as [|c s IH]; intros a b; cbn; [discriminate|].
  destruct (rsplit_once sep s) as [[x y]|] eqn:E.
  - intros [= <- <-]. destruct (IH x y eq_refl) as [-> Hb]. rewrite str_app_cons. auto.
  - destruct (Ascii.eqb_spec c sep) as [->|]; [|discriminate]. intros [= <- <-]. rewrite str_app_nil. auto.
Qed.

Lemma split_app_sep sep s t : split sep (s ++ String sep t)%string = (split sep s ++ split sep t)%list.
Proof.
  induction s as [|c s IH].
  - rewrite str_app_nil. cbn. rewrite Ascii.eqb_refl. reflexivity.
  - rewrite str_app_cons. cbn. destruct (Ascii.eqb c sep); [rewrite IH; reflexivity|]. rewrite IH.
    destruct (split sep s) as [|p ps] eqn:E; [|reflexivity].
    exfalso. revert E. destruct s as [|d s]; cbn; [discriminate|]. destruct (Ascii.eqb d sep); [discriminate|]. destruct (split sep s); discriminate.
Qed.

(** A predicate on the pieces and on the separator. *)
Lemma str_all_pieces p sep s : str_all p s = true -> Forall (fun x => str_all p x = true) (split sep s).
Proof.
  induction s as [|c s IH]; cbn; [repeat constructor|]. intros [Hc Hs]%andb_true_iff. specialize (IH Hs).
  destruct (Ascii.eqb c sep); [constructor; [reflexivity|exact IH]|].
  destruct (split sep s) as [|q ps]; [repeat constructor; cbn; rewrite Hc; reflexivity|].
  apply Forall_cons in IH as [Hq Hps]. constructor; [cbn; rewrite Hc, Hq; reflexivity|exact Hps].
Qed.

(** Pieces joined by a separator. *)
Fixpoint join (sep : ascii) (l : list string) : string :=
  match l with
  | [] => ""
  | [p] => p
  | p :: ps => p ++ String sep (join sep ps)
  end.

Lemma split_nonempty sep s : split sep s <> [].
Proof. destruct s as [|c s]; cbn; [discriminate|]. case_match; [discriminate|]. destruct (split sep s); discriminate. Qed.

Lemma join_cons sep p ps : ps <> [] -> join sep (p :: ps) = (p ++ String sep (join sep ps))%string.
Proof. destruct ps; [contradiction|reflexivity]. Qed.

Lemma join_split sep s :
  join sep (split sep s) = s /\ Forall (fun p => str_all (not_char sep) p = true) (split sep s).
Proof.
  induction s as [|c s [IH1 IH2]]; cbn; [auto|]. pose proof (split_nonempty sep s).
  destruct (Ascii.eqb_spec c sep) as [->|Hc].
  - rewrite join_cons by assumption. rewrite IH1. auto.
  - destruct (split sep s) as [|p ps]; [contradiction|]. apply Forall_cons in IH2 as [Hp Hps]. split.
    + destruct ps as [|q ps]; [cbn in *; rewrite IH1; reflexivity|].
      rewrite join_cons in * by discriminate. rewrite str_app_cons, IH1. reflexivity.
    + constructor; [|exact Hps]. cbn. rewrite (proj2 (not_char_true sep c) Hc). exact Hp.
Qed.

Lemma split_pieces sep s : Forall (fun p => str_all (not_char sep) p = true) (split sep s).
Proof. exact (proj2 (join_split sep s)). Qed.

Lemma split_app sep p s :
  str_all (not_char sep) p = true -> split sep (p ++ String sep s)%string = p :: split sep s.
Proof.
  induction p as [|c p IH]; intros Hp.
  - rewrite str_app_nil. cbn. rewrite Ascii.eqb_refl. reflexivity.
  - rewrite str_app_cons. cbn in Hp |- *. apply andb_true_iff in Hp as [Hc Hp]. apply not_char_true in Hc.
    destruct (Ascii.eqb_spec c sep); [contradiction|]. rewrite IH by exact Hp. reflexivity.
Qed.

Lemma split_single sep p : str_all (not_char sep) p = true -> split sep p = [p].
Proof.
  induction p as [|c p IH]; cbn; intros Hp; [reflexivity|]. apply andb_true_iff in Hp as [Hc Hp].
  apply not_char_true in Hc. destruct (Ascii.eqb_spec c sep); [contradiction|]. rewrite IH by exact Hp. reflexivity.
Qed.

Lemma split_join sep l :
  l <> [] -> Forall (fun p => str_all (not_char sep) p = true) l -> split sep (join sep l) = l.
Proof.
  induction l as [|p l IH]; intros Hne Hall; [contradiction|]. apply Forall_cons in Hall as [Hp Hall].
  destruct l as [|q l]; [apply split_single, Hp|].
  rewrite join_cons by discriminate. rewrite split_app by exact Hp. rewrite IH by (discriminate || exact Hall). reflexivity.
Qed.

(** ** Numbers: printing and parsing *)

Lemma digit_value_pretty d :
  (d < 10)%N -> is_ascii_digit (pretty_N_char d) = true /\ digit_value (pretty_N_char d) = Z.of_N d.
Proof.
  intros Hd. assert (H : forallb (fun n => is_ascii_digit (pretty_N_char (N.of_nat n)) &&
    Z.eqb (digit_value (pretty_N_char (N.of_nat n))) (Z.of_nat n)) (seq 0 10) = true) by reflexivity.
  rewrite forallb_forall in H. specialize (H (N.to_nat d)). rewrite N2Nat.id in H.
  destruct (proj1 (andb_true_iff _ _) (H ltac:(apply in_seq; lia))) as [H1 H2%Z.eqb_eq].
  split; [exact H1|]. rewrite H2. lia.
Qed.

Lemma parse_digits_pretty limit x s :
  (Z.of_N x <= limit)%Z -> parse_digits limit 0 (pretty_N_go x s) = parse_digits limit (Z.of_N x) s.
Proof.
  revert s. induction (N.lt_wf_0 x) as [x _ IH]. intros s Hx.
  destruct (decide (x = 0%N)) as [->|Hne]; [reflexivity|].
  rewrite pretty_N_go_step by lia. assert (Hdiv : (x `div` 10 < x)%N) by (apply N.div_lt; lia).
  rewrite IH by lia. cbn [parse_digits].
  destruct (digit_value_pretty (x `mod` 10)) as [-> ->]; [apply N.mod_lt; lia|].
  assert (Heq : (Z.of_N (x `div` 10) * 10 + Z.of_N (x `mod` 10) = Z.of_N x)%Z).
  { pose proof (N.div_mod x 10 ltac:(lia)). lia. }
  cbv zeta. rewrite Heq, (proj2 (Z.leb_le _ _) Hx). reflexivity.
Qed.

Lemma pretty_go_digits x s : str_all is_ascii_digit s = true -> str_all is_ascii_digit (pretty_N_go x s) = true.
Proof.
  revert s. induction (N.lt_wf_0 x) as [x _ IH]. intros s Hs.
  destruct (decide (x = 0%N)) as [->|Hne]; [exact Hs|].
  rewrite pretty_N_go_step by lia. apply IH; [apply N.div_lt; lia|]. cbn. rewrite Hs.
  destruct (digit_value_pretty (x `mod` 10)) as [-> _]; [apply N.mod_lt; lia|reflexivity].
Qed.

Lemma pretty_go_nonempty x s : s <> "" -> pretty_N_go x s <> "".
Proof.
  revert s. induction (N.lt_wf_0 x) as [x _ IH]. intros s Hs.
  destruct (decide (x = 0%N)) as [->|Hne]; [exact Hs|].
  rewrite pretty_N_go_step by lia. apply IH; [apply N.div_lt; lia|discriminate].
Qed.

(** A printed number is a nonempty string of digits. *)
Lemma display_u64_digits n : display_u64 n <> "" /\ str_all is_ascii_digit (display_u64 n) = true.
Proof.
  unfold display_u64, pretty, pretty_N. case_decide as Hn; [split; [discriminate|reflexivity]|].
  split; [|apply pretty_go_digits; reflexivity].
  rewrite pretty_N_go_step by lia. apply pretty_go_nonempty. discriminate.
Qed.

Lemma parse_display_u64 n : is_u64 n -> parse_u64 (display_u64 n) = Some n.
Proof.
  unfold is_u64. intros Hn. destruct (display_u64_digits n) as [Hne Hd]. unfold parse_u64.
  assert (Hplus : match display_u64 n with
                  | String "+" t => if bool_decide (t = "") then display_u64 n else t
                  | _ => display_u64 n end = display_u64 n).
  { destruct (display_u64 n) as [|c t]; [reflexivity|]. cbn in Hd. apply andb_true_iff in Hd as [Hc _].
    destruct c as [[] [] [] [] [] [] [] []]; try reflexivity; discriminate. }
  rewrite Hplus, bool_decide_false by exact Hne. unfold display_u64, pretty, pretty_N.
  case_decide as H0; [change (parse_digits U64_MAX 0 "0") with (Some 0%Z); f_equal; lia|].
  rewrite parse_digits_pretty by lia. cbn. f_equal. lia.
Qed.

Lemma trim_start_none f c s : f c = false -> trim_start_by f (String c s) = String c s.
Proof. intros Hc. cbn. rewrite Hc. reflexivity. Qed.

Lemma trim_end_none f s : str_all (fun c => negb (f c)) s = true -> trim_end_by f s = s.
Proof.
  induction s as [|c s IH]; cbn; [reflexivity|]. intros [Hc Hs]%andb_true_iff. rewrite IH by exact Hs.
  apply negb_true_iff in Hc. destruct s; [rewrite Hc|]; reflexivity.
Qed.

(** A string without whitespace is its own trimming. *)
Lemma trim_id s : str_all (fun c => negb (is_whitespace c)) s = true -> trim s = s.
Proof.
  intros Hs. unfold trim. destruct s as [|c s]; [reflexivity|].
  rewrite trim_start_none; [apply trim_end_none, Hs|]. cbn in Hs. apply andb_true_iff in Hs as [Hc _].
  apply negb_true_iff, Hc.
Qed.

Lemma digit_not_space c : is_ascii_digit c = true -> is_whitespace c = false.
Proof.
  intros Hc. assert (H : forall c, (negb (is_ascii_digit c) || negb (is_whitespace c))%bool = true)
    by (apply ascii_forall; vm_compute; reflexivity).
  specialize (H c). rewrite Hc in H. apply negb_true_iff, H.
Qed.

Lemma trim_display n : trim (display_u64 n) = display_u64 n.
Proof.
  apply trim_id. destruct (display_u64_digits n) as [_ Hd]. revert Hd. apply str_all_impl.
  intros c Hc. rewrite digit_not_space by exact Hc. reflexivity.
Qed.

(** Parsing stays within the type. *)
Lemma parse_digits_range limit acc s n :
  (0 <= acc <= limit)%Z -> parse_digits limit acc s = Some n -> (0 <= n <= limit)%Z.
Proof.
  revert acc. induction s as [|c s IH]; intros acc Ha; cbn; [intros [= <-]; exact Ha|].
  destruct (is_ascii_digit c) eqn:Ec; [|discriminate].
  destruct (Z.leb_spec (acc * 10 + digit_value c) limit); [|discriminate]. apply IH. split; [|assumption].
  unfold is_ascii_digit, in_range in Ec. apply andb_true_iff in Ec as [Ec _]. apply N.leb_le in Ec.
  unfold digit_value. change (code "0") with 48%N in Ec. lia.
Qed.

Lemma parse_u64_range s n : parse_u64 s = Some n -> is_u64 n.
Proof.
  unfold parse_u64. case_match; case_bool_decide; try discriminate; apply parse_digits_range; unfold U64_MAX; lia.
Qed.

(** ** Byte-wise order, as [Ord for str] has it *)

Definition str_lt (a b : string) : Prop := String.compare a b = Lt.
Definition str_le (a b : string) : Prop := String.leb a b = true.

#[export] Instance str_lt_dec : RelDecision str_lt.
Proof. intros a b. unfold str_lt. destruct (String.compare a b); [right|left|right]; congruence. Defined.

#[export] Instance str_le_dec : RelDecision str_le.
Proof. intros a b. unfold str_le. destruct (String.leb a b); [left|right]; congruence. Defined.

Lemma str_compare_refl a : String.compare a a = Eq.
Proof.
  induction a as [|c a IH]; cbn; [reflexivity|]. unfold Ascii.compare. rewrite N.compare_refl. exact IH.
Qed.

Lemma str_lt_trans a b c : str_lt a b -> str_lt b c -> str_lt a c.
Proof.
  unfold str_lt. revert b c. induction a as [|x a IH]; intros [|y b] [|z c]; cbn; try congruence.
  unfold Ascii.compare. destruct (N.compare_spec (N_of_ascii x) (N_of_ascii y)) as [E|E|E];
    destruct (N.compare_spec (N_of_ascii y) (N_of_ascii z)) as [F|F|F];
    destruct (N.compare_spec (N_of_ascii x) (N_of_ascii z)) as [G|G|G]; try congruence; try lia; intros H1 H2; eauto.
Qed.

Lemma str_lt_irrefl a : ~ str_lt a a.
Proof. unfold str_lt. rewrite str_compare_refl. discriminate. Qed.

Lemma str_le_lt a b : str_le a b <-> a = b \/ str_lt a b.
Proof.
  unfold str_le, String.leb, str_lt. split.
  - destruct (String.compare a b) eqn:E; auto; [|discriminate]. intros _. left. apply String.compare_eq_iff, E.
  - intros [->|E]; [rewrite str_compare_refl|rewrite E]; reflexivity.
Qed.

#[export] Instance str_le_trans : Transitive str_le.
Proof.
  intros a b c. rewrite !str_le_lt. intros [->|Hab] [->|Hbc]; auto. right. eapply str_lt_trans; eassumption.
Qed.

#[export] Instance str_le_total : Total str_le.
Proof. intros a b. apply String.leb_total. Qed.

#[export] Instance str_le_antisymm : AntiSymm eq str_le.
Proof. intros a b. apply String.leb_antisym. Qed.

Lemma str_lt_not_le a b : str_lt a b <-> ~ str_le b a.
Proof.
  rewrite str_le_lt. unfold str_lt. rewrite (String.compare_antisym b a). split.
  - intros E [->|E']; [rewrite str_compare_refl in E; discriminate|]. rewrite E in E'. discriminate.
  - intros Hn. destruct (String.compare a b) eqn:E; [|reflexivity|].
    + apply String.compare_eq_iff in E. subst. tauto.
    + exfalso. apply Hn. right. reflexivity.
Qed.

(** ** Maps with string keys, in key order *)

(** A map's items in key order. *)
Definition key_le {A} (x y : string * A) : Prop := str_le (fst x) (fst y).
#[export] Instance key_le_dec {A} : RelDecision (@key_le A).
Proof. intros x y. unfold key_le. apply _. Defined.
Definition items {A} (m : gmap string A) : list (string * A) := merge_sort key_le (map_to_list m).

Lemma items_perm {A} (m : gmap string A) : items m ≡ₚ map_to_list m.
Proof. apply merge_sort_Permutation. Qed.

Lemma NoDup_items {A} (m : gmap string A) : NoDup (fst <$> items m).
Proof. rewrite items_perm. apply NoDup_fst_map_to_list. Qed.

Lemma elem_of_items {A} (m : gmap string A) k x : (k, x) ∈ items m <-> m !! k = Some x.
Proof. rewrite items_perm. apply elem_of_map_to_list. Qed.

(** ** Characters and lines

    The functions of [core::str] that look at characters: each is kept as its
    UTF-8 bytes. [trim] above knows the single-byte whitespace only; the
    functions here know all of Unicode's. *)

Local Open Scope string_scope.

(** [str::chars]: a byte that continues a character belongs to the one before. *)
Fixpoint chars (s : string) : list string :=
  match s with
  | "" => []
  | String c s =>
    match chars s with
    | String d r :: chs =>
      if is_continuation d then String c (String d r) :: chs else String c "" :: String d r :: chs
    | _ => [String c ""]
    end
  end.

(** [char::is_whitespace]: Unicode's White_Space. *)
Definition is_space (ch : string) : bool :=
  match ch with
  | String c "" => is_whitespace c
  | String "194" (String c "") => Ascii.eqb c "133" || Ascii.eqb c "160"
  | String "225" (String "154" (String "128" "")) => true
  | String "226" (String "128" (String c "")) =>
    in_range "128" "138" c || Ascii.eqb c "168" || Ascii.eqb c "169" || Ascii.eqb c "175"
  | String "226" (String "129" (String "159" "")) => true
  | String "227" (String "128" (String "128" "")) => true
  | _ => false
  end.

(** [char::is_control]: Unicode's Cc. *)
Definition is_control (ch : string) : bool :=
  match ch with
  | String c "" => (code c <? 32)%N || Ascii.eqb c "127"
  | String "194" (String c "") => in_range "128" "159" c
  | _ => false
  end.

(** [core::str::from_utf8] succeeds: the well-formed sequences of one to four
    bytes. *)
Definition utf8_two (a b : ascii) : bool := in_range "194" "223" a && is_continuation b.

Definition utf8_three (a b c : ascii) : bool :=
  (Ascii.eqb a "224" && in_range "160" "191" b || in_range "225" "236" a && is_continuation b ||
   Ascii.eqb a "237" && in_range "128" "159" b || in_range "238" "239" a && is_continuation b) && is_continuation c.

Definition utf8_four (a b c d : ascii) : bool :=
  (Ascii.eqb a "240" && in_range "144" "191" b || in_range "241" "243" a && is_continuation b ||
   Ascii.eqb a "244" && in_range "128" "143" b) && is_continuation c && is_continuation d.

Fixpoint utf8_valid (s : string) : bool :=
  match s with
  | "" => true
  | String a s1 =>
    if (code a <? 128)%N then utf8_valid s1 else
    match s1 with
    | "" => false
    | String b s2 =>
      if utf8_two a b then utf8_valid s2 else
      match s2 with
      | "" => false
      | String c s3 =>
        if utf8_three a b c then utf8_valid s3 else
        match s3 with
        | "" => false
        | String d s4 => utf8_four a b c d && utf8_valid s4
        end
      end
    end
  end.

(** [s.trim().is_empty()]. *)
Definition is_blank (s : string) : bool := forallb is_space (chars s).

(** [s.split_whitespace().next()]. *)
Fixpoint first_token (l : list string) : option string :=
  match l with
  | [] => None
  | ch :: l =>
    if is_space ch then first_token l
    else Some (ch ++ match l with
                     | d :: _ => if is_space d then "" else default "" (first_token l)
                     | [] => ""
                     end)
  end.

Definition strip_cr (s : string) : string :=
  match rsplit_once "013" s with Some (a, "") => a | _ => s end.

(** [str::lines]: the pieces between line feeds without a carriage return before
    the feed; the piece after the last feed counts unless it is empty. *)
Fixpoint lines_of (ps : list string) : list string :=
  match ps with
  | [] => []
  | [p] => if bool_decide (p = "") then [] else [p]
  | p :: ps => strip_cr p :: lines_of ps
  end.

Definition lines (s : string) : list string := lines_of (split "010" s).

(** ** Lemmas *)

Lemma lines_of_snoc ps p : lines_of (ps ++ [p])%list = (map strip_cr ps ++ lines_of [p])%list.
Proof.
  induction ps as [|q ps IH]; [reflexivity|]. cbn [app map]. rewrite <- IH.
  destruct ps; reflexivity.
Qed.

Lemma strip_cr_none s : str_all (not_char "013") s = true -> strip_cr s = s.
Proof.
  intros Hs. unfold strip_cr. destruct (rsplit_once "013" s) as [[a b]|] eqn:E; [|reflexivity].
  exfalso. revert a b E. induction s as [|c s IH]; intros a b; cbn in *; [discriminate|].
  apply andb_true_iff in Hs as [Hc Hs]. destruct (rsplit_once "013" s) as [[x y]|]; [exact (fun _ => IH Hs x y eq_refl)|].
  apply not_char_true in Hc. destruct (Ascii.eqb_spec c "013"); [contradiction|discriminate].
Qed.

Lemma chars_cons c s : exists r l, chars (String c s) = String c r :: l.
Proof. cbn. destruct (chars s) as [|[|d r] l]; eauto. destruct (is_continuation d); eauto. Qed.

(** A string that starts with a visible ASCII character is not blank. *)
Lemma visible_not_blank c s : in_range "!" "~" c = true -> is_blank (String c s) = false.
Proof.
  intros Hc. unfold is_blank. destruct (chars_cons c s) as (r & l & ->). cbn [forallb].
  assert (Hs : is_space (String c r) = false); [|rewrite Hs; reflexivity].
  destruct c as [[] [] [] [] [] [] [] []]; try discriminate Hc; destruct r; reflexivity.
Qed.

(** ** ASCII characters of valid text *)

Definition is_lead (s : string) : Prop := match s with "" => True | String c _ => is_continuation c = false end.

Lemma chars_lead c s : is_lead s -> chars (String c s) = String c "" :: chars s.
Proof.
  intros Hs. cbn. destruct s as [|d s]; [reflexivity|]. destruct (chars_cons d s) as (r & l & ->). cbn in Hs. rewrite Hs. reflexivity.
Qed.

Lemma chars_continued c d s :
  is_continuation d = true -> exists r l, chars (String d s) = String d r :: l /\ chars (String c (String d s)) = String c (String d r) :: l.
Proof.
  intros Hd. destruct (chars_cons d s) as (r & l & E). exists r, l. split; [exact E|].
  change (chars (String c (String d s))) with
    (match chars (String d s) with String d r :: chs => if is_continuation d then String c (String d r) :: chs else String c "" :: String d r :: chs | _ => [String c ""] end).
  rewrite E, Hd. reflexivity.
Qed.

Lemma in_range_bounds lo hi c : in_range lo hi c = true -> (code lo <= code c <= code hi)%N.
Proof. unfold in_range. intros [H1%N.leb_le H2%N.leb_le]%andb_true_iff. auto. Qed.

Lemma continuation_high c : is_continuation c = true -> (128 <= code c < 192)%N.
Proof. intros Hc%in_range_bounds. cbn in Hc. lia. Qed.

Lemma not_continuation c : (code c < 128)%N \/ (192 <= code c)%N -> is_continuation c = false.
Proof. intros Hc. apply not_true_iff_false. intros Hh%continuation_high. lia. Qed.

Lemma utf8_two_range a b : utf8_two a b = true -> (192 <= code a)%N /\ is_continuation b = true.
Proof. intros [Ha%in_range_bounds Hb]%andb_true_iff. cbn in Ha. split; [lia|exact Hb]. Qed.

Lemma eqb_code a n : Ascii.eqb a (ascii_of_N n) = true -> (n < 256)%N -> code a = n.
Proof. intros ->%Ascii.eqb_eq Hn. apply N_ascii_embedding, Hn. Qed.

Lemma sub_range lo hi c : (128 <= code lo)%N -> (code hi < 192)%N -> in_range lo hi c = true -> is_continuation c = true.
Proof.
  intros Hlo Hhi Hc%in_range_bounds. unfold is_continuation, in_range. apply andb_true_iff. split; apply N.leb_le; cbn; lia.
Qed.

Lemma utf8_three_range a b c : utf8_three a b c = true ->
  (192 <= code a)%N /\ is_continuation b = true /\ is_continuation c = true.
Proof.
  unfold utf8_three. intros [Hab Hc]%andb_true_iff. split; [|split; [|exact Hc]];
  repeat match type of Hab with _ || _ = true => apply orb_true_iff in Hab as [Hab|Hab] end;
  apply andb_true_iff in Hab as [Ha Hb];
  first [apply Ascii.eqb_eq in Ha; subst a; cbn; lia | apply in_range_bounds in Ha; cbn in Ha; lia
        | exact Hb | eapply sub_range; [| |exact Hb]; cbn; lia].
Qed.

Lemma utf8_four_range a b c d : utf8_four a b c d = true ->
  (192 <= code a)%N /\ is_continuation b = true /\ is_continuation c = true /\ is_continuation d = true.
Proof.
  unfold utf8_four. intros [[Hab Hc]%andb_true_iff Hd]%andb_true_iff. split; [|split; [|split; [exact Hc|exact Hd]]];
  repeat match type of Hab with _ || _ = true => apply orb_true_iff in Hab as [Hab|Hab] end;
  apply andb_true_iff in Hab as [Ha Hb];
  first [apply Ascii.eqb_eq in Ha; subst a; cbn; lia | apply in_range_bounds in Ha; cbn in Ha; lia
        | exact Hb | eapply sub_range; [| |exact Hb]; cbn; lia].
Qed.

Lemma utf8_valid_lead s : utf8_valid s = true -> is_lead s.
Proof.
  destruct s as [|a [|b [|c [|d s]]]]; cbn [utf8_valid is_lead]; [auto|..]; destruct (N.ltb_spec (code a) 128) as [Ha|Ha]; intros Hv;
    try (apply not_continuation; lia); try discriminate;
    destruct (utf8_two a b) eqn:E2; try discriminate; try (apply utf8_two_range in E2; apply not_continuation; lia);
    destruct (utf8_three a b c) eqn:E3; try discriminate; try (apply utf8_three_range in E3; apply not_continuation; lia).
  apply andb_true_iff in Hv as [E4 _]. apply utf8_four_range in E4. apply not_continuation. lia.
Qed.

Lemma chars_push c d r s l : is_continuation d = true -> chars (String d s) = String d r :: l ->
  chars (String c (String d s)) = String c (String d r) :: l.
Proof. intros Hd E. destruct (chars_continued c d s Hd) as (r' & l' & E' & ->). congruence. Qed.

(** A byte below 128 is a character of its own. *)
Lemma utf8_no_char k s : (code k < 128)%N -> utf8_valid s = true ->
  Forall (fun ch => ch <> String k "") (chars s) -> str_all (not_char k) s = true.
Proof.
  intros Hk. remember (String.length s) as n eqn:Hn. assert (Hle : (String.length s <= n)%nat) by lia. clear Hn.
  assert (Hhigh : forall a, (128 <= code a)%N -> not_char k a = true) by (intros a Ha; apply not_char_true; intros ->; lia).
  assert (Hcont : forall a, is_continuation a = true -> not_char k a = true)
    by (intros a Ha%continuation_high; apply Hhigh; lia).
  revert s Hle. induction n as [|n IH]; intros [|a s1] Hle; cbn [String.length] in Hle; try reflexivity; [lia|].
  cbn [utf8_valid]. destruct (N.ltb_spec (code a) 128) as [Ha|Ha].
  { intros Hv Hc. rewrite chars_lead in Hc by apply utf8_valid_lead, Hv. apply Forall_cons in Hc as [Hc Hcs].
    cbn [str_all]. rewrite (IH s1) by (lia || assumption). rewrite (proj2 (not_char_true k a)) by congruence. reflexivity. }
  destruct s1 as [|b s2]; [discriminate|]. cbn [String.length] in Hle.
  destruct (utf8_two a b) eqn:E2.
  { intros Hv Hc. apply utf8_two_range in E2 as [_ Hb].
    rewrite (chars_push a b "" s2 (chars s2) Hb (chars_lead b s2 (utf8_valid_lead s2 Hv))) in Hc. apply Forall_cons in Hc as [_ Hcs].
    cbn [str_all]. rewrite (IH s2) by (lia || assumption). rewrite (Hhigh a Ha), (Hcont b Hb). reflexivity. }
  destruct s2 as [|c s3]; [discriminate|]. cbn [String.length] in Hle. destruct (utf8_three a b c) eqn:E3.
  { intros Hv Hc. apply utf8_three_range in E3 as (_ & Hb & Hc').
    rewrite (chars_push a b _ _ _ Hb (chars_push b c _ _ _ Hc' (chars_lead c s3 (utf8_valid_lead s3 Hv)))) in Hc.
    apply Forall_cons in Hc as [_ Hcs]. cbn [str_all]. rewrite (IH s3) by (lia || assumption).
    rewrite (Hhigh a Ha), (Hcont b Hb), (Hcont c Hc'). reflexivity. }
  destruct s3 as [|d s4]; [discriminate|]. cbn [String.length] in Hle. intros [E4 Hv]%andb_true_iff Hc.
  apply utf8_four_range in E4 as (_ & Hb & Hc' & Hd).
  rewrite (chars_push a b _ _ _ Hb (chars_push b c _ _ _ Hc' (chars_push c d _ _ _ Hd (chars_lead d s4 (utf8_valid_lead s4 Hv))))) in Hc.
  apply Forall_cons in Hc as [_ Hcs]. cbn [str_all]. rewrite (IH s4) by (lia || assumption).
  rewrite (Hhigh a Ha), (Hcont b Hb), (Hcont c Hc'), (Hcont d Hd). reflexivity.
Qed.
