(* ===== verification/Client.v ===== *)
(** * The Lumberjack client

    Model of [crates/ferro-lumberjack/src/client.rs] and of [parse_sni] of
    [tls.rs]: the builder, host selection with the atomic cursor, connecting,
    building the window payload, one send attempt with its ACK validation and
    the failover loop of [send_json]. What peers and the clock do is data: the
    fate of every socket operation, and the connections successive dials get. *)

From S2P Require Import Prelude Str Frame Sequence Net.

Local Open Scope Z_scope.

(** ** Sockets under a timeout *)

(** What [tokio::time::timeout] around an operation gives: completion, expiry
    or an I/O error. *)
Inductive fate := Completes | TimesOut | Fails (e : io_error).

(** An established connection: bytes the peer will send, the fates of the
    operations to come (completing when exhausted), bytes written so far. *)
Record Connection := mkConnection {
  cn_incoming : bytes;
  cn_fates : list fate;
  cn_outgoing : bytes;
}.

Definition next_fate (c : Connection) : fate * Connection :=
  match cn_fates c with
  | [] => (Completes, c)
  | f :: t => (f, mkConnection (cn_incoming c) t (cn_outgoing c))
  end.

(** [timeout(.., op).await.map_err(|_| Timeout(what))?.map_err(Io)?]. *)
Definition timed {A} (what : string) (op : stm Connection io_error A) : stm Connection ProtocolError A := fun c =>
  match next_fate c with
  | (TimesOut, c) => (c, Err (Timeout what))
  | (Fails e, c) => (c, Err (Io e))
  | (Completes, c) => let '(c, r) := op c in (c, map_err Io r)
  end.

Definition write_all (b : bytes) : stm Connection io_error unit := fun c =>
  (mkConnection (cn_incoming c) (cn_fates c) (cn_outgoing c ++ b), Ok tt).

Definition flush : stm Connection io_error unit := fun c => (c, Ok tt).

Definition read_exact (n : nat) : stm Connection io_error bytes := fun c =>
  if (n <=? length (cn_incoming c))%nat
  then (mkConnection (drop n (cn_incoming c)) (cn_fates c) (cn_outgoing c), Ok (take n (cn_incoming c)))
  else (mkConnection [] (cn_fates c) (cn_outgoing c), Err (mkIoError KUnexpectedEof "early eof")).

(** ** The client's state *)

(** One [TcpStream::connect] (and TLS handshake, when enabled): their fates and
    the connection they give. *)
Record Dial := mkDial { d_connect : fate; d_handshake : fate; d_conn : Connection }.

(** The dials to come, and the hosts dialled so far (most recent last). *)
Record Network := mkNetwork { dials : list Dial; dialled : list string }.

Record Client := mkClient {
  hosts : list string;
  load_balance : bool;
  compression_level : Z;
  host_cursor : Z;
  seq : Sequence;
  connection : option Connection;
  tls : bool;
  network : Network;
}.

Definition DEFAULT_COMPRESSION : Z := 3.

Record ClientBuilder := mkClientBuilder {
  cb_hosts : list string;
  cb_load_balance : bool;
  cb_compression_level : option Z;
  cb_tls : bool;
}.

Definition ClientBuilder_new : ClientBuilder := mkClientBuilder [] false None false.

Definition add_host (host : string) (b : ClientBuilder) : ClientBuilder :=
  mkClientBuilder (cb_hosts b ++ [host]) (cb_load_balance b) (cb_compression_level b) (cb_tls b).

Definition load_balance_set (enabled : bool) (b : ClientBuilder) : ClientBuilder :=
  mkClientBuilder (cb_hosts b) enabled (cb_compression_level b) (cb_tls b).

Definition compression_level_set (level : Z) (b : ClientBuilder) : ClientBuilder :=
  mkClientBuilder (cb_hosts b) (cb_load_balance b) (Some level) (cb_tls b).

Definition client_tls_set (b : ClientBuilder) : ClientBuilder :=
  mkClientBuilder (cb_hosts b) (cb_load_balance b) (cb_compression_level b) true.

Definition set_connection (o : option Connection) (c : Client) : Client :=
  mkClient (hosts c) (load_balance c) (compression_level c) (host_cursor c) (seq c) o (tls c) (network c).

Definition set_seq (s : Sequence) (c : Client) : Client :=
  mkClient (hosts c) (load_balance c) (compression_level c) (host_cursor c) s (connection c) (tls c) (network c).

Definition set_network (n : Network) (c : Client) : Client :=
  mkClient (hosts c) (load_balance c) (compression_level c) (host_cursor c) (seq c) (connection c) (tls c) n.

(** [host_cursor.fetch_add(1)]: [AtomicUsize] wraps. *)
Definition cursor_incr (c : Client) : Client :=
  mkClient (hosts c) (load_balance c) (compression_level c)
    ((host_cursor c + 1) mod (USIZE_MAX + 1)) (seq c) (connection c) (tls c) (network c).

Definition next_seq (c : Client) : Z := Sequence.value (Sequence.advance (seq c) 1).

Definition host_count (c : Client) : Z := zlen (hosts c).

(** [pick_host]: indexing panics when there is no host. *)
Definition pick_host : stm Client ProtocolError string := fun c =>
  let n := zlen (hosts c) in
  if n =? 0 then (c, Panic) else
  let idx := host_cursor c mod n in
  let c' := if load_balance c then cursor_incr c else c in
  (c', expect (hosts c !! Z.to_nat idx)).

(** ** TLS server names *)

Section Tls.
(** [ServerName::try_from], of rustls: the error message when it refuses. *)
Context (server_name_error : string -> option string).

Definition sni_host (host_port : string) : string :=
  let h := match rsplit_once ":"%char host_port with Some (h, _) => h | None => host_port end in
  trim_end_matches "]"%char (trim_start_matches "["%char h).

Definition parse_sni (host_port : string) : outcome ProtocolError string :=
  let host := sni_host host_port in
  match server_name_error host with
  | None => Ok host
  | Some e => Err (Tls e)
  end.

(** What an exhausted network answers. *)
Definition unreachable : Dial :=
  mkDial (Fails (mkIoError (KOther 111) "connection refused")) Completes (mkConnection [] [] []).

Definition fate_result (what : string) (f : fate) : outcome ProtocolError unit :=
  match f with Completes => Ok tt | TimesOut => Err (Timeout what) | Fails e => Err (Io e) end.

Definition reconnect : stm Client ProtocolError unit :=
  host ← pick_host;
  c ← st_get;
  let dial := default unreachable (head (dials (network c))) in
  st_modify (set_network (mkNetwork (tail (dials (network c))) (dialled (network c) ++ [host])));;
  st_lift (fate_result "connect" (d_connect dial));;
  if tls c then
    st_lift (parse_sni host);;
    st_lift (fate_result "tls handshake" (d_handshake dial));;
    st_modify (set_connection (Some (d_conn dial)))
  else st_modify (set_connection (Some (d_conn dial))).

Definition connect (b : ClientBuilder) (n : Network) : Client * outcome ProtocolError unit :=
  let c := mkClient (cb_hosts b) (cb_load_balance b) (default DEFAULT_COMPRESSION (cb_compression_level b))
             0 (Sequence.new 0) None (cb_tls b) n in
  if bool_decide (cb_hosts b = []) then (c, Err NoHostsConfigured) else reconnect c.

(** ** Sending *)

(** [a + b] on [u32]: overflow is a panic. *)
Definition u32_add {E} (a b : Z) : outcome E Z :=
  if a + b <=? U32_MAX then Ok (a + b) else Panic.

(** The data frames of a window, event [i] carrying [base_seq + i + 1]. *)
Fixpoint build_inner (base_seq : Sequence) (i : Z) (evs : list bytes) : outcome ProtocolError bytes :=
  match evs with
  | [] => Ok []
  | event :: evs =>
    n ← u32_add (default U32_MAX (u32_try_from i)) 1;
    let s := Sequence.advance base_seq n in
    inner ← build_inner base_seq (i + 1) evs;
    Ok (encode_json_frame (Sequence.value s) event ++ inner)
  end.

Context `{Zlib}.

Definition build_window_payload (level : Z) (evs : list bytes) (base_seq : Sequence)
    : outcome ProtocolError bytes :=
  inner ← build_inner base_seq 0 evs;
  let count := default U32_MAX (u32_try_from (zlen evs)) in
  let out := encode_window count in
  if 0 <? level then
    match encode_compressed level inner with
    | Ok compressed => if zlen compressed <? zlen inner then Ok (out ++ compressed) else Ok (out ++ inner)
    | Err _ => Ok (out ++ inner)
    | Panic => Panic
    end
  else Ok (out ++ inner).

(** What the six ACK bytes mean for a window of [count] events after [base_seq]. *)
Definition check_ack (base_seq count : Z) (ack : bytes) : outcome ProtocolError Z :=
  match ack with
  | [b0; b1; b2; b3; b4; b5] =>
    let expected_seq := u32_wrapping_add base_seq count in
    let acked_seq := u32_from_be_bytes [b2; b3; b4; b5] in
    if bool_decide (b0 ≠ "2"%byte) || bool_decide (b1 ≠ "A"%byte)
    then Err (UnexpectedAck b0 b1 acked_seq expected_seq) else
    if Sequence.is_exactly_acked_by (Sequence.new expected_seq) acked_seq then Ok count else
    let acked_count := u32_wrapping_sub acked_seq base_seq in
    if (acked_count =? 0) || (count <? acked_count)
    then Err (UnexpectedAck b0 b1 acked_seq expected_seq)
    else Err (PartialAck acked_count count)
  | _ => Panic
  end.

(** Run an operation of the current connection; [expect] it is there. *)
Definition on_connection {A} (m : stm Connection ProtocolError A) : stm Client ProtocolError A := fun c =>
  match connection c with
  | None => (c, Panic)
  | Some k => let '(k, r) := m k in (set_connection (Some k) c, r)
  end.

Definition send_payload_once (payload : bytes) (base_seq count : Z) : stm Client ProtocolError Z :=
  c ← st_get;
  (if bool_decide (connection c = None) then reconnect else mret tt);;
  on_connection (timed "write" (write_all payload));;
  on_connection (timed "flush" flush);;
  ack ← on_connection (timed "ack" (read_exact 6));
  st_lift (check_ack base_seq count ack).

(** [for _ in 0..self.hosts.len()]: one attempt per iteration, the connection
    dropped and the cursor advanced after each failure. *)
Fixpoint attempts (n : nat) (payload : bytes) (base_seq count : Z) (last_err : option ProtocolError)
    : stm Client ProtocolError Z := fun c =>
  match n with
  | O => (c, Err (AllHostsFailed (default NoHostsConfigured last_err)))
  | S n =>
    match send_payload_once payload base_seq count c with
    | (c, Ok acked) => (c, Ok acked)
    | (c, Panic) => (c, Panic)
    | (c, Err e) => attempts n payload base_seq count (Some e) (cursor_incr (set_connection None c))
    end
  end.

Definition send_json (evs : list bytes) : stm Client ProtocolError Z := fun c =>
  if bool_decide (evs = []) then (c, Ok 0) else
  match u32_try_from (zlen evs) with
  | None => (c, Panic)
  | Some count =>
    let base_seq := seq c in
    let c := set_seq (Sequence.advance (seq c) count) c in
    match build_window_payload (compression_level c) evs base_seq with
    | Ok payload => attempts (length (hosts c)) payload (Sequence.value base_seq) count None c
    | Err e => (c, Err e)
    | Panic => (c, Panic)
    end
  end.

End Tls.
