(* ===== verification/ClientProps.v ===== *)
(** * Properties of the Lumberjack client

    Sequence-number reservation, the meaning of every possible ACK, and which
    hosts the failover loop dials. *)

From S2P Require Import Prelude Str Frame Sequence Net Client Rle.

Local Open Scope Z_scope.

(** ** Lemmas: what the sending machinery leaves alone *)

Section Keeps.
Context (sne : string -> option string) `{Z0 : Zlib}.

(** Configuration and sequence counter. *)
Definition same_config (c0 c : Client) : Prop :=
  hosts c = hosts c0 /\ load_balance c = load_balance c0 /\
  compression_level c = compression_level c0 /\ seq c = seq c0 /\ tls c = tls c0.

Lemma pick_host_keeps c0 : st_keeps (same_config c0) pick_host.
Proof. intros c Hc. unfold pick_host. repeat case_match; exact Hc. Qed.

Lemma reconnect_keeps c0 : st_keeps (same_config c0) (reconnect sne).
Proof.
  unfold reconnect. apply st_keeps_bind; [apply pick_host_keeps|intros h].
  apply st_keeps_bind; [apply st_keeps_get|intros c].
  apply st_keeps_bind; [intros s Hs; exact Hs|intros _].
  apply st_keeps_bind; [apply st_keeps_lift|intros _].
  destruct (tls c); [|intros s Hs; exact Hs].
  apply st_keeps_bind; [apply st_keeps_lift|intros _].
  apply st_keeps_bind; [apply st_keeps_lift|intros _; intros s Hs; exact Hs].
Qed.

Lemma on_connection_keeps {A} c0 (m : stm Connection ProtocolError A) :
  st_keeps (same_config c0) (on_connection m).
Proof.
  intros c Hc. unfold on_connection. destruct (connection c) as [k|]; [|exact Hc].
  destruct (m k) as [k' r]. exact Hc.
Qed.

Lemma send_payload_once_keeps c0 p b n : st_keeps (same_config c0) (send_payload_once sne p b n).
Proof.
  unfold send_payload_once. apply st_keeps_bind; [apply st_keeps_get|intros c].
  apply st_keeps_bind; [case_match; [apply reconnect_keeps|apply st_keeps_ret]|intros _].
  do 3 (apply st_keeps_bind; [apply on_connection_keeps|intros ?]). apply st_keeps_lift.
Qed.

Lemma attempts_keeps c0 n p b k e : st_keeps (same_config c0) (attempts sne n p b k e).
Proof.
  revert e. induction n as [|n IH]; intros e c Hc; cbn; [exact Hc|].
  pose proof (send_payload_once_keeps c0 p b k c Hc) as Hs.
  destruct (send_payload_once sne p b k c) as [c' [a|e'|]]; cbn in *; [exact Hs| |exact Hs].
  apply IH. exact Hs.
Qed.

(** ** Lemmas: acknowledgements *)

Lemma check_ack_ok b n ack m : check_ack b n ack = Ok m -> m = n.
Proof.
  destruct ack as [|b0 [|b1 [|b2 [|b3 [|b4 [|b5 [|]]]]]]]; try discriminate.
  unfold check_ack. repeat case_match; congruence.
Qed.

Lemma attempts_ok n p b k e c c' m : attempts sne n p b k e c = (c', Ok m) -> m = k.
Proof.
  revert e c. induction n as [|n IH]; intros e c; cbn; [discriminate|].
  destruct (send_payload_once sne p b k c) as [c1 [a|e'|]] eqn:Es; [|apply IH|discriminate].
  intros [= <- <-]. revert Es. unfold send_payload_once. run_st.
  repeat case_match; try discriminate;
    (intros Hc'; injection Hc' as _ Hc'; eapply check_ack_ok, Hc').
Qed.

(** ** Lemmas: building the payload *)

Lemma build_inner_total base i evs :
  0 <= i -> i + zlen evs <= U32_MAX -> exists w, build_inner base i evs = Ok w.
Proof.
  revert i. induction evs as [|e evs IH]; intros i Hi Hl; cbn; [eauto|].
  rewrite zlen_cons in Hl. pose proof (zlen_nonneg evs). unfold u32_try_from, u32_add.
  rewrite (proj2 (Z.leb_le i U32_MAX)) by lia. cbn. unfold id.
  rewrite (proj2 (Z.leb_le (i + 1) U32_MAX)) by lia. run_st.
  destruct (IH (i + 1)) as [w ->]; [lia ..|]. eauto.
Qed.

Lemma build_window_payload_total {ZL : ZlibLaws Z0} level evs base :
  zlen evs <= U32_MAX -> exists w, build_window_payload level evs base = Ok w.
Proof.
  intros Hl. unfold build_window_payload.
  destruct (build_inner_total base 0 evs) as [inner Hin]; [lia ..|]. run_st. rewrite Hin.
  case_match; [|eauto]. unfold encode_compressed. run_st.
  destruct (zlib_compress level inner) as [x|e|] eqn:Ez; cbn [map_err]; [|eauto|].
  - destruct (u32_try_from (zlen x)); cbn [ok_or]; cbv beta iota; [case_match|]; eauto.
  - exfalso. exact (zlib_compress_total _ _ Ez).
Qed.

End Keeps.

(** ** Properties *)

(** Sequence reservation: sending a non-empty batch advances the
    counter by the batch size, modulo [2^32], whatever happens on the wire
    (success, timeout, I/O error, partial or bogus ACK), and a success reports
    exactly the batch size; an empty batch touches nothing. *)
Theorem send_json_reserves_sequence (sne : string -> option string) `{Z0 : Zlib} {ZL : ZlibLaws Z0}
    (evs : list bytes) (c : Client) (Hlen : zlen evs <= U32_MAX) :
  seq (fst (send_json sne evs c)) = (if bool_decide (evs = []) then seq c else Sequence.advance (seq c) (zlen evs)) /\
  (forall n, snd (send_json sne evs c) = Ok n -> n = zlen evs) /\
  (evs = [] -> fst (send_json sne evs c) = c).
Proof.
  unfold send_json. case_bool_decide as He; [subst; split_and!; [done|intros n [= <-]; reflexivity|done]|].
  unfold u32_try_from. rewrite (proj2 (Z.leb_le _ _)) by exact Hlen.
  set (c1 := set_seq (Sequence.advance (seq c) (zlen evs)) c).
  destruct (build_window_payload_total (compression_level c1) evs (seq c) Hlen) as [w ->].
  split_and!; [|intros n|contradiction].
  - destruct (attempts_keeps sne c1 (length (hosts c1)) w (Sequence.value (seq c)) (zlen evs) None c1)
      as (_ & _ & _ & -> & _); [unfold same_config; auto|reflexivity].
  - destruct (attempts sne _ _ _ _ _ _) as [c' r] eqn:Ea. cbn. intros ->. eapply attempts_ok, Ea.
Qed.

Definition demo_client (lb : bool) (hs : list string) : Client :=
  mkClient hs lb 0 0 (Sequence.new 4294967295) None false (mkNetwork [] []).

Lemma send_json_reserves_sequence_witness :
  seq (fst (send_json (fun _ => None) [[x61]; [x62]] (demo_client false ["a"%string]))) = Sequence.new 1.
Proof.
  transitivity (if bool_decide ([[x61]; [x62]] = []) then seq (demo_client false ["a"%string])
    else Sequence.advance (seq (demo_client false ["a"%string])) (zlen [[x61]; [x62]])).
  - apply (send_json_reserves_sequence (fun _ => None) (Z0 := rle_zlib) [[x61]; [x62]] (demo_client false ["a"%string])).
    vm_compute. discriminate.
  - reflexivity.
Defined.

(** ** Lemmas: reading an ACK *)

(** Where an acknowledged number lies in the window. *)
Lemma wrapping_sub_iff base k s :
  is_u32 base -> is_u32 k -> is_u32 s -> u32_wrapping_sub s base = k <-> s = u32_wrapping_add base k.
Proof.
  intros Hb Hk Hs. set (x := u32_wrapping_add base k).
  assert (Hx : is_u32 x) by apply Sequence.u32_wrap_range.
  pose proof (Sequence.wrapping_sub_advance (Sequence.new base) k Hb Hk) as Hadv.
  cbn in Hadv. fold x in Hadv. split; [|intros ->; exact Hadv].
  intros Hsub. revert Hadv. rewrite <- Hsub.
  rewrite !Sequence.u32_wrapping_sub_cases by assumption.
  unfold is_u32, U32_MAX in *. bool_cases; lia.
Qed.

Section Ack_bytes.
Context (b0 b1 b2 b3 b4 b5 : byte) (base : Z) (Hb : is_u32 base).
Let s := u32_from_be_bytes [b2; b3; b4; b5].

Lemma acked_seq_u32 : is_u32 s.
Proof. apply u32_from_be_bytes_range. reflexivity. Qed.

Lemma ack_frame_iff k :
  is_u32 k ->
  [b0; b1; b2; b3; b4; b5] = encode_ack (u32_wrapping_add base k) <->
  (b0 = "2"%byte /\ b1 = "A"%byte) /\ u32_wrapping_sub s base = k.
Proof using Hb.
  intros Hk. rewrite (wrapping_sub_iff base k s Hb Hk acked_seq_u32). unfold encode_ack.
  pose proof (Sequence.u32_wrap_range (base + k)) as Hx. split.
  - intros Heq. injection Heq as -> -> H2 H3 H4 H5. split_and!; try reflexivity.
    unfold s. rewrite H2, H3, H4, H5. apply u32_be_roundtrip, Hx.
  - intros [[-> ->] <-]. unfold s. rewrite u32_be_roundtrip_bytes by reflexivity. reflexivity.
Qed.

Lemma ack_exact_iff count :
  is_u32 count ->
  Sequence.is_exactly_acked_by (Sequence.new (u32_wrapping_add base count)) s = true <->
  u32_wrapping_sub s base = count.
Proof using Hb.
  intros Hc. rewrite Sequence.is_exactly_acked_by_spec by (apply Sequence.u32_wrap_range || apply acked_seq_u32).
  symmetry. apply wrapping_sub_iff; [exact Hb|exact Hc|apply acked_seq_u32].
Qed.

Lemma ack_header_iff :
  (bool_decide (b0 ≠ "2"%byte) || bool_decide (b1 ≠ "A"%byte))%bool = false
  <-> b0 = "2"%byte /\ b1 = "A"%byte.
Proof.
  clear. rewrite orb_false_iff, !bool_decide_eq_false.
  split; intros [? ?]; (split; [|]); try tauto; apply dec_stable; assumption.
Qed.

End Ack_bytes.

(** The ACK check is exact: a six-byte reply makes the send succeed
    precisely when it is the ACK frame of the last sequence number of the
    window; it is reported as a partial ACK of [k] events precisely when it is
    the ACK frame of the [k]-th event with [1 <= k < count]; every other reply
    is an [UnexpectedAck]. Wrap-around of the counter is covered. *)
Theorem check_ack_classifies (base count : Z) (ack : bytes)
    (Hb : is_u32 base) (Hc : 1 <= count <= U32_MAX) (Hl : length ack = 6%nat) :
  (forall n, check_ack base count ack = Ok n <->
     n = count /\ ack = encode_ack (u32_wrapping_add base count)) /\
  (forall k n, check_ack base count ack = Err (PartialAck k n) <->
     n = count /\ 1 <= k < count /\ ack = encode_ack (u32_wrapping_add base k)) /\
  ((forall k, 1 <= k <= count -> ack <> encode_ack (u32_wrapping_add base k)) ->
     exists v t s, check_ack base count ack = Err (UnexpectedAck v t s (u32_wrapping_add base count))).
Proof.
  destruct ack as [|b0 [|b1 [|b2 [|b3 [|b4 [|b5 [|]]]]]]]; try discriminate Hl.
  assert (Hu : forall k, 1 <= k <= count -> is_u32 k) by (unfold is_u32; intros; lia).
  pose proof (ack_frame_iff b0 b1 b2 b3 b4 b5 base Hb) as Henc.
  pose proof (ack_exact_iff b2 b3 b4 b5 base Hb count (Hu count ltac:(lia))) as Hex.
  pose proof (ack_header_iff b0 b1) as Hhead.
  unfold check_ack. set (s := u32_from_be_bytes [b2; b3; b4; b5]) in *.
  pose proof (Sequence.u32_wrap_range (s - base)) as Hd. fold (u32_wrapping_sub s base) in Hd.
  unfold is_u32 in Hd. destruct (_ || _)%bool eqn:Eh; [|destruct (Sequence.is_exactly_acked_by _ _) eqn:Ee].
  - assert (Hno : ~ (b0 = "2"%byte /\ b1 = "A"%byte)) by (rewrite <- Hhead; discriminate).
    split_and!; [intros n|intros k n|intros _; eauto]; (split; [discriminate|]).
    + intros [_ Ha]. apply Henc in Ha; [tauto|apply Hu; lia].
    + intros (_ & Hk & Ha). apply Henc in Ha; [tauto|apply Hu; lia].
  - pose proof (proj1 Hex eq_refl) as Hsub. pose proof (proj1 Hhead eq_refl) as H01.
    split_and!.
    + intros n. split; [intros [= <-]; split; [reflexivity|]|intros [-> _]; reflexivity].
      apply Henc; [apply Hu; lia|auto].
    + intros k n. split; [discriminate|]. intros (_ & Hk & Ha). apply Henc in Ha; [lia|apply Hu; lia].
    + intros Hall. exfalso. apply (Hall count); [lia|]. apply Henc; [apply Hu; lia|auto].
  - pose proof (proj1 Hhead eq_refl) as H01.
    assert (Hne : u32_wrapping_sub s base <> count) by (rewrite <- Hex; discriminate).
    split_and!.
    + intros n. split; [case_match; discriminate|]. intros [_ Ha]. apply Henc in Ha; [tauto|apply Hu; lia].
    + intros k n. split.
      * case_match eqn:Ez; [discriminate|]. apply orb_false_iff in Ez as [Ez1 Ez2].
        intros [= <- <-]. split_and!; [reflexivity|lia ..|]. apply Henc; [unfold is_u32; lia|auto].
      * intros (-> & Hk & Ha). apply Henc in Ha; [|apply Hu; lia]. destruct Ha as [_ ->].
        rewrite (proj2 (Z.eqb_neq k 0)), (proj2 (Z.ltb_ge count k)) by lia. reflexivity.
    + intros Hall. case_match eqn:Ez; [eauto|]. apply orb_false_iff in Ez as [Ez1 Ez2].
      exfalso. apply (Hall (u32_wrapping_sub s base)); [lia|].
      apply Henc; [unfold is_u32; lia|auto].
Qed.

Lemma check_ack_classifies_witness :
  check_ack 4294967295 3 (encode_ack 1) = Err (PartialAck 2 3).
Proof.
  apply (proj1 (proj2 (check_ack_classifies 4294967295 3 (encode_ack 1) ltac:(unfold is_u32, U32_MAX; lia)
           ltac:(unfold U32_MAX; lia) eq_refl))). split_and!; [reflexivity|lia ..|reflexivity].
Defined.

(** ** Lemmas: which hosts the failover loop dials *)

(** Every dial to come is refused (or times out). *)
Definition nobody_answers (n : Network) : Prop :=
  Forall (fun d => d_connect d <> Completes) (dials n).

(** How far one failed attempt moves the cursor: the failure itself, plus the
    pick when load balancing. *)
Definition stride (lb : bool) : Z := if lb then 2 else 1.

(** The hosts of [n] consecutive dials from [cursor]. *)
Fixpoint dial_order (hs : list string) (step : Z) (n : nat) (cursor : Z) : list string :=
  match n with
  | O => []
  | S n => default ""%string (hs !! Z.to_nat (cursor mod zlen hs)) :: dial_order hs step n (cursor + step)
  end.

Section Failover.
Context (sne : string -> option string) `{Z0 : Zlib}.

Lemma tail_forall {A} (P : A -> Prop) l : Forall P l -> Forall P (tail l).
Proof. destruct l; cbn; [auto|]. apply Forall_inv_tail. Qed.

(** A dial nobody answers: the host is picked and dialled, nothing else. *)
Lemma reconnect_refused c :
  hosts c <> [] -> 0 <= host_cursor c -> nobody_answers (network c) ->
  exists e, reconnect sne c =
    (set_network (mkNetwork (tail (dials (network c)))
       (dialled (network c) ++ [default ""%string (hosts c !! Z.to_nat (host_cursor c mod zlen (hosts c)))]))
       (if load_balance c then cursor_incr c else c), Err e).
Proof.
  intros Hh Hc Hn. unfold reconnect, pick_host. run_st.
  assert (Hz : 0 < zlen (hosts c)) by (destruct (hosts c); [contradiction|rewrite zlen_cons; pose proof (zlen_nonneg l); lia]).
  rewrite (proj2 (Z.eqb_neq _ _)) by lia. cbv beta iota.
  pose proof (Z.mod_pos_bound (host_cursor c) (zlen (hosts c)) Hz).
  destruct (lookup_lt_is_Some_2 (hosts c) (Z.to_nat (host_cursor c mod zlen (hosts c)))) as [h Hl];
    [unfold zlen in *; lia|].
  rewrite Hl. cbn [expect]. change (default ""%string (Some h)) with h. cbv beta iota.
  assert (Hnw : network (if load_balance c then cursor_incr c else c) = network c) by (case_match; reflexivity).
  rewrite Hnw.
  assert (Hf : exists e, fate_result "connect" (d_connect (default unreachable (head (dials (network c))))) = Err e).
  { unfold nobody_answers in Hn. destruct (dials (network c)) as [|d ds]; cbn; [eauto|].
    apply Forall_inv in Hn. unfold id. destruct (d_connect d); cbn; [contradiction|eauto ..]. }
  destruct Hf as [e ->]. exists e. reflexivity.
Qed.

Lemma attempts_refused n p b k e c :
  hosts c <> [] -> connection c = None -> 0 <= host_cursor c ->
  host_cursor c + 2 * Z.of_nat n <= USIZE_MAX -> nobody_answers (network c) ->
  exists c' e', attempts sne n p b k e c = (c', Err (AllHostsFailed e')) /\
    dialled (network c') = dialled (network c) ++ dial_order (hosts c) (stride (load_balance c)) n (host_cursor c).
Proof.
  revert e c. induction n as [|n IH]; intros e c Hh Hcn Hcur Hw Hn; cbn [attempts dial_order].
  { exists c. eexists. split; [reflexivity|]. rewrite app_nil_r. reflexivity. }
  destruct (reconnect_refused c Hh Hcur Hn) as [er Hr].
  assert (Hs : send_payload_once sne p b k c = (fst (reconnect sne c), Err er)).
  { unfold send_payload_once. run_st. rewrite Hcn, bool_decide_true by reflexivity. rewrite Hr. reflexivity. }
  rewrite Hs, Hr. cbn [fst].
  set (c1 := if load_balance c then cursor_incr c else c).
  assert (Hmod : (host_cursor c + 1) mod (USIZE_MAX + 1) = host_cursor c + 1)
    by (apply Z.mod_small; unfold USIZE_MAX, U64_MAX in *; lia).
  match goal with |- context [attempts sne n p b k _ ?c2] => set (c' := c2) end.
  assert (Hcfg : hosts c' = hosts c /\ load_balance c' = load_balance c) by (subst c' c1; destruct (load_balance c) eqn:El; cbn; auto).
  assert (Hcur' : host_cursor c' = host_cursor c + stride (load_balance c)).
  { subst c' c1. unfold stride. destruct (load_balance c); cbn; rewrite Hmod; [|reflexivity].
    rewrite Z.mod_small; unfold USIZE_MAX, U64_MAX in *; lia. }
  destruct Hcfg as [Hhs Hlb].
  assert (Hst : 1 <= stride (load_balance c) <= 2) by (unfold stride; case_match; lia).
  destruct (IH (Some er) c') as (c2 & e2 & Ha & Hd).
  - congruence.
  - reflexivity.
  - lia.
  - rewrite Hcur'. lia.
  - apply tail_forall, Hn.
  - exists c2, e2. split; [exact Ha|]. rewrite Hd, Hhs, Hlb, Hcur'.
    subst c' c1. cbn. rewrite <- app_assoc. reflexivity.
Qed.

End Failover.

(** C39: failover covers every host: without load balancing, a send from a
    disconnected client that nobody answers fails with [AllHostsFailed] after
    dialling each configured host exactly once, in the order of the list, starting
    from the host at the cursor and going round. The cursor is at the first host in
    a new client and moves on by one at every failed attempt, also across sends, so
    after an earlier failover the first host need not be the one dialled first. *)
Theorem failover_dials_every_host (sne : string -> option string) `{Z0 : Zlib} {ZL : ZlibLaws Z0}
    (c : Client) (evs : list bytes)
    (Hlb : load_balance c = false) (Hcn : connection c = None) (Hh : hosts c <> [])
    (Hev : evs <> []) (Hlen : zlen evs <= U32_MAX)
    (Hcur : 0 <= host_cursor c) (Hw : host_cursor c + 2 * zlen (hosts c) <= USIZE_MAX)
    (Hn : nobody_answers (network c)) :
  exists c' e, send_json sne evs c = (c', Err (AllHostsFailed e)) /\
    dialled (network c') = dialled (network c) ++
      ((fun i => default ""%string (hosts c !! Z.to_nat ((host_cursor c + Z.of_nat i) mod zlen (hosts c))))
        <$> List.seq 0 (length (hosts c))).
Proof.
  unfold send_json. rewrite bool_decide_false by exact Hev. unfold u32_try_from.
  rewrite (proj2 (Z.leb_le _ _)) by exact Hlen.
  set (c1 := set_seq (Sequence.advance (seq c) (zlen evs)) c).
  destruct (build_window_payload_total (compression_level c1) evs (seq c) Hlen) as [w ->].
  destruct (attempts_refused sne (length (hosts c1)) w (Sequence.value (seq c)) (zlen evs) None c1)
    as (c' & e & -> & Hd); try assumption.
  exists c', e. split; [reflexivity|]. rewrite Hd. f_equal.
  change (load_balance c1) with (load_balance c). rewrite Hlb. cbn [stride].
  change (hosts c1) with (hosts c). change (host_cursor c1) with (host_cursor c).
  generalize (length (hosts c)). intros n. generalize (host_cursor c). intros cur.
  rewrite <- (Z.add_0_r cur) at 1. change 0 with (Z.of_nat 0). generalize 0%nat.
  induction n as [|n IH]; intros i; cbn; [reflexivity|]. f_equal.
  rewrite <- IH. f_equal. lia.
Qed.

Lemma failover_dials_every_host_witness :
  exists c' e, send_json (fun _ => None) [[x61]] (demo_client false ["a"; "b"; "c"]%string) = (c', Err (AllHostsFailed e)) /\
    dialled (network c') = ["a"; "b"; "c"]%string.
Proof.
  apply (failover_dials_every_host (fun _ => None) (Z0 := rle_zlib) (demo_client false ["a"; "b"; "c"]%string) [[x61]]);
    try reflexivity; try discriminate; constructor.
Defined.

(** The cursor stays where a failover left it: a client of three hosts, without load
    balancing, connects to the first, loses it and is acknowledged by the second, loses
    that and finds nobody; its next send, from a disconnected client, dials the
    second host first. *)
Lemma failover_starts_past_first_host :
  let lost := Fails (mkIoError (KOther 104) "connection reset by peer") in
  let n := mkNetwork [mkDial Completes Completes (mkConnection [] [lost] []);
                      mkDial Completes Completes (mkConnection [x32; x41; x00; x00; x00; x01] [Completes; Completes; Completes; lost] [])] [] in
  let send := send_json (fun _ => None) (H := rle_zlib) [[x61]] in
  let b := add_host "c" (add_host "b" (add_host "a" ClientBuilder_new)) in
  let '(c0, r0) := connect (fun _ => None) b n in
  let '(c1, r1) := send c0 in
  let '(c2, r2) := send c1 in
  let '(c3, r3) := send c2 in
  r0 = Ok tt /\ r1 = Ok 1 /\ (exists e, r2 = Err (AllHostsFailed e)) /\ connection c2 = None /\ load_balance c2 = false /\
  dialled (network c2) = ["a"; "b"; "c"; "a"]%string /\ dialled (network c3) = ["a"; "b"; "c"; "a"; "b"; "c"; "a"]%string.
Proof. vm_compute. split_and!; eauto. Qed.

(** Load balancing defeats failover between two hosts: the cursor moves
    once when the host is picked and once more when the attempt fails, so a
    load-balanced client with two hosts dials the same host on both attempts
    and never tries the other one before reporting that all hosts failed. *)
Theorem load_balance_retries_same_host (sne : string -> option string) `{Z0 : Zlib} {ZL : ZlibLaws Z0}
    (c : Client) (h0 h1 : string) (evs : list bytes)
    (Hlb : load_balance c = true) (Hcn : connection c = None) (Hh : hosts c = [h0; h1])
    (Hev : evs <> []) (Hlen : zlen evs <= U32_MAX)
    (Hcur : 0 <= host_cursor c) (Hw : host_cursor c + 4 <= USIZE_MAX)
    (Hn : nobody_answers (network c)) :
  let h := if Z.even (host_cursor c) then h0 else h1 in
  exists c' e, send_json sne evs c = (c', Err (AllHostsFailed e)) /\
    dialled (network c') = dialled (network c) ++ [h; h].
Proof.
  cbv zeta. unfold send_json. rewrite bool_decide_false by exact Hev. unfold u32_try_from.
  rewrite (proj2 (Z.leb_le _ _)) by exact Hlen.
  set (c1 := set_seq (Sequence.advance (seq c) (zlen evs)) c).
  destruct (build_window_payload_total (compression_level c1) evs (seq c) Hlen) as [w ->].
  destruct (attempts_refused sne (length (hosts c1)) w (Sequence.value (seq c)) (zlen evs) None c1)
    as (c' & e & -> & Hd); try assumption.
  - change (hosts c1) with (hosts c). rewrite Hh. discriminate.
  - change (hosts c1) with (hosts c). rewrite Hh. exact Hw.
  - exists c', e. split; [reflexivity|]. rewrite Hd. f_equal.
    change (load_balance c1) with (load_balance c). change (hosts c1) with (hosts c).
    change (host_cursor c1) with (host_cursor c). rewrite Hlb, Hh. cbn [stride length dial_order].
    change (zlen [h0; h1]) with 2.
    replace ((host_cursor c + 2) mod 2) with (host_cursor c mod 2)
      by (replace (host_cursor c + 2) with (host_cursor c + 1 * 2) by lia; rewrite Z.mod_add by lia; reflexivity).
    rewrite Zmod_even. destruct (Z.even (host_cursor c)); reflexivity.
Qed.

Lemma load_balance_retries_same_host_witness :
  exists c' e, send_json (fun _ => None) [[x61]] (demo_client true ["a"; "b"]%string) = (c', Err (AllHostsFailed e)) /\
    dialled (network c') = ["a"; "a"]%string.
Proof.
  apply (load_balance_retries_same_host (fun _ => None) (Z0 := rle_zlib) (demo_client true ["a"; "b"]%string) "a" "b" [[x61]]);
    try reflexivity; try discriminate; constructor.
Defined.
