(* ===== verification/Lumberjack.v ===== *)
(** * The Lumberjack server's properties, and client and server together

    The receiver's refinement, caps and error behaviour, and the end-to-end
    exchange: a window built by the client's [build_window_payload], cut into
    any reads, is delivered by the server's [read_window] as exactly the events
    that were sent, and the ACK the server then writes is the one the client
    accepts. *)

From S2P Require Import Prelude Str Frame FrameSpec FrameProps Sequence Net Server ServerSpec Client ClientProps Rle.

Local Open Scope Z_scope.

(** ** Lemmas: a window's data frames *)

(** The events as the receiver should see them, from the [i]-th on. *)
Fixpoint tagged (base : Sequence) (i : Z) (evs : list bytes) : list JsonEvent :=
  match evs with
  | [] => []
  | e :: evs => mkJsonEvent (Sequence.value (Sequence.advance base (i + 1))) e :: tagged base (i + 1) evs
  end.

(** Summed sizes of raw events. *)
Definition sum_sizes (evs : list bytes) : Z := foldr (fun e acc => zlen e + acc) 0 evs.

Lemma sum_sizes_nonneg evs : 0 <= sum_sizes evs.
Proof. unfold sum_sizes. induction evs as [|e evs IH]; cbn; [lia|]. pose proof (zlen_nonneg e). lia. Qed.

Lemma zlen_tagged base i evs : zlen (tagged base i evs) = zlen evs.
Proof. revert i. induction evs as [|e evs IH]; intros i; cbn; [reflexivity|]. rewrite !zlen_cons, IH. reflexivity. Qed.

(** What [evs] does to an accumulator that still expects at least that many. *)
Definition acc_add (base : Sequence) (i : Z) (evs : list bytes) (r : Z) (a : WindowAcc) : WindowAcc :=
  match evs with
  | [] => a
  | _ => mkAcc (events a ++ tagged base i evs) (Some (r - zlen evs))
           (Sequence.value (Sequence.advance base (i + zlen evs))) (accumulated_bytes a + sum_sizes evs)
  end.

Section Exchange.
Context `{Z0 : Zlib} {ZL : ZlibLaws Z0} (k : Caps) (Hk : cap_bytes k < USIZE_MAX).

(** Room in the accumulator for [evs]. *)
Record room (a : WindowAcc) (r : Z) (evs : list bytes) : Prop := {
  room_slots : window_remaining a = Some r /\ zlen evs <= r;
  room_events : zlen (events a) + zlen evs <= cap_events k;
  room_bytes : 0 <= accumulated_bytes a /\ accumulated_bytes a + sum_sizes evs <= cap_bytes k;
  room_frames : Forall (fun e => zlen e <= Z.min (cap_frame k) U32_MAX) evs;
}.

Lemma record_event_room a r e evs s :
  room a r (e :: evs) ->
  record_event (cap_events k) (cap_bytes k) s e a =
    (mkAcc (events a ++ [mkJsonEvent s e]) (Some (r - 1)) s (accumulated_bytes a + zlen e), Ok tt) /\
  room (mkAcc (events a ++ [mkJsonEvent s e]) (Some (r - 1)) s (accumulated_bytes a + zlen e)) (r - 1) evs.
Proof using Hk.
  intros [[Hr Hsl] Hev [Hb0 Hb] Hf]. rewrite zlen_cons in *. cbn in Hb. fold (sum_sizes evs) in Hb.
  pose proof (zlen_nonneg evs). pose proof (zlen_nonneg e). pose proof (sum_sizes_nonneg evs).
  pose proof (zlen_nonneg (events a)). unfold record_event. rewrite Hr.
  rewrite (proj2 (Z.eqb_neq r 0)), (proj2 (Z.leb_gt _ _)) by lia.
  unfold usize_saturating_add. rewrite Z.min_l, (proj2 (Z.ltb_ge _ _)) by lia.
  split; [reflexivity|]. apply Forall_cons in Hf as [_ Hf].
  split; cbn; [split; [reflexivity|lia]|autorewrite with ferro; lia|lia|exact Hf].
Qed.

Lemma acc_add_cons base i e evs r a :
  acc_add base (i + 1) evs (r - 1)
    (mkAcc (events a ++ [mkJsonEvent (Sequence.value (Sequence.advance base (i + 1))) e]) (Some (r - 1))
       (Sequence.value (Sequence.advance base (i + 1))) (accumulated_bytes a + zlen e))
  = acc_add base i (e :: evs) r a.
Proof.
  unfold acc_add. rewrite zlen_cons. cbn [tagged events accumulated_bytes sum_sizes foldr].
  fold (sum_sizes evs). destruct evs as [|e2 evs].
  - cbn [tagged]. rewrite zlen_nil. change (sum_sizes []) with 0. f_equal; first [lia | f_equal; lia | do 2 f_equal; lia].
  - rewrite <- app_assoc. cbn [app]. f_equal; first [lia | f_equal; lia | do 2 f_equal; lia].
Qed.

Lemma build_inner_cons base i e evs w :
  0 <= i -> i + zlen (e :: evs) <= U32_MAX -> build_inner base i (e :: evs) = Ok w ->
  exists w', build_inner base (i + 1) evs = Ok w' /\
    w = encode_json_frame (Sequence.value (Sequence.advance base (i + 1))) e ++ w'.
Proof.
  intros Hi Hl. rewrite zlen_cons in Hl. pose proof (zlen_nonneg evs). cbn.
  unfold u32_try_from, u32_add. rewrite (proj2 (Z.leb_le i U32_MAX)) by lia.
  change (default U32_MAX (Some i)) with i. rewrite (proj2 (Z.leb_le (i + 1) U32_MAX)) by lia. run_st.
  destruct (build_inner base (i + 1) evs) as [w'| |]; try discriminate. intros [= <-]. eauto.
Qed.

(** Through a compressed batch. *)
Lemma inner_frames_events fuel base i evs r a d :
  wf d -> max_frame_payload d = cap_frame k -> build_inner base i evs = Ok (rest d) ->
  (length (rest d) < fuel)%nat -> 0 <= i -> i + zlen evs <= U32_MAX -> room a r evs ->
  inner_frames fuel k d a = (acc_add base i evs r a, Ok tt).
Proof using Hk.
  revert base i evs r a d. induction fuel as [|fuel IH]; intros base i evs r a d Hd Hm Hin Hf Hi Hlen Hr; [lia|].
  cbn. rewrite next_frame_parse by exact Hd. rewrite Hm.
  destruct evs as [|e evs].
  { cbn in Hin. injection Hin as <-. reflexivity. }
  destruct (build_inner_cons _ _ _ _ _ Hi Hlen Hin) as (w' & Hin' & Hw). rewrite Hw.
  pose proof (Forall_inv (room_frames _ _ _ Hr)) as He.
  rewrite encode_json_parse by (apply Sequence.u32_wrap_range || exact He). cbn [apply_parse].
  destruct (record_event_room a r e evs (Sequence.value (Sequence.advance base (i + 1))) Hr) as [Hrec Hroom].
  unfold mbind, stm_bind. rewrite Hrec. cbv beta iota.
  assert (Hlen' : zlen (rest d) = 10 + zlen e + zlen w').
  { rewrite Hw. unfold encode_json_frame. autorewrite with ferro. lia. }
  pose proof (zlen_nonneg e). pose proof (zlen_nonneg w'). rewrite zlen_cons in Hlen.
  assert (Hrest : rest (advance_read (10 + zlen e) d) = w').
  { rewrite rest_advance by (assumption || lia). rewrite Hw.
    replace (10 + zlen e) with (zlen (encode_json_frame (Sequence.value (Sequence.advance base (i + 1))) e))
      by (unfold encode_json_frame; autorewrite with ferro; lia).
    apply drop_zlen_app. }
  rewrite (IH base (i + 1) evs (r - 1)); [rewrite acc_add_cons; reflexivity|..]; rewrite ?Hrest; try assumption; try lia.
  - apply wf_advance; [exact Hd|lia].
  - unfold zlen in *. lia.
Qed.

(** Frame by frame, uncompressed: the last event completes the window. *)
Lemma recv_events fuel base i evs a w q :
  build_inner base i evs = Ok w -> evs <> [] -> (length (w ++ q) < fuel)%nat ->
  0 <= i -> i + zlen evs <= U32_MAX -> room a (zlen evs) evs ->
  recv fuel (cap_frame k) k a (w ++ q) =
  (Ok (Some (mkEventWindow (events a ++ tagged base i evs) (Sequence.value (Sequence.advance base (i + zlen evs))))), q).
Proof using Hk.
  revert i evs a w. induction fuel as [|fuel IH]; intros i evs a w Hin Hne Hf Hi Hlen Hr; [lia|].
  destruct evs as [|e evs]; [contradiction|].
  destruct (build_inner_cons _ _ _ _ _ Hi Hlen Hin) as (w' & Hin' & ->). rewrite <- app_assoc in *.
  pose proof (Forall_inv (room_frames _ _ _ Hr)) as He. cbn [recv].
  rewrite encode_json_parse by (apply Sequence.u32_wrap_range || exact He). cbn [handle_frame].
  destruct (record_event_room a (zlen (e :: evs)) e evs (Sequence.value (Sequence.advance base (i + 1))) Hr)
    as [Hrec Hroom].
  unfold mbind, stm_bind. rewrite Hrec. cbv beta iota.
  set (f := encode_json_frame (Sequence.value (Sequence.advance base (i + 1))) e) in *.
  assert (Hfl : 10 + zlen e = zlen f) by (unfold f, encode_json_frame; autorewrite with ferro; lia).
  pose proof (zlen_nonneg e). pose proof (zlen_nonneg evs). rewrite Hfl, drop_zlen_app.
  rewrite zlen_cons in *. unfold return_if_complete. cbn [window_remaining].
  replace (1 + zlen evs - 1) with (zlen evs) in * by lia.
  destruct evs as [|e2 evs].
  { rewrite zlen_nil in *. cbn in Hin'. injection Hin' as <-. rewrite Z.add_0_r. reflexivity. }
  pose proof (zlen_cons e2 evs) as Hz. pose proof (zlen_nonneg evs).
  destruct (zlen (e2 :: evs)) eqn:Ez; [lia| |lia].
  rewrite <- Ez in *. rewrite (IH (i + 1) (e2 :: evs)); [|try assumption; try lia; try discriminate ..].
  - cbn [events tagged]. rewrite <- app_assoc. cbn [app]. do 6 f_equal. lia.
  - clearbody f. rewrite !length_app in Hf. rewrite length_app. unfold zlen in Hfl. lia.
Qed.

End Exchange.

(** ** Lemmas: a whole window on the wire *)

Section Window.
Context `{Z0 : Zlib} {ZL : ZlibLaws Z0} (k : Caps).

(** The limits a window of events must respect to be accepted: the receiver's
    caps, and data frames (the content of a compressed batch) within the frame
    cap. *)
Record fits (evs : list bytes) (inner : bytes) : Prop := {
  fits_nonempty : evs <> [];
  fits_count : zlen evs <= Z.min (cap_events k) U32_MAX;
  fits_bytes : sum_sizes evs <= cap_bytes k;
  fits_frames : Forall (fun e => zlen e <= U32_MAX) evs;
  fits_inner : zlen inner <= cap_frame k;
  fits_limits : cap_bytes k < USIZE_MAX /\ cap_frame k < U64_MAX;
}.

Lemma inner_frame_bound base i evs w :
  build_inner base i evs = Ok w -> 0 <= i -> i + zlen evs <= U32_MAX -> Forall (fun e => zlen e <= zlen w) evs.
Proof.
  revert i w. induction evs as [|e evs IH]; intros i w Hin Hi Hl; [constructor|].
  destruct (build_inner_cons _ _ _ _ _ Hi Hl Hin) as (w' & Hin' & ->). rewrite zlen_cons in Hl.
  apply IH in Hin'; [|lia..].
  assert (Hz : forall s, zlen (encode_json_frame s e) = 10 + zlen e)
    by (intros s; unfold encode_json_frame; autorewrite with ferro; lia).
  rewrite zlen_app, Hz. pose proof (zlen_nonneg e). pose proof (zlen_nonneg w').
  constructor; [lia|]. eapply Forall_impl; [exact Hin'|]. cbn. intros; lia.
Qed.

(** The two shapes of a payload: plain data frames, or one compressed batch. *)
Lemma build_window_payload_cases base evs inner payload level :
  zlen evs <= U32_MAX -> build_inner base 0 evs = Ok inner -> build_window_payload level evs base = Ok payload ->
  payload = encode_window (zlen evs) ++ inner \/
  exists w, encode_compressed level inner = Ok w /\ zlen w < zlen inner /\ payload = encode_window (zlen evs) ++ w.
Proof.
  intros Hc Hin Hp. unfold build_window_payload in Hp. run_st_in Hp. rewrite Hin in Hp.
  unfold u32_try_from in Hp. rewrite (proj2 (Z.leb_le (zlen evs) U32_MAX)) in Hp by lia.
  change (default U32_MAX (Some (zlen evs))) with (zlen evs) in Hp.
  destruct (0 <? level); [|left; congruence].
  destruct (encode_compressed level inner) as [w|e|] eqn:Ec; [|left; congruence|discriminate].
  destruct (Z.ltb_spec (zlen w) (zlen inner)); [|left; congruence].
  right. exists w. split_and!; [reflexivity|lia|congruence].
Qed.

Lemma recv_header n tail fuel :
  0 < n <= Z.min (cap_events k) U32_MAX ->
  recv (S fuel) (cap_frame k) k acc0 (encode_window n ++ tail)
  = recv fuel (cap_frame k) k (mkAcc [] (Some n) 0 0) tail.
Proof.
  intros Hn. cbn [recv]. rewrite encode_window_parse by (unfold is_u32; lia). cbn [handle_frame].
  unfold check_declared_window. cbn [acc0 window_remaining].
  rewrite (proj2 (Z.ltb_ge _ _)), (proj2 (Z.eqb_neq _ _)) by lia. reflexivity.
Qed.

Lemma recv_window base evs inner payload level q fuel :
  build_inner base 0 evs = Ok inner -> build_window_payload level evs base = Ok payload ->
  fits evs inner -> (length (payload ++ q) < fuel)%nat ->
  recv fuel (cap_frame k) k acc0 (payload ++ q) =
  (Ok (Some (mkEventWindow (tagged base 0 evs) (Sequence.value (Sequence.advance base (zlen evs))))), q).
Proof using ZL.
  intros Hin Hp [Hne Hc Hb Hf Hi [Hl1 Hl2]] Hfuel.
  assert (Hn : 0 < zlen evs) by (destruct evs; [contradiction|rewrite zlen_cons; pose proof (zlen_nonneg evs); lia]).
  pose proof (inner_frame_bound base 0 evs inner Hin ltac:(lia) ltac:(lia)) as Hbound.
  set (a1 := mkAcc [] (Some (zlen evs)) 0 0).
  assert (Hroom : room k a1 (zlen evs) evs).
  { split; cbn; [split; [reflexivity|lia]|rewrite zlen_nil; lia|lia|].
    rewrite Forall_forall in Hf, Hbound |- *. intros e He. specialize (Hf e He). specialize (Hbound e He). cbn in *. lia. }
  destruct (build_window_payload_cases base evs inner payload level ltac:(lia) Hin Hp) as [->|(w & Ec & Hw & ->)];
    rewrite <- app_assoc in *; rewrite length_app in Hfuel; change (length (encode_window (zlen evs))) with 6%nat in Hfuel;
    (destruct fuel as [|[|fuel]]; [lia ..|]); rewrite recv_header by lia; fold a1.
  - rewrite (recv_events k Hl1 (S fuel) base 0 evs a1 inner q) by (assumption || lia). reflexivity.
  - cbn [recv]. rewrite (encode_compressed_parse (cap_frame k) Hl2 level inner w) by (assumption || lia).
    rewrite drop_zlen_app. cbn [handle_frame]. set (d := feed (with_max_frame_payload (cap_frame k)) inner).
    unfold mbind, stm_bind.
    rewrite (inner_frames_events k Hl1 (S (length inner)) base 0 evs (zlen evs) a1 d);
      [|try assumption; try lia; try reflexivity; try (unfold wf; cbn; split; [lia|apply zlen_nonneg]) ..].
    destruct evs as [|e evs]; [contradiction|]. unfold acc_add. cbv beta iota.
    unfold return_if_complete. cbn [window_remaining]. rewrite Z.sub_diag. cbn [events]. reflexivity.
    change (rest d) with inner. lia.
Qed.

End Window.

(** ** Lemmas: totality and end of stream *)

Section Ending.
Context `{Z0 : Zlib} {ZL : ZlibLaws Z0} (k : Caps).

Lemma record_event_total m b s p a : snd (record_event m b s p a) <> Panic.
Proof. unfold record_event. repeat case_match; discriminate. Qed.

Lemma consume_slot_total a : snd (consume_slot a) <> Panic.
Proof. unfold consume_slot. repeat case_match; discriminate. Qed.

Lemma inner_frames_total fuel d a :
  wf d -> (length (rest d) < fuel)%nat -> snd (inner_frames fuel k d a) <> Panic.
Proof using ZL.
  revert d a. induction fuel as [|fuel IH]; intros d a Hd Hl; [lia|].
  cbn. rewrite next_frame_parse by exact Hd.
  destruct (parse_frame (max_frame_payload d) (rest d)) as [[[f n]|]| |] eqn:E; cbn; try discriminate;
    [|exfalso; exact (parse_frame_total _ _ E)].
  apply parse_frame_progress in E.
  assert (Hnext : forall a', snd (inner_frames fuel k (advance_read n d) a') <> Panic).
  { intros a'. apply IH; [apply wf_advance; [exact Hd|lia]|].
    rewrite rest_advance, length_drop by (assumption || lia). unfold zlen in E. lia. }
  unfold mbind, stm_bind. destruct f; try discriminate.
  - pose proof (record_event_total (cap_events k) (cap_bytes k) seq payload a).
    destruct (record_event _ _ _ _ a) as [a' [| |]]; [apply Hnext|discriminate|contradiction].
  - pose proof (consume_slot_total a).
    destruct (consume_slot a) as [a' [| |]]; [apply Hnext|discriminate|contradiction].
Qed.

Lemma handle_frame_total f a : snd (handle_frame k f a) <> Panic.
Proof using ZL.
  assert (Hret : forall (m : stm WindowAcc ProtocolError unit), snd (m a) <> Panic ->
            snd ((m ;; return_if_complete) a) <> Panic).
  { intros m Hm. unfold mbind, stm_bind. destruct (m a) as [a' [| |]]; [|discriminate|contradiction].
    unfold return_if_complete. repeat case_match; discriminate. }
  destruct f; cbn [handle_frame].
  - unfold check_declared_window. repeat case_match; discriminate.
  - apply Hret, record_event_total.
  - apply Hret, inner_frames_total.
    + unfold wf. cbn. split; [lia|apply zlen_nonneg].
    + change (rest _) with decompressed. lia.
  - discriminate.
  - apply Hret, consume_slot_total.
Qed.

Lemma recv_total fuel m a p : (length p < fuel)%nat -> fst (recv fuel m k a p) <> Panic.
Proof using ZL.
  revert a p. induction fuel as [|fuel IH]; intros a p Hl; [lia|]. cbn.
  destruct (parse_frame m p) as [[[f n]|]| |] eqn:E; cbn; try discriminate.
  - apply parse_frame_progress in E. unfold zlen in E. pose proof (handle_frame_total f a).
    destruct (handle_frame k f a) as [a' [[w|]| |]]; try discriminate; [|contradiction].
    apply IH. rewrite length_drop. lia.
  - unfold at_eof. repeat case_match; discriminate.
  - exfalso; exact (parse_frame_total _ _ E).
Qed.

(** Once a window has started, it stays started. *)
Definition started (a : WindowAcc) : Prop := window_remaining a <> None.

Lemma record_event_started m b s p : st_keeps started (record_event m b s p).
Proof. intros a Ha. unfold record_event. repeat case_match; solve [exact Ha | discriminate]. Qed.

Lemma consume_slot_started : st_keeps started consume_slot.
Proof. intros a Ha. unfold consume_slot. repeat case_match; solve [exact Ha | discriminate]. Qed.

Lemma inner_frames_started fuel d : st_keeps started (inner_frames fuel k d).
Proof.
  revert d. induction fuel as [|fuel IH]; intros d; cbn; [auto with ferro|].
  destruct (next_frame d) as [d' [[[]|]| |]]; auto with ferro; apply st_keeps_bind;
    first [apply record_event_started | apply consume_slot_started | intros _; apply IH].
Qed.

Lemma handle_frame_started f : st_keeps started (handle_frame k f).
Proof.
  assert (Hret : st_keeps started return_if_complete)
    by (intros a Ha; unfold return_if_complete; repeat case_match; exact Ha).
  destruct f; cbn [handle_frame]; [| | |apply st_keeps_throw|].
  - intros a Ha. repeat case_match; solve [exact Ha | discriminate].
  - apply st_keeps_bind; [apply record_event_started|auto].
  - apply st_keeps_bind; [apply inner_frames_started|auto].
  - apply st_keeps_bind; [apply consume_slot_started|auto].
Qed.

Lemma recv_started fuel m a p : started a -> fst (recv fuel m k a p) <> Ok None.
Proof.
  revert a p. induction fuel as [|fuel IH]; intros a p Ha; [discriminate|]. cbn.
  destruct (parse_frame m p) as [[[f n]|]| |]; cbn; try discriminate.
  - pose proof (handle_frame_started f a Ha) as Hs.
    destruct (handle_frame k f a) as [a' [[w|]| |]]; try discriminate. apply IH, Hs.
  - unfold at_eof. unfold started in Ha. destruct (window_remaining a); [discriminate|contradiction].
Qed.

(** Bytes that leave the receiver waiting end it with [at_eof]. *)
Lemma recv_stuck fuel m a a' p left :
  (length p < fuel)%nat -> apply_frames fuel m k a p = (a', Ok None, left) ->
  recv fuel m k a p = (at_eof a', left).
Proof using ZL.
  intros Hf Ha. rewrite <- (app_nil_r p) at 1.
  rewrite (recv_app fuel fuel m k a p [] a' (Ok None) left) by (rewrite ?app_nil_r; assumption).
  pose proof (apply_frames_left _ _ _ _ _ _ _ _ Hf Ha) as [Hl Hs].
  destruct fuel as [|fuel]; [lia|]. cbn. rewrite app_nil_r, Hs by reflexivity. reflexivity.
Qed.

(** A strict prefix of a stream that delivers a window with nothing left over
    leaves the receiver waiting. *)
Lemma recv_prefix fuel m a p s w :
  s <> [] -> (length (p ++ s) < fuel)%nat -> recv fuel m k a (p ++ s) = (Ok (Some w), []) ->
  exists a' left, recv fuel m k a p = (at_eof a', left).
Proof using ZL.
  intros Hs Hf Hr. assert (Hf' : (length p < fuel)%nat) by (rewrite length_app in Hf; lia).
  destruct (apply_frames fuel m k a p) as [[a' r] left] eqn:Ea.
  rewrite (recv_app fuel fuel m k a p s a' r left) in Hr by assumption.
  destruct r as [[w'|]|e|]; try discriminate Hr.
  - injection Hr as _ Hnil. apply app_eq_nil in Hnil. tauto.
  - exists a', left. apply recv_stuck; assumption.
Qed.

End Ending.

Lemma at_eof_cases a : at_eof a = Ok None \/ at_eof a = Err mid_window_eof.
Proof. unfold at_eof. repeat case_match; auto. Qed.

(** ** Properties of the server *)

Lemma read_window_recv `{Z0 : Zlib} {ZL : ZlibLaws Z0} self :
  conn_wf self -> healthy (conn self) ->
  snd (read_window self)
  = fst (recv (S (length (stream_of self))) (sc_max_frame_payload self) (caps_of self) acc0 (stream_of self)) /\
  conn_wf (fst (read_window self)) /\ healthy (conn (fst (read_window self))) /\
  caps_of (fst (read_window self)) = caps_of self /\
  (forall w, snd (read_window self) = Ok (Some w) -> stream_of (fst (read_window self))
    = snd (recv (S (length (stream_of self))) (sc_max_frame_payload self) (caps_of self) acc0 (stream_of self))).
Proof using. intros. apply read_loop_recv; auto. Qed.

(** C15: [read_window] depends only on the bytes the connection delivers. On
    every healthy connection it returns (it never runs out of reads and never
    panics) with the result of the abstract receiver on the pending bytes
    followed by the socket's bytes; two connections with the same limits whose
    bytes are the same, however they are split into reads, give the same
    result, and after a delivered window the same bytes are left for the next
    call. *)
Theorem read_window_refines_recv `{Z0 : Zlib} {ZL : ZlibLaws Z0} (self other : ServerConnection)
    (Hwf : conn_wf self) (Hh : healthy (conn self)) (Hwf' : conn_wf other) (Hh' : healthy (conn other))
    (Hcaps : caps_of other = caps_of self) (Hsame : stream_of other = stream_of self) :
  snd (read_window self) <> Panic /\
  snd (read_window self) = fst (recv (S (length (stream_of self))) (sc_max_frame_payload self)
                                  (caps_of self) acc0 (stream_of self)) /\
  snd (read_window other) = snd (read_window self) /\
  (forall w, snd (read_window self) = Ok (Some w) ->
     stream_of (fst (read_window other)) = stream_of (fst (read_window self))).
Proof using.
  destruct (read_window_recv self Hwf Hh) as (Hr & _ & _ & _ & Hl).
  destruct (read_window_recv other Hwf' Hh') as (Hr' & _ & _ & _ & Hl').
  assert (Hm : sc_max_frame_payload other = sc_max_frame_payload self)
    by exact (f_equal cap_frame Hcaps).
  rewrite Hsame, Hcaps, Hm in Hr', Hl'.
  split_and!; [|exact Hr|congruence|intros w Hw; rewrite (Hl w Hw); apply (Hl' w); congruence].
  rewrite Hr. apply recv_total. lia.
Qed.

(** A connection over [chunks] with limits [k]. *)
Definition fresh_conn (k : Caps) (chunks : list bytes) : ServerConnection :=
  mkServerConnection (mkConn (RBytes <$> chunks) [] []) (with_max_frame_payload (cap_frame k))
    (cap_frame k) (cap_events k) (cap_bytes k).

Definition caps_small : Caps := mkCaps 1000 10 1000.

Definition sample_stream : bytes :=
  encode_window 1 ++ encode_json_frame 1 ["a"%byte] ++ encode_window 0.

Lemma read_window_refines_recv_witness :
  let chunks := (fun b => [b]) <$> sample_stream in
  snd (read_window (fresh_conn caps_small chunks))
  = snd (read_window (fresh_conn caps_small [sample_stream])).
Proof.
  refine (proj1 (proj2 (proj2 (read_window_refines_recv (fresh_conn caps_small [sample_stream])
    (fresh_conn caps_small ((fun b => [b]) <$> sample_stream)) _ _ _ _ _ _)))).
  all: try (split; [split; vm_compute; discriminate|reflexivity]).
  all: try reflexivity.
  - repeat constructor; discriminate.
  - repeat constructor; discriminate.
Defined.

(** C37: A window [read_window] delivers respects the connection's limits on
    any socket, faulty or not: at most [max_window_events] events, whose
    payloads together are at most [max_window_bytes], and its [last_seq] is
    the sequence number of the last event delivered (0 when there is none),
    whatever the other sequence numbers are. *)
Theorem read_window_caps `{Z0 : Zlib} (self self' : ServerConnection) (w : EventWindow)
    (Hk : 0 <= max_window_bytes self < USIZE_MAX) (He : 0 <= max_window_events self)
    (Hr : read_window self = (self', Ok (Some w))) :
  zlen (w_events w) <= max_window_events self /\
  total_bytes (w_events w) <= max_window_bytes self /\
  w_last_seq w = default 0 (ev_seq <$> last (w_events w)).
Proof using.
  apply (read_loop_ok (caps_of self) (proj2 Hk) (S (Conn.read_budget (conn self))) self acc0
           He (proj1 Hk) eq_refl (acc0_ok (caps_of self) He (proj1 Hk)) (Some w)); [|reflexivity].
  change (snd (read_window self) = Ok (Some w)). rewrite Hr. reflexivity.
Qed.

Lemma read_window_caps_witness :
  let w := mkEventWindow [mkJsonEvent 1 ["a"%byte]] 1 in
  zlen (w_events w) <= 10 /\ total_bytes (w_events w) <= 1000 /\ w_last_seq w = 1.
Proof.
  refine (read_window_caps (fresh_conn caps_small [sample_stream])
    (fst (read_window (fresh_conn caps_small [sample_stream])))
    (mkEventWindow [mkJsonEvent 1 ["a"%byte]] 1) _ _ _).
  - vm_compute; split; [discriminate|reflexivity].
  - vm_compute; discriminate.
  - vm_compute. reflexivity.
Defined.

(** ** Client and server together *)

Lemma accept_window `{Z0 : Zlib} {ZL : ZlibLaws Z0} self base evs inner payload level q :
  conn_wf self -> healthy (conn self) -> build_inner base 0 evs = Ok inner ->
  build_window_payload level evs base = Ok payload -> fits (caps_of self) evs inner ->
  stream_of self = payload ++ q ->
  snd (read_window self) =
    Ok (Some (mkEventWindow (tagged base 0 evs) (Sequence.value (Sequence.advance base (zlen evs))))) /\
  conn_wf (fst (read_window self)) /\ stream_of (fst (read_window self)) = q.
Proof using.
  intros Hwf Hh Hin Hp Hfit Hst. destruct (read_window_recv self Hwf Hh) as (Hr & Hwf' & _ & _ & Hl).
  change (sc_max_frame_payload self) with (cap_frame (caps_of self)) in Hr, Hl. rewrite Hst in Hr, Hl.
  rewrite (recv_window (caps_of self) base evs inner payload level q) in Hr, Hl by (assumption || lia).
  cbn [fst snd] in Hr, Hl. split_and!; [exact Hr|exact Hwf'|exact (Hl _ Hr)].
Qed.

(** Reading does not write. *)
Lemma read_loop_writes `{Zlib} fuel self a :
  write_faults (conn (fst (read_loop fuel self a))) = write_faults (conn self) /\
  outgoing (conn (fst (read_loop fuel self a))) = outgoing (conn self).
Proof.
  revert self a. induction fuel as [|fuel IH]; intros self a; [auto|]. cbn [read_loop].
  destruct (drain_frames _ _ _ _) as [[d a'] [[w|]|e|]]; auto.
  assert (Hrd : write_faults (fst (Conn.read READ_CHUNK (conn self))) = write_faults (conn self) /\
                outgoing (fst (Conn.read READ_CHUNK (conn self))) = outgoing (conn self))
    by (unfold Conn.read; repeat case_match; auto).
  destruct (Conn.read READ_CHUNK (conn self)) as [c [[|b ch]| |]]; auto.
  edestruct IH as [-> ->]. exact Hrd.
Qed.

Lemma check_ack_full base count :
  is_u32 base -> is_u32 count ->
  check_ack base count (encode_ack (u32_wrapping_add base count)) = Ok count.
Proof.
  intros Hb Hc. pose proof (Sequence.u32_wrap_range (base + count)) as Hx.
  unfold check_ack, encode_ack. cbn [app u32_to_be_bytes].
  match goal with |- context [u32_from_be_bytes ?l] => change l with (u32_to_be_bytes (u32_wrapping_add base count)) end.
  rewrite u32_be_roundtrip by exact Hx. cbn [bool_decide orb].
  rewrite (proj2 (Sequence.is_exactly_acked_by_spec (Sequence.new (u32_wrapping_add base count)) (u32_wrapping_add base count) Hx Hx)) by reflexivity. reflexivity.
Qed.

(** C34: End to end. A window the client builds for [evs] after base sequence
    [base] (plain or compressed), delivered to a server whose limits it
    respects with its bytes split into arbitrary reads and followed by any
    bytes [q], comes out of [read_and_ack] as exactly those events in order,
    tagged [base + 1], [base + 2], ...; the server writes one ACK after what
    it had already sent, the client reads that ACK as full acknowledgement of
    all the events, and [q] is left for the next window. *)
Theorem window_delivered_and_acked `{Z0 : Zlib} {ZL : ZlibLaws Z0} (self : ServerConnection)
    (base : Sequence) (evs : list bytes) (inner payload : bytes) (level : Z) (q : bytes)
    (Hb : is_u32 (Sequence.value base)) (Hwf : conn_wf self) (Hh : healthy (conn self)) (Hinner : build_inner base 0 evs = Ok inner)
    (Hpayload : build_window_payload level evs base = Ok payload)
    (Hfits : fits (caps_of self) evs inner) (Hstream : stream_of self = payload ++ q)
    (Hwrites : write_faults (conn self) = []) :
  exists ack,
    snd (read_and_ack self) =
      Ok (Some (mkEventWindow (tagged base 0 evs) (Sequence.value (Sequence.advance base (zlen evs))))) /\
    outgoing (conn (fst (read_and_ack self))) = outgoing (conn self) ++ ack /\
    check_ack (Sequence.value base) (zlen evs) ack = Ok (zlen evs) /\
    stream_of (fst (read_and_ack self)) = q.
Proof using.
  destruct (accept_window self base evs inner payload level q) as (Hr & Hwf' & Hq); auto.
  destruct (read_loop_writes (S (Conn.read_budget (conn self))) self acc0) as [Hwr Hout].
  fold (read_window self) in Hwr, Hout. rewrite Hwrites in Hwr.
  exists (encode_ack (Sequence.value (Sequence.advance base (zlen evs)))).
  unfold read_and_ack, mbind, stm_bind. destruct (read_window self) as [self' r]. cbn [fst snd] in *. subst r.
  unfold send_ack, on_conn, mbind, stm_bind, Conn.write_all, Conn.flush. cbn.
  rewrite Hwr. cbn. rewrite Hout. split_and!; [reflexivity|reflexivity| |exact Hq].
  apply check_ack_full; [exact Hb|]. pose proof (fits_count _ _ _ Hfits). pose proof (zlen_nonneg evs).
  unfold is_u32. lia.
Qed.

(** Two events sent at the top of the sequence space, in three-byte reads. *)
Definition sample_events : list bytes := [["a"%byte; "b"%byte]; ["c"%byte]].

Definition sample_base : Sequence := Sequence.new 4294967295.

Definition sample_inner : bytes :=
  encode_json_frame 0 ["a"%byte; "b"%byte] ++ encode_json_frame 1 ["c"%byte].

Definition sample_payload : bytes := encode_window 2 ++ sample_inner.

Lemma window_delivered_and_acked_witness :
  exists ack, check_ack 4294967295 2 ack = Ok 2 /\
  snd (read_and_ack (fresh_conn caps_small [take 3 sample_payload; drop 3 sample_payload; ["2"%byte]]))
  = Ok (Some (mkEventWindow [mkJsonEvent 0 ["a"%byte; "b"%byte]; mkJsonEvent 1 ["c"%byte]] 1)).
Proof.
  destruct (window_delivered_and_acked
    (fresh_conn caps_small [take 3 sample_payload; drop 3 sample_payload; ["2"%byte]])
    sample_base sample_events sample_inner sample_payload 0 ["2"%byte]) as (ack & H1 & H2 & H3 & H4).
  - vm_compute. split; discriminate.
  - split; [split; vm_compute; discriminate|reflexivity].
  - repeat constructor; discriminate.
  - vm_compute. reflexivity.
  - vm_compute. reflexivity.
  - split; [discriminate|vm_compute; discriminate|vm_compute; discriminate| |vm_compute; discriminate|vm_compute; auto].
    repeat constructor; vm_compute; discriminate.
  - vm_compute. reflexivity.
  - reflexivity.
  - exists ack. split; [exact H3|exact H1].
Defined.

(** A payload starts with its window header. *)
Lemma build_window_payload_header `{Z0 : Zlib} base evs inner payload level :
  zlen evs <= U32_MAX -> build_inner base 0 evs = Ok inner -> build_window_payload level evs base = Ok payload ->
  exists body, payload = encode_window (zlen evs) ++ body.
Proof.
  intros Hc Hin Hp. destruct (build_window_payload_cases base evs inner payload level Hc Hin Hp)
    as [->|(w & _ & _ & ->)]; eauto.
Qed.

(** Fewer bytes than a header leave the receiver as it was. *)
Lemma recv_short `{Z0 : Zlib} {ZL : ZlibLaws Z0} fuel k a p cut n body :
  is_u32 n -> (length p < 6)%nat -> p ++ cut = encode_window n ++ body ->
  recv (S fuel) (cap_frame k) k a p = (at_eof a, p).
Proof using.
  intros Hn Hl Heq. cbn. pose proof (encode_window_parse (cap_frame k) n body Hn) as Hw.
  rewrite <- Heq in Hw.
  destruct (parse_frame (cap_frame k) p) as [[[f m]|]|e|] eqn:E; [exfalso| reflexivity|exfalso ..].
  - pose proof (parse_frame_progress _ _ _ _ E). unfold zlen in *. lia.
  - rewrite parse_frame_app, E in Hw by congruence. discriminate.
  - exact (parse_frame_total _ _ E).
Qed.

(** A header and something of the body start a window. *)
Lemma recv_header_prefix `{Z0 : Zlib} fuel k p cut n body :
  0 < n <= Z.min (cap_events k) U32_MAX -> (6 <= length p)%nat -> p ++ cut = encode_window n ++ body ->
  fst (recv (S fuel) (cap_frame k) k acc0 p) <> Ok None.
Proof.
  intros Hn Hl Heq. assert (Hp : p = encode_window n ++ drop 6 p).
  { rewrite <- (take_drop 6 p) at 1. f_equal. apply (f_equal (take 6)) in Heq.
    rewrite take_app_le in Heq by lia. exact Heq. }
  rewrite Hp, recv_header by exact Hn. apply recv_started. discriminate.
Qed.

(** A connection that closes inside a window is reported. If the client's
    payload is cut anywhere after the six-byte window header and before its
    end, [read_window] fails with the mid-window end-of-file error and
    delivers none of the events; if it is cut inside the header, the call
    reports a clean end of stream. *)
Theorem truncated_window_reported `{Z0 : Zlib} {ZL : ZlibLaws Z0} (self : ServerConnection)
    (base : Sequence) (evs : list bytes) (inner payload cut : bytes) (level : Z)
    (Hwf : conn_wf self) (Hh : healthy (conn self)) (Hinner : build_inner base 0 evs = Ok inner)
    (Hpayload : build_window_payload level evs base = Ok payload)
    (Hfits : fits (caps_of self) evs inner) (Hcut : cut <> []) (Hstream : stream_of self ++ cut = payload) :
  snd (read_window self) =
  if (length (stream_of self) <? 6)%nat then Ok None else Err mid_window_eof.
Proof using.
  destruct (read_window_recv self Hwf Hh) as (Hr & _). rewrite Hr.
  change (sc_max_frame_payload self) with (cap_frame (caps_of self)).
  set (p := stream_of self) in *. set (fuel := S (length (p ++ cut))).
  assert (Hfu : (length p < fuel)%nat) by (unfold fuel; rewrite length_app; lia).
  rewrite (recv_fuel (S (length p)) fuel) by lia.
  pose proof (recv_window (caps_of self) base evs inner payload level [] fuel Hinner Hpayload Hfits) as Hall.
  rewrite app_nil_r, <- Hstream in Hall. specialize (Hall ltac:(unfold fuel; lia)).
  destruct (recv_prefix (caps_of self) fuel _ acc0 p cut _ Hcut ltac:(unfold fuel; lia) Hall) as (a' & left & Hpre).
  pose proof (fits_count _ _ _ Hfits) as Hc. pose proof (zlen_nonneg evs).
  assert (Hn : 0 < zlen evs).
  { pose proof (fits_nonempty _ _ _ Hfits) as Hne. destruct evs; [contradiction|].
    rewrite zlen_cons. pose proof (zlen_nonneg evs). lia. }
  destruct (build_window_payload_header base evs inner payload level) as [body Hbody]; [lia|auto..|].
  rewrite Hbody in Hstream. destruct (Nat.ltb_spec (length p) 6) as [Hs|Hs].
  - unfold fuel. rewrite (recv_short _ _ _ p cut (zlen evs) body) by (unfold is_u32; assumption || lia). reflexivity.
  - pose proof (recv_header_prefix (length (p ++ cut)) (caps_of self) p cut (zlen evs) body ltac:(lia) Hs Hstream) as Hno.
    fold fuel in Hno. rewrite Hpre in *. cbn in *. destruct (at_eof_cases a') as [E|E]; [contradiction|exact E].
Qed.

Lemma truncated_window_reported_witness :
  snd (read_window (fresh_conn caps_small [take 20 sample_payload])) = Err mid_window_eof.
Proof.
  refine (truncated_window_reported (fresh_conn caps_small [take 20 sample_payload])
    sample_base sample_events sample_inner sample_payload (drop 20 sample_payload) 0 _ _ _ _ _ _ _).
  - split; [split; vm_compute; discriminate|reflexivity].
  - repeat constructor; discriminate.
  - vm_compute. reflexivity.
  - vm_compute. reflexivity.
  - split; [discriminate|vm_compute; discriminate|vm_compute; discriminate| |vm_compute; discriminate|vm_compute; auto].
    repeat constructor; vm_compute; discriminate.
  - discriminate.
  - vm_compute. reflexivity.
Defined.
