(* ===== verification/Digest.v ===== *)
(** * Content digests

    Model of [crates/ferro-blob-store/src/digest.rs]: the algorithms, the
    parser of the [<algo>:<hex>] wire form, its printer, and the digests of
    byte strings. The hash functions and [hex::encode] come from other crates:
    they are the parameters of class [Hashing], with the output format their
    documentation gives as [HashingLaws]. No collision resistance is assumed. *)

From S2P Require Import Prelude Str.

Local Open Scope string_scope.

(** ** Third-party parameters *)

Class Hashing := {
  sha256 : bytes -> bytes;
  sha512 : bytes -> bytes;
  hex_encode : bytes -> string;
}.

Definition is_lower_hex (c : ascii) : bool := is_ascii_digit c || in_range "a" "f" c.

(** SHA-256 gives 32 bytes, SHA-512 gives 64, and [hex::encode] writes two
    lower-case hexadecimal digits per byte. *)
Class HashingLaws (H : Hashing) := {
  sha256_len : forall b, length (sha256 b) = 32%nat;
  sha512_len : forall b, length (sha512 b) = 64%nat;
  hex_encode_len : forall b, String.length (hex_encode b) = (2 * length b)%nat;
  hex_encode_lower : forall b, str_all is_lower_hex (hex_encode b) = true;
}.

(** ** Data *)

Inductive DigestAlgo := Sha256 | Sha512.

#[export] Instance DigestAlgo_eq_dec : EqDecision DigestAlgo.
Proof. solve_decision. Defined.

Definition hex_len (a : DigestAlgo) : nat := match a with Sha256 => 64 | Sha512 => 128 end.

Definition algo_prefix (a : DigestAlgo) : string :=
  match a with Sha256 => "sha256" | Sha512 => "sha512" end.

Definition parse_prefix (s : string) : option DigestAlgo :=
  if bool_decide (s = "sha256") then Some Sha256 else
  if bool_decide (s = "sha512") then Some Sha512 else None.

Inductive DigestParseError :=
| MissingSeparator
| UnsupportedAlgo (prefix : string)
| BadLength (algo : DigestAlgo) (expected actual : nat)
| BadHex (bad : ascii).

Record Digest := mkDigest { algo : DigestAlgo; hex : string }.

#[export] Instance Digest_eq_dec : EqDecision Digest.
Proof. solve_decision. Defined.

#[export] Instance Digest_countable : Countable Digest.
Proof.
  refine (inj_countable (fun d => (bool_decide (algo d = Sha256), hex d))
    (fun p => Some (mkDigest (if p.1 then Sha256 else Sha512) p.2)) _).
  intros [[] h]; reflexivity.
Defined.

(** ** Operations *)

Module Digest.

Definition validate_hex (a : DigestAlgo) (h : string) : outcome DigestParseError unit :=
  let expected := hex_len a in
  if negb (String.length h =? expected)%nat then Err (BadLength a expected (String.length h)) else
  match str_find (fun c => negb (is_ascii_hexdigit c)) h with
  | Some bad => Err (BadHex bad)
  | None => Ok tt
  end.

Definition new (a : DigestAlgo) (h : string) : outcome DigestParseError Digest :=
  validate_hex a h ≫= fun _ => Ok (mkDigest a (to_ascii_lowercase h)).

Definition from_str (s : string) : outcome DigestParseError Digest :=
  '(prefix, h) ← ok_or (split_once ":" s) MissingSeparator;
  a ← ok_or (parse_prefix prefix) (UnsupportedAlgo prefix);
  new a h.

(** [Display]. *)
Definition to_string (d : Digest) : string := algo_prefix (algo d) ++ ":" ++ hex d.

Section Hash.
Context `{Hashing}.

Definition sha256_of (b : bytes) : Digest := mkDigest Sha256 (hex_encode (sha256 b)).
Definition sha512_of (b : bytes) : Digest := mkDigest Sha512 (hex_encode (sha512 b)).

End Hash.

(** A digest as its constructors build it: the hex body is lower-case and of
    the algorithm's length. *)
Definition valid (d : Digest) : Prop :=
  String.length (hex d) = hex_len (algo d) /\ str_all is_lower_hex (hex d) = true.

#[export] Instance valid_dec d : Decision (valid d).
Proof. unfold valid. apply _. Defined.

(** ** Lemmas *)

Lemma lower_is_lower_hex c : is_ascii_hexdigit c = true -> is_lower_hex (to_ascii_lowercase_char c) = true.
Proof.
  intros Hc. assert (H : forall c, (negb (is_ascii_hexdigit c) || is_lower_hex (to_ascii_lowercase_char c))%bool = true)
    by (apply ascii_forall; vm_compute; reflexivity).
  specialize (H c). rewrite Hc in H. exact H.
Qed.

Lemma lower_hex_char c :
  is_lower_hex c = true ->
  is_ascii_hexdigit c = true /\ to_ascii_lowercase_char c = c.
Proof.
  intros Hc. assert (H : forall c, (negb (is_lower_hex c) ||
      (is_ascii_hexdigit c && Ascii.eqb (to_ascii_lowercase_char c) c))%bool = true)
    by (apply ascii_forall; vm_compute; reflexivity).
  specialize (H c). rewrite Hc in H. cbn in H. apply andb_true_iff in H as [H1 H2].
  apply Ascii.eqb_eq in H2. auto.
Qed.

Lemma str_all_hexdigit s :
  str_find (fun c => negb (is_ascii_hexdigit c)) s = None <-> str_all is_ascii_hexdigit s = true.
Proof.
  rewrite str_find_none. split; apply str_all_impl; intros c; destruct (is_ascii_hexdigit c); auto.
Qed.

Lemma new_ok a h :
  String.length h = hex_len a -> str_all is_ascii_hexdigit h = true ->
  new a h = Ok (mkDigest a (to_ascii_lowercase h)).
Proof.
  intros Hl Hh. unfold new, validate_hex. rewrite Hl, Nat.eqb_refl. cbn.
  rewrite (proj2 (str_all_hexdigit h) Hh). reflexivity.
Qed.

Lemma new_inv a h d :
  new a h = Ok d ->
  String.length h = hex_len a /\ str_all is_ascii_hexdigit h = true /\ d = mkDigest a (to_ascii_lowercase h).
Proof.
  unfold new, validate_hex. destruct (Nat.eqb_spec (String.length h) (hex_len a)) as [Hl|]; cbn; [|discriminate].
  destruct (str_find _ h) eqn:E; cbn; [discriminate|]. intros [= <-].
  apply str_all_hexdigit in E. auto.
Qed.

Lemma new_valid a h d : new a h = Ok d -> valid d.
Proof.
  intros (Hl & Hh & ->)%new_inv. unfold valid, to_ascii_lowercase. cbn.
  rewrite length_str_map, str_all_map. split; [exact Hl|].
  revert Hh. apply str_all_impl. exact lower_is_lower_hex.
Qed.

Lemma valid_new d : valid d -> new (algo d) (hex d) = Ok d.
Proof.
  destruct d as [a h]. intros [Hl Hh]. cbn in *. rewrite new_ok; [|exact Hl|].
  - f_equal. f_equal. apply str_map_id. revert Hh. apply str_all_impl.
    intros c Hc. apply Ascii.eqb_eq, lower_hex_char, Hc.
  - revert Hh. apply str_all_impl. intros c Hc. apply lower_hex_char, Hc.
Qed.

Lemma new_total a h : new a h <> Panic.
Proof. unfold new, validate_hex. repeat case_match; discriminate. Qed.

Lemma from_str_to_string d : valid d -> from_str (to_string d) = Ok d.
Proof.
  intros Hd. unfold from_str, to_string.
  change (algo_prefix (algo d) ++ ":" ++ hex d) with (algo_prefix (algo d) ++ String ":" (hex d)).
  rewrite split_once_app by (destruct (algo d); reflexivity). cbn.
  replace (parse_prefix (algo_prefix (algo d))) with (Some (algo d)) by (destruct (algo d); reflexivity).
  apply valid_new, Hd.
Qed.

(** What the parser accepts. *)
Lemma from_str_inv s d :
  from_str s = Ok d <->
  exists h, s = algo_prefix (algo d) ++ String ":" h /\ String.length h = hex_len (algo d) /\
    str_all is_ascii_hexdigit h = true /\ hex d = to_ascii_lowercase h.
Proof.
  unfold from_str. split.
  - destruct (split_once ":" s) as [[p h]|] eqn:Es; cbn; [|discriminate].
    destruct (parse_prefix p) as [a|] eqn:Ep; cbn; [|discriminate].
    intros (Hl & Hh & ->)%new_inv. apply split_once_spec in Es as [-> _]. exists h. cbn.
    assert (p = algo_prefix a) as ->; [|auto].
    unfold parse_prefix in Ep. repeat case_bool_decide; simplify_eq/=; reflexivity.
  - intros (h & -> & Hl & Hh & Hx). rewrite split_once_app by (destruct (algo d); reflexivity). cbn.
    replace (parse_prefix (algo_prefix (algo d))) with (Some (algo d)) by (destruct (algo d); reflexivity).
    cbn. rewrite new_ok by assumption. rewrite <- Hx. destruct d; reflexivity.
Qed.

Lemma from_str_valid s d : from_str s = Ok d -> valid d.
Proof.
  unfold from_str. destruct (split_once ":" s) as [[p h]|]; cbn; [|discriminate].
  destruct (parse_prefix p); cbn; [|discriminate]. apply new_valid.
Qed.

Lemma from_str_total s : from_str s <> Panic.
Proof.
  unfold from_str. destruct (split_once ":" s) as [[p h]|]; cbn; [|discriminate].
  destruct (parse_prefix p); cbn; [apply new_total|discriminate].
Qed.

Lemma to_string_inj d e : to_string d = to_string e -> d = e.
Proof.
  unfold to_string. destruct d as [[] h], e as [[] h']; cbn; intros Heq; simplify_eq; reflexivity.
Qed.

Section Hash_facts.
Context `{H : Hashing} {HL : HashingLaws H}.

Lemma sha256_of_valid b : valid (sha256_of b).
Proof using HL. split; cbn; [rewrite hex_encode_len, sha256_len; reflexivity|apply hex_encode_lower]. Qed.

Lemma sha512_of_valid b : valid (sha512_of b).
Proof using HL. split; cbn; [rewrite hex_encode_len, sha512_len; reflexivity|apply hex_encode_lower]. Qed.

End Hash_facts.

End Digest.

(** ** A concrete hash for the witnesses *)

Definition hex_digit (n : Z) : ascii :=
  ascii_of_N (Z.to_N (if n <? 10 then 48 + n else 87 + n)%Z).

Fixpoint toy_hex (b : bytes) : string :=
  match b with
  | [] => ""
  | x :: b => String (hex_digit (byte_Z x / 16)) (String (hex_digit (byte_Z x mod 16)) (toy_hex b))
  end.

(** The message itself, padded or cut to the output size. *)
Definition toy_hash (n : nat) (b : bytes) : bytes := take n (b ++ replicate n x00).

#[export] Instance toy_hashing : Hashing :=
  { sha256 := toy_hash 32; sha512 := toy_hash 64; hex_encode := toy_hex }.

Lemma hex_digit_lower n : (0 <= n < 16)%Z -> is_lower_hex (hex_digit n) = true.
Proof.
  intros Hn. assert (H : forallb (fun k => is_lower_hex (hex_digit (Z.of_nat k))) (seq 0 16) = true) by reflexivity.
  rewrite forallb_forall in H. specialize (H (Z.to_nat n)). rewrite Z2Nat.id in H by lia.
  apply H, in_seq. lia.
Qed.

#[export] Instance toy_hashing_laws : HashingLaws toy_hashing.
Proof.
  split; cbn.
  - intros b. unfold toy_hash. rewrite length_take, length_app, length_replicate. lia.
  - intros b. unfold toy_hash. rewrite length_take, length_app, length_replicate. lia.
  - intros b. induction b as [|x b IH]; cbn; [reflexivity|]. rewrite IH. lia.
  - intros b. induction b as [|x b IH]; cbn; [reflexivity|]. pose proof (byte_Z_range x).
    rewrite !hex_digit_lower, IH; [reflexivity|..].
    + apply Z.mod_pos_bound. lia.
    + split; [apply Z.div_pos; lia|]. apply Z.div_lt_upper_bound; lia.
Defined.

(** ** Properties *)

(** The digest parser accepts exactly [sha256:] or [sha512:] followed by
    64 or 128 hexadecimal digits of either case, carries the digits in lower
    case, and never panics; printing a parsed digest and parsing it again gives
    the same digest, and a string that parses to [d] is [d]'s printed form up
    to letter case. *)
Theorem digest_parse_exact (s : string) (d : Digest) :
  Digest.from_str s <> Panic /\
  (Digest.from_str s = Ok d <->
   exists h, s = algo_prefix (algo d) ++ ":" ++ h /\ String.length h = hex_len (algo d) /\
     str_all is_ascii_hexdigit h = true /\ hex d = to_ascii_lowercase h) /\
  (Digest.from_str s = Ok d ->
   Digest.from_str (Digest.to_string d) = Ok d /\ to_ascii_lowercase s = Digest.to_string d).
Proof.
  split_and!; [apply Digest.from_str_total|exact (Digest.from_str_inv s d)|]. intros Hd. split.
  - apply Digest.from_str_to_string. eapply Digest.from_str_valid, Hd.
  - apply Digest.from_str_inv in Hd as (h & -> & _ & _ & Hx). unfold Digest.to_string. rewrite Hx.
    destruct (algo d); reflexivity.
Qed.

Lemma digest_parse_exact_witness :
  let d := mkDigest Sha256 "00000000000000000000000000000000000000000000000000000000000000ab" in
  Digest.from_str (Digest.to_string d) = Ok d.
Proof.
  refine (proj1 (proj2 (proj2 (digest_parse_exact
    "sha256:00000000000000000000000000000000000000000000000000000000000000AB"
    (mkDigest Sha256 "00000000000000000000000000000000000000000000000000000000000000ab"))) _)).
  vm_compute. reflexivity.
Defined.
