(* ===== verification/Fs.v ===== *)
(** * The file system

    The part of [std::fs] / [tokio::fs] the crates use, over a tree of
    directories and files. Every call consumes one entry of a fault script:
    [None] lets it run, a fault makes it fail with an error of the operating
    system's (never "not found"), possibly after part of its work: the first
    directories of a [create_dir_all], the first bytes of a [write]. A rename
    is atomic, as POSIX has it. The second part is the view of a process that
    writes a durable file. *)

From S2P Require Import Prelude Str Frame Net.

Abbreviation path := (list string).

Inductive node := Dir | File (content : bytes).

#[export] Instance node_eq_dec : EqDecision node.
Proof. solve_decision. Defined.

Record fault := mkFault { partial : option nat; fault_code : Z; fault_msg : string }.

Abbreviation tree := (gmap path node).

Record Fs := mkFs { files : tree; faults : list (option fault) }.

Module Fs.

(** [ErrorKind] of an error number; [EINVAL] is "invalid input". *)
Definition fault_error (f : fault) : io_error :=
  mkIoError (if Z.eqb (fault_code f) 22 then KInvalidInput else KOther (fault_code f)) (fault_msg f).

Definition not_found : io_error := mkIoError KNotFound "No such file or directory".
Definition not_a_directory : io_error := mkIoError (KOther 20) "Not a directory".
Definition is_a_directory : io_error := mkIoError (KOther 21) "Is a directory".
Definition already_exists : io_error := mkIoError KAlreadyExists "File exists".

(** One system call: [f] sees the fault, if any, and the tree. *)
Definition syscall {A} (f : option fault -> tree -> tree * outcome io_error A) : stm Fs io_error A := fun s =>
  match faults s with
  | [] => let '(t, r) := f None (files s) in (mkFs t [], r)
  | x :: xs => let '(t, r) := f x (files s) in (mkFs t xs, r)
  end.

Definition parent (p : path) : path := take (pred (length p)) p.

Definition is_dir_in (t : tree) (p : path) : bool := bool_decide (p = [] \/ t !! p = Some Dir).

(** The error of looking up a missing path: an ancestor that is a file gives
    [ENOTDIR]. *)
Definition missing (t : tree) (p : path) : io_error :=
  if existsb (fun k => match t !! take k p with Some (File _) => true | _ => false end) (seq 0 (length p))
  then not_a_directory else not_found.

(** Create the missing directories among the first [n] ancestors, shortest
    first. *)
Fixpoint make_dirs (p : path) (n : nat) (t : tree) : tree * outcome io_error unit :=
  match n with
  | O => (t, Ok tt)
  | S k =>
    match make_dirs p k t with
    | (t, Ok _) =>
      match t !! take n p with
      | Some Dir => (t, Ok tt)
      | Some (File _) => (t, Err not_a_directory)
      | None => (<[take n p := Dir]> t, Ok tt)
      end
    | (t, r) => (t, r)
    end
  end.

Definition create_dir_all (p : path) : stm Fs io_error unit := syscall (fun x t =>
  match x with
  | Some f => (fst (make_dirs p (min (default 0 (partial f)) (pred (length p))) t), Err (fault_error f))
  | None => make_dirs p (length p) t
  end).

(** Whether a file can be created or overwritten at [p]. *)
Definition can_write (t : tree) (p : path) : outcome io_error unit :=
  if negb (is_dir_in t (parent p)) then Err (missing t p) else
  if is_dir_in t p then Err is_a_directory else Ok tt.

(** [fs::write]: open (create or truncate), then write. *)
Definition write (p : path) (b : bytes) : stm Fs io_error unit := syscall (fun x t =>
  match can_write t p with
  | Ok _ =>
    match x with
    | None => (<[p := File b]> t, Ok tt)
    | Some f =>
      match partial f with
      | Some k => (<[p := File (take k b)]> t, Err (fault_error f))
      | None => (t, Err (fault_error f))
      end
    end
  | r => (t, r)
  end).

(** [OpenOptions::new().write(true).create_new(true).open(p)]: an empty new
    file. *)
Definition create_new (p : path) : stm Fs io_error unit := syscall (fun x t =>
  match x with
  | Some f => (t, Err (fault_error f))
  | None =>
    match can_write t p with
    | Ok _ =>
      match t !! p with
      | Some _ => (t, Err already_exists)
      | None => (<[p := File []]> t, Ok tt)
      end
    | r => (t, r)
    end
  end).

(** [write_all] on the file just created at [p]. *)
Definition write_all (p : path) (b : bytes) : stm Fs io_error unit := syscall (fun x t =>
  match x with
  | None => (<[p := File b]> t, Ok tt)
  | Some f => (<[p := File (take (default 0 (partial f)) b)]> t, Err (fault_error f))
  end).

(** [sync_all]: no visible effect. *)
Definition sync_all : stm Fs io_error unit := syscall (fun x t =>
  match x with Some f => (t, Err (fault_error f)) | None => (t, Ok tt) end).

(** [File::open] of a directory. *)
Definition open_dir (p : path) : stm Fs io_error unit := syscall (fun x t =>
  match x with
  | Some f => (t, Err (fault_error f))
  | None => (t, if is_dir_in t p then Ok tt else Err (missing t p))
  end).

(** [fs::rename] of a file. *)
Definition rename (a b : path) : stm Fs io_error unit := syscall (fun x t =>
  match x with
  | Some f => (t, Err (fault_error f))
  | None =>
    match t !! a with
    | Some (File c) =>
      match can_write t b with
      | Ok _ => (<[b := File c]> (delete a t), Ok tt)
      | r => (t, r)
      end
    | Some Dir => (t, Err is_a_directory)
    | None => (t, Err (missing t a))
    end
  end).

Definition remove_file (p : path) : stm Fs io_error unit := syscall (fun x t =>
  match x with
  | Some f => (t, Err (fault_error f))
  | None =>
    match t !! p with
    | Some (File _) => (delete p t, Ok tt)
    | Some Dir => (t, Err is_a_directory)
    | None => (t, Err (missing t p))
    end
  end).

Definition read (p : path) : stm Fs io_error bytes := syscall (fun x t =>
  match x with
  | Some f => (t, Err (fault_error f))
  | None =>
    match t !! p with
    | Some (File b) => (t, Ok b)
    | Some Dir => (t, Err is_a_directory)
    | None => (t, Err (missing t p))
    end
  end).

Definition metadata (p : path) : stm Fs io_error node := syscall (fun x t =>
  match x with
  | Some f => (t, Err (fault_error f))
  | None => (t, match t !! p with Some n => Ok n | None => if decide (p = []) then Ok Dir else Err (missing t p) end)
  end).

(** [Path::is_file], [is_dir], [exists]: [false] when the metadata call fails. *)
Definition test_path (f : node -> bool) (p : path) : stm Fs io_error bool := fun s =>
  match metadata p s with
  | (s, Ok n) => (s, Ok (f n))
  | (s, Err _) => (s, Ok false)
  | (s, Panic) => (s, Panic)
  end.
Definition is_file : path -> stm Fs io_error bool :=
  test_path (fun n => match n with File _ => true | Dir => false end).
Definition is_dir : path -> stm Fs io_error bool :=
  test_path (fun n => match n with Dir => true | File _ => false end).
Definition exists_ : path -> stm Fs io_error bool := test_path (fun _ => true).

(** The names in directory [p], in order. *)
Definition children (t : tree) (p : path) : list string :=
  merge_sort str_le (omap (fun '(q, _) => if decide (q <> [] /\ parent q = p) then last q else None) (map_to_list t)).

(** [read_dir]. The system returns the entries in an order of its own; here it is
    that of the names, so that a listing depends on the directory alone. *)
Definition read_dir (p : path) : stm Fs io_error (list string) := syscall (fun x t =>
  match x with
  | Some f => (t, Err (fault_error f))
  | None => (t, if is_dir_in t p then Ok (children t p) else Err (missing t p))
  end).

(** [next_entry]: takes the next name or fails. *)
Definition next_entry (names : list string) : stm Fs io_error (option (string * list string)) := syscall (fun x t =>
  match x with
  | Some f => (t, Err (fault_error f))
  | None => (t, Ok (match names with [] => None | n :: ns => Some (n, ns) end))
  end).

(** ** Lemmas *)

Lemma make_dirs_total p n t : snd (make_dirs p n t) <> Panic.
Proof.
  induction n as [|k IH]; [discriminate|]. cbn [make_dirs].
  destruct (make_dirs p k t) as [t' [| |]]; cbn in *; try congruence. repeat case_match; discriminate.
Qed.

(** Making directories only adds directories, at ancestors. *)
Lemma make_dirs_lookup p n t q :
  (n <= length p)%nat ->
  fst (make_dirs p n t) !! q = t !! q \/
  (fst (make_dirs p n t) !! q = Some Dir /\ t !! q = None /\ exists k, (1 <= k <= n)%nat /\ q = take k p).
Proof.
  intros Hn. induction n as [|k IH]; [left; reflexivity|]. cbn [make_dirs].
  specialize (IH ltac:(lia)).
  assert (Hweak : (fst (make_dirs p k t) !! q = t !! q \/
    (fst (make_dirs p k t) !! q = Some Dir /\ t !! q = None /\ exists j, (1 <= j <= S k)%nat /\ q = take j p))).
  { destruct IH as [?|(? & ? & j & ? & ?)]; [auto|]. right. split_and!; try assumption. exists j. split; [lia|assumption]. }
  destruct (make_dirs p k t) as [t' [| |]]; cbn [fst] in *; [|exact Hweak ..].
  destruct (t' !! take (S k) p) as [[|]|] eqn:E; [exact Hweak ..|]. cbn [fst].
  destruct (decide (q = take (S k) p)) as [->|Hq].
  - rewrite lookup_insert_eq. right. rewrite E in IH.
    destruct IH as [IH|(IH & _)]; [|discriminate]. split_and!; [reflexivity|congruence|].
    exists (S k). split; [lia|reflexivity].
  - rewrite lookup_insert_ne by congruence. exact Hweak.
Qed.

(** When no ancestor is a file, all of them become directories. *)
Lemma make_dirs_ok p n t :
  (n <= length p)%nat -> (forall k c, (1 <= k <= n)%nat -> t !! take k p <> Some (File c)) ->
  snd (make_dirs p n t) = Ok tt /\
  forall k, (1 <= k <= n)%nat -> fst (make_dirs p n t) !! take k p = Some Dir.
Proof.
  intros Hn. induction n as [|j IH]; intros Hf; [split; [reflexivity|lia]|].
  cbn [make_dirs]. destruct IH as [Hok Hd]; [lia|intros; apply Hf; lia|].
  pose proof (make_dirs_lookup p j t (take (S j) p) ltac:(lia)) as Hl.
  destruct (make_dirs p j t) as [t' r]; cbn [fst snd] in *. subst r.
  destruct (t' !! take (S j) p) as [[|c]|] eqn:E.
  - split; [reflexivity|]. intros k Hk. destruct (decide (k = S j)) as [->|]; [exact E|apply Hd; lia].
  - exfalso. destruct Hl as [Hl|[Hl _]]; [|discriminate].
    exact (Hf (S j) c ltac:(lia) (eq_sym Hl)).
  - cbn. split; [reflexivity|]. intros k Hk. destruct (decide (take k p = take (S j) p)) as [Heq|Hne].
    + rewrite Heq, lookup_insert_eq. reflexivity.
    + rewrite lookup_insert_ne by congruence. apply Hd.
      destruct (decide (k = S j)) as [->|]; [contradiction|lia].
Qed.

(** One call, by the head of the script. *)
Definition next_fault (s : Fs) : option fault := match faults s with x :: _ => x | [] => None end.

Lemma syscall_run {A} (f : option fault -> tree -> tree * outcome io_error A) s :
  syscall f s = (mkFs (fst (f (next_fault s) (files s))) (tail (faults s)), snd (f (next_fault s) (files s))).
Proof.
  unfold syscall, next_fault. destruct (faults s) as [|x xs]; cbn; destruct (f _ (files s)); reflexivity.
Qed.

(** No fault ahead. *)
Definition quiet (s : Fs) : Prop := Forall (fun x => x = None) (faults s).

Lemma quiet_next s : quiet s -> next_fault s = None.
Proof. unfold quiet, next_fault. destruct (faults s); [reflexivity|]. intros H. apply Forall_inv in H. exact H. Qed.

Lemma quiet_tail t s : quiet s -> quiet (mkFs t (tail (faults s))).
Proof. unfold quiet. destruct (faults s); [auto|]. apply Forall_inv_tail. Qed.

(** Every entry lies in a directory. *)
Definition closed (t : tree) : Prop := forall q n, t !! q = Some n -> is_dir_in t (parent q) = true.

Lemma is_dir_in_spec t p : is_dir_in t p = true <-> p = [] \/ t !! p = Some Dir.
Proof. unfold is_dir_in. apply bool_decide_eq_true. Qed.

Lemma parent_snoc p x : parent (p ++ [x]) = p.
Proof. unfold parent. rewrite length_app. cbn. rewrite Nat.add_comm. cbn. apply take_app_length. Qed.

Lemma parent_take p k : (k < length p)%nat -> parent (take (S k) p) = take k p.
Proof. intros Hk. unfold parent. rewrite length_take, Nat.min_l by lia. cbn. rewrite take_take. f_equal. lia. Qed.

Lemma is_dir_in_insert t q n p :
  is_dir_in t p = true -> is_dir_in t q = false \/ n = Dir -> is_dir_in (<[q := n]> t) p = true.
Proof.
  rewrite is_dir_in_spec. intros Hp Hq. apply is_dir_in_spec. destruct Hp as [|Hp]; [auto|right].
  destruct (decide (q = p)) as [->|Hne]; [|rewrite lookup_insert_ne; assumption].
  rewrite lookup_insert_eq. destruct Hq as [Hq| ->]; [|reflexivity].
  apply not_true_iff_false in Hq. rewrite is_dir_in_spec in Hq. tauto.
Qed.

Lemma closed_insert t q n :
  closed t -> is_dir_in t (parent q) = true -> is_dir_in t q = false \/ n = Dir -> closed (<[q := n]> t).
Proof.
  intros Hc Hp Hq p m Hm. apply is_dir_in_insert; [|exact Hq].
  apply lookup_insert_Some in Hm as [[-> ->]|[_ Hm]]; [exact Hp|exact (Hc p m Hm)].
Qed.

Lemma closed_delete t q c : closed t -> t !! q = Some (File c) -> closed (delete q t).
Proof.
  intros Hc Hq p n Hn. apply lookup_delete_Some in Hn as [_ Hn]. specialize (Hc p n Hn).
  apply is_dir_in_spec in Hc. apply is_dir_in_spec. destruct Hc as [|Hc]; [auto|right].
  rewrite lookup_delete_ne; [exact Hc|]. intros Heq. rewrite Heq in Hq. congruence.
Qed.

Lemma make_dirs_closed p n t : (n <= length p)%nat -> closed t ->
  closed (fst (make_dirs p n t)) /\
  (forall u, snd (make_dirs p n t) = Ok u -> is_dir_in (fst (make_dirs p n t)) (take n p) = true).
Proof.
  intros Hn Hc. induction n as [|k IH]; [split; [exact Hc|intros; reflexivity]|].
  destruct (IH ltac:(lia)) as [Hck Hdk]. cbn [make_dirs].
  destruct (make_dirs p k t) as [t' [u| |]]; cbn [fst snd] in *; [|split; [exact Hck|discriminate] ..].
  specialize (Hdk u eq_refl).
  destruct (t' !! take (S k) p) as [[|c]|] eqn:E; cbn [fst snd].
  - split; [exact Hck|]. intros _ _. apply is_dir_in_spec. auto.
  - split; [exact Hck|discriminate].
  - split; [apply closed_insert; [exact Hck| |auto]|].
    + rewrite parent_take by lia. exact Hdk.
    + intros _ _. apply is_dir_in_spec. right. apply lookup_insert_eq.
Qed.

Lemma can_write_spec t p u :
  can_write t p = Ok u -> is_dir_in t (parent p) = true /\ is_dir_in t p = false.
Proof.
  unfold can_write. destruct (is_dir_in t (parent p)); cbn; [|discriminate].
  destruct (is_dir_in t p); [discriminate|auto].
Qed.

Lemma can_write_ok t p :
  is_dir_in t (parent p) = true -> is_dir_in t p = false -> can_write t p = Ok tt.
Proof. intros H1 H2. unfold can_write. rewrite H1, H2. reflexivity. Qed.

Lemma can_write_total t p : can_write t p <> Panic.
Proof. unfold can_write. repeat case_match; discriminate. Qed.

(** In a closed tree a missing entry is "not found" unless an ancestor is a
    file. *)
Lemma missing_not_found t p :
  (forall k c, (k < length p)%nat -> t !! take k p <> Some (File c)) -> missing t p = not_found.
Proof.
  intros Hf. unfold missing. destruct (existsb _ _) eqn:E; [|reflexivity].
  apply existsb_exists in E as (k & Hk & Hx). apply in_seq in Hk.
  destruct (t !! take k p) as [[|c]|] eqn:El; try discriminate. destruct (Hf k c ltac:(lia) El).
Qed.

Lemma elem_of_children t p x : x ∈ children t p <-> exists n, t !! (p ++ [x]) = Some n.
Proof.
  unfold children. rewrite merge_sort_Permutation, list_elem_of_omap. split.
  - intros ([q n] & Hin & Hx). apply elem_of_map_to_list in Hin. case_decide as Hd; [|discriminate].
    destruct Hd as [Hq <-]. exists n. destruct (exists_last Hq) as (q' & y & ->).
    rewrite parent_snoc. rewrite last_snoc in Hx. injection Hx as ->. exact Hin.
  - intros (n & Hn). exists (p ++ [x], n). split; [apply elem_of_map_to_list, Hn|].
    rewrite decide_True, last_snoc; [reflexivity|].
    split; [destruct p; discriminate|apply parent_snoc].
Qed.

Lemma NoDup_children t p : NoDup (children t p).
Proof.
  unfold children. rewrite merge_sort_Permutation. pose proof (NoDup_fst_map_to_list t) as Hnd.
  induction (map_to_list t) as [|[q n] l IH]; cbn in *; [constructor|].
  apply NoDup_cons in Hnd as [Hq Hnd]. specialize (IH Hnd).
  case_decide as Hd; [|exact IH]. destruct Hd as [Hne Hp].
  destruct (exists_last Hne) as (q' & y & ->). rewrite last_snoc. constructor; [|exact IH].
  intros Hy. apply list_elem_of_omap in Hy as ([q2 n2] & Hin & Hx). case_decide as Hd; [|discriminate].
  destruct Hd as [Hne2 Hp2]. destruct (exists_last Hne2) as (q2' & y2 & ->). rewrite last_snoc in Hx.
  injection Hx as ->. rewrite parent_snoc in *. subst. apply Hq, list_elem_of_fmap. eexists (_, _). split; [|exact Hin]. reflexivity.
Qed.

(** A listing depends on which entries of the directory there are. *)
Lemma children_agree t u p : (forall x, t !! (p ++ [x]) = u !! (p ++ [x])) -> children t p = children u p.
Proof.
  intros Heq. apply (StronglySorted_unique str_le); [apply StronglySorted_merge_sort; apply _..|].
  apply NoDup_Permutation; [apply NoDup_children..|]. intros x. rewrite !elem_of_children, Heq. reflexivity.
Qed.

End Fs.

(** ** The process's files

    A file system with the counter a process draws temporary file names from
    and its process id: the world the durable snapshots of the servers are
    written to. The lemmas say what each call leaves alone. *)

Local Open Scope Z_scope.

Record World := mkWorld { w_fs : Fs; tmp_counter : Z; w_pid : Z }.

Definition on_world {A} (m : stm Fs io_error A) : stm World io_error A := fun w =>
  let '(f, r) := m (w_fs w) in (mkWorld f (tmp_counter w) (w_pid w), r).

(** The call's result as a value, for code that inspects the error. *)
Definition try_world {A} (m : stm Fs io_error A) : stm World io_error (outcome io_error A) := fun w =>
  let '(f, r) := m (w_fs w) in (mkWorld f (tmp_counter w) (w_pid w), Ok r).

Definition next_tmp_counter : stm World io_error Z := fun w =>
  (mkWorld (w_fs w) (Z.modulo (tmp_counter w + 1) (U64_MAX + 1)) (w_pid w), Ok (tmp_counter w)).

(** ** Lemmas *)

Definition disk_of (w : World) : tree := files (w_fs w).

(** Each call leaves every other path alone. *)
Ltac frame_tac :=
  rewrite Fs.syscall_run; cbn; repeat case_match; cbn;
  rewrite ?lookup_insert_ne, ?lookup_delete_ne by congruence; reflexivity.

Lemma create_new_frame p s q : q <> p -> files (fst (Fs.create_new p s)) !! q = files s !! q.
Proof. intros Hq. unfold Fs.create_new. frame_tac. Qed.

Lemma write_all_frame p b s q : q <> p -> files (fst (Fs.write_all p b s)) !! q = files s !! q.
Proof. intros Hq. unfold Fs.write_all. frame_tac. Qed.

Lemma remove_file_frame p s q : q <> p -> files (fst (Fs.remove_file p s)) !! q = files s !! q.
Proof. intros Hq. unfold Fs.remove_file. frame_tac. Qed.

Lemma sync_all_files s : files (fst (Fs.sync_all s)) = files s.
Proof. unfold Fs.sync_all. rewrite Fs.syscall_run. cbn. case_match; reflexivity. Qed.

Lemma open_dir_files p s : files (fst (Fs.open_dir p s)) = files s.
Proof. unfold Fs.open_dir. rewrite Fs.syscall_run. cbn. case_match; reflexivity. Qed.

Lemma write_all_ok p b s s' u : Fs.write_all p b s = (s', Ok u) -> files s' !! p = Some (File b).
Proof.
  unfold Fs.write_all. rewrite Fs.syscall_run. cbn. case_match; cbn; [discriminate|]. intros [= <-]. apply lookup_insert_eq.
Qed.

(** A rename that succeeds moves the content; one that fails changes nothing. *)
Lemma rename_result a b c s s' o :
  files s !! a = Some (File c) -> Fs.rename a b s = (s', o) ->
  (o = Ok tt /\ files s' !! b = Some (File c)) \/ (exists e, o = Err e /\ files s' = files s).
Proof.
  intros Ha. unfold Fs.rename. rewrite Fs.syscall_run. intros [= <- <-]. rewrite Ha.
  destruct (Fs.next_fault s); cbn; [right; eauto|].
  destruct (Fs.can_write (files s) b) as [[]|e|] eqn:E; cbn; [left|right; eauto|destruct (Fs.can_write_total _ _ E)].
  split; [reflexivity|apply lookup_insert_eq].
Qed.

(** Writing and syncing the temporary file. *)
Lemma write_sync_result tmp b s s' o :
  (Fs.write_all tmp b ;; Fs.sync_all) s = (s', o) ->
  (forall q, q <> tmp -> files s' !! q = files s !! q) /\ o <> Panic /\
  (o = Ok tt -> files s' !! tmp = Some (File b)).
Proof.
  unfold mbind, stm_bind. pose proof (write_all_frame tmp b s) as Hf. pose proof (write_all_ok tmp b s) as Hok.
  assert (Hp : snd (Fs.write_all tmp b s) <> Panic) by (unfold Fs.write_all; rewrite Fs.syscall_run; cbn; case_match; discriminate).
  destruct (Fs.write_all tmp b s) as [s1 [[]|e|]]; cbn in *; [|intros [= <- <-]; split_and!; [exact Hf|discriminate|discriminate]|contradiction].
  pose proof (sync_all_files s1) as Hs. assert (Hp2 : snd (Fs.sync_all s1) <> Panic)
    by (unfold Fs.sync_all; rewrite Fs.syscall_run; cbn; case_match; discriminate).
  destruct (Fs.sync_all s1) as [s2 o2]. cbn in *. intros [= <- <-]. rewrite Hs. split_and!; [exact Hf|exact Hp2|].
  intros _. eapply Hok. reflexivity.
Qed.
