(* ===== verification/Json.v ===== *)
(** * JSON values and the derived codecs

    What the crates use of [serde] and [serde_json]. [Value] is a JSON
    document: [serde_json::Value] with its object fields in the order they are
    iterated, a number kept as its text. Reading and writing text belongs to
    [serde_json] and is the class [JsonText], with the behaviour relied on as
    [JsonTextLaws] and a concrete instance at the end. What
    [#[derive(Serialize, Deserialize)]] generates is written out from the
    attributes with the combinators below: a struct is read from an object
    (unknown keys ignored, a repeated known key an error) or, as the derived
    visitor also allows, from an array in field order; a missing field takes
    its default or is an error. Error texts are left out. *)

From S2P Require Import Prelude Str.

Local Open Scope string_scope.
#[local] Set Warnings "-register-all".

(** ** JSON values *)

Inductive Value :=
| JNull
| JBool (b : bool)
| JNumber (text : string)
| JString (s : string)
| JArray (l : list Value)
| JObject (fields : list (string * Value)).

Module Value.

(** [Value::get(key)]: [None] unless the value is an object with that key. *)
Definition get (key : string) (v : Value) : option Value :=
  match v with
  | JObject fields => snd <$> find (fun '(k, _) => bool_decide (k = key)) fields
  | _ => None
  end.

Definition as_str (v : Value) : option string := match v with JString s => Some s | _ => None end.
Definition as_array (v : Value) : option (list Value) := match v with JArray l => Some l | _ => None end.
Definition as_object (v : Value) : option (list (string * Value)) := match v with JObject f => Some f | _ => None end.

End Value.

Section Value_induction.
Context (P : Value -> Prop).
Hypothesis Hnull : P JNull.
Hypothesis Hbool : forall b, P (JBool b).
Hypothesis Hnumber : forall s, P (JNumber s).
Hypothesis Hstring : forall s, P (JString s).
Hypothesis Harray : forall l, Forall P l -> P (JArray l).
Hypothesis Hobject : forall fs, Forall (fun f => P (snd f)) fs -> P (JObject fs).

Fixpoint Value_ind_nested (v : Value) : P v :=
  match v with
  | JNull => Hnull
  | JBool b => Hbool b
  | JNumber s => Hnumber s
  | JString s => Hstring s
  | JArray l => Harray l ((fix go l : Forall P l :=
      match l with [] => Forall_nil_2 _ | x :: l => Forall_cons_2 _ _ _ (Value_ind_nested x) (go l) end) l)
  | JObject fs => Hobject fs ((fix go fs : Forall (fun f => P (snd f)) fs :=
      match fs with [] => Forall_nil_2 _ | f :: fs => Forall_cons_2 _ _ _ (Value_ind_nested (snd f)) (go fs) end) fs)
  end.
End Value_induction.

(** ** From a document to a [Value]: keys in order, the last duplicate wins *)

Fixpoint insert_field {A} (k : string) (v : A) (fs : list (string * A)) : list (string * A) :=
  match fs with
  | [] => [(k, v)]
  | (k', v') :: r =>
    match String.compare k k' with
    | Lt => (k, v) :: fs
    | Eq => (k, v) :: r
    | Gt => (k', v') :: insert_field k v r
    end
  end.

Definition sort_fields {A} (fs : list (string * A)) : list (string * A) :=
  fold_left (fun acc f => insert_field (fst f) (snd f) acc) fs [].

Fixpoint value_of (t : Value) : Value :=
  match t with
  | JArray l => JArray (map value_of l)
  | JObject fs => JObject (sort_fields (map (fun f => (fst f, value_of (snd f))) fs))
  | _ => t
  end.

(** ** Text *)

(** The text of a [u64], as [serde_json] prints it. *)
Definition is_u64_text (s : string) : bool :=
  match parse_u64 s with Some n => bool_decide (display_u64 n = s) | None => false end.

(** Documents [serde_json] reads back as they were written: nested at most
    [n] deep, all numbers unsigned integers. *)
Fixpoint printable (n : nat) (v : Value) : bool :=
  match n with
  | O => false
  | S n =>
    match v with
    | JNumber s => is_u64_text s
    | JArray l => forallb (printable n) l
    | JObject fs => forallb (fun f => printable n (snd f)) fs
    | _ => true
    end
  end.

(** [serde_json]'s recursion limit. *)
Definition JSON_DEPTH : nat := 128.

Definition bytes_of_string (s : string) : bytes := String.list_byte_of_string s.
Definition string_of_bytes (b : bytes) : string := String.string_of_list_byte b.

Class JsonText := {
  json_read : bytes -> option Value;         (** the reader of [from_slice] and [from_str] *)
  json_write : Value -> option string;       (** [to_string] and [to_vec] *)
  json_write_pretty : Value -> option string; (** [to_vec_pretty] *)
}.

(** A printable document is written and read back; the compact form is one
    line that is not blank. *)
Class JsonTextLaws (J : JsonText) := {
  json_write_ok : forall v, printable JSON_DEPTH v = true ->
    exists s, json_write v = Some s /\ json_read (bytes_of_string s) = Some v;
  json_write_pretty_ok : forall v, printable JSON_DEPTH v = true ->
    exists s, json_write_pretty v = Some s /\ json_read (bytes_of_string s) = Some v;
  json_write_line : forall v s, json_write v = Some s ->
    str_all (fun c => negb (Ascii.eqb c "010" || Ascii.eqb c "013")) s = true /\ is_blank s = false;
}.

(** ** Deserializers *)

Abbreviation de A := (Value -> option A).

Definition de_string : de string := Value.as_str.
Definition de_bool : de bool := fun v => match v with JBool b => Some b | _ => None end.

(** An unsigned integer up to [limit]. *)
Definition de_uint (limit : Z) : de Z := fun v =>
  match v with
  | JNumber (String c s) =>
    if is_ascii_digit c
    then n ← parse_u64 (String c s); if Z.leb n limit then Some n else None
    else None
  | _ => None
  end.

Definition de_option {A} (d : de A) : de (option A) := fun v =>
  match v with JNull => Some None | _ => Some <$> d v end.

Definition de_vec {A} (d : de A) : de (list A) := fun v =>
  match v with JArray l => mapM d l | _ => None end.

(** A map: a repeated key overwrites. *)
Definition de_map {A} (d : de A) : de (gmap string A) := fun v =>
  match v with
  | JObject fs => m ← mapM (fun f => x ← d (snd f); Some (fst f, x)) fs; Some (list_to_map (reverse m))
  | _ => None
  end.

(** The slots of a struct's fields, in declaration order. *)
Definition de_slots (names : list string) (v : Value) : option (list (option Value)) :=
  match v with
  | JObject fs =>
    if forallb (fun n => (length (List.filter (fun f => bool_decide (fst f = n)) fs) <=? 1)%nat) names
    then Some (map (fun n => Value.get n v) names) else None
  | JArray l =>
    if (length l <=? length names)%nat
    then Some (map Some l ++ replicate (length names - length l) None)%list else None
  | _ => None
  end.

Definition de_field {A} (d : de A) (missing : option A) (slot : option Value) : option A :=
  match slot with Some v => d v | None => missing end.

(** ** Serializers *)

Definition ser_u64 (n : Z) : Value := JNumber (display_u64 n).
Definition ser_vec {A} (f : A -> Value) (l : list A) : Value := JArray (map f l).
Definition ser_map {A} (f : A -> Value) (m : gmap string A) : Value :=
  JObject (map (fun kv => (fst kv, f (snd kv))) (items m)).
(** A field with [skip_serializing_if = "Option::is_none"]. *)
Definition ser_some {A} (name : string) (f : A -> Value) (o : option A) : list (string * Value) :=
  match o with Some a => [(name, f a)] | None => [] end.

(** ** Lemmas: round trips of the combinators *)

Lemma display_u64_cons n : exists c s, display_u64 n = String c s /\ is_ascii_digit c = true.
Proof.
  destruct (display_u64_digits n) as [Hne Hd]. destruct (display_u64 n) as [|c s]; [congruence|].
  cbn in Hd. apply andb_true_iff in Hd as [Hc _]. eauto.
Qed.

Lemma de_uint_ser limit n : is_u64 n -> (n <= limit)%Z -> de_uint limit (ser_u64 n) = Some n.
Proof.
  intros Hn Hl. unfold ser_u64, de_uint. destruct (display_u64_cons n) as (c & s & E & Hc).
  rewrite E, Hc, <- E, parse_display_u64 by exact Hn. cbn. rewrite (proj2 (Z.leb_le _ _) Hl). reflexivity.
Qed.

Lemma de_uint_range limit v n : de_uint limit v = Some n -> (0 <= n <= limit)%Z.
Proof.
  destruct v as [| |[|c s]| | |]; try discriminate. cbn. destruct (is_ascii_digit c); [|discriminate].
  destruct (parse_u64 (String c s)) as [k|] eqn:E; cbn; [|discriminate].
  destruct (Z.leb_spec k limit); [|discriminate]. intros [= ->]. apply parse_u64_range in E. unfold is_u64 in E. lia.
Qed.

Lemma de_option_some {A} (d : de A) v a : v <> JNull -> d v = Some a -> de_option d v = Some (Some a).
Proof. intros Hv Hd. unfold de_option. destruct v; try congruence; rewrite Hd; reflexivity. Qed.

Lemma mapM_map_id {A B} (f : A -> B) (g : B -> option A) l :
  Forall (fun a => g (f a) = Some a) l -> mapM g (map f l) = Some l.
Proof. induction 1 as [|a l Ha _ IH]; cbn; [reflexivity|]. rewrite Ha. cbn. rewrite IH. reflexivity. Qed.

Lemma de_vec_ser {A} (f : A -> Value) (d : de A) l :
  Forall (fun a => d (f a) = Some a) l -> de_vec d (ser_vec f l) = Some l.
Proof. apply mapM_map_id. Qed.

Lemma de_map_ser {A} (f : A -> Value) (d : de A) (m : gmap string A) :
  map_Forall (fun _ a => d (f a) = Some a) m -> de_map d (ser_map f m) = Some m.
Proof.
  intros Hm. unfold de_map, ser_map.
  rewrite (mapM_map_id (fun kv : string * A => (fst kv, f (snd kv))) (fun g => x ← d (snd g); Some (fst g, x)) (items m)).
  - cbn. f_equal. rewrite (list_to_map_proper _ (items m)).
    + rewrite (list_to_map_proper _ (map_to_list m)); [apply list_to_map_to_list|apply NoDup_items|apply items_perm].
    + rewrite fmap_reverse, reverse_Permutation. apply NoDup_items.
    + apply reverse_Permutation.
  - apply Forall_forall. intros [k a] Hin%elem_of_items. cbn. rewrite (Hm k a Hin). reflexivity.
Qed.

(** Read a struct from the object its serializer wrote. *)
Ltac de_struct :=
  match goal with |- context [de_slots ?n ?v] =>
    let r := eval vm_compute in (de_slots n v) in
    replace (de_slots n v) with r by (vm_compute; reflexivity) end;
  cbv [mbind option_bind de_field].

(** ** Lemmas: what is printable *)

Create HintDb json.

Lemma is_u64_text_display n : is_u64 n -> is_u64_text (display_u64 n) = true.
Proof. intros Hn. unfold is_u64_text. rewrite parse_display_u64 by exact Hn. apply bool_decide_eq_true. reflexivity. Qed.

Lemma printable_string n s : printable (S n) (JString s) = true.
Proof. reflexivity. Qed.

Lemma printable_bool n b : printable (S n) (JBool b) = true.
Proof. reflexivity. Qed.

Lemma printable_u64 n z : is_u64 z -> printable (S n) (ser_u64 z) = true.
Proof. apply is_u64_text_display. Qed.

Lemma forallb_map_Forall {A B} (f : A -> B) p l :
  Forall (fun a => p (f a) = true) l -> forallb p (map f l) = true.
Proof. induction 1; cbn; [reflexivity|]. rewrite H. assumption. Qed.

Lemma printable_vec {A} n (f : A -> Value) l :
  Forall (fun a => printable n (f a) = true) l -> printable (S n) (ser_vec f l) = true.
Proof. apply forallb_map_Forall. Qed.

Lemma printable_map {A} n (f : A -> Value) m :
  map_Forall (fun _ a => printable n (f a) = true) m -> printable (S n) (ser_map f m) = true.
Proof.
  intros Hm. apply forallb_map_Forall, Forall_forall. intros [k a] Hin%elem_of_items. exact (Hm k a Hin).
Qed.

Lemma printable_object n fs :
  Forall (fun f => printable n (snd f) = true) fs -> printable (S n) (JObject fs) = true.
Proof. induction 1 as [|f fs Hf _ IH]; cbn in *; [reflexivity|]. rewrite Hf. exact IH. Qed.

Lemma printable_some {A} n name (f : A -> Value) o :
  (forall a, o = Some a -> printable n (f a) = true) -> Forall (fun g => printable n (snd g) = true) (ser_some name f o).
Proof. destruct o; cbn; intros Ho; repeat constructor; cbn; auto. Qed.

#[export] Hint Resolve printable_string printable_bool printable_u64 printable_vec printable_map printable_object printable_some : json.

(** ** Lemmas: values in normal form *)

Definition field_lt {A} (f g : string * A) : Prop := str_lt (fst f) (fst g).

Lemma insert_field_last {A} k (v : A) fs :
  Forall (fun f => str_lt (fst f) k) fs -> insert_field k v fs = (fs ++ [(k, v)])%list.
Proof.
  induction 1 as [|[k' v'] fs Hk _ IH]; cbn in *; [reflexivity|].
  rewrite String.compare_antisym. unfold str_lt in Hk. rewrite Hk. cbn. rewrite IH. reflexivity.
Qed.

Lemma sort_fields_app {A} (acc fs : list (string * A)) :
  StronglySorted field_lt (acc ++ fs)%list ->
  fold_left (fun acc f => insert_field (fst f) (snd f) acc) fs acc = (acc ++ fs)%list.
Proof.
  revert acc. induction fs as [|[k v] fs IH]; intros acc Hs; cbn; [rewrite app_nil_r; reflexivity|].
  rewrite insert_field_last.
  - rewrite IH; rewrite <- app_assoc; [reflexivity|exact Hs].
  - apply Forall_forall. intros f Hf. change (field_lt f (k, v)). eapply (StronglySorted_app_1_elem_of field_lt acc ((k, v) :: fs)); [exact Hs|exact Hf|left].
Qed.

Lemma sort_fields_sorted {A} (fs : list (string * A)) : StronglySorted field_lt fs -> sort_fields fs = fs.
Proof. exact (sort_fields_app [] fs). Qed.

Lemma insert_field_elem {A} k (v : A) fs f : f ∈ insert_field k v fs -> f = (k, v) \/ f ∈ fs.
Proof.
  induction fs as [|[k' v'] fs IH]; cbn; [set_solver|].
  destruct (String.compare k k'); rewrite !elem_of_cons; tauto.
Qed.

Lemma insert_field_keeps {A} k (v : A) fs :
  StronglySorted field_lt fs -> StronglySorted field_lt (insert_field k v fs).
Proof.
  induction 1 as [|[k' v'] fs Hs IH Hf]; cbn; [repeat constructor|].
  destruct (String.compare k k') eqn:E.
  - apply String.compare_eq_iff in E. subst. constructor; assumption.
  - constructor; [constructor; assumption|]. constructor; [exact E|]. rewrite Forall_forall in Hf |- *.
    intros g Hg. eapply str_lt_trans; [exact E|exact (Hf g Hg)].
  - constructor; [exact IH|]. rewrite Forall_forall in Hf |- *. intros g [-> |Hg]%insert_field_elem; [|exact (Hf g Hg)].
    unfold field_lt, str_lt. cbn. rewrite String.compare_antisym, E. reflexivity.
Qed.

Lemma sort_fields_keeps {A} (fs : list (string * A)) : StronglySorted field_lt (sort_fields fs).
Proof.
  unfold sort_fields. assert (Hg : forall acc, StronglySorted field_lt acc ->
    StronglySorted field_lt (fold_left (fun acc f => insert_field (fst f) (snd f) acc) fs acc)).
  { induction fs as [|f fs IH]; intros acc Ha; cbn; [exact Ha|]. apply IH, insert_field_keeps, Ha. }
  apply Hg. constructor.
Qed.

Lemma insert_field_map {A B} (g : A -> B) k v fs :
  map (fun f => (fst f, g (snd f))) (insert_field k v fs) = insert_field k (g v) (map (fun f => (fst f, g (snd f))) fs).
Proof. induction fs as [|[k' v'] fs IH]; cbn; [reflexivity|]. destruct (String.compare k k'); cbn; rewrite ?IH; reflexivity. Qed.

Lemma sort_fields_map {A B} (g : A -> B) fs :
  map (fun f => (fst f, g (snd f))) (sort_fields fs) = sort_fields (map (fun f => (fst f, g (snd f))) fs).
Proof.
  unfold sort_fields. change (@nil (string * B)) with (map (fun f : string * A => (fst f, g (snd f))) []).
  generalize (@nil (string * A)) as acc. induction fs as [|f fs IH]; intros acc; cbn; [reflexivity|].
  rewrite IH, insert_field_map. reflexivity.
Qed.

(** A [Value] is its own normal form. *)
Lemma value_of_idem v : value_of (value_of v) = value_of v.
Proof.
  induction v as [| | | |l IH|fs IH] using Value_ind_nested; cbn; try reflexivity; f_equal.
  - rewrite map_map. apply map_ext_Forall, IH.
  - rewrite sort_fields_map. rewrite sort_fields_sorted by apply sort_fields_keeps. f_equal. rewrite map_map.
    apply map_ext_Forall. eapply Forall_impl; [exact IH|]. intros [k v] Hv. cbn in *. rewrite Hv. reflexivity.
Qed.

(** ** A concrete text form

    Documents through their countable encoding, one character per bit. *)

Fixpoint value_to_tree (v : Value) : gen_tree (bool + string) :=
  match v with
  | JNull => GenNode 0 []
  | JBool b => GenLeaf (inl b)
  | JNumber s => GenNode 1 [GenLeaf (inr s)]
  | JString s => GenLeaf (inr s)
  | JArray l => GenNode 2 (map value_to_tree l)
  | JObject fs => GenNode 3 (map (fun f => GenNode 4 [GenLeaf (inr (fst f)); value_to_tree (snd f)]) fs)
  end.

Fixpoint tree_to_value (t : gen_tree (bool + string)) : Value :=
  match t with
  | GenLeaf (inl b) => JBool b
  | GenLeaf (inr s) => JString s
  | GenNode 1 [GenLeaf (inr s)] => JNumber s
  | GenNode 2 l => JArray (map tree_to_value l)
  | GenNode 3 l => JObject (omap (fun t =>
      match t with GenNode _ [GenLeaf (inr k); x] => Some (k, tree_to_value x) | _ => None end) l)
  | _ => JNull
  end.

Lemma tree_value_roundtrip v : tree_to_value (value_to_tree v) = v.
Proof.
  induction v as [| | | |l IH|fs IH] using Value_ind_nested; cbn; try reflexivity; f_equal.
  - rewrite map_map. transitivity (map id l); [apply map_ext_Forall, IH|apply map_id].
  - induction IH as [|[k v] fs Hv _ IHfs]; cbn in *; [reflexivity|]. rewrite Hv. f_equal. exact IHfs.
Qed.

Fixpoint bit_text (p : positive) : string :=
  match p with xH => "." | xO p => String "0" (bit_text p) | xI p => String "1" (bit_text p) end.

Fixpoint text_bits (s : string) : option positive :=
  match s with
  | "." => Some xH
  | String c s => p ← text_bits s; Some (if Ascii.eqb c "0" then xO p else xI p)
  | "" => None
  end.

Lemma text_bits_text p : text_bits (bit_text p) = Some p.
Proof.
  induction p as [p IH|p IH|]; [| |reflexivity];
    (change (text_bits (bit_text _)) with (q ← text_bits (bit_text p); Some (if Ascii.eqb "0" "0" then xO q else xI q)) ||
     change (text_bits (bit_text _)) with (q ← text_bits (bit_text p); Some (if Ascii.eqb "1" "0" then xO q else xI q)));
    rewrite IH; reflexivity.
Qed.

Lemma bit_text_chars p : str_all (fun c => Ascii.eqb c "." || is_ascii_digit c) (bit_text p) = true /\ bit_text p <> "".
Proof. induction p as [p [IH _]|p [IH _]|]; cbn; rewrite ?IH; split; (reflexivity || discriminate). Qed.

Definition bits_write (v : Value) : option string := Some (bit_text (encode (value_to_tree v))).

#[export] Instance bits_json : JsonText := {
  json_read b := p ← text_bits (string_of_bytes b); t ← decode p; Some (tree_to_value t);
  json_write := bits_write;
  json_write_pretty := bits_write;
}.

Lemma bits_roundtrip v : exists s, bits_write v = Some s /\ json_read (bytes_of_string s) = Some v.
Proof.
  eexists. split; [reflexivity|]. cbn. unfold string_of_bytes, bytes_of_string.
  rewrite String.string_of_list_byte_of_string, text_bits_text. cbn. rewrite decode_encode. cbn.
  rewrite tree_value_roundtrip. reflexivity.
Qed.

#[export] Instance bits_json_laws : JsonTextLaws bits_json.
Proof.
  split; [intros v _; apply bits_roundtrip|intros v _; apply bits_roundtrip|].
  intros v s [= <-]. destruct (bit_text_chars (encode (value_to_tree v))) as [Hc Hne].
  set (t := bit_text _) in *. clearbody t. split.
  - revert Hc. apply str_all_impl. intros c. pose proof (ascii_forall (fun c => implb (Ascii.eqb c "." || is_ascii_digit c)
      (negb (Ascii.eqb c "010" || Ascii.eqb c "013"))) eq_refl c) as Hi. cbv beta in Hi.
    intros Hp. rewrite Hp in Hi. exact Hi.
  - destruct t as [|c t]; [congruence|]. apply visible_not_blank. cbn in Hc. apply andb_true_iff in Hc as [Hc _].
    pose proof (ascii_forall (fun c => implb (Ascii.eqb c "." || is_ascii_digit c) (in_range "!" "~" c)) eq_refl c) as Hi.
    cbv beta in Hi. rewrite Hc in Hi. exact Hi.
Qed.
