(* ===== verification/Http.v ===== *)
(** * Headers

    What the servers use of the [http] crate: a header map is the list of its
    insertions; which strings are header values is a parameter, and so is
    [serde_json]'s parser of a body into a [Value]. *)

From S2P Require Import Prelude Str Json.

(** ** Third-party parameters *)

Class HttpLib := {
  header_value_ok : string -> bool;   (** [HeaderValue::from_str] succeeds *)
  header_to_str_ok : string -> bool;  (** [HeaderValue::to_str] succeeds *)
  json_parse : bytes -> option Value; (** [serde_json::from_slice::<Value>] *)
}.

Abbreviation headers := (list (string * string)).

(** [HeaderMap::get] of a request. *)
Definition header_get (h : headers) (name : string) : option string :=
  snd <$> find (fun '(k, _) => bool_decide (k = name)) h.

(** [get(name).and_then(|v| v.to_str().ok())]. *)
Definition header_get_str `{HttpLib} (h : headers) (name : string) : option string :=
  v ← header_get h name; if header_to_str_ok v then Some v else None.

(** [if let Ok(v) = HeaderValue::from_str(v) { headers.insert(name, v) }]. *)
Definition try_header `{HttpLib} (name v : string) : headers :=
  if header_value_ok v then [(name, v)] else [].

(** A crate that takes any header value. *)
Definition any_header : HttpLib := {|
  header_value_ok _ := true;
  header_to_str_ok _ := true;
  json_parse _ := None;
|}.
