(* ===== verification/BlobStore.v ===== *)
(** * The blob-store interface and its in-memory implementation

    Models of [crates/ferro-blob-store/src/blob_store.rs], [error.rs] and
    [memory.rs]. [BlobStore] has the trait's methods; [BlobStoreLaws] is what
    an implementation promises its clients, against an abstract view of the
    stored blobs, whether or not its calls can fail. The locks of
    [memory.rs] are held for one map operation each and are never poisoned
    (no code runs under them that panics), so each method is one atomic step
    on the map. *)

From S2P Require Import Prelude Str Frame Net Digest.

Inductive BlobStoreError :=
| BsIo (e : io_error)
| DigestMismatch (expected computed : string)
| NotFound (digest : string)
| InvalidDigest (e : DigestParseError).

Class BlobStore (S : Type) := {
  bs_put : Digest -> bytes -> stm S BlobStoreError unit;
  bs_get : Digest -> stm S BlobStoreError bytes;
  bs_contains : Digest -> stm S BlobStoreError bool;
  bs_delete : Digest -> stm S BlobStoreError unit;
  bs_list : stm S BlobStoreError (list Digest);
}.

Section Interface.
Context `{H : Hashing}.

(** The digest of [b] under [d]'s algorithm. *)
Definition computed_for (d : Digest) (b : bytes) : Digest :=
  match algo d with Sha256 => Digest.sha256_of b | Sha512 => Digest.sha512_of b end.

Definition matches (d : Digest) (b : bytes) : Prop := computed_for d b = d.

#[export] Instance matches_dec d b : Decision (matches d b).
Proof. unfold matches. apply _. Defined.

Definition mismatch (d : Digest) (b : bytes) : BlobStoreError :=
  DigestMismatch (Digest.to_string d) (Digest.to_string (computed_for d b)).

(** [bs_view]: the blob stored under a digest. [bs_ok]: the implementation's
    invariant. [bs_quiet]: no failure of the environment lies ahead. *)
Class BlobStoreLaws (S : Type) `{BlobStore S} := {
  bs_view : S -> Digest -> option bytes;
  bs_ok : S -> Prop;
  bs_quiet : S -> Prop;

  (** Stored bytes have the digest they are stored under. *)
  bs_sound : forall s d b, bs_ok s -> Digest.valid d -> bs_view s d = Some b -> matches d b;

  (** A put of other bytes is refused and changes nothing. *)
  put_mismatch : forall s d b, ~ matches d b -> bs_put d b s = (s, Err (mismatch d b));
  put_total : forall s d b, bs_ok s -> Digest.valid d -> snd (bs_put d b s) <> Panic;
  put_keeps_ok : forall s d b, bs_ok s -> Digest.valid d -> bs_ok (fst (bs_put d b s));
  put_frame : forall s d b e, bs_ok s -> Digest.valid d -> Digest.valid e -> e <> d ->
    bs_view (fst (bs_put d b s)) e = bs_view s e;
  put_stores : forall s s' d b u, bs_ok s -> Digest.valid d -> bs_put d b s = (s', Ok u) ->
    is_Some (bs_view s' d);
  put_fails : forall s s' d b e, bs_ok s -> Digest.valid d -> bs_put d b s = (s', Err e) ->
    bs_view s' d = bs_view s d;
  put_quiet : forall s d b, bs_ok s -> bs_quiet s -> Digest.valid d -> matches d b ->
    snd (bs_put d b s) = Ok tt /\ bs_quiet (fst (bs_put d b s)) /\
    bs_view (fst (bs_put d b s)) d = Some b;

  get_spec : forall s d, bs_ok s -> Digest.valid d ->
    bs_ok (fst (bs_get d s)) /\ (forall e, Digest.valid e -> bs_view (fst (bs_get d s)) e = bs_view s e) /\
    match snd (bs_get d s) with
    | Ok b => bs_view s d = Some b
    | Err (NotFound x) => bs_view s d = None /\ x = Digest.to_string d
    | Err _ => True
    | Panic => False
    end;
  get_quiet : forall s d, bs_ok s -> bs_quiet s -> Digest.valid d ->
    bs_quiet (fst (bs_get d s)) /\
    snd (bs_get d s) = ok_or (bs_view s d) (NotFound (Digest.to_string d));

  contains_spec : forall s d, bs_ok s -> Digest.valid d ->
    bs_ok (fst (bs_contains d s)) /\
    (forall e, Digest.valid e -> bs_view (fst (bs_contains d s)) e = bs_view s e) /\
    match snd (bs_contains d s) with
    | Ok x => x = bool_decide (is_Some (bs_view s d))
    | Err (NotFound _) => False
    | Err _ => True
    | Panic => False
    end;
  contains_quiet : forall s d, bs_ok s -> bs_quiet s -> Digest.valid d ->
    bs_quiet (fst (bs_contains d s)) /\
    snd (bs_contains d s) = Ok (bool_decide (is_Some (bs_view s d)));

  delete_spec : forall s d, bs_ok s -> Digest.valid d ->
    bs_ok (fst (bs_delete d s)) /\
    (forall e, Digest.valid e -> e <> d -> bs_view (fst (bs_delete d s)) e = bs_view s e) /\
    match snd (bs_delete d s) with
    | Ok _ => bs_view (fst (bs_delete d s)) d = None
    | Err _ => bs_view (fst (bs_delete d s)) d = bs_view s d
    | Panic => False
    end;
  delete_quiet : forall s d, bs_ok s -> bs_quiet s -> Digest.valid d ->
    bs_quiet (fst (bs_delete d s)) /\ snd (bs_delete d s) = Ok tt;

  list_spec : forall s, bs_ok s ->
    bs_ok (fst (bs_list s)) /\ (forall e, Digest.valid e -> bs_view (fst (bs_list s)) e = bs_view s e) /\
    match snd (bs_list s) with
    | Ok l => NoDup l /\ forall d, d ∈ l -> Digest.valid d /\ is_Some (bs_view s d)
    | Err _ => True
    | Panic => False
    end;
  list_quiet : forall s, bs_ok s -> bs_quiet s ->
    bs_quiet (fst (bs_list s)) /\
    exists l, snd (bs_list s) = Ok l /\ forall d, Digest.valid d -> is_Some (bs_view s d) -> d ∈ l;
}.

(** ** What the contract gives a client *)

Section Client.
Context {S : Type} `{BL : BlobStoreLaws S}.

(** A put loses nothing. *)
Lemma put_keeps_view d b s s' o : bs_ok s -> Digest.valid d -> bs_put d b s = (s', o) ->
  bs_ok s' /\ o <> Panic /\ (o = Ok tt -> is_Some (bs_view s' d)) /\
  (forall e, Digest.valid e -> is_Some (bs_view s e) -> is_Some (bs_view s' e)).
Proof using BL.
  intros Hs Hd E. pose proof (put_keeps_ok s d b Hs Hd) as Hk. pose proof (put_total s d b Hs Hd) as Ht.
  pose proof (fun e => put_frame s d b e Hs Hd) as Hf. rewrite E in *. cbn [fst snd] in *.
  split_and!; [exact Hk|exact Ht|intros ->; exact (put_stores _ _ _ _ _ Hs Hd E)|].
  intros e He Hin. destruct (decide (e = d)) as [->|Hne]; [|rewrite Hf by assumption; exact Hin].
  destruct o as [u|x|]; [exact (put_stores _ _ _ _ _ Hs Hd E)|rewrite (put_fails _ _ _ _ _ Hs Hd E); exact Hin|contradiction].
Qed.

End Client.

End Interface.

(** ** The in-memory store *)

Abbreviation InMemoryBlobStore := (gmap Digest bytes).

Module Memory.
Section Ops.
Context `{H : Hashing}.

Definition new : InMemoryBlobStore := ∅.
Definition len (s : InMemoryBlobStore) : nat := size s.
Definition is_empty (s : InMemoryBlobStore) : bool := bool_decide (s = ∅).
Definition clear : stm InMemoryBlobStore BlobStoreError unit := fun _ => (∅, Ok tt).

Definition put (d : Digest) (b : bytes) : stm InMemoryBlobStore BlobStoreError unit := fun s =>
  if negb (bool_decide (computed_for d b = d)) then (s, Err (mismatch d b))
  else (<[d := b]> s, Ok tt).

Definition get (d : Digest) : stm InMemoryBlobStore BlobStoreError bytes := fun s =>
  (s, ok_or (s !! d) (NotFound (Digest.to_string d))).

Definition contains (d : Digest) : stm InMemoryBlobStore BlobStoreError bool := fun s =>
  (s, Ok (bool_decide (is_Some (s !! d)))).

Definition delete (d : Digest) : stm InMemoryBlobStore BlobStoreError unit := fun s =>
  (base.delete d s, Ok tt).

Definition list_ : stm InMemoryBlobStore BlobStoreError (list Digest) := fun s =>
  (s, Ok (fst <$> map_to_list s)).

#[export] Instance memory_store : BlobStore InMemoryBlobStore :=
  { bs_put := put; bs_get := get; bs_contains := contains; bs_delete := delete; bs_list := list_ }.

(** Every key is a valid digest of its value. *)
Definition ok (s : InMemoryBlobStore) : Prop := map_Forall (fun d b => Digest.valid d /\ matches d b) s.

Lemma put_cases d b s :
  put d b s = if decide (matches d b) then (<[d := b]> s, Ok tt) else (s, Err (mismatch d b)).
Proof. unfold put, matches. case_bool_decide; case_decide; cbn; tauto. Qed.

#[export] Instance memory_laws : BlobStoreLaws InMemoryBlobStore.
Proof.
  refine {| bs_view := fun s d => s !! d; bs_ok := ok; bs_quiet := fun _ => True |}; cbn; unfold ok.
  - intros s d b Hs _ Hb. exact (proj2 (Hs d b Hb)).
  - intros s d b Hm. rewrite put_cases, decide_False by exact Hm. reflexivity.
  - intros s d b _ _. rewrite put_cases. case_decide; discriminate.
  - intros s d b Hs Hd. rewrite put_cases. case_decide; [|exact Hs].
    apply map_Forall_insert_2; auto.
  - intros s d b e _ _ _ He. rewrite put_cases. case_decide; [|reflexivity].
    apply lookup_insert_ne. congruence.
  - intros s s' d b u _ _. rewrite put_cases. case_decide; [|discriminate]. intros [= <- _].
    rewrite lookup_insert_eq. eauto.
  - intros s s' d b e _ _. rewrite put_cases. case_decide; [discriminate|]. intros [= <- _]. reflexivity.
  - intros s d b _ _ _ Hm. rewrite put_cases, decide_True by exact Hm. cbn.
    rewrite lookup_insert_eq. auto.
  - intros s d Hs _. split_and!; [exact Hs|reflexivity|]. destruct (s !! d); cbn; auto.
  - intros s d _ _ _. auto.
  - intros s d Hs _. split_and!; [exact Hs|reflexivity|reflexivity].
  - intros s d _ _ _. auto.
  - intros s d Hs _. split_and!.
    + intros e b Hb. apply lookup_delete_Some in Hb as [_ Hb]. exact (Hs e b Hb).
    + intros e _ He. apply lookup_delete_ne. congruence.
    + apply lookup_delete_eq.
  - intros s d _ _ _. auto.
  - intros s Hs. split_and!; [exact Hs|reflexivity|apply NoDup_fst_map_to_list|].
    intros d ([e b] & -> & Hin)%list_elem_of_fmap. apply elem_of_map_to_list in Hin. cbn.
    split; [exact (proj1 (Hs e b Hin))|eauto].
  - intros s Hs _. split; [auto|]. eexists. split; [reflexivity|].
    intros d _ (b & Hb). apply list_elem_of_fmap. exists (d, b). split; [reflexivity|].
    apply elem_of_map_to_list, Hb.
Defined.

End Ops.
End Memory.
