(* ===== verification/Regex.v ===== *)
(** * Regular expressions

    What the crates use of the [regex] crate: an anchored pattern either
    matches a string or does not. A pattern is a value of [re] over the
    characters of the string, each kept as its UTF-8 bytes; [re_match] decides
    by derivatives, and [re_match_lang] says that it decides the pattern's
    language. The class [\d] is Unicode's decimal digits, a table of the
    [regex] crate: a parameter. *)

From S2P Require Import Prelude Str.

Local Open Scope string_scope.

(** ** Digits *)

(** Unicode's general category Nd, on one character. *)
Class UnicodeDigits := { is_unicode_digit : string -> bool }.

(** On ASCII it is the digits [0] to [9]; ARABIC-INDIC DIGIT ZERO is one too. *)
Class UnicodeDigitsLaws (U : UnicodeDigits) := {
  unicode_digit_ascii : forall c, (code c <? 128)%N = true -> is_unicode_digit (String c "") = is_ascii_digit c;
  unicode_digit_arabic : is_unicode_digit (String "217" (String "160" "")) = true;
}.

#[export] Instance two_scripts : UnicodeDigits := {
  is_unicode_digit ch :=
    match ch with
    | String c "" => is_ascii_digit c
    | String "217" (String d "") => in_range "160" "169" d
    | _ => false
    end }.

#[export] Instance two_scripts_laws : UnicodeDigitsLaws two_scripts.
Proof. split; [|reflexivity]. intros c _. destruct c as [[] [] [] [] [] [] [] []]; reflexivity. Qed.

(** ** Patterns *)

Inductive re :=
| RVoid
| REps
| RClass (p : string -> bool)
| RCat (r s : re)
| RAlt (r s : re)
| RStar (r : re).

(** A single-byte character of a class. *)
Definition one_of (p : ascii -> bool) : re := RClass (fun ch => match ch with String c "" => p c | _ => false end).
Definition lit (c : ascii) : re := one_of (Ascii.eqb c).
Definition ROpt (r : re) : re := RAlt r REps.
Definition RPlus (r : re) : re := RCat r (RStar r).

Inductive lang : re -> list string -> Prop :=
| lang_eps : lang REps []
| lang_class p ch : p ch = true -> lang (RClass p) [ch]
| lang_cat r s a b : lang r a -> lang s b -> lang (RCat r s) (a ++ b)%list
| lang_alt_l r s a : lang r a -> lang (RAlt r s) a
| lang_alt_r r s a : lang s a -> lang (RAlt r s) a
| lang_star_nil r : lang (RStar r) []
| lang_star_cons r a b : lang r a -> lang (RStar r) b -> lang (RStar r) (a ++ b)%list.

Fixpoint nullable (r : re) : bool :=
  match r with
  | RVoid | RClass _ => false
  | REps | RStar _ => true
  | RCat r s => nullable r && nullable s
  | RAlt r s => nullable r || nullable s
  end.

Fixpoint deriv (ch : string) (r : re) : re :=
  match r with
  | RVoid | REps => RVoid
  | RClass p => if p ch then REps else RVoid
  | RCat r s => if nullable r then RAlt (RCat (deriv ch r) s) (deriv ch s) else RCat (deriv ch r) s
  | RAlt r s => RAlt (deriv ch r) (deriv ch s)
  | RStar r => RCat (deriv ch r) (RStar r)
  end.

Fixpoint re_match (r : re) (l : list string) : bool :=
  match l with [] => nullable r | ch :: l => re_match (deriv ch r) l end.

(** [Regex::is_match] of an anchored pattern [^r$]. *)
Definition is_match (r : re) (s : string) : bool := re_match r (chars s).

(** ** Lemmas: the matcher decides the language *)

Lemma nullable_lang r : nullable r = true <-> lang r [].
Proof.
  split.
  - induction r; cbn; try discriminate; intros Hn.
    + constructor.
    + apply andb_true_iff in Hn as [H1 H2]. apply (lang_cat _ _ [] []); auto.
    + apply orb_true_iff in Hn as [H1|H2]; [apply lang_alt_l|apply lang_alt_r]; auto.
    + constructor.
  - remember [] as l eqn:El. induction 1; cbn; try reflexivity; try discriminate.
    + apply app_nil in El as [-> ->]. rewrite IHlang1, IHlang2 by reflexivity. reflexivity.
    + rewrite IHlang by exact El. reflexivity.
    + rewrite IHlang by exact El. apply orb_true_r.
Qed.

Lemma lang_star_inv r ch l :
  lang (RStar r) (ch :: l) -> exists a b, l = (a ++ b)%list /\ lang r (ch :: a) /\ lang (RStar r) b.
Proof.
  remember (RStar r) as q eqn:Eq. remember (ch :: l) as w eqn:Ew. intros Hl. revert Eq Ew.
  induction Hl as [| | | | | |r' a b Ha _ Hb IH]; try discriminate; intros [= ->] Ew.
  destruct a as [|x a]; cbn in Ew; [apply IH; [reflexivity|exact Ew]|].
  injection Ew as -> <-. eauto.
Qed.

Lemma deriv_lang ch r l : lang (deriv ch r) l <-> lang r (ch :: l).
Proof.
  revert l. induction r as [| |p|r IHr s IHs|r IHr s IHs|r IHr]; intros l; cbn.
  - split; inversion 1.
  - split; inversion 1.
  - destruct (p ch) eqn:E; split; inversion 1; subst; try (constructor; assumption); congruence.
  - assert (Hc : lang (RCat (deriv ch r) s) l <-> exists a b, l = (a ++ b)%list /\ lang r (ch :: a) /\ lang s b).
    { split; [inversion 1; subst; do 2 eexists; split; [reflexivity|]; rewrite <- IHr; auto|].
      intros (a & b & -> & Ha & Hb). constructor; [apply IHr, Ha|exact Hb]. }
    assert (Hw : lang (RCat r s) (ch :: l) <->
      (exists a b, l = (a ++ b)%list /\ lang r (ch :: a) /\ lang s b) \/ (lang r [] /\ lang s (ch :: l))).
    { split.
      - intros Hl. remember (ch :: l) as w eqn:Ew. inversion Hl as [| |? ? a b Ha Hb E1 E2| | | |].
        rewrite <- E2 in Ew. destruct a as [|x a]; cbn in Ew; [subst; auto|]. injection Ew as -> <-. left. eauto.
      - intros [(a & b & -> & Ha & Hb)|[Ha Hb]]; [exact (lang_cat _ _ (ch :: a) b Ha Hb)|exact (lang_cat _ _ [] _ Ha Hb)]. }
    rewrite Hw, <- nullable_lang. destruct (nullable r).
    + split; [inversion 1; subst; [left; apply Hc; assumption|right; rewrite <- IHs; auto]|].
      intros [Hl|[_ Hl]]; [apply lang_alt_l, Hc, Hl|apply lang_alt_r, IHs, Hl].
    + rewrite Hc. split; [auto|]. intros [Hl|[Hf _]]; [exact Hl|discriminate].
  - split; inversion 1; subst; [apply lang_alt_l, IHr|apply lang_alt_r, IHs|apply lang_alt_l, IHr|apply lang_alt_r, IHs]; assumption.
  - split.
    + inversion 1; subst. exact (lang_star_cons r (ch :: _) _ (proj1 (IHr _) ltac:(eassumption)) ltac:(eassumption)).
    + intros (a & b & -> & Ha & Hb)%lang_star_inv. constructor; [apply IHr, Ha|exact Hb].
Qed.

Lemma re_match_lang r l : re_match r l = true <-> lang r l.
Proof.
  revert r. induction l as [|ch l IH]; intros r; cbn; [apply nullable_lang|]. rewrite IH. apply deriv_lang.
Qed.
