(* ===== verification/CargoName.v ===== *)
(** * Cargo errors and crate names

    Models of [crates/ferro-cargo-registry-server/src/error.rs] and [name.rs].
    An error keeps the values its message is rendered from. A name is judged by
    its bytes: [is_valid_name] accepts ASCII only, so its characters are its
    bytes, and a byte above 127 is rejected as the character it belongs to is. *)

From S2P Require Import Prelude Str Frame Net Digest BlobStore.

Local Open Scope string_scope.

(** ** Errors *)

(** What is wrong with a publish body: a fixed text, or an error of
    [serde_json]. *)
Inductive publish_fault := PublishText (s : string) | MetadataJson | ManifestCoerce.

Inductive CargoError :=
| InvalidName (name : string)
| InvalidVersion (vers : string)
| InvalidPublish (f : publish_fault)
| ChecksumMismatch (declared computed : string)
| CrateNotFound (what : string)
| NameConflict (requested existing : string)
| DuplicateVersion (name version : string)
| NotImplemented (what : string)
| Persistence (e : io_error)
| Storage (e : BlobStoreError).

Definition storage_status (e : BlobStoreError) : Z :=
  match e with NotFound _ => 404 | DigestMismatch _ _ | InvalidDigest _ => 400 | BsIo _ => 500 end.

Definition cargo_status (e : CargoError) : Z :=
  match e with
  | InvalidName _ | InvalidVersion _ | InvalidPublish _ | ChecksumMismatch _ _ => 400
  | NameConflict _ _ | DuplicateVersion _ _ => 409
  | CrateNotFound _ => 404
  | NotImplemented _ => 501
  | Persistence _ => 500
  | Storage e => storage_status e
  end.

(** ** Names *)

Definition MAX_NAME_LEN : nat := 64.

Definition is_name_char (c : ascii) : bool := is_ascii_alphanumeric c || Ascii.eqb c "-" || Ascii.eqb c "_".

Definition is_valid_name (name : string) : bool :=
  match name with
  | "" => false
  | String first rest =>
    if (MAX_NAME_LEN <? String.length name)%nat then false else
    if negb (is_ascii_alphabetic first) then false else
    str_all is_name_char rest
  end.

Definition validate_name (name : string) : outcome CargoError unit :=
  if is_valid_name name then Ok tt else Err (InvalidName name).

(** [replace('-', "_")]. *)
Definition fold_hyphen (c : ascii) : ascii := if Ascii.eqb c "-" then "_"%char else c.

Definition canonical_name (name : string) : string := str_map fold_hyphen (to_ascii_lowercase name).

Definition names_collide (a b : string) : bool := bool_decide (canonical_name a = canonical_name b).

Definition index_path {E} (name : string) : outcome E string :=
  let lower := to_ascii_lowercase name in
  match String.length lower with
  | 0 => Ok ""
  | 1 => Ok ("1/" ++ lower)
  | 2 => Ok ("2/" ++ lower)
  | 3 => a ← str_slice 0 1 lower; Ok ("3/" ++ a ++ "/" ++ lower)
  | _ => a ← str_slice 0 2 lower; b ← str_slice 2 4 lower; Ok (a ++ "/" ++ b ++ "/" ++ lower)
  end%nat.

(** [extract_name_from_index_path] of [handlers.rs]: the first piece of
    [rsplitn(2, '/')] is what follows the last slash. *)
Definition extract_name_from_index_path (path : string) : option string :=
  let name := match rsplit_once "/" path with Some (_, n) => n | None => path end in
  if bool_decide (name = "") then None else Some name.

(** ** Lemmas *)

Lemma canonical_char c :
  fold_hyphen (to_ascii_lowercase_char (to_ascii_lowercase_char c)) = fold_hyphen (to_ascii_lowercase_char c) /\
  fold_hyphen (to_ascii_lowercase_char (fold_hyphen (to_ascii_lowercase_char c))) = fold_hyphen (to_ascii_lowercase_char c).
Proof.
  pose proof (ascii_forall (fun c =>
    Ascii.eqb (fold_hyphen (to_ascii_lowercase_char (to_ascii_lowercase_char c))) (fold_hyphen (to_ascii_lowercase_char c)) &&
    Ascii.eqb (fold_hyphen (to_ascii_lowercase_char (fold_hyphen (to_ascii_lowercase_char c)))) (fold_hyphen (to_ascii_lowercase_char c)))
    eq_refl c) as Hc.
  apply andb_true_iff in Hc as [H1 H2]. apply Ascii.eqb_eq in H1, H2. auto.
Qed.

Lemma str_map_ext f g s : (forall c, f c = g c) -> str_map f s = str_map g s.
Proof. intros Hfg. induction s as [|c s IH]; cbn; [reflexivity|]. rewrite Hfg, IH. reflexivity. Qed.

Lemma canonical_lower name : canonical_name (to_ascii_lowercase name) = canonical_name name.
Proof.
  unfold canonical_name, to_ascii_lowercase. rewrite !str_map_map. apply str_map_ext. intros c. apply canonical_char.
Qed.

Lemma canonical_idem name : canonical_name (canonical_name name) = canonical_name name.
Proof.
  unfold canonical_name, to_ascii_lowercase. rewrite !str_map_map. apply str_map_ext. intros c. apply canonical_char.
Qed.

Lemma valid_name_chars name :
  is_valid_name name = true -> name <> "" /\ (String.length name <= MAX_NAME_LEN)%nat /\ str_all is_name_char name = true.
Proof.
  destruct name as [|c s]; [discriminate|]. unfold is_valid_name.
  destruct (Nat.ltb_spec MAX_NAME_LEN (String.length (String c s))); [discriminate|].
  destruct (is_ascii_alphabetic c) eqn:Ec; [|discriminate]. cbn [negb]. intros Hs. split_and!; [discriminate|assumption|].
  cbn. rewrite Hs. unfold is_name_char, is_ascii_alphanumeric. rewrite Ec. reflexivity.
Qed.

(** A name's characters survive lower-casing, and none is a slash or continues
    a character. *)
Lemma name_char_lower c : is_name_char c = true ->
  is_name_char (to_ascii_lowercase_char c) = true /\ not_char "/" (to_ascii_lowercase_char c) = true /\
  is_continuation (to_ascii_lowercase_char c) = false.
Proof.
  pose proof (ascii_forall (fun c => implb (is_name_char c) (is_name_char (to_ascii_lowercase_char c) &&
    not_char "/" (to_ascii_lowercase_char c) && negb (is_continuation (to_ascii_lowercase_char c)))) eq_refl c) as Hc.
  cbv beta in Hc. intros Hn. rewrite Hn in Hc. cbn [implb] in Hc.
  apply andb_true_iff in Hc as [[H1 H2]%andb_true_iff H3]. apply negb_true_iff in H3. auto.
Qed.

Lemma lower_name_chars name : str_all is_name_char name = true ->
  str_all (not_char "/") (to_ascii_lowercase name) = true /\
  str_all (fun c => negb (is_continuation c)) (to_ascii_lowercase name) = true.
Proof.
  intros Hn. unfold to_ascii_lowercase. rewrite !str_all_map.
  split; revert Hn; apply str_all_impl; intros c Hc; destruct (name_char_lower c Hc) as (_ & H1 & H2); [exact H1|].
  rewrite H2. reflexivity.
Qed.

Lemma boundary_all i s : str_all (fun c => negb (is_continuation c)) s = true -> is_char_boundary i s = true.
Proof.
  unfold is_char_boundary. revert i. induction s as [|c s IH]; intros i; cbn; [reflexivity|].
  intros [Hc Hs]%andb_true_iff. destruct i as [|i]; [exact Hc|exact (IH i Hs)].
Qed.

Lemma extract_last a name :
  name <> "" -> str_all (not_char "/") name = true -> extract_name_from_index_path (a ++ String "/" name) = Some name.
Proof.
  intros Hne Hs. unfold extract_name_from_index_path. rewrite rsplit_once_last by exact Hs.
  rewrite bool_decide_false by exact Hne. reflexivity.
Qed.

(** The prefix directories of a name's index file, by its length. *)
Definition index_prefix (lower : string) : string :=
  match String.length lower with
  | 1 => "1"
  | 2 => "2"
  | 3 => "3/" ++ String.substring 0 1 lower
  | _ => String.substring 0 2 lower ++ "/" ++ String.substring 2 2 lower
  end%nat.

Lemma str_slice_ok {E} a b s :
  (a <= b <= String.length s)%nat -> str_all (fun c => negb (is_continuation c)) s = true ->
  str_slice (E := E) a b s = Ok (String.substring a (b - a) s).
Proof.
  intros [Hab Hb] Hs. unfold str_slice. rewrite (proj2 (Nat.leb_le _ _) Hab), (proj2 (Nat.leb_le _ _) Hb).
  rewrite !boundary_all by exact Hs. reflexivity.
Qed.

Lemma index_path_eq {E} name :
  is_valid_name name = true ->
  index_path (E := E) name = Ok (index_prefix (to_ascii_lowercase name) ++ "/" ++ to_ascii_lowercase name).
Proof.
  intros (Hne & _ & Hn)%valid_name_chars. destruct (lower_name_chars name Hn) as [_ Hb].
  assert (Hl : String.length (to_ascii_lowercase name) <> 0%nat).
  { unfold to_ascii_lowercase. rewrite length_str_map. destruct name; [congruence|discriminate]. }
  unfold index_path, index_prefix. set (lower := to_ascii_lowercase name) in *. clearbody lower.
  destruct (String.length lower) as [|[|[|[|k]]]] eqn:El; [contradiction|reflexivity|reflexivity|..];
    rewrite !str_slice_ok by (rewrite ?El; (lia || exact Hb)); cbn [mbind outcome_bind Nat.sub];
    rewrite ?str_app_assoc; reflexivity.
Qed.

(** Every valid name is found again from the path of its index file, up to the
    canonical key, and so is every name that collides with it. *)
Lemma index_path_resolves {E} name :
  is_valid_name name = true ->
  exists p n, index_path (E := E) name = Ok p /\ extract_name_from_index_path p = Some n /\
    canonical_name n = canonical_name name.
Proof.
  intros Hv. rewrite index_path_eq by exact Hv. apply valid_name_chars in Hv as (Hne & _ & Hn).
  do 2 eexists. split; [reflexivity|]. split; [|apply canonical_lower].
  apply extract_last; [|apply lower_name_chars, Hn].
  unfold to_ascii_lowercase. destruct name; [congruence|discriminate].
Qed.
