(* ===== verification/CargoVersion.v ===== *)
(** * Versions

    Model of [crates/ferro-cargo-registry-server/src/version.rs]: the pattern
    [SEMVER], written out as the regular expression it is, and its match. The
    theorems compare it with the grammar of SemVer 2.0. *)

From S2P Require Import Prelude Str Regex.

Local Open Scope string_scope.

(** ** The pattern *)

Definition is_nonzero_digit (c : ascii) : bool := in_range "1" "9" c.
Definition is_letter_or_hyphen (c : ascii) : bool := is_ascii_alphabetic c || Ascii.eqb c "-".
Definition is_ident_char (c : ascii) : bool := is_ascii_alphanumeric c || Ascii.eqb c "-".

Section Pattern.
Context `{U : UnicodeDigits}.

(** [\d]. *)
Definition re_digit : re := RClass is_unicode_digit.

(** [0|[1-9]\d*]. *)
Definition re_number : re := RAlt (lit "0") (RCat (one_of is_nonzero_digit) (RStar re_digit)).

(** [\d*[a-zA-Z-][0-9a-zA-Z-]*]. *)
Definition re_alnum : re := RCat (RStar re_digit) (RCat (one_of is_letter_or_hyphen) (RStar (one_of is_ident_char))).

(** [r(?:\.r)*]. *)
Definition re_dotted (r : re) : re := RCat r (RStar (RCat (lit ".") r)).

Definition SEMVER : re :=
  RCat re_number (RCat (lit ".") (RCat re_number (RCat (lit ".") (RCat re_number
    (RCat (ROpt (RCat (lit "-") (re_dotted (RAlt re_number re_alnum))))
          (ROpt (RCat (lit "+") (re_dotted (RPlus (one_of is_ident_char)))))))))).

Definition is_valid_semver (v : string) : bool := is_match SEMVER v.

End Pattern.

(** ** The grammar of SemVer 2.0 *)

Definition numeric_identifier (s : string) : bool :=
  match s with
  | "" => false
  | String c t => str_all is_ascii_digit s && (negb (Ascii.eqb c "0") || bool_decide (t = ""))
  end.

Definition prerelease_identifier (s : string) : bool :=
  negb (bool_decide (s = "")) && str_all is_ident_char s && (negb (str_all is_ascii_digit s) || numeric_identifier s).

Definition build_identifier (s : string) : bool := negb (bool_decide (s = "")) && str_all is_ident_char s.

Definition version_core (s : string) : bool :=
  match split "." s with
  | [major; minor; patch] => numeric_identifier major && numeric_identifier minor && numeric_identifier patch
  | _ => false
  end.

(** [MAJOR.MINOR.PATCH], then [-] and dot-separated pre-release identifiers,
    then [+] and dot-separated build identifiers, the last two optional. *)
Definition semver_grammar (v : string) : bool :=
  let '(rest, build) := match split_once "+" v with Some (a, b) => (a, Some b) | None => (v, None) end in
  let '(core, pre) := match split_once "-" rest with Some (a, b) => (a, Some b) | None => (rest, None) end in
  version_core core &&
  match pre with Some p => forallb prerelease_identifier (split "." p) | None => true end &&
  match build with Some b => forallb build_identifier (split "." b) | None => true end.

(** ** Lemmas: languages of ASCII strings *)

Definition is_ascii_char (c : ascii) : bool := (code c <? 128)%N.

(** The characters of an ASCII string. *)
Fixpoint singles (s : string) : list string :=
  match s with "" => [] | String c s => String c "" :: singles s end.

Lemma chars_ascii s : str_all is_ascii_char s = true -> chars s = singles s.
Proof.
  induction s as [|c s IH]; [reflexivity|]. cbn. intros [_ Hs]%andb_true_iff. rewrite IH by exact Hs.
  destruct s as [|d s]; [reflexivity|]. cbn. cbn in Hs. apply andb_true_iff in Hs as [Hd _].
  pose proof (ascii_forall (fun d => implb (is_ascii_char d) (negb (is_continuation d))) eq_refl d) as Hi.
  cbv beta in Hi. rewrite Hd in Hi. apply negb_true_iff in Hi. rewrite Hi. reflexivity.
Qed.

Lemma singles_app a b : singles (a ++ b) = (singles a ++ singles b)%list.
Proof. induction a as [|c a IH]; [reflexivity|]. rewrite str_app_cons. cbn. rewrite IH. reflexivity. Qed.

Lemma singles_split s l1 l2 :
  singles s = (l1 ++ l2)%list -> exists a b, s = a ++ b /\ l1 = singles a /\ l2 = singles b.
Proof.
  revert l1. induction s as [|c s IH]; intros l1 E.
  - symmetry in E. apply app_nil in E as [-> ->]. exists "", "". auto.
  - destruct l1 as [|x l1]; cbn in E.
    + exists "", (String c s). auto.
    + injection E as <- E. destruct (IH l1 E) as (a & b & -> & -> & ->). exists (String c a), b. auto.
Qed.

Lemma lang_cat_singles r q s :
  lang (RCat r q) (singles s) <-> exists a b, s = a ++ b /\ lang r (singles a) /\ lang q (singles b).
Proof.
  split.
  - intros Hl. remember (singles s) as l eqn:El. inversion Hl as [| |? ? l1 l2 H1 H2 E1 E2| | | |].
    rewrite <- E2 in El. apply eq_sym, singles_split in El as (a & b & -> & -> & ->). eauto.
  - intros (a & b & -> & H1 & H2). rewrite singles_app. constructor; assumption.
Qed.

Lemma lang_alt_iff r q l : lang (RAlt r q) l <-> lang r l \/ lang q l.
Proof. split; [inversion 1; auto|]. intros []; [apply lang_alt_l|apply lang_alt_r]; assumption. Qed.

Lemma lang_opt_singles r s : lang (ROpt r) (singles s) <-> lang r (singles s) \/ s = "".
Proof.
  unfold ROpt. rewrite lang_alt_iff. split; intros [Hl|Hl]; auto.
  - right. inversion Hl. destruct s; [reflexivity|discriminate].
  - subst. right. constructor.
Qed.

Lemma lang_class_singles p s : lang (RClass p) (singles s) <-> exists c, s = String c "" /\ p (String c "") = true.
Proof.
  split.
  - remember (singles s) as l eqn:El. inversion 1; subst. destruct s as [|c [|d s]]; cbn in *; try discriminate.
    exists c. split; [reflexivity|]. congruence.
  - intros (c & -> & Hp). constructor. exact Hp.
Qed.

Lemma lang_star_class p s :
  lang (RStar (RClass p)) (singles s) <-> str_all (fun c => p (String c "")) s = true.
Proof.
  induction s as [|c s IH]; cbn; [split; [reflexivity|constructor]|]. rewrite andb_true_iff, <- IH. split.
  - intros (a & b & E & Ha & Hb)%lang_star_inv. inversion Ha; subst. cbn in E. subst. auto.
  - intros [Hc Hs]. apply (lang_star_cons _ [String c ""]); [constructor; exact Hc|exact Hs].
Qed.

Lemma lang_lit_singles c s : lang (lit c) (singles s) <-> s = String c "".
Proof.
  unfold lit, one_of. rewrite lang_class_singles. split.
  - intros (d & -> & Hd). apply Ascii.eqb_eq in Hd. subst. reflexivity.
  - intros ->. exists c. split; [reflexivity|apply Ascii.eqb_refl].
Qed.

Lemma lang_lit_cat c r s : lang (RCat (lit c) r) (singles s) <-> exists t, s = String c t /\ lang r (singles t).
Proof.
  rewrite lang_cat_singles. split.
  - intros (a & b & -> & ->%lang_lit_singles & Hb). eauto.
  - intros (t & -> & Ht). exists (String c ""), t. split; [reflexivity|]. split; [apply lang_lit_singles; reflexivity|exact Ht].
Qed.

(** Dot-separated pieces of a language whose strings have no dot. *)
Lemma lang_star_dotted r s :
  lang (RStar (RCat (lit ".") r)) (singles s) <->
  exists ids, s = foldr (fun id t => String "." (id ++ t)) "" ids /\ Forall (fun id => lang r (singles id)) ids.
Proof.
  split.
  - remember (RStar (RCat (lit ".") r)) as q eqn:Eq. remember (singles s) as l eqn:El. intros Hl. revert s Eq El.
    induction Hl as [| | | | | |r' a b Ha _ Hb IH]; try discriminate; intros s Eq El.
    + exists []. destruct s; [auto|discriminate].
    + injection Eq as ->. apply eq_sym, singles_split in El as (x & y & -> & -> & ->).
      apply lang_lit_cat in Ha as (t & -> & Ht). destruct (IH y eq_refl eq_refl) as (ids & -> & Hids).
      exists (t :: ids). auto.
  - intros (ids & -> & Hids). induction Hids as [|id ids Hid _ IH]; [constructor|]. cbn [foldr].
    change (String "." (id ++ ?t)) with ((String "." id) ++ t). rewrite singles_app.
    constructor; [apply lang_lit_cat; eauto|exact IH].
Qed.

Lemma join_foldr id ids :
  join "." (id :: ids) = id ++ foldr (fun id t => String "." (id ++ t)) "" ids.
Proof.
  revert id. induction ids as [|x ids IH]; intros id; [cbn; rewrite str_app_nil_r; reflexivity|].
  rewrite join_cons by discriminate. rewrite IH. reflexivity.
Qed.

Lemma str_all_join p sep l : str_all p (join sep l) = true -> Forall (fun x => str_all p x = true) l.
Proof.
  induction l as [|x l IH]; [constructor|]. destruct l as [|y l]; [cbn; auto|].
  rewrite join_cons by discriminate. rewrite str_all_app. cbn [str_all].
  intros [Hx [_ Hl]%andb_true_iff]%andb_true_iff. constructor; [exact Hx|exact (IH Hl)].
Qed.

Lemma forallb_Forall {A} (p : A -> bool) l : forallb p l = true <-> Forall (fun x => p x = true) l.
Proof. rewrite forallb_forall, Forall_forall. setoid_rewrite list_elem_of_In. reflexivity. Qed.

Lemma lang_dotted r ok s :
  (forall x, str_all is_ascii_char x = true -> lang r (singles x) <-> ok x = true) ->
  (forall x, ok x = true -> str_all (not_char ".") x = true) ->
  str_all is_ascii_char s = true ->
  lang (re_dotted r) (singles s) <-> forallb ok (split "." s) = true.
Proof.
  intros Hr Hdot Hs. unfold re_dotted. rewrite lang_cat_singles, forallb_Forall. split.
  - intros (id & t & -> & Hid & (ids & -> & Hids)%lang_star_dotted). rewrite <- join_foldr in *.
    apply str_all_join in Hs. assert (Hok : Forall (fun x => ok x = true) (id :: ids)).
    { rewrite Forall_forall in Hs |- *. intros x Hx. apply Hr; [exact (Hs x Hx)|].
      apply elem_of_cons in Hx as [->|Hx]; [exact Hid|]. rewrite Forall_forall in Hids. exact (Hids x Hx). }
    rewrite split_join; [exact Hok|discriminate|]. eapply Forall_impl; [exact Hok|exact Hdot].
  - destruct (join_split "." s) as [Hj _]. pose proof (split_nonempty "." s). intros Hok.
    destruct (split "." s) as [|id ids]; [contradiction|]. rewrite <- Hj in *. apply str_all_join in Hs.
    assert (Hl : Forall (fun x => lang r (singles x)) (id :: ids)).
    { rewrite Forall_forall in *. intros x Hx. apply Hr; auto. }
    apply Forall_cons in Hl as [Hid Hids]. rewrite join_foldr. do 2 eexists. split; [reflexivity|].
    split; [exact Hid|]. apply lang_star_dotted. eauto.
Qed.

(** ** Lemmas: the pieces of the pattern *)

Section Pieces.
Context `{U : UnicodeDigits} {UL : UnicodeDigitsLaws U}.

Lemma lang_digits s : str_all is_ascii_char s = true ->
  lang (RStar re_digit) (singles s) <-> str_all is_ascii_digit s = true.
Proof using UL.
  intros Hs. unfold re_digit. rewrite lang_star_class. revert Hs. induction s as [|c s IH]; cbn; [split; reflexivity|].
  intros [Hc Hs]%andb_true_iff. rewrite unicode_digit_ascii by exact Hc. rewrite !andb_true_iff, IH by exact Hs. reflexivity.
Qed.

Lemma lang_idents s : lang (RStar (one_of is_ident_char)) (singles s) <-> str_all is_ident_char s = true.
Proof. unfold one_of. rewrite lang_star_class. reflexivity. Qed.

Lemma digit_char c :
  (is_nonzero_digit c = true <-> is_ascii_digit c = true /\ c <> "0"%char) /\
  (is_ident_char c = true <-> is_ascii_digit c = true \/ is_letter_or_hyphen c = true) /\
  (is_ascii_digit c = true -> is_letter_or_hyphen c = false).
Proof.
  pose proof (ascii_forall (fun c => eqb (is_nonzero_digit c) (is_ascii_digit c && negb (Ascii.eqb c "0")) &&
    eqb (is_ident_char c) (is_ascii_digit c || is_letter_or_hyphen c) &&
    negb (is_ascii_digit c && is_letter_or_hyphen c)) eq_refl c) as Hc.
  apply andb_true_iff in Hc as [[H1 H2]%andb_true_iff H3]. apply eqb_prop in H1, H2. apply negb_true_iff in H3.
  rewrite H1, H2, andb_true_iff, orb_true_iff, negb_true_iff, Ascii.eqb_neq. split_and!; [tauto|tauto|].
  intros Hd. rewrite Hd in H3. exact H3.
Qed.

Lemma lang_number s : str_all is_ascii_char s = true -> lang re_number (singles s) <-> numeric_identifier s = true.
Proof using UL.
  intros Hs. unfold re_number. rewrite lang_alt_iff, lang_lit_singles, lang_cat_singles.
  destruct s as [|c t]; [split; [intros [|(a & b & E & Ha & _)]; [discriminate|]|discriminate]|].
  { destruct a; [|discriminate]. apply lang_class_singles in Ha as (c & E' & _). discriminate. }
  cbn [str_all] in Hs. apply andb_true_iff in Hs as [_ Ht]. cbn [numeric_identifier str_all].
  rewrite !andb_true_iff, orb_true_iff, negb_true_iff, Ascii.eqb_neq, bool_decide_eq_true.
  assert (Hcat : (exists a b, String c t = a ++ b /\ lang (one_of is_nonzero_digit) (singles a) /\ lang (RStar re_digit) (singles b))
    <-> is_nonzero_digit c = true /\ str_all is_ascii_digit t = true).
  { split.
    - intros (a & b & E & (d & -> & Hd)%lang_class_singles & Hb). cbn in E. injection E as -> ->.
      rewrite lang_digits in Hb by exact Ht. auto.
    - intros [Hc Hd]. exists (String c ""), t. split; [reflexivity|]. rewrite lang_digits by exact Ht.
      split; [apply lang_class_singles; eauto|exact Hd]. }
  rewrite Hcat, (proj1 (digit_char c)). split.
  - intros [[= -> ->]|((Hd & Hz) & Ht')]; [split; [split; reflexivity|right; reflexivity]|tauto].
  - intros [[Hd Ht'] [Hz|Hz]]; [tauto|]. subst t. destruct (Ascii.eqb_spec c "0") as [->|Hz]; [auto|tauto].
Qed.

(** An identifier that is not all digits has a first letter or hyphen. *)
Lemma first_letter s : str_all is_ident_char s = true -> str_all is_ascii_digit s = false ->
  exists a c b, s = a ++ String c b /\ str_all is_ascii_digit a = true /\ is_letter_or_hyphen c = true /\ str_all is_ident_char b = true.
Proof.
  induction s as [|c s IH]; cbn; [discriminate|]. intros [Hc Hs]%andb_true_iff Hd.
  destruct (is_ascii_digit c) eqn:Ec; cbn in Hd.
  - destruct (IH Hs Hd) as (a & x & b & -> & Ha & Hx & Hb). exists (String c a), x, b. split; [reflexivity|]. cbn. rewrite Ec. auto.
  - exists "", c, s. split; [reflexivity|]. apply digit_char in Hc as [Hc|Hc]; [congruence|]. auto.
Qed.

Lemma digits_idents s : str_all is_ascii_digit s = true -> str_all is_ident_char s = true.
Proof. apply str_all_impl. intros c Hc. apply digit_char. auto. Qed.

Lemma lang_alnum s : str_all is_ascii_char s = true ->
  lang re_alnum (singles s) <-> str_all is_ident_char s = true /\ str_all is_ascii_digit s = false.
Proof using UL.
  intros Hs. unfold re_alnum. rewrite lang_cat_singles. split.
  - intros (a & b & -> & Ha & Hb). rewrite str_all_app in Hs. apply andb_true_iff in Hs as [Hsa _].
    rewrite lang_digits in Ha by exact Hsa. apply lang_cat_singles in Hb as (x & y & -> & (c & -> & Hc)%lang_class_singles & Hy%lang_idents).
    rewrite !str_all_app, (digits_idents a Ha), Hy. cbn [str_all].
    destruct (digit_char c) as (_ & Hi & Hd). rewrite (proj2 Hi (or_intror Hc)). split; [reflexivity|].
    destruct (is_ascii_digit c); [rewrite Hd in Hc by reflexivity; discriminate|]. apply andb_false_r.
  - intros [Hi Hd]. destruct (first_letter s Hi Hd) as (a & c & b & -> & Ha & Hc & Hb).
    rewrite str_all_app in Hs. apply andb_true_iff in Hs as [Hsa _]. exists a, (String c b). split; [reflexivity|].
    rewrite lang_digits by exact Hsa. split; [exact Ha|]. apply lang_cat_singles. exists (String c ""), b.
    split; [reflexivity|]. split; [apply lang_class_singles; eauto|apply lang_idents, Hb].
Qed.

Lemma numeric_digits s : numeric_identifier s = true -> s <> "" /\ str_all is_ascii_digit s = true.
Proof. destruct s as [|c t]; [discriminate|]. cbn [numeric_identifier]. intros [Hd _]%andb_true_iff. split; [discriminate|exact Hd]. Qed.

Lemma lang_prerelease s : str_all is_ascii_char s = true ->
  lang (RAlt re_number re_alnum) (singles s) <-> prerelease_identifier s = true.
Proof using UL.
  intros Hs. rewrite lang_alt_iff, lang_number, lang_alnum by exact Hs. unfold prerelease_identifier.
  rewrite !andb_true_iff, orb_true_iff, !negb_true_iff, bool_decide_eq_false. split.
  - intros [Hn|[Hi Hd]]; [destruct (numeric_digits s Hn) as [Hne Hd]; pose proof (digits_idents s Hd); auto|].
    split; [split; [intros ->; discriminate|exact Hi]|auto].
  - intros [[Hne Hi] [Hd|Hn]]; auto.
Qed.

Lemma lang_build s : lang (RPlus (one_of is_ident_char)) (singles s) <-> build_identifier s = true.
Proof.
  unfold RPlus, build_identifier. rewrite lang_cat_singles, andb_true_iff, negb_true_iff, bool_decide_eq_false. split.
  - intros (a & b & -> & (c & -> & Hc)%lang_class_singles & Hb%lang_idents). split; [discriminate|].
    rewrite str_app_cons. cbn. rewrite Hc. exact Hb.
  - intros [Hne Hi]. destruct s as [|c s]; [congruence|]. cbn in Hi. apply andb_true_iff in Hi as [Hc Hi].
    exists (String c ""), s. split; [reflexivity|]. split; [apply lang_class_singles; eauto|apply lang_idents, Hi].
Qed.

End Pieces.

(** ** Lemmas: the whole pattern *)

(** An optional part with its marker. *)
Definition part (c : ascii) (o : option string) : string := match o with Some p => String c p | None => "" end.

Lemma split_once_part sep a o : str_all (not_char sep) a = true ->
  split_once sep (a ++ part sep o) = (fun b => (a, b)) <$> o.
Proof.
  intros Ha. destruct o as [b|]; cbn; [apply split_once_app, Ha|].
  rewrite str_app_nil_r. apply split_once_none, Ha.
Qed.

Lemma part_split sep s : exists a o, s = a ++ part sep o /\ str_all (not_char sep) a = true /\
  split_once sep s = (fun b => (a, b)) <$> o.
Proof.
  destruct (split_once sep s) as [[a b]|] eqn:E.
  - apply split_once_spec in E as [-> Ha]. exists a, (Some b). auto.
  - apply split_once_none in E. exists s, None. cbn. rewrite str_app_nil_r. auto.
Qed.

Definition grammar_parts (core : string) (pre build : option string) : bool :=
  version_core core &&
  match pre with Some p => forallb prerelease_identifier (split "." p) | None => true end &&
  match build with Some b => forallb build_identifier (split "." b) | None => true end.

Lemma grammar_of_parts core pre build :
  str_all (not_char "-") core = true -> str_all (not_char "+") (core ++ part "-" pre) = true ->
  semver_grammar ((core ++ part "-" pre) ++ part "+" build) = grammar_parts core pre build.
Proof.
  intros Hm Hp. unfold semver_grammar. rewrite split_once_part by exact Hp.
  destruct build as [b|]; cbn [fmap option_fmap option_map]; [|cbn [part]; rewrite str_app_nil_r];
    (rewrite split_once_part by exact Hm; destruct pre as [p|]; cbn [fmap option_fmap option_map part]; rewrite ?str_app_nil_r; reflexivity).
Qed.

(** What the identifiers are made of. *)
Lemma version_core_inv s : version_core s = true <-> exists a b c, s = a ++ String "." (b ++ String "." c) /\
  numeric_identifier a = true /\ numeric_identifier b = true /\ numeric_identifier c = true.
Proof.
  unfold version_core. split.
  - destruct (join_split "." s) as [Hj _]. destruct (split "." s) as [|a [|b [|c [|]]]]; try discriminate.
    intros [[Ha Hb]%andb_true_iff Hc]%andb_true_iff. exists a, b, c. cbn in Hj. auto.
  - intros (a & b & c & -> & Ha & Hb & Hc).
    assert (Hnd : forall x, numeric_identifier x = true -> str_all (not_char ".") x = true).
    { intros x [_ Hx]%numeric_digits. revert Hx. apply str_all_impl.
      intros d. pose proof (ascii_forall (fun d => implb (is_ascii_digit d) (not_char "." d)) eq_refl d) as Hi.
      cbv beta in Hi. intros Hd. rewrite Hd in Hi. exact Hi. }
    rewrite !split_app, split_single by auto. rewrite Ha, Hb, Hc. reflexivity.
Qed.

Lemma core_chars s : version_core s = true -> str_all (fun c => is_ascii_digit c || Ascii.eqb c ".") s = true.
Proof.
  intros (a & b & c & -> & [_ Ha]%numeric_digits & [_ Hb]%numeric_digits & [_ Hc]%numeric_digits)%version_core_inv.
  assert (Hi : forall x, str_all is_ascii_digit x = true -> str_all (fun c => is_ascii_digit c || Ascii.eqb c ".") x = true).
  { intros x. apply str_all_impl. intros d ->. reflexivity. }
  rewrite !str_all_app. cbn [str_all]. rewrite str_all_app. cbn [str_all]. rewrite !Hi by assumption. reflexivity.
Qed.

Lemma dotted_chars (ok : string -> bool) s :
  (forall x, ok x = true -> str_all is_ident_char x = true) ->
  forallb ok (split "." s) = true -> str_all (fun c => is_ident_char c || Ascii.eqb c ".") s = true.
Proof.
  intros Hok Hs. destruct (join_split "." s) as [<- _]. apply forallb_Forall in Hs.
  induction Hs as [|x l Hx Hl IH]; [reflexivity|].
  assert (Hi : str_all (fun c => is_ident_char c || Ascii.eqb c ".") x = true).
  { generalize (Hok x Hx). apply str_all_impl. intros d ->. reflexivity. }
  destruct l as [|y l]; [exact Hi|]. rewrite join_cons by discriminate. rewrite str_all_app, Hi. exact IH.
Qed.

Lemma prerelease_chars x : prerelease_identifier x = true -> str_all is_ident_char x = true.
Proof. unfold prerelease_identifier. intros [[_ Hi]%andb_true_iff _]%andb_true_iff. exact Hi. Qed.

Lemma build_chars x : build_identifier x = true -> str_all is_ident_char x = true.
Proof. unfold build_identifier. intros [_ Hi]%andb_true_iff. exact Hi. Qed.

(** The markers cannot occur before their part. *)
Lemma parts_separated core pre build : grammar_parts core pre build = true ->
  str_all (not_char "-") core = true /\ str_all (not_char "+") (core ++ part "-" pre) = true.
Proof.
  unfold grammar_parts. intros [[Hc%core_chars Hp]%andb_true_iff _]%andb_true_iff.
  assert (Hk : forall d, implb (is_ascii_digit d || Ascii.eqb d ".") (not_char "-" d && not_char "+" d) &&
    implb (is_ident_char d || Ascii.eqb d ".") (not_char "+" d) = true) by (apply ascii_forall; reflexivity).
  rewrite str_all_app. split; [|apply andb_true_iff; split].
  1, 2: revert Hc; apply str_all_impl; intros d Hd; specialize (Hk d); rewrite Hd in Hk;
    apply andb_true_iff in Hk as [[? ?]%andb_true_iff _]; assumption.
  destruct pre as [p|]; [|reflexivity]. cbn [part str_all].
  apply (dotted_chars _ p prerelease_chars) in Hp. revert Hp. apply str_all_impl.
  intros d Hd. specialize (Hk d). rewrite Hd in Hk. apply andb_true_iff in Hk as [_ Hk]. exact Hk.
Qed.

Lemma grammar_iff_parts v : semver_grammar v = true <->
  exists core pre build, v = (core ++ part "-" pre) ++ part "+" build /\ grammar_parts core pre build = true.
Proof.
  split.
  - destruct (part_split "+" v) as (front & build & -> & Hf & _). destruct (part_split "-" front) as (core & pre & -> & Hc & _).
    rewrite grammar_of_parts by assumption. eauto.
  - intros (core & pre & build & -> & Hg). destruct (parts_separated _ _ _ Hg).
    rewrite grammar_of_parts by assumption. exact Hg.
Qed.

Section Whole.
Context `{U : UnicodeDigits} {UL : UnicodeDigitsLaws U}.

Lemma identifier_no_dot x : str_all is_ident_char x = true -> str_all (not_char ".") x = true.
Proof.
  apply str_all_impl. intros d. pose proof (ascii_forall (fun d => implb (is_ident_char d) (not_char "." d)) eq_refl d) as Hi.
  cbv beta in Hi. intros Hd. rewrite Hd in Hi. exact Hi.
Qed.

Lemma lang_part c r (ok : string -> bool) s : str_all is_ascii_char s = true ->
  (forall x, str_all is_ascii_char x = true -> lang r (singles x) <-> forallb ok (split "." x) = true) ->
  lang (ROpt (RCat (lit c) r)) (singles s) <->
  exists o, s = part c o /\ match o with Some p => forallb ok (split "." p) | None => true end = true.
Proof.
  intros Hs Hr. rewrite lang_opt_singles, lang_lit_cat. split.
  - intros [(t & -> & Ht)| ->]; [|exists None; auto]. exists (Some t). split; [reflexivity|]. apply Hr, Ht.
    cbn in Hs. apply andb_true_iff in Hs. apply Hs.
  - intros ([p|] & -> & Hp); [left|right; reflexivity]. exists p. split; [reflexivity|]. apply Hr, Hp.
    cbn in Hs. apply andb_true_iff in Hs. apply Hs.
Qed.

Lemma lang_core r s : str_all is_ascii_char s = true ->
  lang (RCat re_number (RCat (lit ".") (RCat re_number (RCat (lit ".") (RCat re_number r))))) (singles s) <->
  exists core t, s = core ++ t /\ version_core core = true /\ lang r (singles t).
Proof using UL.
  intros Hs. rewrite lang_cat_singles. setoid_rewrite lang_lit_cat. setoid_rewrite lang_cat_singles.
  setoid_rewrite lang_lit_cat. setoid_rewrite lang_cat_singles. split.
  - intros (a & x & -> & Ha & y & -> & b & z & -> & Hb & w & -> & c & t & -> & Hc & Ht).
    exists (a ++ String "." (b ++ String "." c)), t. rewrite str_app_assoc, str_app_cons, str_app_assoc, str_app_cons.
    split; [reflexivity|]. split; [|exact Ht]. apply version_core_inv. exists a, b, c. split; [reflexivity|].
    rewrite !str_all_app in Hs. cbn [str_all] in Hs. rewrite str_all_app in Hs. cbn [str_all] in Hs. rewrite str_all_app in Hs.
    rewrite !andb_true_iff in Hs. rewrite !lang_number in * by tauto. auto.
  - intros (core & t & -> & (a & b & c & -> & Ha & Hb & Hc)%version_core_inv & Ht).
    rewrite !str_all_app in Hs. cbn [str_all] in Hs. rewrite str_all_app in Hs. cbn [str_all] in Hs. rewrite !andb_true_iff in Hs.
    rewrite str_app_assoc, str_app_cons, str_app_assoc, str_app_cons.
    eexists a, _. split; [reflexivity|]. rewrite lang_number by tauto. split; [exact Ha|].
    eexists. split; [reflexivity|]. eexists b, _. split; [reflexivity|]. rewrite lang_number by tauto. split; [exact Hb|].
    eexists. split; [reflexivity|]. exists c, t. split; [reflexivity|]. rewrite lang_number by tauto. auto.
Qed.

Lemma lang_semver v : str_all is_ascii_char v = true ->
  lang SEMVER (singles v) <->
  exists core pre build, v = (core ++ part "-" pre) ++ part "+" build /\ grammar_parts core pre build = true.
Proof using UL.
  intros Hv. unfold SEMVER. rewrite lang_core by exact Hv. unfold grammar_parts. split.
  - intros (core & t & -> & Hc & Ht). rewrite str_all_app in Hv. apply andb_true_iff in Hv as [_ Ht'].
    apply lang_cat_singles in Ht as (x & y & -> & Hx & Hy). rewrite str_all_app in Ht'. apply andb_true_iff in Ht' as [Hx' Hy'].
    apply (lang_part _ _ prerelease_identifier) in Hx as (pre & -> & Hp); [|exact Hx'|].
    2: { intros z Hz. apply lang_dotted; [intros; apply lang_prerelease; assumption| |exact Hz].
         intros u Hu. apply identifier_no_dot, prerelease_chars, Hu. }
    apply (lang_part _ _ build_identifier) in Hy as (build & -> & Hb); [|exact Hy'|].
    2: { intros z Hz. apply lang_dotted; [intros; apply lang_build| |exact Hz].
         intros u Hu. apply identifier_no_dot, build_chars, Hu. }
    exists core, pre, build. rewrite str_app_assoc, Hc, Hp, Hb. auto.
  - intros (core & pre & build & -> & [[Hc Hp]%andb_true_iff Hb]%andb_true_iff). rewrite !str_all_app, !andb_true_iff in Hv.
    rewrite str_app_assoc. eexists core, _. split; [reflexivity|]. split; [exact Hc|]. apply lang_cat_singles.
    do 2 eexists. split; [reflexivity|]. split.
    + apply (lang_part _ _ prerelease_identifier); [tauto| |eauto].
      intros z Hz. apply lang_dotted; [intros; apply lang_prerelease; assumption| |exact Hz].
      intros u Hu. apply identifier_no_dot, prerelease_chars, Hu.
    + apply (lang_part _ _ build_identifier); [tauto| |eauto].
      intros z Hz. apply lang_dotted; [intros; apply lang_build| |exact Hz].
      intros u Hu. apply identifier_no_dot, build_chars, Hu.
Qed.

End Whole.

(** ** Properties *)

(** C29: on ASCII strings the version check accepts exactly the versions of the
    SemVer 2.0 grammar: three numbers without leading zeros, optional
    dot-separated pre-release identifiers (numeric ones without leading zeros)
    and optional dot-separated build identifiers. *)
Theorem semver_check_is_the_grammar `{U : UnicodeDigits} {UL : UnicodeDigitsLaws U} (v : string) :
  str_all is_ascii_char v = true -> is_valid_semver v = semver_grammar v.
Proof.
  intros Hv. apply eq_true_iff_eq. unfold is_valid_semver, is_match. rewrite re_match_lang, chars_ascii by exact Hv.
  rewrite lang_semver, grammar_iff_parts by exact Hv. reflexivity.
Qed.

Lemma semver_check_is_the_grammar_witness :
  is_valid_semver "1.2.3-rc.1+sha.abc" = true /\ is_valid_semver "1.02.3" = false.
Proof.
  split; (rewrite (semver_check_is_the_grammar (UL := two_scripts_laws)); [vm_compute; reflexivity|vm_compute; reflexivity]).
Defined.

(** Outside ASCII the check accepts more: [\d] matches every Unicode
    decimal digit, so a version whose major number ends in an Arabic-Indic
    zero is accepted although SemVer allows ASCII digits only. *)
Theorem semver_check_accepts_unicode_digits `{U : UnicodeDigits} {UL : UnicodeDigitsLaws U} :
  let v := String "1" (String "217" (String "160" ".0.0")) in
  is_valid_semver v = true /\ semver_grammar v = false.
Proof.
  split; [|vm_compute; reflexivity]. set (z := String "217" (String "160" "")).
  assert (H0 : lang re_number ["0"]) by (apply lang_alt_l; constructor; reflexivity).
  assert (Hd : lang (lit ".") ["."]) by (constructor; reflexivity).
  unfold is_valid_semver, is_match. change (chars _) with ["1"; z; "."; "0"; "."; "0"]. apply re_match_lang.
  unfold SEMVER. apply (lang_cat _ _ ["1"; z] ["."; "0"; "."; "0"]).
  { apply lang_alt_r. apply (lang_cat _ _ ["1"] [z]); [constructor; reflexivity|].
    apply (lang_star_cons _ [z] []); [constructor; apply unicode_digit_arabic|constructor]. }
  apply (lang_cat _ _ ["."] ["0"; "."; "0"]); [exact Hd|]. apply (lang_cat _ _ ["0"] ["."; "0"]); [exact H0|].
  apply (lang_cat _ _ ["."] ["0"]); [exact Hd|]. apply (lang_cat _ _ ["0"] []); [exact H0|].
  apply (lang_cat _ _ [] []); apply lang_alt_r; constructor.
Qed.
