(* ===== verification/CargoIndex.v ===== *)
(** * The sparse index and the publish body

    Models of [crates/ferro-cargo-registry-server/src/index.rs], [publish.rs],
    [owners.rs] and [yank.rs]: the metadata a publish carries, the index entry
    made of it, the line format of index files, and the framing of a publish
    body. The codecs follow the [serde] attributes of the structs. *)

From S2P Require Import Prelude Str Frame Net Json Digest BlobStore CargoName.

Local Open Scope string_scope.

Abbreviation feature_map := (gmap string (list string)).

(** ** Publish metadata *)

Record PublishDep := mkPublishDep {
  pd_name : string;
  pd_version_req : string;
  pd_features : list string;
  pd_optional : bool;
  pd_default_features : bool;
  pd_target : option string;
  pd_kind : option string;
  pd_registry : option string;
  pd_explicit_name_in_toml : option string;
}.

Record PublishManifest := mkPublishManifest {
  pm_name : string;
  pm_vers : string;
  pm_version : string;
  pm_deps : list PublishDep;
  pm_features : feature_map;
  pm_links : option string;
  pm_rust_version : option string;
}.

Definition default_true : bool := true.

Definition de_opt_string : de (option string) := de_option de_string.
Definition de_features : de feature_map := de_map (de_vec de_string).

Definition de_PublishDep : de PublishDep := fun v =>
  match de_slots ["name"; "version_req"; "features"; "optional"; "default_features"; "target"; "kind"; "registry";
                  "explicit_name_in_toml"] v with
  | Some [name; version_req; features; optional; default_features; target; kind; registry; explicit] =>
    name ← de_field de_string None name;
    version_req ← de_field de_string (Some "") version_req;
    features ← de_field (de_vec de_string) (Some []) features;
    optional ← de_field de_bool (Some false) optional;
    default_features ← de_field de_bool (Some default_true) default_features;
    target ← de_field de_opt_string (Some None) target;
    kind ← de_field de_opt_string (Some None) kind;
    registry ← de_field de_opt_string (Some None) registry;
    explicit ← de_field de_opt_string (Some None) explicit;
    Some (mkPublishDep name version_req features optional default_features target kind registry explicit)
  | _ => None
  end.

Definition de_PublishManifest : de PublishManifest := fun v =>
  match de_slots ["name"; "vers"; "version"; "deps"; "features"; "links"; "rust_version"] v with
  | Some [name; vers; version; deps; features; links; rust_version] =>
    name ← de_field de_string None name;
    vers ← de_field de_string (Some "") vers;
    version ← de_field de_string (Some "") version;
    deps ← de_field (de_vec de_PublishDep) (Some []) deps;
    features ← de_field de_features (Some ∅) features;
    links ← de_field de_opt_string (Some None) links;
    rust_version ← de_field de_opt_string (Some None) rust_version;
    Some (mkPublishManifest name vers version deps features links rust_version)
  | _ => None
  end.

(** ** Index entries *)

Record IndexDep := mkIndexDep {
  id_name : string;
  id_req : string;
  id_features : list string;
  id_optional : bool;
  id_default_features : bool;
  id_target : option string;
  id_kind : option string;
  id_registry : option string;
  id_package : option string;
}.

Record IndexEntry := mkEntry {
  ie_name : string;
  ie_vers : string;
  ie_deps : list IndexDep;
  ie_cksum : string;
  ie_features : feature_map;
  ie_yanked : bool;
  ie_links : option string;
  ie_v : option Z;
  ie_features2 : option feature_map;
  ie_rust_version : option string;
}.

#[export] Instance IndexDep_eq_dec : EqDecision IndexDep.
Proof. solve_decision. Defined.
#[export] Instance IndexEntry_eq_dec : EqDecision IndexEntry.
Proof. solve_decision. Defined.

Definition into_index_dep (d : PublishDep) : IndexDep :=
  let renamed := match pd_explicit_name_in_toml d with
                 | Some alias => negb (bool_decide (alias = pd_name d))
                 | None => false
                 end in
  let '(name, package) :=
    if renamed then (default (pd_name d) (pd_explicit_name_in_toml d), Some (pd_name d))
    else (pd_name d, None) in
  mkIndexDep name (pd_version_req d) (pd_features d) (pd_optional d) (pd_default_features d)
    (pd_target d) (pd_kind d) (pd_registry d) package.

Definition into_index_entry (m : PublishManifest) (cksum : string) : IndexEntry :=
  let vers := if bool_decide (pm_vers m = "") then pm_version m else pm_vers m in
  mkEntry (pm_name m) vers (map into_index_dep (pm_deps m)) cksum (pm_features m) false (pm_links m)
    (Some 2%Z) None (pm_rust_version m).

Definition ser_strings : list string -> Value := ser_vec JString.
Definition ser_features : feature_map -> Value := ser_map ser_strings.

Definition ser_IndexDep (d : IndexDep) : Value :=
  JObject ([("name", JString (id_name d)); ("req", JString (id_req d))] ++
    (if bool_decide (id_features d = []) then [] else [("features", ser_strings (id_features d))]) ++
    [("optional", JBool (id_optional d)); ("default_features", JBool (id_default_features d))] ++
    ser_some "target" JString (id_target d) ++ ser_some "kind" JString (id_kind d) ++
    ser_some "registry" JString (id_registry d) ++ ser_some "package" JString (id_package d))%list.

Definition de_IndexDep : de IndexDep := fun v =>
  match de_slots ["name"; "req"; "features"; "optional"; "default_features"; "target"; "kind"; "registry"; "package"] v with
  | Some [name; req; features; optional; default_features; target; kind; registry; package] =>
    name ← de_field de_string None name;
    req ← de_field de_string None req;
    features ← de_field (de_vec de_string) (Some []) features;
    optional ← de_field de_bool (Some false) optional;
    default_features ← de_field de_bool None default_features;
    target ← de_field de_opt_string (Some None) target;
    kind ← de_field de_opt_string (Some None) kind;
    registry ← de_field de_opt_string (Some None) registry;
    package ← de_field de_opt_string (Some None) package;
    Some (mkIndexDep name req features optional default_features target kind registry package)
  | _ => None
  end.

Definition ser_IndexEntry (e : IndexEntry) : Value :=
  JObject ([("name", JString (ie_name e)); ("vers", JString (ie_vers e)); ("deps", ser_vec ser_IndexDep (ie_deps e));
            ("cksum", JString (ie_cksum e)); ("features", ser_features (ie_features e)); ("yanked", JBool (ie_yanked e))] ++
    ser_some "links" JString (ie_links e) ++ ser_some "v" ser_u64 (ie_v e) ++
    ser_some "features2" ser_features (ie_features2 e) ++ ser_some "rust_version" JString (ie_rust_version e))%list.

Definition de_IndexEntry : de IndexEntry := fun v =>
  match de_slots ["name"; "vers"; "deps"; "cksum"; "features"; "yanked"; "links"; "v"; "features2"; "rust_version"] v with
  | Some [name; vers; deps; cksum; features; yanked; links; iv; features2; rust_version] =>
    name ← de_field de_string None name;
    vers ← de_field de_string None vers;
    deps ← de_field (de_vec de_IndexDep) (Some []) deps;
    cksum ← de_field de_string (Some "") cksum;
    features ← de_field de_features (Some ∅) features;
    yanked ← de_field de_bool (Some false) yanked;
    links ← de_field de_opt_string (Some None) links;
    iv ← de_field (de_option (de_uint U32_MAX)) (Some None) iv;
    features2 ← de_field (de_option de_features) (Some None) features2;
    rust_version ← de_field de_opt_string (Some None) rust_version;
    Some (mkEntry name vers deps cksum features yanked links iv features2 rust_version)
  | _ => None
  end.

(** [serde_json::from_value] of the manifest, then the conversion. *)
Definition entry_from_manifest (manifest : Value) (cksum : string) : option IndexEntry :=
  publish ← de_PublishManifest manifest; Some (into_index_entry publish cksum).

(** ** Owners *)

Record Owner := mkOwner { o_id : Z; o_login : string; o_name : option string }.

#[export] Instance Owner_eq_dec : EqDecision Owner.
Proof. solve_decision. Defined.

Definition ser_Owner (o : Owner) : Value :=
  JObject ([("id", ser_u64 (o_id o)); ("login", JString (o_login o))] ++ ser_some "name" JString (o_name o))%list.

Definition de_Owner : de Owner := fun v =>
  match de_slots ["id"; "login"; "name"] v with
  | Some [i; login; name] =>
    i ← de_field (de_uint U64_MAX) None i;
    login ← de_field de_string None login;
    name ← de_field de_opt_string (Some None) name;
    Some (mkOwner i login name)
  | _ => None
  end.

(** [OwnersResponse], [OwnersMutationResponse], [YankResponse::ok()]. *)
Definition OwnersResponse (users : list Owner) : Value := JObject [("users", ser_vec ser_Owner users)].
Definition OwnersMutationResponse (ok : bool) (msg : option string) : Value :=
  JObject (("ok", JBool ok) :: ser_some "msg" JString msg).
Definition YankResponse_ok : Value := JObject [("ok", JBool true)].

(** ** Lines *)

Section Lines.
Context `{J : JsonText}.

Definition to_line (e : IndexEntry) : option string := json_write (ser_IndexEntry e).

Definition render_lines (entries : list IndexEntry) : string :=
  fold_left (fun out e => match to_line e with Some line => out ++ line ++ String "010" "" | None => out end) entries "".

Fixpoint parse_line_list (ls : list string) : option (list IndexEntry) :=
  match ls with
  | [] => Some []
  | line :: ls =>
    if is_blank line then parse_line_list ls else
    v ← json_read (bytes_of_string line); entry ← de_IndexEntry v;
    rest ← parse_line_list ls; Some (entry :: rest)
  end.

Definition parse_lines (text : string) : option (list IndexEntry) := parse_line_list (lines text).

(** ** The publish body *)

Record PublishRequest := mkRequest { manifest : Value; tarball : bytes }.

Definition u32_from_le_bytes (l : bytes) : Z := u32_from_be_bytes (reverse l).
Definition u32_to_le_bytes (z : Z) : bytes := reverse (u32_to_be_bytes z).

Definition read_u32_le (body : bytes) : outcome CargoError (Z * bytes) :=
  if (zlen body <? 4)%Z then Err (InvalidPublish (PublishText "body too short for 4-byte length prefix")) else
  Ok (u32_from_le_bytes (take 4 body), drop 4 body).

Definition parse (body : bytes) : outcome CargoError PublishRequest :=
  '(metadata_len, rest) ← read_u32_le body;
  if (zlen rest <? metadata_len)%Z then Err (InvalidPublish (PublishText "metadata body truncated")) else
  let metadata_bytes := take (Z.to_nat metadata_len) rest in
  let rest := drop (Z.to_nat metadata_len) rest in
  manifest ← ok_or (value_of <$> json_read metadata_bytes) (InvalidPublish MetadataJson);
  '(crate_len, rest) ← read_u32_le rest;
  if (zlen rest <? crate_len)%Z then Err (InvalidPublish (PublishText "crate body truncated")) else
  Ok (mkRequest manifest (take (Z.to_nat crate_len) rest)).

Definition encode (manifest : Value) (tarball : bytes) : bytes :=
  let metadata_bytes := match json_write manifest with Some s => bytes_of_string s | None => [] end in
  let mlen := default U32_MAX (u32_try_from (zlen metadata_bytes)) in
  let clen := default U32_MAX (u32_try_from (zlen tarball)) in
  (u32_to_le_bytes mlen ++ metadata_bytes ++ u32_to_le_bytes clen ++ tarball)%list.

End Lines.

(** ** Well-formed values: the machine integers are in range *)

Definition entry_wf (e : IndexEntry) : Prop := match ie_v e with Some n => is_u32 n | None => True end.
Definition owner_wf (o : Owner) : Prop := is_u64 (o_id o).

(** ** Lemmas: the codecs *)

Lemma de_strings_ser l : de_vec de_string (ser_strings l) = Some l.
Proof. apply de_vec_ser, Forall_true. reflexivity. Qed.

Lemma de_features_ser m : de_features (ser_features m) = Some m.
Proof. apply de_map_ser. intros k l _. apply de_strings_ser. Qed.

Lemma de_opt_string_ser s : de_opt_string (JString s) = Some (Some s).
Proof. reflexivity. Qed.

Lemma de_ser_IndexDep d : de_IndexDep (ser_IndexDep d) = Some d.
Proof.
  destruct d as [name req features optional df target kind registry package].
  unfold de_IndexDep, ser_IndexDep. cbn [id_name id_req id_features id_optional id_default_features id_target id_kind id_registry id_package].
  generalize (de_strings_ser features). generalize (ser_strings features). intros vf Hvf.
  case_bool_decide as Hb; [subst features|]; destruct target, kind, registry, package; de_struct; rewrite ?Hvf; reflexivity.
Qed.

Lemma de_ser_IndexEntry e : entry_wf e -> de_IndexEntry (ser_IndexEntry e) = Some e.
Proof.
  destruct e as [name vers deps cksum features yanked links iv features2 rust]. unfold entry_wf. cbn [ie_v]. intros Hv.
  unfold de_IndexEntry, ser_IndexEntry. cbn [ie_name ie_vers ie_deps ie_cksum ie_features ie_yanked ie_links ie_v ie_features2 ie_rust_version].
  assert (Hd : de_vec de_IndexDep (ser_vec ser_IndexDep deps) = Some deps)
    by (apply de_vec_ser, Forall_true; exact de_ser_IndexDep).
  revert Hd. generalize (ser_vec ser_IndexDep deps). intros vd Hd.
  generalize (de_features_ser features). generalize (ser_features features). intros vf Hf.
  assert (H2 : forall m, de_option de_features (ser_features m) = Some (Some m))
    by (intros m; apply de_option_some; [discriminate|apply de_features_ser]).
  assert (H3 : forall n, is_u32 n -> de_option (de_uint U32_MAX) (ser_u64 n) = Some (Some n)).
  { intros n Hn. unfold is_u32 in Hn. apply de_option_some; [discriminate|].
    apply de_uint_ser; unfold is_u64, U32_MAX, U64_MAX in *; lia. }
  unfold ser_some. destruct iv as [n|]; [generalize (H3 n Hv); generalize (ser_u64 n); intros vn Hn|];
  (destruct features2 as [m|]; [generalize (H2 m); generalize (ser_features m); intros vm Hm|]);
  destruct links, rust; de_struct; rewrite Hd, Hf, ?Hn, ?Hm; reflexivity.
Qed.

Lemma de_ser_Owner o : owner_wf o -> de_Owner (ser_Owner o) = Some o.
Proof.
  destruct o as [i login name]. unfold owner_wf. cbn [o_id]. intros Hi. unfold de_Owner, ser_Owner. cbn [o_id o_login o_name].
  assert (Hd : de_uint U64_MAX (ser_u64 i) = Some i) by (apply de_uint_ser; unfold is_u64 in *; tauto || lia).
  revert Hd. generalize (ser_u64 i). intros vi Hd. destruct name; de_struct; rewrite Hd; reflexivity.
Qed.

Lemma printable_strings n l : printable (S (S n)) (ser_strings l) = true.
Proof. apply printable_vec, Forall_true. reflexivity. Qed.

Lemma printable_features n m : printable (S (S (S n))) (ser_features m) = true.
Proof. apply printable_map. intros k l _. apply printable_strings. Qed.

#[export] Hint Resolve printable_strings printable_features : json.

(** Every field of an object is printable. *)
Ltac printable_fields :=
  repeat first [apply Forall_nil_2 | apply Forall_cons_2 | apply Forall_app_2 | apply printable_some; intros];
  cbn [snd]; auto with json.

Lemma printable_IndexDep n d : printable (S (S (S n))) (ser_IndexDep d) = true.
Proof. apply printable_object. case_bool_decide; printable_fields. Qed.

Lemma printable_IndexEntry n e : entry_wf e -> printable (S (S (S (S (S n))))) (ser_IndexEntry e) = true.
Proof.
  intros Hw. apply printable_object. unfold entry_wf in Hw.
  printable_fields; [apply printable_vec, Forall_true; intros; apply printable_IndexDep|].
  rewrite H in Hw. apply printable_u64. unfold is_u32, is_u64, U32_MAX, U64_MAX in *. lia.
Qed.

Lemma printable_Owner n o : owner_wf o -> printable (S (S n)) (ser_Owner o) = true.
Proof. intros Hw. apply printable_object. printable_fields. Qed.

(** ** Lemmas: lines *)

Section LineLemmas.
Context `{J : JsonText} {JL : JsonTextLaws J}.

Lemma to_line_ok e : entry_wf e -> exists s, to_line e = Some s /\ json_read (bytes_of_string s) = Some (ser_IndexEntry e).
Proof using JL. intros Hw. apply json_write_ok, printable_IndexEntry, Hw. Qed.

Lemma render_lines_from es out ls : Forall2 (fun e s => to_line e = Some s) es ls ->
  fold_left (fun out e => match to_line e with Some line => out ++ line ++ String "010" "" | None => out end) es out =
  out ++ foldr (fun line t => line ++ String "010" t) "" ls.
Proof.
  intros Hl. revert out. induction Hl as [|e s es ls He _ IH]; intros out; cbn [fold_left foldr]; [rewrite str_app_nil_r; reflexivity|].
  rewrite He, IH, !str_app_assoc. reflexivity.
Qed.

Lemma split_lines ls : Forall (fun s => str_all (not_char "010") s = true) ls ->
  split "010" (foldr (fun line t => line ++ String "010" t) "" ls) = (ls ++ [""])%list.
Proof.
  induction 1 as [|s ls Hs _ IH]; [reflexivity|]. cbn [foldr]. rewrite split_app by exact Hs. rewrite IH. reflexivity.
Qed.

(** What [render_lines] writes is the list of the entries' lines. *)
Lemma lines_of_render es ls : Forall2 (fun e s => to_line e = Some s) es ls -> lines (render_lines es) = ls.
Proof using JL.
  intros Hl. unfold render_lines, lines. rewrite (render_lines_from es "" ls Hl), str_app_nil.
  assert (Hc : Forall (fun s => str_all (not_char "010") s = true /\ strip_cr s = s) ls).
  { apply Forall_forall. intros s Hs. apply list_elem_of_lookup in Hs as [i Hi].
    destruct (Forall2_lookup_r _ _ _ _ _ Hl Hi) as (e & _ & He). destruct (json_write_line _ _ He) as [Hc _].
    split; [|apply strip_cr_none]; revert Hc; apply str_all_impl; intros c; unfold not_char; rewrite negb_orb;
      intros [? ?]%andb_true_iff; assumption. }
  rewrite split_lines by (eapply Forall_impl; [exact Hc|intros s [? _]; assumption]). rewrite lines_of_snoc. cbn [lines_of].
  rewrite bool_decide_true by reflexivity. rewrite app_nil_r. clear Hl.
  induction Hc as [|s ls [_ Hs] _ IH]; cbn; [reflexivity|]. rewrite Hs, IH. reflexivity.
Qed.

Lemma parse_line_list_ok es ls : Forall entry_wf es -> Forall2 (fun e s => to_line e = Some s) es ls ->
  parse_line_list ls = Some es.
Proof using JL.
  intros Hw Hl. induction Hl as [|e s es ls He _ IH]; cbn; [reflexivity|]. apply Forall_cons in Hw as [Hwe Hw].
  destruct (json_write_line _ _ He) as [_ Hb]. rewrite Hb.
  destruct (to_line_ok e Hwe) as (s' & Hs' & Hr). assert (s' = s) as -> by congruence.
  rewrite Hr. cbn. rewrite de_ser_IndexEntry by exact Hwe. cbn. rewrite IH by exact Hw. reflexivity.
Qed.

Lemma to_lines_ok es : Forall entry_wf es -> exists ls, Forall2 (fun e s => to_line e = Some s) es ls.
Proof using JL.
  induction 1 as [|e es He _ [ls IH]]; [exists []; constructor|]. destruct (to_line_ok e He) as (s & Hs & _). exists (s :: ls). auto.
Qed.

Lemma parse_render_lines es : Forall entry_wf es -> parse_lines (render_lines es) = Some es.
Proof using JL.
  intros Hw. destruct (to_lines_ok es Hw) as [ls Hl]. unfold parse_lines. rewrite (lines_of_render es ls Hl).
  apply parse_line_list_ok; assumption.
Qed.

(** ** Lemmas: the publish body *)

Lemma le_roundtrip z : is_u32 z -> u32_from_le_bytes (u32_to_le_bytes z) = z /\ length (u32_to_le_bytes z) = 4%nat.
Proof.
  intros Hz. unfold u32_from_le_bytes, u32_to_le_bytes. rewrite reverse_involutive. split; [|reflexivity].
  apply u32_be_roundtrip, Hz.
Qed.

Lemma read_u32_le_app z rest : is_u32 z -> read_u32_le (u32_to_le_bytes z ++ rest)%list = Ok (z, rest).
Proof.
  intros Hz. destruct (le_roundtrip z Hz) as [Hr Hl]. unfold read_u32_le, zlen. rewrite length_app, Hl.
  destruct (Z.ltb_spec (Z.of_nat (4 + length rest)) 4); [lia|]. rewrite take_app_length', drop_app_length' by exact Hl.
  rewrite Hr. reflexivity.
Qed.

Lemma read_u32_le_inv b z rest : read_u32_le b = Ok (z, rest) -> b = (u32_to_le_bytes z ++ rest)%list /\ is_u32 z.
Proof.
  unfold read_u32_le. destruct (Z.ltb_spec (zlen b) 4) as [|Hb]; [discriminate|]. intros [= <- <-].
  assert (Hl : length (take 4 b) = 4%nat) by (rewrite length_take; unfold zlen in Hb; lia).
  unfold u32_to_le_bytes, u32_from_le_bytes. rewrite u32_be_roundtrip_bytes by (rewrite length_reverse; exact Hl).
  rewrite reverse_involutive, take_drop. split; [reflexivity|]. apply u32_from_be_bytes_range. rewrite length_reverse. exact Hl.
Qed.

(** A prefix of a given length. *)
Lemma split_prefix n (l : bytes) : is_u32 n -> (n <= zlen l)%Z ->
  exists a b, n = zlen a /\ l = (a ++ b)%list /\ take (Z.to_nat n) l = a /\ drop (Z.to_nat n) l = b.
Proof.
  intros Hn Hl. exists (take (Z.to_nat n) l), (drop (Z.to_nat n) l). rewrite take_drop. split_and!; try reflexivity.
  unfold zlen in *. rewrite length_take. unfold is_u32 in Hn. lia.
Qed.

Lemma parse_framed b t extra v :
  is_u32 (zlen b) -> is_u32 (zlen t) -> json_read b = Some v ->
  parse (u32_to_le_bytes (zlen b) ++ b ++ u32_to_le_bytes (zlen t) ++ t ++ extra)%list = Ok (mkRequest (value_of v) t).
Proof.
  intros Hm Ht Hr. unfold parse. rewrite read_u32_le_app by exact Hm. cbn [mbind outcome_bind].
  assert (Hn : Z.to_nat (zlen b) = length b) by (unfold zlen; lia).
  destruct (Z.ltb_spec (zlen (b ++ u32_to_le_bytes (zlen t) ++ t ++ extra)) (zlen b));
    [unfold zlen in *; rewrite length_app in *; lia|].
  rewrite Hn, take_app_length, drop_app_length, Hr. cbn [fmap option_fmap option_map ok_or mbind outcome_bind].
  rewrite read_u32_le_app by exact Ht. cbn [mbind outcome_bind].
  destruct (Z.ltb_spec (zlen (t ++ extra)) (zlen t)); [unfold zlen in *; rewrite length_app in *; lia|].
  rewrite take_app_length' by (unfold zlen; lia). reflexivity.
Qed.

End LineLemmas.

(** ** Properties *)

(** What the index serves, the line parser reads back: the rendered file has
    one line per entry, and parsing it gives the entries unchanged, in order,
    with every optional field that was left out restored to its default. *)
Theorem index_lines_roundtrip `{J : JsonText} {JL : JsonTextLaws J} (es : list IndexEntry) :
  Forall entry_wf es ->
  length (lines (render_lines es)) = length es /\ parse_lines (render_lines es) = Some es.
Proof.
  intros Hw. split; [|apply parse_render_lines, Hw].
  destruct (to_lines_ok es Hw) as [ls Hl]. rewrite (lines_of_render es ls Hl). symmetry. eapply Forall2_length, Hl.
Qed.

Definition sample_entry : IndexEntry :=
  mkEntry "foo" "1.0.0" [mkIndexDep "bar" "^1" [] false true None (Some "normal") None (Some "baz")] "00"
    {[ "std" := ["alloc"] ]} true None (Some 2%Z) None (Some "1.75").

Lemma index_lines_roundtrip_witness :
  Forall entry_wf [sample_entry] /\ parse_lines (render_lines [sample_entry]) = Some [sample_entry].
Proof.
  assert (Hw : Forall entry_wf [sample_entry]).
  { repeat constructor; vm_compute; intros H; discriminate H. }
  split; [exact Hw|exact (proj2 (index_lines_roundtrip [sample_entry] Hw))].
Defined.

(** The publish parser accepts exactly the framed bodies: a little-endian
    length, that many bytes of JSON, a second length and that many bytes of
    tarball, anything after them ignored; the request carries the document as a
    [Value] and exactly those tarball bytes. *)
Theorem publish_parse_exact `{J : JsonText} (body : bytes) (r : PublishRequest) :
  parse body = Ok r <->
  exists mb extra v, body = (u32_to_le_bytes (zlen mb) ++ mb ++ u32_to_le_bytes (zlen (tarball r)) ++ tarball r ++ extra)%list /\
    is_u32 (zlen mb) /\ is_u32 (zlen (tarball r)) /\ json_read mb = Some v /\ manifest r = value_of v.
Proof.
  split.
  - unfold parse. destruct (read_u32_le body) as [[mlen rest]| |] eqn:E1; try discriminate. cbn [mbind outcome_bind].
    apply read_u32_le_inv in E1 as [-> Hm]. destruct (Z.ltb_spec (zlen rest) mlen) as [|Hml]; [discriminate|].
    destruct (split_prefix mlen rest Hm Hml) as (mb & rest' & -> & -> & Ht & Hd). rewrite Ht, Hd.
    destruct (json_read mb) as [v|] eqn:Er; [|discriminate]. cbn [fmap option_fmap option_map ok_or mbind outcome_bind].
    destruct (read_u32_le rest') as [[clen rest2]| |] eqn:E2; try discriminate. cbn [mbind outcome_bind].
    apply read_u32_le_inv in E2 as [-> Hc]. destruct (Z.ltb_spec (zlen rest2) clen) as [|Hcl]; [discriminate|].
    destruct (split_prefix clen rest2 Hc Hcl) as (t & extra & -> & -> & Ht2 & _). rewrite Ht2.
    intros [= <-]. exists mb, extra, v. auto.
  - intros (mb & extra & v & -> & Hm & Ht & Hr & Hv). destruct r as [m t]. cbn [manifest tarball] in *. subst m.
    apply parse_framed; assumption.
Qed.

(** A body built by [encode] is parsed back to the manifest and the tarball
    it was built from, for a manifest in the normal form of a [Value]. *)
Theorem publish_body_roundtrip `{J : JsonText} {JL : JsonTextLaws J} (m : Value) (s : string) (t : bytes) :
  value_of m = m -> printable JSON_DEPTH m = true -> json_write m = Some s ->
  is_u32 (zlen (bytes_of_string s)) -> is_u32 (zlen t) ->
  parse (encode m t) = Ok (mkRequest m t).
Proof.
  intros Hm Hp Hs Hl Ht. unfold encode. rewrite Hs. unfold u32_try_from.
  rewrite !(proj2 (Z.leb_le _ _)) by (unfold is_u32 in *; lia). cbn [default from_option id].
  destruct (json_write_ok m Hp) as (s' & Hs' & Hr). assert (s' = s) as -> by congruence.
  pose proof (parse_framed (bytes_of_string s) t [] m Hl Ht Hr) as Hf. rewrite app_nil_r, Hm in Hf. exact Hf.
Qed.
