(* ===== verification/CargoState.v ===== *)
(** * The crate index and its durable snapshot

    Models of [crates/ferro-cargo-registry-server/src/config.rs], the state of
    [router.rs] and [persist.rs]: the per-crate records, the snapshot file they
    are mirrored to on every mutation and loaded from on boot. The snapshot
    lives in the world's file system ([SAVE_SEQ] is its counter); the blob
    store keeps its own files. The second part says what a save leaves on disk
    and a load reads back. *)

From S2P Require Import Prelude Str Frame Net Fs Json Digest BlobStore CargoName CargoIndex.

Local Open Scope string_scope.

(** ** Configuration *)

Record IndexConfig := mkIndexConfig { dl : string; api : string; auth_required : bool }.

Definition IndexConfig_new (api_host : string) : IndexConfig :=
  let base := trim_end_matches "/" api_host in
  mkIndexConfig (base ++ "/api/v1/crates/{crate}/{version}/download") api_host false.

Definition ser_IndexConfig (c : IndexConfig) : Value :=
  JObject [("dl", JString (dl c)); ("api", JString (api c)); ("auth-required", JBool (auth_required c))].

(** ** Records *)

Record CrateRecord := mkRecord {
  entries : list IndexEntry;
  tarballs : gmap string Digest;
  owners : list Owner;
}.

Definition CrateRecord_default : CrateRecord := mkRecord [] ∅ [].

Abbreviation crate_map := (gmap string CrateRecord).

(** ** The snapshot *)

Definition STATE_FILE : string := "index-state.json".

Record PersistedRecord := mkPersistedRecord { pr_entries : list IndexEntry; pr_owners : list Owner }.

Abbreviation Snapshot := (gmap string PersistedRecord).

Definition ser_PersistedRecord (r : PersistedRecord) : Value :=
  JObject [("entries", ser_vec ser_IndexEntry (pr_entries r)); ("owners", ser_vec ser_Owner (pr_owners r))].

Definition de_PersistedRecord : de PersistedRecord := fun v =>
  match de_slots ["entries"; "owners"] v with
  | Some [es; os] =>
    es ← de_field (de_vec de_IndexEntry) None es;
    os ← de_field (de_vec de_Owner) (Some []) os;
    Some (mkPersistedRecord es os)
  | _ => None
  end.

Definition ser_Snapshot (s : Snapshot) : Value := JObject [("crates", ser_map ser_PersistedRecord s)].

Definition de_Snapshot : de Snapshot := fun v =>
  match de_slots ["crates"] v with
  | Some [crates] => de_field (de_map de_PersistedRecord) None crates
  | _ => None
  end.

Definition state_path (data_dir : path) : path := (data_dir ++ [STATE_FILE])%list.

(** The loop over a record's entries: an entry whose checksum is no SHA-256 hex
    is dropped. *)
Fixpoint load_entries (es : list IndexEntry) (tarballs : gmap string Digest) (kept : list IndexEntry)
    : gmap string Digest * list IndexEntry :=
  match es with
  | [] => (tarballs, kept)
  | e :: es =>
    match Digest.new Sha256 (ie_cksum e) with
    | Ok d => load_entries es (<[ie_vers e := d]> tarballs) (kept ++ [e])%list
    | _ => load_entries es tarballs kept
    end
  end.

(** A record is dropped when no entry is left. *)
Definition load_record (r : PersistedRecord) : option CrateRecord :=
  let '(tarballs, kept) := load_entries (pr_entries r) ∅ [] in
  if bool_decide (kept = []) then None else Some (mkRecord kept tarballs (pr_owners r)).

Section Persist.
Context `{J : JsonText}.

Definition load (data_dir : path) : stm Fs io_error crate_map := fun s =>
  match Fs.read (state_path data_dir) s with
  | (s, Ok b) =>
    match (v ← json_read b; de_Snapshot v) with
    | Some snapshot => (s, Ok (omap load_record snapshot))
    | None => (s, Ok ∅)
    end
  | (s, Err _) => (s, Ok ∅)
  | (s, Panic) => (s, Panic)
  end.

Definition sync_parent_dir (dir : path) : stm Fs io_error unit := fun s =>
  match Fs.open_dir dir s with
  | (s, Ok _) =>
    match Fs.sync_all s with
    | (s, Err e) => match io_kind e with KInvalidInput => (s, Ok tt) | _ => (s, Err e) end
    | r => r
    end
  | r => r
  end.

Definition save_tmp_name (pid seq : Z) : string :=
  STATE_FILE ++ ".tmp." ++ display_u64 pid ++ "." ++ display_u64 seq.

(** The attempts left of the loop, with the error of the last one. *)
Fixpoint write_attempts (n : nat) (dir target : path) (b : bytes) (last_err : option io_error) : stm World io_error unit :=
  match n with
  | O => st_throw (default (mkIoError KAlreadyExists "could not allocate a unique snapshot temp file") last_err)
  | S n =>
    seq ← next_tmp_counter;
    w ← st_get;
    let tmp := (dir ++ [save_tmp_name (w_pid w) seq])%list in
    opened ← try_world (Fs.create_new tmp);
    match opened with
    | Ok _ =>
      result ← try_world (Fs.write_all tmp b ;; Fs.sync_all ;; Fs.rename tmp target ;; sync_parent_dir dir);
      match result with
      | Err _ => _ ← try_world (Fs.remove_file tmp); st_lift result
      | _ => st_lift result
      end
    | Err e => match io_kind e with KAlreadyExists => write_attempts n dir target b (Some e) | _ => st_throw e end
    | Panic => st_lift Panic
    end
  end.

Definition write_atomic_durable (dir target : path) (b : bytes) : stm World io_error unit :=
  write_attempts 16 dir target b None.

Definition snapshot_of (crates : crate_map) : Snapshot :=
  (fun r => mkPersistedRecord (entries r) (owners r)) <$> crates.

Definition save (data_dir : path) (crates : crate_map) : stm World io_error unit :=
  json ← st_lift (ok_or (json_write_pretty (ser_Snapshot (snapshot_of crates))) (mkIoError KInvalidData "serialize"));
  write_atomic_durable data_dir (state_path data_dir) (bytes_of_string json).

(** [CargoState]: its constant part, and the part that changes. *)
Record CargoConfig := mkCargoConfig { config : IndexConfig; data_dir : option path }.

Record CargoState (St : Type) := mkCargo { blobs : St; crates : crate_map; cworld : World }.
Arguments mkCargo {St} _ _ _.
Arguments blobs {St} _.
Arguments crates {St} _.
Arguments cworld {St} _.

Definition CargoState_new {St} (s : St) (api_host : string) (w : World) : CargoConfig * CargoState St :=
  (mkCargoConfig (IndexConfig_new api_host) None, mkCargo s ∅ w).

(** [crate::persist::load] always returns a map. *)
Definition CargoState_with_persistence {St} (s : St) (api_host : string) (dir : path) (w : World)
    : CargoConfig * CargoState St :=
  let '(f, loaded) := load dir (w_fs w) in
  (mkCargoConfig (IndexConfig_new api_host) (Some dir),
   mkCargo s (match loaded with Ok m => m | _ => ∅ end) (mkWorld f (tmp_counter w) (w_pid w))).

Definition persist_locked (cfg : CargoConfig) (crates : crate_map) : stm World io_error unit :=
  match data_dir cfg with
  | None => mret tt
  | Some dir => save dir crates
  end.

End Persist.
Arguments mkCargo {St} _ _ _.
Arguments blobs {St} _.
Arguments crates {St} _.
Arguments cworld {St} _.

(** ** The snapshot file of the crate index: lemmas

    What a save leaves on disk whatever fails on the way, what a load reads
    back, and the invariant of the records under which loading gives exactly
    what was saved. *)

Local Open Scope string_scope.

(** ** The invariant of a record *)

Definition entry_digest (e : IndexEntry) : option Digest := ok_of (Digest.new Sha256 (ie_cksum e)).

(** The version map is the digests of the entries' checksums. *)
Definition tarballs_of (es : list IndexEntry) : gmap string Digest :=
  list_to_map (omap (fun e => d ← entry_digest e; Some (ie_vers e, d)) es).

Record record_ok (r : CrateRecord) : Prop := {
  ok_nonempty : entries r <> [];
  ok_versions : NoDup (map ie_vers (entries r));
  ok_digests : Forall (fun e => is_Some (entry_digest e)) (entries r);
  ok_tarballs : tarballs r = tarballs_of (entries r);
  ok_entries : Forall entry_wf (entries r);
  ok_owners : Forall owner_wf (owners r);
}.

Definition crates_ok (m : crate_map) : Prop := map_Forall (fun _ r => record_ok r) m.

(** ** Codecs *)

Lemma de_ser_PersistedRecord r :
  Forall entry_wf (pr_entries r) -> Forall owner_wf (pr_owners r) -> de_PersistedRecord (ser_PersistedRecord r) = Some r.
Proof.
  destruct r as [es os]. cbn [pr_entries pr_owners]. intros He Ho. unfold de_PersistedRecord, ser_PersistedRecord.
  cbn [pr_entries pr_owners].
  assert (H1 : de_vec de_IndexEntry (ser_vec ser_IndexEntry es) = Some es).
  { apply de_vec_ser. eapply Forall_impl; [exact He|apply de_ser_IndexEntry]. }
  assert (H2 : de_vec de_Owner (ser_vec ser_Owner os) = Some os).
  { apply de_vec_ser. eapply Forall_impl; [exact Ho|apply de_ser_Owner]. }
  revert H1 H2. generalize (ser_vec ser_IndexEntry es) (ser_vec ser_Owner os). intros v1 v2 H1 H2.
  de_struct. rewrite H1, H2. reflexivity.
Qed.

Definition persisted_wf (r : PersistedRecord) : Prop := Forall entry_wf (pr_entries r) /\ Forall owner_wf (pr_owners r).

Lemma de_ser_Snapshot (s : Snapshot) : map_Forall (fun _ r => persisted_wf r) s -> de_Snapshot (ser_Snapshot s) = Some s.
Proof.
  intros Hs. unfold de_Snapshot, ser_Snapshot.
  assert (H1 : de_map de_PersistedRecord (ser_map ser_PersistedRecord s) = Some s).
  { apply de_map_ser. intros k r Hr. destruct (Hs k r Hr). apply de_ser_PersistedRecord; assumption. }
  revert H1. generalize (ser_map ser_PersistedRecord s). intros v H1. de_struct. exact H1.
Qed.

Lemma printable_Snapshot (s : Snapshot) : map_Forall (fun _ r => persisted_wf r) s -> printable JSON_DEPTH (ser_Snapshot s) = true.
Proof.
  intros Hs. apply printable_object. repeat constructor. cbn [snd]. apply printable_map. intros k r Hr.
  destruct (Hs k r Hr) as [He Ho]. apply printable_object. repeat constructor; cbn [snd]; apply printable_vec.
  - eapply Forall_impl; [exact He|]. intros e. apply printable_IndexEntry.
  - eapply Forall_impl; [exact Ho|]. intros o. apply printable_Owner.
Qed.

(** ** Loading what was saved *)

Lemma load_entries_eq es t kept : Forall (fun e => is_Some (entry_digest e)) es ->
  load_entries es t kept = (fold_left (fun m e => match entry_digest e with Some d => <[ie_vers e := d]> m | None => m end) es t, (kept ++ es)%list).
Proof.
  intros He. revert t kept. induction He as [|e es [d Hd] _ IH]; intros t kept; cbn; [rewrite app_nil_r; reflexivity|].
  unfold entry_digest in *. destruct (Digest.new Sha256 (ie_cksum e)); try discriminate. injection Hd as <-.
  cbn. rewrite IH, <- app_assoc. reflexivity.
Qed.

Lemma tarballs_of_cons e es : tarballs_of (e :: es) =
  match entry_digest e with Some d => <[ie_vers e := d]> (tarballs_of es) | None => tarballs_of es end.
Proof. unfold tarballs_of. cbn. destruct (entry_digest e); reflexivity. Qed.

Lemma tarballs_of_none es v : v ∉ map ie_vers es -> tarballs_of es !! v = None.
Proof.
  intros Hv. apply not_elem_of_list_to_map_1. intros Hin. apply Hv.
  apply list_elem_of_fmap in Hin as ([k x] & -> & Hin). apply list_elem_of_omap in Hin as (e & He & Hx).
  destruct (entry_digest e); [|discriminate]. injection Hx as <- _. apply list_elem_of_fmap. eauto.
Qed.

Lemma fold_tarballs es t : NoDup (map ie_vers es) -> (forall e, e ∈ es -> t !! ie_vers e = None) ->
  fold_left (fun m e => match entry_digest e with Some d => <[ie_vers e := d]> m | None => m end) es t = tarballs_of es ∪ t.
Proof.
  revert t. induction es as [|e es IH]; intros t Hnd Hfresh; cbn [fold_left]; [symmetry; apply map_empty_union|].
  apply NoDup_cons in Hnd as [Hn Hnd]. rewrite IH, tarballs_of_cons; [|exact Hnd|].
  - destruct (entry_digest e) as [d|]; [|reflexivity]. rewrite <- insert_union_l. symmetry.
    apply insert_union_r, tarballs_of_none, Hn.
  - intros e' He'. destruct (entry_digest e); [|apply Hfresh; right; exact He'].
    rewrite lookup_insert_ne; [apply Hfresh; right; exact He'|]. intros Heq. apply Hn. rewrite Heq. apply list_elem_of_fmap. eauto.
Qed.

Lemma load_record_ok r : record_ok r -> load_record (mkPersistedRecord (entries r) (owners r)) = Some r.
Proof.
  intros Hr. unfold load_record. cbn [pr_entries pr_owners]. rewrite load_entries_eq by apply (ok_digests r Hr).
  rewrite fold_tarballs; [|apply (ok_versions r Hr)|intros; apply lookup_empty].
  rewrite map_union_empty, app_nil_l, bool_decide_false by apply (ok_nonempty r Hr).
  rewrite <- (ok_tarballs r Hr). destruct r; reflexivity.
Qed.

Lemma load_snapshot_ok m : crates_ok m -> omap load_record (snapshot_of m) = m.
Proof.
  intros Hm. apply map_eq. intros k. unfold snapshot_of. rewrite lookup_omap, lookup_fmap.
  destruct (m !! k) as [r|] eqn:E; cbn; [|reflexivity]. apply load_record_ok, (Hm k r E).
Qed.

Lemma snapshot_wf m : crates_ok m -> map_Forall (fun _ r => persisted_wf r) (snapshot_of m).
Proof.
  intros Hm k p. unfold snapshot_of. rewrite lookup_fmap. intros (r & Hr & ->)%fmap_Some.
  specialize (Hm k r Hr). split; [apply (ok_entries r Hm)|apply (ok_owners r Hm)].
Qed.

(** ** What a save does to the disk *)

Section Save.
Context `{J : JsonText}.

Lemma sync_parent_dir_files dir s : files (fst (sync_parent_dir dir s)) = files s /\ snd (sync_parent_dir dir s) <> Panic.
Proof.
  unfold sync_parent_dir. pose proof (open_dir_files dir s) as Ho.
  assert (Hop : snd (Fs.open_dir dir s) <> Panic) by (unfold Fs.open_dir; rewrite Fs.syscall_run; cbn; repeat case_match; discriminate).
  destruct (Fs.open_dir dir s) as [s1 [u|e|]]; cbn in *; [|split; [exact Ho|discriminate]|contradiction].
  pose proof (sync_all_files s1) as Hs.
  assert (Hsp : snd (Fs.sync_all s1) <> Panic) by (unfold Fs.sync_all; rewrite Fs.syscall_run; cbn; case_match; discriminate).
  destruct (Fs.sync_all s1) as [s2 [v|e|]]; cbn in *; [split; [congruence|discriminate]| |contradiction].
  destruct (io_kind e); cbn; split; (congruence || discriminate).
Qed.

Lemma save_tmp_name_ne pid seq : save_tmp_name pid seq <> STATE_FILE.
Proof.
  unfold save_tmp_name. intros Heq. apply (f_equal String.length) in Heq. rewrite !str_length_app in Heq. cbn in Heq. lia.
Qed.

(** The four calls that install the snapshot. *)
Lemma install_result dir tmp b s s' o :
  let p := state_path dir in
  tmp <> p -> (Fs.write_all tmp b ;; Fs.sync_all ;; Fs.rename tmp p ;; sync_parent_dir dir) s = (s', o) ->
  o <> Panic /\ (o = Ok tt -> files s' !! p = Some (File b)) /\
  (files s' !! p = files s !! p \/ files s' !! p = Some (File b)).
Proof.
  intros p Htmp. unfold mbind at 1, stm_bind at 1. pose proof (write_sync_result tmp b s) as Hw.
  unfold mbind at 1, stm_bind at 1 in Hw.
  destruct (Fs.write_all tmp b s) as [s1 [u|e|]].
  2: { intros [= <- <-]. destruct (Hw s1 (Err e) eq_refl) as (Hf & _ & _). split_and!; [discriminate|discriminate|]. left. apply Hf. congruence. }
  2: { destruct (Hw s1 Panic eq_refl) as (_ & Hp & _). contradiction. }
  unfold mbind at 1, stm_bind at 1. destruct (Fs.sync_all s1) as [s2 [v|e|]]; destruct (Hw _ _ eq_refl) as (Hf & Hp & Hok).
  2: { intros [= <- <-]. split_and!; [discriminate|discriminate|]. left. apply Hf. congruence. }
  2: { contradiction. }
  destruct v. specialize (Hok eq_refl). unfold mbind, stm_bind. destruct (Fs.rename tmp p s2) as [s3 o3] eqn:E3.
  destruct (rename_result tmp p b s2 s3 o3 Hok E3) as [[-> Hp3]|(e & -> & Hf3)].
  - destruct (sync_parent_dir_files dir s3) as [Hd1 Hd2]. destruct (sync_parent_dir dir s3) as [s4 o4]. cbn in *.
    intros [= <- <-]. rewrite Hd1. auto.
  - intros [= <- <-]. split_and!; [discriminate|discriminate|]. left. rewrite Hf3. apply Hf. congruence.
Qed.

Lemma write_attempts_result n dir b last w w' o :
  let p := state_path dir in
  write_attempts n dir p b last w = (w', o) ->
  o <> Panic /\ (o = Ok tt -> disk_of w' !! p = Some (File b)) /\
  (disk_of w' !! p = disk_of w !! p \/ disk_of w' !! p = Some (File b)).
Proof.
  intros p. revert last w. induction n as [|n IH]; intros last w; cbn [write_attempts].
  { intros [= <- <-]. split_and!; [discriminate|discriminate|auto]. }
  unfold next_tmp_counter at 1, st_get at 1, mbind at 1 2 3, stm_bind at 1 2 3. cbn [w_pid].
  set (w0 := mkWorld (w_fs w) _ (w_pid w)). set (tmp := (dir ++ [save_tmp_name (w_pid w) (tmp_counter w)])%list).
  assert (Htmp : tmp <> p).
  { unfold tmp, p, state_path. intros Heq%app_inv_head. apply (save_tmp_name_ne (w_pid w) (tmp_counter w)). congruence. }
  unfold try_world at 1. pose proof (create_new_frame tmp (w_fs w0) p ltac:(congruence)) as Hc.
  assert (Hcp : snd (Fs.create_new tmp (w_fs w0)) <> Panic)
    by (unfold Fs.create_new, Fs.can_write; rewrite Fs.syscall_run; cbn; repeat case_match; discriminate).
  destruct (Fs.create_new tmp (w_fs w0)) as [f1 [u|e|]]; cbn [fst snd] in Hc, Hcp; [| |contradiction].
  - unfold mbind at 1, stm_bind at 1, try_world at 1. cbn [w_fs].
    destruct ((Fs.write_all tmp b ;; Fs.sync_all ;; Fs.rename tmp p ;; sync_parent_dir dir) f1) as [f2 o2] eqn:E2.
    destruct (install_result dir tmp b f1 f2 o2 Htmp E2) as (Hp2 & Hok2 & Hor2). fold p in Hok2, Hor2.
    assert (Hor : files f2 !! p = disk_of w !! p \/ files f2 !! p = Some (File b)).
    { destruct Hor2 as [Hor2|Hor2]; [left; rewrite Hor2; exact Hc|right; exact Hor2]. }
    destruct o2 as [u2|e2|]; [intros [= <- <-]; split_and!; [discriminate|exact Hok2|exact Hor]| |contradiction].
    unfold mbind, stm_bind, try_world. cbn [w_fs]. pose proof (remove_file_frame tmp f2 p ltac:(congruence)) as Hr.
    destruct (Fs.remove_file tmp f2) as [f3 o3]. cbn in Hr. intros [= <- <-].
    split_and!; [discriminate|discriminate|]. unfold disk_of at 1 3. cbn [w_fs]. rewrite Hr. exact Hor.
  - destruct (io_kind e); intros Hend; try (injection Hend as <- <-; split_and!; [discriminate|discriminate|left; exact Hc]).
    apply IH in Hend as (H1 & H2 & H3). split_and!; [exact H1|exact H2|].
    destruct H3 as [H3|H3]; [left; rewrite H3; exact Hc|right; exact H3].
Qed.

(** A snapshot of [m] is the content of the file. *)
Definition saved (dir : path) (m : crate_map) (t : tree) : Prop :=
  exists s, json_write_pretty (ser_Snapshot (snapshot_of m)) = Some s /\ t !! state_path dir = Some (File (bytes_of_string s)).

Lemma save_result dir m w w' o :
  save dir m w = (w', o) ->
  o <> Panic /\ (o = Ok tt -> saved dir m (disk_of w')) /\
  (disk_of w' !! state_path dir = disk_of w !! state_path dir \/ saved dir m (disk_of w')).
Proof.
  unfold save, saved. destruct (json_write_pretty _) as [s|]; [|run_st; intros [= <- <-]; split_and!; [discriminate|discriminate|auto]].
  unfold st_lift, ok_or, mbind, stm_bind, write_atomic_durable. intros (H1 & H2 & H3)%write_attempts_result.
  split_and!; [exact H1|eauto|]. destruct H3; eauto.
Qed.

Lemma persist_locked_total cfg m w : snd (persist_locked cfg m w) <> Panic.
Proof.
  unfold persist_locked. destruct (data_dir cfg) as [dir|]; [|discriminate].
  destruct (save dir m w) as [w' o] eqn:E. apply save_result in E as [Hp _]. exact Hp.
Qed.

Lemma load_saved {JL : JsonTextLaws J} dir m s :
  crates_ok m -> saved dir m (files s) -> Fs.next_fault s = None ->
  snd (load dir s) = Ok m.
Proof.
  intros Hm (t & Ht & Hfile) Hq. unfold load, Fs.read. rewrite Fs.syscall_run, Hq, Hfile. cbn [snd fst].
  destruct (json_write_pretty_ok _ (printable_Snapshot _ (snapshot_wf m Hm))) as (t' & Ht' & Hr).
  assert (t' = t) as -> by congruence. rewrite Hr. cbn [mbind option_bind].
  rewrite de_ser_Snapshot by apply (snapshot_wf m Hm). cbn [snd]. f_equal. apply load_snapshot_ok, Hm.
Qed.

(** When the read of the snapshot fails the map is empty, whatever the file
    holds. *)
Lemma load_unread dir s f : Fs.next_fault s = Some f -> snd (load dir s) = Ok ∅.
Proof. intros Hf. unfold load, Fs.read. rewrite Fs.syscall_run, Hf. reflexivity. Qed.

End Save.
