(* ===== verification/CargoHandlers.v ===== *)
(** * The Cargo registry's handlers

    Model of [crates/ferro-cargo-registry-server/src/handlers.rs] and of the
    routes of [router.rs]. A handler is a computation on the state that returns
    a response or a [CargoError]. Every mutating handler holds the write lock
    of [crates] from its checks to its response, so it is one atomic step; a
    reader takes its copy of the record under the read lock. The path
    parameters and the [Json] body of the owner routes come from axum's
    extractors. [next_id] is a [u64]: an overflow panics, as a checked build
    does, with the owners pushed so far left in memory. *)

From S2P Require Import Prelude Str Frame Net Fs Json Http Digest BlobStore Regex CargoName CargoVersion CargoIndex CargoState.

Local Open Scope string_scope.

(** ** Responses *)

Inductive CargoBody :=
| CEmpty
| CText (s : string)
| CBytes (b : bytes)
| CJson (v : Value)
| CErrors (e : CargoError).

Record CargoResponse := mkResp { cstatus : Z; cheaders : headers; cbody : CargoBody }.

(** [IntoResponse for CargoError]. *)
Definition cargo_error_response (e : CargoError) : CargoResponse := mkResp (cargo_status e) [] (CErrors e).

Definition quoted (s : string) : string := String "034" (s ++ String "034" "").

Section Etag.
Context `{H : Hashing}.

Definition sparse_index_etag (body : string) : string := quoted (hex_encode (sha256 (bytes_of_string body))).

(** The candidates of a comma-separated list. *)
Definition etag_candidate (c : string) : string :=
  let c := trim c in match strip_prefix "W/" c with Some t => t | None => c end.

Definition etag_matches (if_none_match etag : string) : bool :=
  let raw := trim if_none_match in
  if bool_decide (raw = "") then false else
  if bool_decide (raw = "*") then true else
  existsb (fun c => bool_decide (etag_candidate c = etag)) (split "," raw).

End Etag.

(** ** Index updates *)

(** [entries.iter_mut().find(|e| e.vers == version)] and the assignment to
    [yanked]; the flag it had. *)
Fixpoint set_entry_yanked (version : string) (y : bool) (es : list IndexEntry) : option (bool * list IndexEntry) :=
  match es with
  | [] => None
  | e :: es =>
    if bool_decide (ie_vers e = version)
    then Some (ie_yanked e, mkEntry (ie_name e) (ie_vers e) (ie_deps e) (ie_cksum e) (ie_features e) y (ie_links e)
                                    (ie_v e) (ie_features2 e) (ie_rust_version e) :: es)
    else '(prev, es) ← set_entry_yanked version y es; Some (prev, e :: es)
  end.

Definition retain_owners (logins : list string) (os : list Owner) : list Owner :=
  List.filter (fun o => negb (existsb (fun l => bool_decide (l = o_login o)) logins)) os.

(** The loop over the logins to add; [false] when [next_id] overflowed. *)
Fixpoint add_owners (logins : list string) (next_id : Z) (os : list Owner) : list Owner * bool :=
  match logins with
  | [] => (os, true)
  | login :: logins =>
    if existsb (fun o => bool_decide (o_login o = login)) os then add_owners logins next_id os else
    let os := (os ++ [mkOwner next_id login None])%list in
    match u64_checked_add next_id 1 with
    | Some n => add_owners logins n os
    | None => (os, false)
    end
  end.

Definition max_owner_id (os : list Owner) : Z := fold_left (fun m o => Z.max m (o_id o)) os 0%Z.

Definition rollback_publish (key vers : string) (digest : Digest) (m : crate_map) : crate_map :=
  match m !! key with
  | None => m
  | Some record =>
    let ts := if bool_decide (tarballs record !! vers = Some digest) then delete vers (tarballs record) else tarballs record in
    let es := List.filter (fun e => negb (bool_decide (ie_vers e = vers))) (entries record) in
    if bool_decide (es = []) && bool_decide (ts = ∅) && bool_decide (owners record = [])
    then delete key m
    else <[key := mkRecord es ts (owners record)]> m
  end.

Definition digest_referenced_in (m : crate_map) (digest : Digest) : bool :=
  existsb (fun r : CrateRecord => existsb (fun d => bool_decide (d = digest)) (snd <$> map_to_list (tarballs r))) (snd <$> map_to_list m).

(** [crates.entry(key).or_default()], the insertion and the push. *)
Definition push_version (key vers : string) (digest : Digest) (e : IndexEntry) (m : crate_map) : crate_map :=
  let r := default CrateRecord_default (m !! key) in
  <[key := mkRecord (entries r ++ [e])%list (<[vers := digest]> (tarballs r)) (owners r)]> m.

(** ** Handlers *)

Section Handlers.
Context `{H : Hashing} `{J : JsonText} `{L : HttpLib} `{U : UnicodeDigits} {St : Type} `{BS : BlobStore St}.
Context (cfg : CargoConfig).

Abbreviation handler A := (stm (CargoState St) CargoError A).

Definition set_crates (m : crate_map) (s : CargoState St) : CargoState St := mkCargo (blobs s) m (cworld s).

(** A blob-store call; [?] converts its error. *)
Definition on_blobs {A} (m : stm St BlobStoreError A) : handler A := fun s =>
  let '(b, r) := m (blobs s) in (mkCargo b (crates s) (cworld s), map_err Storage r).

(** The call's result as a value, for a handler that only logs the error. *)
Definition try_blobs {A} (m : stm St BlobStoreError A) : handler (outcome BlobStoreError A) := fun s =>
  let '(b, r) := m (blobs s) in (mkCargo b (crates s) (cworld s), Ok r).

(** [state.persist_locked(&crates)], the error as a value. *)
Definition try_persist : handler (outcome io_error unit) := fun s =>
  let '(w, r) := persist_locked cfg (crates s) (cworld s) in (mkCargo (blobs s) (crates s) w, Ok r).

Definition handle_config_json : handler CargoResponse := mret (mkResp 200 [] (CJson (ser_IndexConfig (config cfg)))).

Definition serve_index (name : string) (hs : headers) : handler CargoResponse :=
  s ← st_get;
  record ← st_lift (ok_or (crates s !! canonical_name name) (CrateNotFound name));
  let body := render_lines (entries record) in
  let etag := sparse_index_etag body in
  let if_none_match := default "" (header_get_str hs "if-none-match") in
  let h := (("content-type", "text/plain; charset=utf-8") :: try_header "etag" etag)%list in
  if etag_matches if_none_match etag then mret (mkResp 304 h CEmpty)
  else mret (mkResp 200 h (CText body)).

Definition handle_sparse_index (p : string) (hs : headers) : handler CargoResponse :=
  name ← st_lift (ok_or (extract_name_from_index_path p) (CrateNotFound p));
  serve_index name hs.

Definition handle_sparse_index_root2 (prefix name : string) (hs : headers) : handler CargoResponse := serve_index name hs.
Definition handle_sparse_index_root3 (p0 p1 name : string) (hs : headers) : handler CargoResponse := serve_index name hs.

Definition derive_index_path (name : string) : outcome CargoError string := index_path name.

Definition handle_git_index_stub (p : string) : handler CargoResponse :=
  st_throw (NotImplemented ("git index is Phase 2; set `protocol = " ++ quoted "sparse" ++ "` on the client")).

(** The name, version and checksum checks on the manifest, up to the index
    entry. *)
Definition check_manifest (m : Value) (t : bytes) : outcome CargoError (string * string * IndexEntry) :=
  name ← ok_or (v ← Value.get "name" m; Value.as_str v) (InvalidPublish (PublishText "manifest missing `name`"));
  _ ← validate_name name;
  vers ← ok_or (v ← match Value.get "vers" m with Some v => Some v | None => Value.get "version" m end; Value.as_str v)
               (InvalidPublish (PublishText "manifest missing `vers`"));
  if negb (is_valid_semver vers) then Err (InvalidVersion vers) else
  let computed := hex_encode (sha256 t) in
  _ ← match (v ← Value.get "cksum" m; Value.as_str v) with
      | Some declared =>
        if negb (bool_decide (declared = "")) && negb (bool_decide (declared = computed))
        then Err (ChecksumMismatch declared computed) else Ok tt
      | None => Ok tt
      end;
  entry ← ok_or (entry_from_manifest m computed) (InvalidPublish ManifestCoerce);
  Ok (name, vers, entry).

(** The collision and duplicate checks against an existing record. *)
Definition check_existing (name vers : string) (entry : IndexEntry) (existing : option CrateRecord) : outcome CargoError unit :=
  match existing with
  | None => Ok tt
  | Some r =>
    _ ← match head (entries r) with
        | Some e => if negb (bool_decide (ie_name e = name)) then Err (NameConflict name (ie_name e)) else Ok tt
        | None => Ok tt
        end;
    if existsb (fun e => bool_decide (ie_vers e = ie_vers entry)) (entries r)
    then Err (DuplicateVersion name vers) else Ok tt
  end.

Definition publish_ok_body : Value :=
  JObject [("warnings", JObject [("invalid_categories", JArray []); ("invalid_badges", JArray []); ("other", JArray [])])].

Definition handle_publish (body : bytes) : handler CargoResponse :=
  req ← st_lift (parse body);
  '(name, vers, entry) ← st_lift (check_manifest (manifest req) (tarball req));
  let key := canonical_name name in
  let digest := Digest.sha256_of (tarball req) in
  s ← st_get;
  _ ← st_lift (check_existing name vers entry (crates s !! key));
  _ ← on_blobs (bs_put digest (tarball req));
  let vers_key := ie_vers entry in
  _ ← st_modify (fun s => set_crates (push_version key vers_key digest entry (crates s)) s);
  persisted ← try_persist;
  match persisted with
  | Err err =>
    _ ← st_modify (fun s => set_crates (rollback_publish key vers_key digest (crates s)) s);
    s ← st_get;
    _ ← (if negb (digest_referenced_in (crates s) digest)
         then (r ← try_blobs (bs_delete digest); match r with Panic => st_lift Panic | _ => mret tt end)
         else mret tt);
    st_throw (Persistence err)
  | Panic => st_lift Panic
  | Ok _ => mret (mkResp 200 [] (CJson publish_ok_body))
  end.

Definition handle_download (name version : string) : handler CargoResponse :=
  _ ← st_lift (validate_name name);
  s ← st_get;
  record ← st_lift (ok_or (crates s !! canonical_name name) (CrateNotFound name));
  digest ← st_lift (ok_or (tarballs record !! version) (CrateNotFound (name ++ " " ++ version)));
  b ← on_blobs (bs_get digest);
  let etag := if header_value_ok (quoted (hex digest)) then quoted (hex digest) else quoted "" in
  mret (mkResp 200 ([("content-type", "application/x-tar"); ("etag", etag)] ++
                    try_header "content-length" (display_u64 (zlen b)))%list (CBytes b)).

Definition set_yanked (name version : string) (yanked : bool) : handler unit :=
  _ ← st_lift (validate_name name);
  s ← st_get;
  let key := canonical_name name in
  record ← st_lift (ok_or (crates s !! key) (CrateNotFound name));
  '(previous, es) ← st_lift (ok_or (set_entry_yanked version yanked (entries record)) (CrateNotFound (name ++ " " ++ version)));
  _ ← st_modify (fun s => set_crates (<[key := mkRecord es (tarballs record) (owners record)]> (crates s)) s);
  persisted ← try_persist;
  match persisted with
  | Err err =>
    _ ← st_modify (fun s =>
          match crates s !! key with
          | Some r =>
            match set_entry_yanked version previous (entries r) with
            | Some (_, es) => set_crates (<[key := mkRecord es (tarballs r) (owners r)]> (crates s)) s
            | None => s
            end
          | None => s
          end);
    st_throw (Persistence err)
  | Panic => st_lift Panic
  | Ok _ => mret tt
  end.

Definition handle_yank (name version : string) : handler CargoResponse :=
  _ ← set_yanked name version true; mret (mkResp 200 [] (CJson YankResponse_ok)).

Definition handle_unyank (name version : string) : handler CargoResponse :=
  _ ← set_yanked name version false; mret (mkResp 200 [] (CJson YankResponse_ok)).

Definition handle_owners_list (name : string) : handler CargoResponse :=
  _ ← st_lift (validate_name name);
  s ← st_get;
  record ← st_lift (ok_or (crates s !! canonical_name name) (CrateNotFound name));
  mret (mkResp 200 [] (CJson (OwnersResponse (owners record)))).

(** The owner list a request asks for; [false] on overflow. *)
Definition changed_owners (os : list Owner) (logins : list string) (remove : bool) : list Owner * bool :=
  if remove then (retain_owners logins os, true)
  else match u64_checked_add (max_owner_id os) 1 with
       | Some next_id => add_owners logins next_id os
       | None => (os, false)
       end.

Definition mutate_owners (name : string) (logins : list string) (remove : bool) : handler unit :=
  _ ← st_lift (validate_name name);
  s ← st_get;
  let key := canonical_name name in
  record ← st_lift (ok_or (crates s !! key) (CrateNotFound name));
  let previous_owners := owners record in
  let '(os, fits) := changed_owners (owners record) logins remove in
  _ ← st_modify (fun s => set_crates (<[key := mkRecord (entries record) (tarballs record) os]> (crates s)) s);
  if negb fits then st_lift Panic else
  persisted ← try_persist;
  match persisted with
  | Err err =>
    _ ← st_modify (fun s => set_crates (alter (fun r => mkRecord (entries r) (tarballs r) previous_owners) key (crates s)) s);
    st_throw (Persistence err)
  | Panic => st_lift Panic
  | Ok _ => mret tt
  end.

Definition handle_owners_add (name : string) (users : list string) : handler CargoResponse :=
  _ ← mutate_owners name users false;
  mret (mkResp 200 [] (CJson (OwnersMutationResponse true (Some "owners updated")))).

Definition handle_owners_delete (name : string) (users : list string) : handler CargoResponse :=
  _ ← mutate_owners name users true;
  mret (mkResp 200 [] (CJson (OwnersMutationResponse true None))).

(** ** Routes *)

Definition MAX_PUBLISH_BODY_BYTES : Z := 20 * 1024 * 1024.

Inductive CargoRequest :=
| GetConfig
| GetIndex (p : string) (hs : headers)
| GetIndexRoot2 (prefix name : string) (hs : headers)
| GetIndexRoot3 (p0 p1 name : string) (hs : headers)
| GetGitIndex (p : string)
| PutNew (body : bytes)
| GetDownload (name version : string)
| DeleteYank (name version : string)
| PutUnyank (name version : string)
| GetOwners (name : string)
| PutOwners (name : string) (users : list string)
| DeleteOwners (name : string) (users : list string).

(** The handler of a route; a publish body over the limit is refused before its
    handler runs. *)
Definition handle (r : CargoRequest) : handler CargoResponse :=
  match r with
  | GetConfig => handle_config_json
  | GetIndex p hs => handle_sparse_index p hs
  | GetIndexRoot2 a n hs => handle_sparse_index_root2 a n hs
  | GetIndexRoot3 a b n hs => handle_sparse_index_root3 a b n hs
  | GetGitIndex p => handle_git_index_stub p
  | PutNew body => if (MAX_PUBLISH_BODY_BYTES <? zlen body)%Z then mret (mkResp 413 [] CEmpty) else handle_publish body
  | GetDownload n v => handle_download n v
  | DeleteYank n v => handle_yank n v
  | PutUnyank n v => handle_unyank n v
  | GetOwners n => handle_owners_list n
  | PutOwners n us => handle_owners_add n us
  | DeleteOwners n us => handle_owners_delete n us
  end.

Definition router (r : CargoRequest) : handler CargoResponse := fun s =>
  match handle r s with
  | (s, Err e) => (s, Ok (cargo_error_response e))
  | x => x
  end.

(** A sequence of requests: the state it ends in. *)
Definition run_requests (rs : list CargoRequest) (s : CargoState St) : CargoState St :=
  fold_left (fun s r => fst (router r s)) rs s.

End Handlers.
