(* ===== verification/CargoSafety.v ===== *)
(** * The Cargo registry's invariant: lemmas

    The invariant [cargo_ok] of the server's state and what each handler does
    to it, on every branch, over any blob store that satisfies
    [BlobStoreLaws] and whatever fails in the store or on the snapshot's disk. *)

From S2P Require Import Prelude Str Frame Net Fs Json Http Digest BlobStore Regex CargoName CargoVersion CargoIndex CargoState CargoHandlers.

Local Open Scope string_scope.
Local Open Scope list_scope.

(** An entry without its yank flag: what publishing fixes for good. *)
Definition clear_yank (e : IndexEntry) : IndexEntry :=
  mkEntry (ie_name e) (ie_vers e) (ie_deps e) (ie_cksum e) (ie_features e) false (ie_links e) (ie_v e) (ie_features2 e) (ie_rust_version e).

(** ** The checks of a publish *)

Section Checks.
Context `{H : Hashing} {HL : HashingLaws H} `{J : JsonText} `{U : UnicodeDigits}.

Lemma sha256_new t : Digest.new Sha256 (hex_encode (sha256 t)) = Ok (Digest.sha256_of t).
Proof using HL. apply (Digest.valid_new (Digest.sha256_of t)), Digest.sha256_of_valid. Qed.

Lemma semver_nonempty v : is_valid_semver v = true -> v <> "".
Proof. intros Hv ->. discriminate Hv. Qed.

Lemma de_manifest_fields m pm :
  (exists v, Value.get "name" m = Some v) -> de_PublishManifest m = Some pm ->
  de_field de_string None (Value.get "name" m) = Some (pm_name pm) /\
  de_field de_string (Some "") (Value.get "vers" m) = Some (pm_vers pm) /\
  de_field de_string (Some "") (Value.get "version" m) = Some (pm_version pm).
Proof.
  intros [v Hv]. destruct m as [| | | | |fs]; try discriminate Hv. unfold de_PublishManifest, de_slots.
  destruct (forallb _ _); [|discriminate]. cbn [map].
  destruct (de_field de_string None _) as [n|]; [|discriminate]. cbn [mbind option_bind].
  destruct (de_field de_string (Some "") (Value.get "vers" _)) as [vs|]; [|discriminate]. cbn [mbind option_bind].
  destruct (de_field de_string (Some "") (Value.get "version" _)) as [vn|]; [|discriminate]. cbn [mbind option_bind].
  repeat match goal with |- context [de_field ?d ?x ?y] => destruct (de_field d x y); [|discriminate] end.
  cbn. intros [= <-]. auto.
Qed.

Lemma check_manifest_ok m t name vers e :
  check_manifest m t = Ok (name, vers, e) ->
  is_valid_name name = true /\ is_valid_semver vers = true /\ ie_name e = name /\ ie_vers e = vers /\
  ie_cksum e = hex_encode (sha256 t) /\ ie_yanked e = false /\ entry_wf e.
Proof.
  unfold check_manifest. destruct (Value.get "name" m) as [vn|] eqn:En; [|discriminate]. cbn [mbind option_bind].
  destruct (Value.as_str vn) as [n|] eqn:Ean; [|discriminate]. cbn [ok_or mbind outcome_bind].
  unfold validate_name. destruct (is_valid_name n) eqn:Hn; [|discriminate]. cbn [mbind outcome_bind].
  set (vv := match Value.get "vers" m with Some v => Some v | None => Value.get "version" m end).
  destruct vv as [v|] eqn:Ev; [|discriminate]. cbn [mbind option_bind].
  destruct (Value.as_str v) as [vs|] eqn:Eav; [|discriminate]. cbn [ok_or mbind outcome_bind].
  destruct (is_valid_semver vs) eqn:Hvs; [|discriminate]. cbn [negb].
  set (ck := match (v0 ← Value.get "cksum" m; Value.as_str v0) with Some _ => _ | None => _ end).
  destruct ck; [|discriminate|discriminate]. cbn [mbind outcome_bind]. unfold entry_from_manifest.
  destruct (de_PublishManifest m) as [pm|] eqn:Ep; [|discriminate]. cbn [mbind option_bind ok_or outcome_bind].
  intros [= <- <- <-]. destruct (de_manifest_fields m pm (ex_intro _ vn En) Ep) as (F1 & F2 & F3).
  rewrite En in F1. cbn in F1. destruct vn; try discriminate. cbn in Ean, F1.
  unfold into_index_entry. cbn. split_and!; try reflexivity; try congruence; [|unfold entry_wf; cbn; unfold is_u32, U32_MAX; lia].
  assert (Hne : vs <> "") by (apply semver_nonempty; exact Hvs). unfold vv in Ev.
  destruct (Value.get "vers" m) as [x|] eqn:Egv.
  - injection Ev as ->. destruct v; try discriminate. cbn in Eav, F2. injection Eav as ->. injection F2 as <-.
    rewrite bool_decide_false by exact Hne. reflexivity.
  - cbn in F2. injection F2 as <-. rewrite Ev in F3. destruct v; try discriminate. cbn in Eav, F3.
    rewrite bool_decide_true by reflexivity. congruence.
Qed.

Lemma check_existing_ok name vers e r :
  check_existing name vers e (Some r) = Ok tt ->
  (ie_vers e ∉ map ie_vers (entries r)) /\ (forall x, head (entries r) = Some x -> ie_name x = name).
Proof.
  unfold check_existing. destruct (head (entries r)) as [x|] eqn:Eh.
  - case_bool_decide as Hx; [|discriminate]. cbn [negb mbind outcome_bind].
    destruct (existsb _ _) eqn:Ex; [discriminate|]. intros _. split; [|congruence].
    intros Hin. apply list_elem_of_fmap in Hin as (y & Hy & Hin). apply not_true_iff_false in Ex. apply Ex, existsb_exists.
    exists y. split; [apply list_elem_of_In, Hin|]. apply bool_decide_eq_true. congruence.
  - destruct (entries r); [|discriminate]. intros _. split; [apply not_elem_of_nil|discriminate].
Qed.

Lemma read_u32_le_total b : read_u32_le b <> Panic.
Proof. unfold read_u32_le. case_match; discriminate. Qed.

Lemma parse_total body : parse body <> Panic.
Proof.
  unfold parse. apply bind_total; [apply read_u32_le_total|]. intros [m rest]. case_match; [discriminate|].
  apply bind_total; [apply ok_or_total|]. intros v. apply bind_total; [apply read_u32_le_total|].
  intros [c r]. case_match; discriminate.
Qed.

Lemma check_manifest_total m t : check_manifest m t <> Panic.
Proof.
  unfold check_manifest, validate_name. repeat (apply bind_total; [solve [apply ok_or_total|repeat case_match; discriminate]|intros]).
  case_match; [discriminate|]. repeat (apply bind_total; [solve [apply ok_or_total|repeat case_match; discriminate]|intros]).
  discriminate.
Qed.

Lemma check_existing_total name vers e o : check_existing name vers e o <> Panic.
Proof.
  unfold check_existing. destruct o; [|discriminate]. apply bind_total; [repeat case_match; discriminate|].
  intros _. case_match; discriminate.
Qed.

End Checks.

(** ** Index updates *)

Section Updates.
Context `{H : Hashing} {HL : HashingLaws H}.

Lemma omap_app {A B} (f : A -> option B) l1 l2 : omap f (l1 ++ l2) = (omap f l1 ++ omap f l2)%list.
Proof. induction l1 as [|x l1 IH]; cbn; [reflexivity|]. rewrite IH. destruct (f x); reflexivity. Qed.

Lemma tarballs_of_snoc es e d : (ie_vers e ∉ map ie_vers es) -> entry_digest e = Some d ->
  tarballs_of (es ++ [e]) = <[ie_vers e := d]> (tarballs_of es).
Proof.
  intros Hv Hd. unfold tarballs_of at 1. rewrite omap_app, list_to_map_app. cbn. rewrite Hd. cbn.
  rewrite insert_empty. symmetry. apply insert_union_singleton_r, tarballs_of_none, Hv.
Qed.

Lemma tarballs_of_lookup es v d : tarballs_of es !! v = Some d -> exists e, e ∈ es /\ ie_vers e = v /\ entry_digest e = Some d.
Proof.
  intros Hl. apply elem_of_list_to_map_2, list_elem_of_omap in Hl as (e & He & Hx).
  destruct (entry_digest e) as [d'|] eqn:E; [|discriminate]. injection Hx as <- <-. eauto.
Qed.

Lemma tarballs_of_elem es e d : NoDup (map ie_vers es) -> e ∈ es -> entry_digest e = Some d -> tarballs_of es !! ie_vers e = Some d.
Proof.
  induction es as [|x es IH]; intros Hnd Hin Hd; [set_solver|]. apply NoDup_cons in Hnd as [Hx Hnd].
  rewrite tarballs_of_cons. apply elem_of_cons in Hin as [->|Hin].
  - rewrite Hd. apply lookup_insert_eq.
  - assert (ie_vers x <> ie_vers e) by (intros Heq; apply Hx; rewrite Heq; apply list_elem_of_fmap; eauto).
    destruct (entry_digest x); [rewrite lookup_insert_ne by assumption|]; apply IH; assumption.
Qed.

(** Publishing a new version keeps a record's invariant. *)
Lemma record_push_ok r e d : record_ok r -> entry_wf e -> entry_digest e = Some d -> (ie_vers e ∉ map ie_vers (entries r)) ->
  record_ok (mkRecord (entries r ++ [e]) (<[ie_vers e := d]> (tarballs r)) (owners r)).
Proof.
  intros Hr Hw Hd Hv. split; cbn [entries tarballs owners].
  - destruct (entries r); discriminate.
  - rewrite map_app. apply NoDup_app. split_and!; [apply (ok_versions r Hr)| |apply NoDup_singleton].
    intros v Hin ->%list_elem_of_singleton. contradiction.
  - apply Forall_app_2; [apply (ok_digests r Hr)|]. repeat constructor. eauto.
  - rewrite (ok_tarballs r Hr), (tarballs_of_snoc _ _ d) by assumption. reflexivity.
  - apply Forall_app_2; [apply (ok_entries r Hr)|]. repeat constructor. exact Hw.
  - apply (ok_owners r Hr).
Qed.

Lemma record_first_ok e d : entry_wf e -> entry_digest e = Some d -> record_ok (mkRecord [e] (<[ie_vers e := d]> ∅) []).
Proof.
  intros Hw Hd. split; cbn [entries tarballs owners].
  - discriminate.
  - apply NoDup_singleton.
  - repeat constructor. eauto.
  - symmetry. apply (tarballs_of_snoc [] e d); [apply not_elem_of_nil|exact Hd].
  - repeat constructor. exact Hw.
  - constructor.
Qed.

(** The rollback of a publish undoes it exactly. *)
Lemma rollback_push key e d m :
  crates_ok m -> (forall r, m !! key = Some r -> ie_vers e ∉ map ie_vers (entries r)) ->
  rollback_publish key (ie_vers e) d (push_version key (ie_vers e) d e m) = m.
Proof.
  intros Hm Hfresh. unfold rollback_publish, push_version. rewrite lookup_insert_eq. cbn [entries tarballs owners].
  rewrite lookup_insert_eq, (bool_decide_true (Some d = Some d)) by reflexivity.
  destruct (m !! key) as [r|] eqn:E; cbn [default from_option id].
  - specialize (Hfresh r eq_refl). pose proof (Hm key r E) as Hr.
    assert (Hf : List.filter (fun x => negb (bool_decide (ie_vers x = ie_vers e))) (entries r ++ [e])%list = entries r).
    { rewrite List.filter_app. cbn. rewrite bool_decide_true by reflexivity. cbn. rewrite app_nil_r.
      revert Hfresh. clear. induction (entries r) as [|x es IH]; cbn; [reflexivity|]. intros [Hne Hn]%not_elem_of_cons.
      rewrite bool_decide_false by congruence. cbn. rewrite IH by exact Hn. reflexivity. }
    rewrite Hf, bool_decide_false by apply (ok_nonempty r Hr). cbn [andb].
    rewrite delete_insert_eq, delete_id by (rewrite (ok_tarballs r Hr); apply tarballs_of_none, Hfresh).
    rewrite insert_insert_eq. apply insert_id. rewrite E. destruct r; reflexivity.
  - cbn [entries tarballs owners CrateRecord_default app List.filter].
    rewrite (bool_decide_true (ie_vers e = ie_vers e)) by reflexivity. cbn [negb]. rewrite delete_insert_eq, delete_empty.
    rewrite !bool_decide_true by reflexivity. cbn [andb]. rewrite delete_insert_eq. apply delete_id, E.
Qed.

Lemma digest_referenced_spec m d :
  digest_referenced_in m d = true <-> exists k r v, m !! k = Some r /\ tarballs r !! v = Some d.
Proof.
  unfold digest_referenced_in. rewrite existsb_exists. split.
  - intros (r & Hr & Hd). apply list_elem_of_In, list_elem_of_fmap in Hr as ([k r'] & -> & Hk). apply elem_of_map_to_list in Hk.
    apply existsb_exists in Hd as (d' & Hd' & ->%bool_decide_eq_true). apply list_elem_of_In, list_elem_of_fmap in Hd' as ([v d'] & -> & Hv).
    apply elem_of_map_to_list in Hv. eauto.
  - intros (k & r & v & Hk & Hv). exists r. split.
    + apply list_elem_of_In, list_elem_of_fmap. exists (k, r). split; [reflexivity|]. apply elem_of_map_to_list, Hk.
    + apply existsb_exists. exists d. split; [|apply bool_decide_eq_true; reflexivity].
      apply list_elem_of_In, list_elem_of_fmap. exists (v, d). split; [reflexivity|]. apply elem_of_map_to_list, Hv.
Qed.

(** Yanking touches one flag. *)
Lemma set_yanked_clear version y es p es' :
  set_entry_yanked version y es = Some (p, es') -> map clear_yank es' = map clear_yank es.
Proof.
  revert p es'. induction es as [|e es IH]; intros p es'; cbn; [discriminate|].
  case_bool_decide; [intros [= <- <-]; reflexivity|].
  destruct (set_entry_yanked version y es) as [[q l]|]; [|discriminate]. intros [= <- <-]. cbn. rewrite (IH q l eq_refl). reflexivity.
Qed.

Lemma set_yanked_restore version y es p es' :
  set_entry_yanked version y es = Some (p, es') -> exists q, set_entry_yanked version p es' = Some (q, es).
Proof.
  revert p es'. induction es as [|e es IH]; intros p es'; cbn; [discriminate|].
  case_bool_decide as Hv.
  - intros [= <- <-]. cbn. rewrite bool_decide_true by exact Hv. destruct e. eauto.
  - destruct (set_entry_yanked version y es) as [[q l]|]; [|discriminate]. intros [= <- <-]. cbn.
    rewrite bool_decide_false by exact Hv. destruct (IH q l eq_refl) as [q' ->]. cbn. eauto.
Qed.

(** What depends on an entry without its flag only. *)
Lemma clear_yank_map {B} (f : IndexEntry -> B) es es' :
  (forall e, f (clear_yank e) = f e) -> map clear_yank es' = map clear_yank es -> map f es' = map f es.
Proof.
  intros Hf Heq. transitivity (map f (map clear_yank es')); [rewrite map_map; apply map_ext; auto|].
  rewrite Heq, map_map. apply map_ext. auto.
Qed.

Lemma clear_yank_Forall (P : IndexEntry -> Prop) es es' :
  (forall e, P (clear_yank e) <-> P e) -> map clear_yank es' = map clear_yank es -> Forall P es -> Forall P es'.
Proof.
  intros Hp Heq Hes. assert (Hc : Forall P (map clear_yank es')).
  { rewrite Heq. apply List.Forall_map. eapply Forall_impl; [exact Hes|]. intros e He. apply Hp, He. }
  apply (proj1 (List.Forall_map _ _ _)) in Hc. eapply Forall_impl; [exact Hc|]. intros e He. apply Hp, He.
Qed.

Lemma tarballs_of_clear es es' : map clear_yank es' = map clear_yank es -> tarballs_of es' = tarballs_of es.
Proof.
  intros Heq. unfold tarballs_of. f_equal.
  assert (Hc : forall l, omap (fun e => d ← entry_digest e; Some (ie_vers e, d)) l =
    omap (fun e => d ← entry_digest e; Some (ie_vers e, d)) (map clear_yank l)).
  { induction l as [|e l IH]; cbn; [reflexivity|]. rewrite IH. reflexivity. }
  rewrite Hc, Heq, <- Hc. reflexivity.
Qed.

Lemma record_yank_ok r es : record_ok r -> map clear_yank es = map clear_yank (entries r) ->
  record_ok (mkRecord es (tarballs r) (owners r)).
Proof.
  intros Hr Heq. split; cbn [entries tarballs owners].
  - intros ->. apply (ok_nonempty r Hr). destruct (entries r); [reflexivity|discriminate].
  - rewrite (clear_yank_map ie_vers _ _ ltac:(reflexivity) Heq). apply (ok_versions r Hr).
  - eapply clear_yank_Forall; [|exact Heq|apply (ok_digests r Hr)]. reflexivity.
  - rewrite (tarballs_of_clear _ _ Heq). apply (ok_tarballs r Hr).
  - eapply clear_yank_Forall; [|exact Heq|apply (ok_entries r Hr)]. reflexivity.
  - apply (ok_owners r Hr).
Qed.

(** Owner ids. *)
Lemma checked_add_some a b n : u64_checked_add a b = Some n -> n = (a + b)%Z /\ (n <= U64_MAX)%Z.
Proof. unfold u64_checked_add. destruct (Z.leb_spec (a + b) U64_MAX); [|discriminate]. intros [= <-]. auto. Qed.

Lemma max_owner_id_spec os : (0 <= max_owner_id os)%Z /\ Forall (fun o => (o_id o <= max_owner_id os)%Z) os.
Proof.
  unfold max_owner_id. assert (Hg : forall m, (m <= fold_left (fun m o => Z.max m (o_id o)) os m)%Z /\
    Forall (fun o => (o_id o <= fold_left (fun m o => Z.max m (o_id o)) os m)%Z) os).
  { induction os as [|o os IH]; intros m; cbn; [split; [lia|constructor]|].
    destruct (IH (Z.max m (o_id o))) as [H1 H2]. split; [lia|]. constructor; [lia|exact H2]. }
  destruct (Hg 0%Z). auto.
Qed.

Lemma add_owners_wf logins next os : Forall owner_wf os -> is_u64 next -> Forall owner_wf (fst (add_owners logins next os)).
Proof.
  revert next os. induction logins as [|l ls IH]; intros next os Ho Hn; cbn; [exact Ho|].
  destruct (existsb _ os); [apply IH; assumption|].
  assert (Ho2 : Forall owner_wf (os ++ [mkOwner next l None])) by (apply Forall_app_2; [exact Ho|repeat constructor; exact Hn || apply Hn]).
  destruct (u64_checked_add next 1) as [n|] eqn:E; [|exact Ho2]. apply checked_add_some in E as [-> Hle].
  apply IH; [exact Ho2|]. unfold is_u64 in *. lia.
Qed.

Lemma changed_owners_wf os logins remove : Forall owner_wf os -> Forall owner_wf (fst (changed_owners os logins remove)).
Proof.
  intros Ho. unfold changed_owners. destruct remove; cbn.
  - apply Forall_forall. intros o Hin. apply list_elem_of_In, filter_In in Hin as [Hin _]. apply list_elem_of_In in Hin.
    rewrite Forall_forall in Ho. exact (Ho o Hin).
  - destruct (u64_checked_add (max_owner_id os) 1) as [n|] eqn:E; [|exact Ho]. apply checked_add_some in E as [-> Hle].
    apply add_owners_wf; [exact Ho|]. pose proof (proj1 (max_owner_id_spec os)). unfold is_u64. lia.
Qed.

End Updates.

(** ** The invariant *)

Section Invariant.
Context `{H : Hashing} {HL : HashingLaws H} `{J : JsonText} `{L : HttpLib} `{U : UnicodeDigits} {St : Type} `{BS : BlobStore St} {BL : BlobStoreLaws St}.
Context (cfg : CargoConfig).

(** All versions of a crate carry one display name, a valid name whose
    canonical form is the key, and each is a valid version. *)
Definition record_named (k : string) (r : CrateRecord) : Prop :=
  exists display, is_valid_name display = true /\ canonical_name display = k /\
    Forall (fun e => ie_name e = display /\ is_valid_semver (ie_vers e) = true) (entries r).

(** Every version in the index has its tarball in the store. *)
Definition blobs_present (s : St) (m : crate_map) : Prop :=
  forall k r v d, m !! k = Some r -> tarballs r !! v = Some d -> is_Some (bs_view s d).

Record cargo_ok (s : CargoState St) : Prop := {
  co_store : bs_ok (blobs s);
  co_records : crates_ok (crates s);
  co_names : map_Forall record_named (crates s);
  co_blobs : blobs_present (blobs s) (crates s);
}.

(** The snapshot on disk is that of the map in memory. *)
Definition persisted (s : CargoState St) : Prop :=
  match data_dir cfg with Some dir => saved dir (crates s) (disk_of (cworld s)) | None => True end.

Lemma referenced_valid m k r v d : crates_ok m -> m !! k = Some r -> tarballs r !! v = Some d -> Digest.valid d.
Proof.
  intros Hm Hk Hv. pose proof (Hm k r Hk) as Hr. rewrite (ok_tarballs r Hr) in Hv.
  apply tarballs_of_lookup in Hv as (e & _ & _ & He). unfold entry_digest in He.
  destruct (Digest.new Sha256 (ie_cksum e)) eqn:E; [|discriminate|discriminate]. injection He as <-. exact (Digest.new_valid _ _ _ E).
Qed.

Lemma blobs_present_mono s s' m : crates_ok m ->
  (forall e, Digest.valid e -> is_Some (bs_view s e) -> is_Some (bs_view s' e)) -> blobs_present s m -> blobs_present s' m.
Proof.
  intros Hm Hmono Hp k r v d Hk Hv. apply Hmono; [exact (referenced_valid m k r v d Hm Hk Hv)|exact (Hp k r v d Hk Hv)].
Qed.

(** Pushing a checked version whose tarball is stored. *)
Lemma push_ok s m name vers e d t :
  let key := canonical_name name in
  crates_ok m -> map_Forall record_named m -> blobs_present s m ->
  is_valid_name name = true -> is_valid_semver vers = true -> ie_name e = name -> ie_vers e = vers ->
  ie_cksum e = hex_encode (sha256 t) -> entry_wf e -> d = Digest.sha256_of t ->
  check_existing name vers e (m !! key) = Ok tt -> is_Some (bs_view s d) ->
  let m' := push_version key (ie_vers e) d e m in
  crates_ok m' /\ map_Forall record_named m' /\ blobs_present s m'.
Proof using HL.
  intros key Hm Hn Hp Hvn Hvv En Ev Ec Hw -> Hex Hb m'.
  assert (Hd : entry_digest e = Some (Digest.sha256_of t)) by (unfold entry_digest; rewrite Ec, sha256_new; reflexivity).
  unfold m', push_version. destruct (m !! key) as [r|] eqn:E; cbn [default from_option id].
  - destruct (check_existing_ok _ _ _ _ Hex) as [Hfresh Hhead]. pose proof (Hm key r E) as Hr. split_and!.
    + apply map_Forall_insert_2; [|exact Hm]. apply record_push_ok; assumption.
    + apply map_Forall_insert_2; [|exact Hn]. destruct (Hn key r E) as (disp & H1 & H2 & H3). exists disp.
      split_and!; [exact H1|exact H2|]. cbn [entries]. apply Forall_app_2; [exact H3|]. repeat constructor; [|congruence].
      pose proof (ok_nonempty r Hr) as Hne. destruct (entries r) as [|x es]; [congruence|].
      apply Forall_cons in H3 as [[H3 _] _]. specialize (Hhead x eq_refl). congruence.
    + intros k r' v d [[<- <-]|[Hk Hr']]%lookup_insert_Some Hv; [|exact (Hp k r' v d Hr' Hv)].
      cbn [tarballs] in Hv. apply lookup_insert_Some in Hv as [[_ <-]|[_ Hv]]; [exact Hb|exact (Hp key r v d E Hv)].
  - split_and!.
    + apply map_Forall_insert_2; [|exact Hm]. apply record_first_ok; assumption.
    + apply map_Forall_insert_2; [|exact Hn]. exists name. split_and!; [exact Hvn|reflexivity|].
      cbn. repeat constructor; congruence.
    + intros k r' v d [[<- <-]|[Hk Hr']]%lookup_insert_Some Hv; [|exact (Hp k r' v d Hr' Hv)].
      cbn in Hv. apply lookup_insert_Some in Hv as [[_ <-]|[_ Hv]]; [exact Hb|]. rewrite lookup_empty in Hv. discriminate.
Qed.

Lemma try_persist_cases s s' o : try_persist cfg s = (s', o) ->
  blobs s' = blobs s /\ crates s' = crates s /\
  ((o = Ok (Ok tt) /\ persisted s') \/ (exists err, o = Ok (Err err))).
Proof.
  unfold try_persist, persisted, persist_locked. destruct (data_dir cfg) as [dir|]; [|intros [= <- <-]; auto].
  destruct (save dir (crates s) (cworld s)) as [w r] eqn:E. intros [= <- <-]. cbn.
  apply save_result in E as (Hp & Hok & _). split_and!; [reflexivity|reflexivity|].
  destruct r as [[]|err|]; [left; auto|right; eauto|contradiction].
Qed.

End Invariant.
