(* ===== verification/CargoProps.v ===== *)
(** * The Cargo registry server

    What holds of every request and of any sequence of requests, over any blob
    store that satisfies [BlobStoreLaws] and whatever fails in the store or on
    the snapshot's disk: the server answers, its index stays consistent, a
    published version stays what it was, can be downloaded and survives a
    restart. *)

From S2P Require Import Prelude Str Frame Net Fs Json Http Digest BlobStore Regex CargoName CargoVersion CargoIndex CargoState CargoHandlers CargoSafety.

(** ** What each Cargo handler does

    One lemma per mutating handler, on every branch: what it returns, what it
    leaves in the index, in the store and on disk. *)

Local Open Scope string_scope.
Local Open Scope list_scope.

Section Steps.
Context `{H : Hashing} {HL : HashingLaws H} `{J : JsonText} `{L : HttpLib} `{U : UnicodeDigits} {St : Type} `{BS : BlobStore St} {BL : BlobStoreLaws St}.
Context (cfg : CargoConfig).

(** The request failed: the index is as it was. *)
Definition refused {A} (s s' : CargoState St) (o : outcome CargoError A) : Prop :=
  (exists e, o = Err e) /\ crates s' = crates s /\ cargo_ok s'.

Lemma with_world_ok s w : cargo_ok s -> cargo_ok (mkCargo (blobs s) (crates s) w : CargoState St).
Proof. intros []. split; assumption. Qed.

(** Deleting a blob no version refers to. *)
Lemma delete_orphan_ok s d b o : cargo_ok s -> Digest.valid d -> digest_referenced_in (crates s) d = false ->
  bs_delete d (blobs s) = (b, o) -> o <> Panic /\ cargo_ok (mkCargo b (crates s) (cworld s)).
Proof.
  intros [Hs Hm Hn Hp] Hd Href E. destruct (delete_spec (blobs s) d Hs Hd) as (Hk & Hf & Ho). rewrite E in *. cbn [fst snd] in *.
  split; [destruct o; [discriminate|discriminate|contradiction]|]. split; cbn [blobs crates]; [exact Hk|exact Hm|exact Hn|].
  intros k r v e Hkr Hv. rewrite Hf; [exact (Hp k r v e Hkr Hv)|exact (referenced_valid _ k r v e Hm Hkr Hv)|].
  intros ->. apply not_true_iff_false in Href. apply Href, digest_referenced_spec. eauto.
Qed.

(** A publish that was acknowledged. *)
Definition published (body : bytes) (s s' : CargoState St) (name vers : string) (e : IndexEntry) (t : bytes) : Prop :=
  exists req, parse body = Ok req /\ t = tarball req /\ check_manifest (manifest req) t = Ok (name, vers, e) /\
    check_existing name vers e (crates s !! canonical_name name) = Ok tt /\
    crates s' = push_version (canonical_name name) (ie_vers e) (Digest.sha256_of t) e (crates s) /\
    persisted cfg s'.

Lemma publish_cases body s s' o : cargo_ok s -> handle_publish cfg body s = (s', o) ->
  refused s s' o \/
  (o = Ok (mkResp 200 [] (CJson publish_ok_body)) /\ cargo_ok s' /\ exists name vers e t, published body s s' name vers e t).
Proof using HL BL.
  intros Hok. unfold handle_publish.
  destruct (parse body) as [req|x|] eqn:Ep; [|run_st; intros [= <- <-]; left; split; eauto|destruct (parse_total body Ep)].
  unfold mbind at 1, stm_bind at 1, st_lift at 1.
  destruct (check_manifest (manifest req) (tarball req)) as [[[name vers] e]|x|] eqn:Ec;
    [|run_st; intros [= <- <-]; left; split; eauto|destruct (check_manifest_total _ _ Ec)].
  unfold mbind at 1, stm_bind at 1, st_lift at 1, mbind at 1, stm_bind at 1, st_get at 1.
  set (key := canonical_name name). set (d := Digest.sha256_of (tarball req)).
  unfold mbind at 1, stm_bind at 1, st_lift at 1.
  destruct (check_existing name vers e (crates s !! key)) as [[]|x|] eqn:Ex;
    [|intros [= <- <-]; left; split; eauto|destruct (check_existing_total _ _ _ _ Ex)].
  unfold mbind at 1, stm_bind at 1, on_blobs at 1. destruct (bs_put d (tarball req) (blobs s)) as [b o1] eqn:Eput.
  destruct (put_keeps_view d _ _ _ _ (co_store s Hok) (Digest.sha256_of_valid _) Eput) as (Hb & Hp1 & Hst & Hmono).
  destruct Hok as [Hs Hm Hn Hp]. pose proof (blobs_present_mono _ b _ Hm Hmono Hp) as Hpb.
  destruct (check_manifest_ok _ _ _ _ _ Ec) as (Hvn & Hvv & En & Ev & Eck & _ & Hw).
  destruct o1 as [[]|x|]; [|cbn; intros [= <- <-]; left; split; [eauto|split; [reflexivity|split; assumption]]|contradiction].
  cbn [map_err]. specialize (Hst eq_refl).
  destruct (push_ok b (crates s) name vers e d (tarball req) Hm Hn Hpb Hvn Hvv En Ev Eck Hw eq_refl Ex Hst) as (Hm' & Hn' & Hp').
  fold key in Hm', Hn', Hp'. set (m' := push_version key (ie_vers e) d e (crates s)) in *.
  unfold mbind at 1, stm_bind at 1, st_modify at 1, mbind at 1, stm_bind at 1.
  match goal with |- context [try_persist cfg ?x] => change x with (mkCargo b m' (cworld s)) end. destruct (try_persist cfg (mkCargo b m' (cworld s))) as [s2 o2] eqn:Epe.
  destruct (try_persist_cases cfg _ _ _ Epe) as (E1 & E2 & [(-> & Hpers)|(err & ->)]); cbn [blobs crates] in E1, E2.
  - run_st.
    intros [= <- <-]. right. split; [reflexivity|]. split; [split; rewrite ?E1, ?E2; assumption|].
    exists name, vers, e, (tarball req). exists req. split_and!; auto.
  - assert (Hroll : rollback_publish key (ie_vers e) d m' = crates s).
    { apply rollback_push; [exact Hm|]. intros r Hr. rewrite Hr in Ex. apply (check_existing_ok _ _ _ _ Ex). }
    unfold mbind at 1, stm_bind at 1, st_modify at 1, set_crates at 1. rewrite E1, E2, Hroll.
    unfold mbind at 1, stm_bind at 1, st_get at 1. cbn [crates].
    assert (Hok3 : cargo_ok (mkCargo b (crates s) (cworld s2))) by (split; assumption).
    unfold mbind at 1, stm_bind at 1. destruct (digest_referenced_in (crates s) d) eqn:Er; cbn [negb].
    + run_st. intros [= <- <-]. left. split; eauto.
    + unfold mbind at 1, stm_bind at 1, try_blobs at 1. cbn [blobs].
      destruct (bs_delete d b) as [b' o3] eqn:Ed.
      destruct (delete_orphan_ok _ d b' o3 Hok3 (Digest.sha256_of_valid _) Er Ed) as [Hp3 Hok4]. cbn [crates cworld] in Hok4.
      destruct o3; [..|contradiction]; (run_st; intros [= <- <-]; left; split; eauto).
Qed.

(** Replacing a record by one with the same tarballs and the same entries up to
    the yank flags. *)
Lemma replace_record_ok s key r r' w :
  cargo_ok s -> crates s !! key = Some r -> record_ok r' -> tarballs r' = tarballs r ->
  map clear_yank (entries r') = map clear_yank (entries r) ->
  cargo_ok (mkCargo (blobs s) (<[key := r']> (crates s)) w).
Proof.
  intros [Hs Hm Hn Hp] E Hr' Ht He. split; cbn [blobs crates]; [exact Hs|apply map_Forall_insert_2; assumption| |].
  - apply map_Forall_insert_2; [|exact Hn]. destruct (Hn key r E) as (disp & H1 & H2 & H3). exists disp.
    split_and!; [exact H1|exact H2|]. eapply clear_yank_Forall; [|exact He|exact H3]. reflexivity.
  - intros k x v d [[<- <-]|[_ Hx]]%lookup_insert_Some Hv; [|exact (Hp k x v d Hx Hv)].
    rewrite Ht in Hv. exact (Hp key r v d E Hv).
Qed.

(** An acknowledged change of one record. *)
Definition changed (s s' : CargoState St) (name : string) (f : CrateRecord -> CrateRecord) : Prop :=
  exists r, crates s !! canonical_name name = Some r /\
    crates s' = <[canonical_name name := f r]> (crates s) /\ persisted cfg s'.

Lemma yank_cases name version y s s' o : cargo_ok s -> set_yanked cfg name version y s = (s', o) ->
  refused s s' o \/
  (o = Ok tt /\ cargo_ok s' /\ is_valid_name name = true /\ exists p es, changed s s' name (fun r => mkRecord es (tarballs r) (owners r)) /\
     forall r, crates s !! canonical_name name = Some r -> set_entry_yanked version y (entries r) = Some (p, es)).
Proof using BL.
  intros Hok. unfold set_yanked, validate_name. destruct (is_valid_name name) eqn:Hvn; [|run_st; intros [= <- <-]; left; split; eauto].
  unfold mbind at 1, stm_bind at 1, st_lift at 1, mbind at 1, stm_bind at 1, st_get at 1. cbv zeta.
  set (key := canonical_name name). destruct (crates s !! key) as [r|] eqn:E; [|run_st; intros [= <- <-]; left; split; eauto].
  unfold mbind at 1, stm_bind at 1, st_lift at 1. cbn [ok_or].
  destruct (set_entry_yanked version y (entries r)) as [[p es]|] eqn:Ey; [|run_st; intros [= <- <-]; left; split; eauto].
  unfold mbind at 1, stm_bind at 1, st_lift at 1. cbn [ok_or].
  unfold mbind at 1, stm_bind at 1, st_modify at 1, mbind at 1, stm_bind at 1.
  set (m' := <[key := mkRecord es (tarballs r) (owners r)]> (crates s)).
  match goal with |- context [try_persist cfg ?x] => change x with (mkCargo (blobs s) m' (cworld s)) end.
  destruct (try_persist cfg _) as [s2 o2] eqn:Epe.
  pose proof (set_yanked_clear _ _ _ _ _ Ey) as Hcl. pose proof (co_records s Hok key r E) as Hr.
  destruct (try_persist_cases cfg _ _ _ Epe) as (E1 & E2 & [(-> & Hpers)|(err & ->)]); cbn [blobs crates] in E1, E2.
  - run_st. intros [= <- <-]. right. split; [reflexivity|].
    assert (Hok2 : cargo_ok (mkCargo (blobs s) m' (cworld s2)))
      by (eapply replace_record_ok; [exact Hok|exact E|apply record_yank_ok; assumption|reflexivity|exact Hcl]).
    split; [destruct s2; cbn in *; subst; exact Hok2|]. split; [reflexivity|]. exists p, es. split.
    + exists r. split_and!; [exact E|exact E2|exact Hpers].
    + intros r' Hr'. fold key in Hr'. congruence.
  - run_st. rewrite E2. unfold m' at 1. rewrite lookup_insert_eq. cbn [entries].
    destruct (set_yanked_restore _ _ _ _ _ Ey) as [q ->]. cbn [tarballs owners]. intros [= <- <-].
    assert (Hback : <[key := mkRecord (entries r) (tarballs r) (owners r)]> m' = crates s).
    { unfold m'. rewrite insert_insert_eq. apply insert_id. rewrite E. destruct r; reflexivity. }
    left. unfold refused, set_crates. cbn [crates]. rewrite E1, ?E2, Hback. split_and!; [eauto|reflexivity|apply with_world_ok, Hok].
Qed.

Lemma owners_cases name logins remove s s' o : cargo_ok s -> mutate_owners cfg name logins remove s = (s', o) ->
  refused s s' o \/
  (cargo_ok s' /\ exists r, crates s !! canonical_name name = Some r /\
     let '(os, fits) := changed_owners (owners r) logins remove in
     o = (if fits then Ok tt else Panic) /\
     crates s' = <[canonical_name name := mkRecord (entries r) (tarballs r) os]> (crates s) /\
     (fits = true -> persisted cfg s')).
Proof using BL.
  intros Hok. unfold mutate_owners, validate_name. destruct (is_valid_name name); [|run_st; intros [= <- <-]; left; split; eauto].
  unfold mbind at 1, stm_bind at 1, st_lift at 1, mbind at 1, stm_bind at 1, st_get at 1. cbv zeta.
  set (key := canonical_name name). destruct (crates s !! key) as [r|] eqn:E; [|run_st; intros [= <- <-]; left; split; eauto].
  unfold mbind at 1, stm_bind at 1, st_lift at 1. cbn [ok_or].
  pose proof (co_records s Hok key r E) as Hr.
  pose proof (changed_owners_wf (owners r) logins remove (ok_owners r Hr)) as Hwf.
  destruct (changed_owners (owners r) logins remove) as [os fits] eqn:Eco. cbn [fst] in Hwf.
  set (m' := <[key := mkRecord (entries r) (tarballs r) os]> (crates s)).
  assert (Hok2 : forall w, cargo_ok (mkCargo (blobs s) m' w)).
  { intros w. eapply replace_record_ok; [exact Hok|exact E| |reflexivity|reflexivity].
    destruct Hr as [R1 R2 R3 R4 R5 R6]. split; assumption. }
  unfold mbind at 1, stm_bind at 1, st_modify at 1.
  destruct fits; cbn [negb].
  2: { run_st. intros [= <- <-]. right. split; [apply Hok2|]. exists r. rewrite Eco. split; [reflexivity|].
       split; [reflexivity|]. split; [reflexivity|discriminate]. }
  unfold mbind at 1, stm_bind at 1.
  match goal with |- context [try_persist cfg ?x] => change x with (mkCargo (blobs s) m' (cworld s)) end.
  destruct (try_persist cfg _) as [s2 o2] eqn:Epe.
  destruct (try_persist_cases cfg _ _ _ Epe) as (E1 & E2 & [(-> & Hpers)|(err & ->)]); cbn [blobs crates] in E1, E2.
  - run_st. intros [= <- <-]. right. split; [destruct s2; cbn in *; subst; apply Hok2|]. exists r. rewrite Eco.
    split; [reflexivity|]. split; [reflexivity|]. split; [exact E2|auto].
  - run_st. intros [= <- <-]. left. unfold refused, set_crates. cbn [crates blobs]. rewrite E1, E2.
    assert (Hback : alter (fun x => mkRecord (entries x) (tarballs x) (owners r)) key m' = crates s).
    { unfold m'. rewrite alter_insert_eq. cbn [entries tarballs]. apply insert_id. rewrite E. destruct r; reflexivity. }
    rewrite Hback. split_and!; [eauto|reflexivity|apply with_world_ok, Hok].
Qed.

End Steps.

(** ** Requests and their sequences *)

Local Open Scope string_scope.
Local Open Scope list_scope.

(** ** Growth of the index *)

(** Every version of [m] is in [m'], in the same place and the same up to its
    yank flag. *)
Definition extends (m m' : crate_map) : Prop :=
  forall k r, m !! k = Some r ->
    exists r', m' !! k = Some r' /\ map clear_yank (entries r) `prefix_of` map clear_yank (entries r').

#[export] Instance extends_preorder : PreOrder extends.
Proof.
  split.
  - intros m k r Hr. eauto.
  - intros m1 m2 m3 H12 H23 k r Hr. destruct (H12 k r Hr) as (r2 & H2 & P2). destruct (H23 k r2 H2) as (r3 & H3 & P3).
    exists r3. split; [exact H3|]. etransitivity; eassumption.
Qed.

Lemma extends_insert m k r' :
  (forall r, m !! k = Some r -> map clear_yank (entries r) `prefix_of` map clear_yank (entries r')) ->
  extends m (<[k := r']> m).
Proof.
  intros Hk j r Hr. destruct (decide (k = j)) as [<-|Hne].
  - exists r'. rewrite lookup_insert_eq. auto.
  - exists r. rewrite lookup_insert_ne by exact Hne. auto.
Qed.

Lemma extends_push key vers d e m : extends m (push_version key vers d e m).
Proof.
  apply extends_insert. intros r Hr. rewrite Hr. cbn [default from_option id entries]. rewrite map_app. apply prefix_app_r. reflexivity.
Qed.

(** ** Owner ids *)

(** No owner id is above [M]. *)
Definition ids_below (M : Z) (m : crate_map) : Prop := map_Forall (fun _ r => max_owner_id (owners r) <= M)%Z m.

Definition added (r : CargoRequest) : Z := match r with PutOwners _ users => zlen users | _ => 0 end.

Lemma max_owner_id_le os M : (0 <= M)%Z -> Forall (fun o => o_id o <= M)%Z os -> (max_owner_id os <= M)%Z.
Proof.
  unfold max_owner_id. generalize 0%Z. intros m Hm Ho. revert m Hm. induction Ho as [|o os Ho _ IH]; intros m Hm; cbn; [exact Hm|].
  apply IH. lia.
Qed.

Lemma add_owners_fits logins next os :
  Forall (fun o => o_id o < next)%Z os -> (next + zlen logins <= U64_MAX)%Z ->
  snd (add_owners logins next os) = true /\ Forall (fun o => o_id o < next + zlen logins)%Z (fst (add_owners logins next os)).
Proof.
  revert next os. induction logins as [|l ls IH]; intros next os Ho Hn; cbn.
  - split; [reflexivity|]. eapply Forall_impl; [exact Ho|]. unfold zlen. cbn. lia.
  - assert (Hz : zlen (l :: ls) = (1 + zlen ls)%Z) by (unfold zlen; cbn; lia). rewrite Hz in *. pose proof (zlen_nonneg ls).
    destruct (existsb _ os).
    + destruct (IH next os Ho ltac:(lia)) as [H1 H2]. split; [exact H1|]. eapply Forall_impl; [exact H2|]. cbn. lia.
    + unfold u64_checked_add. rewrite (proj2 (Z.leb_le _ _)) by lia.
      destruct (IH (next + 1)%Z (os ++ [mkOwner next l None])) as [H1 H2]; [|lia|].
      * apply Forall_app_2; [eapply Forall_impl; [exact Ho|cbn; lia]|]. repeat constructor. cbn. lia.
      * split; [exact H1|]. eapply Forall_impl; [exact H2|]. cbn. lia.
Qed.

Lemma changed_owners_fits os logins (remove : bool) M :
  let n := if remove then 0%Z else zlen logins in
  (max_owner_id os <= M)%Z -> (M + n < U64_MAX)%Z ->
  snd (changed_owners os logins remove) = true /\ (max_owner_id (fst (changed_owners os logins remove)) <= M + n)%Z.
Proof.
  intros n Hm Hn. destruct (max_owner_id_spec os) as [H0 Hall]. unfold changed_owners, n in *. destruct remove.
  - split; [reflexivity|]. cbn. apply max_owner_id_le; [lia|]. apply Forall_forall. intros o Ho.
    apply list_elem_of_In, filter_In in Ho as [Ho _]. apply list_elem_of_In in Ho. rewrite Forall_forall in Hall. specialize (Hall o Ho). cbn in *. lia.
  - unfold u64_checked_add. pose proof (zlen_nonneg logins). rewrite (proj2 (Z.leb_le _ _)) by lia.
    destruct (add_owners_fits logins (max_owner_id os + 1) os) as [H1 H2]; [|lia|].
    + eapply Forall_impl; [exact Hall|]. cbn. lia.
    + split; [exact H1|]. apply max_owner_id_le; [lia|]. eapply Forall_impl; [exact H2|]. cbn. lia.
Qed.

Lemma ids_below_mono M M' m : (M <= M')%Z -> ids_below M m -> ids_below M' m.
Proof. intros Hle Hm k r Hr. specialize (Hm k r Hr). cbn in *. lia. Qed.

Lemma ids_below_push M key vers d e m : (0 <= M)%Z -> ids_below M m -> ids_below M (push_version key vers d e m).
Proof.
  intros H0 Hm. apply map_Forall_insert_2; [|exact Hm]. cbn [owners]. destruct (m !! key) as [r|] eqn:E; cbn [default from_option id]; [exact (Hm key r E)|exact H0].
Qed.

(** ** One request *)

Create HintDb reads.

Section Requests.
Context `{H : Hashing} {HL : HashingLaws H} `{J : JsonText} `{L : HttpLib} `{U : UnicodeDigits} {St : Type} `{BS : BlobStore St} {BL : BlobStoreLaws St}.
Context (cfg : CargoConfig).

(** A handler that reads: the index is as it was, whatever it returns. *)
Definition reads {A} (h : stm (CargoState St) CargoError A) : Prop :=
  forall s, cargo_ok s -> cargo_ok (fst (h s)) /\ crates (fst (h s)) = crates s /\ snd (h s) <> Panic.

Lemma reads_bind {A B} (m : stm (CargoState St) CargoError A) (k : A -> stm (CargoState St) CargoError B) :
  reads m -> (forall a, reads (k a)) -> reads (m ≫= k).
Proof.
  intros Hm Hk s Hs. destruct (Hm s Hs) as (H1 & H2 & H3). unfold mbind, stm_bind.
  destruct (m s) as [s' [a|e|]]; cbn [fst snd] in *; [|split_and!; [exact H1|exact H2|discriminate]|contradiction].
  destruct (Hk a s' H1) as (K1 & K2 & K3). split_and!; [exact K1|congruence|exact K3].
Qed.

Lemma reads_ret {A} (a : A) : reads (mret a).
Proof. intros s Hs. split_and!; [exact Hs|reflexivity|discriminate]. Qed.

Lemma reads_get : reads st_get.
Proof. intros s Hs. split_and!; [exact Hs|reflexivity|discriminate]. Qed.

Lemma reads_throw {A} e : reads (st_throw (A := A) e).
Proof. intros s Hs. split_and!; [exact Hs|reflexivity|discriminate]. Qed.

Lemma reads_lift {A} (m : outcome CargoError A) : m <> Panic -> reads (st_lift m).
Proof. intros Hm s Hs. split_and!; [exact Hs|reflexivity|exact Hm]. Qed.

Lemma reads_if {A} (b : bool) (x y : stm (CargoState St) CargoError A) : reads x -> reads y -> reads (if b then x else y).
Proof. destruct b; auto. Qed.

Lemma crate_name_total name : validate_name name <> Panic.
Proof. unfold validate_name. case_match; discriminate. Qed.

Hint Resolve reads_ret reads_get reads_throw reads_lift reads_if crate_name_total ok_or_total : reads.

Ltac reads_tac := repeat (apply reads_bind; [solve [auto with reads]|intros]); cbv zeta; auto with reads.

(** Fetching a stored blob. *)
Lemma get_blob_ok s d : cargo_ok s -> Digest.valid d ->
  let '(s', o) := on_blobs (bs_get d) s in cargo_ok s' /\ crates s' = crates s /\ o <> Panic /\
    (forall b, o = Ok b -> bs_view (blobs s) d = Some b) /\
    (is_Some (bs_view (blobs s) d) -> forall e, o <> Err (Storage (NotFound e))).
Proof.
  intros [Hs Hm Hn Hp] Hd. unfold on_blobs. destruct (get_spec (blobs s) d Hs Hd) as (G1 & G2 & G3).
  destruct (bs_get d (blobs s)) as [b o]. cbn [fst snd] in *. split_and!.
  - split; cbn [blobs crates]; [exact G1|exact Hm|exact Hn|].
    eapply blobs_present_mono; [exact Hm| |exact Hp]. intros e He. rewrite G2 by exact He. auto.
  - reflexivity.
  - destruct o; [discriminate|discriminate|contradiction].
  - intros c Hc. destruct o; [|discriminate|discriminate]. injection Hc as ->. exact G3.
  - intros [c Hc] e He. destruct o as [|[]|]; try discriminate. destruct G3 as [G3 _]. congruence.
Qed.

Lemma reads_index name hs : reads (serve_index name hs).
Proof. unfold serve_index. reads_tac. Qed.

Lemma reads_owners name : reads (handle_owners_list name).
Proof. unfold handle_owners_list. reads_tac. Qed.

Lemma reads_download name version : reads (handle_download name version).
Proof using BL.
  intros s Hs. unfold handle_download.
  unfold mbind at 1, stm_bind at 1, st_lift at 1. pose proof (crate_name_total name) as Hv.
  destruct (validate_name name) as [u|e|]; [|cbn; split_and!; [exact Hs|reflexivity|discriminate]|contradiction].
  run_st.
  destruct (crates s !! canonical_name name) as [r|] eqn:E; cbn [ok_or]; [|cbn; split_and!; [exact Hs|reflexivity|discriminate]].
  destruct (tarballs r !! version) as [d|] eqn:Et; cbn [ok_or]; [|cbn; split_and!; [exact Hs|reflexivity|discriminate]].
  pose proof (get_blob_ok s d Hs (referenced_valid _ _ r version d (co_records s Hs) E Et)) as Hg.
  destruct (on_blobs (bs_get d) s) as [s' [b|e|]]; destruct Hg as (G1 & G2 & G3 & _); cbn [fst snd];
    [split_and!; [exact G1|exact G2|discriminate]..|contradiction].
Qed.

(** What a request does to the index. *)
Record good_step (M : Z) (s s' : CargoState St) {A} (o : outcome CargoError A) : Prop := {
  gs_ok : cargo_ok s';
  gs_grows : extends (crates s) (crates s');
  gs_answers : o <> Panic;
  gs_ids : ids_below M (crates s');
}.

Lemma good_step_reads {A} M (h : stm (CargoState St) CargoError A) s :
  reads h -> cargo_ok s -> ids_below M (crates s) -> good_step M s (fst (h s)) (snd (h s)).
Proof. intros Hh Hs Hi. destruct (Hh s Hs) as (H1 & H2 & H3). split; [exact H1|rewrite H2; reflexivity|exact H3|rewrite H2; exact Hi]. Qed.

Lemma good_step_refused {A} M s s' (o : outcome CargoError A) : refused s s' o -> ids_below M (crates s) -> good_step M s s' o.
Proof. intros ((e & ->) & Hc & Hok) Hi. split; [exact Hok|rewrite Hc; reflexivity|discriminate|rewrite Hc; exact Hi]. Qed.

(** The response is built from a handler's value. *)
Lemma good_step_then {A B} M (m : stm (CargoState St) CargoError A) (b : B) s :
  good_step M s (fst (m s)) (snd (m s)) -> good_step M s (fst ((m ;; mret b) s)) (snd ((m ;; mret b) s)).
Proof.
  intros [H1 H2 H3 H4]. run_st. destruct (m s) as [s' [a|e|]]; cbn in *; [|split; (assumption || discriminate)|contradiction].
  split; (assumption || discriminate).
Qed.

Lemma publish_step M body s : cargo_ok s -> (0 <= M)%Z -> ids_below M (crates s) ->
  good_step M s (fst (handle_publish cfg body s)) (snd (handle_publish cfg body s)).
Proof using HL BL.
  intros Hs H0 Hi. destruct (handle_publish cfg body s) as [s' o] eqn:E. cbn [fst snd].
  destruct (publish_cases cfg body s s' o Hs E) as [Hr|(-> & Hok & n & v & e & t & req & _ & _ & _ & _ & Hc & _)];
    [apply good_step_refused; assumption|].
  split; [exact Hok|rewrite Hc; apply extends_push|discriminate|rewrite Hc; apply ids_below_push; assumption].
Qed.

Lemma yank_step M name version y s : cargo_ok s -> ids_below M (crates s) ->
  good_step M s (fst (set_yanked cfg name version y s)) (snd (set_yanked cfg name version y s)).
Proof using BL.
  intros Hs Hi. destruct (set_yanked cfg name version y s) as [s' o] eqn:E. cbn [fst snd].
  destruct (yank_cases cfg name version y s s' o Hs E) as [Hr|(-> & Hok & _ & p & es & (r & Hr & Hc & _) & Hy)];
    [apply good_step_refused; assumption|].
  specialize (Hy r Hr). apply set_yanked_clear in Hy. split; [exact Hok| |discriminate|].
  - rewrite Hc. apply extends_insert. intros r' Hr'. assert (r' = r) as -> by congruence. cbn [entries]. rewrite Hy. reflexivity.
  - rewrite Hc. apply map_Forall_insert_2; [exact (Hi _ r Hr)|exact Hi].
Qed.

Lemma owners_step M name logins (remove : bool) s :
  let n := if remove then 0%Z else zlen logins in
  cargo_ok s -> ids_below M (crates s) -> (0 <= M)%Z -> (M + n < U64_MAX)%Z ->
  good_step (M + n) s (fst (mutate_owners cfg name logins remove s)) (snd (mutate_owners cfg name logins remove s)).
Proof using BL.
  intros n Hs Hi H0 Hn. assert (Hn0 : (0 <= n)%Z) by (unfold n; destruct remove; [lia|apply zlen_nonneg]).
  destruct (mutate_owners cfg name logins remove s) as [s' o] eqn:E. cbn [fst snd].
  destruct (owners_cases cfg name logins remove s s' o Hs E) as [Hr|(Hok & r & Hr & Hc)].
  - apply good_step_refused; [exact Hr|]. eapply ids_below_mono; [|exact Hi]. lia.
  - destruct (changed_owners_fits (owners r) logins remove M (Hi _ r Hr) Hn) as [Hf Hle].
    destruct (changed_owners (owners r) logins remove) as [os fits]. cbn [fst snd] in *. subst fits.
    destruct Hc as (-> & Hc & _). split; [exact Hok| |discriminate|].
    + rewrite Hc. apply extends_insert. intros r' Hr'. assert (r' = r) as -> by congruence. reflexivity.
    + rewrite Hc. apply map_Forall_insert_2; [exact Hle|]. eapply ids_below_mono; [|exact Hi]. lia.
Qed.

Lemma handle_step M r s : cargo_ok s -> ids_below M (crates s) -> (0 <= M)%Z -> (M + added r < U64_MAX)%Z ->
  good_step (M + added r) s (fst (handle cfg r s)) (snd (handle cfg r s)).
Proof using HL BL.
  intros Hs Hi H0 HM. destruct r; cbn [added] in *; rewrite ?Z.add_0_r in *; cbn [handle].
  - apply good_step_reads; [apply reads_ret|assumption..].
  - apply good_step_reads; [|assumption..]. unfold handle_sparse_index. apply reads_bind; [auto with reads|intros; apply reads_index].
  - apply good_step_reads; [apply reads_index|assumption..].
  - apply good_step_reads; [apply reads_index|assumption..].
  - apply good_step_reads; [apply reads_throw|assumption..].
  - destruct (_ <? _)%Z; [apply good_step_reads; [apply reads_ret|assumption..]|]. apply publish_step; assumption.
  - apply good_step_reads; [apply reads_download|assumption..].
  - apply good_step_then, yank_step; assumption.
  - apply good_step_then, yank_step; assumption.
  - apply good_step_reads; [apply reads_owners|assumption..].
  - apply good_step_then, (owners_step M _ _ false); assumption.
  - pose proof (owners_step M name users true s) as Ho. cbv zeta in Ho. rewrite Z.add_0_r in Ho. apply good_step_then, Ho; assumption.
Qed.

Lemma router_step M r s : cargo_ok s -> ids_below M (crates s) -> (0 <= M)%Z -> (M + added r < U64_MAX)%Z ->
  good_step (M + added r) s (fst (router cfg r s)) (snd (router cfg r s)) /\ exists resp, snd (router cfg r s) = Ok resp.
Proof using HL BL.
  intros Hs Hi H0 HM. destruct (handle_step M r s Hs Hi H0 HM) as [H1 H2 H3 H4]. unfold router.
  destruct (handle cfg r s) as [s' [a|e|]]; cbn [fst snd] in *; [| |contradiction]; (split; [split; (assumption || discriminate)|eauto]).
Qed.

(** Any sequence of requests. *)
Definition added_by (rs : list CargoRequest) : Z := fold_right (fun r n => added r + n)%Z 0%Z rs.

Lemma added_nonneg r : (0 <= added r)%Z.
Proof. destruct r; cbn; try lia. apply zlen_nonneg. Qed.

Lemma added_by_nonneg rs : (0 <= added_by rs)%Z.
Proof. induction rs as [|r rs IH]; [cbn; lia|]. change (added_by (r :: rs)) with (added r + added_by rs)%Z. pose proof (added_nonneg r). lia. Qed.

Lemma run_step rs : forall M s, cargo_ok s -> ids_below M (crates s) -> (0 <= M)%Z -> (M + added_by rs < U64_MAX)%Z ->
  cargo_ok (run_requests cfg rs s) /\ extends (crates s) (crates (run_requests cfg rs s)) /\
  ids_below (M + added_by rs) (crates (run_requests cfg rs s)).
Proof using HL BL.
  induction rs as [|r rs IH]; intros M s Hs Hi H0 HM.
  - change (added_by []) with 0%Z. rewrite Z.add_0_r. split_and!; [exact Hs|reflexivity|exact Hi].
  - change (added_by (r :: rs)) with (added r + added_by rs)%Z in *.
    pose proof (added_nonneg r) as Ha. pose proof (added_by_nonneg rs) as Hb.
    destruct (router_step M r s Hs Hi H0 ltac:(lia)) as [[H1 H2 _ H4] _].
    destruct (IH (M + added r)%Z (fst (router cfg r s)) H1 H4 ltac:(lia) ltac:(lia)) as (I1 & I2 & I3).
    split_and!; [exact I1|etransitivity; eassumption|]. rewrite Z.add_assoc. exact I3.
Qed.

End Requests.
