(* ===== verification/CargoTheorems.v ===== *)
(** * What the Cargo registry server promises

    The claims about whole requests and sequences of requests, and the state
    their witnesses run from. *)

From S2P Require Import Prelude Str Frame Net Fs Json Http Digest BlobStore Regex CargoName CargoVersion CargoIndex CargoState CargoHandlers CargoSafety CargoProps.

Local Open Scope string_scope.
Local Open Scope list_scope.

Section Lemmas.
Context `{H : Hashing} {HL : HashingLaws H} `{J : JsonText} `{L : HttpLib} `{U : UnicodeDigits} {St : Type} `{BS : BlobStore St} {BL : BlobStoreLaws St}.
Context (cfg : CargoConfig).

Lemma new_server_ok (b : St) host w : bs_ok b -> cargo_ok (snd (CargoState_new b host w)).
Proof.
  intros Hb. split; cbn; [exact Hb|apply map_Forall_empty|apply map_Forall_empty|].
  intros k r v d Hk. rewrite lookup_empty in Hk. discriminate.
Qed.

(** An entry stays in its place, with its tarball. *)
Lemma extends_entry m m' k r i e :
  crates_ok m -> crates_ok m' -> extends m m' -> m !! k = Some r -> entries r !! i = Some e ->
  exists r' e', m' !! k = Some r' /\ entries r' !! i = Some e' /\ clear_yank e' = clear_yank e /\
    tarballs r' !! ie_vers e = tarballs r !! ie_vers e.
Proof.
  intros Hm Hm' He Hk Hi. destruct (He k r Hk) as (r' & Hk' & Hpre).
  assert (Hc : map clear_yank (entries r) !! i = Some (clear_yank e)) by (rewrite list_lookup_fmap, Hi; reflexivity).
  pose proof (prefix_lookup_Some _ _ _ _ Hc Hpre) as Hc'.
  apply list_lookup_fmap_Some in Hc' as (e' & Heq & Hi'). exists r', e'. split_and!; [exact Hk'|exact Hi'|auto|].
  pose proof (Hm k r Hk) as Hr. pose proof (Hm' k r' Hk') as Hr'.
  assert (Hd : is_Some (entry_digest e)).
  { pose proof (ok_digests r Hr) as Hds. rewrite Forall_forall in Hds. apply Hds. eapply list_elem_of_lookup_2, Hi. }
  destruct Hd as [d Hd]. assert (Hd' : entry_digest e' = Some d).
  { unfold entry_digest in *. change (ie_cksum e') with (ie_cksum (clear_yank e')). rewrite <- Heq. exact Hd. }
  assert (Hv : ie_vers e' = ie_vers e) by (change (ie_vers (clear_yank e') = ie_vers e); rewrite <- Heq; reflexivity).
  rewrite (ok_tarballs r Hr), (ok_tarballs r' Hr').
  rewrite (tarballs_of_elem _ e d (ok_versions r Hr) (list_elem_of_lookup_2 _ _ _ Hi) Hd).
  rewrite <- Hv. apply (tarballs_of_elem _ e' d (ok_versions r' Hr') (list_elem_of_lookup_2 _ _ _ Hi') Hd').
Qed.

(** What [CrateNotFound] excludes. *)
Lemma download_result name version s r d :
  cargo_ok s -> is_valid_name name = true -> crates s !! canonical_name name = Some r -> tarballs r !! version = Some d ->
  (exists b h, snd (handle_download name version s) = Ok (mkResp 200 h (CBytes b)) /\ bs_view (blobs s) d = Some b) \/
  (exists e, snd (handle_download name version s) = Err (Storage e) /\ ~ bs_quiet (blobs s) /\ forall x, e <> NotFound x).
Proof using BL.
  intros Hs Hv E Et. unfold handle_download, validate_name. rewrite Hv. run_st. rewrite E. cbn [ok_or]. rewrite Et. cbn [ok_or].
  pose proof (referenced_valid _ _ r version d (co_records s Hs) E Et) as Hd.
  pose proof (co_blobs s Hs _ r version d E Et) as Hb.
  pose proof (get_blob_ok s d Hs Hd) as Hg. pose proof (get_quiet (blobs s) d (co_store s Hs)) as Hq.
  unfold on_blobs in *. destruct (bs_get d (blobs s)) as [b o]. cbn [fst snd] in *. destruct Hg as (_ & _ & Hp & Hok & Hnf).
  destruct o as [c|e|]; cbn [map_err] in *; [| |contradiction].
  - left. do 2 eexists. split; [reflexivity|]. apply Hok. reflexivity.
  - right. exists e. split; [reflexivity|]. split.
    + intros Hqq. destruct (Hq Hqq Hd) as [_ Hr]. destruct Hb as [c Hc]. rewrite Hc in Hr. discriminate.
    + intros x ->. exact (Hnf Hb x eq_refl).
Qed.

(** A request that changes the index when it succeeds. *)
Definition mutates (r : CargoRequest) : bool :=
  match r with PutNew _ | DeleteYank _ _ | PutUnyank _ _ | PutOwners _ _ | DeleteOwners _ _ => true | _ => false end.

Lemma refused_then {A B} (m : stm (CargoState St) CargoError A) (b : B) s s' e :
  (m ;; mret b) s = (s', Err e) -> m s = (s', Err e).
Proof. run_st. destruct (m s) as [s1 [a|x|]]; congruence. Qed.

Lemma acked_then {A B} (m : stm (CargoState St) CargoError A) (b : B) s s' c :
  (m ;; mret b) s = (s', Ok c) -> exists a, m s = (s', Ok a).
Proof. run_st. destruct (m s) as [s1 [a|x|]]; try congruence. intros [= <- _]. eauto. Qed.

Lemma yank_persisted name version y s s' u : cargo_ok s -> set_yanked cfg name version y s = (s', Ok u) -> cargo_ok s' /\ persisted cfg s'.
Proof using BL.
  intros Hs E. destruct (yank_cases cfg _ _ _ _ _ _ Hs E) as [((e & [=]) & _)|(_ & Hk & _ & p & es & (r & _ & _ & Hp) & _)]. exact (conj Hk Hp).
Qed.

Lemma owners_persisted name logins remove s s' u : cargo_ok s -> mutate_owners cfg name logins remove s = (s', Ok u) -> cargo_ok s' /\ persisted cfg s'.
Proof using BL.
  intros Hs E. destruct (owners_cases cfg _ _ _ _ _ _ Hs E) as [((e & [=]) & _)|(Hk & r & _ & Hc)].
  destruct (changed_owners (owners r) logins remove) as [os []]; destruct Hc as ([=] & _ & Hp). exact (conj Hk (Hp eq_refl)).
Qed.

Lemma publish_persisted body s s' u : cargo_ok s -> handle_publish cfg body s = (s', Ok u) -> cargo_ok s' /\ persisted cfg s'.
Proof using HL BL.
  intros Hs E. destruct (publish_cases cfg _ _ _ _ Hs E) as [((e & [=]) & _)|(_ & Hk & n & v & x & t & req & _ & _ & _ & _ & _ & Hp)].
  exact (conj Hk Hp).
Qed.

End Lemmas.

(** ** Claims *)

Section Claims.
Context `{H : Hashing} {HL : HashingLaws H} `{J : JsonText} `{L : HttpLib} `{U : UnicodeDigits} {St : Type} `{BS : BlobStore St} {BL : BlobStoreLaws St}.
Context (cfg : CargoConfig).

(** C4: the Cargo server's invariant holds after any sequence of requests,
    whatever fails in the blob store or on the snapshot's disk, and the next
    request is answered and keeps it. The invariant says that every record is
    under the canonical form of one valid display name, that its versions are
    valid and distinct, that the version map is the digests of the entries'
    checksums, and that every tarball it names is stored. The bound is on the
    owner ids given out, which are [u64] and overflow after that many. *)
Theorem cargo_server_invariant (M : Z) (rs : list CargoRequest) (r : CargoRequest) (s : CargoState St) :
  cargo_ok s -> ids_below M (crates s) -> (0 <= M)%Z -> (M + added_by (rs ++ [r]) < U64_MAX)%Z ->
  cargo_ok (run_requests cfg rs s) /\
  exists s' resp, router cfg r (run_requests cfg rs s) = (s', Ok resp) /\ cargo_ok s'.
Proof using HL BL.
  intros Hs Hi H0 HM. assert (Ha : added_by (rs ++ [r]) = (added_by rs + added r)%Z).
  { unfold added_by. rewrite List.fold_right_app. cbn. clear. induction rs as [|x rs IH]; cbn -[added]; [lia|]. rewrite IH. lia. }
  pose proof (added_nonneg r) as Hr0. pose proof (added_by_nonneg rs) as Hb0.
  destruct (run_step cfg rs M s Hs Hi H0 ltac:(lia)) as (R1 & _ & R3).
  destruct (router_step cfg _ r _ R1 R3 ltac:(lia) ltac:(lia)) as ([S1 _ _ _] & resp & E).
  split; [exact R1|]. exists (fst (router cfg r (run_requests cfg rs s))), resp.
  split; [|exact S1]. rewrite <- E. apply surjective_pairing.
Qed.

(** C23: a published version never changes: after any sequence of requests,
    failing or not, it is at the same place of the same crate's index, equal up
    to its yank flag, with the same tarball digest. *)
Theorem published_versions_immutable (M : Z) (rs : list CargoRequest) (s : CargoState St) k r i e :
  cargo_ok s -> ids_below M (crates s) -> (0 <= M)%Z -> (M + added_by rs < U64_MAX)%Z ->
  crates s !! k = Some r -> entries r !! i = Some e ->
  exists r' e', crates (run_requests cfg rs s) !! k = Some r' /\ entries r' !! i = Some e' /\
    clear_yank e' = clear_yank e /\ tarballs r' !! ie_vers e = tarballs r !! ie_vers e.
Proof using HL BL.
  intros Hs Hi H0 HM Hk He. destruct (run_step cfg rs M s Hs Hi H0 HM) as (R1 & R2 & _).
  exact (extends_entry _ _ k r i e (co_records s Hs) (co_records _ R1) R2 Hk He).
Qed.

(** C7: what an acknowledged publish stored can be downloaded after any
    sequence of requests, under any name that collides with the published one:
    the answer is 200 with bytes of the published tarball's SHA-256, or, when
    the store's environment fails, a storage error that is not "not found". *)
Theorem published_crate_downloadable (M : Z) (body : bytes) (s s1 : CargoState St) resp req name vers e (rs : list CargoRequest) (name' : string) :
  cargo_ok s -> ids_below M (crates s) -> (0 <= M)%Z -> (M + added_by rs < U64_MAX)%Z ->
  handle_publish cfg body s = (s1, Ok resp) ->
  parse body = Ok req -> check_manifest (manifest req) (tarball req) = Ok (name, vers, e) ->
  is_valid_name name' = true -> names_collide name' name = true ->
  let s2 := run_requests cfg rs s1 in
  (exists b h, snd (handle_download name' vers s2) = Ok (mkResp 200 h (CBytes b)) /\
     Digest.sha256_of b = Digest.sha256_of (tarball req)) \/
  (exists x, snd (handle_download name' vers s2) = Err (Storage x) /\ ~ bs_quiet (blobs s2) /\ forall d, x <> NotFound d).
Proof using HL BL.
  intros Hs Hi H0 HM E Hp Hc Hv Hcol s2. apply bool_decide_eq_true in Hcol.
  pose proof (publish_step cfg M body s Hs H0 Hi) as [G1 _ _ G4]. rewrite E in G1, G4. cbn [fst] in G1, G4.
  destruct (publish_cases cfg body s s1 _ Hs E) as [((x & [=]) & _)|(_ & _ & n & v & x & t & req' & P1 & -> & P3 & _ & P5 & _)].
  assert (req' = req) as -> by congruence. rewrite Hc in P3. injection P3 as <- <- <-.
  destruct (check_manifest_ok _ _ _ _ _ Hc) as (_ & _ & _ & Ev & _).
  destruct (run_step cfg rs M s1 G1 G4 H0 HM) as (R1 & R2 & _). fold s2 in R1, R2.
  set (r := default CrateRecord_default (crates s !! canonical_name name)) in *.
  assert (Hk : crates s1 !! canonical_name name = Some (mkRecord (entries r ++ [e]) (<[ie_vers e := Digest.sha256_of (tarball req)]> (tarballs r)) (owners r)))
    by (rewrite P5; apply lookup_insert_eq).
  destruct (extends_entry _ _ _ _ (length (entries r)) e (co_records s1 G1) (co_records s2 R1) R2 Hk) as (r' & e' & K1 & _ & _ & K4).
  { cbn [entries]. rewrite lookup_app_r, Nat.sub_diag by reflexivity. reflexivity. }
  cbn [tarballs] in K4. rewrite lookup_insert_eq, Ev in K4. rewrite <- Hcol in K1.
  destruct (download_result name' vers s2 r' _ R1 Hv K1 K4) as [(b & h & D1 & D2)|Hd]; [left|right; exact Hd].
  exists b, h. split; [exact D1|]. exact (bs_sound _ _ _ (co_store s2 R1) (Digest.sha256_of_valid _) D2).
Qed.

(** C25: a request that is refused or fails leaves the index exactly as it was,
    whatever part of the work had been done: the rollbacks undo the push, the
    flag and the owner list. *)
Theorem failed_request_changes_nothing (M : Z) (r : CargoRequest) (s s' : CargoState St) (e : CargoError) :
  cargo_ok s -> ids_below M (crates s) -> (0 <= M)%Z -> (M + added r < U64_MAX)%Z ->
  handle cfg r s = (s', Err e) -> crates s' = crates s /\ cargo_ok s'.
Proof using HL BL.
  intros Hs Hi H0 HM E. pose proof (handle_step cfg M r s Hs Hi H0 HM) as [G _ _ _]. rewrite E in G.
  split; [|exact G]. assert (Hreads : forall h : stm (CargoState St) CargoError CargoResponse, reads h -> h s = (s', Err e) -> crates s' = crates s).
  { intros h Hh Eh. destruct (Hh s Hs) as (_ & Hc & _). rewrite Eh in Hc. exact Hc. }
  destruct r; cbn [handle] in E.
  - discriminate.
  - refine (Hreads _ _ E). unfold handle_sparse_index. apply reads_bind; [apply reads_lift, ok_or_total|intros; apply reads_index].
  - refine (Hreads _ _ E). apply reads_index.
  - refine (Hreads _ _ E). apply reads_index.
  - refine (Hreads _ _ E). apply reads_throw.
  - destruct (_ <? _)%Z; [discriminate|]. destruct (publish_cases cfg _ _ _ _ Hs E) as [(_ & Hc & _)|([=] & _)]. exact Hc.
  - refine (Hreads _ _ E). apply reads_download.
  - apply refused_then in E. destruct (yank_cases cfg _ _ _ _ _ _ Hs E) as [(_ & Hc & _)|([=] & _)]. exact Hc.
  - apply refused_then in E. destruct (yank_cases cfg _ _ _ _ _ _ Hs E) as [(_ & Hc & _)|([=] & _)]. exact Hc.
  - refine (Hreads _ _ E). apply reads_owners.
  - apply refused_then in E. destruct (owners_cases cfg _ _ _ _ _ _ Hs E) as [(_ & Hc & _)|(_ & x & _ & Hx)]; [exact Hc|].
    destruct (changed_owners (owners x) users false) as [os []]; destruct Hx as [[=] _].
  - apply refused_then in E. destruct (owners_cases cfg _ _ _ _ _ _ Hs E) as [(_ & Hc & _)|(_ & x & _ & Hx)]; [exact Hc|].
    destruct (changed_owners (owners x) users true) as [os []]; destruct Hx as [[=] _].
Qed.

(** C24: an acknowledged change is durable: a server with a data directory that
    answers a publish, yank, unyank or owner change, and is restarted with the
    blob store and the disk it left, loads exactly the index it had if the read of
    the snapshot at that start does not fail. If the read fails the server starts
    all the same, with an empty index. Either way the state satisfies the server's
    invariant. *)
Theorem acknowledged_change_survives_restart {JL : JsonTextLaws J} (r : CargoRequest) (s s' : CargoState St) resp (dir : path) (host : string) :
  cargo_ok s -> data_dir cfg = Some dir -> mutates r = true -> handle cfg r s = (s', Ok resp) -> cstatus resp = 200%Z ->
  let rebooted := snd (CargoState_with_persistence (blobs s') host dir (cworld s')) in
  crates rebooted = match Fs.next_fault (w_fs (cworld s')) with None => crates s' | Some _ => ∅ end /\ cargo_ok rebooted.
Proof using HL BL.
  intros Hs Hd Hmut E Hst rebooted.
  assert (Hp : cargo_ok s' /\ persisted cfg s').
  { destruct r; cbn [mutates handle] in *; try discriminate.
    - destruct (_ <? _)%Z; [run_st_in E; injection E as <- <-; discriminate|]. exact (publish_persisted cfg _ _ _ _ Hs E).
    - apply acked_then in E as [a E]. exact (yank_persisted cfg _ _ _ _ _ _ Hs E).
    - apply acked_then in E as [a E]. exact (yank_persisted cfg _ _ _ _ _ _ Hs E).
    - apply acked_then in E as [a E]. exact (owners_persisted cfg _ _ _ _ _ _ Hs E).
    - apply acked_then in E as [a E]. exact (owners_persisted cfg _ _ _ _ _ _ Hs E). }
  destruct Hp as [Hs' Hp]. unfold persisted in Hp. rewrite Hd in Hp. pose proof Hs' as [H1 H2 H3 H4].
  unfold rebooted, CargoState_with_persistence. destruct (Fs.next_fault (w_fs (cworld s'))) as [f|] eqn:Hq.
  - pose proof (load_unread dir _ f Hq) as Hl. destruct (load dir (w_fs (cworld s'))) as [fs o]. cbn [snd] in Hl. subst o.
    split; [reflexivity|]. split; [exact H1|intros ? ? Hx; discriminate Hx..|intros ? ? ? ? Hx; discriminate Hx].
  - pose proof (load_saved dir (crates s') (w_fs (cworld s')) H2 Hp Hq) as Hl.
    destruct (load dir (w_fs (cworld s'))) as [fs o]. cbn [snd] in Hl. subst o. split; [reflexivity|]. split; assumption.
Qed.

(** C28: the sparse index serves what is registered: at the index path of any
    name that collides with a registered crate, the answer carries the ETag of
    the current index text, and is 304 when the client's [If-None-Match] header
    passes the handler's own test against it ([etag_matches]: a star, or the tag
    among those listed, weak or not) and otherwise 200 with a text that parses back
    to exactly the crate's entries, in order. *)
Theorem index_serves_current_entries {JL : JsonTextLaws J} (s : CargoState St) (name : string) (r : CrateRecord) (hs : headers) :
  cargo_ok s -> is_valid_name name = true -> crates s !! canonical_name name = Some r ->
  exists p body h, index_path (E := CargoError) name = Ok p /\ parse_lines body = Some (entries r) /\
    handle_sparse_index p hs s =
      (s, Ok (if etag_matches (default "" (header_get_str hs "if-none-match")) (sparse_index_etag body)
              then mkResp 304 h CEmpty else mkResp 200 h (CText body))) /\
    (header_value_ok (sparse_index_etag body) = true -> ("etag", sparse_index_etag body) ∈ h).
Proof using HL BL.
  intros Hs Hv Hk. destruct (index_path_resolves (E := CargoError) name Hv) as (p & n & Hp & Hn & Hc).
  exists p, (render_lines (entries r)). unfold handle_sparse_index. rewrite Hn. run_st. cbn [ok_or]. unfold serve_index. rewrite Hc.
  run_st. rewrite Hk. cbn [ok_or]. eexists. split; [exact Hp|]. split; [apply parse_render_lines, (ok_entries r (co_records s Hs _ r Hk))|].
  split; [destruct (etag_matches _ _); reflexivity|].
  intros Hh. unfold try_header. rewrite Hh. right. left.
Qed.

End Claims.

(** ** A concrete server *)

#[export] Existing Instance Memory.memory_store.
#[export] Existing Instance Memory.memory_laws.

#[local] Existing Instance any_header.

Definition demo_cfg : CargoConfig := mkCargoConfig (IndexConfig_new "http://localhost/") (Some ["data"]).

Definition demo_world (script : list (option fault)) : World := mkWorld (mkFs {[ ["data"] := Dir ]} script) 0 7.

Definition demo_state (script : list (option fault)) : CargoState InMemoryBlobStore := mkCargo Memory.new ∅ (demo_world script).

Definition demo_manifest : Value := JObject [("name", JString "Foo-bar"); ("vers", JString "1.0.0")].

Definition demo_tarball : bytes := [x68; x69].

Definition demo_body : bytes := encode demo_manifest demo_tarball.

Lemma demo_store_ok : bs_ok (S := InMemoryBlobStore) Memory.new.
Proof. exact (map_Forall_empty _). Qed.

Lemma demo_state_ok script : cargo_ok (demo_state script).
Proof. exact (new_server_ok Memory.new "" (demo_world script) demo_store_ok). Qed.

Lemma demo_ids script : ids_below 0 (crates (demo_state script)).
Proof. exact (map_Forall_empty _). Qed.

(** The disk refuses to open the data directory for its final sync, after the
    rename. *)
Definition sync_fault : list (option fault) := [None; None; None; None; Some (mkFault None 5 "Input/output error")].

(** A publish that is answered with a persistence error can still come
    back: when the sync of the data directory fails after the rename, the index
    in memory is rolled back and the tarball deleted, but the snapshot on disk
    holds the version. After a restart the index lists it, its download is a
    404, and publishing it again is refused as a duplicate. *)
Theorem failed_publish_resurfaces_without_tarball :
  let '(s, answer) := handle_publish demo_cfg demo_body (demo_state sync_fault) in
  let rebooted := snd (CargoState_with_persistence (blobs s) "http://localhost/" ["data"] (cworld s)) in
  answer = Err (Persistence (mkIoError (KOther 5) "Input/output error")) /\ crates s = ∅ /\
  (map ie_vers ∘ entries) <$> crates rebooted !! "foo_bar" = Some ["1.0.0"] /\
  snd (handle_download "foo-bar" "1.0.0" rebooted) = Err (Storage (NotFound (Digest.to_string (Digest.sha256_of demo_tarball)))) /\
  snd (handle_publish demo_cfg demo_body rebooted) = Err (DuplicateVersion "Foo-bar" "1.0.0").
Proof.
  rewrite (surjective_pairing (handle_publish demo_cfg demo_body (demo_state sync_fault))).
  split_and!; vm_compute; reflexivity.
Qed.

(** ** Witnesses *)

Definition demo_published : CargoState InMemoryBlobStore := fst (handle_publish demo_cfg demo_body (demo_state [])).

Definition demo_requests : list CargoRequest :=
  [DeleteYank "foo_bar" "1.0.0"; PutOwners "Foo-Bar" ["ann"; "bob"]; PutNew demo_body; GetDownload "foo_bar" "1.0.0"].

Lemma cargo_server_invariant_witness :
  cargo_ok (run_requests demo_cfg demo_requests (demo_state sync_fault)) /\
  exists s' resp, router demo_cfg (PutNew demo_body) (run_requests demo_cfg demo_requests (demo_state sync_fault)) = (s', Ok resp) /\ cargo_ok s'.
Proof. apply (cargo_server_invariant demo_cfg 0); [apply demo_state_ok|apply demo_ids|lia|reflexivity]. Defined.

Lemma demo_publish_step : good_step 0 (demo_state []) demo_published (snd (handle_publish demo_cfg demo_body (demo_state []))).
Proof. apply publish_step; [apply demo_state_ok|lia|apply demo_ids]. Qed.

Definition demo_entry : IndexEntry := into_index_entry (mkPublishManifest "Foo-bar" "1.0.0" "" [] ∅ None None) (hex_encode (sha256 demo_tarball)).

Definition demo_record : CrateRecord := mkRecord [demo_entry] {[ "1.0.0" := Digest.sha256_of demo_tarball ]} [].

Lemma demo_publish_answer : handle_publish demo_cfg demo_body (demo_state []) = (demo_published, Ok (mkResp 200 [] (CJson publish_ok_body))).
Proof. rewrite (surjective_pairing (handle_publish _ _ _)). f_equal. Qed.

Lemma demo_parsed : parse demo_body = Ok (mkRequest demo_manifest demo_tarball).
Proof. vm_compute. reflexivity. Qed.

Lemma published_versions_immutable_witness :
  exists r' e', crates (run_requests demo_cfg demo_requests demo_published) !! "foo_bar" = Some r' /\ entries r' !! 0%nat = Some e' /\
    clear_yank e' = clear_yank demo_entry /\ tarballs r' !! "1.0.0" = Some (Digest.sha256_of demo_tarball).
Proof.
  destruct demo_publish_step as [H1 _ _ H4].
  apply (published_versions_immutable demo_cfg 0 demo_requests demo_published "foo_bar" demo_record 0 demo_entry H1 H4);
    [lia|reflexivity|vm_compute; reflexivity|reflexivity].
Defined.

Lemma published_crate_downloadable_witness :
  exists b h, snd (handle_download "foo_bar" "1.0.0" (run_requests demo_cfg demo_requests demo_published)) = Ok (mkResp 200 h (CBytes b)) /\
     Digest.sha256_of b = Digest.sha256_of demo_tarball.
Proof.
  destruct (published_crate_downloadable demo_cfg 0 demo_body (demo_state []) demo_published _ _ "Foo-bar" "1.0.0" demo_entry
    demo_requests "foo_bar" (demo_state_ok []) (demo_ids []) ltac:(lia) eq_refl demo_publish_answer demo_parsed eq_refl eq_refl eq_refl)
    as [Hd|(x & _ & Hq & _)]; [exact Hd|]. destruct (Hq I).
Defined.

Lemma failed_request_changes_nothing_witness :
  crates (fst (handle demo_cfg (PutNew demo_body) demo_published)) = crates demo_published.
Proof.
  destruct demo_publish_step as [H1 _ _ H4].
  apply (failed_request_changes_nothing demo_cfg 0 (PutNew demo_body) demo_published _ (DuplicateVersion "Foo-bar" "1.0.0") H1 H4);
    [lia|reflexivity|]. rewrite (surjective_pairing (handle _ _ _)) at 1. f_equal.
Defined.

(** The save makes six system calls; in the second run the seventh, the read of the
    restarted server, fails. *)
Definition read_fault : list (option fault) := [None; None; None; None; None; None; Some (mkFault None 5 "Input/output error")].

Lemma acknowledged_change_survives_restart_witness :
  crates (snd (CargoState_with_persistence (blobs demo_published) "http://localhost/" ["data"] (cworld demo_published)))
    = crates demo_published /\
  (let s' := fst (handle_publish demo_cfg demo_body (demo_state read_fault)) in
   crates s' = crates demo_published /\
   crates (snd (CargoState_with_persistence (blobs s') "http://localhost/" ["data"] (cworld s'))) = ∅).
Proof.
  split; [|split; [vm_compute; reflexivity|]].
  - apply (acknowledged_change_survives_restart demo_cfg (PutNew demo_body) (demo_state []) demo_published
      (mkResp 200 [] (CJson publish_ok_body)) ["data"] "http://localhost/" (demo_state_ok [])); reflexivity.
  - destruct (acknowledged_change_survives_restart demo_cfg (PutNew demo_body) (demo_state read_fault)
      (fst (handle_publish demo_cfg demo_body (demo_state read_fault))) (mkResp 200 [] (CJson publish_ok_body)) ["data"] "http://localhost/"
      (demo_state_ok read_fault)) as [-> _]; vm_compute; reflexivity.
Defined.

Lemma index_serves_current_entries_witness :
  exists p body h, index_path (E := CargoError) "foo_BAR" = Ok p /\ parse_lines body = Some [demo_entry] /\
    handle_sparse_index p [] demo_published = (demo_published, Ok (mkResp 200 h (CText body))) /\
    ("etag", sparse_index_etag body) ∈ h.
Proof.
  destruct demo_publish_step as [H1 _ _ _].
  destruct (index_serves_current_entries demo_published "foo_BAR" demo_record [] H1 eq_refl ltac:(vm_compute; reflexivity))
    as (p & body & h & E1 & E2 & E3 & E4). exists p, body, h. split_and!; [exact E1|exact E2|exact E3|exact (E4 eq_refl)].
Defined.
