(* ===== verification/MavenCoordinate.v ===== *)
(** * Maven errors, coordinates, checksums and snapshots

    Models of [crates/ferro-maven-layout/src/error.rs], [coordinate.rs],
    [checksum.rs] and [snapshot.rs]. Error values carry the text the code
    renders. SHA-1 and chrono's formatting of an instant are parameters; an
    instant is a number. *)

From S2P Require Import Prelude Str Frame Net Json Digest BlobStore.

Local Open Scope string_scope.

(** ** Errors *)

Inductive MavenError :=
| InvalidPath (msg : string)
| CoordinateMismatch (msg : string)
| InvalidPom (msg : string)
| InvalidMetadata (msg : string)
| MvNotFound (what : string)
| MvChecksumMismatch (msg : string)
| MvStorage (e : BlobStoreError).

Definition mv_storage_status (e : BlobStoreError) : Z :=
  match e with NotFound _ => 404 | DigestMismatch _ _ | InvalidDigest _ => 400 | BsIo _ => 500 end.

Definition maven_status (e : MavenError) : Z :=
  match e with
  | InvalidPath _ | InvalidPom _ | InvalidMetadata _ | CoordinateMismatch _ | MvChecksumMismatch _ => 400
  | MvNotFound _ => 404
  | MvStorage e => mv_storage_status e
  end.

(** ** Coordinates *)

Inductive CoordinateParseError :=
| EmptyField (field : string)
| IllegalCharacter (field ch : string)
| PathTraversal (field value : string).

(** [Display]. *)
Definition coordinate_error_text (e : CoordinateParseError) : string :=
  match e with
  | EmptyField f => "coordinate field `" ++ f ++ "` must not be empty"
  | IllegalCharacter f ch => "coordinate field `" ++ f ++ "` contains illegal character `" ++ ch ++ "`"
  | PathTraversal f v => "coordinate field `" ++ f ++ "` is a path-traversal segment `" ++ v ++ "`"
  end.

Record Coordinate := mkCoordinate {
  group_id : string;
  artifact_id : string;
  version : string;
  classifier : option string;
  extension : string;
}.

#[export] Instance Coordinate_eq_dec : EqDecision Coordinate.
Proof. solve_decision. Defined.

Definition illegal_char (ch : string) : bool :=
  bool_decide (ch = "/") || bool_decide (ch = "\") || bool_decide (ch = ":") || is_control ch.

Definition validate_field (name value : string) : outcome CoordinateParseError unit :=
  if bool_decide (value = "") then Err (EmptyField name) else
  if bool_decide (value = ".") || bool_decide (value = "..")
  then Err (PathTraversal name (if bool_decide (value = ".") then "." else "..")) else
  match find illegal_char (chars value) with
  | Some ch => Err (IllegalCharacter name ch)
  | None => Ok tt
  end.

Module Coordinate.

Definition new (g a v : string) (c : option string) (e : string) : outcome CoordinateParseError Coordinate :=
  _ ← validate_field "groupId" g;
  _ ← validate_field "artifactId" a;
  _ ← validate_field "version" v;
  _ ← validate_field "extension" e;
  _ ← match c with Some c => validate_field "classifier" c | None => Ok tt end;
  Ok (mkCoordinate g a v c e).

Definition new_jar (g a v : string) : outcome CoordinateParseError Coordinate := new g a v None "jar".

Definition group_path (c : Coordinate) : string := str_map (fun ch => if Ascii.eqb ch "." then "/"%char else ch) (group_id c).

Definition filename (c : Coordinate) : string :=
  match classifier c with
  | None => artifact_id c ++ "-" ++ version c ++ "." ++ extension c
  | Some k => artifact_id c ++ "-" ++ version c ++ "-" ++ k ++ "." ++ extension c
  end.

Definition repository_path (c : Coordinate) : string :=
  group_path c ++ "/" ++ artifact_id c ++ "/" ++ version c ++ "/" ++ filename c.

Definition to_string (c : Coordinate) : string :=
  match classifier c with
  | Some k => group_id c ++ ":" ++ artifact_id c ++ ":" ++ extension c ++ ":" ++ k ++ ":" ++ version c
  | None => group_id c ++ ":" ++ artifact_id c ++ ":" ++ extension c ++ ":" ++ version c
  end.

End Coordinate.

(** ** Checksums *)

Inductive ChecksumAlgo := CMd5 | CSha1 | CSha256 | CSha512.

#[export] Instance ChecksumAlgo_eq_dec : EqDecision ChecksumAlgo.
Proof. solve_decision. Defined.

(** [sha1::Sha1]. *)
Class Sha1Lib := { sha1 : bytes -> bytes }.
Class Sha1Laws (S : Sha1Lib) := { sha1_len : forall b, length (sha1 b) = 20%nat }.

Module ChecksumAlgo.

Definition from_extension (ext : string) : option ChecksumAlgo :=
  if bool_decide (ext = "md5") then Some CMd5 else
  if bool_decide (ext = "sha1") then Some CSha1 else
  if bool_decide (ext = "sha256") then Some CSha256 else
  if bool_decide (ext = "sha512") then Some CSha512 else None.

Definition extension (a : ChecksumAlgo) : string :=
  match a with CMd5 => "md5" | CSha1 => "sha1" | CSha256 => "sha256" | CSha512 => "sha512" end.

Definition hex_len (a : ChecksumAlgo) : nat :=
  match a with CMd5 => 32 | CSha1 => 40 | CSha256 => 64 | CSha512 => 128 end.

(** [Debug]. *)
Definition debug (a : ChecksumAlgo) : string :=
  match a with CMd5 => "Md5" | CSha1 => "Sha1" | CSha256 => "Sha256" | CSha512 => "Sha512" end.

End ChecksumAlgo.

Definition compute_checksum `{H : Hashing} `{S1 : Sha1Lib} (a : ChecksumAlgo) (b : bytes) : option string :=
  match a with
  | CSha1 => Some (hex_encode (sha1 b))
  | CSha256 => Some (hex_encode (sha256 b))
  | CSha512 => Some (hex_encode (sha512 b))
  | CMd5 => None
  end.

(** [std::str::from_utf8]. *)
Definition from_utf8 (b : bytes) : option string :=
  let s := string_of_bytes b in if utf8_valid s then Some s else None.

(** The first whitespace-delimited token of the first line; trimming the line
    or the token before does not change it. *)
Definition parse_sidecar (a : ChecksumAlgo) (body : bytes) : outcome MavenError string :=
  text ← ok_or (from_utf8 body) (MvChecksumMismatch "sidecar is not valid UTF-8");
  let first_line := default "" (head (lines text)) in
  let token := default "" (first_token (chars first_line)) in
  let h := to_ascii_lowercase token in
  if negb (String.length h =? ChecksumAlgo.hex_len a)%nat
  then Err (MvChecksumMismatch ("expected " ++ display_u64 (Z.of_nat (ChecksumAlgo.hex_len a)) ++ " hex characters for " ++
                                ChecksumAlgo.debug a ++ ", got " ++ display_u64 (str_len h))) else
  if negb (str_all is_ascii_hexdigit h) then Err (MvChecksumMismatch "sidecar contains non-hex characters") else
  Ok h.

(** ** Snapshots *)

Definition is_snapshot_version (v : string) : bool := ends_with "-SNAPSHOT" v.

Definition base_version (v : string) : string := default v (strip_suffix "-SNAPSHOT" v).

(** [chrono]: an instant formatted by [%Y%m%d.%H%M%S] and by [%Y%m%d%H%M%S]. *)
Class Chrono := { format_dotted : Z -> string; format_plain : Z -> string }.

(** Years 0 to 9999 give digits, with the dot between date and time. *)
Class ChronoLaws (C : Chrono) := {
  dotted_first : forall t, exists c r, format_dotted t = String c r /\ is_ascii_digit c = true;
  dotted_chars : forall t, str_all (fun c => is_ascii_digit c || Ascii.eqb c ".") (format_dotted t) = true;
}.

Definition compose_version `{C : Chrono} (now : Z) (base_snapshot : string) (build_number : Z) : string :=
  base_version base_snapshot ++ "-" ++ format_dotted now ++ "-" ++ display_u64 build_number.
