(* ===== verification/MavenLayout.v ===== *)
(** * Maven layout paths

    Model of [crates/ferro-maven-layout/src/layout.rs]: classifying a request
    path as an artifact, a checksum sidecar or a metadata document, with the
    coordinate it names. An index out of range is [Panic]. *)

From S2P Require Import Prelude Str Frame Net Json Digest BlobStore MavenCoordinate.

Local Open Scope string_scope.

Inductive PathClass :=
| Artifact
| Checksum (a : ChecksumAlgo)
| Metadata (version_level : bool) (checksum : option ChecksumAlgo).

Record LayoutPath := mkLayout { coordinate : Coordinate; class : PathClass }.

Inductive MetadataKind := Raw | Sidecar (a : ChecksumAlgo).

Definition maven_metadata_suffix (name : string) : option MetadataKind :=
  if bool_decide (name = "maven-metadata.xml") then Some Raw else
  rest ← strip_prefix "maven-metadata.xml." name;
  Sidecar <$> ChecksumAlgo.from_extension rest.

Definition strip_checksum_suffix (name : string) : string * option ChecksumAlgo :=
  match rsplit_once "." name with
  | Some (stem, ext) =>
    match ChecksumAlgo.from_extension ext with
    | Some a => (stem, Some a)
    | None => (name, None)
    end
  | None => (name, None)
  end.

Definition COMPOUND : list string := ["tar.gz"; "tar.bz2"; "tar.xz"; "tar.zst"].

(** The loop over the compound extensions. *)
Fixpoint strip_compound (tail : string) (l : list string) : option (string * string) :=
  match l with
  | [] => None
  | compound :: l =>
    match strip_suffix ("." ++ compound) tail with
    | Some c => if bool_decide (c = "") then strip_compound tail l else Some (c, compound)
    | None => strip_compound tail l
    end
  end.

(** The last dot splits the rest; [&tail[..dot]] is on a boundary. *)
Definition split_classifier_and_extension (tail : string) : option (string * string) :=
  match strip_compound tail COMPOUND with
  | Some r => Some r
  | None =>
    '(c, e) ← rsplit_once "." tail;
    if bool_decide (c = "") || bool_decide (e = "") then None else Some (c, e)
  end.

Definition split_filename (artifact_id version filename : string) : outcome MavenError (option string * string) :=
  let prefix := artifact_id ++ "-" ++ version in
  rest ← ok_or (strip_prefix prefix filename)
               (InvalidPath ("filename `" ++ filename ++ "` does not start with `" ++ prefix ++ "`"));
  match strip_prefix "-" rest with
  | Some tail =>
    '(c, e) ← ok_or (split_classifier_and_extension tail)
                    (InvalidPath ("filename tail `" ++ tail ++ "` must be `classifier.extension`"));
    Ok (Some c, e)
  | None =>
    match strip_prefix "." rest with
    | Some tail => Ok (None, tail)
    | None => Err (InvalidPath ("filename `" ++ filename ++ "` has no extension separator"))
    end
  end.

Definition coordinate_or {A} (m : outcome CoordinateParseError A) : outcome MavenError A :=
  map_err (fun e => InvalidPath (coordinate_error_text e)) m.

Definition classify_metadata (segments : list string) (checksum : option ChecksumAlgo) : outcome MavenError LayoutPath :=
  if (length segments <? 3)%nat
  then Err (InvalidPath "metadata path must have at least 2 path components before the filename") else
  let before_file := take (length segments - 1) segments in
  let last := default "" (last before_file) in
  let version_level := negb (str_all (fun c => negb (is_ascii_digit c)) last) in
  if version_level && (3 <=? length before_file)%nat then
    a ← expect (before_file !! (length before_file - 2)%nat);
    c ← coordinate_or (Coordinate.new (join "." (take (length before_file - 2) before_file)) a last None "pom");
    Ok (mkLayout c (Metadata true checksum))
  else
    c ← coordinate_or (Coordinate.new (join "." (take (length before_file - 1) before_file)) last "index" None "pom");
    Ok (mkLayout c (Metadata false checksum)).

Definition nonempty (s : string) : bool := negb (bool_decide (s = "")).

Definition segments_of (path : string) : list string := List.filter nonempty (split "/" (trim_start_matches "/" path)).

Definition parse_layout_path (path : string) : outcome MavenError LayoutPath :=
  let segments := segments_of path in
  if (length segments <? 3)%nat then Err (InvalidPath ("path `" ++ path ++ "` has fewer than 3 segments")) else
  filename ← ok_or (last segments) (InvalidPath "path has no filename");
  match maven_metadata_suffix filename with
  | Some kind => classify_metadata segments (match kind with Raw => None | Sidecar a => Some a end)
  | None =>
    if (length segments <? 4)%nat then Err (InvalidPath ("artifact path `" ++ path ++ "` has fewer than 4 segments")) else
    version ← expect (segments !! (length segments - 2)%nat);
    artifact_id ← expect (segments !! (length segments - 3)%nat);
    let group_id := join "." (take (length segments - 3) segments) in
    let '(stripped, checksum) := strip_checksum_suffix filename in
    '(classifier, extension) ← split_filename artifact_id version stripped;
    c ← coordinate_or (Coordinate.new group_id artifact_id version classifier extension);
    Ok (mkLayout c (match checksum with Some a => Checksum a | None => Artifact end))
  end.

Definition layout_is_snapshot (p : LayoutPath) : bool := is_snapshot_version (version (coordinate p)).

(** ** Fields *)

(** What a field that passed the checks is. *)
Definition field_ok (s : string) : Prop :=
  s <> "" /\ s <> "." /\ s <> ".." /\ Forall (fun ch => illegal_char ch = false) (chars s).

Record coordinate_ok (c : Coordinate) : Prop := {
  ok_group : field_ok (group_id c);
  ok_artifact : field_ok (artifact_id c);
  ok_version : field_ok (version c);
  ok_extension : field_ok (extension c);
  ok_classifier : match classifier c with Some k => field_ok k | None => True end;
}.

Lemma find_none_Forall {A} (p : A -> bool) l : find p l = None <-> Forall (fun x => p x = false) l.
Proof.
  split.
  - intros Hf. apply Forall_forall. intros x Hx. apply (List.find_none _ _ Hf), list_elem_of_In, Hx.
  - intros Hf. destruct (find p l) as [x|] eqn:E; [|reflexivity]. apply find_some in E as [Hin Hx].
    rewrite Forall_forall in Hf. apply list_elem_of_In, Hf in Hin. congruence.
Qed.

Lemma validate_field_ok name v : validate_field name v = Ok tt <-> field_ok v.
Proof.
  unfold validate_field, field_ok. case_bool_decide as H0; [split; [discriminate|tauto]|].
  case_bool_decide as H1; [split; [discriminate|tauto]|]. case_bool_decide as H2; [split; [discriminate|tauto]|]. cbn [orb].
  rewrite <- find_none_Forall. destruct (find illegal_char (chars v)); split; try discriminate; try reflexivity; try tauto.
  intros (_ & _ & _ & [=]).
Qed.

Lemma validate_field_total name v : validate_field name v <> Panic.
Proof. unfold validate_field. repeat case_match; discriminate. Qed.

Lemma new_iff g a v c e x : Coordinate.new g a v c e = Ok x <-> x = mkCoordinate g a v c e /\ coordinate_ok x.
Proof.
  unfold Coordinate.new.
  assert (Hb : forall n s (k : outcome CoordinateParseError Coordinate),
    (_ ← validate_field n s; k) = Ok x <-> field_ok s /\ k = Ok x).
  { intros n s k. rewrite <- (validate_field_ok n s). destruct (validate_field n s) as [[]|err|]; cbn; split; try tauto; try (intros [? ?]); congruence. }
  rewrite !Hb. assert (Hc : (_ ← match c with Some c0 => validate_field "classifier" c0 | None => Ok () end; Ok (mkCoordinate g a v c e)) = Ok x <->
    match c with Some k => field_ok k | None => True end /\ x = mkCoordinate g a v c e).
  { destruct c as [k|]; [rewrite Hb|cbn]; split; intros; intuition congruence. }
  rewrite Hc. split; [intros (? & ? & ? & ? & ? & ->); split; [reflexivity|split; assumption]|].
  intros (-> & [? ? ? ? ?]). cbn in *. tauto.
Qed.
