(* ===== verification/MavenPaths.v ===== *)
(** * Maven layout paths: what the parser accepts

    The accepted paths are confined, printing a coordinate and parsing it gives
    it back, where the printed form and the parser disagree, and what the parser
    makes of the path of an artifact's metadata document. *)

From S2P Require Import Prelude Str Frame Net Json Digest BlobStore MavenCoordinate MavenLayout.

Local Open Scope string_scope.

(** ** Splitting a file name *)

Lemma extension_inv x a : ChecksumAlgo.from_extension x = Some a <-> x = ChecksumAlgo.extension a.
Proof.
  unfold ChecksumAlgo.from_extension. split.
  - repeat case_bool_decide; try discriminate; intros [= <-]; assumption.
  - intros ->. destruct a; reflexivity.
Qed.

Lemma strip_checksum_inv f s o : strip_checksum_suffix f = (s, o) ->
  f = match o with Some a => s ++ "." ++ ChecksumAlgo.extension a | None => s end.
Proof.
  unfold strip_checksum_suffix. destruct (rsplit_once "." f) as [[stem ext]|] eqn:E; [|intros [= <- <-]; reflexivity].
  destruct (ChecksumAlgo.from_extension ext) as [a|] eqn:Ea; intros [= <- <-]; [|reflexivity].
  apply extension_inv in Ea as ->. apply rsplit_once_spec in E as [-> _]. reflexivity.
Qed.

Lemma strip_checksum_app s a : strip_checksum_suffix (s ++ "." ++ ChecksumAlgo.extension a) = (s, Some a).
Proof.
  unfold strip_checksum_suffix. change ("." ++ ?x) with (String "." x).
  rewrite (rsplit_once_last "." s (ChecksumAlgo.extension a)) by (destruct a; reflexivity).
  rewrite (proj2 (extension_inv _ a) eq_refl). reflexivity.
Qed.

Lemma strip_compound_inv tail l c e : strip_compound tail l = Some (c, e) -> tail = c ++ "." ++ e /\ e ∈ l.
Proof.
  induction l as [|x l IH]; cbn [strip_compound]; [discriminate|]. destruct (strip_suffix ("." ++ x) tail) as [k|] eqn:E.
  - case_bool_decide; [intros Hs; destruct (IH Hs) as [-> Hin]; split; [reflexivity|right; exact Hin]|].
    intros [= <- <-]. apply strip_suffix_iff in E as ->. split; [reflexivity|left].
  - intros Hs. destruct (IH Hs) as [-> Hin]. split; [reflexivity|right; exact Hin].
Qed.

Lemma split_tail_inv tail c e : split_classifier_and_extension tail = Some (c, e) -> tail = c ++ "." ++ e.
Proof.
  unfold split_classifier_and_extension. destruct (strip_compound tail COMPOUND) as [[x y]|] eqn:E.
  - intros [= <- <-]. apply (strip_compound_inv _ _ _ _ E).
  - destruct (rsplit_once "." tail) as [[x y]|] eqn:Er; [|discriminate]. cbn. destruct (_ || _); [discriminate|].
    intros [= <- <-]. apply rsplit_once_spec in Er as [-> _]. reflexivity.
Qed.

(** The file name is the one the coordinate prints. *)
Lemma split_filename_inv g a v f c e :
  split_filename a v f = Ok (c, e) -> f = Coordinate.filename (mkCoordinate g a v c e).
Proof.
  unfold split_filename. destruct (strip_prefix (a ++ "-" ++ v) f) as [rest|] eqn:E; [|discriminate]. cbn [ok_or mbind outcome_bind].
  apply strip_prefix_app in E as ->. destruct (strip_prefix "-" rest) as [tail|] eqn:E1.
  - apply strip_prefix_app in E1 as ->. destruct (split_classifier_and_extension tail) as [[k x]|] eqn:Et; [|discriminate].
    cbn. intros [= <- <-]. apply split_tail_inv in Et as ->. unfold Coordinate.filename. cbn. rewrite !str_app_assoc. reflexivity.
  - destruct (strip_prefix "." rest) as [tail|] eqn:E2; [|discriminate]. apply strip_prefix_app in E2 as ->.
    intros [= <- <-]. unfold Coordinate.filename. cbn. rewrite !str_app_assoc. reflexivity.
Qed.

(** When the classifier and the extension can be told apart. *)
Definition tail_splits (c : Coordinate) : bool :=
  match classifier c with
  | None => true
  | Some k =>
    bool_decide (extension c ∈ COMPOUND) ||
    str_all (not_char ".") (extension c) && forallb (fun x => negb (ends_with ("." ++ x) (k ++ "." ++ extension c))) COMPOUND
  end.

Lemma strip_suffix_none p s : ends_with p s = false -> strip_suffix p s = None.
Proof. unfold strip_suffix. intros ->. reflexivity. Qed.

Lemma compound_distinct k x y : x ∈ COMPOUND -> y ∈ COMPOUND -> x <> y -> strip_suffix (String "." x) (k ++ "." ++ y) = None.
Proof.
  intros Hx Hy Hne. destruct (strip_suffix (String "." x) (k ++ "." ++ y)) as [r|] eqn:E; [|reflexivity]. exfalso.
  apply strip_suffix_iff in E. apply (f_equal (rsplit_once ".")) in E.
  assert (Hparts : forall z, z ∈ COMPOUND -> exists q, z = "tar." ++ q /\ str_all (not_char ".") q = true).
  { intros z Hz. repeat (apply elem_of_cons in Hz as [->|Hz]; [eexists; split; reflexivity|]). apply not_elem_of_nil in Hz as []. }
  destruct (Hparts x Hx) as (p & -> & Hp). destruct (Hparts y Hy) as (q & -> & Hq).
  change (k ++ "." ++ "tar." ++ q) with (k ++ ".tar" ++ String "." q) in E.
  change (r ++ String "." ("tar." ++ p)) with (r ++ ".tar" ++ String "." p) in E.
  rewrite <- !str_app_assoc, !rsplit_once_last in E by assumption. congruence.
Qed.

Lemma strip_compound_hit k e l : k <> "" -> e ∈ COMPOUND -> l ⊆ COMPOUND -> e ∈ l -> strip_compound (k ++ "." ++ e) l = Some (k, e).
Proof.
  intros Hk He. induction l as [|x l IH]; intros Hsub Hin; [apply not_elem_of_nil in Hin as []|]. cbn [strip_compound].
  change ("." ++ x) with (String "." x). destruct (decide (x = e)) as [->|Hne].
  - rewrite (proj2 (strip_suffix_iff (String "." e) (k ++ "." ++ e) k) eq_refl), bool_decide_false by exact Hk. reflexivity.
  - rewrite compound_distinct; [|apply Hsub; left|exact He|exact Hne].
    apply elem_of_cons in Hin as [->|Hin]; [congruence|]. apply IH; [|exact Hin]. intros z Hz. apply Hsub. right. exact Hz.
Qed.

Lemma strip_compound_miss tail l : forallb (fun x => negb (ends_with ("." ++ x) tail)) l = true -> strip_compound tail l = None.
Proof.
  induction l as [|x l IH]; cbn; [reflexivity|]. intros [Hx%negb_true_iff Hl]%andb_true_iff.
  rewrite strip_suffix_none by exact Hx. apply IH, Hl.
Qed.

Lemma split_filename_filename c : coordinate_ok c -> tail_splits c = true ->
  split_filename (artifact_id c) (version c) (Coordinate.filename c) = Ok (classifier c, extension c).
Proof.
  intros Hc Ht. unfold split_filename, Coordinate.filename, tail_splits in *. destruct c as [g a v k e].
  cbn [artifact_id version classifier extension] in *. destruct k as [k|].
  - rewrite (proj2 (strip_prefix_app (a ++ "-" ++ v) _ ("-" ++ k ++ "." ++ e))) by (rewrite !str_app_assoc; reflexivity).
    cbn [ok_or mbind outcome_bind]. rewrite (proj2 (strip_prefix_app "-" ("-" ++ k ++ "." ++ e) _) eq_refl).
    destruct (ok_classifier _ Hc) as [Hk _].
    assert (Hs : split_classifier_and_extension (k ++ "." ++ e) = Some (k, e)); [|rewrite Hs; reflexivity].
    unfold split_classifier_and_extension. apply orb_true_iff in Ht as [He%bool_decide_eq_true|[Hd Hl]%andb_true_iff].
    + rewrite strip_compound_hit by auto. reflexivity.
    + rewrite strip_compound_miss by exact Hl. change (k ++ "." ++ e) with (k ++ String "." e). rewrite rsplit_once_last by exact Hd.
      cbn. rewrite !bool_decide_false; [reflexivity|apply (ok_extension _ Hc)|exact Hk].
  - rewrite (proj2 (strip_prefix_app (a ++ "-" ++ v) _ ("." ++ e))) by (rewrite !str_app_assoc; reflexivity). reflexivity.
Qed.

(** ** Segments *)

Lemma trim_segments s : List.filter nonempty (split "/" (trim_start_matches "/" s)) = List.filter nonempty (split "/" s).
Proof.
  unfold trim_start_matches. induction s as [|c s IH]; [reflexivity|]. cbn [trim_start_by].
  destruct (Ascii.eqb c "/") eqn:E; [|reflexivity]. rewrite IH. cbn [split]. rewrite E. reflexivity.
Qed.

Lemma split_group g : str_all (not_char "/") g = true ->
  split "/" (str_map (fun ch => if Ascii.eqb ch "." then "/"%char else ch) g) = split "." g.
Proof.
  induction g as [|c g IH]; [reflexivity|]. cbn [str_all str_map split]. intros [Hc Hg]%andb_true_iff. rewrite (IH Hg).
  destruct (Ascii.eqb c "."); [reflexivity|]. apply not_char_true in Hc. destruct (Ascii.eqb_spec c "/"); [contradiction|reflexivity].
Qed.

Lemma segments_repository g a v f :
  nonempty a = true -> nonempty v = true -> nonempty f = true ->
  str_all (not_char "/") a = true -> str_all (not_char "/") v = true -> str_all (not_char "/") f = true ->
  segments_of (g ++ "/" ++ a ++ "/" ++ v ++ "/" ++ f) = (List.filter nonempty (split "/" g) ++ [a; v; f])%list.
Proof.
  intros Ha Hv Hf Sa Sv Sf. unfold segments_of. rewrite trim_segments.
  change (g ++ "/" ++ a ++ "/" ++ v ++ "/" ++ f) with (g ++ String "/" (a ++ String "/" (v ++ String "/" f))).
  rewrite !split_app_sep, (split_single "/" a), (split_single "/" v), (split_single "/" f) by assumption. rewrite !List.filter_app. cbn [List.filter]. rewrite Ha, Hv, Hf. reflexivity.
Qed.

Lemma segments_pieces p : Forall (fun s => s <> "" /\ str_all (not_char "/") s = true) (segments_of p).
Proof.
  unfold segments_of. apply Forall_forall. intros s Hs. apply list_elem_of_In, filter_In in Hs as [Hin Hne].
  split; [intros ->; discriminate Hne|]. pose proof (split_pieces "/" (trim_start_matches "/" p)) as Hp. rewrite Forall_forall in Hp.
  apply Hp, list_elem_of_In, Hin.
Qed.

Lemma last_three (l : list string) : (3 <= length l)%nat -> exists gs a v f, l = (gs ++ [a; v; f])%list.
Proof.
  intros Hl. destruct l as [|f l _] using rev_ind; [cbn in Hl; lia|]. destruct l as [|v l _] using rev_ind; [cbn in Hl; lia|].
  destruct l as [|a l _] using rev_ind; [cbn in Hl; lia|]. exists l, a, v, f. rewrite <- !app_assoc. reflexivity.
Qed.

Lemma lookup_from_end (gs l : list string) n : (n <= length l)%nat -> (gs ++ l)%list !! (length (gs ++ l) - n)%nat = l !! (length l - n)%nat.
Proof. intros Hn. rewrite length_app, lookup_app_r by lia. f_equal. lia. Qed.

(** What the parser does with an artifact path, by its segments. *)
Lemma parse_segments p gs a v f : segments_of p = (gs ++ [a; v; f])%list -> gs <> [] -> maven_metadata_suffix f = None ->
  parse_layout_path p =
    (let '(s, ck) := strip_checksum_suffix f in
     '(k, e) ← split_filename a v s;
     c ← coordinate_or (Coordinate.new (join "." gs) a v k e);
     Ok (mkLayout c (match ck with Some x => Checksum x | None => Artifact end))).
Proof.
  intros Hs Hg Hm. unfold parse_layout_path. rewrite Hs.
  assert (Hlen : length (gs ++ [a; v; f]) = (length gs + 3)%nat) by (rewrite length_app; reflexivity).
  assert (Hg1 : (1 <= length gs)%nat) by (destruct gs; [congruence|cbn; lia]).
  rewrite Hlen. destruct (Nat.ltb_spec (length gs + 3) 3) as [|_]; [lia|]. rewrite last_app_cons. cbn [last ok_or mbind outcome_bind].
  rewrite Hm. destruct (Nat.ltb_spec (length gs + 3) 4) as [|_]; [lia|]. rewrite <- Hlen, !lookup_from_end by (cbn; lia). cbn [length lookup list_lookup Nat.sub expect mbind outcome_bind].
  rewrite Hlen, take_app_length' by lia. reflexivity.
Qed.

(** The segments of an accepted artifact or sidecar path. *)
Lemma parse_artifact_inv p c cl : parse_layout_path p = Ok (mkLayout c cl) -> (forall b o, cl <> Metadata b o) ->
  exists gs f, segments_of p = (gs ++ [artifact_id c; version c; f])%list /\ gs <> [] /\ group_id c = join "." gs /\
    maven_metadata_suffix f = None /\ coordinate_ok c /\
    f = match cl with Checksum a => Coordinate.filename c ++ "." ++ ChecksumAlgo.extension a | _ => Coordinate.filename c end.
Proof.
  intros Hp Hcl. assert (Hl : (3 <= length (segments_of p))%nat).
  { revert Hp. unfold parse_layout_path. destruct (Nat.ltb_spec (length (segments_of p)) 3); [discriminate|]. lia. }
  destruct (last_three _ Hl) as (gs & a & v & f & Hs).
  destruct (maven_metadata_suffix f) as [kind|] eqn:Hm.
  { exfalso. revert Hp. unfold parse_layout_path. rewrite Hs, last_app_cons. destruct (_ <? _)%nat; [discriminate|].
    cbn [last ok_or mbind outcome_bind]. rewrite Hm. unfold classify_metadata. destruct (_ <? _)%nat; [discriminate|]. cbv zeta.
    destruct (_ && _); [destruct (expect _) as [x|x|]; try discriminate; cbn [mbind outcome_bind]|];
      destruct (coordinate_or _) as [y|y|]; try discriminate; cbn; intros [= <- Hx]; exact (Hcl _ _ (eq_sym Hx)). }
  destruct gs as [|g gs].
  { exfalso. revert Hp. unfold parse_layout_path. rewrite Hs. cbn [app length Nat.ltb Nat.leb last ok_or mbind outcome_bind]. rewrite Hm. discriminate. }
  rewrite (parse_segments p (g :: gs) a v f Hs ltac:(discriminate) Hm) in Hp.
  destruct (strip_checksum_suffix f) as [s ck] eqn:Ef. destruct (split_filename a v s) as [[k e]|x|] eqn:Es; try discriminate. cbn [mbind outcome_bind] in Hp.
  destruct (Coordinate.new (join "." (g :: gs)) a v k e) as [c'|x|] eqn:Ec; try discriminate.
  cbn [coordinate_or map_err outcome_bind] in Hp. injection Hp as -> <-.
  apply new_iff in Ec as [-> Hok]. exists (g :: gs), f. cbn [artifact_id version group_id]. split_and!; try assumption; try reflexivity; [discriminate|].
  rewrite (strip_checksum_inv _ _ _ Ef), (split_filename_inv (join "." (g :: gs)) _ _ _ _ _ Es). destruct ck; reflexivity.
Qed.

(** ** Accepted coordinates *)

Abbreviation no_slash := (str_all (not_char "/")).

Lemma no_slash_join l : Forall (fun s => no_slash s = true) l -> no_slash (join "." l) = true.
Proof.
  induction 1 as [|s l Hs Hl IH]; [reflexivity|]. destruct l as [|t l]; [exact Hs|].
  rewrite join_cons by discriminate. rewrite str_all_app, Hs. exact IH.
Qed.

Lemma parse_metadata_inv p c b o : parse_layout_path p = Ok (mkLayout c (Metadata b o)) ->
  coordinate_ok c /\ classifier c = None /\ extension c = "pom" /\
  no_slash (group_id c) = true /\ no_slash (artifact_id c) = true /\ no_slash (version c) = true.
Proof.
  pose proof (segments_pieces p) as Hseg. assert (Hs : Forall (fun s => no_slash s = true) (segments_of p))
    by (eapply Forall_impl; [exact Hseg|intros s [_ Hs]; exact Hs]).
  unfold parse_layout_path. destruct (_ <? _)%nat; [discriminate|].
  destruct (last (segments_of p)) as [f|] eqn:El; [|discriminate]. cbn [ok_or mbind outcome_bind].
  destruct (maven_metadata_suffix f) as [kind|].
  - unfold classify_metadata. destruct (_ <? _)%nat; [discriminate|]. cbv zeta. set (bf := take (length (segments_of p) - 1) (segments_of p)).
    assert (Hb : Forall (fun s => no_slash s = true) bf) by (apply Forall_take, Hs).
    assert (Hlast : no_slash (default "" (last bf)) = true).
    { destruct (last bf) as [x|] eqn:E; [|reflexivity]. apply last_Some_elem_of in E. rewrite Forall_forall in Hb. exact (Hb x E). }
    destruct (_ && _).
    + destruct (bf !! (length bf - 2)%nat) as [a|] eqn:Ea; [|discriminate]. cbn [expect mbind outcome_bind].
      destruct (Coordinate.new _ _ _ _ _) as [x|x|] eqn:Ec; try discriminate. cbn. intros [= <- _ _]. apply new_iff in Ec as [-> Hok].
      cbn. split_and!; try assumption; try reflexivity; [apply no_slash_join, Forall_take, Hb|]. rewrite Forall_forall in Hb.
      apply Hb. eapply list_elem_of_lookup_2, Ea.
    + destruct (Coordinate.new _ _ _ _ _) as [x|x|] eqn:Ec; try discriminate. cbn. intros [= <- _ _]. apply new_iff in Ec as [-> Hok].
      cbn. split_and!; try assumption; try reflexivity. apply no_slash_join, Forall_take, Hb.
  - destruct (_ <? _)%nat; [discriminate|].
    destruct (segments_of p !! (length (segments_of p) - 2)%nat); [|discriminate]. cbn [expect mbind outcome_bind].
    destruct (segments_of p !! (length (segments_of p) - 3)%nat); [|discriminate]. cbn [expect mbind outcome_bind]. destruct (strip_checksum_suffix f) as [stem ck].
    destruct (split_filename _ _ _) as [[k e]|x|]; try discriminate. cbn [mbind outcome_bind].
    destruct (coordinate_or _); try discriminate. destruct ck; discriminate.
Qed.

Lemma parse_fields p c cl : parse_layout_path p = Ok (mkLayout c cl) ->
  coordinate_ok c /\ no_slash (group_id c) = true /\ no_slash (artifact_id c) = true /\ no_slash (version c) = true /\
  no_slash (Coordinate.filename c) = true.
Proof.
  intros Hp. assert (Hm : (exists b o, cl = Metadata b o) \/ (forall b o, cl <> Metadata b o))
    by (destruct cl; [right; discriminate|right; discriminate|left; eauto]).
  destruct Hm as [(b & o & ->)|Hcl].
  - destruct (parse_metadata_inv p c b o Hp) as (Hok & Hk & He & Hg & Ha & Hv). split_and!; try assumption.
    unfold Coordinate.filename. rewrite Hk, He, !str_all_app, Ha, Hv. reflexivity.
  - destruct (parse_artifact_inv p c cl Hp Hcl) as (gs & f & Hs & _ & Hg & _ & Hok & Hf).
    assert (Hseg : Forall (fun s => no_slash s = true) (gs ++ [artifact_id c; version c; f]))
      by (rewrite <- Hs; eapply Forall_impl; [apply segments_pieces|intros s [_ H]; exact H]).
    apply Forall_app in Hseg as [Hgs Hrest]. apply Forall_cons in Hrest as [Ha [Hv [Hf' _]%Forall_cons]%Forall_cons].
    split_and!; try assumption; [rewrite Hg; apply no_slash_join, Hgs|].
    rewrite Hf in Hf'. destruct cl; try exact Hf'. rewrite str_all_app in Hf'. apply andb_true_iff in Hf' as [Hf' _]. exact Hf'.
Qed.

Definition not_traversal (s : string) : Prop := s <> "." /\ s <> "..".

Lemma no_dot_traversal s : str_all (not_char ".") s = true -> not_traversal s.
Proof. intros Hs. split; intros ->; discriminate Hs. Qed.

Lemma filename_traversal c : not_traversal (Coordinate.filename c).
Proof.
  assert (Hh : forall x y, not_traversal (x ++ "-" ++ y)).
  { intros x y. split; intros Heq; apply (f_equal (fun s => str_all (not_char "-") s)) in Heq; rewrite str_all_app in Heq;
      cbn in Heq; rewrite andb_false_r in Heq; discriminate Heq. }
  unfold Coordinate.filename. destruct (classifier c); apply Hh.
Qed.

(** The segments of the repository path of an accepted coordinate. *)
Lemma accepted_segments (p : string) (c : Coordinate) (cl : PathClass) :
  parse_layout_path p = Ok (mkLayout c cl) ->
  split "/" (Coordinate.repository_path c) =
    (split "." (group_id c) ++ [artifact_id c; version c; Coordinate.filename c])%list.
Proof.
  intros Hp. destruct (parse_fields p c cl Hp) as (_ & Hg & Ha & Hv & Hf).
  unfold Coordinate.repository_path, Coordinate.group_path.
  change (?g ++ "/" ++ ?a ++ "/" ++ ?v ++ "/" ++ ?f) with (g ++ String "/" (a ++ String "/" (v ++ String "/" f))).
  rewrite !split_app_sep, (split_single "/" (artifact_id c)), (split_single "/" (version c)), (split_single "/" (Coordinate.filename c)) by assumption.
  rewrite split_group by exact Hg. reflexivity.
Qed.

Lemma accepted_not_traversal (p : string) (c : Coordinate) (cl : PathClass) :
  parse_layout_path p = Ok (mkLayout c cl) -> Forall not_traversal (split "/" (Coordinate.repository_path c)).
Proof.
  intros Hp. rewrite (accepted_segments p c cl Hp). destruct (parse_fields p c cl Hp) as (Hok & _).
  apply Forall_app_2; [eapply Forall_impl; [apply split_pieces|intros s; apply no_dot_traversal]|].
  destruct (ok_artifact c Hok) as (_ & A1 & A2 & _). destruct (ok_version c Hok) as (_ & V1 & V2 & _).
  repeat constructor; try assumption; apply filename_traversal.
Qed.

(** C30: every path the layout parser accepts names a coordinate whose fields are
    non-empty, are not [.] or [..] and hold no separator, colon or control
    character, and whose repository path, split at the slashes, has no [.] or
    [..] segment: a stored path cannot climb out of the repository. *)
Theorem layout_paths_confined (p : string) (l : LayoutPath) :
  parse_layout_path p = Ok l ->
  coordinate_ok (coordinate l) /\
  Forall not_traversal (split "/" (Coordinate.repository_path (coordinate l))) /\
  (4 <= length (split "/" (Coordinate.repository_path (coordinate l))))%nat.
Proof.
  destruct l as [c cl]. intros Hp. cbn [coordinate]. split; [exact (proj1 (parse_fields p c cl Hp))|].
  split; [exact (accepted_not_traversal p c cl Hp)|]. rewrite (accepted_segments p c cl Hp), length_app. cbn [length].
  pose proof (split_nonempty "." (group_id c)). destruct (split "." (group_id c)); [congruence|cbn; lia].
Qed.

Lemma layout_paths_confined_witness :
  Forall not_traversal (split "/" (Coordinate.repository_path (mkCoordinate "com.example" "foo" "1.0" (Some "sources") "tar.gz"))).
Proof.
  exact (proj1 (proj2 (layout_paths_confined "com/example/foo/1.0/foo-1.0-sources.tar.gz"
    (mkLayout (mkCoordinate "com.example" "foo" "1.0" (Some "sources") "tar.gz") Artifact) eq_refl))).
Defined.

(** ** Printing and parsing *)

Lemma field_no_slash s : utf8_valid s = true -> field_ok s -> no_slash s = true.
Proof.
  intros Hu (_ & _ & _ & Hc). apply utf8_no_char; [cbn; lia|exact Hu|]. eapply Forall_impl; [exact Hc|].
  intros ch Hch ->. discriminate Hch.
Qed.

(** A coordinate of valid strings. *)
Definition coordinate_text (c : Coordinate) : Prop :=
  utf8_valid (group_id c) = true /\ utf8_valid (artifact_id c) = true /\ utf8_valid (version c) = true /\
  utf8_valid (extension c) = true /\ match classifier c with Some k => utf8_valid k = true | None => True end.

Lemma coordinate_no_slash c : coordinate_text c -> coordinate_ok c ->
  no_slash (group_id c) = true /\ no_slash (artifact_id c) = true /\ no_slash (version c) = true /\ no_slash (Coordinate.filename c) = true.
Proof.
  intros (Ug & Ua & Uv & Ue & Uk) [Og Oa Ov Oe Ok_]. pose proof (field_no_slash _ Ug Og). pose proof (field_no_slash _ Ua Oa) as Ha.
  pose proof (field_no_slash _ Uv Ov) as Hv. pose proof (field_no_slash _ Ue Oe) as He. split_and!; try assumption.
  unfold Coordinate.filename. destruct (classifier c) as [k|]; rewrite !str_all_app, Ha, Hv, He; [|reflexivity].
  rewrite (field_no_slash k Uk Ok_). reflexivity.
Qed.

Lemma nonempty_filename c s : nonempty (Coordinate.filename c ++ s) = true.
Proof.
  apply negb_true_iff, bool_decide_eq_false. intros Heq. apply (f_equal String.length) in Heq. revert Heq.
  unfold Coordinate.filename. destruct (classifier c); rewrite !str_length_app; cbn; lia.
Qed.

Lemma metadata_suffix_app f a : maven_metadata_suffix f = None -> maven_metadata_suffix (f ++ "." ++ ChecksumAlgo.extension a) = None.
Proof.
  unfold maven_metadata_suffix at 2. intros Hf. case_bool_decide as Heq.
  { exfalso. apply (f_equal (rsplit_once ".")) in Heq. change ("." ++ ?x) with (String "." x) in Heq.
    rewrite rsplit_once_last in Heq by (destruct a; reflexivity). destruct a; discriminate Heq. }
  destruct (strip_prefix "maven-metadata.xml." (f ++ "." ++ ChecksumAlgo.extension a)) as [r|] eqn:E; [|reflexivity].
  cbn [mbind option_bind]. destruct (ChecksumAlgo.from_extension r) as [b|] eqn:Er; [|reflexivity]. exfalso.
  apply strip_prefix_app in E. apply extension_inv in Er as ->. apply (f_equal (rsplit_once ".")) in E.
  change ("maven-metadata.xml." ++ ChecksumAlgo.extension b) with ("maven-metadata.xml" ++ String "." (ChecksumAlgo.extension b)) in E.
  change ("." ++ ChecksumAlgo.extension a) with (String "." (ChecksumAlgo.extension a)) in E.
  rewrite !rsplit_once_last in E by (destruct a, b; reflexivity). injection E as -> _. discriminate Hf.
Qed.

(** The parser finds a printed coordinate again, with any suffix that leaves
    its file name to be stripped. *)
Lemma parse_printed c f ck :
  coordinate_text c -> coordinate_ok c -> Forall (fun s => s <> "") (split "." (group_id c)) -> tail_splits c = true ->
  maven_metadata_suffix f = None -> strip_checksum_suffix f = (Coordinate.filename c, ck) -> no_slash f = true -> nonempty f = true ->
  parse_layout_path (Coordinate.group_path c ++ "/" ++ artifact_id c ++ "/" ++ version c ++ "/" ++ f)
  = Ok (mkLayout c (match ck with Some x => Checksum x | None => Artifact end)).
Proof.
  intros Ht Hok Hg Htail Hm Hs Hf Hn. destruct (coordinate_no_slash c Ht Hok) as (Sg & Sa & Sv & _).
  assert (Hne : forall s, field_ok s -> nonempty s = true) by (intros s (H0 & _); apply negb_true_iff, bool_decide_eq_false, H0).
  assert (Hseg := segments_repository (Coordinate.group_path c) (artifact_id c) (version c) f (Hne _ (ok_artifact c Hok)) (Hne _ (ok_version c Hok)) Hn Sa Sv Hf).
  unfold Coordinate.group_path in Hseg at 2. rewrite split_group in Hseg by exact Sg.
  assert (Hid : List.filter nonempty (split "." (group_id c)) = split "." (group_id c)).
  { clear -Hg. induction Hg as [|s l Hs _ IH]; [reflexivity|]. cbn. rewrite IH. unfold nonempty. rewrite bool_decide_false by exact Hs. reflexivity. }
  rewrite Hid in Hseg. rewrite (parse_segments _ _ _ _ _ Hseg (split_nonempty _ _) Hm), Hs, (split_filename_filename c Hok Htail).
  cbn [mbind outcome_bind]. rewrite (proj1 (join_split _ _)). rewrite (proj2 (new_iff _ _ _ _ _ c)); [reflexivity|]. split; [destruct c; reflexivity|exact Hok].
Qed.

(** C31: a coordinate is found again from the path it prints, and its checksum
    sidecars from that path with their extension, when its group has no empty
    part, its file name is not that of a metadata document or of a sidecar, and
    its classifier can be told from its extension. *)
Theorem layout_roundtrip (g a v : string) (k : option string) (e : string) (c : Coordinate) :
  Coordinate.new g a v k e = Ok c -> coordinate_text c ->
  Forall (fun s => s <> "") (split "." (group_id c)) -> tail_splits c = true ->
  maven_metadata_suffix (Coordinate.filename c) = None -> snd (strip_checksum_suffix (Coordinate.filename c)) = None ->
  parse_layout_path (Coordinate.repository_path c) = Ok (mkLayout c Artifact) /\
  forall algo, parse_layout_path (Coordinate.repository_path c ++ "." ++ ChecksumAlgo.extension algo) = Ok (mkLayout c (Checksum algo)).
Proof.
  intros Hn Ht Hg Htail Hm Hck. apply new_iff in Hn as [_ Hok]. destruct (coordinate_no_slash c Ht Hok) as (_ & _ & _ & Sf). split.
  - apply (parse_printed c (Coordinate.filename c) None); try assumption.
    + destruct (strip_checksum_suffix (Coordinate.filename c)) as [s o] eqn:Es. cbn in Hck. subst o.
      apply strip_checksum_inv in Es. congruence.
    + rewrite <- (str_app_nil_r (Coordinate.filename c)). apply nonempty_filename.
  - intros algo. unfold Coordinate.repository_path. rewrite !str_app_assoc.
    apply (parse_printed c (Coordinate.filename c ++ "." ++ ChecksumAlgo.extension algo) (Some algo)); try assumption.
    + apply metadata_suffix_app, Hm.
    + apply strip_checksum_app.
    + rewrite str_all_app, Sf. destruct algo; reflexivity.
    + apply nonempty_filename.
Qed.

Lemma layout_roundtrip_witness :
  let c := mkCoordinate "com.example" "foo" "1.0" (Some "sources") "tar.gz" in
  parse_layout_path (Coordinate.repository_path c) = Ok (mkLayout c Artifact).
Proof.
  intros c. refine (proj1 (layout_roundtrip "com.example" "foo" "1.0" (Some "sources") "tar.gz" c eq_refl _ _ eq_refl eq_refl eq_refl)).
  - repeat split; reflexivity.
  - repeat constructor; discriminate.
Defined.

(** ** An artifact's metadata document *)

Definition document_name (algo : option ChecksumAlgo) : string :=
  match algo with None => "maven-metadata.xml" | Some a => "maven-metadata.xml." ++ ChecksumAlgo.extension a end.

(** Where a client looks for the index of a coordinate's artifact. *)
Definition document_path (c : Coordinate) (algo : option ChecksumAlgo) : string :=
  Coordinate.group_path c ++ "/" ++ artifact_id c ++ "/" ++ document_name algo.

(** The parser takes an artifact id with a digit for a version, if the group has
    a part left to be the artifact. *)
Definition taken_for_version (c : Coordinate) : bool :=
  negb (str_all (fun ch => negb (is_ascii_digit ch)) (artifact_id c)) && (2 <=? length (split "." (group_id c)))%nat.

(** The coordinate it then reads: the group without its last part, that part, and
    the artifact id as the version. *)
Definition version_reading (c : Coordinate) : Coordinate :=
  let parts := split "." (group_id c) in
  mkCoordinate (join "." (take (length parts - 1) parts)) (default "" (last parts)) (artifact_id c) None "pom".

Definition index_reading (c : Coordinate) : Coordinate := mkCoordinate (group_id c) (artifact_id c) "index" None "pom".

(** The group has no empty part. *)
Definition whole_group (c : Coordinate) : Prop := Forall (fun s => s <> "") (split "." (group_id c)).

Lemma chars_app_lead a b : is_lead b -> chars (a ++ b) = (chars a ++ chars b)%list.
Proof.
  intros Hb. induction a as [|c a IH]; [rewrite str_app_nil; reflexivity|]. rewrite str_app_cons.
  destruct a as [|d a]; [rewrite str_app_nil, chars_lead by exact Hb; reflexivity|]. rewrite str_app_cons in *.
  destruct (is_continuation d) eqn:Hd.
  - destruct (chars_continued c d a Hd) as (r & l & E1 & ->), (chars_continued c d (a ++ b) Hd) as (r' & l' & E2 & ->).
    rewrite E1, E2 in IH. injection IH as -> ->. reflexivity.
  - rewrite (chars_lead c (String d (a ++ b))), (chars_lead c (String d a)), IH by exact Hd. reflexivity.
Qed.

Abbreviation legal s := (Forall (fun ch => illegal_char ch = false) (chars s)).

Lemma legal_dot s : legal (String "." s) <-> legal s.
Proof.
  destruct s as [|d s]; [cbn; split; repeat constructor|]. destruct (is_continuation d) eqn:Hd.
  - destruct (chars_continued "." d s Hd) as (r & l & -> & ->). rewrite !Forall_cons.
    assert (H1 : illegal_char (String "." (String d r)) = false) by reflexivity.
    assert (H2 : illegal_char (String d r) = false) by (destruct d as [[] [] [] [] [] [] [] []]; try discriminate Hd; destruct r; reflexivity).
    tauto.
  - rewrite chars_lead, Forall_cons by exact Hd. intuition reflexivity.
Qed.

Lemma legal_join l : legal (join "." l) <-> Forall (fun p => legal p) l.
Proof.
  induction l as [|p [|q l] IH]; [cbn; split; constructor|cbn [join]; rewrite Forall_singleton; reflexivity|].
  rewrite join_cons, chars_app_lead, Forall_app, legal_dot, IH, (Forall_cons _ p) by (discriminate || reflexivity). reflexivity.
Qed.

(** A field of whole parts of an accepted field is accepted. *)
Lemma field_join l : l <> [] -> Forall (fun s => s <> "") l -> Forall (fun s => str_all (not_char ".") s = true) l ->
  Forall (fun p => legal p) l -> field_ok (join "." l).
Proof.
  intros Hne H0 Hd Hl. destruct l as [|p l]; [contradiction|]. apply Forall_cons in H0 as [Hp _]. apply Forall_cons in Hd as [Hdp _].
  assert (Hx : exists c r, join "." (p :: l) = String c r /\ not_char "." c = true).
  { destruct p as [|c p]; [contradiction|]. apply andb_true_iff in Hdp as [Hc _]. destruct l; [cbn; eauto|].
    rewrite join_cons, str_app_cons by discriminate. eauto. }
  destruct Hx as (c & r & Hx & Hc). split_and!; [| | |apply legal_join, Hl]; rewrite Hx; [discriminate|intros [= -> _]..]; discriminate Hc.
Qed.

Lemma version_reading_ok c : coordinate_ok c -> whole_group c -> taken_for_version c = true -> coordinate_ok (version_reading c).
Proof.
  intros [Hg Ha _ _ _] Hw [_ Hl%Nat.leb_le]%andb_true_iff. unfold whole_group in Hw. pose proof (split_pieces "." (group_id c)) as Hd.
  destruct Hg as (_ & _ & _ & Hg). rewrite <- (proj1 (join_split "." (group_id c))) in Hg. apply legal_join in Hg.
  unfold version_reading. destruct (split "." (group_id c)) as [|x l _] using rev_ind; [cbn in Hl; lia|].
  rewrite length_app in *. cbn [length] in *. rewrite take_app_length' by lia. rewrite last_snoc.
  apply Forall_app in Hw as [Hw [Hx _]%Forall_cons], Hd as [Hd [Hdx _]%Forall_cons], Hg as [Hg [Hgx _]%Forall_cons].
  split; cbn; [apply field_join; [intros ->; cbn in Hl; lia|assumption..]| |exact Ha| |exact I].
  - apply (field_join [x]); [discriminate|apply Forall_singleton; assumption..].
  - split_and!; [discriminate..|]. repeat constructor.
Qed.

Lemma index_reading_ok c : coordinate_ok c -> coordinate_ok (index_reading c).
Proof. intros [Hg Ha _ _ _]. split; cbn; try assumption; [..|exact I]; (split_and!; [discriminate..|]; repeat constructor). Qed.

Lemma document_segments c algo : coordinate_ok c -> no_slash (group_id c) = true -> no_slash (artifact_id c) = true -> whole_group c ->
  segments_of (document_path c algo) = (split "." (group_id c) ++ [artifact_id c; document_name algo])%list.
Proof.
  intros Hok Sg Sa Hw. unfold segments_of, document_path. rewrite trim_segments.
  change (?g ++ "/" ++ ?a ++ "/" ++ ?f) with (g ++ String "/" (a ++ String "/" f)).
  assert (Hf : split "/" (document_name algo) = [document_name algo]) by (destruct algo as [[]|]; reflexivity).
  assert (Hn : nonempty (document_name algo) = true) by (destruct algo as [[]|]; reflexivity).
  assert (Ha : nonempty (artifact_id c) = true) by (apply negb_true_iff, bool_decide_eq_false, (ok_artifact c Hok)).
  unfold Coordinate.group_path. rewrite !split_app_sep, (split_single "/" (artifact_id c)), Hf, split_group, !List.filter_app by assumption.
  cbn [List.filter]. rewrite Ha, Hn. f_equal. clear -Hw. unfold whole_group in Hw. induction Hw as [|s l Hs _ IH]; [reflexivity|].
  cbn. rewrite IH. unfold nonempty. rewrite bool_decide_false by exact Hs. reflexivity.
Qed.

(** What the parser makes of the document's path. *)
Lemma parse_document c algo : coordinate_ok c -> no_slash (group_id c) = true -> no_slash (artifact_id c) = true -> whole_group c ->
  parse_layout_path (document_path c algo) =
    Ok (mkLayout (if taken_for_version c then version_reading c else index_reading c) (Metadata (taken_for_version c) algo)).
Proof.
  intros Hok Sg Sa Hw. pose proof (version_reading_ok c Hok Hw) as Hv. pose proof (index_reading_ok c Hok) as Hi.
  pose proof (proj1 (join_split "." (group_id c))) as Hj. pose proof (split_nonempty "." (group_id c)) as Hne.
  unfold parse_layout_path. rewrite (document_segments c algo Hok Sg Sa Hw). unfold taken_for_version, version_reading, index_reading in *.
  set (ps := split "." (group_id c)) in *. clearbody ps. assert (Hl : (1 <= length ps)%nat) by (destruct ps; [congruence|cbn; lia]).
  assert (Hlen : length (ps ++ [artifact_id c; document_name algo]) = (length ps + 2)%nat) by (rewrite length_app; reflexivity).
  rewrite Hlen. destruct (Nat.ltb_spec (length ps + 2) 3) as [|_]; [lia|]. rewrite last_app_cons. cbn [last ok_or mbind outcome_bind].
  assert (Hm : maven_metadata_suffix (document_name algo) = Some match algo with None => Raw | Some a => Sidecar a end) by (destruct algo as [[]|]; reflexivity).
  rewrite Hm. unfold classify_metadata. rewrite Hlen. destruct (Nat.ltb_spec (length ps + 2) 3) as [|_]; [lia|]. cbv zeta.
  assert (Hb : take (length ps + 2 - 1) (ps ++ [artifact_id c; document_name algo]) = (ps ++ [artifact_id c])%list).
  { change (ps ++ [artifact_id c; document_name algo])%list with (ps ++ [artifact_id c] ++ [document_name algo])%list.
    rewrite app_assoc. apply take_app_length'. rewrite length_app. cbn. lia. }
  rewrite Hb, last_snoc, length_app. cbn [default length from_option id].
  replace (3 <=? length ps + 1)%nat with (2 <=? length ps)%nat by (destruct (Nat.leb_spec 2 (length ps)), (Nat.leb_spec 3 (length ps + 1)); lia).
  destruct (_ && _) eqn:Ev.
  - apply andb_true_iff in Ev as [_ Hl2%Nat.leb_le]. specialize (Hv eq_refl).
    destruct ps as [|x l _] using rev_ind; [cbn in Hl; lia|]. rewrite length_app in *. cbn [length] in *.
    rewrite <- app_assoc, lookup_app_r by lia. replace (length l + 1 + 1 - 2 - length l)%nat with 0%nat by lia.
    cbn [lookup list_lookup app expect mbind outcome_bind].
    rewrite !take_app_length' in * by lia. rewrite last_snoc in *. cbn [default from_option id] in *.
    rewrite (proj2 (new_iff _ _ _ _ _ _) (conj eq_refl Hv)). cbn. destruct algo; reflexivity.
  - rewrite take_app_length' by lia. rewrite Hj, (proj2 (new_iff _ _ _ _ _ _) (conj eq_refl Hi)). cbn. destruct algo; reflexivity.
Qed.
