(* ===== verification/MavenXml.v ===== *)
(** * Maven metadata documents and POMs

    Models of [crates/ferro-maven-layout/src/metadata.rs], [pom.rs] and
    [xml.rs]. [quick_xml]'s deserializer is a parameter: it gives a raw
    document, fails with a message, or panics with a payload, which the crate
    catches. *)

From S2P Require Import Prelude Str Frame Net Json Digest BlobStore MavenCoordinate.

Local Open Scope string_scope.

(** ** The deserializer *)

(** The payload of a caught panic, when it is a string. *)
Inductive xml_result (A : Type) :=
| XmlOk (a : A)
| XmlErr (msg : string)
| XmlPanic (payload : option string).
Arguments XmlOk {A} _.
Arguments XmlErr {A} _.
Arguments XmlPanic {A} _.

Definition from_str_panic_safe {A} (parse_result : xml_result A) (on_err : string -> MavenError) : outcome MavenError A :=
  match parse_result with
  | XmlOk value => Ok value
  | XmlErr e => Err (on_err ("XML parse failed: " ++ e))
  | XmlPanic payload =>
    Err (on_err ("XML parser panicked on malformed input: " ++ default "non-string panic payload" payload))
  end.

Record RawSnapshot := mkRawSnapshot { rs_timestamp : option string; rs_build_number : option Z }.

Record RawSnapshotVersion := mkRawSnapshotVersion {
  rsv_classifier : option string;
  rsv_extension : option string;
  rsv_value : option string;
  rsv_updated : option string;
}.

Record RawVersioning := mkRawVersioning {
  rv_release : option string;
  rv_latest : option string;
  rv_snapshot : option RawSnapshot;
  rv_versions : option (list string);
  rv_snapshot_versions : option (list RawSnapshotVersion);
  rv_last_updated : option string;
}.

Definition RawVersioning_default : RawVersioning := mkRawVersioning None None None None None None.

Record RawMetadata := mkRawMetadata {
  rm_group_id : option string;
  rm_artifact_id : option string;
  rm_version : option string;
  rm_versioning : option RawVersioning;
}.

Record RawParent := mkRawParent { rp_group_id : option string; rp_artifact_id : option string; rp_version : option string }.

Record RawPom := mkRawPom {
  rpom_model_version : option string;
  rpom_group_id : option string;
  rpom_artifact_id : option string;
  rpom_version : option string;
  rpom_packaging : option string;
  rpom_parent : option RawParent;
}.

Class QuickXml := {
  xml_metadata : string -> xml_result RawMetadata;
  xml_pom : string -> xml_result RawPom;
}.

(** ** Metadata *)

Record Snapshot := mkSnapshot { timestamp : string; build_number : Z }.

Record SnapshotVersion := mkSnapshotVersion {
  sv_classifier : option string;
  sv_extension : string;
  sv_value : string;
  sv_updated : string;
}.

Record MavenMetadata := mkMetadata {
  md_group_id : string;
  md_artifact_id : string;
  md_version : option string;
  md_release : option string;
  md_latest : option string;
  md_versions : list string;
  md_last_updated : option string;
  md_snapshot : option Snapshot;
  md_snapshot_versions : list SnapshotVersion;
}.

Module MavenMetadata.

Section Build.
Context `{C : Chrono}.

Definition format_last_updated (t : Z) : string := format_plain t.

Definition artifact_index (group_id artifact_id : string) (versions : list string) (last_updated : Z) : MavenMetadata :=
  let release := find (fun v => negb (is_snapshot_version v)) (rev versions) in
  let latest := last versions in
  mkMetadata group_id artifact_id None release latest versions (Some (format_last_updated last_updated)) None [].

Definition snapshot_metadata (group_id artifact_id version : string) (snapshot : Snapshot)
    (snapshot_versions : list SnapshotVersion) (last_updated : Z) : MavenMetadata :=
  mkMetadata group_id artifact_id (Some version) None None [] (Some (format_last_updated last_updated)) (Some snapshot) snapshot_versions.

End Build.

(** [s.replace(c, by)]. *)
Fixpoint replace_char (c : ascii) (by_ s : string) : string :=
  match s with
  | "" => ""
  | String d s => (if Ascii.eqb d c then by_ else String d "") ++ replace_char c by_ s
  end.

Definition escape (s : string) : string :=
  replace_char ">" "&gt;" (replace_char "<" "&lt;" (replace_char "&" "&amp;" s)).

Definition newline : string := String "010" "".

Definition line (indent tag text : string) : string :=
  indent ++ "<" ++ tag ++ ">" ++ text ++ "</" ++ tag ++ ">" ++ newline.

Definition opt_line (indent tag : string) (o : option string) : string :=
  match o with Some t => line indent tag (escape t) | None => "" end.

Definition concat_map {A} (f : A -> string) (l : list A) : string := fold_right (fun x s => f x ++ s) "" l.

Definition snapshot_version_xml (sv : SnapshotVersion) : string :=
  "      <snapshotVersion>" ++ newline ++
  opt_line "        " "classifier" (sv_classifier sv) ++
  line "        " "extension" (escape (sv_extension sv)) ++
  line "        " "value" (escape (sv_value sv)) ++
  line "        " "updated" (escape (sv_updated sv)) ++
  "      </snapshotVersion>" ++ newline.

Definition quote : string := String "034" "".

Definition to_xml (m : MavenMetadata) : string :=
  "<?xml version=" ++ quote ++ "1.0" ++ quote ++ " encoding=" ++ quote ++ "UTF-8" ++ quote ++ "?>" ++ newline ++
  "<metadata>" ++ newline ++
  line "  " "groupId" (escape (md_group_id m)) ++
  line "  " "artifactId" (escape (md_artifact_id m)) ++
  opt_line "  " "version" (md_version m) ++
  "  <versioning>" ++ newline ++
  opt_line "    " "release" (md_release m) ++
  opt_line "    " "latest" (md_latest m) ++
  match md_snapshot m with
  | Some snap =>
    "    <snapshot>" ++ newline ++
    line "      " "timestamp" (escape (timestamp snap)) ++
    line "      " "buildNumber" (display_u64 (build_number snap)) ++
    "    </snapshot>" ++ newline
  | None => ""
  end ++
  match md_versions m with
  | [] => ""
  | vs => "    <versions>" ++ newline ++ concat_map (fun v => line "      " "version" (escape v)) vs ++ "    </versions>" ++ newline
  end ++
  match md_snapshot_versions m with
  | [] => ""
  | svs => "    <snapshotVersions>" ++ newline ++ concat_map snapshot_version_xml svs ++ "    </snapshotVersions>" ++ newline
  end ++
  opt_line "    " "lastUpdated" (md_last_updated m) ++
  "  </versioning>" ++ newline ++
  "</metadata>" ++ newline.

Definition from_xml `{X : QuickXml} (xml : string) : outcome MavenError MavenMetadata :=
  raw ← from_str_panic_safe (xml_metadata xml) InvalidMetadata;
  let group_id := default "" (rm_group_id raw) in
  let artifact_id := default "" (rm_artifact_id raw) in
  if bool_decide (group_id = "") || bool_decide (artifact_id = "")
  then Err (InvalidMetadata "metadata missing groupId or artifactId") else
  let versioning := default RawVersioning_default (rm_versioning raw) in
  let snapshot := (fun s => mkSnapshot (default "" (rs_timestamp s)) (default 0%Z (rs_build_number s))) <$> rv_snapshot versioning in
  let snapshot_versions :=
    map (fun e => mkSnapshotVersion (rsv_classifier e) (default "" (rsv_extension e)) (default "" (rsv_value e)) (default "" (rsv_updated e)))
        (default [] (rv_snapshot_versions versioning)) in
  Ok (mkMetadata group_id artifact_id (rm_version raw) (rv_release versioning) (rv_latest versioning)
        (default [] (rv_versions versioning)) (rv_last_updated versioning) snapshot snapshot_versions).

End MavenMetadata.

(** ** POMs *)

Record PomParent := mkPomParent { pp_group_id : string; pp_artifact_id : string; pp_version : string }.

Record Pom := mkPom {
  pom_model_version : option string;
  pom_group_id : string;
  pom_artifact_id : string;
  pom_version : string;
  pom_packaging : string;
  pom_parent : option PomParent;
}.

(** [a.or_else(|| b)]. *)
Definition or_else {A} (a b : option A) : option A := match a with Some x => Some x | None => b end.

Definition parse_pom `{X : QuickXml} (xml : string) : outcome MavenError Pom :=
  raw ← from_str_panic_safe (xml_pom xml) InvalidPom;
  let parent := (fun p => mkPomParent (default "" (rp_group_id p)) (default "" (rp_artifact_id p)) (default "" (rp_version p))) <$> rpom_parent raw in
  let group_id := default "" (or_else (rpom_group_id raw) (pp_group_id <$> parent)) in
  let version := default "" (or_else (rpom_version raw) (pp_version <$> parent)) in
  let artifact_id := default "" (rpom_artifact_id raw) in
  if bool_decide (group_id = "") then Err (InvalidPom "POM missing groupId (and no <parent><groupId>)") else
  if bool_decide (artifact_id = "") then Err (InvalidPom "POM missing artifactId") else
  if bool_decide (version = "") then Err (InvalidPom "POM missing version (and no <parent><version>)") else
  Ok (mkPom (rpom_model_version raw) group_id artifact_id version (default "jar" (rpom_packaging raw)) parent).
