(* ===== verification/MavenHandlers.v ===== *)
(** * The Maven repository's handlers

    Model of [crates/ferro-maven-layout/src/handlers.rs] and [router.rs]. The
    three indices are behind locks of their own, so a request is a sequence of
    atomic steps; [put_artifact] is written as the two parts an interleaved
    request can fall between: storing the blob, and registering the path. The
    instants a request reads from the clock are its [Clock]. The build number
    is a [u32]: an overflow panics, as a checked build does. *)

From S2P Require Import Prelude Str Frame Net Json Http Digest BlobStore MavenCoordinate MavenLayout MavenXml.

Local Open Scope string_scope.

Abbreviation MetadataKey := (string * string * string * option string)%type.
Abbreviation CounterKey := (string * string * string * string)%type.

Record MavenState (St : Type) := mkMaven {
  mblobs : St;
  layout : gmap string Digest;
  metadata : gmap MetadataKey MavenMetadata;
  snapshot_counter : gmap CounterKey Z;
}.
Arguments mkMaven {St} _ _ _ _.
Arguments mblobs {St} _.
Arguments layout {St} _.
Arguments metadata {St} _.
Arguments snapshot_counter {St} _.

Definition MavenState_new {St} (b : St) : MavenState St := mkMaven b ∅ ∅ ∅.

Record MavenResponse := mkMResp { mstatus : Z; mheaders : headers; mbody : bytes }.

(** [IntoResponse for MavenError]: the text is the error's [Display]. *)
Definition maven_error_response (e : MavenError) (text : string) : MavenResponse :=
  mkMResp (maven_status e) [] (bytes_of_string text).

Record Clock := mkClock { at_build : Z; at_updated : Z; at_snapshot : Z; at_index : Z }.

Definition build_key (repo path : string) : string := repo ++ "/" ++ path.

Definition snapshot_metadata_path (repo group_path artifact_id base_version : string) : string :=
  repo ++ "/" ++ group_path ++ "/" ++ artifact_id ++ "/" ++ base_version ++ "-SNAPSHOT/maven-metadata.xml".

(** [Vec::dedup]. *)
Fixpoint dedup (l : list string) : list string :=
  match l with
  | x :: ((y :: _) as t) => if bool_decide (x = y) then dedup t else x :: dedup t
  | _ => l
  end.

(** The version directory of a key under [prefix]. *)
Definition version_dir (prefix k : string) : option string :=
  tail ← strip_prefix prefix k; '(ver, _) ← split_once "/" tail; Some ver.

Section Handlers.
Context `{H : Hashing} `{S1 : Sha1Lib} `{C : Chrono} `{X : QuickXml} `{L : HttpLib} {St : Type} `{BS : BlobStore St}.

Abbreviation handler A := (stm (MavenState St) MavenError A).

Definition on_mblobs {A} (m : stm St BlobStoreError A) : handler A := fun s =>
  let '(b, r) := m (mblobs s) in (mkMaven b (layout s) (metadata s) (snapshot_counter s), map_err MvStorage r).

Definition insert_layout (key : string) (d : Digest) : handler unit :=
  st_modify (fun s => mkMaven (mblobs s) (<[key := d]> (layout s)) (metadata s) (snapshot_counter s)).

Definition insert_metadata (key : MetadataKey) (m : MavenMetadata) : handler unit :=
  st_modify (fun s => mkMaven (mblobs s) (layout s) (<[key := m]> (metadata s)) (snapshot_counter s)).

(** ** Responses *)

Definition content_type (extension : string) : string :=
  if bool_decide (extension ∈ ["pom"; "xml"]) then "application/xml" else
  if bool_decide (extension ∈ ["jar"; "war"; "ear"]) then "application/java-archive" else
  if bool_decide (extension ∈ ["tar.gz"; "tgz"]) then "application/gzip" else
  if bool_decide (extension = "zip") then "application/zip" else "application/octet-stream".

Definition with_body_or (with_body : bool) (b : bytes) : bytes := if with_body then b else [].

Definition build_artifact_response (c : Coordinate) (d : Digest) (b : bytes) (with_body : bool) : MavenResponse :=
  mkMResp 200 ([("content-type", content_type (extension c))] ++
    try_header "content-length" (display_u64 (zlen b)) ++
    try_header "etag" (String "034" ("sha256:" ++ hex d ++ String "034" "")) ++
    try_header "X-Checksum-Sha256" (hex d) ++
    match compute_checksum CSha1 b with Some h => try_header "X-Checksum-Sha1" h | None => [] end)%list
    (with_body_or with_body b).

Definition build_sidecar_response (h : string) (with_body : bool) : MavenResponse :=
  mkMResp 200 [("content-type", "text/plain; charset=utf-8")] (with_body_or with_body (bytes_of_string h)).

Definition build_raw_response (b : bytes) (with_body : bool) : MavenResponse :=
  mkMResp 200 ([("content-type", "application/xml")] ++ try_header "content-length" (display_u64 (zlen b)))%list (with_body_or with_body b).

(** ** GET and HEAD *)

Definition serve_checksum (repo path : string) (a : ChecksumAlgo) (with_body : bool) : handler MavenResponse :=
  s ← st_get;
  match layout s !! build_key repo path with
  | Some d => b ← on_mblobs (bs_get d); mret (build_raw_response b with_body)
  | None =>
    main_path ← st_lift (ok_or (strip_suffix ("." ++ ChecksumAlgo.extension a) path)
                               (MvNotFound ("sidecar path " ++ path ++ " has no algo suffix")));
    s ← st_get;
    d ← st_lift (ok_or (layout s !! build_key repo main_path) (MvNotFound path));
    b ← on_mblobs (bs_get d);
    h ← st_lift (ok_or (compute_checksum a b) (MvChecksumMismatch ("cannot compute " ++ ChecksumAlgo.debug a ++ " on the fly")));
    mret (build_sidecar_response h with_body)
  end.

Definition load_metadata_xml (repo : string) (l : LayoutPath) (version_level : bool) : handler bytes :=
  let group_path := Coordinate.group_path (coordinate l) in
  let artifact_id := artifact_id (coordinate l) in
  let base := if version_level then Some (base_version (version (coordinate l))) else None in
  s ← st_get;
  md ← st_lift (ok_or (metadata s !! (repo, group_path, artifact_id, base))
                      (MvNotFound ("no maven-metadata.xml for " ++ group_path ++ "/" ++ artifact_id)));
  mret (bytes_of_string (MavenMetadata.to_xml md)).

Definition serve (repo path : string) (with_body : bool) : handler MavenResponse :=
  l ← st_lift (parse_layout_path path);
  match class l with
  | Artifact =>
    s ← st_get;
    d ← st_lift (ok_or (layout s !! build_key repo path) (MvNotFound path));
    b ← on_mblobs (bs_get d);
    mret (build_artifact_response (coordinate l) d b with_body)
  | Checksum a => serve_checksum repo path a with_body
  | Metadata version_level checksum =>
    meta_bytes ← load_metadata_xml repo l version_level;
    match checksum with
    | Some a =>
      h ← st_lift (ok_or (compute_checksum a meta_bytes)
                         (MvChecksumMismatch ("cannot compute " ++ ChecksumAlgo.debug a ++ " for maven-metadata.xml")));
      mret (build_sidecar_response h with_body)
    | None => mret (build_raw_response meta_bytes with_body)
    end
  end.

Definition handle_get (repo path : string) : handler MavenResponse := serve repo path true.
Definition handle_head (repo path : string) : handler MavenResponse := serve repo path false.

(** ** PUT *)

Definition check_pom (c : Coordinate) (body : bytes) : outcome MavenError unit :=
  if bool_decide (extension c = "pom") then
    text ← ok_or (from_utf8 body) (InvalidPom "POM body is not UTF-8");
    pom ← parse_pom text;
    if negb (bool_decide (pom_group_id pom = group_id c)) || negb (bool_decide (pom_artifact_id pom = artifact_id c)) ||
       negb (bool_decide (pom_version pom = version c))
    then Err (CoordinateMismatch ("POM says " ++ pom_group_id pom ++ ":" ++ pom_artifact_id pom ++ ":" ++ pom_version pom ++
                ", URL says " ++ group_id c ++ ":" ++ artifact_id c ++ ":" ++ version c))
    else Ok tt
  else Ok tt.

(** The next build number of a base version. *)
Definition next_build (key : CounterKey) : handler Z :=
  s ← st_get;
  let next := (default 0 (snapshot_counter s !! key) + 1)%Z in
  if (U32_MAX <? next)%Z then st_lift Panic else
  _ ← st_modify (fun s => mkMaven (mblobs s) (layout s) (metadata s) (<[key := next]> (snapshot_counter s)));
  mret next.

(** The path a timestamped build is registered under. *)
Definition timestamped_path (c ts : Coordinate) : string :=
  Coordinate.group_path c ++ "/" ++ artifact_id c ++ "/" ++ version c ++ "/" ++ Coordinate.filename ts.

Definition register_snapshot_timestamped (repo : string) (l : LayoutPath) (d : Digest) (now : Clock) : handler unit :=
  let c := coordinate l in
  let base := base_version (version c) in
  n ← next_build (repo, Coordinate.group_path c, artifact_id c, base);
  let timestamped_version := compose_version (at_build now) (version c) n in
  ts ← st_lift (coordinate_or (Coordinate.new (group_id c) (artifact_id c) timestamped_version (classifier c) (extension c)));
  _ ← insert_layout (build_key repo (timestamped_path c ts)) d;
  let sv := mkSnapshotVersion (classifier c) (extension c) timestamped_version (format_plain (at_updated now)) in
  let snap := mkSnapshot (format_dotted (at_build now)) n in
  insert_metadata (repo, Coordinate.group_path c, artifact_id c, Some base)
    (MavenMetadata.snapshot_metadata (group_id c) (artifact_id c) (version c) snap [sv] (at_snapshot now)).

Definition known_versions (prefix : string) (lay : gmap string Digest) : list string :=
  dedup (merge_sort str_le (omap (version_dir prefix) (fst <$> items lay))).

Definition regenerate_artifact_index (repo : string) (l : LayoutPath) (now : Clock) : handler unit :=
  let c := coordinate l in
  let prefix := repo ++ "/" ++ Coordinate.group_path c ++ "/" ++ artifact_id c ++ "/" in
  s ← st_get;
  insert_metadata (repo, Coordinate.group_path c, artifact_id c, None)
    (MavenMetadata.artifact_index (group_id c) (artifact_id c) (known_versions prefix (layout s)) (at_index now)).

Definition stored : bytes := bytes_of_string "stored".

(** The first part: the checks and the blob. *)
Definition store_artifact (l : LayoutPath) (body : bytes) : handler Digest :=
  _ ← st_lift (check_pom (coordinate l) body);
  let d := Digest.sha256_of body in
  _ ← on_mblobs (bs_put d body);
  mret d.

(** The second part: the path and the indices. *)
Definition register_artifact (repo path : string) (l : LayoutPath) (d : Digest) (now : Clock) : handler MavenResponse :=
  _ ← (if is_snapshot_version (version (coordinate l)) then register_snapshot_timestamped repo l d now else mret tt);
  _ ← insert_layout (build_key repo path) d;
  _ ← regenerate_artifact_index repo l now;
  mret (mkMResp 201 (try_header "X-Checksum-Sha256" (hex d)) stored).

Definition put_artifact (repo path : string) (l : LayoutPath) (body : bytes) (now : Clock) : handler MavenResponse :=
  d ← store_artifact l body;
  register_artifact repo path l d now.

Definition put_checksum (repo path : string) (a : ChecksumAlgo) (body : bytes) : handler MavenResponse :=
  declared ← st_lift (parse_sidecar a body);
  main_path ← st_lift (ok_or (strip_suffix ("." ++ ChecksumAlgo.extension a) path) (InvalidPath "sidecar without algo suffix"));
  s ← st_get;
  _ ← match layout s !! build_key repo main_path with
      | Some d =>
        b ← on_mblobs (bs_get d);
        actual ← st_lift (ok_or (compute_checksum a b) (MvChecksumMismatch ("cannot compute " ++ ChecksumAlgo.debug a)));
        if negb (bool_decide (actual = declared))
        then st_throw (MvChecksumMismatch ("declared " ++ declared ++ ", actual " ++ actual)) else mret tt
      | None => mret tt
      end;
  let d := Digest.sha256_of body in
  _ ← on_mblobs (bs_put d body);
  _ ← insert_layout (build_key repo path) d;
  mret (mkMResp 201 [] stored).

Definition put_metadata (repo : string) (l : LayoutPath) (version_level : bool) (body : bytes) : handler MavenResponse :=
  xml ← st_lift (ok_or (from_utf8 body) (InvalidMetadata "metadata body is not UTF-8"));
  md ← st_lift (MavenMetadata.from_xml xml);
  let base := if version_level then Some (base_version (version (coordinate l))) else None in
  _ ← insert_metadata (repo, Coordinate.group_path (coordinate l), artifact_id (coordinate l), base) md;
  mret (mkMResp 201 [] stored).

Definition handle_put (repo path : string) (body : bytes) (now : Clock) : handler MavenResponse :=
  l ← st_lift (parse_layout_path path);
  match class l with
  | Artifact => put_artifact repo path l body now
  | Checksum a => put_checksum repo path a body
  | Metadata version_level _ => put_metadata repo l version_level body
  end.

(** ** DELETE: one critical section under the layout lock *)

Definition handle_delete (repo path : string) : handler MavenResponse :=
  s ← st_get;
  let key := build_key repo path in
  d ← st_lift (ok_or (layout s !! key) (MvNotFound path));
  _ ← st_modify (fun s => mkMaven (mblobs s) (delete key (layout s)) (metadata s) (snapshot_counter s));
  s ← st_get;
  let still_referenced := existsb (fun x => bool_decide (x = d)) (snd <$> map_to_list (layout s)) in
  _ ← (if negb still_referenced then on_mblobs (bs_delete d) else mret tt);
  mret (mkMResp 204 [] []).

(** ** Routes *)

Definition MAX_ARTIFACT_BODY_BYTES : Z := 256 * 1024 * 1024.

Inductive MavenRequest :=
| MGet (repo path : string)
| MHead (repo path : string)
| MPut (repo path : string) (body : bytes) (now : Clock)
| MDelete (repo path : string).

Definition maven_router (r : MavenRequest) : handler MavenResponse :=
  match r with
  | MGet repo path => handle_get repo path
  | MHead repo path => handle_head repo path
  | MPut repo path body now =>
    if (MAX_ARTIFACT_BODY_BYTES <? zlen body)%Z then mret (mkMResp 413 [] []) else handle_put repo path body now
  | MDelete repo path => handle_delete repo path
  end.

(** A sequence of requests, one after the other: the state it ends in. *)
Definition run_maven (rs : list MavenRequest) (s : MavenState St) : MavenState St :=
  fold_left (fun s r => fst (maven_router r s)) rs s.

End Handlers.
