(* ===== verification/MavenProps.v ===== *)
(** * What each Maven handler keeps

    The invariant of the repository, triples for every handler against it, and
    what any sequence of requests leaves. *)

From S2P Require Import Prelude Str Frame Net Json Http Digest BlobStore MavenCoordinate MavenLayout MavenPaths MavenXml MavenHandlers.

(** ** The Maven repository's invariant

    What each handler keeps, over any blob store that satisfies
    [BlobStoreLaws] and whatever fails in it: every registered path has its
    blob stored, and the paths a request does not name keep their digests. *)

Local Open Scope string_scope.

(** ** Timestamped builds *)

Section Timestamp.
Context `{C : Chrono} {CL : ChronoLaws C}.

Fixpoint count_char (k : ascii) (s : string) : nat :=
  match s with "" => O | String c s => ((if Ascii.eqb c k then 1 else 0) + count_char k s)%nat end.

Lemma count_char_app k a b : count_char k (a ++ b) = (count_char k a + count_char k b)%nat.
Proof. induction a as [|c a IH]; [reflexivity|]. rewrite str_app_cons. cbn [count_char]. rewrite IH. lia. Qed.

Lemma metadata_name_hyphens f kind : maven_metadata_suffix f = Some kind -> count_char "-" f = 1%nat.
Proof.
  unfold maven_metadata_suffix. case_bool_decide as Hf; [intros _; subst f; reflexivity|].
  destruct (strip_prefix "maven-metadata.xml." f) as [r|] eqn:E; [|discriminate]. cbn [mbind option_bind].
  destruct (ChecksumAlgo.from_extension r) as [a|] eqn:Ea; [|discriminate]. intros _.
  apply strip_prefix_app in E as ->. apply extension_inv in Ea as ->. rewrite count_char_app. destruct a; reflexivity.
Qed.

Lemma snapshot_base v : is_snapshot_version v = true -> v = base_version v ++ "-SNAPSHOT".
Proof.
  unfold is_snapshot_version, base_version. destruct (strip_suffix "-SNAPSHOT" v) as [b|] eqn:E.
  - intros _. apply strip_suffix_iff, E.
  - unfold strip_suffix in E. intros Hs. rewrite Hs in E. discriminate.
Qed.

Lemma strip_same_prefix p a b : strip_prefix (p ++ a) (p ++ b) = strip_prefix a b.
Proof.
  induction p as [|c p IH]; [reflexivity|]. rewrite !str_app_cons. cbn [strip_prefix]. rewrite Ascii.eqb_refl. exact IH.
Qed.

(** The file name of a timestamped build does not carry the snapshot's version. *)
Lemma timestamped_filename c now n :
  is_snapshot_version (version c) = true -> forall x,
  strip_prefix (artifact_id c ++ "-" ++ version c) (artifact_id c ++ "-" ++ compose_version now (version c) n ++ x) = None.
Proof using CL.
  intros Hs x. rewrite (snapshot_base _ Hs) at 1. unfold compose_version. rewrite !str_app_assoc.
  rewrite !strip_same_prefix. destruct (dotted_first now) as (d & r & -> & Hd).
  change ("-SNAPSHOT") with ("-" ++ "SNAPSHOT"). rewrite strip_same_prefix. rewrite str_app_cons. cbn [strip_prefix].
  destruct (Ascii.eqb_spec "S" d) as [<-|]; [discriminate Hd|reflexivity].
Qed.

Definition timestamped (c : Coordinate) (now n : Z) : Coordinate :=
  mkCoordinate (group_id c) (artifact_id c) (compose_version now (version c) n) (classifier c) (extension c).

Lemma timestamped_rest c now n : exists x,
  Coordinate.filename (timestamped c now n) = artifact_id c ++ "-" ++ compose_version now (version c) n ++ x.
Proof. unfold Coordinate.filename, timestamped. cbn. destruct (classifier c) as [k|]; eexists; reflexivity. Qed.

(** No layout path is the one a timestamped build is stored under. *)
Lemma timestamped_rejected c now n :
  coordinate_ok c -> no_slash (artifact_id c) = true -> no_slash (version c) = true -> no_slash (Coordinate.filename (timestamped c now n)) = true ->
  is_snapshot_version (version c) = true ->
  exists msg, parse_layout_path (timestamped_path c (timestamped c now n)) = Err (InvalidPath msg).
Proof using CL.
  intros Hok Sa Sv Sf Hs. set (f := Coordinate.filename (timestamped c now n)) in *.
  assert (Hne : forall s, field_ok s -> nonempty s = true) by (intros s (H0 & _); apply negb_true_iff, bool_decide_eq_false, H0).
  assert (Hnf : nonempty f = true) by (rewrite <- (str_app_nil_r f); apply nonempty_filename).
  pose proof (segments_repository (Coordinate.group_path c) _ _ f (Hne _ (ok_artifact c Hok)) (Hne _ (ok_version c Hok)) Hnf Sa Sv Sf) as Hseg.
  destruct (timestamped_rest c now n) as [x Hx]. fold f in Hx.
  assert (Hm : maven_metadata_suffix f = None).
  { destruct (maven_metadata_suffix f) as [kind|] eqn:E; [|reflexivity]. apply metadata_name_hyphens in E. exfalso. revert E.
    rewrite Hx. unfold compose_version. rewrite !count_char_app. cbn. lia. }
  fold (timestamped_path c (timestamped c now n)) in *. unfold timestamped_path. fold f.
  set (gs := List.filter nonempty (split "/" (Coordinate.group_path c))) in *. destruct gs as [|g gs].
  { unfold parse_layout_path. rewrite Hseg. cbn [app length Nat.ltb Nat.leb last ok_or mbind outcome_bind]. rewrite Hm. eauto. }
  rewrite (parse_segments _ (g :: gs) _ _ _ Hseg ltac:(discriminate) Hm). destruct (strip_checksum_suffix f) as [s ck] eqn:Ef.
  unfold split_filename. destruct (strip_prefix (artifact_id c ++ "-" ++ version c) s) as [r|] eqn:Er; [|cbn; eauto]. exfalso.
  apply strip_prefix_app in Er as ->. apply strip_checksum_inv in Ef.
  assert (Hp : exists t, f = (artifact_id c ++ "-" ++ version c) ++ t)
    by (destruct ck; [eexists; rewrite Ef; apply str_app_assoc|eexists; exact Ef]).
  destruct Hp as [t Ht]. apply strip_prefix_app in Ht. rewrite Hx, timestamped_filename in Ht by exact Hs. discriminate.
Qed.

End Timestamp.

(** ** The invariant *)

Section Invariant.
Context `{H : Hashing} {HL : HashingLaws H} `{S1 : Sha1Lib} `{C : Chrono} {CL : ChronoLaws C} `{X : QuickXml} `{L : HttpLib}
  {St : Type} `{BS : BlobStore St} {BL : BlobStoreLaws St}.

Definition stored_in (b : St) (d : Digest) : Prop := Digest.valid d /\ is_Some (bs_view b d).

(** Every registered path has its blob. *)
Record maven_ok (s : MavenState St) : Prop := {
  mo_store : bs_ok (mblobs s);
  mo_layout : map_Forall (fun _ d => stored_in (mblobs s) d) (layout s);
}.

(** The invariant a handler works under: build numbers up to [M], the paths of
    [pins] as they were, and the blob [od], if any, stored. *)
Record minv (M : Z) (pins : gmap string Digest) (od : option Digest) (s : MavenState St) : Prop := {
  mi_ok : maven_ok s;
  mi_counters : map_Forall (fun _ n => 0 <= n <= M)%Z (snapshot_counter s);
  mi_pins : pins ⊆ layout s;
  mi_stored : match od with Some d => stored_in (mblobs s) d | None => True end;
}.

Lemma minv_forget M pins od s : minv M pins od s -> minv M pins None s.
Proof. intros [H1 H2 H3 _]. split; auto. Qed.

Lemma minv_mono M M' pins od s : (M <= M')%Z -> minv M pins od s -> minv M' pins od s.
Proof. intros Hle [H1 H2 H3 H4]. split; auto. intros k n Hn. specialize (H2 k n Hn). cbn in *. lia. Qed.

(** The store changes and loses nothing. *)
Lemma minv_store M pins od s b : bs_ok b ->
  (forall e, Digest.valid e -> is_Some (bs_view (mblobs s) e) -> is_Some (bs_view b e)) ->
  minv M pins od s -> minv M pins od (mkMaven b (layout s) (metadata s) (snapshot_counter s)).
Proof.
  intros Hb Hmono [[H1 H1'] H2 H3 H4].
  assert (Hs : forall d, stored_in (mblobs s) d -> stored_in b d) by (intros d [Hv Hd]; split; auto).
  split; [split; [exact Hb|]|exact H2|exact H3|].
  - intros k d Hd. apply Hs. exact (H1' k d Hd).
  - destruct od; [apply Hs; exact H4|exact I].
Qed.

Lemma put_triple M pins d b : Digest.valid d ->
  st_triple (minv M pins None) (on_mblobs (bs_put d b)) (fun _ => minv M pins (Some d)) (minv M pins None).
Proof using BL.
  intros Hd s Hs. unfold on_mblobs. destruct (bs_put d b (mblobs s)) as [b' o] eqn:E.
  destruct (put_keeps_view d b _ _ _ (mo_store s (mi_ok _ _ _ _ Hs)) Hd E) as (Hb & Hp & Hst & Hmono).
  pose proof (minv_store M pins None s b' Hb Hmono Hs) as Hi.
  destruct o as [[]|e|]; cbn [map_err]; [|exact Hi|contradiction].
  destruct Hi as [I1 I2 I3 _]. split; auto. split; [exact Hd|exact (Hst eq_refl)].
Qed.

Lemma get_triple M pins d (P : MavenState St -> Prop) :
  (forall s, P s -> minv M pins None s /\ Digest.valid d) ->
  st_triple P (on_mblobs (bs_get d)) (fun _ => minv M pins None) (minv M pins None).
Proof using BL.
  intros HP s Hs. destruct (HP s Hs) as [Hi Hd]. unfold on_mblobs.
  destruct (get_spec (mblobs s) d (mo_store s (mi_ok _ _ _ _ Hi)) Hd) as (G1 & G2 & G3).
  destruct (bs_get d (mblobs s)) as [b o]. cbn [fst snd] in *.
  assert (Hi' : minv M pins None (mkMaven b (layout s) (metadata s) (snapshot_counter s))).
  { apply minv_store; [exact G1| |exact Hi]. intros e He. rewrite G2 by exact He. auto. }
  destruct o as [c|e|]; cbn [map_err]; [exact Hi'|exact Hi'|contradiction].
Qed.

Lemma insert_layout_triple M pins k d : pins !! k = None ->
  st_triple (minv M pins (Some d)) (insert_layout k d) (fun _ => minv M pins (Some d)) (minv M pins None).
Proof.
  intros Hk s [[H1 H1'] H2 H3 H4]. cbn. split; cbn [mblobs layout snapshot_counter]; [split; [exact H1|]|exact H2| |exact H4].
  - apply map_Forall_insert_2; [exact H4|exact H1'].
  - apply insert_subseteq_r; assumption.
Qed.

Lemma insert_metadata_triple M pins od k md :
  st_triple (minv M pins od) (insert_metadata k md) (fun _ => minv M pins od) (minv M pins None).
Proof. intros s [[H1 H1'] H2 H3 H4]. cbn. split; cbn [mblobs layout snapshot_counter]; auto. split; assumption. Qed.

Lemma next_build_triple M pins od k : (0 <= M < U32_MAX)%Z ->
  st_triple (minv M pins od) (next_build k) (fun _ => minv (M + 1) pins od) (minv (M + 1) pins None).
Proof.
  intros HM s [[H1 H1'] H2 H3 H4]. unfold next_build. run_st.
  assert (Hn : (0 <= default 0 (snapshot_counter s !! k) <= M)%Z).
  { destruct (snapshot_counter s !! k) as [n|] eqn:E; cbn; [exact (H2 k n E)|lia]. }
  destruct (Z.ltb_spec U32_MAX (default 0 (snapshot_counter s !! k) + 1)%Z) as [Hbig|_]; [lia|].
  split; cbn [mblobs layout snapshot_counter]; auto; [split; assumption|].
  apply map_Forall_insert_2; [lia|]. intros j n Hj. specialize (H2 j n Hj). cbn in *. lia.
Qed.

(** A step that cannot fail or panic, given what it needs of the state. *)
Lemma lift_triple {A} M pins od (o : outcome MavenError A) : o <> Panic ->
  st_triple (minv M pins od) (st_lift o) (fun a s => o = Ok a /\ minv M pins od s) (minv M pins None).
Proof. intros Ho. apply triple_lift; [exact Ho|apply minv_forget]. Qed.

(** ** Handlers *)

Lemma coordinate_new_total g a v k e : coordinate_or (Coordinate.new g a v k e) <> Panic.
Proof.
  unfold coordinate_or, Coordinate.new. intros Hp. revert Hp.
  repeat match goal with |- context [validate_field ?n ?s] =>
    let E := fresh in pose proof (validate_field_total n s) as E; destruct (validate_field n s); cbn [mbind outcome_bind]; try discriminate; try congruence end.
  destruct k as [k|]; [pose proof (validate_field_total "classifier" k) as E; destruct (validate_field "classifier" k)|]; cbn; congruence.
Qed.

Lemma parse_layout_total p : parse_layout_path p <> Panic.
Proof.
  destruct (decide (length (segments_of p) < 3)%nat) as [Hl|Hl].
  { unfold parse_layout_path. rewrite (proj2 (Nat.ltb_lt _ _) Hl). discriminate. }
  pose proof coordinate_new_total as Hnew.
  destruct (last_three (segments_of p) ltac:(lia)) as (gs & a & v & f & Hs).
  destruct (maven_metadata_suffix f) as [kind|] eqn:Hm.
  - unfold parse_layout_path. rewrite Hs, last_app_cons. destruct (_ <? _)%nat; [discriminate|].
    cbn [last ok_or mbind outcome_bind]. rewrite Hm. unfold classify_metadata. destruct (_ <? _)%nat; [discriminate|]. cbv zeta.
    set (bf := take _ _). destruct (Nat.leb_spec 3 (length bf)) as [Hb|Hb].
    + destruct (lookup_lt_is_Some_2 bf (length bf - 2) ltac:(lia)) as [x Hx]. rewrite Hx.
      destruct (_ && _); apply bind_total; try discriminate; try apply Hnew; intros y; try discriminate.
      apply bind_total; [apply Hnew|discriminate].
    + rewrite andb_false_r. apply bind_total; [apply Hnew|discriminate].
  - destruct gs as [|g gs].
    + unfold parse_layout_path. rewrite Hs. cbn [app length Nat.ltb Nat.leb last ok_or mbind outcome_bind]. rewrite Hm. discriminate.
    + rewrite (parse_segments p (g :: gs) a v f Hs ltac:(discriminate) Hm). destruct (strip_checksum_suffix f) as [s ck].
      apply bind_total; [|intros [k e]; apply bind_total; [apply Hnew|discriminate]].
      unfold split_filename. apply bind_total; [apply ok_or_total|]. intros r. destruct (strip_prefix "-" r).
      * apply bind_total; [apply ok_or_total|]. intros [x y]. discriminate.
      * destruct (strip_prefix "." r); discriminate.
Qed.

Lemma panic_safe_total {A} (r : xml_result A) f : from_str_panic_safe r f <> Panic.
Proof. destruct r; discriminate. Qed.

Lemma parse_pom_total x : parse_pom x <> Panic.
Proof. unfold parse_pom. apply bind_total; [apply panic_safe_total|]. intros raw. repeat case_bool_decide; discriminate. Qed.

Lemma from_xml_total x : MavenMetadata.from_xml x <> Panic.
Proof. unfold MavenMetadata.from_xml. apply bind_total; [apply panic_safe_total|]. intros raw. case_match; discriminate. Qed.

Lemma check_pom_total c b : check_pom c b <> Panic.
Proof.
  unfold check_pom. case_bool_decide; [|discriminate]. apply bind_total; [apply ok_or_total|]. intros t.
  apply bind_total; [apply parse_pom_total|]. intros p. case_match; discriminate.
Qed.

Lemma parse_sidecar_total a b : parse_sidecar a b <> Panic.
Proof. unfold parse_sidecar. apply bind_total; [apply ok_or_total|]. intros t. repeat case_match; discriminate. Qed.

(** The pinned paths are layout paths of plain repositories. *)
Definition pins_ok (pins : gmap string Digest) : Prop :=
  forall k d, pins !! k = Some d -> exists repo path l, k = build_key repo path /\ no_slash repo = true /\ parse_layout_path path = Ok l.

Lemma build_key_inj r p r' p' : no_slash r = true -> no_slash r' = true -> build_key r p = build_key r' p' -> r = r' /\ p = p'.
Proof.
  unfold build_key. intros Hr Hr' Heq. apply (f_equal (split_once "/")) in Heq.
  change ("/" ++ p) with (String "/" p) in Heq. change ("/" ++ p') with (String "/" p') in Heq.
  rewrite !split_once_app in Heq by assumption. injection Heq as -> ->. auto.
Qed.

(** A timestamped build takes no pinned path. *)
Lemma timestamped_unpinned pins repo path c now n :
  pins = ∅ \/ (pins_ok pins /\ no_slash repo = true) ->
  parse_layout_path path = Ok (mkLayout c Artifact) -> is_snapshot_version (version c) = true ->
  no_slash (Coordinate.filename (timestamped c now n)) = true ->
  pins !! build_key repo (timestamped_path c (timestamped c now n)) = None.
Proof using CL.
  intros [->|[Hpins Hr]] Hp Hs Hf; [apply lookup_empty|]. destruct (pins !! _) as [d|] eqn:E; [|reflexivity]. exfalso.
  destruct (Hpins _ d E) as (r & p & l & Hk & Hr' & Hl). apply build_key_inj in Hk as [_ <-]; [|exact Hr|exact Hr'].
  destruct (parse_fields path c Artifact Hp) as (Hok & _ & Sa & Sv & _).
  destruct (timestamped_rejected c now n Hok Sa Sv Hf Hs) as [msg Hm]. congruence.
Qed.

End Invariant.

Create HintDb maven.
#[export] Hint Resolve parse_layout_total parse_pom_total from_xml_total check_pom_total parse_sidecar_total ok_or_total : maven.

(** ** Requests and their sequences *)

Local Open Scope string_scope.

Section Handlers.
Context `{H : Hashing} {HL : HashingLaws H} `{S1 : Sha1Lib} `{C : Chrono} {CL : ChronoLaws C} `{X : QuickXml} `{L : HttpLib}
  {St : Type} `{BS : BlobStore St} {BL : BlobStoreLaws St}.

(** Carry a fact about a value, not about the state, into the rest. *)
Lemma triple_pure {A} (Pure : Prop) (P : MavenState St -> Prop) (m : stm (MavenState St) MavenError A) Q R :
  (Pure -> st_triple P m Q R) -> st_triple (fun s => Pure /\ P s) m Q R.
Proof. intros Hm s [Hp Hs]. exact (Hm Hp s Hs). Qed.

Lemma lift_bind {A B} M pins od (o : outcome MavenError A) (k : A -> stm (MavenState St) MavenError B) Q :
  o <> Panic -> (forall a, o = Ok a -> st_triple (minv M pins od) (k a) Q (minv M pins None)) ->
  st_triple (minv M pins od) (st_lift o ≫= k) Q (minv M pins None).
Proof.
  intros Ho Hk. eapply triple_bind; [apply lift_triple, Ho|]. intros a. apply triple_pure, Hk.
Qed.

(** The digest of a registered path is valid. *)
Lemma layout_get M pins k d (s : MavenState St) : minv M pins None s -> layout s !! k = Some d -> Digest.valid d.
Proof. intros [[_ Hl] _ _ _] Hk. exact (proj1 (Hl k d Hk)). Qed.

(** Reading the blob of a registered path. *)
Lemma get_registered {B} M pins k d (f : bytes -> stm (MavenState St) MavenError B) Q :
  (forall b, st_triple (minv M pins None) (f b) Q (minv M pins None)) ->
  st_triple (fun s => layout s !! k = Some d /\ minv M pins None s) (on_mblobs (bs_get d) ≫= f) Q (minv M pins None).
Proof using BL.
  intros Hf. eapply triple_bind; [|exact Hf].
  apply (get_triple M pins d). intros s [Hk Hs]. split; [exact Hs|exact (layout_get _ _ _ _ _ Hs Hk)].
Qed.

(** Looking a path up. *)
Lemma lookup_bind {B} M pins (k : string) (e : MavenError) (f : Digest -> stm (MavenState St) MavenError B) Q :
  (forall d, st_triple (fun s => layout s !! k = Some d /\ minv M pins None s) (f d) Q (minv M pins None)) ->
  st_triple (minv M pins None) (s ← st_get; d ← st_lift (ok_or (layout s !! k) e); f d) Q (minv M pins None).
Proof.
  intros Hf s Hs. run_st. destruct (layout s !! k) as [d|] eqn:E; cbn [ok_or]; [exact (Hf d s (conj E Hs))|exact Hs].
Qed.

Abbreviation kept M pins := (fun _ => minv M pins None).

Lemma ret_triple {A} M pins (a : A) : st_triple (E := MavenError) (minv M pins None) (mret a) (kept M pins) (minv M pins None).
Proof. apply triple_ret. Qed.

Lemma serve_checksum_triple M pins repo path a wb :
  st_triple (minv M pins None) (serve_checksum repo path a wb) (kept M pins) (minv M pins None).
Proof using BL.
  unfold serve_checksum. intros s Hs. unfold mbind at 1, stm_bind at 1, st_get at 1.
  destruct (layout s !! build_key repo path) as [d|] eqn:E.
  - apply (get_registered M pins (build_key repo path) d _ (kept M pins)); [intros b; apply ret_triple|]. auto.
  - revert s Hs E. enough (Ht : st_triple (minv M pins None) (main_path ← st_lift (ok_or (strip_suffix ("." ++ ChecksumAlgo.extension a) path)
                               (MvNotFound ("sidecar path " ++ path ++ " has no algo suffix")));
      s ← st_get; d ← st_lift (ok_or (layout s !! build_key repo main_path) (MvNotFound path));
      b ← on_mblobs (bs_get d);
      h ← st_lift (ok_or (compute_checksum a b) (MvChecksumMismatch ("cannot compute " ++ ChecksumAlgo.debug a ++ " on the fly")));
      mret (build_sidecar_response h wb)) (kept M pins) (minv M pins None)) by (intros s Hs _; exact (Ht s Hs)).
    apply lift_bind; [apply ok_or_total|]. intros mp _. apply lookup_bind. intros d. apply get_registered. intros b.
    apply lift_bind; [apply ok_or_total|]. intros h _. apply ret_triple.
Qed.

Lemma load_metadata_triple M pins repo l vl :
  st_triple (minv M pins None) (load_metadata_xml repo l vl) (kept M pins) (minv M pins None).
Proof. intros s Hs. unfold load_metadata_xml. run_st. destruct (metadata s !! _); cbn; exact Hs. Qed.

Lemma serve_triple M pins repo path wb : st_triple (minv M pins None) (serve repo path wb) (kept M pins) (minv M pins None).
Proof using BL.
  unfold serve. apply lift_bind; [apply parse_layout_total|]. intros l _. destruct (class l) as [|a|vl [a|]].
  - apply lookup_bind. intros d. apply get_registered. intros b. apply ret_triple.
  - apply serve_checksum_triple.
  - eapply triple_bind; [apply load_metadata_triple|]. intros b. apply lift_bind; [apply ok_or_total|]. intros h _. apply ret_triple.
  - eapply triple_bind; [apply load_metadata_triple|]. intros b. apply ret_triple.
Qed.

(** ** Uploads *)

Lemma filename_fields c : no_slash (Coordinate.filename c) = true ->
  no_slash (extension c) = true /\ match classifier c with Some k => no_slash k = true | None => True end.
Proof.
  unfold Coordinate.filename. destruct (classifier c) as [k|]; rewrite !str_all_app; intros Hf;
    repeat (apply andb_true_iff in Hf as [? Hf]); repeat match goal with Hx : _ && _ = true |- _ => apply andb_true_iff in Hx as [? ?] end; auto.
Qed.

Lemma composed_no_slash now v n : no_slash v = true -> no_slash (compose_version now v n) = true.
Proof using CL.
  intros Hv. unfold compose_version. rewrite !str_all_app. assert (Hb : no_slash (base_version v) = true).
  { unfold base_version. destruct (strip_suffix "-SNAPSHOT" v) as [b|] eqn:E; [|exact Hv].
    apply strip_suffix_iff in E as ->. rewrite str_all_app in Hv. apply andb_true_iff in Hv as [Hv _]. exact Hv. }
  rewrite Hb. assert (Hd : no_slash (format_dotted now) = true).
  { pose proof (dotted_chars now) as Hc. revert Hc. apply str_all_impl. intros c Hc. apply not_char_true. intros ->. discriminate Hc. }
  rewrite Hd. assert (Hn : no_slash (display_u64 n) = true).
  { pose proof (proj2 (display_u64_digits n)) as Hc. revert Hc. apply str_all_impl. intros c Hc. apply not_char_true. intros ->. discriminate Hc. }
  rewrite Hn. reflexivity.
Qed.

Lemma timestamped_no_slash path c cl now n : parse_layout_path path = Ok (mkLayout c cl) ->
  no_slash (Coordinate.filename (timestamped c now n)) = true.
Proof using CL.
  intros Hp. destruct (parse_fields path c cl Hp) as (_ & _ & Sa & Sv & Sf). destruct (filename_fields c Sf) as [Se Sk].
  unfold Coordinate.filename, timestamped. cbn [classifier artifact_id version extension].
  destruct (classifier c) as [k|]; rewrite !str_all_app, Sa, Se, (composed_no_slash now _ n Sv); [rewrite Sk|]; reflexivity.
Qed.

(** Who may write: the request's own path is not pinned, and its repository is
    plain when something is. *)
Definition may_write (pins : gmap string Digest) (repo path : string) : Prop :=
  (pins = ∅ \/ (pins_ok pins /\ no_slash repo = true)) /\ pins !! build_key repo path = None.

Lemma register_snapshot_triple M pins repo path c d now : (0 <= M < U32_MAX)%Z -> may_write pins repo path ->
  parse_layout_path path = Ok (mkLayout c Artifact) -> is_snapshot_version (version c) = true ->
  st_triple (minv M pins (Some d)) (register_snapshot_timestamped repo (mkLayout c Artifact) d now)
    (fun _ => minv (M + 1) pins (Some d)) (minv (M + 1) pins None).
Proof using CL.
  intros HM [Hw _] Hp Hs. unfold register_snapshot_timestamped. cbn [coordinate]. eapply triple_bind; [apply next_build_triple, HM|]. intros n.
  apply lift_bind; [apply coordinate_new_total|]. intros ts Hts. assert (ts = timestamped c (at_build now) n) as ->.
  { unfold coordinate_or in Hts. destruct (Coordinate.new _ _ _ _ _) as [x|x|] eqn:E; try discriminate. apply new_iff in E as [-> _]. cbn in Hts. injection Hts as <-. reflexivity. }
  eapply triple_bind; [apply insert_layout_triple|].
  - exact (timestamped_unpinned pins repo path c (at_build now) n Hw Hp Hs (timestamped_no_slash _ _ _ _ _ Hp)).
  - intros ?. apply insert_metadata_triple.
Qed.

Lemma regenerate_triple M pins od repo l now :
  st_triple (minv M pins od) (regenerate_artifact_index repo l now) (fun _ => minv M pins od) (minv M pins None).
Proof. intros s Hs. exact (insert_metadata_triple M pins od _ _ s Hs). Qed.

Lemma register_triple M pins repo path c d now : (0 <= M < U32_MAX)%Z -> may_write pins repo path ->
  parse_layout_path path = Ok (mkLayout c Artifact) ->
  st_triple (minv M pins (Some d)) (register_artifact repo path (mkLayout c Artifact) d now)
    (kept (M + 1) pins) (minv (M + 1) pins None).
Proof using CL.
  intros HM Hw Hp. unfold register_artifact. cbn [coordinate].
  apply triple_bind with (Q := fun _ => minv (M + 1) pins (Some d)).
  - destruct (is_snapshot_version (version c)) eqn:Hs; [exact (register_snapshot_triple M pins repo path c d now HM Hw Hp Hs)|].
    intros s Hm. cbn. apply (minv_mono M); [lia|exact Hm].
  - intros ?. eapply triple_bind; [apply insert_layout_triple, (proj2 Hw)|]. intros ?. eapply triple_bind; [apply regenerate_triple|].
    intros ? s Hm. exact (minv_forget _ _ _ _ Hm).
Qed.

Lemma put_artifact_triple M pins repo path c body now : (0 <= M < U32_MAX)%Z -> may_write pins repo path ->
  parse_layout_path path = Ok (mkLayout c Artifact) ->
  st_triple (minv M pins None) (put_artifact repo path (mkLayout c Artifact) body now) (kept (M + 1) pins) (minv (M + 1) pins None).
Proof using HL CL BL.
  intros HM Hw Hp. unfold put_artifact. apply triple_bind with (Q := fun d => minv M pins (Some d)).
  - unfold store_artifact. eapply triple_weaken with (R := minv M pins None);
      [|intros s Hs; exact Hs|intros a s Hs; exact Hs|intros s Hs; apply (minv_mono M); [lia|exact Hs]].
    apply lift_bind; [apply check_pom_total|]. intros u _. eapply triple_bind; [apply put_triple, Digest.sha256_of_valid|]. intros ? s Hs. exact Hs.
  - intros d. apply register_triple; assumption.
Qed.

Lemma put_checksum_triple M pins repo path a body : may_write pins repo path ->
  st_triple (minv M pins None) (put_checksum repo path a body) (kept M pins) (minv M pins None).
Proof using HL BL.
  intros Hw. unfold put_checksum. apply lift_bind; [apply parse_sidecar_total|]. intros declared _.
  apply lift_bind; [apply ok_or_total|]. intros mp _.
  apply triple_bind with (Q := fun s0 s => s0 = s /\ minv M pins None s); [apply triple_get|]. intros s0.
  apply triple_bind with (Q := kept M pins).
  - destruct (layout s0 !! build_key repo mp) as [d|] eqn:E; [|intros s [_ Hs]; exact Hs].
    eapply triple_weaken with (P := fun s => layout s !! build_key repo mp = Some d /\ minv M pins None s)
      (Q := kept M pins) (R := minv M pins None); [|intros s [<- Hs]; auto|auto|auto].
    apply get_registered. intros b. apply lift_bind; [apply ok_or_total|]. intros h _.
    destruct (negb _); [apply triple_throw; auto|apply ret_triple].
  - intros ?. eapply triple_bind; [apply put_triple, Digest.sha256_of_valid|]. intros ?.
    eapply triple_bind; [apply insert_layout_triple, (proj2 Hw)|]. intros ? s Hm. exact (minv_forget _ _ _ _ Hm).
Qed.

Lemma put_metadata_triple M pins repo l vl body :
  st_triple (minv M pins None) (put_metadata repo l vl body) (kept M pins) (minv M pins None).
Proof.
  unfold put_metadata. apply lift_bind; [apply ok_or_total|]. intros x _. apply lift_bind; [apply from_xml_total|]. intros md _.
  eapply triple_bind; [apply insert_metadata_triple|]. intros ?. apply ret_triple.
Qed.

Lemma triple_grow {A} M pins (m : stm (MavenState St) MavenError A) :
  st_triple (minv M pins None) m (kept M pins) (minv M pins None) ->
  st_triple (minv M pins None) m (kept (M + 1) pins) (minv (M + 1) pins None).
Proof. intros Hm. eapply triple_weaken; [exact Hm|auto|intros ?|]; intros s; apply minv_mono; lia. Qed.

Lemma put_handler_triple M pins repo path body now : (0 <= M < U32_MAX)%Z -> may_write pins repo path ->
  st_triple (minv M pins None) (handle_put repo path body now) (kept (M + 1) pins) (minv (M + 1) pins None).
Proof using HL CL BL.
  intros HM Hw s Hs. unfold handle_put. unfold mbind at 1, stm_bind at 1, st_lift at 1. pose proof (parse_layout_total path) as Ht.
  destruct (parse_layout_path path) as [[c cl]|e|] eqn:E; [|apply (minv_mono M); [lia|exact Hs]|contradiction].
  cbn [class]. destruct cl as [|a|vl o].
  - exact (put_artifact_triple M pins repo path c body now HM Hw E s Hs).
  - exact (triple_grow M pins _ (put_checksum_triple M pins repo path a body Hw) s Hs).
  - exact (triple_grow M pins _ (put_metadata_triple M pins repo _ vl body) s Hs).
Qed.

(** ** Deletes *)

Lemma delete_handler_triple M pins repo path : pins !! build_key repo path = None ->
  st_triple (minv M pins None) (handle_delete repo path) (kept M pins) (minv M pins None).
Proof using BL.
  intros Hk s Hs. unfold handle_delete. run_st. destruct (layout s !! build_key repo path) as [d|] eqn:E; cbn [ok_or]; [|exact Hs].
  cbn [layout mblobs metadata snapshot_counter]. set (lay := delete (build_key repo path) (layout s)).
  destruct Hs as [[S1' S2] H2 H3 _]. pose proof (proj1 (S2 _ d E)) as Hd.
  assert (Hsub : pins ⊆ lay). { unfold lay. rewrite <- (delete_id pins (build_key repo path)) by exact Hk. apply delete_mono, H3. }
  assert (Hlay : map_Forall (fun _ x => stored_in (mblobs s) x) lay) by (intros k x Hx; apply lookup_delete_Some in Hx as [_ Hx]; exact (S2 k x Hx)).
  destruct (existsb _ _) eqn:Eref; cbn [negb].
  - split; cbn [mblobs layout snapshot_counter]; auto. split; [exact S1'|exact Hlay].
  - unfold on_mblobs. cbn [mblobs layout metadata snapshot_counter]. destruct (delete_spec (mblobs s) d S1' Hd) as (D1 & D2 & D3).
    destruct (bs_delete d (mblobs s)) as [b o]. cbn [fst snd] in *.
    assert (Hi : minv M pins None (mkMaven b lay (metadata s) (snapshot_counter s))).
    { split; cbn [mblobs layout snapshot_counter]; auto. split; [exact D1|]. intros k x Hx. destruct (Hlay k x Hx) as [Hv Hin].
      split; [exact Hv|]. cbn [mblobs]. rewrite D2; [exact Hin|exact Hv|]. intros ->. apply not_true_iff_false in Eref. apply Eref, existsb_exists.
      exists d. split; [|apply bool_decide_eq_true; reflexivity]. apply list_elem_of_In, list_elem_of_fmap. exists (k, d).
      split; [reflexivity|]. apply elem_of_map_to_list, Hx. }
    destruct o as [u|e|]; cbn [map_err]; [exact Hi|exact Hi|contradiction].
Qed.

(** ** Requests *)

(** A request leaves the pinned paths alone. *)
Definition leaves (pins : gmap string Digest) (r : MavenRequest) : Prop :=
  match r with
  | MGet _ _ | MHead _ _ => True
  | MPut repo path _ _ => may_write pins repo path
  | MDelete repo path => pins !! build_key repo path = None
  end.

Lemma router_triple M pins r : (0 <= M < U32_MAX)%Z -> leaves pins r ->
  st_triple (minv M pins None) (maven_router r) (kept (M + 1) pins) (minv (M + 1) pins None).
Proof using HL CL BL.
  intros HM Hl. destruct r; cbn [maven_router leaves] in *.
  - apply triple_grow, serve_triple.
  - apply triple_grow, serve_triple.
  - destruct (_ <? _)%Z; [apply triple_grow, ret_triple|]. apply put_handler_triple; assumption.
  - apply triple_grow, delete_handler_triple, Hl.
Qed.

Lemma run_maven_keeps rs : forall M pins s, minv M pins None s -> (0 <= M)%Z -> (M + zlen rs <= U32_MAX)%Z -> Forall (leaves pins) rs ->
  minv (M + zlen rs) pins None (run_maven rs s).
Proof using HL CL BL.
  induction rs as [|r rs IH]; intros M pins s Hs H0 HM Hl.
  - rewrite zlen_nil, Z.add_0_r. exact Hs.
  - rewrite zlen_cons in *. apply Forall_cons in Hl as [Hr Hl]. pose proof (zlen_nonneg rs).
    replace (M + (1 + zlen rs))%Z with ((M + 1) + zlen rs)%Z by lia. apply (IH (M + 1)%Z pins); [|lia|lia|exact Hl].
    pose proof (router_triple M pins r ltac:(lia) Hr s Hs) as Ht. destruct (maven_router r s) as [s' [a|e|]]; [exact Ht|exact Ht|contradiction].
Qed.

End Handlers.
