(* ===== verification/MavenTheorems.v ===== *)
(** * What the Maven repository promises

    The claims about whole requests and sequences of requests, and the
    behaviours that fall short of the crate's documentation. *)

From S2P Require Import Prelude Str Frame Net Json Http Digest BlobStore MavenCoordinate MavenLayout MavenPaths MavenXml MavenHandlers MavenProps.

Local Open Scope string_scope.

(** ** Sorting and deduplicating *)






(** ** What an acknowledged upload leaves *)

Section Upload.
Context `{H : Hashing} {HL : HashingLaws H} `{S1 : Sha1Lib} `{C : Chrono} {CL : ChronoLaws C} `{X : QuickXml} `{L : HttpLib}
  {St : Type} `{BS : BlobStore St} {BL : BlobStoreLaws St}.

Definition index_key (repo : string) (c : Coordinate) : MetadataKey := (repo, Coordinate.group_path c, artifact_id c, None).

Definition version_prefix (repo : string) (c : Coordinate) : string :=
  repo ++ "/" ++ Coordinate.group_path c ++ "/" ++ artifact_id c ++ "/".

Lemma upload_acknowledged repo path body now c (s s' : MavenState St) resp :
  parse_layout_path path = Ok (mkLayout c Artifact) -> handle_put repo path body now s = (s', Ok resp) ->
  mstatus resp = 201%Z /\ layout s' !! build_key repo path = Some (Digest.sha256_of body) /\
  metadata s' !! index_key repo c =
    Some (MavenMetadata.artifact_index (group_id c) (artifact_id c) (known_versions (version_prefix repo c) (layout s')) (at_index now)) /\
  (is_snapshot_version (version c) = true -> exists n,
    layout s' !! build_key repo (timestamped_path c (timestamped c (at_build now) n)) = Some (Digest.sha256_of body) /\
    metadata s' !! (repo, Coordinate.group_path c, artifact_id c, Some (base_version (version c))) =
      Some (MavenMetadata.snapshot_metadata (group_id c) (artifact_id c) (version c) (mkSnapshot (format_dotted (at_build now)) n)
              [mkSnapshotVersion (classifier c) (extension c) (compose_version (at_build now) (version c) n) (format_plain (at_updated now))]
              (at_snapshot now))).
Proof.
  intros Hp. unfold handle_put. unfold mbind at 1, stm_bind at 1, st_lift at 1. rewrite Hp. cbn [class].
  unfold put_artifact, store_artifact. run_st. destruct (check_pom _ body) as [u|e|]; try discriminate.
  destruct (on_mblobs (bs_put (Digest.sha256_of body) body) s) as [s1 [u1|e|]]; try discriminate. cbn [coordinate].
  unfold register_artifact. run_st. cbn [coordinate]. destruct (is_snapshot_version (version c)) eqn:Hs.
  - unfold register_snapshot_timestamped, next_build. run_st. cbn [coordinate].
    destruct (U32_MAX <? default 0 (snapshot_counter s1 !! _) + 1)%Z; [discriminate|]. set (n := (default 0 (snapshot_counter s1 !! _) + 1)%Z).
    destruct (coordinate_or _) as [ts|e|] eqn:Ec; try discriminate.
    assert (ts = timestamped c (at_build now) n) as ->.
    { unfold coordinate_or in Ec. destruct (Coordinate.new _ _ _ _ _) as [x|x|] eqn:E; try discriminate. apply new_iff in E as [-> _].
      cbn in Ec. injection Ec as <-. reflexivity. }
    unfold insert_layout, insert_metadata, regenerate_artifact_index, insert_metadata. run_st.
    cbn [layout metadata mblobs snapshot_counter coordinate]. intros [= <- <-]. cbn [layout metadata mstatus].
    split_and!; [reflexivity|apply lookup_insert_eq|apply lookup_insert_eq|]. intros _. exists n. split.
    + destruct (decide (build_key repo path = build_key repo (timestamped_path c (timestamped c (at_build now) n)))) as [<-|Hne];
        [apply lookup_insert_eq|]. rewrite lookup_insert_ne by exact Hne. apply lookup_insert_eq.
    + unfold index_key. rewrite lookup_insert_ne by congruence. apply lookup_insert_eq.
  - unfold insert_layout, regenerate_artifact_index, insert_metadata. run_st.
    cbn [layout metadata mblobs snapshot_counter coordinate]. intros [= <- <-]. cbn [layout metadata mstatus].
    split_and!; [reflexivity|apply lookup_insert_eq|apply lookup_insert_eq|discriminate].
Qed.

(** Serving a registered artifact. *)
Lemma serve_registered M pins repo path c d (s : MavenState St) :
  minv M pins None s -> parse_layout_path path = Ok (mkLayout c Artifact) -> layout s !! build_key repo path = Some d ->
  (exists b, snd (handle_get repo path s) = Ok (build_artifact_response c d b true) /\ bs_view (mblobs s) d = Some b) \/
  (exists e, snd (handle_get repo path s) = Err (MvStorage e) /\ ~ bs_quiet (mblobs s) /\ forall x, e <> NotFound x).
Proof using BL.
  intros Hs Hp Hk. unfold handle_get, serve. run_st. rewrite Hp. cbn [class]. rewrite Hk. cbn [ok_or].
  destruct (mi_ok _ _ _ _ Hs) as [Hb Hl]. destruct (Hl _ d Hk) as [Hd [b Hv]].
  destruct (get_spec (mblobs s) d Hb Hd) as (_ & _ & G). pose proof (get_quiet (mblobs s) d Hb) as Hq. unfold on_mblobs.
  destruct (bs_get d (mblobs s)) as [b' o]. cbn [fst snd] in *. destruct o as [x|e|]; cbn [map_err]; [| |contradiction].
  - left. exists x. split; [reflexivity|exact G].
  - right. exists e. split; [reflexivity|]. split.
    + intros Hqq. destruct (Hq Hqq Hd) as [_ Hr]. rewrite Hv in Hr. discriminate.
    + intros y ->. destruct G as [G _]. congruence.
Qed.

(** A request that does not touch the path at [key]. *)
Definition avoids (key : string) (r : MavenRequest) : Prop :=
  match r with
  | MGet _ _ | MHead _ _ => True
  | MPut repo path _ _ => no_slash repo = true /\ build_key repo path <> key
  | MDelete repo path => build_key repo path <> key
  end.

Lemma avoids_leaves key repo path l d r : key = build_key repo path -> no_slash repo = true -> parse_layout_path path = Ok l ->
  avoids key r -> leaves {[key := d]} r.
Proof.
  intros Hkey Hr Hp. destruct r as [| |r p b n|r p]; cbn; auto.
  - intros [Hr' Hne]. split; [right; split; [|exact Hr']|apply lookup_singleton_ne; congruence].
    intros k x Hx. apply lookup_singleton_Some in Hx as [<- _]. exists repo, path, l. auto.
  - intros Hne. apply lookup_singleton_ne. congruence.
Qed.

End Upload.

(** ** Claims *)

Section Claims.
Context `{H : Hashing} {HL : HashingLaws H} `{S1 : Sha1Lib} `{C : Chrono} {CL : ChronoLaws C} `{X : QuickXml} `{L : HttpLib}
  {St : Type} `{BS : BlobStore St} {BL : BlobStoreLaws St}.

Definition counters_up_to (M : Z) (s : MavenState St) : Prop := map_Forall (fun _ n => 0 <= n <= M)%Z (snapshot_counter s).

(** C10: after any sequence of Maven requests served one after the other,
    whatever fails in the blob store and whatever the XML parser does, every
    registered path has its blob stored, and the next request is answered
    without a panic and keeps it so. The bound is on the snapshot build
    numbers, which are [u32]. *)
Theorem maven_layout_invariant (M : Z) (rs : list MavenRequest) (r : MavenRequest) (s : MavenState St) :
  maven_ok s -> counters_up_to M s -> (0 <= M)%Z -> (M + zlen rs < U32_MAX)%Z ->
  maven_ok (run_maven rs s) /\ snd (maven_router r (run_maven rs s)) <> Panic /\ maven_ok (fst (maven_router r (run_maven rs s))).
Proof using HL CL BL.
  intros Hs Hc H0 HM. assert (Hl : forall q, leaves ∅ q) by (intros []; cbn; unfold may_write; rewrite ?lookup_empty; auto).
  assert (Hi : minv M ∅ None s) by (split; auto; apply map_empty_subseteq).
  pose proof (run_maven_keeps rs M ∅ s Hi H0 ltac:(lia) ltac:(apply Forall_forall; auto)) as Hr.
  split; [apply (mi_ok _ _ _ _ Hr)|]. pose proof (zlen_nonneg rs).
  pose proof (router_triple (M + zlen rs) ∅ r ltac:(lia) (Hl r) _ Hr) as Ht.
  destruct (maven_router r (run_maven rs s)) as [s' [a|e|]]; [..|contradiction]; (split; [discriminate|apply (mi_ok _ _ _ _ Ht)]).
Qed.

(** C11: an uploaded artifact is served back: after an acknowledged PUT and any
    sequence of requests that neither write nor delete its path, a GET answers
    200 with bytes of the upload's SHA-256 and the headers computed from them,
    or, when the store's environment fails, with a storage error that is not
    "not found". The repository's name has no slash, and the sequence is not so long
    that the snapshot build numbers, which are [u32], could overflow. *)
Theorem uploaded_artifact_served (M : Z) (repo path : string) (body : bytes) (now : Clock) (c : Coordinate)
    (s s1 : MavenState St) (resp : MavenResponse) (rs : list MavenRequest) :
  maven_ok s -> counters_up_to M s -> (0 <= M)%Z -> (M + 1 + zlen rs <= U32_MAX)%Z ->
  no_slash repo = true -> parse_layout_path path = Ok (mkLayout c Artifact) ->
  handle_put repo path body now s = (s1, Ok resp) -> Forall (avoids (build_key repo path)) rs ->
  let d := Digest.sha256_of body in let s2 := run_maven rs s1 in
  (exists b, snd (handle_get repo path s2) = Ok (build_artifact_response c d b true) /\ Digest.sha256_of b = d) \/
  (exists e, snd (handle_get repo path s2) = Err (MvStorage e) /\ ~ bs_quiet (mblobs s2) /\ forall x, e <> NotFound x).
Proof using HL CL BL.
  intros Hs Hc H0 HM Hr Hp E Ha d s2. pose proof (zlen_nonneg rs).
  destruct (upload_acknowledged repo path body now c s s1 resp Hp E) as (_ & Hk & _ & _). fold d in Hk.
  assert (Hi : minv M ∅ None s) by (split; auto; apply map_empty_subseteq).
  assert (Hi1 : minv (M + 1) {[build_key repo path := d]} None s1).
  { pose proof (put_handler_triple M ∅ repo path body now ltac:(lia) (conj (or_introl eq_refl) (lookup_empty _)) s Hi) as Ht. rewrite E in Ht.
    destruct Ht as [I1 I2 _ _]. split; auto. apply map_singleton_subseteq_l, Hk. }
  assert (Hl : Forall (leaves {[build_key repo path := d]}) rs).
  { eapply Forall_impl; [exact Ha|]. intros r. exact (avoids_leaves _ repo path _ d r eq_refl Hr Hp). }
  pose proof (run_maven_keeps rs (M + 1) _ s1 Hi1 ltac:(lia) ltac:(lia) Hl) as Hi2. fold s2 in Hi2.
  assert (Hk2 : layout s2 !! build_key repo path = Some d) by (apply map_singleton_subseteq_l, (mi_pins _ _ _ _ Hi2)).
  destruct (serve_registered _ _ repo path c d s2 Hi2 Hp Hk2) as [(b & G1 & G2)|Hq]; [left|right; exact Hq].
  exists b. split; [exact G1|]. exact (bs_sound _ _ _ (mo_store _ (mi_ok _ _ _ _ Hi2)) (Digest.sha256_of_valid _) G2).
Qed.




(** A snapshot upload advertises a build that cannot be fetched: the
    acknowledged PUT registers the artifact under a timestamped file name and
    names that version in the snapshot metadata, but the layout parser refuses
    the timestamped path, so GET and HEAD of it, and a client's PUT to it, are
    answered with an invalid-path error. *)
Theorem snapshot_build_unreachable (repo path : string) (body : bytes) (now : Clock) (c : Coordinate) (s s' : MavenState St) (resp : MavenResponse) :
  parse_layout_path path = Ok (mkLayout c Artifact) -> is_snapshot_version (version c) = true ->
  handle_put repo path body now s = (s', Ok resp) ->
  exists n tp md msg, layout s' !! build_key repo tp = Some (Digest.sha256_of body) /\
    metadata s' !! (repo, Coordinate.group_path c, artifact_id c, Some (base_version (version c))) = Some md /\
    map sv_value (md_snapshot_versions md) = [compose_version (at_build now) (version c) n] /\
    tp = Coordinate.group_path c ++ "/" ++ artifact_id c ++ "/" ++ version c ++ "/" ++
           Coordinate.filename (mkCoordinate (group_id c) (artifact_id c) (compose_version (at_build now) (version c) n) (classifier c) (extension c)) /\
    snd (handle_get repo tp s') = Err (InvalidPath msg) /\ snd (handle_head repo tp s') = Err (InvalidPath msg) /\
    forall b t, snd (handle_put repo tp b t s') = Err (InvalidPath msg).
Proof using CL.
  intros Hp Hs E. destruct (upload_acknowledged repo path body now c s s' resp Hp E) as (_ & _ & _ & Hsnap).
  destruct (Hsnap Hs) as (n & Hk & Hm). destruct (parse_fields path c Artifact Hp) as (Hok & _ & Sa & Sv & _).
  destruct (timestamped_rejected c (at_build now) n Hok Sa Sv (timestamped_no_slash path c Artifact _ n Hp) Hs) as [msg Hmsg].
  exists n. do 2 eexists. exists msg. split; [exact Hk|]. split; [exact Hm|]. split; [reflexivity|]. split; [reflexivity|].
  unfold handle_get, handle_head, serve, handle_put. run_st. rewrite Hmsg. auto.
Qed.

(** An upload to a checksum sidecar of [maven-metadata.xml] is handled as
    an upload of the document itself: the body is parsed as XML and, when it
    parses, replaces the cached document; a hexadecimal checksum is refused as
    invalid metadata. *)
Theorem metadata_sidecar_put_is_document_put (repo p p' : string) (c : Coordinate) (vl : bool) (a : ChecksumAlgo) (body : bytes) (now : Clock) (s : MavenState St) :
  parse_layout_path p = Ok (mkLayout c (Metadata vl (Some a))) -> parse_layout_path p' = Ok (mkLayout c (Metadata vl None)) ->
  handle_put repo p body now s = handle_put repo p' body now s /\
  (forall text m, from_utf8 body = Some text -> xml_metadata text = XmlErr m ->
     handle_put repo p body now s = (s, Err (InvalidMetadata ("XML parse failed: " ++ m)))).
Proof.
  intros Hp Hp'. unfold handle_put. run_st. rewrite Hp, Hp'. cbn [class]. split; [reflexivity|].
  intros text m Ht Hx. unfold put_metadata, MavenMetadata.from_xml, from_str_panic_safe. run_st. rewrite Ht. cbn [ok_or]. rewrite Hx. reflexivity.
Qed.

End Claims.

(** ** A concrete repository *)

#[export] Existing Instance Memory.memory_store.
#[export] Existing Instance Memory.memory_laws.
#[local] Existing Instance any_header.

(** A hash with SHA-1's length, a clock that prints the instant, and a parser
    that finds no document. *)
#[export] Instance toy_sha1 : Sha1Lib := { sha1 := toy_hash 20 }.
#[export] Instance toy_chrono : Chrono := { format_dotted := display_u64; format_plain := display_u64 }.
#[export] Instance no_xml : QuickXml := { xml_metadata _ := XmlErr "no element"; xml_pom _ := XmlErr "no element" }.

#[export] Instance toy_chrono_laws : ChronoLaws toy_chrono.
Proof.
  split; cbn; intros t.
  - destruct (display_u64_digits t) as [Hne Hd]. destruct (display_u64 t) as [|c r]; [congruence|]. exists c, r.
    cbn in Hd. apply andb_true_iff in Hd as [Hd _]. auto.
  - pose proof (proj2 (display_u64_digits t)) as Hd. revert Hd. apply str_all_impl. intros c Hc. rewrite Hc. reflexivity.
Qed.

Definition demo_repo : MavenState InMemoryBlobStore := MavenState_new Memory.new.

Definition demo_clock : Clock := mkClock 20260423 1 2 3.

Definition demo_jar : bytes := [x4a; x41; x52].

Definition release_path : string := "com/example/foo/1.0/foo-1.0.jar".
Definition copy_path : string := "com/example/foo/1.1/foo-1.1.jar".
Definition snapshot_path : string := "com/example/foo/2.0-SNAPSHOT/foo-2.0-SNAPSHOT.jar".

Definition release_layout : LayoutPath := mkLayout (mkCoordinate "com.example" "foo" "1.0" None "jar") Artifact.
Definition copy_layout : LayoutPath := mkLayout (mkCoordinate "com.example" "foo" "1.1" None "jar") Artifact.

Lemma demo_repo_ok : maven_ok demo_repo.
Proof. split; apply map_Forall_empty. Qed.

Lemma demo_counters M : counters_up_to M demo_repo.
Proof. apply map_Forall_empty. Qed.

Definition demo_uploaded : MavenState InMemoryBlobStore := fst (handle_put "libs" release_path demo_jar demo_clock demo_repo).

(** An upload can lose its blob to a concurrent delete: a PUT of content
    that is already registered stores the blob, a DELETE of the other path then
    finds no further reference and removes the blob, and the PUT registers its
    path and is acknowledged. The path is in the layout, and a GET of it is
    answered that the blob does not exist. *)
Theorem interleaved_delete_dangles :
  let '(s1, stored) := store_artifact copy_layout demo_jar demo_uploaded in
  let '(s2, deleted) := handle_delete "libs" release_path s1 in
  let '(s3, acknowledged) := register_artifact "libs" copy_path copy_layout (Digest.sha256_of demo_jar) demo_clock s2 in
  parse_layout_path copy_path = Ok copy_layout /\ stored = Ok (Digest.sha256_of demo_jar) /\
  mstatus <$> ok_of deleted = Some 204%Z /\ mstatus <$> ok_of acknowledged = Some 201%Z /\
  layout s3 !! build_key "libs" copy_path = Some (Digest.sha256_of demo_jar) /\
  snd (handle_get "libs" copy_path s3) = Err (MvStorage (NotFound (Digest.to_string (Digest.sha256_of demo_jar)))).
Proof. vm_compute. repeat split; reflexivity. Qed.

(** An artifact in a nested group appears as a version of the outer artifact. *)
Example nested_group_listed_as_version :
  let s := run_maven [MPut "libs" "com/example/foo/bar/1.0/bar-1.0.jar" demo_jar demo_clock; MPut "libs" release_path demo_jar demo_clock] demo_repo in
  md_versions <$> metadata s !! index_key "libs" (coordinate release_layout) = Some ["1.0"; "bar"].
Proof. vm_compute. reflexivity. Qed.

(** The latest version is the last by bytes, not the one updated last. *)
Example latest_is_last_by_bytes :
  let s := run_maven [MPut "libs" "com/example/foo/1.9/foo-1.9.jar" demo_jar demo_clock; MPut "libs" "com/example/foo/1.10/foo-1.10.jar" demo_jar demo_clock] demo_repo in
  md_latest <$> metadata s !! index_key "libs" (coordinate release_layout) = Some (Some "1.9").
Proof. vm_compute. reflexivity. Qed.

(** An MD5 sidecar of a stored artifact is refused, whatever it says. *)
Example md5_sidecar_refused :
  snd (handle_put "libs" (release_path ++ ".md5") (bytes_of_string "d41d8cd98f00b204e9800998ecf8427e") demo_clock demo_uploaded)
  = Err (MvChecksumMismatch "cannot compute Md5").
Proof. vm_compute. reflexivity. Qed.

(** A delete leaves the version it removed in the index. *)
Example deleted_version_still_listed :
  let s := run_maven [MDelete "libs" release_path] demo_uploaded in
  layout s = ∅ /\ md_versions <$> metadata s !! index_key "libs" (coordinate release_layout) = Some ["1.0"].
Proof. vm_compute. split; reflexivity. Qed.

(** A sidecar stored before its artifact is served as it was, right or wrong. *)
Example staged_sidecar_not_checked :
  let wrong := bytes_of_string "0000000000000000000000000000000000000000" in
  let s := run_maven [MPut "libs" (release_path ++ ".sha1") wrong demo_clock; MPut "libs" release_path demo_jar demo_clock] demo_repo in
  mbody <$> ok_of (snd (handle_get "libs" (release_path ++ ".sha1") s)) = Some wrong.
Proof. vm_compute. reflexivity. Qed.

(** ** Witnesses *)

Definition demo_traffic : list MavenRequest :=
  [MPut "libs" snapshot_path demo_jar demo_clock; MGet "libs" release_path; MDelete "libs" snapshot_path; MPut "libs" copy_path [] demo_clock].

Lemma maven_layout_invariant_witness :
  maven_ok (run_maven demo_traffic demo_repo) /\
  snd (maven_router (MDelete "libs" copy_path) (run_maven demo_traffic demo_repo)) <> Panic /\
  maven_ok (fst (maven_router (MDelete "libs" copy_path) (run_maven demo_traffic demo_repo))).
Proof. apply (maven_layout_invariant 0); [apply demo_repo_ok|apply demo_counters|lia|reflexivity]. Defined.

Lemma demo_answer : handle_put "libs" release_path demo_jar demo_clock demo_repo
  = (demo_uploaded, Ok (mkMResp 201 [("X-Checksum-Sha256", hex (Digest.sha256_of demo_jar))] stored)).
Proof. apply run_result. vm_compute. reflexivity. Qed.

Lemma uploaded_artifact_served_witness :
  exists b, snd (handle_get "libs" release_path (run_maven demo_traffic demo_uploaded)) =
    Ok (build_artifact_response (coordinate release_layout) (Digest.sha256_of demo_jar) b true) /\ Digest.sha256_of b = Digest.sha256_of demo_jar.
Proof.
  destruct (uploaded_artifact_served 0 "libs" release_path demo_jar demo_clock (coordinate release_layout) demo_repo demo_uploaded _ demo_traffic
    demo_repo_ok (demo_counters 0) ltac:(lia) ltac:(vm_compute; discriminate) eq_refl eq_refl demo_answer) as [Hb|(e & _ & Hq & _)].
  - repeat constructor; vm_compute; discriminate.
  - exact Hb.
  - destruct (Hq I).
Defined.


(** The index of an artifact whose id has a digit, under a group of two parts or
    more, cannot be fetched: the upload answers 201 and writes the index, and the GET
    of it is answered "not found", since the parser takes [commons-lang3] for a
    version of [commons]. *)
Lemma digit_artifact_index_not_found :
  let path := "org/apache/commons/commons-lang3/3.14/commons-lang3-3.14.jar" in
  let c := mkCoordinate "org.apache.commons" "commons-lang3" "3.14" None "jar" in
  let '(s, answer) := handle_put "libs" path demo_jar demo_clock demo_repo in
  (mstatus <$> ok_of answer) = Some 201%Z /\
  md_versions <$> metadata s !! index_key "libs" c = Some ["3.14"] /\
  snd (handle_get "libs" (document_path c None) s) = Err (MvNotFound "no maven-metadata.xml for org/apache/commons").
Proof.
  intros path c. rewrite (surjective_pairing (handle_put "libs" path demo_jar demo_clock demo_repo)).
  split_and!; vm_compute; reflexivity.
Qed.

Definition demo_snapshot : MavenState InMemoryBlobStore := fst (handle_put "libs" snapshot_path demo_jar demo_clock demo_repo).

Lemma demo_snapshot_answer : handle_put "libs" snapshot_path demo_jar demo_clock demo_repo
  = (demo_snapshot, Ok (mkMResp 201 [("X-Checksum-Sha256", hex (Digest.sha256_of demo_jar))] stored)).
Proof. apply run_result. vm_compute. reflexivity. Qed.

Lemma snapshot_build_unreachable_witness :
  exists tp, layout demo_snapshot !! build_key "libs" tp = Some (Digest.sha256_of demo_jar) /\
    exists msg, snd (handle_get "libs" tp demo_snapshot) = Err (InvalidPath msg).
Proof.
  destruct (snapshot_build_unreachable "libs" snapshot_path demo_jar demo_clock (mkCoordinate "com.example" "foo" "2.0-SNAPSHOT" None "jar")
    demo_repo demo_snapshot _ eq_refl eq_refl demo_snapshot_answer) as (n & tp & md & msg & E1 & _ & _ & _ & E5 & _).
  exists tp. split; [exact E1|]. exists msg. exact E5.
Defined.

Lemma metadata_sidecar_put_is_document_put_witness :
  snd (handle_put "libs" "com/example/foo/maven-metadata.xml.sha1" (bytes_of_string "da39a3ee") demo_clock demo_repo)
  = Err (InvalidMetadata "XML parse failed: no element").
Proof.
  destruct (metadata_sidecar_put_is_document_put "libs" "com/example/foo/maven-metadata.xml.sha1" "com/example/foo/maven-metadata.xml"
    (mkCoordinate "com.example" "foo" "index" None "pom") false CSha1 (bytes_of_string "da39a3ee") demo_clock demo_repo eq_refl eq_refl) as [_ Hx].
  rewrite (Hx "da39a3ee" "no element" eq_refl eq_refl). reflexivity.
Defined.
