(* ===== verification/FsStore.v ===== *)
(** * The filesystem blob store

    Model of [crates/ferro-blob-store/src/fs.rs]: blobs live at
    [<root>/<algo>/<first two hex digits>/<rest>], writes go to a temporary
    file of a unique name and are renamed into place. The state is the file
    system with its fault script and the process's [TMP_SEQ] counter and
    identifier. File names are the strings the store itself writes (the
    [to_str] of an entry succeeds). The store implements the [BlobStore]
    interface whatever the fault script holds. *)

From S2P Require Import Prelude Str Frame Net Fs Digest BlobStore.

Record Process := mkProcess { p_fs : Fs; tmp_seq : Z; pid : Z }.

Record FsBlobStore := mkFsBlobStore { root : path }.

Module FsStore.

(** A file-system call of a method: [?] converts its error. *)
Definition on_fs {A} (m : stm Fs io_error A) : stm Process BlobStoreError A := fun s =>
  let '(f, r) := m (p_fs s) in (mkProcess f (tmp_seq s) (pid s), map_err BsIo r).

(** The call's result as a value, for a method that inspects the error. *)
Definition try_fs {A} (m : stm Fs io_error A) : stm Process BlobStoreError (outcome io_error A) := fun s =>
  let '(f, r) := m (p_fs s) in (mkProcess f (tmp_seq s) (pid s), Ok r).

Definition new (r : path) : stm Process BlobStoreError FsBlobStore :=
  on_fs (Fs.create_dir_all r);; mret (mkFsBlobStore r).

Section Ops.
Context `{H : Hashing} (self : FsBlobStore).

Definition algo_dir (a : DigestAlgo) : path := root self ++ [algo_prefix a].

Definition tmp_dir (a : DigestAlgo) : path := algo_dir a ++ [".tmp"%string].

(** [split_at(2)] panics on a shorter string. *)
Definition path_for (d : Digest) : outcome BlobStoreError path :=
  if (String.length (hex d) <? 2)%nat then Panic
  else Ok (algo_dir (algo d) ++ [str_take 2 (hex d); str_drop 2 (hex d)]).

(** [TMP_SEQ.fetch_add(1)]. *)
Definition next_tmp_seq : stm Process BlobStoreError Z := fun s =>
  (mkProcess (p_fs s) (Z.modulo (tmp_seq s + 1) (U64_MAX + 1)) (pid s), Ok (tmp_seq s)).

Definition tmp_name (d : Digest) (pid n : Z) : string :=
  (hex d ++ "." ++ display_u64 pid ++ "." ++ display_u64 n ++ ".tmp")%string.

Definition put (d : Digest) (b : bytes) : stm Process BlobStoreError unit :=
  if negb (bool_decide (computed_for d b = d)) then st_throw (mismatch d b) else
  final_path ← st_lift (path_for d);
  on_fs (Fs.create_dir_all (Fs.parent final_path));;
  on_fs (Fs.create_dir_all (tmp_dir (algo d)));;
  n ← next_tmp_seq;
  s ← st_get;
  let tmp_path := tmp_dir (algo d) ++ [tmp_name d (pid s) n] in
  on_fs (Fs.write tmp_path b);;
  r ← try_fs (Fs.rename tmp_path final_path);
  match r with
  | Ok _ => mret tt
  | Panic => st_lift Panic
  | Err e =>
    _ ← try_fs (Fs.remove_file tmp_path);
    there ← on_fs (Fs.is_file final_path);
    if there : bool then mret tt else st_throw (BsIo e)
  end.

Definition get (d : Digest) : stm Process BlobStoreError bytes :=
  p ← st_lift (path_for d);
  r ← try_fs (Fs.read p);
  match r with
  | Ok b => mret b
  | Panic => st_lift Panic
  | Err e => match io_kind e with
             | KNotFound => st_throw (NotFound (Digest.to_string d))
             | _ => st_throw (BsIo e)
             end
  end.

Definition contains (d : Digest) : stm Process BlobStoreError bool :=
  p ← st_lift (path_for d);
  r ← try_fs (Fs.metadata p);
  match r with
  | Ok _ => mret true
  | Panic => st_lift Panic
  | Err e => match io_kind e with KNotFound => mret false | _ => st_throw (BsIo e) end
  end.

Definition delete (d : Digest) : stm Process BlobStoreError unit :=
  p ← st_lift (path_for d);
  r ← try_fs (Fs.remove_file p);
  match r with
  | Ok _ => mret tt
  | Panic => st_lift Panic
  | Err e => match io_kind e with KNotFound => mret tt | _ => st_throw (BsIo e) end
  end.

(** [while let Some(e) = names.next_entry().await? { body }] over the entries
    of a directory, accumulating into [out]. *)
Fixpoint for_entries (names : list string) (body : string -> list Digest -> stm Process BlobStoreError (list Digest))
    (out : list Digest) : stm Process BlobStoreError (list Digest) :=
  x ← on_fs (Fs.next_entry names);
  match x, names with
  | Some _, name :: rest => out ← body name out; for_entries rest body out
  | _, _ => mret out
  end.

Definition push_file (a : DigestAlgo) (prefix_name file_name : string) (out : list Digest)
    : stm Process BlobStoreError (list Digest) :=
  match Digest.new a (prefix_name ++ file_name)%string with
  | Ok d => mret (out ++ [d])%list
  | _ => mret out
  end.

Definition collect_prefix (a : DigestAlgo) (prefix_name : string) (out : list Digest)
    : stm Process BlobStoreError (list Digest) :=
  if starts_with "." prefix_name || negb (String.length prefix_name =? 2)%nat then mret out else
  is_dir ← on_fs (Fs.is_dir (algo_dir a ++ [prefix_name]));
  if negb is_dir then mret out else
  files ← on_fs (Fs.read_dir (algo_dir a ++ [prefix_name]));
  for_entries files (push_file a prefix_name) out.

Definition collect_algo (a : DigestAlgo) (out : list Digest) : stm Process BlobStoreError (list Digest) :=
  entries ← on_fs (Fs.read_dir (algo_dir a));
  for_entries entries (collect_prefix a) out.

Definition list_algo (a : DigestAlgo) (out : list Digest) : stm Process BlobStoreError (list Digest) :=
  there ← on_fs (Fs.exists_ (algo_dir a));
  if negb there then mret out else collect_algo a out.

Definition list_ : stm Process BlobStoreError (list Digest) :=
  out ← list_algo Sha256 [];
  list_algo Sha512 out.

#[export] Instance fs_store : BlobStore Process :=
  { bs_put := put; bs_get := get; bs_contains := contains; bs_delete := delete; bs_list := list_ }.

End Ops.

End FsStore.
