(* ===== verification/FsStoreSpec.v ===== *)
(** * The filesystem blob store implements the interface

    The invariant of the store's directory tree, its preservation by every
    call whatever the fault script does, and the [BlobStoreLaws] instance. *)

From S2P Require Import Prelude Str Frame Net Fs Digest BlobStore FsStore.

(** ** Paths *)

Section Paths.
Context `{H : Hashing} {HL : HashingLaws H} (self : FsBlobStore).

Definition blob_path (d : Digest) : path :=
  FsStore.algo_dir self (algo d) ++ [str_take 2 (hex d); str_drop 2 (hex d)].

Definition shard_dir (d : Digest) : path := FsStore.algo_dir self (algo d) ++ [str_take 2 (hex d)].

Lemma valid_hex_cons d : Digest.valid d -> exists a b t, hex d = String a (String b t).
Proof.
  intros [Hl _]. destruct (hex d) as [|a [|b t]]; [destruct (algo d); discriminate ..|eauto].
Qed.

Lemma path_for_valid d : Digest.valid d -> FsStore.path_for self d = Ok (blob_path d).
Proof.
  intros (a & b & t & Hh)%valid_hex_cons. unfold FsStore.path_for. rewrite Hh. cbn [String.length Nat.ltb].
  unfold blob_path. rewrite Hh. reflexivity.
Qed.

Lemma blob_path_snoc d : blob_path d = shard_dir d ++ [str_drop 2 (hex d)].
Proof. unfold blob_path, shard_dir. rewrite <- app_assoc. reflexivity. Qed.

Lemma blob_path_parent d : Fs.parent (blob_path d) = shard_dir d.
Proof. rewrite blob_path_snoc. apply Fs.parent_snoc. Qed.

Lemma algo_prefix_inj a b : algo_prefix a = algo_prefix b -> a = b.
Proof. destruct a, b; cbn; congruence. Qed.

Lemma algo_dir_app_inj a b l k :
  FsStore.algo_dir self a ++ l = FsStore.algo_dir self b ++ k -> a = b /\ l = k.
Proof.
  unfold FsStore.algo_dir. rewrite <- !app_assoc. intros Heq%app_inv_head. injection Heq as Ha ->.
  apply algo_prefix_inj in Ha. auto.
Qed.

Lemma blob_path_inj d e : Digest.valid d -> Digest.valid e -> blob_path d = blob_path e -> d = e.
Proof.
  intros (a & b & t & Hh)%valid_hex_cons (a' & b' & t' & Hh')%valid_hex_cons Heq.
  apply algo_dir_app_inj in Heq as [Ha Heq]. rewrite Hh, Hh' in Heq.
  rewrite !(proj1 (str_split_at2 _ _ _)), !(proj2 (str_split_at2 _ _ _)) in Heq.
  injection Heq as -> -> ->. destruct d, e. cbn in *. congruence.
Qed.

Lemma shard_not_tmp d : Digest.valid d -> str_take 2 (hex d) <> ".tmp"%string.
Proof.
  intros (a & b & t & Hh)%valid_hex_cons. rewrite Hh, (proj1 (str_split_at2 a b t)). discriminate.
Qed.

Lemma length_algo_dir a l :
  length (FsStore.algo_dir self a ++ l) = (length (root self) + 1 + length l)%nat.
Proof. unfold FsStore.algo_dir. rewrite !length_app. reflexivity. Qed.

Lemma tmp_ne_blob a x d : Digest.valid d -> FsStore.tmp_dir self a ++ [x] <> blob_path d.
Proof.
  intros Hd Heq. unfold FsStore.tmp_dir in Heq. rewrite <- app_assoc in Heq. apply algo_dir_app_inj in Heq as [_ Heq].
  injection Heq as Heq _. exact (shard_not_tmp d Hd (eq_sym Heq)).
Qed.

(** ** The invariant *)

Record tree_ok (t : tree) : Prop := {
  ok_closed : Fs.closed t;
  (** below a shard directory there are only blobs, under their own digest *)
  ok_blobs : forall a p r n, p <> ".tmp"%string -> t !! (FsStore.algo_dir self a ++ [p; r]) = Some n ->
    exists d b, algo d = a /\ Digest.valid d /\ blob_path d = FsStore.algo_dir self a ++ [p; r] /\
      n = File b /\ matches d b;
  (** nothing but directories on the way *)
  ok_dirs : forall a p k c, t !! take k (FsStore.algo_dir self a ++ [p]) <> Some (File c);
  ok_tmp : forall a x, t !! (FsStore.tmp_dir self a ++ [x]) <> Some Dir;
}.

Definition view (t : tree) (d : Digest) : option bytes :=
  match t !! blob_path d with Some (File b) => Some b | _ => None end.

Lemma view_lookup t d : tree_ok t -> Digest.valid d ->
  t !! blob_path d = File <$> view t d.
Proof.
  intros Ht Hd. unfold view. destruct (t !! blob_path d) as [[|b]|] eqn:E; [exfalso|reflexivity ..].
  destruct (ok_blobs t Ht _ _ _ _ (shard_not_tmp d Hd) E) as (d' & b & _ & _ & _ & [=] & _).
Qed.

Lemma view_sound t d b : tree_ok t -> Digest.valid d -> view t d = Some b -> matches d b.
Proof.
  intros Ht Hd Hv. pose proof (view_lookup t d Ht Hd) as Hl. rewrite Hv in Hl.
  destruct (ok_blobs t Ht _ _ _ _ (shard_not_tmp d Hd) Hl) as (d' & b' & _ & Hd' & Hp & [= <-] & Hm).
  apply blob_path_inj in Hp; [|assumption..]. congruence.
Qed.

(** Writing a file at a place where one may be. *)
Lemma tree_ok_set t q c :
  tree_ok t -> length q = (length (root self) + 3)%nat -> Fs.can_write t q = Ok tt ->
  (forall a p r, p <> ".tmp"%string -> q = FsStore.algo_dir self a ++ [p; r] ->
     exists d, algo d = a /\ Digest.valid d /\ blob_path d = q /\ matches d c) ->
  tree_ok (<[q := File c]> t).
Proof.
  intros Ht Hlen Hw Hb. apply Fs.can_write_spec in Hw as [Hpar Hnd]. split.
  - apply Fs.closed_insert; [apply Ht|exact Hpar|auto].
  - intros a p r n Hp Hn. apply lookup_insert_Some in Hn as [[Hq <-]|[_ Hn]].
    + destruct (Hb a p r Hp Hq) as (d & Ha & Hd & Hbp & Hm). exists d, c. rewrite Hbp. auto.
    + exact (ok_blobs t Ht a p r n Hp Hn).
  - intros a p k c' Hk. apply lookup_insert_Some in Hk as [[Hq _]|[_ Hk]].
    + apply (f_equal length) in Hq. rewrite length_take, length_algo_dir in Hq. cbn in Hq. lia.
    + exact (ok_dirs t Ht a p k c' Hk).
  - intros a x Hx. apply lookup_insert_Some in Hx as [[_ [=]]|[_ Hx]]. exact (ok_tmp t Ht a x Hx).
Qed.

Lemma tree_ok_delete t q c : tree_ok t -> t !! q = Some (File c) -> tree_ok (base.delete q t).
Proof.
  intros Ht Hq. split.
  - eapply Fs.closed_delete; [apply Ht|exact Hq].
  - intros a p r n Hp [_ Hn]%lookup_delete_Some. exact (ok_blobs t Ht a p r n Hp Hn).
  - intros a p k c' [_ Hk]%lookup_delete_Some. exact (ok_dirs t Ht a p k c' Hk).
  - intros a x [_ Hx]%lookup_delete_Some. exact (ok_tmp t Ht a x Hx).
Qed.

(** Making (part of) a shard directory. *)
Lemma make_dirs_deep a p n t q :
  (n <= length (root self) + 2)%nat -> (length q = length (root self) + 3)%nat ->
  fst (Fs.make_dirs (FsStore.algo_dir self a ++ [p]) n t) !! q = t !! q.
Proof.
  intros Hn Hq. destruct (Fs.make_dirs_lookup (FsStore.algo_dir self a ++ [p]) n t q) as [Heq|(_ & _ & k & Hk & ->)].
  - rewrite length_algo_dir. cbn. lia.
  - exact Heq.
  - rewrite length_take, length_algo_dir in Hq. cbn in Hq. lia.
Qed.

Lemma tree_ok_make_dirs a p n t :
  tree_ok t -> (n <= length (root self) + 2)%nat ->
  tree_ok (fst (Fs.make_dirs (FsStore.algo_dir self a ++ [p]) n t)).
Proof.
  intros Ht Hn. assert (Hlen : (n <= length (FsStore.algo_dir self a ++ [p]))%nat)
    by (rewrite length_algo_dir; cbn; lia). split.
  - apply Fs.make_dirs_closed; [exact Hlen|apply Ht].
  - intros b p' r m Hp. rewrite make_dirs_deep; [|exact Hn|rewrite length_algo_dir; cbn; lia].
    exact (ok_blobs t Ht b p' r m Hp).
  - intros b p' k c Hk. destruct (Fs.make_dirs_lookup _ n t (take k (FsStore.algo_dir self b ++ [p'])) Hlen)
      as [Heq|(Heq & _)]; rewrite Heq in Hk; [|discriminate]. exact (ok_dirs t Ht b p' k c Hk).
  - intros b x. rewrite make_dirs_deep; [apply Ht|exact Hn|].
    unfold FsStore.tmp_dir. rewrite <- app_assoc, length_algo_dir. cbn. lia.
Qed.

(** ** Steps of a method *)

Definition T (s : Process) : tree := files (p_fs s).

Lemma T_mk t fs n i : T (mkProcess (mkFs t fs) n i) = t.
Proof. reflexivity. Qed.

Definition quiet_p (s : Process) : Prop := Fs.quiet (p_fs s).

(** The tree is sound and holds the blobs [v] says. *)
Definition holds (v : Digest -> option bytes) (s : Process) : Prop :=
  tree_ok (T s) /\ forall e, Digest.valid e -> view (T s) e = v e.

Definition dirs_kept (s s' : Process) : Prop := forall q, T s !! q = Some Dir -> T s' !! q = Some Dir.

Lemma on_fs_syscall {A} (f : option fault -> tree -> tree * outcome io_error A) s :
  FsStore.on_fs (Fs.syscall f) s =
  (mkProcess (mkFs (fst (f (Fs.next_fault (p_fs s)) (T s))) (tail (faults (p_fs s)))) (tmp_seq s) (pid s),
   map_err BsIo (snd (f (Fs.next_fault (p_fs s)) (T s)))).
Proof. unfold FsStore.on_fs. rewrite Fs.syscall_run. reflexivity. Qed.

Lemma try_fs_syscall {A} (f : option fault -> tree -> tree * outcome io_error A) s :
  FsStore.try_fs (Fs.syscall f) s =
  (mkProcess (mkFs (fst (f (Fs.next_fault (p_fs s)) (T s))) (tail (faults (p_fs s)))) (tmp_seq s) (pid s),
   Ok (snd (f (Fs.next_fault (p_fs s)) (T s)))).
Proof. unfold FsStore.try_fs. rewrite Fs.syscall_run. reflexivity. Qed.

Lemma view_make_dirs a p n t d :
  (n <= length (root self) + 2)%nat ->
  view (fst (Fs.make_dirs (FsStore.algo_dir self a ++ [p]) n t)) d = view t d.
Proof.
  intros Hn. unfold view. rewrite make_dirs_deep; [reflexivity|exact Hn|].
  unfold blob_path. rewrite length_algo_dir. cbn. lia.
Qed.

Lemma mkdirs_step a p v s s' r :
  holds v s -> FsStore.on_fs (Fs.create_dir_all (FsStore.algo_dir self a ++ [p])) s = (s', r) ->
  holds v s' /\ r <> Panic /\ dirs_kept s s' /\
  (quiet_p s -> r = Ok tt /\ quiet_p s' /\ T s' !! (FsStore.algo_dir self a ++ [p]) = Some Dir).
Proof.
  intros [Ht Hv]. unfold Fs.create_dir_all. rewrite on_fs_syscall. intros [= <- <-].
  set (P := FsStore.algo_dir self a ++ [p]).
  assert (Hlen : length P = (length (root self) + 2)%nat) by (unfold P; rewrite length_algo_dir; cbn; lia).
  assert (Hgo : forall n, (n <= length P)%nat ->
    (tree_ok (fst (Fs.make_dirs P n (T s))) /\
     (forall e, Digest.valid e -> view (fst (Fs.make_dirs P n (T s))) e = v e)) /\
    forall q, T s !! q = Some Dir -> fst (Fs.make_dirs P n (T s)) !! q = Some Dir).
  { intros n Hn. split_and!.
    - apply tree_ok_make_dirs; [exact Ht|lia].
    - intros e He. unfold P. rewrite view_make_dirs by lia. auto.
    - intros q Hq. destruct (Fs.make_dirs_lookup P n (T s) q Hn) as [->|(-> & _)]; [exact Hq|reflexivity]. }
  unfold holds, dirs_kept, T. cbn [p_fs files].
  destruct (Fs.next_fault (p_fs s)) as [f|] eqn:Ef; cbn [fst snd].
  - destruct (Hgo (min (default 0%nat (partial f)) (pred (length P))) ltac:(lia)) as [H1 H2].
    split_and!; [apply H1|apply H1|discriminate|exact H2|].
    intros Hq. rewrite (Fs.quiet_next _ Hq) in Ef. discriminate.
  - destruct (Hgo (length P) ltac:(lia)) as [H1 H2]. pose proof (Fs.make_dirs_total P (length P) (T s)) as Htot.
    split_and!; [apply H1|apply H1| |exact H2|].
    + unfold T in *. destruct (snd (Fs.make_dirs P (length P) (files (p_fs s)))); cbn; congruence.
    + intros Hq. destruct (Fs.make_dirs_ok P (length P) (T s)) as [Hok Hd];
        [lia|intros k c _; apply (ok_dirs _ Ht a p k c)|].
      unfold T in *. rewrite Hok. split_and!; [reflexivity|apply Fs.quiet_tail, Hq|].
      specialize (Hd (length P) ltac:(lia)). rewrite firstn_all in Hd. exact Hd.
Qed.

(** The path of a temporary file is not a blob's. *)
Lemma view_insert_tmp t a x n d :
  Digest.valid d -> view (<[FsStore.tmp_dir self a ++ [x] := n]> t) d = view t d.
Proof. intros Hd. unfold view. rewrite lookup_insert_ne by (apply tmp_ne_blob, Hd). reflexivity. Qed.

Lemma view_delete_tmp t a x d :
  Digest.valid d -> view (base.delete (FsStore.tmp_dir self a ++ [x]) t) d = view t d.
Proof. intros Hd. unfold view. rewrite lookup_delete_ne by (apply tmp_ne_blob, Hd). reflexivity. Qed.

Lemma tree_ok_tmp t a x c :
  tree_ok t -> Fs.can_write t (FsStore.tmp_dir self a ++ [x]) = Ok tt ->
  tree_ok (<[FsStore.tmp_dir self a ++ [x] := File c]> t).
Proof.
  intros Ht Hw. apply tree_ok_set; [exact Ht| |exact Hw|].
  - unfold FsStore.tmp_dir. rewrite <- app_assoc, length_algo_dir. cbn; lia.
  - intros a' p r Hp Heq. unfold FsStore.tmp_dir in Heq. rewrite <- app_assoc in Heq.
    apply algo_dir_app_inj in Heq as [_ Heq]. injection Heq as Heq _. congruence.
Qed.

Lemma write_step a x b v s s' r :
  let tmp := FsStore.tmp_dir self a ++ [x] in
  holds v s -> FsStore.on_fs (Fs.write tmp b) s = (s', r) ->
  holds v s' /\ r <> Panic /\ dirs_kept s s' /\ (r = Ok tt -> T s' !! tmp = Some (File b)) /\
  (quiet_p s -> T s !! FsStore.tmp_dir self a = Some Dir -> r = Ok tt /\ quiet_p s').
Proof.
  intros tmp [Ht Hv]. unfold Fs.write. rewrite on_fs_syscall. intros [= <- <-].
  unfold holds, dirs_kept, quiet_p. rewrite !T_mk. cbn [p_fs].
  assert (Hset : Fs.can_write (T s) tmp = Ok tt -> forall c,
    (tree_ok (<[tmp := File c]> (T s)) /\ forall e, Digest.valid e -> view (<[tmp := File c]> (T s)) e = v e) /\
    forall q, T s !! q = Some Dir -> <[tmp := File c]> (T s) !! q = Some Dir).
  { intros Hw c. split_and!.
    - apply tree_ok_tmp; assumption.
    - intros e He. unfold tmp. rewrite view_insert_tmp by exact He. auto.
    - intros q Hq. rewrite lookup_insert_ne; [exact Hq|]. intros <-. exact (ok_tmp _ Ht a x Hq). }
  destruct (Fs.can_write (T s) tmp) as [[]|e|] eqn:Ew; [| |destruct (Fs.can_write_total _ _ Ew)].
  - specialize (Hset eq_refl).
    destruct (Fs.next_fault (p_fs s)) as [f|] eqn:Ef; [destruct (partial f)|]; cbn [fst snd map_err];
      split_and!; try apply Hset; try discriminate; try exact Ht; try exact Hv; try (intros q Hq; exact Hq);
      try (intros Hq; rewrite (Fs.quiet_next _ Hq) in Ef; discriminate).
    + intros _. apply lookup_insert_eq.
    + intros Hq _. split; [reflexivity|apply Fs.quiet_tail, Hq].
  - cbn. split_and!; try discriminate; try exact Ht; try exact Hv; [intros q Hq; exact Hq|].
    intros _ Hd. exfalso. rewrite Fs.can_write_ok in Ew; [discriminate|..].
    + unfold tmp. rewrite Fs.parent_snoc. apply Fs.is_dir_in_spec. auto.
    + apply not_true_iff_false. rewrite Fs.is_dir_in_spec. intros [Hn|Hn].
      * unfold tmp in Hn. destruct (FsStore.tmp_dir self a); discriminate.
      * exact (ok_tmp _ Ht a x Hn).
Qed.

Lemma view_insert_blob t d b e :
  Digest.valid d -> Digest.valid e ->
  view (<[blob_path d := File b]> t) e = if decide (e = d) then Some b else view t e.
Proof.
  intros Hd He. unfold view. case_decide as Hed.
  - subst e. rewrite lookup_insert_eq. reflexivity.
  - rewrite lookup_insert_ne; [reflexivity|]. intros Heq. apply Hed. symmetry. apply blob_path_inj; assumption.
Qed.

Lemma tree_ok_blob t d b :
  tree_ok t -> Digest.valid d -> matches d b -> Fs.can_write t (blob_path d) = Ok tt ->
  tree_ok (<[blob_path d := File b]> t).
Proof.
  intros Ht Hd Hm Hw. apply tree_ok_set; [exact Ht| |exact Hw|].
  - unfold blob_path. rewrite length_algo_dir. cbn. lia.
  - intros a p r _ Heq. exists d. apply algo_dir_app_inj in Heq as Hq. destruct Hq as [<- _]. auto.
Qed.

Lemma can_write_delete t q c p :
  t !! q = Some (File c) -> Fs.can_write t p = Ok tt -> Fs.can_write (base.delete q t) p = Ok tt.
Proof.
  intros Hq Hw. apply Fs.can_write_spec in Hw as [H1 H2]. apply Fs.can_write_ok.
  - apply Fs.is_dir_in_spec. apply Fs.is_dir_in_spec in H1 as [H1|H1]; [auto|right].
    rewrite lookup_delete_ne; [exact H1|]. intros ->. congruence.
  - apply not_true_iff_false. apply not_true_iff_false in H2. intros Hd. apply H2.
    apply Fs.is_dir_in_spec. apply Fs.is_dir_in_spec in Hd as [Hd|Hd]; [auto|right].
    apply lookup_delete_Some in Hd as [_ Hd]. exact Hd.
Qed.

Lemma can_write_blob t d :
  tree_ok t -> Digest.valid d -> t !! shard_dir d = Some Dir -> Fs.can_write t (blob_path d) = Ok tt.
Proof.
  intros Ht Hd Hdir. apply Fs.can_write_ok.
  - rewrite blob_path_parent. apply Fs.is_dir_in_spec. auto.
  - apply not_true_iff_false. rewrite Fs.is_dir_in_spec. intros [Hn|Hn].
    + unfold blob_path in Hn. destruct (FsStore.algo_dir self (algo d)); discriminate.
    + rewrite view_lookup in Hn by assumption. destruct (view t d); discriminate.
Qed.

(** The rename either installs the blob or fails and changes nothing. *)
Lemma rename_step a x d b v s s' r :
  let tmp := FsStore.tmp_dir self a ++ [x] in
  holds v s -> T s !! tmp = Some (File b) -> Digest.valid d -> matches d b ->
  FsStore.try_fs (Fs.rename tmp (blob_path d)) s = (s', r) ->
  (r = Ok (Ok tt) /\ holds (fun e => if decide (e = d) then Some b else v e) s' \/
   exists e, r = Ok (Err e) /\ holds v s') /\
  (quiet_p s -> T s !! shard_dir d = Some Dir -> r = Ok (Ok tt) /\ quiet_p s').
Proof.
  intros tmp [Ht Hv] Htmp Hd Hm. unfold Fs.rename. rewrite try_fs_syscall. intros [= <- <-].
  unfold holds, quiet_p. rewrite !T_mk. cbn [p_fs]. rewrite Htmp.
  destruct (Fs.next_fault (p_fs s)) as [f|] eqn:Ef; cbn [fst snd].
  { split; [right; eauto|]. intros Hq. rewrite (Fs.quiet_next _ Hq) in Ef. discriminate. }
  destruct (Fs.can_write (T s) (blob_path d)) as [[]|e|] eqn:Ew; [| |destruct (Fs.can_write_total _ _ Ew)];
    cbn [fst snd].
  - split; [left; split_and!; [reflexivity|..]|intros Hq _; split; [reflexivity|apply Fs.quiet_tail, Hq]].
    + apply tree_ok_blob; [eapply tree_ok_delete; eassumption|exact Hd|exact Hm|eapply can_write_delete; eassumption].
    + intros e He. rewrite view_insert_blob by assumption. case_decide; [reflexivity|].
      unfold tmp. rewrite view_delete_tmp by exact He. auto.
  - split; [right; eauto|]. intros _ Hdir. rewrite can_write_blob in Ew by assumption. discriminate.
Qed.

Lemma remove_tmp_step a x v s s' r :
  holds v s -> FsStore.try_fs (Fs.remove_file (FsStore.tmp_dir self a ++ [x])) s = (s', r) ->
  holds v s' /\ exists o, r = Ok o.
Proof.
  intros [Ht Hv]. unfold Fs.remove_file. rewrite try_fs_syscall. intros [= <- <-].
  unfold holds. rewrite !T_mk. split; [|eauto].
  destruct (Fs.next_fault _); [auto|]. destruct (T s !! (_ ++ [x])) as [[|c]|] eqn:E; cbn [fst]; auto.
  split; [eapply tree_ok_delete; eassumption|]. intros e He. rewrite view_delete_tmp by exact He. auto.
Qed.

(** A read-only call leaves the tree alone. *)
Lemma holds_same v s t' : T s = t' -> holds v s <-> tree_ok t' /\ forall e, Digest.valid e -> view t' e = v e.
Proof. intros <-. reflexivity. Qed.

Lemma is_file_step d v s s' r :
  holds v s -> Digest.valid d -> FsStore.on_fs (Fs.is_file (blob_path d)) s = (s', r) ->
  holds v s' /\ exists x : bool, r = Ok x /\ (x = true -> is_Some (v d)).
Proof.
  intros [Ht Hv] Hd. unfold FsStore.on_fs, Fs.is_file, Fs.test_path, Fs.metadata. rewrite Fs.syscall_run.
  fold (T s). destruct (Fs.next_fault (p_fs s)) as [f|]; cbn [fst snd].
  - intros [= <- <-]. split; [split; assumption|]. eexists. split; [reflexivity|discriminate].
  - pose proof (view_lookup (T s) d Ht Hd) as Hl. rewrite (Hv d Hd) in Hl.
    destruct (v d) as [b|]; cbn in Hl; rewrite Hl; cbn [fst snd].
    + intros [= <- <-]. split; [split; assumption|]. eexists. split; [reflexivity|eauto].
    + case_decide; intros [= <- <-]; (split; [split; assumption|]; eexists; split; [reflexivity|discriminate]).
Qed.

(** ** The methods *)

Lemma put_mismatch_eq s d b : ~ matches d b -> FsStore.put self d b s = (s, Err (mismatch d b)).
Proof. intros Hm. unfold FsStore.put. rewrite bool_decide_false by exact Hm. reflexivity. Qed.

(** What a put does: it stores the bytes, or reports success because the blob
    is already there, or fails and changes nothing. *)
Definition put_outcome (v : Digest -> option bytes) (d : Digest) (b : bytes)
    (s' : Process) (r : outcome BlobStoreError unit) : Prop :=
  r = Ok tt /\ holds (fun e => if decide (e = d) then Some b else v e) s' \/
  holds v s' /\ (r = Ok tt /\ is_Some (v d) \/ exists e, r = Err e).

Lemma put_failed v d b s' e : holds v s' -> put_outcome v d b s' (Err e).
Proof. intros Hh. right. eauto. Qed.

(** From the temporary file on. *)
Lemma install_spec a x d b v s s' r :
  let tmp := FsStore.tmp_dir self a ++ [x] in
  holds v s -> T s !! tmp = Some (File b) -> Digest.valid d -> matches d b ->
  (r ← FsStore.try_fs (Fs.rename tmp (blob_path d));
   match r with
   | Ok _ => mret tt
   | Panic => st_lift Panic
   | Err e =>
     _ ← FsStore.try_fs (Fs.remove_file tmp);
     there ← FsStore.on_fs (Fs.is_file (blob_path d));
     if there : bool then mret tt else st_throw (BsIo e)
   end) s = (s', r) ->
  put_outcome v d b s' r /\
  (quiet_p s -> T s !! shard_dir d = Some Dir -> quiet_p s' /\ r = Ok tt /\
     holds (fun e => if decide (e = d) then Some b else v e) s').
Proof.
  intros tmp Hh Htmp Hd Hm. unfold mbind, stm_bind.
  destruct (FsStore.try_fs (Fs.rename tmp (blob_path d)) s) as [s1 r1] eqn:E1.
  destruct (rename_step a x d b v s s1 r1 Hh Htmp Hd Hm E1) as [[[-> Hh1]|(e & -> & Hh1)] Hq].
  - intros [= <- <-]. split; [left; auto|]. intros Hq1 Hq2. destruct (Hq Hq1 Hq2) as [_ Hq3]. auto.
  - destruct (FsStore.try_fs (Fs.remove_file tmp) s1) as [s2 r2] eqn:E2.
    destruct (remove_tmp_step a x v s1 s2 r2 Hh1 E2) as (Hh2 & o & ->).
    destruct (FsStore.on_fs (Fs.is_file (blob_path d)) s2) as [s3 r3] eqn:E3.
    destruct (is_file_step d v s2 s3 r3 Hh2 Hd E3) as (Hh3 & there & -> & Hthere).
    intros Hend. split; [|intros Hq1 Hq2; destruct (Hq Hq1 Hq2); discriminate].
    destruct there; injection Hend as <- <-; right; split; eauto.
Qed.

Lemma put_spec s d b v s' r :
  holds v s -> Digest.valid d -> matches d b -> FsStore.put self d b s = (s', r) ->
  put_outcome v d b s' r /\
  (quiet_p s -> quiet_p s' /\ r = Ok tt /\ holds (fun e => if decide (e = d) then Some b else v e) s').
Proof.
  intros Hh Hd Hm. unfold FsStore.put. rewrite bool_decide_true by exact Hm. cbn [negb].
  rewrite path_for_valid by exact Hd. unfold st_lift, st_get, FsStore.next_tmp_seq, mbind at 1 2 3 4 5 6, stm_bind at 1 2 3 4 5 6.
  rewrite blob_path_parent.
  destruct (FsStore.on_fs (Fs.create_dir_all (shard_dir d)) s) as [s1 r1] eqn:E1.
  destruct (mkdirs_step _ _ v s s1 r1 Hh E1) as (Hh1 & Hr1 & _ & Hq1).
  destruct r1 as [[]|e1|]; [|intros [= <- <-]; split; [apply put_failed, Hh1|intros Hq; destruct (Hq1 Hq); discriminate]|contradiction].
  destruct (FsStore.on_fs (Fs.create_dir_all (FsStore.tmp_dir self (algo d))) s1) as [s2 r2] eqn:E2.
  destruct (mkdirs_step _ _ v s1 s2 r2 Hh1 E2) as (Hh2 & Hr2 & Hk2 & Hq2).
  destruct r2 as [[]|e2|]; [|intros [= <- <-]; split; [apply put_failed, Hh2|intros Hq; destruct (Hq1 Hq) as (_ & Hq' & _); destruct (Hq2 Hq'); discriminate]|contradiction].
  cbn [pid]. set (s3 := mkProcess (p_fs s2) _ (pid s2)). change (holds v s3) in Hh2.
  set (x := FsStore.tmp_name d (pid s2) (tmp_seq s2)).
  destruct (FsStore.on_fs (Fs.write (FsStore.tmp_dir self (algo d) ++ [x]) b) s3) as [s4 r4] eqn:E4.
  destruct (write_step _ _ _ v s3 s4 r4 Hh2 E4) as (Hh4 & Hr4 & Hk4 & Hw & Hq4).
  assert (Hquiet : quiet_p s -> quiet_p s4 /\ r4 = Ok tt /\ T s4 !! shard_dir d = Some Dir).
  { intros Hq. destruct (Hq1 Hq) as (_ & Hqa & Hda). destruct (Hq2 Hqa) as (_ & Hqb & Hdb).
    destruct (Hq4 Hqb Hdb) as [-> Hqc]. split_and!; [exact Hqc|reflexivity|]. apply Hk4, Hk2, Hda. }
  destruct r4 as [[]|e4|]; [|intros [= <- <-]; split; [apply put_failed, Hh4|intros Hq; destruct (Hquiet Hq) as (_ & ? & _); discriminate]|contradiction].
  intros Hend. destruct (install_spec _ _ d b v s4 s' r Hh4 (Hw eq_refl) Hd Hm Hend) as [Hout Hlast].
  split; [exact Hout|]. intros Hq. destruct (Hquiet Hq) as (Hqc & _ & Hdc). exact (Hlast Hqc Hdc).
Qed.

(** Looking a blob up. *)
Lemma missing_blob t d : tree_ok t -> Digest.valid d -> Fs.missing t (blob_path d) = Fs.not_found.
Proof.
  intros Ht Hd. apply Fs.missing_not_found. intros k c Hk. rewrite blob_path_snoc.
  rewrite blob_path_snoc, length_app in Hk. cbn in Hk. rewrite take_app_le by lia. apply (ok_dirs _ Ht).
Qed.

Lemma get_eq s d : tree_ok (T s) -> Digest.valid d ->
  T (fst (FsStore.get self d s)) = T s /\
  snd (FsStore.get self d s) =
    match Fs.next_fault (p_fs s) with
    | Some f => Err (BsIo (Fs.fault_error f))
    | None => ok_or (view (T s) d) (NotFound (Digest.to_string d))
    end /\
  (quiet_p s -> quiet_p (fst (FsStore.get self d s))).
Proof.
  intros Ht Hd. unfold FsStore.get. rewrite path_for_valid by exact Hd.
  unfold st_lift, mbind, stm_bind, Fs.read. rewrite try_fs_syscall, missing_blob, view_lookup by assumption.
  destruct (Fs.next_fault (p_fs s)) as [f|]; [unfold Fs.fault_error; destruct (fault_code f =? 22)%Z|destruct (view (T s) d)]; cbn; (split_and!; [reflexivity|reflexivity|apply Fs.quiet_tail]).
Qed.

Lemma contains_eq s d : tree_ok (T s) -> Digest.valid d ->
  T (fst (FsStore.contains self d s)) = T s /\
  snd (FsStore.contains self d s) =
    match Fs.next_fault (p_fs s) with
    | Some f => Err (BsIo (Fs.fault_error f))
    | None => Ok (bool_decide (is_Some (view (T s) d)))
    end /\
  (quiet_p s -> quiet_p (fst (FsStore.contains self d s))).
Proof.
  intros Ht Hd. unfold FsStore.contains. rewrite path_for_valid by exact Hd.
  unfold st_lift, mbind, stm_bind, Fs.metadata. rewrite try_fs_syscall, missing_blob, view_lookup by assumption.
  rewrite decide_False by (unfold blob_path; destruct (FsStore.algo_dir self (algo d)); discriminate).
  destruct (Fs.next_fault (p_fs s)) as [f|]; [unfold Fs.fault_error; destruct (fault_code f =? 22)%Z|destruct (view (T s) d)]; cbn; (split_and!; [reflexivity|reflexivity|apply Fs.quiet_tail]).
Qed.

Lemma delete_eq s d : tree_ok (T s) -> Digest.valid d ->
  T (fst (FsStore.delete self d s)) =
    match Fs.next_fault (p_fs s) with Some _ => T s | None => base.delete (blob_path d) (T s) end /\
  snd (FsStore.delete self d s) =
    match Fs.next_fault (p_fs s) with Some f => Err (BsIo (Fs.fault_error f)) | None => Ok tt end /\
  (quiet_p s -> quiet_p (fst (FsStore.delete self d s))).
Proof.
  intros Ht Hd. unfold FsStore.delete. rewrite path_for_valid by exact Hd.
  unfold st_lift, mbind, stm_bind, Fs.remove_file. rewrite try_fs_syscall, missing_blob by assumption.
  pose proof (view_lookup (T s) d Ht Hd) as Hl.
  destruct (Fs.next_fault (p_fs s)) as [f|]; [unfold Fs.fault_error; destruct (fault_code f =? 22)%Z|destruct (view (T s) d); cbn in Hl; rewrite Hl]; cbn;
    (split_and!; [try reflexivity|reflexivity|apply Fs.quiet_tail]).
  unfold T. cbn. symmetry. apply delete_id, Hl.
Qed.

Lemma view_delete t d e : Digest.valid d -> Digest.valid e ->
  view (base.delete (blob_path d) t) e = if decide (e = d) then None else view t e.
Proof.
  intros Hd He. unfold view. case_decide as Hed.
  - subst e. rewrite lookup_delete_eq. reflexivity.
  - rewrite lookup_delete_ne; [reflexivity|]. intros Heq. apply Hed. symmetry. apply blob_path_inj; assumption.
Qed.

Lemma tree_ok_delete_blob t d : tree_ok t -> Digest.valid d -> tree_ok (base.delete (blob_path d) t).
Proof.
  intros Ht Hd. pose proof (view_lookup t d Ht Hd) as Hl. destruct (view t d) as [b|]; cbn in Hl.
  - eapply tree_ok_delete; eassumption.
  - rewrite delete_id by exact Hl. exact Ht.
Qed.

(** ** Listing *)

(** A read-only step that extends a list of digests: what it appends satisfies
    [R], and also [C] when the environment is quiet. *)
Definition appends (t : tree) (R C : list Digest -> Prop) (m : list Digest -> stm Process BlobStoreError (list Digest)) : Prop :=
  forall out s s' r, T s = t -> m out s = (s', r) ->
  T s' = t /\ r <> Panic /\
  (forall out', r = Ok out' -> exists l, out' = (out ++ l)%list /\ R l /\ (quiet_p s -> C l)) /\
  (quiet_p s -> quiet_p s' /\ exists out', r = Ok out').

Lemma appends_ret t (R C : list Digest -> Prop) l : R l -> C l -> appends t R C (fun out => mret (out ++ l)%list).
Proof.
  intros HR HC out s s' r Ht [= <- <-]. split_and!; [exact Ht|discriminate| |eauto].
  intros out' [= <-]. eauto.
Qed.

Lemma appends_nil t (R C : list Digest -> Prop) : R [] -> C [] -> appends t R C (fun out => mret out).
Proof.
  intros HR HC out s s' r Ht [= <- <-]. split_and!; [exact Ht|discriminate| |eauto].
  intros out' [= <-]. exists []. rewrite app_nil_r. auto.
Qed.

(** A read-only call before an appending step. *)
Lemma appends_bind {A} t (R C : list Digest -> Prop) (m : stm Fs io_error A) (ret : A -> Prop) (good : A -> Prop) k :
  (forall s s' r, T s = t -> FsStore.on_fs m s = (s', r) -> T s' = t /\ r <> Panic /\
     (forall x, r = Ok x -> ret x /\ (quiet_p s -> good x)) /\ (quiet_p s -> quiet_p s' /\ exists x, r = Ok x)) ->
  (forall x, ret x -> appends t R (fun l => good x -> C l) (k x)) ->
  appends t R C (fun out => FsStore.on_fs m ≫= fun x => k x out).
Proof.
  intros Hm Hk out s s' r Ht. unfold mbind, stm_bind.
  destruct (FsStore.on_fs m s) as [s1 r1] eqn:E1. destruct (Hm s s1 r1 Ht E1) as (Ht1 & Hp1 & Hr1 & Hq1).
  destruct r1 as [x|e|]; [|intros [= <- <-]; split_and!; [exact Ht1|discriminate|discriminate|intros Hq; destruct (Hq1 Hq) as (_ & ? & ?); discriminate]|contradiction].
  destruct (Hr1 x eq_refl) as [Hret Hgood]. intros Hend.
  destruct (Hk x Hret out s1 s' r Ht1 Hend) as (Ht2 & Hp2 & Hr2 & Hq2). split_and!; [exact Ht2|exact Hp2|..].
  - intros out' Hout. destruct (Hr2 out' Hout) as (l & Hl & HR & HC). exists l. split_and!; [exact Hl|exact HR|].
    intros Hq. apply HC; [apply (Hq1 Hq)|apply Hgood, Hq].
  - intros Hq. apply Hq2, (Hq1 Hq).
Qed.

Lemma next_entry_step names s s' r :
  FsStore.on_fs (Fs.next_entry names) s = (s', r) ->
  T s' = T s /\ r <> Panic /\
  (forall x, r = Ok x -> x = match names with [] => None | n :: ns => Some (n, ns) end) /\
  (quiet_p s -> quiet_p s' /\ exists x, r = Ok x).
Proof.
  unfold Fs.next_entry. rewrite on_fs_syscall. intros [= <- <-]. rewrite T_mk.
  destruct (Fs.next_fault (p_fs s)) eqn:Ef; cbn; split_and!; try reflexivity; try discriminate.
  - intros Hq. rewrite (Fs.quiet_next _ Hq) in Ef. discriminate.
  - intros x [= <-]. reflexivity.
  - intros Hq. split; [apply Fs.quiet_tail, Hq|eauto].
Qed.

(** The loop over a directory's entries. *)
Lemma for_entries_appends t names body (R C : string -> list Digest -> Prop) :
  (forall name, name ∈ names -> appends t (R name) (C name) (body name)) ->
  appends t (fun l => exists ls, l = concat ls /\ Forall2 R names ls)
    (fun l => exists ls, l = concat ls /\ Forall2 (fun n x => R n x /\ C n x) names ls)
    (FsStore.for_entries names body).
Proof.
  intros Hb. induction names as [|name names IH]; intros out s s' r Ht; cbn [FsStore.for_entries];
    unfold mbind, stm_bind; destruct (FsStore.on_fs (Fs.next_entry _) s) as [s1 r1] eqn:E1;
    destruct (next_entry_step _ _ _ _ E1) as (Ht1 & Hp1 & Hr1 & Hq1); rewrite Ht in Ht1;
    (destruct r1 as [x|e|]; [specialize (Hr1 x eq_refl); subst x|intros [= <- <-]; split_and!; [exact Ht1|discriminate|discriminate|intros Hq; destruct (Hq1 Hq) as (_ & ? & ?); discriminate]|contradiction]).
  - intros [= <- <-]. split_and!; [exact Ht1|discriminate| |intros Hq; split; [apply Hq1, Hq|eauto]].
    intros out' [= <-]. exists []. rewrite app_nil_r. split_and!; [reflexivity|exists []; auto|intros; exists []; auto].
  - destruct (body name out s1) as [s2 r2] eqn:E2.
    destruct (Hb name ltac:(left) out s1 s2 r2 Ht1 E2) as (Ht2 & Hp2 & Hr2 & Hq2).
    destruct r2 as [out2|e|]; [|intros [= <- <-]; split_and!; [exact Ht2|discriminate|discriminate|
      intros Hq; destruct (Hq2 (proj1 (Hq1 Hq))) as (_ & ? & ?); discriminate]|contradiction].
    destruct (Hr2 out2 eq_refl) as (l & -> & HR & HC). intros Hend.
    destruct (IH (fun n Hn => Hb n (list_elem_of_further _ _ _ Hn)) _ s2 s' r Ht2 Hend) as (Ht3 & Hp3 & Hr3 & Hq3).
    split_and!; [exact Ht3|exact Hp3| |intros Hq; apply Hq3, Hq2, Hq1, Hq].
    intros out' Hout. destruct (Hr3 out' Hout) as (l' & -> & (ls & -> & Hls) & HC').
    exists (l ++ concat ls)%list. rewrite app_assoc. split_and!; [reflexivity|exists (l :: ls); auto|].
    intros Hq. destruct (HC' (proj1 (Hq2 (proj1 (Hq1 Hq))))) as (ls' & Heq & Hls').
    exists (l :: ls'). cbn. rewrite Heq. split; [reflexivity|constructor; [split; [exact HR|apply HC, (Hq1 Hq)]|exact Hls']].
Qed.

(** The digests of one algorithm and shard that are stored. *)
Definition stored (t : tree) (a : DigestAlgo) (p : string) (d : Digest) : Prop :=
  algo d = a /\ Digest.valid d /\ str_take 2 (hex d) = p /\ is_Some (view t d).

Lemma hex_split d : Digest.valid d -> (str_take 2 (hex d) ++ str_drop 2 (hex d))%string = hex d.
Proof.
  intros (a & b & t & ->)%valid_hex_cons. destruct (str_split_at2 a b t) as [-> ->]. reflexivity.
Qed.

(** Every file of a shard directory is a stored blob. *)
Lemma shard_entry t a p f :
  tree_ok t -> p <> ".tmp"%string -> f ∈ Fs.children t (FsStore.algo_dir self a ++ [p]) ->
  exists d, Digest.new a (p ++ f) = Ok d /\ stored t a p d /\ f = str_drop 2 (hex d).
Proof.
  intros Ht Hp (n & Hn)%Fs.elem_of_children. rewrite <- app_assoc in Hn. change ([p] ++ [f]) with [p; f] in Hn.
  destruct (ok_blobs t Ht a p f n Hp Hn) as (d & b & <- & Hd & Hpath & -> & _).
  apply algo_dir_app_inj in Hpath as Hx. destruct Hx as [_ Hx]. injection Hx as <- <-.
  exists d. rewrite hex_split by exact Hd. split_and!; [apply Digest.valid_new, Hd| |reflexivity].
  split_and!; try reflexivity; try exact Hd. unfold view. rewrite Hpath, Hn. eauto.
Qed.

Lemma read_dir_step q t s s' r :
  T s = t -> FsStore.on_fs (Fs.read_dir q) s = (s', r) ->
  T s' = t /\ r <> Panic /\ (forall x, r = Ok x -> x = Fs.children t q /\ (quiet_p s -> True)) /\
  (quiet_p s -> t !! q = Some Dir -> quiet_p s' /\ exists x, r = Ok x).
Proof.
  intros <-. unfold Fs.read_dir. rewrite on_fs_syscall. intros [= <- <-]. rewrite T_mk.
  destruct (Fs.next_fault (p_fs s)) eqn:Ef; cbn; split_and!; try reflexivity; try discriminate.
  - intros Hq. rewrite (Fs.quiet_next _ Hq) in Ef. discriminate.
  - destruct (Fs.is_dir_in (T s) q); discriminate.
  - intros x. destruct (Fs.is_dir_in (T s) q); [|discriminate]. intros [= <-]. auto.
  - intros Hq Hd. split; [apply Fs.quiet_tail, Hq|].
    rewrite (proj2 (Fs.is_dir_in_spec (T s) q)) by auto. eauto.
Qed.

Lemma test_path_step (f : node -> bool) q n t s s' r :
  T s = t -> q <> [] -> t !! q = Some n -> FsStore.on_fs (Fs.test_path f q) s = (s', r) ->
  T s' = t /\ r <> Panic /\ (forall x, r = Ok x -> (x = f n \/ x = false) /\ (quiet_p s -> x = f n)) /\
  (quiet_p s -> quiet_p s' /\ exists x, r = Ok x).
Proof.
  intros <- Hne Hn. unfold Fs.test_path, Fs.metadata, FsStore.on_fs. rewrite Fs.syscall_run.
  fold (T s). rewrite Hn. destruct (Fs.next_fault (p_fs s)) eqn:Ef; cbn; intros [= <- <-];
    (split_and!; [reflexivity|discriminate| |]).
  - intros x [= <-]. split; [auto|]. intros Hq. rewrite (Fs.quiet_next _ Hq) in Ef. discriminate.
  - intros Hq. rewrite (Fs.quiet_next _ Hq) in Ef. discriminate.
  - intros x [= <-]. auto.
  - intros Hq. split; [apply Fs.quiet_tail, Hq|eauto].
Qed.

Definition listed (t : tree) (P : Digest -> Prop) (l : list Digest) : Prop := NoDup l /\ forall d, d ∈ l -> P d.
Definition complete (P : Digest -> Prop) (l : list Digest) : Prop := forall d, P d -> d ∈ l.

(** Concatenating disjoint listings. *)
Lemma listed_concat {K} t (P : K -> Digest -> Prop) names ls :
  (forall k k' d, P k d -> P k' d -> k = k') -> NoDup names ->
  Forall2 (fun k l => listed t (P k) l) names ls ->
  listed t (fun d => exists k, k ∈ names /\ P k d) (concat ls).
Proof.
  intros Hinj Hnd Hall. induction Hall as [|k l names ls [Hl HP] Hall IH]; cbn.
  - split; [constructor|]. intros d Hd. inversion Hd.
  - apply NoDup_cons in Hnd as [Hk Hnd]. destruct (IH Hnd) as [Hn Hd]. split.
    + apply NoDup_app. split_and!; [exact Hl| |exact Hn]. intros d Hd1 Hd2.
      destruct (Hd d Hd2) as (k' & Hk' & HP'). rewrite (Hinj k k' d (HP d Hd1) HP') in Hk. contradiction.
    + intros d [Hd1|Hd1]%elem_of_app; [exists k; split; [left|auto]|].
      destruct (Hd d Hd1) as (k' & Hk' & HP'). exists k'. split; [right; exact Hk'|exact HP'].
Qed.

Lemma complete_concat {K} (P : K -> Digest -> Prop) names ls k d :
  Forall2 (fun k l => complete (P k) l) names ls -> k ∈ names -> P k d -> d ∈ concat ls.
Proof.
  intros Hall Hk HP. induction Hall as [|k' l names ls Hl Hall IH]; cbn; [inversion Hk|].
  apply elem_of_app. apply elem_of_cons in Hk as [->|Hk]; [left; apply Hl, HP|right; auto].
Qed.

Lemma starts_with_dot p : starts_with "." p = true <-> exists t, p = String "." t.
Proof.
  unfold starts_with. rewrite bool_decide_eq_true. destruct p as [|c p].
  - split; [intros [? [=]]|intros [? [=]]].
  - change (strip_prefix "." (String c p)) with (if Ascii.eqb "." c then Some p else None).
    destruct (Ascii.eqb_spec "." c) as [<-|Hc].
    + split; intros _; eauto.
    + split; [intros [? [=]]|]. intros [u Hu]. injection Hu as Hu _. congruence.
Qed.

Lemma filtered_prefix p :
  (starts_with "." p || negb (String.length p =? 2)%nat)%bool = true ->
  forall d, Digest.valid d -> str_take 2 (hex d) <> p.
Proof.
  intros Hf d Hd <-. destruct (valid_hex_cons d Hd) as (a & b & t & Hh). destruct Hd as [_ Hl].
  rewrite Hh in *. rewrite (proj1 (str_split_at2 a b t)) in Hf. cbn in Hl.
  apply andb_true_iff in Hl as [Ha _]. apply orb_true_iff in Hf as [Hf|Hf]; [|discriminate].
  apply starts_with_dot in Hf as (u & [=]). subst a. discriminate Ha.
Qed.

Lemma appends_weaken t (R R' C C' : list Digest -> Prop) m :
  (forall l, R l -> R' l) -> (forall l, C l -> C' l) -> appends t R C m -> appends t R' C' m.
Proof.
  intros HR HC Hm out s s' r Ht Hr. destruct (Hm out s s' r Ht Hr) as (H1 & H2 & H3 & H4).
  split_and!; [exact H1|exact H2| |exact H4].
  intros out' Hout. destruct (H3 out' Hout) as (l & ? & ? & ?). exists l. auto.
Qed.

Lemma listed_weaken t (P Q : Digest -> Prop) l : listed t P l -> (forall d, P d -> Q d) -> listed t Q l.
Proof. intros [Hn Hp] Hpq. split; auto. Qed.

Lemma push_file_appends t a p f :
  tree_ok t -> p <> ".tmp"%string -> f ∈ Fs.children t (FsStore.algo_dir self a ++ [p]) ->
  let P d := stored t a p d /\ f = str_drop 2 (hex d) in
  appends t (listed t P) (complete P) (FsStore.push_file a p f).
Proof.
  intros Ht Hp Hf P. destruct (shard_entry t a p f Ht Hp Hf) as (d & Hnew & Hst & Hfd).
  unfold FsStore.push_file. rewrite Hnew. apply appends_ret.
  - split; [apply NoDup_singleton|]. intros e ->%list_elem_of_singleton. split; assumption.
  - intros e [(Ha & He & Hpe & _) Hfe]. apply list_elem_of_singleton.
    destruct Hst as (Ha' & Hd & Hpd & _). apply blob_path_inj; [exact He|exact Hd|].
    unfold blob_path. congruence.
Qed.

Lemma collect_prefix_appends t a p :
  tree_ok t -> p ∈ Fs.children t (FsStore.algo_dir self a) ->
  appends t (listed t (stored t a p)) (complete (stored t a p)) (FsStore.collect_prefix self a p).
Proof.
  intros Ht Hp. unfold FsStore.collect_prefix.
  destruct (starts_with "." p || negb (String.length p =? 2)%nat) eqn:Ef.
  - apply appends_nil; [split; [constructor|intros d Hd; inversion Hd]|].
    intros d (_ & Hd & Hpre & _). destruct (filtered_prefix p Ef d Hd Hpre).
  - assert (Htmp : p <> ".tmp"%string) by (intros ->; discriminate).
    apply Fs.elem_of_children in Hp as (n & Hn).
    assert (n = Dir) as ->.
    { destruct n; [reflexivity|]. exfalso. refine (ok_dirs t Ht a p (length (FsStore.algo_dir self a ++ [p])) content _).
      rewrite firstn_all. exact Hn. }
    eapply (appends_bind t _ _ _ (fun _ => True) (fun x => x = true) (fun is_dir out =>
      if negb is_dir then mret out else
      FsStore.on_fs (Fs.read_dir (FsStore.algo_dir self a ++ [p])) ≫= fun files =>
      FsStore.for_entries files (FsStore.push_file a p) out)).
    { intros s s' r Hs Hr. destruct (test_path_step _ (FsStore.algo_dir self a ++ [p]) Dir t s s' r Hs ltac:(destruct (FsStore.algo_dir self a); discriminate) Hn Hr)
        as (H1 & H2 & H3 & H4). split_and!; [exact H1|exact H2| |exact H4].
      intros x Hx. split; [exact I|apply (H3 x Hx)]. }
    intros [] _; cbn [negb]; [|apply appends_nil; [split; [constructor|intros d Hd; inversion Hd]|intros Hb; discriminate Hb]].
    eapply (appends_bind t _ _ _ (fun x => x = Fs.children t (FsStore.algo_dir self a ++ [p])) (fun _ => True)
              (fun files out => FsStore.for_entries files (FsStore.push_file a p) out)).
    { intros s s' r Hs Hr. destruct (read_dir_step _ t s s' r Hs Hr) as (H1 & H2 & H3 & H4).
      split_and!; [exact H1|exact H2|exact H3|intros Hq; apply H4; [exact Hq|exact Hn]]. }
    intros files ->. eapply appends_weaken; [| |apply for_entries_appends; intros f Hf; apply (push_file_appends t a p f Ht Htmp Hf)].
    + intros l (ls & -> & Hall). apply (listed_weaken _ (fun d => exists f, f ∈ Fs.children t (FsStore.algo_dir self a ++ [p]) /\
        (stored t a p d /\ f = str_drop 2 (hex d)))); [|intros d (f & _ & Hs & _); exact Hs].
      apply (listed_concat t (fun f d => stored t a p d /\ f = str_drop 2 (hex d))); [intros k k' d [_ ->] [_ ->]; reflexivity|apply Fs.NoDup_children|exact Hall].
    + intros l (ls & -> & Hall) _ _ d Hd.
      eapply (complete_concat (fun f d => stored t a p d /\ f = str_drop 2 (hex d)) _ ls (str_drop 2 (hex d)));
        [eapply Forall2_impl; [exact Hall|intros f l [_ Hc]; exact Hc]| |auto].
      destruct Hd as (<- & Hd & <- & b & Hb). apply Fs.elem_of_children. exists (File b).
      fold (shard_dir d). rewrite <- blob_path_snoc, view_lookup, Hb by assumption. reflexivity.
Qed.

(** Stored digests of one algorithm. *)
Definition stored_algo (t : tree) (a : DigestAlgo) (d : Digest) : Prop :=
  algo d = a /\ Digest.valid d /\ is_Some (view t d).

(** A stored blob's directories are there. *)
Lemma stored_dirs t d b :
  tree_ok t -> Digest.valid d -> view t d = Some b ->
  t !! shard_dir d = Some Dir /\ t !! FsStore.algo_dir self (algo d) = Some Dir.
Proof.
  intros Ht Hd Hb. pose proof (view_lookup t d Ht Hd) as Hl. rewrite Hb in Hl.
  apply (ok_closed t Ht) in Hl. rewrite blob_path_parent in Hl.
  apply Fs.is_dir_in_spec in Hl as [Hn|Hs]; [unfold shard_dir in Hn; destruct (FsStore.algo_dir self (algo d)); discriminate|].
  split; [exact Hs|]. apply (ok_closed t Ht) in Hs. unfold shard_dir in Hs. rewrite Fs.parent_snoc in Hs.
  apply Fs.is_dir_in_spec in Hs as [Hn|Hs]; [|exact Hs]. unfold FsStore.algo_dir in Hn. destruct (root self); discriminate.
Qed.

Lemma collect_algo_appends t a :
  tree_ok t -> t !! FsStore.algo_dir self a = Some Dir ->
  appends t (listed t (stored_algo t a)) (complete (stored_algo t a)) (FsStore.collect_algo self a).
Proof.
  intros Ht Hdir. unfold FsStore.collect_algo.
  eapply (appends_bind t _ _ _ (fun x => x = Fs.children t (FsStore.algo_dir self a)) (fun _ => True)
            (fun entries out => FsStore.for_entries entries (FsStore.collect_prefix self a) out)).
  { intros s s' r Hs Hr. destruct (read_dir_step _ t s s' r Hs Hr) as (H1 & H2 & H3 & H4).
    split_and!; [exact H1|exact H2|exact H3|intros Hq; apply H4; [exact Hq|exact Hdir]]. }
  intros entries ->. eapply appends_weaken; [| |apply for_entries_appends; intros p Hp; exact (collect_prefix_appends t a p Ht Hp)].
  - intros l (ls & -> & Hall).
    apply (listed_weaken _ (fun d => exists p, p ∈ Fs.children t (FsStore.algo_dir self a) /\ stored t a p d)).
    + apply (listed_concat t (stored t a)); [intros k k' d (_ & _ & <- & _) (_ & _ & <- & _); reflexivity|apply Fs.NoDup_children|exact Hall].
    + intros d (p & _ & Ha & Hd & _ & Hb). split_and!; assumption.
  - intros l (ls & -> & Hall) _ d (Ha & Hd & b & Hb).
    apply (complete_concat (stored t a) (Fs.children t (FsStore.algo_dir self a)) ls (str_take 2 (hex d)));
      [eapply Forall2_impl; [exact Hall|intros p l [_ Hc]; exact Hc]| |split_and!; eauto].
    apply Fs.elem_of_children. exists Dir. rewrite <- Ha. apply (stored_dirs t d b); assumption.
Qed.

Lemma list_algo_appends t a :
  tree_ok t -> appends t (listed t (stored_algo t a)) (complete (stored_algo t a)) (FsStore.list_algo self a).
Proof.
  intros Ht. unfold FsStore.list_algo.
  assert (Hne : FsStore.algo_dir self a <> []) by (unfold FsStore.algo_dir; destruct (root self); discriminate).
  assert (Hnil : listed t (stored_algo t a) []) by (split; [constructor|intros d Hd; inversion Hd]).
  destruct (t !! FsStore.algo_dir self a) as [n|] eqn:E.
  - assert (n = Dir) as ->.
    { destruct n; [reflexivity|]. exfalso. refine (ok_dirs t Ht a "" (length (FsStore.algo_dir self a)) content _).
      rewrite take_app_length. exact E. }
    eapply (appends_bind t _ _ _ (fun _ => True) (fun x => x = true)
              (fun there out => if negb there then mret out else FsStore.collect_algo self a out)).
    { intros s s' r Hs Hr. destruct (test_path_step _ (FsStore.algo_dir self a) Dir t s s' r Hs Hne E Hr)
        as (H1 & H2 & H3 & H4). split_and!; [exact H1|exact H2| |exact H4].
      intros x Hx. split; [exact I|apply (H3 x Hx)]. }
    intros [] _; cbn [negb]; [|apply appends_nil; [exact Hnil|intros Hb; discriminate Hb]].
    eapply appends_weaken; [intros l Hl; exact Hl| |apply collect_algo_appends; assumption]. auto.
  - intros out s s' r Hs. unfold mbind, stm_bind, FsStore.on_fs, Fs.exists_, Fs.test_path, Fs.metadata.
    rewrite Fs.syscall_run. fold (T s). rewrite Hs, E, decide_False by exact Hne.
    assert (Hc : complete (stored_algo t a) []).
    { intros d (<- & Hd & b & Hb). destruct (stored_dirs t d b Ht Hd Hb). congruence. }
    destruct (Fs.next_fault (p_fs s)) eqn:Ef; cbn; intros [= <- <-];
      (split_and!; [reflexivity|discriminate| |]);
      try (intros out' [= <-]; exists []; rewrite app_nil_r; split_and!; auto);
      intros Hq; (split; [apply Fs.quiet_tail, Hq|eauto]).
Qed.

Lemma list_spec_fs s s' r :
  tree_ok (T s) -> FsStore.list_ self s = (s', r) ->
  T s' = T s /\ r <> Panic /\
  (forall l, r = Ok l -> NoDup l /\ (forall d, d ∈ l -> Digest.valid d /\ is_Some (view (T s) d)) /\
     (quiet_p s -> forall d, Digest.valid d -> is_Some (view (T s) d) -> d ∈ l)) /\
  (quiet_p s -> quiet_p s' /\ exists l, r = Ok l).
Proof.
  intros Ht. unfold FsStore.list_, mbind, stm_bind.
  destruct (FsStore.list_algo self Sha256 [] s) as [s1 r1] eqn:E1.
  destruct (list_algo_appends (T s) Sha256 Ht [] s s1 r1 eq_refl E1) as (Ht1 & Hp1 & Hr1 & Hq1).
  destruct r1 as [o1|e|]; [|intros [= <- <-]; split_and!; [exact Ht1|discriminate|discriminate|intros Hq; destruct (Hq1 Hq) as (_ & ? & ?); discriminate]|contradiction].
  destruct (Hr1 o1 eq_refl) as (l1 & -> & [Hn1 Hd1] & Hc1). intros E2.
  destruct (list_algo_appends (T s) Sha512 Ht _ s1 s' r Ht1 E2) as (Ht2 & Hp2 & Hr2 & Hq2).
  split_and!; [exact Ht2|exact Hp2| |intros Hq; apply Hq2, Hq1, Hq].
  intros l Hl. destruct (Hr2 l Hl) as (l2 & -> & [Hn2 Hd2] & Hc2). cbn. split_and!.
  - apply NoDup_app. split_and!; [exact Hn1| |exact Hn2]. intros d H1 H2.
    destruct (Hd1 d H1) as [Ha1 _]. destruct (Hd2 d H2) as [Ha2 _]. congruence.
  - intros d [Hd|Hd]%elem_of_app; [apply Hd1 in Hd|apply Hd2 in Hd]; destruct Hd as (_ & ? & ?); auto.
  - intros Hq d Hd Hb. apply elem_of_app. destruct (algo d) eqn:Ea.
    + left. apply (Hc1 Hq). split_and!; assumption.
    + right. apply (Hc2 (proj1 (Hq1 Hq))). split_and!; assumption.
Qed.

(** ** The interface *)

Lemma holds_self s : tree_ok (T s) -> holds (view (T s)) s.
Proof. intros Hs. split; auto. Qed.

(** A put, in terms of the views before and after. *)
Lemma put_view s d b :
  tree_ok (T s) -> Digest.valid d ->
  tree_ok (T (fst (FsStore.put self d b s))) /\ snd (FsStore.put self d b s) <> Panic /\
  (forall e, Digest.valid e -> e <> d -> view (T (fst (FsStore.put self d b s))) e = view (T s) e) /\
  (forall u, snd (FsStore.put self d b s) = Ok u -> is_Some (view (T (fst (FsStore.put self d b s))) d)) /\
  (forall e, snd (FsStore.put self d b s) = Err e -> view (T (fst (FsStore.put self d b s))) d = view (T s) d).
Proof.
  intros Hs Hd. destruct (decide (matches d b)) as [Hm|Hm].
  2: { rewrite put_mismatch_eq by exact Hm. cbn. split_and!; auto; discriminate. }
  destruct (FsStore.put self d b s) as [s' r] eqn:E. cbn [fst snd].
  destruct (put_spec s d b _ s' r (holds_self s Hs) Hd Hm E) as [Hout _].
  destruct Hout as [[-> [Hok Hv]]|[[Hok Hv] Hr]].
  - split_and!; [exact Hok|discriminate| | |discriminate].
    + intros e He Hne. rewrite Hv by exact He. apply decide_False, Hne.
    + intros _ _. rewrite Hv, decide_True by auto. eauto.
  - split_and!; [exact Hok| |auto| |auto].
    + destruct Hr as [[-> _]|[e ->]]; discriminate.
    + intros u Hu. rewrite Hv by exact Hd. destruct Hr as [[_ Hr]|[e ->]]; [exact Hr|discriminate].
Qed.

#[export] Instance fs_laws : @BlobStoreLaws H Process (FsStore.fs_store self).
Proof.
  refine {| bs_view := fun s => view (T s); bs_ok := fun s => tree_ok (T s); bs_quiet := quiet_p |}; cbn.
  - intros s d b Hs Hd Hb. exact (view_sound _ d b Hs Hd Hb).
  - apply put_mismatch_eq.
  - intros s d b Hs Hd. apply put_view; assumption.
  - intros s d b Hs Hd. apply put_view; assumption.
  - intros s d b e Hs Hd He. apply put_view; assumption.
  - intros s s' d b u Hs Hd Hp. pose proof (put_view s d b Hs Hd) as Hv. rewrite Hp in Hv. cbn in Hv.
    destruct Hv as (_ & _ & _ & Hv & _). eauto.
  - intros s s' d b e Hs Hd Hp. pose proof (put_view s d b Hs Hd) as Hv. rewrite Hp in Hv. cbn in Hv.
    destruct Hv as (_ & _ & _ & _ & Hv). eauto.
  - intros s d b Hs Hq Hd Hm. destruct (FsStore.put self d b s) as [s' r] eqn:E. cbn.
    destruct (put_spec s d b _ s' r (holds_self s Hs) Hd Hm E) as [_ Hquiet].
    destruct (Hquiet Hq) as (Hq' & -> & _ & Hv). rewrite Hv, decide_True by auto. auto.
  - intros s d Hs Hd. destruct (get_eq s d Hs Hd) as (-> & -> & _). split_and!; [exact Hs|reflexivity|].
    destruct (Fs.next_fault (p_fs s)); [exact I|]. destruct (view (T s) d); cbn; auto.
  - intros s d Hs Hq Hd. destruct (get_eq s d Hs Hd) as (_ & -> & Hq'). rewrite (Fs.quiet_next _ Hq). auto.
  - intros s d Hs Hd. destruct (contains_eq s d Hs Hd) as (-> & -> & _). split_and!; [exact Hs|reflexivity|].
    destruct (Fs.next_fault (p_fs s)); [exact I|reflexivity].
  - intros s d Hs Hq Hd. destruct (contains_eq s d Hs Hd) as (_ & -> & Hq'). rewrite (Fs.quiet_next _ Hq). auto.
  - intros s d Hs Hd. destruct (delete_eq s d Hs Hd) as (-> & -> & _).
    destruct (Fs.next_fault (p_fs s)); [auto|]. split_and!; [apply tree_ok_delete_blob; assumption|..].
    + intros e He Hne. rewrite view_delete by assumption. apply decide_False, Hne.
    + rewrite view_delete by assumption. apply decide_True. reflexivity.
  - intros s d Hs Hq Hd. destruct (delete_eq s d Hs Hd) as (_ & -> & Hq'). rewrite (Fs.quiet_next _ Hq). auto.
  - intros s Hs. destruct (FsStore.list_ self s) as [s' r] eqn:E. cbn.
    destruct (list_spec_fs s s' r Hs E) as (Ht & Hp & Hl & _). rewrite Ht. split_and!; [exact Hs|reflexivity|].
    destruct r as [l| |]; [|exact I|contradiction]. destruct (Hl l eq_refl) as (H1 & H2 & _). auto.
  - intros s Hs Hq. destruct (FsStore.list_ self s) as [s' r] eqn:E. cbn.
    destruct (list_spec_fs s s' r Hs E) as (_ & _ & Hl & Hq'). destruct (Hq' Hq) as (H1 & l & ->).
    split; [exact H1|]. exists l. split; [reflexivity|]. apply (Hl l eq_refl), Hq.
Defined.

End Paths.
