(* ===== verification/FsConcurrent.v ===== *)
(** * Concurrent writers of the filesystem blob store

    [FsBlobStore::put] runs as a sequence of system calls, and any number of
    tasks of the process interleave theirs. Each writer has its own number
    from [TMP_SEQ], hence its own temporary file. The step relation lets any
    writer perform its next call of [FsStore.put] (with or without a fault),
    lets a write stop in the middle, and lets another task delete a blob. *)

From stdpp Require Import pretty.
From S2P Require Import Prelude Str Frame Net Fs Digest BlobStore FsStore FsStoreSpec.

(** Where a writer is in [put]. *)
Inductive pc := AtShard | AtTmpDir | AtWrite | AtRename | AtCleanup | AtEnd.

Record Writer := mkWriter { w_digest : Digest; w_bytes : bytes; w_pc : pc }.

Definition set_pc (k : pc) (w : Writer) : Writer := mkWriter (w_digest w) (w_bytes w) k.

Record System := mkSystem { disk : tree; writers : gmap Z Writer }.

Section Steps.
Context `{H : Hashing} {HL : HashingLaws H} (self : FsBlobStore) (pid : Z).

Definition tmp_path (n : Z) (w : Writer) : path :=
  FsStore.tmp_dir self (algo (w_digest w)) ++ [FsStore.tmp_name (w_digest w) pid n].

(** One system call of [m] with fault [x]. *)
Definition call {A} (m : stm Fs io_error A) (x : option fault) (t t' : tree) (r : outcome io_error A) : Prop :=
  m (mkFs t [x]) = (mkFs t' [], r).

(** The next call of writer [n], and where it goes from there. *)
Inductive writer_step (n : Z) (t : tree) (w : Writer) : tree -> pc -> Prop :=
| step_shard x t' r :
    w_pc w = AtShard -> call (Fs.create_dir_all (shard_dir self (w_digest w))) x t t' r ->
    writer_step n t w t' (match r with Ok _ => AtTmpDir | _ => AtEnd end)
| step_tmp_dir x t' r :
    w_pc w = AtTmpDir -> call (Fs.create_dir_all (FsStore.tmp_dir self (algo (w_digest w)))) x t t' r ->
    writer_step n t w t' (match r with Ok _ => AtWrite | _ => AtEnd end)
| step_write_some k :
    w_pc w = AtWrite -> Fs.can_write t (tmp_path n w) = Ok tt ->
    writer_step n t w (<[tmp_path n w := File (take k (w_bytes w))]> t) AtWrite
| step_write x t' r :
    w_pc w = AtWrite -> call (Fs.write (tmp_path n w) (w_bytes w)) x t t' r ->
    writer_step n t w t' (match r with Ok _ => AtRename | _ => AtEnd end)
| step_rename x t' r :
    w_pc w = AtRename -> call (Fs.rename (tmp_path n w) (blob_path self (w_digest w))) x t t' r ->
    writer_step n t w t' (match r with Ok _ => AtEnd | _ => AtCleanup end)
| step_cleanup x t' r :
    w_pc w = AtCleanup -> call (Fs.remove_file (tmp_path n w)) x t t' r -> writer_step n t w t' AtEnd.

Inductive step : System -> System -> Prop :=
| step_spawn c n d b :
    (* a put that passed its digest check takes a fresh number *)
    writers c !! n = None -> (0 <= n)%Z -> Digest.valid d -> matches d b ->
    step c (mkSystem (disk c) (<[n := mkWriter d b AtShard]> (writers c)))
| step_writer c n w t' k :
    writers c !! n = Some w -> writer_step n (disk c) w t' k ->
    step c (mkSystem t' (<[n := set_pc k w]> (writers c)))
| step_delete c d x t' r :
    Digest.valid d -> call (Fs.remove_file (blob_path self d)) x (disk c) t' r ->
    step c (mkSystem t' (writers c)).

(** ** The invariant *)

Definition writer_ok (t : tree) (n : Z) (w : Writer) : Prop :=
  (0 <= n)%Z /\ Digest.valid (w_digest w) /\ matches (w_digest w) (w_bytes w) /\
  (w_pc w = AtRename -> t !! tmp_path n w = Some (File (w_bytes w))).

Record system_ok (c : System) : Prop := {
  sys_tree : tree_ok self (disk c);
  sys_writers : map_Forall (writer_ok (disk c)) (writers c);
}.

(** What one step may do to the blob readers see under [e]. *)
Definition view_step (c c' : System) (e : Digest) : Prop :=
  view self (disk c') e = view self (disk c) e \/
  view self (disk c') e = None \/
  exists n w, writers c !! n = Some w /\ w_digest w = e /\ view self (disk c') e = Some (w_bytes w).

Lemma string_app_inj_len (a a' b b' : string) :
  String.length a = String.length a' -> (a ++ b = a' ++ b')%string -> a = a' /\ b = b'.
Proof.
  revert a'. induction a as [|c a IH]; intros [|c' a'] Hl; try discriminate; [auto|].
  change (String c (a ++ b) = String c' (a' ++ b') -> String c a = String c' a' /\ b = b').
  intros Heq. injection Heq as -> Heq. destruct (IH a' ltac:(cbn in Hl; lia) Heq) as [-> ->]. auto.
Qed.

Lemma string_app_inj_l (a b b' : string) : (a ++ b = a ++ b')%string -> b = b'.
Proof. intros Heq. exact (proj2 (string_app_inj_len a a b b' eq_refl Heq)). Qed.

Lemma string_length_app (a b : string) : String.length (a ++ b) = (String.length a + String.length b)%nat.
Proof. induction a as [|c a IH]; [reflexivity|]. change (S (String.length (a ++ b)) = S (String.length a) + String.length b)%nat. rewrite IH. reflexivity. Qed.

Lemma string_app_inj_r (a a' b : string) : (a ++ b = a' ++ b)%string -> a = a'.
Proof.
  intros Heq. assert (Hl : String.length a = String.length a').
  { apply (f_equal String.length) in Heq. rewrite !string_length_app in Heq. lia. }
  exact (proj1 (string_app_inj_len a a' b b Hl Heq)).
Qed.

Lemma display_u64_inj m n : (0 <= m)%Z -> (0 <= n)%Z -> display_u64 m = display_u64 n -> m = n.
Proof. intros Hm Hn Heq. apply pretty_N_inj in Heq. lia. Qed.

(** Two writers never share a temporary file. *)
Lemma tmp_path_inj n m w w' :
  (0 <= n)%Z -> (0 <= m)%Z -> Digest.valid (w_digest w) -> Digest.valid (w_digest w') ->
  tmp_path n w = tmp_path m w' -> n = m.
Proof.
  intros Hn Hm [Hd _] [Hd' _] Heq. unfold tmp_path, FsStore.tmp_dir in Heq. rewrite <- !app_assoc in Heq.
  apply algo_dir_app_inj in Heq as [Ha Heq]. injection Heq as Heq. unfold FsStore.tmp_name in Heq.
  apply string_app_inj_len in Heq as [_ Heq]; [|congruence]. apply string_app_inj_l, string_app_inj_l, string_app_inj_l in Heq.
  apply string_app_inj_r, display_u64_inj in Heq; assumption.
Qed.

(** ** What each call leaves alone *)

Definition proc (t : tree) (x : option fault) : Process := mkProcess (mkFs t [x]) 0 0.

Lemma call_on_fs {A} (m : stm Fs io_error A) x t t' r :
  call m x t t' r -> FsStore.on_fs m (proc t x) = (mkProcess (mkFs t' []) 0 0, map_err BsIo r).
Proof. unfold call, FsStore.on_fs. intros Hc. cbn. rewrite Hc. reflexivity. Qed.

Lemma call_try_fs {A} (m : stm Fs io_error A) x t t' r :
  call m x t t' r -> FsStore.try_fs m (proc t x) = (mkProcess (mkFs t' []) 0 0, Ok r).
Proof. unfold call, FsStore.try_fs. intros Hc. cbn. rewrite Hc. reflexivity. Qed.

Lemma mkdirs_frame a p x t t' r q :
  call (Fs.create_dir_all (FsStore.algo_dir self a ++ [p])) x t t' r ->
  length q = (length (root self) + 3)%nat -> t' !! q = t !! q.
Proof.
  unfold call, Fs.create_dir_all. rewrite Fs.syscall_run. intros [= <- _] Hq.
  destruct x as [f|]; cbn [fst files Fs.next_fault faults]; apply make_dirs_deep; try exact Hq;
    rewrite length_algo_dir; cbn; lia.
Qed.

Lemma write_frame p b x t t' r q : call (Fs.write p b) x t t' r -> q <> p -> t' !! q = t !! q.
Proof.
  unfold call, Fs.write. rewrite Fs.syscall_run. intros [= <- _] Hq. cbn.
  repeat case_match; cbn; rewrite ?lookup_insert_ne by congruence; reflexivity.
Qed.

Lemma rename_frame a b x t t' r q :
  call (Fs.rename a b) x t t' r -> q <> a -> q <> b -> t' !! q = t !! q.
Proof.
  unfold call, Fs.rename. rewrite Fs.syscall_run. intros [= <- _] Ha Hb. cbn.
  repeat case_match; cbn; rewrite ?lookup_insert_ne, ?lookup_delete_ne by congruence; reflexivity.
Qed.

Lemma remove_frame p x t t' r q : call (Fs.remove_file p) x t t' r -> q <> p -> t' !! q = t !! q.
Proof.
  unfold call, Fs.remove_file. rewrite Fs.syscall_run. intros [= <- _] Hp. cbn.
  repeat case_match; cbn; rewrite ?lookup_delete_ne by congruence; reflexivity.
Qed.

Lemma length_tmp_path n w : length (tmp_path n w) = (length (root self) + 3)%nat.
Proof. unfold tmp_path, FsStore.tmp_dir. rewrite <- app_assoc, length_algo_dir. cbn. lia. Qed.

(** A writer's own step keeps it and the tree sound, leaves other writers'
    temporary files alone, and shows readers the old blob or its whole one. *)
Lemma writer_step_ok t n w t' k :
  tree_ok self t -> writer_ok t n w -> writer_step n t w t' k ->
  tree_ok self t' /\ writer_ok t' n (set_pc k w) /\
  (forall m w', (0 <= m)%Z -> Digest.valid (w_digest w') -> m <> n -> t' !! tmp_path m w' = t !! tmp_path m w') /\
  (forall e, Digest.valid e -> view self t' e = view self t e \/ w_digest w = e /\ view self t' e = Some (w_bytes w)).
Proof.
  intros Ht (Hn & Hd & Hm & Hpc) Hstep.
  assert (Hh : forall x, holds self (view self t) (proc t x)) by (intros x; split; [exact Ht|reflexivity]).
  assert (Hother : forall m w', (0 <= m)%Z -> Digest.valid (w_digest w') -> m <> n -> tmp_path m w' <> tmp_path n w).
  { intros m w' Hm0 Hd' Hne Heq. apply tmp_path_inj in Heq; auto. }
  assert (Hkeep : forall t1 k1, holds self (view self t) (mkProcess (mkFs t1 []) 0 0) ->
    (k1 = AtRename -> t1 !! tmp_path n w = Some (File (w_bytes w))) ->
    (forall m w', (0 <= m)%Z -> Digest.valid (w_digest w') -> m <> n -> t1 !! tmp_path m w' = t !! tmp_path m w') ->
    tree_ok self t1 /\ writer_ok t1 n (set_pc k1 w) /\
    (forall m w', (0 <= m)%Z -> Digest.valid (w_digest w') -> m <> n -> t1 !! tmp_path m w' = t !! tmp_path m w') /\
    (forall e, Digest.valid e -> view self t1 e = view self t e \/ w_digest w = e /\ view self t1 e = Some (w_bytes w))).
  { intros t1 k1 [Ht1 Hv1] Hk1 Hf1. split_and!; [exact Ht1| |exact Hf1|intros e He; left; exact (Hv1 e He)].
    split_and!; [exact Hn|exact Hd|exact Hm|exact Hk1]. }
  destruct Hstep as [x t' r Hp Hc|x t' r Hp Hc|j Hp Hw|x t' r Hp Hc|x t' r Hp Hc|x t' r Hp Hc].
  - destruct (mkdirs_step self _ _ _ _ _ _ (Hh x) (call_on_fs _ _ _ _ _ Hc)) as (Hh' & _).
    apply Hkeep; [exact Hh'|destruct r; discriminate|].
    intros m w' _ _ _. eapply mkdirs_frame; [exact Hc|apply length_tmp_path].
  - destruct (mkdirs_step self _ _ _ _ _ _ (Hh x) (call_on_fs _ _ _ _ _ Hc)) as (Hh' & _).
    apply Hkeep; [exact Hh'|destruct r; discriminate|].
    intros m w' _ _ _. eapply mkdirs_frame; [exact Hc|apply length_tmp_path].
  - apply Hkeep; [|discriminate|].
    + split; [apply tree_ok_tmp; assumption|]. intros e He. apply view_insert_tmp, He.
    + intros m w' H1 H2 H3. apply lookup_insert_ne. pose proof (Hother m w' H1 H2 H3). congruence.
  - destruct (write_step self _ _ _ _ _ _ _ (Hh x) (call_on_fs _ _ _ _ _ Hc)) as (Hh' & _ & _ & Hw & _).
    apply Hkeep; [exact Hh'| |].
    + intros Hk. destruct r as [[]| |]; try discriminate Hk. exact (Hw eq_refl).
    + intros m w' H1 H2 H3. eapply write_frame; [exact Hc|]. apply Hother; assumption.
  - destruct (rename_step self _ _ _ _ _ _ _ _ (Hh x) (Hpc Hp) Hd Hm (call_try_fs _ _ _ _ _ Hc)) as [Hout _].
    assert (Hf : forall m w', (0 <= m)%Z -> Digest.valid (w_digest w') -> m <> n -> t' !! tmp_path m w' = t !! tmp_path m w').
    { intros m w' H1 H2 H3. eapply rename_frame; [exact Hc|apply Hother; assumption|apply tmp_ne_blob, Hd]. }
    destruct Hout as [[Hr [Ht1 Hv1]]|(e & Hr & Hh')].
    + split_and!; [exact Ht1| |exact Hf|].
      * injection Hr as ->. split_and!; [exact Hn|exact Hd|exact Hm|discriminate].
      * intros e He. specialize (Hv1 e He). case_decide as Hed; [right; split; [congruence|]|left]; exact Hv1.
    + injection Hr as ->. apply Hkeep; [exact Hh'|discriminate|exact Hf].
  - destruct (remove_tmp_step self _ _ _ _ _ _ (Hh x) (call_try_fs _ _ _ _ _ Hc)) as (Hh' & _).
    apply Hkeep; [exact Hh'|discriminate|].
    intros m w' H1 H2 H3. eapply remove_frame; [exact Hc|]. apply Hother; assumption.
Qed.

Lemma delete_step_ok t d x t' r :
  tree_ok self t -> Digest.valid d -> call (Fs.remove_file (blob_path self d)) x t t' r ->
  tree_ok self t' /\ (forall n w, t' !! tmp_path n w = t !! tmp_path n w) /\
  (forall e, Digest.valid e -> view self t' e = view self t e \/ view self t' e = None).
Proof.
  intros Ht Hd Hc. split_and!.
  - revert Hc. unfold call, Fs.remove_file. rewrite Fs.syscall_run. intros [= <- _]. cbn.
    repeat case_match; cbn; try exact Ht. eapply tree_ok_delete; eassumption.
  - intros n w. eapply remove_frame; [exact Hc|apply tmp_ne_blob, Hd].
  - intros e He. destruct (decide (e = d)) as [->|Hne].
    + revert Hc. unfold call, Fs.remove_file. rewrite Fs.syscall_run. intros [= <- _]. cbn.
      repeat case_match; cbn; auto. right. unfold view. rewrite lookup_delete_eq. reflexivity.
    + left. unfold view. erewrite remove_frame; [reflexivity|exact Hc|].
      intros Heq. apply Hne, (blob_path_inj self); assumption.
Qed.

Lemma step_ok c c' :
  system_ok c -> step c c' -> system_ok c' /\ forall e, Digest.valid e -> view_step c c' e.
Proof.
  intros [Ht Hw] Hstep. destruct Hstep as [c n d b Hn Hn0 Hd Hm|c n w t' k Hn Hs|c d x t' r Hd Hc].
  - split; [split; [exact Ht|]|intros e He; left; reflexivity].
    apply map_Forall_insert_2; [|exact Hw]. split_and!; [exact Hn0|exact Hd|exact Hm|discriminate].
  - destruct (writer_step_ok _ n w t' k Ht (Hw n w Hn) Hs) as (Ht' & Hw' & Hf & Hv).
    split; [split; [exact Ht'|]|].
    + intros m w' Hl. cbn in Hl. apply lookup_insert_Some in Hl as [[<- <-]|[Hne Hl]]; [exact Hw'|].
      destruct (Hw m w' Hl) as (H1 & H2 & H3 & H4). split_and!; [exact H1|exact H2|exact H3|].
      intros Hpc. cbn. rewrite Hf by auto. auto.
    + intros e He. destruct (Hv e He) as [Heq|[Hde Heq]]; [left; exact Heq|right; right; eauto].
  - destruct (delete_step_ok _ d x t' r Ht Hd Hc) as (Ht' & Hf & Hv). split; [split; [exact Ht'|]|].
    + intros m w Hl. destruct (Hw m w Hl) as (H1 & H2 & H3 & H4). split_and!; [exact H1|exact H2|exact H3|].
      intros Hpc. cbn. rewrite Hf. auto.
    + intros e He. destruct (Hv e He) as [Heq|Heq]; [left|right; left]; exact Heq.
Qed.

Lemma reachable_ok c c' : system_ok c -> rtc step c c' -> system_ok c'.
Proof. intros Hc Hr. induction Hr as [|c1 c2 c3 Hs _ IH]; [exact Hc|]. apply IH. eapply step_ok; eassumption. Qed.

Lemma tree_ok_empty : tree_ok self ∅.
Proof.
  split.
  - intros q n Hq. rewrite lookup_empty in Hq. discriminate.
  - intros a p r n _ Hn. rewrite lookup_empty in Hn. discriminate.
  - intros a p k c Hk. rewrite lookup_empty in Hk. discriminate.
  - intros a x Hx. rewrite lookup_empty in Hx. discriminate.
Qed.

End Steps.

(** C8: Atomic writes. Start from a sound directory tree with no put under
    way and let any number of puts (each past its digest check), with or
    without faults and partial writes, and deletes interleave their system
    calls. In every reachable state, what a reader finds under a digest has
    that digest, so no partial or foreign content is ever visible; and each
    further step leaves a digest's content unchanged, removes it, or replaces
    it by the complete bytes of a put of that digest. *)
Theorem concurrent_puts_atomic `{H : Hashing} {HL : HashingLaws H} (self : FsBlobStore) (pid : Z) (c c' : System)
    (Htree : tree_ok self (disk c)) (Hidle : writers c = ∅) (Hreach : rtc (step self pid) c c') :
  (forall e b, Digest.valid e -> view self (disk c') e = Some b -> matches e b) /\
  (forall c'' e, step self pid c' c'' -> Digest.valid e ->
     view self (disk c'') e = view self (disk c') e \/ view self (disk c'') e = None \/
     exists n w, writers c' !! n = Some w /\ w_digest w = e /\ view self (disk c'') e = Some (w_bytes w)).
Proof using.
  assert (Hok : system_ok self pid c').
  { eapply reachable_ok; [|exact Hreach]. split; [exact Htree|]. rewrite Hidle. apply map_Forall_empty. }
  split.
  - intros e b He. apply view_sound; [apply Hok|exact He].
  - intros c'' e Hs He. exact (proj2 (step_ok self pid c' c'' Hok Hs) e He).
Qed.

Lemma concurrent_puts_atomic_witness :
  let self := mkFsBlobStore ["data"%string] in
  let b := [x61; x62] in let d := Digest.sha256_of b in
  rtc (step self 7) (mkSystem ∅ ∅) (mkSystem ∅ {[ 0%Z := mkWriter d b AtShard ]}) /\
  forall c'' e, step self 7 (mkSystem ∅ {[ 0%Z := mkWriter d b AtShard ]}) c'' ->
  Digest.valid e -> view self (disk c'') e = None \/ view self (disk c'') e = Some b.
Proof.
  intros self b d.
  assert (Hr : rtc (step self 7) (mkSystem ∅ ∅) (mkSystem ∅ {[ 0%Z := mkWriter d b AtShard ]})).
  { apply rtc_once, (step_spawn _ _ (mkSystem ∅ ∅) 0 d b (lookup_empty _)); [lia|split; vm_compute; reflexivity|reflexivity]. }
  split; [exact Hr|]. intros c'' e Hs He.
  destruct (proj2 (concurrent_puts_atomic self 7 (mkSystem ∅ ∅)
    (mkSystem ∅ {[ 0%Z := mkWriter d b AtShard ]}) (tree_ok_empty _) eq_refl Hr) c'' e Hs He) as [Heq|[Heq|(n & w & Hn & _ & Heq)]].
  - left. rewrite Heq. reflexivity.
  - left. exact Heq.
  - right. rewrite Heq. cbn in Hn. apply lookup_singleton_Some in Hn as [_ <-]. reflexivity.
Defined.
