(* ===== verification/BlobProps.v ===== *)
(** * Properties of the blob stores

    Crash behaviour of the filesystem store's [put], and equivalence of the
    two implementations through the interface they share. *)

From S2P Require Import Prelude Str Frame Net Fs Digest BlobStore FsStore FsStoreSpec FsConcurrent.

(** ** Scripts of operations *)

Inductive blob_op :=
| OpPut (d : Digest) (b : bytes)
| OpGet (d : Digest)
| OpContains (d : Digest)
| OpDelete (d : Digest).

Inductive blob_result :=
| RPut (r : outcome BlobStoreError unit)
| RGet (r : outcome BlobStoreError bytes)
| RContains (r : outcome BlobStoreError bool)
| RDelete (r : outcome BlobStoreError unit).

Definition op_digest (o : blob_op) : Digest :=
  match o with OpPut d _ | OpGet d | OpContains d | OpDelete d => d end.

Definition run_op {S} `{BlobStore S} (o : blob_op) (s : S) : S * blob_result :=
  match o with
  | OpPut d b => let '(s, r) := bs_put d b s in (s, RPut r)
  | OpGet d => let '(s, r) := bs_get d s in (s, RGet r)
  | OpContains d => let '(s, r) := bs_contains d s in (s, RContains r)
  | OpDelete d => let '(s, r) := bs_delete d s in (s, RDelete r)
  end.

Fixpoint run_ops {S} `{BlobStore S} (os : list blob_op) (s : S) : S * list blob_result :=
  match os with
  | [] => (s, [])
  | o :: os => let '(s, r) := run_op o s in let '(s, rs) := run_ops os s in (s, r :: rs)
  end.

(** ** Any two implementations agree *)

Section Agree.
Context `{H : Hashing} {A B : Type} `{BA : BlobStore A, BB : BlobStore B}
  {LA : BlobStoreLaws A} {LB : BlobStoreLaws B}.

(** Both sound, both quiet, holding the same blobs. *)
Record agree (a : A) (b : B) : Prop := {
  agree_ok : bs_ok a /\ bs_ok b;
  agree_quiet : bs_quiet a /\ bs_quiet b;
  agree_view : forall e, Digest.valid e -> bs_view a e = bs_view b e;
}.

Lemma agree_put a b d x : agree a b -> Digest.valid d ->
  snd (bs_put d x a) = snd (bs_put d x b) /\ agree (fst (bs_put d x a)) (fst (bs_put d x b)).
Proof using LA LB.
  intros [[Hoa Hob] [Hqa Hqb] Hv] Hd. destruct (decide (matches d x)) as [Hm|Hm].
  - destruct (put_quiet a d x Hoa Hqa Hd Hm) as (-> & Hqa' & Hva).
    destruct (put_quiet b d x Hob Hqb Hd Hm) as (-> & Hqb' & Hvb).
    split; [reflexivity|split; [split; apply put_keeps_ok; assumption|auto|]].
    intros e He. destruct (decide (e = d)) as [->|Hne]; [congruence|].
    rewrite !put_frame by assumption. auto.
  - rewrite !put_mismatch by exact Hm. split; [reflexivity|split; auto].
Qed.

Lemma agree_delete a b d : agree a b -> Digest.valid d ->
  snd (bs_delete d a) = snd (bs_delete d b) /\ agree (fst (bs_delete d a)) (fst (bs_delete d b)).
Proof using LA LB.
  intros [[Hoa Hob] [Hqa Hqb] Hv] Hd.
  destruct (delete_quiet a d Hoa Hqa Hd) as [Hqa' Hra]. destruct (delete_quiet b d Hob Hqb Hd) as [Hqb' Hrb].
  destruct (delete_spec a d Hoa Hd) as (Hoa' & Hfa & Hda). destruct (delete_spec b d Hob Hd) as (Hob' & Hfb & Hdb).
  rewrite Hra, Hrb in *. split; [reflexivity|split; [auto|auto|]].
  intros e He. destruct (decide (e = d)) as [->|Hne]; [congruence|]. rewrite Hfa, Hfb by assumption. auto.
Qed.

Lemma agree_op a b o : agree a b -> Digest.valid (op_digest o) ->
  snd (run_op o a) = snd (run_op o b) /\ agree (fst (run_op o a)) (fst (run_op o b)).
Proof using LA LB.
  intros Hab Hd. pose proof Hab as [[Hoa Hob] [Hqa Hqb] Hv]. destruct o as [d x|d|d|d]; cbn in *.
  - destruct (agree_put a b d x Hab Hd) as [Hr Ha].
    destruct (bs_put d x a), (bs_put d x b); cbn in *. split; [congruence|exact Ha].
  - destruct (get_quiet a d Hoa Hqa Hd) as [Hqa' Hra]. destruct (get_quiet b d Hob Hqb Hd) as [Hqb' Hrb].
    destruct (get_spec a d Hoa Hd) as (Hoa' & Hfa & _). destruct (get_spec b d Hob Hd) as (Hob' & Hfb & _).
    rewrite <- (Hv d Hd), <- Hra in Hrb. destruct (bs_get d a), (bs_get d b); cbn in *.
    split; [congruence|split; auto]. intros e He. rewrite Hfa, Hfb by exact He. auto.
  - destruct (contains_quiet a d Hoa Hqa Hd) as [Hqa' Hra]. destruct (contains_quiet b d Hob Hqb Hd) as [Hqb' Hrb].
    destruct (contains_spec a d Hoa Hd) as (Hoa' & Hfa & _). destruct (contains_spec b d Hob Hd) as (Hob' & Hfb & _).
    rewrite <- (Hv d Hd), <- Hra in Hrb. destruct (bs_contains d a), (bs_contains d b); cbn in *.
    split; [congruence|split; auto]. intros e He. rewrite Hfa, Hfb by exact He. auto.
  - destruct (agree_delete a b d Hab Hd) as [Hr Ha].
    destruct (bs_delete d a), (bs_delete d b); cbn in *. split; [congruence|exact Ha].
Qed.

Lemma agree_ops os a b : agree a b -> Forall (fun o => Digest.valid (op_digest o)) os ->
  snd (run_ops os a) = snd (run_ops os b) /\ agree (fst (run_ops os a)) (fst (run_ops os b)).
Proof using LA LB.
  revert a b. induction os as [|o os IH]; intros a b Hab Hall; [split; [reflexivity|exact Hab]|].
  apply Forall_cons in Hall as [Ho Hall]. destruct (agree_op a b o Hab Ho) as [Hr Hab']. cbn.
  destruct (run_op o a) as [a' ra], (run_op o b) as [b' rb]. cbn in *.
  destruct (IH a' b' Hab' Hall) as [Hrs Hend].
  destruct (run_ops os a'), (run_ops os b'). cbn in *. split; [congruence|exact Hend].
Qed.

End Agree.

(** ** Properties *)

(** C20: With no failing system call, the filesystem store is observably the
    in-memory store: started on a sound tree and a map that hold the same
    blobs, any sequence of puts, gets, existence checks and deletes returns
    the same results, errors included, and leaves them holding the same blobs. *)
Theorem fs_store_equivalent_to_memory `{H : Hashing} {HL : HashingLaws H} (self : FsBlobStore)
    (s : Process) (m : InMemoryBlobStore) (os : list blob_op)
    (Hs : tree_ok self (T s)) (Hm : Memory.ok m) (Hq : quiet_p s)
    (Hsame : forall d, Digest.valid d -> view self (T s) d = m !! d)
    (Hall : Forall (fun o => Digest.valid (op_digest o)) os) :
  snd (run_ops (H := FsStore.fs_store self) os s) = snd (run_ops (H := Memory.memory_store) os m) /\
  forall d, Digest.valid d ->
    view self (T (fst (run_ops (H := FsStore.fs_store self) os s))) d
    = fst (run_ops (H := Memory.memory_store) os m) !! d.
Proof using.
  destruct (agree_ops (LA := fs_laws self) (LB := Memory.memory_laws) os s m) as [Hr Hab]; [|exact Hall|].
  - split; cbn; auto.
  - split; [exact Hr|]. intros d Hd. exact (agree_view _ _ Hab d Hd).
Qed.

Definition sample_store : FsBlobStore := mkFsBlobStore ["data"%string].

Definition sample_ops : list blob_op :=
  let b := [x68; x69] in let d := Digest.sha512_of b in
  [OpContains d; OpPut d b; OpPut d [x68]; OpGet d; OpDelete d; OpGet d].

Lemma fs_store_equivalent_to_memory_witness :
  snd (run_ops (H := FsStore.fs_store sample_store) sample_ops (mkProcess (mkFs ∅ []) 0 42))
  = snd (run_ops (H := Memory.memory_store) sample_ops Memory.new).
Proof.
  refine (proj1 (fs_store_equivalent_to_memory sample_store (mkProcess (mkFs ∅ []) 0 42) Memory.new sample_ops
    (tree_ok_empty _) (map_Forall_empty _) (Forall_nil_2 _) _ _)).
  - intros d Hd. reflexivity.
  - repeat constructor; vm_compute; auto.
Defined.

(** A put is all or nothing whatever fails. For any fault script and any
    bytes, [put] on a sound tree does not panic and leaves the tree sound and
    every other blob as it was; if it succeeds the digest is readable with
    content of that digest, if it fails the digest's content is what it was
    before, and bytes that do not have the digest are refused before any
    system call. *)
Theorem fs_put_all_or_nothing `{H : Hashing} {HL : HashingLaws H} (self : FsBlobStore) (s s' : Process)
    (d : Digest) (b : bytes) (r : outcome BlobStoreError unit)
    (Hs : tree_ok self (T s)) (Hd : Digest.valid d) (Hput : FsStore.put self d b s = (s', r)) :
  r <> Panic /\ tree_ok self (T s') /\
  (forall e, Digest.valid e -> e <> d -> view self (T s') e = view self (T s) e) /\
  (r = Ok tt -> exists b', view self (T s') d = Some b' /\ matches d b') /\
  (forall e, r = Err e -> view self (T s') d = view self (T s) d) /\
  (~ matches d b -> s' = s /\ exists c, r = Err (DigestMismatch (Digest.to_string d) c)).
Proof using.
  pose proof (put_view self s d b Hs Hd) as (Hok & Htot & Hframe & Hdone & Hfail).
  rewrite Hput in *. cbn in *. split_and!; [exact Htot|exact Hok|exact Hframe| |exact Hfail|].
  - intros Hr. destruct (Hdone tt Hr) as [b' Hb']. exists b'. split; [exact Hb'|].
    exact (view_sound self _ d b' Hok Hd Hb').
  - intros Hm. rewrite put_mismatch_eq in Hput by exact Hm. injection Hput as <- <-.
    split; [reflexivity|]. eexists. reflexivity.
Qed.

(** The rename fails after the bytes were written. *)
Definition faulty_process : Process :=
  mkProcess (mkFs ∅ [None; None; None; Some (mkFault None 28 "No space left on device")]) 0 42.

Lemma fs_put_all_or_nothing_witness :
  let b := [x68; x69] in let d := Digest.sha256_of b in
  view sample_store (T (fst (FsStore.put sample_store d b faulty_process))) d = None.
Proof.
  intros b d.
  destruct (fs_put_all_or_nothing sample_store faulty_process
    (fst (FsStore.put sample_store d b faulty_process)) d b
    (Err (BsIo (mkIoError (KOther 28) "No space left on device")))
    (tree_ok_empty _) ltac:(split; vm_compute; reflexivity) ltac:(vm_compute; reflexivity))
    as (_ & _ & _ & _ & Hf & _).
  rewrite (Hf _ eq_refl). reflexivity.
Defined.
