(* ===== verification/OciError.v ===== *)
(** * OCI error codes

    Model of [crates/ferro-oci-server/src/error.rs]: the error codes of the
    distribution specification, their wire strings and HTTP statuses, the
    error value of the handlers and the conversion from blob-store errors.
    Status codes are their numbers. A message is kept as the value it is
    rendered from ([Display] of an error type is not modelled); the optional
    JSON [detail] is never set by the crate and left out. *)

From S2P Require Import Prelude Str Frame Net Json Digest BlobStore.

Inductive OciErrorCode :=
| BlobUnknown | BlobUploadInvalid | BlobUploadUnknown | DigestInvalid | ManifestBlobUnknown
| ManifestInvalid | ManifestUnknown | NameInvalid | NameUnknown | SizeInvalid | Unauthorized
| Denied | Unsupported | TooManyRequests.

#[export] Instance OciErrorCode_eq_dec : EqDecision OciErrorCode.
Proof. solve_decision. Defined.

Definition code_as_str (c : OciErrorCode) : string :=
  match c with
  | BlobUnknown => "BLOB_UNKNOWN"
  | BlobUploadInvalid => "BLOB_UPLOAD_INVALID"
  | BlobUploadUnknown => "BLOB_UPLOAD_UNKNOWN"
  | DigestInvalid => "DIGEST_INVALID"
  | ManifestBlobUnknown => "MANIFEST_BLOB_UNKNOWN"
  | ManifestInvalid => "MANIFEST_INVALID"
  | ManifestUnknown => "MANIFEST_UNKNOWN"
  | NameInvalid => "NAME_INVALID"
  | NameUnknown => "NAME_UNKNOWN"
  | SizeInvalid => "SIZE_INVALID"
  | Unauthorized => "UNAUTHORIZED"
  | Denied => "DENIED"
  | Unsupported => "UNSUPPORTED"
  | TooManyRequests => "TOOMANYREQUESTS"
  end.

Definition code_status (c : OciErrorCode) : Z :=
  match c with
  | BlobUnknown | BlobUploadUnknown | ManifestBlobUnknown | ManifestUnknown | NameUnknown => 404
  | BlobUploadInvalid | DigestInvalid | ManifestInvalid | NameInvalid | SizeInvalid => 400
  | Unauthorized => 401
  | Denied => 403
  | Unsupported => 405
  | TooManyRequests => 429
  end.

(** What a message is rendered from. *)
Inductive message :=
| MText (s : string)
| MBlobStore (e : BlobStoreError)
| MDigest (e : DigestParseError)
| MIo (e : io_error)
| MJson (input : bytes)
| MCat (a b : message).

Record OciError := mkOciError {
  err_code : OciErrorCode;
  err_message : message;
  err_detail : option Value;
  status_override : option Z;
}.

Record OciErrorInfo := mkErrorInfo { ei_code : string; ei_message : message; ei_detail : option Value }.

Module OciError.

Definition new (c : OciErrorCode) (m : message) : OciError := mkOciError c m None None.

Definition with_detail (detail : Value) (e : OciError) : OciError :=
  mkOciError (err_code e) (err_message e) (Some detail) (status_override e).

Definition with_status (s : Z) (e : OciError) : OciError := mkOciError (err_code e) (err_message e) (err_detail e) (Some s).

Definition status (e : OciError) : Z := default (code_status (err_code e)) (status_override e).

(** [OciErrorBody]: one entry. *)
Definition body (e : OciError) : list OciErrorInfo := [mkErrorInfo (code_as_str (err_code e)) (err_message e) (err_detail e)].

(** [From<BlobStoreError>]. *)
Definition from_blob_store (e : BlobStoreError) : OciError :=
  match e with
  | NotFound _ => new BlobUnknown (MBlobStore e)
  | DigestMismatch _ _ | InvalidDigest _ => new DigestInvalid (MBlobStore e)
  | _ => new Unsupported (MBlobStore e)
  end.

End OciError.
