(* ===== verification/OciReference.v ===== *)
(** * Repository names and references

    Model of [crates/ferro-oci-server/src/reference.rs]. The name grammar of
    the distribution specification is stated as a language ([component],
    [repo_name]) and the hand-written validator is shown to accept exactly
    it. The validator's only string slices lie between ASCII bytes, so they
    are on character boundaries. *)

From S2P Require Import Prelude Str Frame Net Digest BlobStore OciError.

Local Open Scope string_scope.

Definition MAX_NAME_LENGTH : nat := 255.
Definition MAX_TAG_LENGTH : nat := 128.

Definition is_alnum (c : ascii) : bool := is_ascii_digit c || is_ascii_lowercase c.

Definition is_valid_separator (s : string) : bool :=
  if bool_decide (s = ".") || bool_decide (s = "_") || bool_decide (s = "__") then true else
  negb (bool_decide (s = "")) && str_all (fun b => Ascii.eqb b "-") s.

(** The longest prefix of bytes satisfying [f], and the rest. *)
Fixpoint span (f : ascii -> bool) (s : string) : string * string :=
  match s with
  | "" => ("", "")
  | String c t => if f c then let '(a, b) := span f t in (String c a, b) else ("", s)
  end.

(** The walk over a component, from index [i] on. *)
Fixpoint walk_component (fuel : nat) (component s : string) : outcome string unit :=
  match fuel with
  | O => Panic
  | S fuel =>
    match s with
    | "" => Ok tt
    | String c t =>
      if is_alnum c then walk_component fuel component t else
      let '(sep, rest) := span (fun c => negb (is_alnum c)) s in
      if negb (is_valid_separator sep)
      then Err ("component `" ++ component ++ "` contains invalid separator `" ++ sep ++ "`")
      else walk_component fuel component rest
    end
  end.

Definition last_byte (s : string) : option ascii := String.get (String.length s - 1) s.

Definition validate_component (component : string) : outcome string unit :=
  if bool_decide (component = "") then Err "path component must not be empty" else
  first ← expect (String.get 0 component);
  if negb (is_alnum first) then Err ("component `" ++ component ++ "` must start with [a-z0-9]") else
  last ← expect (last_byte component);
  if negb (is_alnum last) then Err ("component `" ++ component ++ "` must end with [a-z0-9]") else
  walk_component (S (String.length component)) component component.

(** [for component in ..]: stop at the first error. *)
Fixpoint for_each_ok {E A} (f : A -> outcome E unit) (l : list A) : outcome E unit :=
  match l with
  | [] => Ok tt
  | x :: l => f x ≫= fun _ => for_each_ok f l
  end.

Definition name_invalid (msg : string) : OciError := OciError.new NameInvalid (MText msg).

Definition validate_name (name : string) : outcome OciError unit :=
  if bool_decide (name = "") then Err (name_invalid "repository name must not be empty") else
  if (MAX_NAME_LENGTH <? String.length name)%nat
  then Err (name_invalid "repository name exceeds 255 characters") else
  for_each_ok (fun c => map_err name_invalid (validate_component c)) (split "/" name).

Definition tag_start (c : ascii) : bool := is_ascii_alphanumeric c || Ascii.eqb c "_".
Definition tag_char (c : ascii) : bool :=
  is_ascii_alphanumeric c || (Ascii.eqb c "_" || Ascii.eqb c "." || Ascii.eqb c "-").

Definition is_valid_tag (tag : string) : bool :=
  if bool_decide (tag = "") || (MAX_TAG_LENGTH <? String.length tag)%nat then false else
  match tag with
  | "" => false
  | String c t => if negb (tag_start c) then false else str_all tag_char t
  end.

Inductive Reference := Tag (t : string) | RDigest (d : Digest).

#[export] Instance Reference_eq_dec : EqDecision Reference.
Proof. solve_decision. Defined.

Module Reference.

Definition is_tag (r : Reference) : bool := match r with Tag _ => true | RDigest _ => false end.
Definition is_digest (r : Reference) : bool := match r with RDigest _ => true | Tag _ => false end.
Definition as_digest (r : Reference) : option Digest := match r with RDigest d => Some d | Tag _ => None end.
Definition as_tag (r : Reference) : option string := match r with Tag t => Some t | RDigest _ => None end.

Definition to_string (r : Reference) : string :=
  match r with Tag t => t | RDigest d => Digest.to_string d end.

Definition from_str (s : string) : outcome OciError Reference :=
  match split_once ":" s with
  | Some (a, _) =>
    if bool_decide (a = "sha256") || bool_decide (a = "sha512")
    then d ← map_err (fun e => OciError.new DigestInvalid (MDigest e)) (Digest.from_str s); Ok (RDigest d)
    else Err (OciError.new ManifestInvalid (MText ("invalid reference: `" ++ s ++ "`")))
  | None =>
    if negb (is_valid_tag s)
    then Err (OciError.new ManifestInvalid (MText ("invalid tag: `" ++ s ++ "`")))
    else Ok (Tag s)
  end.

(** A reference the parser can have produced. *)
Definition valid (r : Reference) : Prop :=
  match r with Tag t => is_valid_tag t = true | RDigest d => Digest.valid d end.

End Reference.

(** ** The grammar *)

Definition alnum_run (s : string) : Prop := s <> "" /\ str_all is_alnum s = true.

(** One period, one or two underscores, or any number of dashes. *)
Definition separator (s : string) : Prop :=
  s = "." \/ s = "_" \/ s = "__" \/ str_all (fun b => Ascii.eqb b "-") s = true.

(** Runs of lower-case letters and digits with separators between them. *)
Inductive component : string -> Prop :=
| comp_run s : alnum_run s -> component s
| comp_more c sep r : component c -> separator sep -> alnum_run r -> component (c ++ sep ++ r).

Definition repo_name (s : string) : Prop :=
  exists cs, cs <> [] /\ Forall component cs /\ s = join "/" cs.

(** ** Lemmas: one component *)

Definition ends_alnum (s : string) : Prop := exists l, last_byte s = Some l /\ is_alnum l = true.

Lemma last_byte_cons c d s : last_byte (String c (String d s)) = last_byte (String d s).
Proof. unfold last_byte. cbn. rewrite Nat.sub_0_r. reflexivity. Qed.

Lemma last_byte_app a c s : last_byte (a ++ String c s) = last_byte (String c s).
Proof.
  induction a as [|x a IH]; [reflexivity|]. rewrite str_app_cons.
  destruct a as [|y a]; [rewrite str_app_nil; apply last_byte_cons|].
  rewrite str_app_cons in *. rewrite last_byte_cons. exact IH.
Qed.

Lemma ends_alnum_run r : alnum_run r -> ends_alnum r.
Proof.
  intros [Hne Hall]. induction r as [|c r IH]; [contradiction|]. cbn in Hall. apply andb_true_iff in Hall as [Hc Hall].
  destruct r as [|d r]; [exists c; auto|]. destruct (IH ltac:(discriminate) Hall) as (l & Hl & Hal).
  exists l. rewrite last_byte_cons. auto.
Qed.

Lemma ends_alnum_app a r : alnum_run r -> ends_alnum (a ++ r).
Proof.
  intros Hr. destruct (ends_alnum_run r Hr) as (l & Hl & Hal). exists l. split; [|exact Hal].
  destruct r as [|c r]; [destruct Hr; contradiction|]. rewrite last_byte_app. exact Hl.
Qed.

Lemma span_spec f s a b :
  span f s = (a, b) -> s = a ++ b /\ str_all f a = true /\ (forall c t, b = String c t -> f c = false).
Proof.
  revert a b. induction s as [|c s IH]; intros a b; cbn.
  - intros [= <- <-]. split_and!; [reflexivity|reflexivity|discriminate].
  - destruct (f c) eqn:Ec; [|intros [= <- <-]; split_and!; [reflexivity|reflexivity|intros d t [= <- <-]; exact Ec]].
    destruct (span f s) as [x y]. intros [= <- <-]. destruct (IH x y eq_refl) as (-> & Hx & Hy).
    cbn. rewrite Ec, Hx. auto.
Qed.

Lemma span_app f a c b : str_all f a = true -> f c = false -> span f (a ++ String c b) = (a, String c b).
Proof.
  intros Ha Hc. induction a as [|x a IH]; [rewrite str_app_nil; cbn; rewrite Hc; reflexivity|].
  cbn in Ha. apply andb_true_iff in Ha as [Hx Ha]. rewrite str_app_cons. cbn. rewrite Hx, (IH Ha). reflexivity.
Qed.

Lemma separator_of_valid s : is_valid_separator s = true -> separator s.
Proof.
  unfold is_valid_separator, separator. repeat case_bool_decide; cbn; auto. discriminate.
Qed.

Lemma valid_of_separator s : separator s -> s <> "" -> is_valid_separator s = true.
Proof.
  unfold is_valid_separator, separator. intros Hs Hne. repeat case_bool_decide; cbn; try reflexivity; try contradiction.
  destruct Hs as [|[|[|Hs]]]; try contradiction. exact Hs.
Qed.

Lemma alnum_run_snoc r c : str_all is_alnum r = true -> is_alnum c = true -> alnum_run (r ++ String c "").
Proof.
  intros Hr Hc. split; [destruct r; discriminate|]. rewrite str_all_app, Hr. cbn. rewrite Hc. reflexivity.
Qed.

(** A component followed by one more letter or digit. *)
Lemma component_snoc p c : component p -> is_alnum c = true -> component (p ++ String c "").
Proof.
  intros Hp Hc. change (p ++ String c "") with (p ++ "" ++ String c "").
  apply comp_more; [exact Hp|right; right; right; reflexivity|]. apply (alnum_run_snoc ""); auto.
Qed.

(** What the walk accepts extends a component to a component. *)
Lemma walk_component_sound fuel name s p :
  walk_component fuel name s = Ok tt -> component p -> s = "" \/ ends_alnum s -> component (p ++ s).
Proof.
  revert s p. induction (lt_wf fuel) as [fuel _ IH]. intros s p. destruct fuel as [|fuel]; cbn; [discriminate|].
  destruct s as [|c t]; [intros _ Hp _; rewrite str_app_nil_r; exact Hp|].
  assert (Hends : forall d u, String c t = d ++ u -> u <> "" -> String c t = "" \/ ends_alnum (String c t) -> ends_alnum u).
  { intros d u Heq Hu [?|(l & Hl & Hal)]; [discriminate|]. exists l. split; [|exact Hal].
    destruct u as [|e u]; [contradiction|]. rewrite Heq, last_byte_app in Hl. exact Hl. }
  destruct (is_alnum c) eqn:Ec.
  - intros Hw Hp He. change (p ++ String c t) with (p ++ String c "" ++ t). rewrite <- str_app_assoc.
    apply (IH fuel ltac:(lia)); [exact Hw|apply component_snoc; assumption|].
    destruct t as [|d t]; [auto|right]. apply (Hends (String c "") (String d t)); [reflexivity|discriminate|exact He].
  - destruct (span (fun c => negb (is_alnum c)) (String c t)) as [sep rest] eqn:Es.
    cbn in Es. rewrite Ec in Es. cbn in Es.
    assert (Hs : span (fun c => negb (is_alnum c)) (String c t) = (sep, rest)) by (cbn; rewrite Ec; exact Es).
    apply span_spec in Hs as (Hst & Hsep & Hrest).
    destruct (negb (is_valid_separator sep)) eqn:Ev; [discriminate|]. apply negb_false_iff, separator_of_valid in Ev.
    intros Hw Hp He. destruct rest as [|d rest].
    + exfalso. rewrite str_app_nil_r in Hst. destruct He as [?|(l & Hl & Hal)]; [discriminate|].
      assert (Hne : negb (is_alnum l) = true); [|rewrite Hal in Hne; discriminate].
      clear -Hsep Hl Hst. rewrite Hst in Hl. clear Hst. induction sep as [|x sep IH]; [discriminate|].
      cbn in Hsep. apply andb_true_iff in Hsep as [Hx Hsep].
      destruct sep as [|y sep]; [injection Hl as <-; exact Hx|]. rewrite last_byte_cons in Hl. auto.
    + specialize (Hrest d rest eq_refl). cbn in Hrest. apply negb_false_iff in Hrest.
      rewrite Hst. change (sep ++ String d rest) with (sep ++ String d "" ++ rest).
      rewrite <- (str_app_assoc sep), <- str_app_assoc.
      destruct fuel as [|fuel]; [discriminate|]. cbn in Hw. rewrite Hrest in Hw.
      apply (IH fuel ltac:(lia)); [exact Hw| |].
      * apply comp_more; [exact Hp|exact Ev|]. apply (alnum_run_snoc ""); auto.
      * destruct rest as [|e rest]; [auto|right].
        apply (Hends (sep ++ String d "") (String e rest)); [|discriminate|exact He].
        rewrite str_app_assoc. exact Hst.
Qed.

Lemma span_length f s : (String.length (snd (span f s)) <= String.length s)%nat.
Proof.
  induction s as [|c s IH]; cbn; [lia|]. destruct (f c); [|cbn; lia].
  destruct (span f s). cbn in *. lia.
Qed.

(** Any fuel beyond the length gives the same walk. *)
Lemma walk_component_fuel f1 f2 name s :
  (String.length s < f1)%nat -> (String.length s < f2)%nat ->
  walk_component f1 name s = walk_component f2 name s.
Proof.
  revert f2 s. induction f1 as [|f1 IH]; intros f2 s H1 H2; [lia|]. destruct f2 as [|f2]; [lia|]. cbn.
  destruct s as [|c t]; [reflexivity|]. cbn in H1, H2. destruct (is_alnum c) eqn:Ec; [apply IH; lia|].
  pose proof (span_length (fun c => negb (is_alnum c)) t) as Hl.
  cbn. destruct (span _ t) as [sep rest]. cbn in *. rewrite Ec. cbn.
  destruct (is_valid_separator (String c sep)); [|reflexivity]. cbn. apply IH; lia.
Qed.

Lemma walk_run f1 f2 name r tail :
  str_all is_alnum r = true -> (String.length (r ++ tail) < f1)%nat -> (String.length tail < f2)%nat ->
  walk_component f1 name (r ++ tail) = walk_component f2 name tail.
Proof.
  revert f1. induction r as [|c r IH]; intros f1 Hr H1 H2.
  - rewrite str_app_nil in *. apply walk_component_fuel; assumption.
  - rewrite str_app_cons in *. cbn in Hr, H1. apply andb_true_iff in Hr as [Hc Hr].
    destruct f1 as [|f1]; [lia|]. cbn. rewrite Hc. apply IH; [exact Hr|lia|exact H2].
Qed.

Lemma separator_not_alnum s : separator s -> str_all (fun c => negb (is_alnum c)) s = true.
Proof.
  intros [->|[->|[->|Hs]]]; [reflexivity ..|]. revert Hs. apply str_all_impl.
  intros c Hc. apply Ascii.eqb_eq in Hc as ->. reflexivity.
Qed.

(** The walk passes over a component. *)
Lemma walk_over_component c : component c -> forall f1 f2 name tail,
  (String.length (c ++ tail) < f1)%nat -> (String.length tail < f2)%nat ->
  walk_component f1 name (c ++ tail) = walk_component f2 name tail.
Proof.
  intros Hc. induction Hc as [s [_ Hs]|c sep r Hc IH Hsep [Hne Hr]]; intros f1 f2 name tail H1 H2.
  - apply walk_run; assumption.
  - rewrite !str_app_assoc in *. rewrite !str_length_app in H1.
    rewrite (IH f1 (S (String.length (sep ++ r ++ tail)))) by (rewrite ?str_length_app; lia).
    destruct sep as [|x sep]; [rewrite str_app_nil in *; apply walk_run; [exact Hr|lia|exact H2]|].
    pose proof (separator_not_alnum _ Hsep) as Hna. pose proof (valid_of_separator _ Hsep ltac:(discriminate)) as Hv.
    destruct r as [|d r]; [contradiction|]. cbn in Hr. apply andb_true_iff in Hr as [Hd Hr].
    pose proof (span_app (fun c => negb (is_alnum c)) (String x sep) d (r ++ tail) Hna ltac:(cbn; rewrite Hd; reflexivity)) as Hsp.
    rewrite str_app_cons in *. cbn [walk_component]. cbn in Hna. apply andb_true_iff in Hna as [Hx _].
    apply negb_true_iff in Hx. rewrite Hx. change (sep ++ String d r ++ tail) with (sep ++ String d (r ++ tail)).
    rewrite Hsp, Hv. cbn [negb]. change (String d (r ++ tail)) with (String d r ++ tail).
    apply walk_run; [cbn; rewrite Hd; exact Hr| |exact H2].
    rewrite !str_length_app. cbn. rewrite !str_length_app. cbn. lia.
Qed.

Lemma component_shape c : component c ->
  (exists x t, c = String x t /\ is_alnum x = true) /\ ends_alnum c.
Proof.
  intros Hc. induction Hc as [s Hs|c sep r Hc [(x & t & -> & Hx) _] Hsep Hr].
  - split; [|apply ends_alnum_run, Hs]. destruct Hs as [Hne Hs]. destruct s as [|x t]; [contradiction|].
    cbn in Hs. apply andb_true_iff in Hs as [Hx _]. eauto.
  - split; [exists x, (t ++ sep ++ r); auto|]. rewrite <- str_app_assoc. apply ends_alnum_app, Hr.
Qed.

(** The component validator is exact. *)
Lemma validate_component_iff c : validate_component c = Ok tt <-> component c.
Proof.
  unfold validate_component. split.
  - case_bool_decide as Hne; [discriminate|]. destruct c as [|x t]; [contradiction|].
    change (String.get 0 (String x t)) with (Some x). unfold expect. cbn [mbind outcome_bind].
    destruct (is_alnum x) eqn:Ex; cbn [negb]; [|discriminate].
    destruct (last_byte (String x t)) as [l|] eqn:El; cbn [mbind outcome_bind]; [|discriminate].
    destruct (is_alnum l) eqn:Eal; cbn [negb]; [|discriminate]. intros Hw.
    assert (Hw' : walk_component (S (String.length t)) (String x t) t = Ok tt).
    { cbn [String.length] in Hw. set (n := S (String.length t)) in *. cbn in Hw. rewrite Ex in Hw. exact Hw. }
    change (String x t) with (String x "" ++ t). eapply walk_component_sound; [exact Hw'| |].
    + apply comp_run, (alnum_run_snoc ""); auto.
    + destruct t as [|y t]; [auto|right]. exists l. rewrite last_byte_cons in El. auto.
  - intros Hc. destruct (component_shape c Hc) as [(x & t & -> & Hx) (l & Hl & Hal)].
    rewrite bool_decide_false by discriminate. change (String.get 0 (String x t)) with (Some x).
    unfold expect. rewrite Hl. cbn [mbind outcome_bind]. rewrite Hx, Hal. cbn [negb].
    pose proof (walk_over_component _ Hc (S (String.length (String x t))) 1%nat (String x t) "") as Hw.
    rewrite str_app_nil_r in Hw. rewrite Hw by (cbn; lia). reflexivity.
Qed.

Lemma for_each_ok_iff {E A} (f : A -> outcome E unit) l :
  for_each_ok f l = Ok tt <-> Forall (fun x => f x = Ok tt) l.
Proof.
  induction l as [|x l IH]; cbn; [split; auto|].
  rewrite Forall_cons. destruct (f x) as [[]| |]; cbn; [rewrite IH; tauto|..]; (split; [discriminate|intros [[=] _]]).
Qed.

(** Components contain no slash. *)
Lemma component_no_slash c : component c -> str_all (not_char "/") c = true.
Proof.
  assert (Hal : forall s, str_all is_alnum s = true -> str_all (not_char "/") s = true).
  { intros s. apply str_all_impl. intros x Hx. apply not_char_true. intros ->. discriminate. }
  intros Hc. induction Hc as [s [_ Hs]|c sep r Hc IH Hsep [_ Hr]]; [auto|].
  rewrite !str_all_app, IH, (Hal r Hr), andb_true_r.
  destruct Hsep as [->|[->|[->|Hs]]]; [reflexivity ..|]. revert Hs. apply str_all_impl.
  intros x Hx. apply Ascii.eqb_eq in Hx as ->. reflexivity.
Qed.

Lemma component_nonempty c : component c -> c <> "".
Proof. intros (Hc & _)%component_shape. destruct Hc as (x & t & -> & _). discriminate. Qed.

Lemma walk_component_total fuel name s : (String.length s < fuel)%nat -> walk_component fuel name s <> Panic.
Proof.
  revert s. induction fuel as [|fuel IH]; intros s Hl; [lia|]. cbn. destruct s as [|c t]; [discriminate|].
  cbn in Hl. destruct (is_alnum c) eqn:Ec; [apply IH; lia|].
  pose proof (span_length (fun c => negb (is_alnum c)) t) as Hs. cbn. destruct (span _ t) as [sep rest]. cbn in *.
  rewrite Ec. cbn. destruct (is_valid_separator (String c sep)); [|discriminate]. cbn. apply IH. lia.
Qed.

Lemma last_byte_some c t : is_Some (last_byte (String c t)).
Proof.
  revert c. induction t as [|d t IH]; intros c; [eexists; reflexivity|]. rewrite last_byte_cons. apply IH.
Qed.

Lemma validate_component_total c : validate_component c <> Panic.
Proof.
  unfold validate_component. case_bool_decide as Hne; [discriminate|]. destruct c as [|x t]; [contradiction|].
  change (String.get 0 (String x t)) with (Some x). destruct (last_byte_some x t) as [l ->]. unfold expect.
  cbn [mbind outcome_bind]. destruct (is_alnum x); cbn [negb]; [|discriminate].
  destruct (is_alnum l); cbn [negb]; [|discriminate]. apply walk_component_total. lia.
Qed.

Lemma for_each_ok_total {E A} (f : A -> outcome E unit) l :
  (forall x, f x <> Panic) -> for_each_ok f l <> Panic.
Proof.
  intros Hf. induction l as [|x l IH]; cbn; [discriminate|]. specialize (Hf x).
  destruct (f x); cbn; [exact IH|discriminate|contradiction].
Qed.

Lemma validate_name_total name : validate_name name <> Panic.
Proof.
  unfold validate_name. repeat case_match; try discriminate. apply for_each_ok_total. intros c.
  pose proof (validate_component_total c) as Hc. destruct (validate_component c); cbn; [discriminate|discriminate|contradiction].
Qed.

Lemma validate_mapped c : map_err name_invalid (validate_component c) = Ok tt <-> component c.
Proof. rewrite <- validate_component_iff. destruct (validate_component c) as [[]| |]; cbn; split; congruence. Qed.

Lemma validate_name_iff name :
  validate_name name = Ok tt <-> (String.length name <= 255)%nat /\ repo_name name.
Proof.
  destruct (join_split "/" name) as [Hj Hs]. unfold validate_name, repo_name, MAX_NAME_LENGTH.
  case_bool_decide as Hne.
  - split; [discriminate|]. intros (_ & cs & Hcs & Hall & ->). exfalso.
    destruct cs as [|c cs]; [contradiction|]. apply Forall_cons in Hall as [Hc%component_nonempty _].
    destruct cs; [contradiction|]. rewrite join_cons in Hne by discriminate. destruct c; [contradiction|discriminate].
  - destruct (Nat.ltb_spec 255 (String.length name)); [split; [discriminate|lia]|].
    rewrite for_each_ok_iff. split.
    + intros Hall. split; [lia|]. exists (split "/" name). split_and!; [apply split_nonempty| |auto].
      eapply Forall_impl; [exact Hall|]. intros c. apply validate_mapped.
    + intros (_ & cs & Hcs & Hall & ->). rewrite split_join; [|exact Hcs|].
      * eapply Forall_impl; [exact Hall|]. intros c. apply validate_mapped.
      * eapply Forall_impl; [exact Hall|]. intros c. apply component_no_slash.
Qed.

(** The only errors are [NAME_INVALID]. *)
Lemma validate_name_error name : validate_name name <> Ok tt -> exists msg, validate_name name = Err (name_invalid msg).
Proof.
  unfold validate_name. intros Hno. repeat case_match; try (eexists; reflexivity).
  revert Hno. generalize (split "/" name). intros l. induction l as [|c l IH]; cbn; [contradiction|].
  pose proof (validate_component_total c) as Hc. destruct (validate_component c) as [[]|e|]; cbn; [apply IH|eauto|contradiction].
Qed.

(** ** Properties *)

(** C36: The hand-written name validator accepts exactly the repository-name
    grammar of the distribution specification within the length limit: a name
    passes if and only if it has at most 255 bytes and is a slash-separated
    list of components, each made of runs of lower-case letters and digits
    separated by one period, one or two underscores, or dashes. Every other
    name is refused with [NAME_INVALID], and the validator never panics. *)
Theorem validate_name_exact (name : string) :
  (validate_name name = Ok tt <-> (String.length name <= 255)%nat /\ repo_name name) /\
  (validate_name name <> Ok tt -> exists msg, validate_name name = Err (name_invalid msg)).
Proof. split; [apply validate_name_iff|apply validate_name_error]. Qed.

Lemma validate_name_exact_witness : validate_name "library/my__app-2" = Ok tt /\ exists m, validate_name "lib//x" = Err (name_invalid m).
Proof.
  split; [vm_compute; reflexivity|]. apply (proj2 (validate_name_exact "lib//x")). vm_compute. discriminate.
Defined.

(** Tags contain no colon. *)
Lemma tag_no_colon t : is_valid_tag t = true -> split_once ":" t = None.
Proof.
  intros Ht. destruct (split_once ":" t) as [[a b]|] eqn:E; [exfalso|reflexivity].
  apply split_once_spec in E as [-> _]. unfold is_valid_tag in Ht.
  case_match; [discriminate|]. destruct a as [|c a].
  - rewrite str_app_nil in Ht. cbn in Ht. discriminate.
  - rewrite str_app_cons in Ht. destruct (tag_start c); cbn [negb] in Ht; [|discriminate].
    rewrite str_all_app in Ht. cbn in Ht. rewrite andb_false_r in Ht. discriminate.
Qed.

Lemma reference_valid_parse r : Reference.valid r -> Reference.from_str (Reference.to_string r) = Ok r.
Proof.
  destruct r as [t|d]; cbn [Reference.valid Reference.to_string]; intros Hr; unfold Reference.from_str.
  - rewrite tag_no_colon, Hr by exact Hr. reflexivity.
  - change (Digest.to_string d) with (algo_prefix (algo d) ++ String ":" (hex d)).
    rewrite split_once_app by (destruct (algo d); reflexivity).
    change (algo_prefix (algo d) ++ String ":" (hex d)) with (Digest.to_string d).
    rewrite Digest.from_str_to_string by exact Hr. destruct (algo d); reflexivity.
Qed.

Lemma reference_parse_total s : Reference.from_str s <> Panic.
Proof.
  unfold Reference.from_str. destruct (split_once ":" s) as [[a b]|].
  - case_match; [|discriminate]. pose proof (Digest.from_str_total s).
    destruct (Digest.from_str s); cbn; [discriminate|discriminate|contradiction].
  - destruct (is_valid_tag s); discriminate.
Qed.

Lemma reference_parse_valid s r : Reference.from_str s = Ok r ->
  Reference.valid r /\ (Reference.is_tag r = true -> Reference.to_string r = s).
Proof.
  unfold Reference.from_str. destruct (split_once ":" s) as [[a b]|].
  - case_match; [|discriminate]. destruct (Digest.from_str s) as [d| |] eqn:Ed; cbn; try discriminate.
    intros [= <-]. split; [exact (Digest.from_str_valid s d Ed)|discriminate].
  - destruct (is_valid_tag s) eqn:Et; cbn; [|discriminate]. intros [= <-]. auto.
Qed.

(** A reference parses as a tag of the specification's tag grammar or as
    a digest, and the parser inverts printing: a parsed reference is valid and
    prints to a string that parses back to it (the very string it came from
    for a tag), and every valid tag or digest is parsed as what it is. No
    input makes the parser panic. *)
Theorem reference_roundtrip (s : string) (r : Reference) :
  Reference.from_str s <> Panic /\
  (Reference.from_str s = Ok r -> Reference.valid r /\ Reference.from_str (Reference.to_string r) = Ok r /\
     (Reference.is_tag r = true -> Reference.to_string r = s)) /\
  (Reference.valid r -> Reference.from_str (Reference.to_string r) = Ok r).
Proof.
  split_and!; [apply reference_parse_total| |apply reference_valid_parse].
  intros Hr. destruct (reference_parse_valid s r Hr) as [Hv Htag].
  split_and!; [exact Hv|apply reference_valid_parse, Hv|exact Htag].
Qed.

Lemma reference_roundtrip_witness : Reference.from_str (Reference.to_string (Tag "v1.2_3")) = Ok (Tag "v1.2_3").
Proof. apply (proj2 (proj2 (reference_roundtrip "v1.2_3" (Tag "v1.2_3")))). vm_compute. reflexivity. Defined.
