(* ===== verification/OciUpload.v ===== *)
(** * Upload sessions and the Content-Range header

    Model of [crates/ferro-oci-server/src/upload.rs]. Instants and durations
    are numbers of nanoseconds; the clock is an argument of the operations
    that read it. *)

From S2P Require Import Prelude Str.

Local Open Scope Z_scope.

Definition MAX_UPLOAD_SESSION_BYTES : Z := 4 * 1024 * 1024 * 1024.

Record UploadState := mkUploadState {
  up_name : string;
  up_uuid : string;
  up_buffer : bytes;
  last_activity : Z;
}.

Module UploadState.

Definition new (now : Z) (name uuid : string) : UploadState := mkUploadState name uuid [] now.

Definition offset (s : UploadState) : Z := zlen (up_buffer s).

Definition append (now : Z) (chunk : bytes) (s : UploadState) : UploadState * Z :=
  let s := mkUploadState (up_name s) (up_uuid s) (up_buffer s ++ chunk) now in (s, offset s).

(** [now.saturating_duration_since(last_activity) >= ttl]. *)
Definition is_idle_for (now ttl : Z) (s : UploadState) : bool := ttl <=? Z.max 0 (now - last_activity s).

Definition take_bytes (s : UploadState) : UploadState * bytes :=
  (mkUploadState (up_name s) (up_uuid s) [] (last_activity s), up_buffer s).

End UploadState.

Inductive ContentRangeParseError := Malformed | Reversed.

Record ContentRange := mkContentRange { cr_start : Z; cr_end : Z }.

Module ContentRange.

Definition parse (value : string) : outcome ContentRangeParseError ContentRange :=
  let value := trim value in
  let payload := default value (strip_prefix "bytes " value) in
  let payload := default payload (head (split "/" payload)) in
  '(s, e) ← ok_or (split_once "-" payload) Malformed;
  start ← ok_or (parse_u64 (trim s)) Malformed;
  end_ ← ok_or (parse_u64 (trim e)) Malformed;
  if end_ <? start then Err Reversed else Ok (mkContentRange start end_).

Definition checked_length (r : ContentRange) : option Z :=
  match u64_checked_sub (cr_end r) (cr_start r) with
  | Some span => u64_checked_add span 1
  | None => None
  end.

Definition length (r : ContentRange) : Z := default U64_MAX (checked_length r).

(** The header value a client sends for a range. *)
Definition print (r : ContentRange) : string := display_u64 (cr_start r) ++ "-" ++ display_u64 (cr_end r).

End ContentRange.

(** ** Lemmas *)

Lemma digits_not_char sep s :
  is_ascii_digit sep = false -> str_all is_ascii_digit s = true -> str_all (not_char sep) s = true.
Proof. intros Hsep. apply str_all_impl. intros c Hc. apply not_char_true. intros ->. congruence. Qed.

Lemma print_chars (f : ascii -> bool) r :
  (forall c, is_ascii_digit c = true -> f c = true) -> f "-"%char = true -> str_all f (ContentRange.print r) = true.
Proof.
  intros Hf Hd. unfold ContentRange.print. rewrite !str_all_app. cbn. rewrite Hd.
  destruct (display_u64_digits (cr_start r)) as [_ H1]. destruct (display_u64_digits (cr_end r)) as [_ H2].
  rewrite (str_all_impl _ f _ Hf H1), (str_all_impl _ f _ Hf H2). reflexivity.
Qed.

Lemma parse_print r :
  is_u64 (cr_start r) -> is_u64 (cr_end r) -> cr_start r <= cr_end r ->
  ContentRange.parse (ContentRange.print r) = Ok r.
Proof.
  intros Hs He Hle. unfold ContentRange.parse.
  rewrite trim_id by (apply print_chars; [intros c Hc; rewrite digit_not_space by exact Hc; reflexivity|reflexivity]).
  assert (Hpre : strip_prefix "bytes " (ContentRange.print r) = None).
  { unfold ContentRange.print. destruct (display_u64_digits (cr_start r)) as [Hne Hd].
    destruct (display_u64 (cr_start r)) as [|c t]; [contradiction|]. rewrite str_app_cons.
    match goal with |- strip_prefix _ (String c ?u) = _ =>
      change (strip_prefix "bytes " (String c u)) with (if Ascii.eqb "b" c then strip_prefix "ytes " u else None) end.
    destruct (Ascii.eqb_spec "b" c) as [<-|]; [discriminate Hd|reflexivity]. }
  rewrite Hpre. cbn [default]. rewrite split_single
    by (apply print_chars; [intros c Hc; apply not_char_true; intros ->; discriminate|reflexivity]).
  cbn [head default]. unfold id, ContentRange.print.
  change (display_u64 (cr_start r) ++ "-" ++ display_u64 (cr_end r))%string
    with (display_u64 (cr_start r) ++ String "-" (display_u64 (cr_end r)))%string.
  rewrite split_once_app by (apply digits_not_char; [reflexivity|apply display_u64_digits]).
  cbn [ok_or mbind outcome_bind]. rewrite !trim_display, !parse_display_u64 by assumption.
  cbn [ok_or mbind outcome_bind]. rewrite (proj2 (Z.ltb_ge _ _)) by lia. destruct r; reflexivity.
Qed.

Lemma parse_bounds v r :
  ContentRange.parse v = Ok r -> is_u64 (cr_start r) /\ is_u64 (cr_end r) /\ cr_start r <= cr_end r.
Proof.
  unfold ContentRange.parse. destruct (split_once _ _) as [[s e]|]; cbn; [|discriminate].
  destruct (parse_u64 (trim s)) as [a|] eqn:Ea; cbn; [|discriminate].
  destruct (parse_u64 (trim e)) as [b|] eqn:Eb; cbn; [|discriminate].
  destruct (Z.ltb_spec b a); [discriminate|]. intros [= <-]. cbn.
  split_and!; [eapply parse_u64_range; eassumption ..|lia].
Qed.

(** ** Properties *)

(** A parsed Content-Range is an ordered pair of [u64] offsets whose
    inclusive length is computed without wrap-around: [checked_length] is
    [end - start + 1] except for the one range [0-u64::MAX], where it is
    [None] and the saturating [length] is [u64::MAX]; in particular no range
    has length 0. Printing a range of offsets and parsing it gives it back. *)
Theorem content_range_length (v : string) (r : ContentRange) (Hr : ContentRange.parse v = Ok r) :
  0 <= cr_start r <= cr_end r /\ cr_end r <= U64_MAX /\
  ContentRange.checked_length r =
    (if (cr_start r =? 0) && (cr_end r =? U64_MAX) then None else Some (cr_end r - cr_start r + 1)) /\
  1 <= ContentRange.length r <= U64_MAX /\
  ContentRange.parse (ContentRange.print r) = Ok r.
Proof.
  destruct (parse_bounds v r Hr) as (Hs & He & Hle). unfold is_u64 in *.
  assert (Hc : ContentRange.checked_length r =
    (if (cr_start r =? 0) && (cr_end r =? U64_MAX) then None else Some (cr_end r - cr_start r + 1))).
  { unfold ContentRange.checked_length, u64_checked_sub, u64_checked_add.
    rewrite (proj2 (Z.leb_le _ _)) by lia.
    destruct (Z.eqb_spec (cr_start r) 0), (Z.eqb_spec (cr_end r) U64_MAX); cbn [andb];
      destruct (Z.leb_spec (cr_end r - cr_start r + 1) U64_MAX); try reflexivity; lia. }
  split_and!; try lia; [exact Hc|..|apply parse_print; unfold is_u64; lia].
  all: unfold ContentRange.length; rewrite Hc; destruct (Z.eqb_spec (cr_start r) 0), (Z.eqb_spec (cr_end r) U64_MAX);
    cbn [andb default]; unfold id, U64_MAX in *; lia.
Qed.

Lemma content_range_length_witness :
  ContentRange.checked_length (mkContentRange 0 18446744073709551615) = None.
Proof.
  refine (proj1 (proj2 (proj2 (content_range_length "bytes 0-18446744073709551615/*" _ _)))).
  vm_compute. reflexivity.
Defined.
