(* ===== verification/OciRegistry.v ===== *)
(** * The OCI registry's metadata plane

    Model of [crates/ferro-oci-server/src/registry.rs]: the in-memory state,
    its durable mirror and every method of [RegistryMeta]. The [BTreeMap]s are
    finite maps, read in key order where the code iterates. Each method runs
    under the write lock, so it is one atomic step. [serde_json] and
    [hex::decode] belong to other crates: they are the parameters of class
    [SnapshotCodec]. The clock and fresh UUIDs are arguments. Log output is
    left out. A concrete codec closes the file. *)

From S2P Require Import Prelude Str Frame Net Fs Digest BlobStore OciError OciReference OciUpload.

Local Open Scope Z_scope.

Definition DEFAULT_MAX_UPLOAD_SESSIONS : nat := 1024.
Definition DEFAULT_UPLOAD_SESSION_TTL : Z := 60 * 60 * 1000000000.
Definition METADATA_FILE_NAME : string := "metadata.json".

Inductive UploadAdmission := Started (uuid : string) | AtCapacity (cap : nat).

Record ReferrerDescriptor := mkReferrer {
  rd_media_type : string;
  rd_digest : Digest;
  rd_size : Z;
  rd_artifact_type : option string;
  rd_annotations : option (gmap string string);
}.

#[export] Instance ReferrerDescriptor_eq_dec : EqDecision ReferrerDescriptor.
Proof. solve_decision. Defined.

Record SessionLimits := mkLimits { max_sessions : nat; idle_ttl : Z }.
Definition SessionLimits_default : SessionLimits := mkLimits DEFAULT_MAX_UPLOAD_SESSIONS DEFAULT_UPLOAD_SESSION_TTL.

Abbreviation manifest_map := (gmap string (gmap string (string * bytes))).
Abbreviation tag_map := (gmap string (gmap string string)).
Abbreviation referrer_map := (gmap string (gmap string (list ReferrerDescriptor))).

Record InMemoryState := mkState {
  manifests : manifest_map;
  tags : tag_map;
  uploads : gmap (string * string) UploadState;
  referrers : referrer_map;
}.

Definition InMemoryState_default : InMemoryState := mkState ∅ ∅ ∅ ∅.

Record PersistedManifest := mkPersisted { pm_media_type : string; pm_body_hex : string }.

Record MetadataSnapshot := mkSnapshot {
  sn_manifests : gmap string (gmap string PersistedManifest);
  sn_tags : tag_map;
  sn_referrers : referrer_map;
}.

(** ** Third-party parameters *)

Class SnapshotCodec := {
  json_to_vec : MetadataSnapshot -> option bytes;
  json_from_slice : bytes -> option MetadataSnapshot;
  hex_decode : string -> option bytes;
}.

(** [serde_json] reads back what it wrote, and [hex::decode] inverts
    [hex::encode]. *)
Class SnapshotCodecLaws `{Hashing} (C : SnapshotCodec) := {
  json_roundtrip : forall s b, json_to_vec s = Some b -> json_from_slice b = Some s;
  hex_roundtrip : forall b, hex_decode (hex_encode b) = Some b;
}.

(** [serde_json::to_vec] fails on maps whose keys are not strings and on
    implementations of [Serialize] that fail: a snapshot has neither. *)
Class SnapshotCodecTotal (C : SnapshotCodec) := {
  json_total : forall s, is_Some (json_to_vec s);
}.

(** The registry: its configuration, its state and the world it writes to. *)
Record RegistryConfig := mkConfig { limits : SessionLimits; persist_path : option path }.

Record Registry := mkRegistry { inner : InMemoryState; world : World }.

Definition set_inner (st : InMemoryState) (r : Registry) : Registry := mkRegistry st (world r).

(** [InMemoryRegistryMeta::with_session_limits] and [new]: nothing stored, no
    mirror on disk. *)
Definition InMemoryRegistryMeta_with_session_limits (lim : SessionLimits) (w : World) : RegistryConfig * Registry :=
  (mkConfig lim None, mkRegistry InMemoryState_default w).

Definition InMemoryRegistryMeta_new (w : World) : RegistryConfig * Registry :=
  InMemoryRegistryMeta_with_session_limits SessionLimits_default w.

(** ** The durable mirror *)

Section Mirror.
Context `{H : Hashing} `{C : SnapshotCodec}.

(** One persisted manifest of [load_snapshot]: kept only when its body decodes
    and its key is the SHA-256 digest of the body. *)
Definition load_manifest (digest_str : string) (pm : PersistedManifest) : option (string * bytes) :=
  match hex_decode (pm_body_hex pm) with
  | None => None
  | Some b =>
    match Digest.from_str digest_str with
    | Ok key_digest =>
      if negb (bool_decide (algo key_digest = Sha256)) then None else
      if negb (bool_decide (hex (Digest.sha256_of b) = hex key_digest)) then None else
      Some (pm_media_type pm, b)
    | _ => None
    end
  end.

Definition state_of_snapshot (s : MetadataSnapshot) : InMemoryState :=
  mkState ((fun m : gmap string PersistedManifest => map_imap load_manifest m : gmap string (string * bytes)) <$> sn_manifests s) (sn_tags s) ∅ (sn_referrers s).

Definition load_snapshot (p : path) : stm Fs io_error (option InMemoryState) := fun s =>
  match Fs.read p s with
  | (s, Ok raw) =>
    match json_from_slice raw with
    | Some snapshot => (s, Ok (Some (state_of_snapshot snapshot)))
    | None => (s, Err (mkIoError KInvalidData "invalid metadata snapshot"))
    end
  | (s, Err e) => match io_kind e with KNotFound => (s, Ok None) | _ => (s, Err e) end
  | (s, Panic) => (s, Panic)
  end.

Definition snapshot_of_state (st : InMemoryState) : MetadataSnapshot :=
  mkSnapshot ((fun by_digest : gmap string (string * bytes) =>
                 (fun '(media_type, body) => mkPersisted media_type (hex_encode body)) <$> by_digest : gmap string PersistedManifest)
                <$> manifests st)
             (tags st) (referrers st).

Definition snapshot_tmp_name (pid seq : Z) : string :=
  (METADATA_FILE_NAME ++ "." ++ display_u64 pid ++ "." ++ display_u64 seq ++ ".tmp")%string.

(** On an error of [r], remove the temporary file and return the error. *)
Definition or_cleanup (tmp : path) (r : outcome io_error unit) : stm World io_error unit :=
  match r with
  | Err e => _ ← try_world (Fs.remove_file tmp); st_throw e
  | Panic => st_lift Panic
  | Ok _ => mret tt
  end.

Definition write_snapshot_atomic (p : path) (snapshot : MetadataSnapshot) : stm World io_error unit :=
  b ← st_lift (ok_or (json_to_vec snapshot) (mkIoError KInvalidData "cannot serialize snapshot"));
  parent ← st_lift (if decide (p = []) then Err (mkIoError KInvalidInput "snapshot path has no parent directory")
                    else Ok (Fs.parent p));
  seq ← next_tmp_counter;
  w ← st_get;
  let tmp := parent ++ [snapshot_tmp_name (w_pid w) seq] in
  on_world (Fs.create_new tmp);;
  r ← try_world (Fs.write_all tmp b ;; Fs.sync_all);
  or_cleanup tmp r;;
  r ← try_world (Fs.rename tmp p);
  or_cleanup tmp r;;
  on_world (Fs.open_dir parent);;
  on_world Fs.sync_all.

Definition persist_locked (cfg : RegistryConfig) (st : InMemoryState) : stm World io_error unit :=
  match persist_path cfg with
  | None => mret tt
  | Some p => write_snapshot_atomic p (snapshot_of_state st)
  end.

(** Persist the registry's state; the error as a value. *)
Definition try_persist (cfg : RegistryConfig) : stm Registry BlobStoreError (outcome io_error unit) := fun r =>
  let '(w, res) := persist_locked cfg (inner r) (world r) in (mkRegistry (inner r) w, Ok res).

Definition with_persistence (storage_dir : path) (w : World) : RegistryConfig * Registry :=
  let p := storage_dir ++ [METADATA_FILE_NAME] in
  let '(f, loaded) := load_snapshot p (w_fs w) in
  let st := match loaded with Ok (Some st) => st | _ => InMemoryState_default end in
  (mkConfig SessionLimits_default (Some p), mkRegistry st (mkWorld f (tmp_counter w) (w_pid w))).

End Mirror.

(** ** Manifests, tags and referrers *)

(** [entry(k).or_default()]. *)
Definition or_default {A} (m : gmap string (gmap string A)) (k : string) : gmap string A := default ∅ (m !! k).

(** [if m.get(name).is_some_and(BTreeMap::is_empty) { m.remove(name) }]. *)
Definition prune_empty {A} (name : string) (m : gmap string (gmap string A)) : gmap string (gmap string A) :=
  match m !! name with
  | Some x => if decide (x = ∅) then delete name m else m
  | None => m
  end.

Definition prune_empty_repo (name : string) (st : InMemoryState) : InMemoryState :=
  mkState (prune_empty name (manifests st)) (prune_empty name (tags st)) (uploads st) (prune_empty name (referrers st)).

(** [map.insert(k, prev)] or [map.remove(k)] under [get_mut(name)]. *)
Definition restore_entry {A} (name k : string) (prev : option A) (m : gmap string (gmap string A)) : gmap string (gmap string A) :=
  alter (partial_alter (fun _ => prev) k) name m.

(** [list.pop()], dropping the list when it becomes empty. *)
Definition pop_referrer (name subject : string) (m : referrer_map) : referrer_map :=
  match m !! name with
  | None => m
  | Some subject_map =>
    match subject_map !! subject with
    | None => m
    | Some l =>
      let l := take (pred (length l)) l in
      <[name := if decide (l = []) then delete subject subject_map else <[subject := l]> subject_map]> m
    end
  end.

(** [.entry(name).or_default().entry(subject).or_default().push(d)]. *)
Definition push_referrer (name subject : string) (d : ReferrerDescriptor) (m : referrer_map) : referrer_map :=
  let subject_map := or_default m name in
  <[name := <[subject := default [] (subject_map !! subject) ++ [d]]> subject_map]> m.

Section Methods.
Context `{H : Hashing} `{C : SnapshotCodec} (cfg : RegistryConfig).

(** The three mutations, before the snapshot is written. *)
Definition apply_put (name : string) (reference : Reference) (digest_str media_type : string) (body : bytes)
    (referrer : option (Digest * ReferrerDescriptor)) (st : InMemoryState) : InMemoryState :=
  mkState (<[name := <[digest_str := (media_type, body)]> (or_default (manifests st) name)]> (manifests st))
          (match reference with
           | Tag tag => <[name := <[tag := digest_str]> (or_default (tags st) name)]> (tags st)
           | RDigest _ => tags st
           end)
          (uploads st)
          (match referrer with
           | Some (subject, d) => push_referrer name (Digest.to_string subject) d (referrers st)
           | None => referrers st
           end).

(** The rollback of a failed put, from the entries it replaced. *)
Definition rollback_put (name : string) (reference : Reference) (digest_str : string)
    (prev_manifest : option (string * bytes)) (prev_tag : option string)
    (referrer : option (Digest * ReferrerDescriptor)) (st : InMemoryState) : InMemoryState :=
  prune_empty_repo name
    (mkState (restore_entry name digest_str prev_manifest (manifests st))
             (match reference with Tag tag => restore_entry name tag prev_tag (tags st) | RDigest _ => tags st end)
             (uploads st)
             (match referrer with
              | Some (subject, _) => pop_referrer name (Digest.to_string subject) (referrers st)
              | None => referrers st
              end)).

Definition put_manifest_with_referrer (name : string) (reference : Reference) (digest : Digest)
    (media_type : string) (body : bytes) (referrer : option (Digest * ReferrerDescriptor))
    : stm Registry BlobStoreError unit :=
  r ← st_get;
  let st := inner r in
  let digest_str := Digest.to_string digest in
  let prev_manifest := or_default (manifests st) name !! digest_str in
  let prev_tag := match reference with Tag tag => or_default (tags st) name !! tag | RDigest _ => None end in
  st_modify (set_inner (apply_put name reference digest_str media_type body referrer st));;
  res ← try_persist cfg;
  match res with
  | Ok _ => mret tt
  | Panic => st_lift Panic
  | Err e =>
    r ← st_get;
    st_modify (set_inner (rollback_put name reference digest_str prev_manifest prev_tag referrer (inner r)));;
    st_throw (BsIo e)
  end.

Definition put_manifest (name : string) (reference : Reference) (digest : Digest) (media_type : string)
    (body : bytes) : stm Registry BlobStoreError unit :=
  put_manifest_with_referrer name reference digest media_type body None.

Definition get_manifest (name : string) (reference : Reference)
    : stm Registry BlobStoreError (option (Digest * string * bytes)) :=
  r ← st_get;
  match manifests (inner r) !! name with
  | None => mret None
  | Some name_map =>
    match (match reference with
           | RDigest d => Some (Digest.to_string d)
           | Tag t => tags (inner r) !! name ≫= fun m => m !! t
           end) with
    | None => mret None
    | Some digest_str =>
      match name_map !! digest_str with
      | None => mret None
      | Some (media_type, body) =>
        d ← st_lift (map_err InvalidDigest (Digest.from_str digest_str));
        mret (Some (d, media_type, body))
      end
    end
  end.

(** The descriptors of [l] that name [digest_str], removed back to front with
    the index each had. *)
Fixpoint prune_list (idx : nat) (digest_str : string) (l : list ReferrerDescriptor)
    (removed : list (nat * ReferrerDescriptor)) : list ReferrerDescriptor * list (nat * ReferrerDescriptor) :=
  match idx with
  | O => (l, removed)
  | S k =>
    match l !! k with
    | Some d =>
      if bool_decide (Digest.to_string (rd_digest d) = digest_str)
      then prune_list k digest_str (delete k l) (removed ++ [(k, d)])
      else prune_list k digest_str l removed
    | None => (l, removed)
    end
  end.

Definition pruned (digest_str : string) (l : list ReferrerDescriptor) := prune_list (length l) digest_str l [].

Definition removed_referrers (digest_str : string) (m : gmap string (list ReferrerDescriptor))
    : list (string * nat * ReferrerDescriptor) :=
  concat ((fun '(subject, l) => (fun '(k, d) => (subject, k, d)) <$> snd (pruned digest_str l)) <$> items m).

Definition prune_subjects (digest_str : string) (m : gmap string (list ReferrerDescriptor))
    : gmap string (list ReferrerDescriptor) :=
  filter (fun x : string * list ReferrerDescriptor => snd x <> []) ((fun l => fst (pruned digest_str l)) <$> m).

Definition removed_tags (digest_str : string) (m : gmap string string) : list string :=
  fst <$> filter (fun x : string * string => snd x = digest_str) (items m).

Definition apply_delete (name digest_str : string) (st : InMemoryState) : InMemoryState :=
  mkState (alter (delete digest_str) name (manifests st))
          (alter (filter (fun x : string * string => snd x <> digest_str)) name (tags st))
          (uploads st)
          (alter (prune_subjects digest_str) name (referrers st)).

(** Re-insert a pruned descriptor at its recorded index. *)
Definition reinsert (m : gmap string (list ReferrerDescriptor)) (x : string * nat * ReferrerDescriptor)
    : gmap string (list ReferrerDescriptor) :=
  let '(subject, idx, d) := x in
  let l := default [] (m !! subject) in
  let at_ := min idx (length l) in
  <[subject := take at_ l ++ d :: drop at_ l]> m.

Definition rollback_delete (name digest_str : string) (removed_manifest : string * bytes)
    (rtags : list string) (rrefs : list (string * nat * ReferrerDescriptor)) (st : InMemoryState) : InMemoryState :=
  mkState (<[name := <[digest_str := removed_manifest]> (or_default (manifests st) name)]> (manifests st))
          (if decide (rtags = []) then tags st else
             <[name := fold_left (fun m tag => <[tag := digest_str]> m) rtags (or_default (tags st) name)]> (tags st))
          (uploads st)
          (if decide (rrefs = []) then referrers st else
             <[name := fold_left reinsert (rev rrefs) (or_default (referrers st) name)]> (referrers st)).

Definition delete_manifest (name : string) (reference : Reference) : stm Registry BlobStoreError bool :=
  match reference with
  | Tag _ => mret false
  | RDigest d =>
    r ← st_get;
    let st := inner r in
    let digest_str := Digest.to_string d in
    match manifests st !! name with
    | None => mret false
    | Some name_map =>
      match name_map !! digest_str with
      | None => mret false
      | Some removed_manifest =>
        let rtags := match tags st !! name with Some m => removed_tags digest_str m | None => [] end in
        let rrefs := match referrers st !! name with Some m => removed_referrers digest_str m | None => [] end in
        st_modify (set_inner (apply_delete name digest_str st));;
        res ← try_persist cfg;
        match res with
        | Ok _ => mret true
        | Panic => st_lift Panic
        | Err e =>
          r ← st_get;
          st_modify (set_inner (rollback_delete name digest_str removed_manifest rtags rrefs (inner r)));;
          st_throw (BsIo e)
        end
      end
    end
  end.

Definition register_referrer (name : string) (subject : Digest) (d : ReferrerDescriptor)
    : stm Registry BlobStoreError unit :=
  r ← st_get;
  let st := inner r in
  let subject_str := Digest.to_string subject in
  st_modify (set_inner (mkState (manifests st) (tags st) (uploads st) (push_referrer name subject_str d (referrers st))));;
  res ← try_persist cfg;
  match res with
  | Ok _ => mret tt
  | Panic => st_lift Panic
  | Err e =>
    r ← st_get;
    let st := inner r in
    st_modify (set_inner (prune_empty_repo name
      (mkState (manifests st) (tags st) (uploads st) (pop_referrer name subject_str (referrers st)))));;
    st_throw (BsIo e)
  end.

(** [names.sort()], then the cursor and the limit. *)
Definition paginate (names : list string) (last : option string) (n : option nat) : list string :=
  let names := merge_sort str_le names in
  let names := match last with Some cursor => filter (fun t => str_lt cursor t) names | None => names end in
  match n with Some limit => take limit names | None => names end.

Definition list_tags (name : string) (last : option string) (n : option nat)
    : stm Registry BlobStoreError (list string) :=
  r ← st_get;
  match tags (inner r) !! name with
  | None => mret []
  | Some m => mret (paginate (fst <$> items m) last n)
  end.

Definition list_repositories (last : option string) (n : option nat) : stm Registry BlobStoreError (list string) :=
  r ← st_get; mret (paginate (fst <$> items (manifests (inner r))) last n).

Definition list_referrers (name : string) (digest : Digest) (artifact_type : option string)
    : stm Registry BlobStoreError (list ReferrerDescriptor) :=
  r ← st_get;
  match referrers (inner r) !! name with
  | None => mret []
  | Some name_map =>
    match name_map !! Digest.to_string digest with
    | None => mret []
    | Some l =>
      mret (match artifact_type with
            | None => l
            | Some at_ => filter (fun d => rd_artifact_type d = Some at_) l
            end)
    end
  end.

(** ** Upload sessions *)

Definition set_uploads (u : gmap (string * string) UploadState) (r : Registry) : Registry :=
  set_inner (mkState (manifests (inner r)) (tags (inner r)) u (referrers (inner r))) r.

Definition sweep_idle_uploads (now ttl : Z) (u : gmap (string * string) UploadState)
    : gmap (string * string) UploadState * nat :=
  let u' := filter (fun x : _ * UploadState => UploadState.is_idle_for now ttl (snd x) = false) u in
  (u', (size u - size u')%nat).

Definition start_upload (now : Z) (uuid name : string) : stm Registry BlobStoreError UploadAdmission :=
  r ← st_get;
  let u := fst (sweep_idle_uploads now (idle_ttl (limits cfg)) (uploads (inner r))) in
  if (max_sessions (limits cfg) <=? size u)%nat
  then st_modify (set_uploads u);; mret (AtCapacity (max_sessions (limits cfg)))
  else st_modify (set_uploads (<[(name, uuid) := UploadState.new now name uuid]> u));; mret (Started uuid).

Definition append_upload (now : Z) (name uuid : string) (offset : Z) (chunk : bytes)
    : stm Registry BlobStoreError Z :=
  r ← st_get;
  match uploads (inner r) !! (name, uuid) with
  | None => st_throw (NotFound ("unknown upload uuid: " ++ uuid))
  | Some s =>
    if negb (offset =? UploadState.offset s)
    then st_throw (NotFound ("out-of-order upload chunk: expected offset "
           ++ display_u64 (UploadState.offset s) ++ ", got " ++ display_u64 offset))
    else
      let '(s, new_offset) := UploadState.append now chunk s in
      st_modify (set_uploads (<[(name, uuid) := s]> (uploads (inner r))));; mret new_offset
  end.

Definition complete_upload (name uuid : string) (_digest : Digest) : stm Registry BlobStoreError unit :=
  r ← st_get; st_modify (set_uploads (delete (name, uuid) (uploads (inner r)))).

Definition get_upload_state (now : Z) (name uuid : string) : stm Registry BlobStoreError (option UploadState) :=
  r ← st_get;
  match uploads (inner r) !! (name, uuid) with
  | Some s =>
    if UploadState.is_idle_for now (idle_ttl (limits cfg)) s
    then st_modify (set_uploads (delete (name, uuid) (uploads (inner r))));; mret None
    else mret (Some s)
  | None => mret None
  end.

Definition cancel_upload (name uuid : string) : stm Registry BlobStoreError bool :=
  r ← st_get;
  st_modify (set_uploads (delete (name, uuid) (uploads (inner r))));;
  mret (bool_decide (is_Some (uploads (inner r) !! (name, uuid)))).

Definition take_upload_bytes (name uuid : string) : stm Registry BlobStoreError (option bytes) :=
  r ← st_get;
  match uploads (inner r) !! (name, uuid) with
  | None => mret None
  | Some s =>
    let '(s, b) := UploadState.take_bytes s in
    st_modify (set_uploads (<[(name, uuid) := s]> (uploads (inner r))));; mret (Some b)
  end.

End Methods.

(** ** A concrete snapshot codec

    An executable instance of [SnapshotCodec] that satisfies its laws, used to
    evaluate the registry on concrete inputs: snapshots are serialized through
    their countable encoding, one byte per bit. *)

#[export] Instance ReferrerDescriptor_countable : Countable ReferrerDescriptor.
Proof.
  refine (inj_countable' (fun d => (rd_media_type d, rd_digest d, rd_size d, rd_artifact_type d, rd_annotations d))
    (fun '(a, b, c, d, e) => mkReferrer a b c d e) _).
  intros []; reflexivity.
Defined.

#[export] Instance PersistedManifest_eq_dec : EqDecision PersistedManifest.
Proof. solve_decision. Defined.

#[export] Instance PersistedManifest_countable : Countable PersistedManifest.
Proof.
  refine (inj_countable' (fun m => (pm_media_type m, pm_body_hex m)) (fun '(a, b) => mkPersisted a b) _).
  intros []; reflexivity.
Defined.

#[export] Instance MetadataSnapshot_eq_dec : EqDecision MetadataSnapshot.
Proof. solve_decision. Defined.

#[export] Instance MetadataSnapshot_countable : Countable MetadataSnapshot.
Proof.
  refine (inj_countable' (fun s => (sn_manifests s, sn_tags s, sn_referrers s)) (fun '(a, b, c) => mkSnapshot a b c) _).
  intros []; reflexivity.
Defined.

Fixpoint bits_of (p : positive) : bytes :=
  match p with xH => [] | xO p => x00 :: bits_of p | xI p => x01 :: bits_of p end.

Fixpoint of_bits (b : bytes) : positive :=
  match b with [] => xH | x :: b => if bool_decide (x = x00) then xO (of_bits b) else xI (of_bits b) end.

Lemma of_bits_of p : of_bits (bits_of p) = p.
Proof. induction p as [p IH|p IH|]; cbn; rewrite ?IH; reflexivity. Qed.

Definition hex_value (c : ascii) : option Z :=
  if is_ascii_digit c then Some (Z.of_N (code c) - 48)%Z else
  if in_range "a" "f" c then Some (Z.of_N (code c) - 87)%Z else None.

Fixpoint toy_unhex (s : string) : option bytes :=
  match s with
  | String a (String b s) =>
    x ← hex_value a; y ← hex_value b; l ← toy_unhex s; Some (Z_byte (16 * x + y) :: l)
  | EmptyString => Some []
  | _ => None
  end.

Lemma hex_value_digit n : (0 <= n < 16)%Z -> hex_value (hex_digit n) = Some n.
Proof.
  intros Hn. assert (H : forallb (fun k => bool_decide (hex_value (hex_digit (Z.of_nat k)) = Some (Z.of_nat k))) (seq 0 16) = true)
    by reflexivity.
  rewrite forallb_forall in H. specialize (H (Z.to_nat n)). rewrite Z2Nat.id in H by lia.
  eapply bool_decide_eq_true_1, H, in_seq. lia.
Qed.

Lemma toy_unhex_hex b : toy_unhex (toy_hex b) = Some b.
Proof.
  induction b as [|x b IH]; [reflexivity|]. cbn. pose proof (byte_Z_range x).
  rewrite !hex_value_digit, IH.
  - cbn. do 2 f_equal. rewrite <- Z.div_mod by lia. apply Z_byte_of_byte.
  - split; [apply Z.div_pos; lia|]. apply Z.div_lt_upper_bound; lia.
  - apply Z.mod_pos_bound. lia.
Qed.

#[export] Instance toy_codec : SnapshotCodec := {
  json_to_vec s := Some (bits_of (encode s));
  json_from_slice b := decode (of_bits b);
  hex_decode := toy_unhex;
}.

#[export] Instance toy_codec_laws : SnapshotCodecLaws toy_codec.
Proof.
  split; [|exact toy_unhex_hex]. intros s b [= <-]. cbn. rewrite of_bits_of. apply decode_encode.
Defined.

#[export] Instance toy_codec_total : SnapshotCodecTotal toy_codec.
Proof. split. intros s. cbn. eauto. Qed.
