(* ===== verification/OciRegistryProps.v ===== *)
(** * Properties of the metadata plane

    Rollback of failed mutations, content addressing across restarts,
    durability, pagination and the session cap of [OciRegistry]. *)

From S2P Require Import Prelude Str Frame Net Fs Digest BlobStore OciError OciReference OciUpload OciRegistry.

(** ** Lemmas: rollback of a put *)

Lemma prune_insert_default {A} name (m : gmap string (gmap string A)) :
  prune_empty name (<[name := or_default m name]> m) = prune_empty name m.
Proof.
  unfold or_default. destruct (m !! name) as [x|] eqn:E; cbn; [rewrite insert_id by exact E; reflexivity|].
  unfold prune_empty. rewrite lookup_insert_eq, E, decide_True by reflexivity. apply delete_insert_id, E.
Qed.

Lemma restore_insert {A} name k (v : A) (m : gmap string (gmap string A)) :
  prune_empty name (restore_entry name k (or_default m name !! k)
    (<[name := <[k := v]> (or_default m name)]> m)) = prune_empty name m.
Proof.
  rewrite <- (prune_insert_default name m). f_equal. unfold restore_entry.
  rewrite alter_insert_eq. f_equal. apply map_eq. intros j.
  destruct (decide (j = k)) as [->|Hj]; [apply lookup_partial_alter_eq|].
  rewrite lookup_partial_alter_ne, lookup_insert_ne by congruence. reflexivity.
Qed.

(** No subject has an empty list of referrers. *)
Definition no_empty_lists (m : referrer_map) : Prop :=
  forall name sm s, m !! name = Some sm -> sm !! s <> Some [].

Lemma pop_push name s d m :
  no_empty_lists m -> prune_empty name (pop_referrer name s (push_referrer name s d m)) = prune_empty name m.
Proof.
  intros Hm. rewrite <- (prune_insert_default name m). f_equal. unfold pop_referrer, push_referrer.
  rewrite lookup_insert_eq, lookup_insert_eq, length_app. cbn [length].
  rewrite Nat.add_1_r. cbn [pred]. rewrite take_app_length, insert_insert_eq. f_equal.
  set (sm := or_default m name).
  assert (Hne : sm !! s <> Some []).
  { unfold sm, or_default. destruct (m !! name) as [x|] eqn:E; cbn; [exact (Hm name x s E)|].
    rewrite lookup_empty. discriminate. }
  destruct (sm !! s) as [l|] eqn:El; cbn [default from_option]; unfold id.
  - rewrite decide_False by congruence. rewrite insert_insert_eq. apply insert_id. exact El.
  - rewrite decide_True by reflexivity. rewrite delete_insert_eq. apply delete_id, El.
Qed.

Lemma rollback_apply_put name reference ds mt body referrer st :
  no_empty_lists (referrers st) ->
  rollback_put name reference ds (or_default (manifests st) name !! ds)
    (match reference with Tag tag => or_default (tags st) name !! tag | RDigest _ => None end) referrer
    (apply_put name reference ds mt body referrer st)
  = prune_empty_repo name st.
Proof.
  intros Hr. unfold rollback_put, apply_put, prune_empty_repo. cbn [manifests tags uploads referrers]. f_equal.
  - apply restore_insert.
  - destruct reference; [apply restore_insert|reflexivity].
  - destruct referrer as [[subject d]|]; [apply pop_push, Hr|reflexivity].
Qed.

(** ** Lemmas: rollback of a delete *)

(** Re-inserting at a recorded index. *)
Definition put_back (l : list ReferrerDescriptor) (x : nat * ReferrerDescriptor) : list ReferrerDescriptor :=
  let at_ := min (fst x) (length l) in take at_ l ++ snd x :: drop at_ l.

Lemma prune_list_spec idx ds l removed :
  (idx <= length l)%nat ->
  exists more, snd (prune_list idx ds l removed) = removed ++ more /\
    fold_left put_back
      (rev more) (fst (prune_list idx ds l removed)) = l /\
    (forall k d, (k, d) ∈ more -> Digest.to_string (rd_digest d) = ds) /\
    (length (fst (prune_list idx ds l removed)) + length more = length l)%nat.
Proof.
  revert l removed. induction idx as [|k IH]; intros l removed Hk; cbn.
  - exists []. rewrite app_nil_r. split_and!; [reflexivity|reflexivity|intros ? ? Hin; inversion Hin|cbn; lia].
  - destruct (l !! k) as [d|] eqn:El; [|apply lookup_ge_None in El; lia].
    case_bool_decide as Hd; [|apply IH; lia].
    assert (Hlen : length (delete k l) = pred (length l)) by (rewrite length_delete by eauto; lia).
    destruct (IH (delete k l) (removed ++ [(k, d)])) as (more & Hs & Hf & Hm & Hl); [lia|].
    exists ((k, d) :: more). rewrite Hs. split_and!.
    + rewrite <- app_assoc. reflexivity.
    + cbn [rev]. rewrite fold_left_app, Hf. cbn [fold_left]. unfold put_back. cbn [fst snd]. rewrite Hlen, Nat.min_l by lia.
      rewrite delete_take_drop, take_app_le, take_take, Nat.min_id by (rewrite length_take; lia).
      rewrite drop_app_ge by (rewrite length_take; lia). rewrite length_take, Nat.min_l, Nat.sub_diag by lia.
      cbn. apply take_drop_middle, El.
    + intros j e [[= -> ->]|Hin]%elem_of_cons; [exact Hd|exact (Hm j e Hin)].
    + cbn. lia.
Qed.

Lemma pruned_spec ds l :
  fold_left put_back
    (rev (snd (pruned ds l))) (fst (pruned ds l)) = l.
Proof.
  unfold pruned. destruct (prune_list_spec (length l) ds l [] ltac:(lia)) as (more & -> & Hf & _). exact Hf.
Qed.

(** The entries of a removal log that belong to one subject. *)
Definition entries_of (s : string) (log : list (string * nat * ReferrerDescriptor)) : list (nat * ReferrerDescriptor) :=
  omap (fun '(s', k, d) => if decide (s' = s) then Some (k, d) else None) log.

Lemma entries_of_app s a b : entries_of s (a ++ b) = entries_of s a ++ entries_of s b.
Proof.
  unfold entries_of. induction a as [|[[s' k] d] a IH]; cbn; [reflexivity|].
  destruct (decide (s' = s)); cbn; rewrite IH; reflexivity.
Qed.

Lemma entries_of_rev s a : entries_of s (rev a) = rev (entries_of s a).
Proof.
  induction a as [|[[s' k] d] a IH]; [reflexivity|]. cbn [rev]. rewrite entries_of_app, IH.
  unfold entries_of at 2 3. cbn. destruct (decide (s' = s)); cbn; [reflexivity|]. rewrite app_nil_r. reflexivity.
Qed.

(** Replaying a log touches each subject through its own entries. *)
Lemma reinsert_all_lookup log m s :
  fold_left reinsert log m !! s =
  match entries_of s log with
  | [] => m !! s
  | es => Some (fold_left put_back es (default [] (m !! s)))
  end.
Proof.
  revert m. induction log as [|[[s' k] d] log IH]; intros m; [reflexivity|]. cbn [fold_left]. rewrite IH.
  unfold entries_of at 2. cbn. fold (entries_of s log). destruct (decide (s' = s)) as [->|Hs].
  - unfold reinsert. rewrite lookup_insert_eq. cbn. destruct (entries_of s log); reflexivity.
  - unfold reinsert. rewrite lookup_insert_ne by exact Hs. reflexivity.
Qed.

Lemma entries_of_group s s' es :
  entries_of s ((fun '(k, d) => (s', k, d)) <$> es) = if decide (s' = s) then es else [].
Proof.
  unfold entries_of. induction es as [|[k d] es IH]; cbn; [destruct (decide (s' = s)); reflexivity|].
  destruct (decide (s' = s)); cbn; [rewrite IH; reflexivity|exact IH].
Qed.

Lemma entries_of_items s (f : list ReferrerDescriptor -> list (nat * ReferrerDescriptor)) L :
  NoDup (fst <$> L) ->
  entries_of s (concat ((fun '(subject, l) => (fun '(k, d) => (subject, k, d)) <$> f l) <$> L)) =
  match list_find (fun x : string * list ReferrerDescriptor => fst x = s) L with Some (_, (_, l)) => f l | None => [] end.
Proof.
  induction L as [|[s' l] L IH]; intros Hnd; [reflexivity|]. rewrite !fmap_cons in *. cbn [concat list_find fst].
  apply NoDup_cons in Hnd as [Hs Hnd].
  rewrite entries_of_app, entries_of_group, (IH Hnd). destruct (decide (s' = s)) as [->|Hne]; cbn.
  - destruct (list_find _ L) as [[i [s2 l2]]|] eqn:E; cbn; [|apply app_nil_r].
    apply list_find_Some in E as (Hi & Heq & _). cbn in Heq. subst s2. exfalso. apply Hs.
    apply list_elem_of_fmap. exists (s, l2). split; [reflexivity|]. eapply list_elem_of_lookup_2, Hi.
  - destruct (list_find _ L) as [[i [s2 l2]]|]; reflexivity.
Qed.

Lemma entries_of_removed s ds m :
  entries_of s (removed_referrers ds m) = match m !! s with Some l => snd (pruned ds l) | None => [] end.
Proof.
  unfold removed_referrers. rewrite (entries_of_items s (fun l => snd (pruned ds l))) by apply NoDup_items.
  destruct (list_find _ (items m)) as [[i [s2 l]]|] eqn:E.
  - apply list_find_Some in E as (Hi & Heq & _). cbn in Heq. subst s2.
    apply list_elem_of_lookup_2, elem_of_items in Hi. rewrite Hi. reflexivity.
  - apply list_find_None in E. destruct (m !! s) as [l|] eqn:El; [exfalso|reflexivity].
    apply elem_of_items in El. rewrite Forall_forall in E. exact (E (s, l) El eq_refl).
Qed.

Lemma prune_subjects_lookup ds m s :
  prune_subjects ds m !! s =
  match m !! s with
  | Some l => if decide (fst (pruned ds l) = []) then None else Some (fst (pruned ds l))
  | None => None
  end.
Proof.
  unfold prune_subjects. destruct (m !! s) as [l|] eqn:El.
  - case_decide as Hd.
    + apply map_lookup_filter_None. right. intros x Hx. rewrite lookup_fmap, El in Hx. injection Hx as <-. cbn. tauto.
    + apply map_lookup_filter_Some. rewrite lookup_fmap, El. auto.
  - apply map_lookup_filter_None. left. rewrite lookup_fmap, El. reflexivity.
Qed.

(** Replaying the log backwards restores every list that is not empty. *)
Definition nonempty_list (l : list ReferrerDescriptor) : option (list ReferrerDescriptor) :=
  match l with [] => None | l => Some l end.

Lemma restore_subjects_lookup ds m s :
  fold_left reinsert (rev (removed_referrers ds m)) (prune_subjects ds m) !! s = m !! s ≫= nonempty_list.
Proof.
  rewrite reinsert_all_lookup, entries_of_rev, entries_of_removed, prune_subjects_lookup.
  destruct (m !! s) as [l|]; [|reflexivity]. cbn [mbind option_bind]. pose proof (pruned_spec ds l) as Hp.
  assert (Hd : default [] (if decide (fst (pruned ds l) = []) then None else Some (fst (pruned ds l))) = fst (pruned ds l))
    by (case_decide; [symmetry; assumption|reflexivity]).
  destruct (rev (snd (pruned ds l))) as [|e es] eqn:Er.
  - cbn in Hp. rewrite Hp. destruct l; reflexivity.
  - rewrite Hd, Hp. destruct l; [|reflexivity].
    apply (f_equal (@length _)) in Er. rewrite length_rev in Er. discriminate Er.
Qed.

Lemma restore_subjects ds m :
  (forall s, m !! s <> Some []) -> fold_left reinsert (rev (removed_referrers ds m)) (prune_subjects ds m) = m.
Proof.
  intros Hne. apply map_eq. intros s. rewrite restore_subjects_lookup. specialize (Hne s).
  destruct (m !! s) as [[|x l]|]; [congruence|reflexivity|reflexivity].
Qed.

Lemma reinsert_tags_lookup ds l (m : gmap string string) t :
  fold_left (fun m tag => <[tag := ds]> m) l m !! t = if decide (t ∈ l) then Some ds else m !! t.
Proof.
  revert m. induction l as [|x l IH]; intros m; cbn; [rewrite decide_False by apply not_elem_of_nil; reflexivity|].
  rewrite IH. destruct (decide (t ∈ l)) as [Ht|Ht].
  - rewrite decide_True by (right; exact Ht). reflexivity.
  - destruct (decide (t = x)) as [->|Hne].
    + rewrite lookup_insert_eq, decide_True by left. reflexivity.
    + rewrite lookup_insert_ne, decide_False by (congruence || (rewrite elem_of_cons; tauto)). reflexivity.
Qed.

Lemma restore_tags ds (m : gmap string string) :
  fold_left (fun m tag => <[tag := ds]> m) (removed_tags ds m) (filter (fun x : string * string => snd x <> ds) m) = m.
Proof.
  apply map_eq. intros t. rewrite reinsert_tags_lookup.
  assert (Hin : t ∈ removed_tags ds m <-> m !! t = Some ds).
  { unfold removed_tags. rewrite list_elem_of_fmap. split.
    - intros ([t' v] & -> & Hx). apply list_elem_of_filter in Hx as [Hv Hx]. cbn in *. subst v. apply elem_of_items, Hx.
    - intros Hm. exists (t, ds). split; [reflexivity|]. apply list_elem_of_filter. split; [reflexivity|]. apply elem_of_items, Hm. }
  destruct (decide (t ∈ removed_tags ds m)) as [Ht|Ht]; rewrite Hin in Ht; [auto|].
  destruct (m !! t) as [v|] eqn:E; [apply map_lookup_filter_Some; split; [exact E|cbn; congruence]|].
  apply map_lookup_filter_None. auto.
Qed.

(** What was replaced under [name] is back, whatever the entry there was. *)
Lemma insert_alter_id {A} name (f : A -> A) (m : gmap string A) x :
  m !! name = Some x -> <[name := x]> (alter f name m) = m.
Proof.
  intros Hn. apply map_eq. intros k. destruct (decide (k = name)) as [->|Hk]; [rewrite lookup_insert_eq; congruence|].
  rewrite lookup_insert_ne, lookup_alter_ne by congruence. reflexivity.
Qed.

Lemma alter_fixed {A} name (f : A -> A) (m : gmap string A) :
  (forall x, m !! name = Some x -> f x = x) -> alter f name m = m.
Proof.
  intros Hf. apply map_eq. intros k. destruct (decide (k = name)) as [->|Hk]; [|rewrite lookup_alter_ne by congruence; reflexivity].
  rewrite lookup_alter_eq. destruct (m !! name) as [x|]; [cbn; rewrite Hf by reflexivity|]; reflexivity.
Qed.

(** Replaying a log over what a prune left of the entry under [name]. *)
Lemma replay_alter {A B} name (f : A -> A) (log : list B) (replay : A -> A) (dflt : A) (m : gmap string A) :
  (forall x, m !! name = Some x -> replay (f x) = x) -> (forall x, log = [] -> replay x = x) ->
  (m !! name = None -> log = []) ->
  (if decide (log = []) then alter f name m else <[name := replay (default dflt (alter f name m !! name))]> (alter f name m)) = m.
Proof.
  intros Hr Hnil Hnone. case_decide as Hd.
  - apply alter_fixed. intros x Hx. rewrite <- (Hnil (f x) Hd). exact (Hr x Hx).
  - destruct (m !! name) as [x|] eqn:Hx; [|destruct (Hd (Hnone eq_refl))].
    rewrite lookup_alter_eq, Hx. cbn. unfold id. rewrite Hr by reflexivity. apply insert_alter_id, Hx.
Qed.

Lemma rollback_manifests name ds nm (rm : string * bytes) (ms : manifest_map) :
  ms !! name = Some nm -> nm !! ds = Some rm ->
  <[name := <[ds := rm]> (or_default (alter (delete ds) name ms) name)]> (alter (delete ds) name ms) = ms.
Proof.
  intros Hnm Hrm. unfold or_default. rewrite lookup_alter_eq, Hnm. cbn. unfold id. rewrite insert_delete_id by exact Hrm.
  apply insert_alter_id, Hnm.
Qed.

Lemma rollback_tags name ds (ts : tag_map) :
  let rtags := match ts !! name with Some m => removed_tags ds m | None => [] end in
  let ts' := alter (filter (fun x : string * string => snd x <> ds)) name ts in
  (if decide (rtags = []) then ts' else
     <[name := fold_left (fun m tag => <[tag := ds]> m) rtags (or_default ts' name)]> ts') = ts.
Proof.
  cbv zeta. apply (replay_alter name _ _ (fun m => fold_left (fun m tag => <[tag := ds]> m) _ m) ∅).
  - intros m ->. apply restore_tags.
  - intros m ->. reflexivity.
  - intros ->. reflexivity.
Qed.

Lemma rollback_apply_delete name ds nm rm st :
  manifests st !! name = Some nm -> nm !! ds = Some rm -> no_empty_lists (referrers st) ->
  rollback_delete name ds rm
    (match tags st !! name with Some m => removed_tags ds m | None => [] end)
    (match referrers st !! name with Some m => removed_referrers ds m | None => [] end)
    (apply_delete name ds st) = st.
Proof.
  intros Hnm Hrm Hne. unfold rollback_delete, apply_delete. destruct st as [ms ts us rs]. cbn [manifests tags uploads referrers] in *.
  f_equal; [apply (rollback_manifests name ds nm); assumption|apply rollback_tags|].
  apply (replay_alter name _ _ (fun m => fold_left reinsert (rev _) m) ∅).
  - intros m Hm. rewrite Hm. apply restore_subjects. intros s. exact (Hne name m s Hm).
  - intros m ->. reflexivity.
  - intros ->. reflexivity.
Qed.

(** Persisting writes only to the world. *)
Section Facts.
Context `{H : Hashing} `{C : SnapshotCodec} (cfg : RegistryConfig).

Lemma try_persist_inner r r' res : try_persist cfg r = (r', res) ->
  inner r' = inner r /\ exists o, res = Ok o /\ persist_locked cfg (inner r) (world r) = (world r', o).
Proof.
  unfold try_persist. destruct (persist_locked cfg (inner r) (world r)) as [w o] eqn:E. intros [= <- <-]. cbn. eauto.
Qed.

(** A put, by the outcome of its one snapshot write. *)
Lemma put_eq name reference d mt body referrer r :
  let st' := apply_put name reference (Digest.to_string d) mt body referrer (inner r) in
  put_manifest_with_referrer cfg name reference d mt body referrer r =
  let '(w, o) := persist_locked cfg st' (world r) in
  match o with
  | Ok _ => (mkRegistry st' w, Ok tt)
  | Panic => (mkRegistry st' w, Panic)
  | Err e =>
    (mkRegistry (rollback_put name reference (Digest.to_string d)
       (or_default (manifests (inner r)) name !! Digest.to_string d)
       (match reference with Tag tag => or_default (tags (inner r)) name !! tag | RDigest _ => None end) referrer st') w,
     Err (BsIo e))
  end.
Proof.
  intros st'. unfold put_manifest_with_referrer, try_persist. run_st. cbn [inner world set_inner].
  fold st'. destruct (persist_locked cfg st' (world r)) as [w [[]|e|]]; reflexivity.
Qed.

Lemma delete_eq_registry name d nm rm r :
  manifests (inner r) !! name = Some nm -> nm !! Digest.to_string d = Some rm ->
  let st' := apply_delete name (Digest.to_string d) (inner r) in
  delete_manifest cfg name (RDigest d) r =
  let '(w, o) := persist_locked cfg st' (world r) in
  match o with
  | Ok _ => (mkRegistry st' w, Ok true)
  | Panic => (mkRegistry st' w, Panic)
  | Err e =>
    (mkRegistry (rollback_delete name (Digest.to_string d) rm
       (match tags (inner r) !! name with Some m => removed_tags (Digest.to_string d) m | None => [] end)
       (match referrers (inner r) !! name with Some m => removed_referrers (Digest.to_string d) m | None => [] end) st') w,
     Err (BsIo e))
  end.
Proof.
  intros Hnm Hrm st'. unfold delete_manifest, try_persist. run_st. rewrite Hnm, Hrm. cbn [inner world set_inner].
  fold st'. destruct (persist_locked cfg st' (world r)) as [w [[]|e|]]; reflexivity.
Qed.

End Facts.

(** ** Sample registries *)

Definition sample_cfg : RegistryConfig := mkConfig SessionLimits_default (Some (["data"%string] ++ [METADATA_FILE_NAME])).

(** A registry whose storage directory exists, with the given fault script. *)
Definition sample_registry (st : InMemoryState) (script : list (option fault)) : Registry :=
  mkRegistry st (mkWorld (mkFs {[ ["data"%string] := Dir ]} script) 0 7).

Definition sample_fault : option fault := Some (mkFault None 28 "No space left on device").

Definition sample_body : bytes := [x7b; x7d].

Definition sample_digest : Digest := Digest.sha256_of sample_body.

Definition sample_referrer (d : Digest) : ReferrerDescriptor := mkReferrer "application/json" d 2 None None.

(** One tagged manifest that is its own subject's second referrer. *)
Definition sample_state : InMemoryState :=
  let ds := Digest.to_string sample_digest in
  mkState {[ "lib" := {[ ds := ("application/json", sample_body) ]} ]} {[ "lib" := {[ "latest" := ds ]} ]} ∅
    {[ "lib" := {[ ds := [sample_referrer (Digest.sha256_of []); sample_referrer sample_digest] ]} ]}.

(** ** Properties: failed mutations leave no trace *)

(** A manifest put is one transaction. When the snapshot write succeeds,
    the manifest, its tag and its referrer are all in the state; when it
    fails, all of them are undone: the state is what it was before, except
    that per-repository maps that are empty are dropped. *)
Theorem put_manifest_transaction `{H : Hashing} `{C : SnapshotCodec} (cfg : RegistryConfig) (name : string)
    (reference : Reference) (d : Digest) (mt : string) (body : bytes)
    (referrer : option (Digest * ReferrerDescriptor)) (r r' : Registry) (res : outcome BlobStoreError unit)
    (Hwf : no_empty_lists (referrers (inner r)))
    (Hput : put_manifest_with_referrer cfg name reference d mt body referrer r = (r', res)) :
  (res = Ok tt -> inner r' = apply_put name reference (Digest.to_string d) mt body referrer (inner r)) /\
  (forall e, res = Err e -> inner r' = prune_empty_repo name (inner r)).
Proof.
  rewrite put_eq in Hput. cbv zeta in Hput.
  destruct (persist_locked cfg _ (world r)) as [w [[]|e|]]; injection Hput as <- <-; cbn [inner].
  - split; [reflexivity|discriminate].
  - split; [discriminate|]. intros e' _. apply rollback_apply_put, Hwf.
  - split; discriminate.
Qed.

Lemma put_manifest_transaction_witness :
  inner (fst (put_manifest_with_referrer sample_cfg "lib" (Tag "v1") sample_digest "application/json" sample_body
    (Some (Digest.sha256_of [], sample_referrer sample_digest)) (sample_registry InMemoryState_default [None; sample_fault])))
  = InMemoryState_default.
Proof.
  refine (proj2 (put_manifest_transaction sample_cfg "lib" (Tag "v1") sample_digest "application/json" sample_body
    (Some (Digest.sha256_of [], sample_referrer sample_digest)) (sample_registry InMemoryState_default [None; sample_fault])
    _ (Err (BsIo (mkIoError (KOther 28) "No space left on device"))) _ _) _ eq_refl).
  - intros name sm s Hn. discriminate Hn.
  - vm_compute. reflexivity.
Defined.

(** A failed manifest delete is undone exactly: manifest, every tag that
    named it and every referrer descriptor, at its old position in its list,
    are back and the state is the one before the call. *)
Theorem delete_manifest_rollback_exact `{H : Hashing} `{C : SnapshotCodec} (cfg : RegistryConfig) (name : string)
    (reference : Reference) (r r' : Registry) (e : BlobStoreError)
    (Hwf : no_empty_lists (referrers (inner r)))
    (Hdel : delete_manifest cfg name reference r = (r', Err e)) :
  inner r' = inner r.
Proof.
  destruct reference as [t|d]; [discriminate|].
  destruct (manifests (inner r) !! name) as [nm|] eqn:Hnm; [|unfold delete_manifest in Hdel; run_st_in Hdel; rewrite Hnm in Hdel; discriminate].
  destruct (nm !! Digest.to_string d) as [rm|] eqn:Hrm;
    [|unfold delete_manifest in Hdel; run_st_in Hdel; rewrite Hnm, Hrm in Hdel; discriminate].
  rewrite (delete_eq_registry cfg name d nm rm r Hnm Hrm) in Hdel. cbv zeta in Hdel.
  destruct (persist_locked cfg _ (world r)) as [w [[]|x|]]; try discriminate. injection Hdel as <- _.
  apply (rollback_apply_delete name _ nm rm); assumption.
Qed.

Lemma delete_manifest_rollback_exact_witness :
  inner (fst (delete_manifest sample_cfg "lib" (RDigest sample_digest) (sample_registry sample_state [sample_fault])))
  = sample_state.
Proof.
  refine (delete_manifest_rollback_exact sample_cfg "lib" (RDigest sample_digest) (sample_registry sample_state [sample_fault])
    _ (BsIo (mkIoError (KOther 28) "No space left on device")) _ _).
  - intros name sm s Hn. cbn in Hn. apply lookup_singleton_Some in Hn as [<- <-].
    intros Hs. apply lookup_singleton_Some in Hs as [_ Hs]. discriminate Hs.
  - vm_compute. reflexivity.
Defined.

(** ** Lemmas: the snapshot file *)

Section Snapshot.
Context `{H : Hashing} `{C : SnapshotCodec}.

Lemma or_cleanup_frame tmp r w q :
  q <> tmp -> disk_of (fst (or_cleanup tmp r w)) !! q = disk_of w !! q.
Proof.
  intros Hq. destruct r as [|e|]; cbn; try reflexivity. unfold mbind, stm_bind, try_world.
  pose proof (remove_file_frame tmp (w_fs w) q Hq) as Hf. destruct (Fs.remove_file tmp (w_fs w)). exact Hf.
Qed.

Lemma or_cleanup_result tmp r w w' o :
  or_cleanup tmp r w = (w', o) -> r <> Panic ->
  (r = Ok tt /\ w' = w /\ o = Ok tt) \/ (exists e, r = Err e /\ o = Err e).
Proof.
  destruct r as [[]|e|]; cbn; intros Ho Hp; [left; injection Ho as <- <-; auto|right|contradiction].
  unfold mbind, stm_bind, try_world in Ho. destruct (Fs.remove_file tmp (w_fs w)). injection Ho as _ <-. eauto.
Qed.

Lemma tmp_name_ne pid seq : snapshot_tmp_name pid seq <> METADATA_FILE_NAME.
Proof.
  unfold snapshot_tmp_name, METADATA_FILE_NAME. intros Heq. apply (f_equal String.length) in Heq.
  rewrite !str_length_app in Heq. cbn in Heq. lia.
Qed.

(** From the rename on: the target holds the new content, or nothing changed. *)
Lemma install_snapshot dir tmp b w w' o :
  let p := dir ++ [METADATA_FILE_NAME] in
  tmp <> p -> disk_of w !! tmp = Some (File b) ->
  (r ← try_world (Fs.rename tmp p); or_cleanup tmp r ;;
   on_world (Fs.open_dir dir) ;; on_world Fs.sync_all) w = (w', o) ->
  o <> Panic /\ (o = Ok tt -> disk_of w' !! p = Some (File b)) /\
  (disk_of w' !! p = disk_of w !! p \/ disk_of w' !! p = Some (File b)).
Proof.
  intros p Htmp Hb. unfold mbind, stm_bind, try_world at 1.
  destruct (Fs.rename tmp p (w_fs w)) as [f1 o1] eqn:E1.
  destruct (rename_result tmp p b _ _ _ Hb E1) as [[-> Hp]|(e & -> & Hf)].
  - cbn [or_cleanup]. unfold mret, stm_ret, on_world. cbn [w_fs].
    pose proof (open_dir_files dir f1) as Hd.
    assert (Hd2 : snd (Fs.open_dir dir f1) <> Panic) by (unfold Fs.open_dir; rewrite Fs.syscall_run; cbn; repeat case_match; discriminate).
    destruct (Fs.open_dir dir f1) as [f2 [[]|e|]]; cbn in *; [|intros [= <- <-]; unfold disk_of; cbn; rewrite Hd; split_and!; [discriminate|discriminate|auto]|contradiction].
    pose proof (sync_all_files f2) as Hs.
    assert (Hs2 : snd (Fs.sync_all f2) <> Panic) by (unfold Fs.sync_all; rewrite Fs.syscall_run; cbn; case_match; discriminate).
    destruct (Fs.sync_all f2) as [f3 o3]. cbn in *. intros [= <- <-]. unfold disk_of. cbn. rewrite Hs, Hd. auto.
  - pose proof (or_cleanup_frame tmp (Err e) (mkWorld f1 (tmp_counter w) (w_pid w)) p ltac:(congruence)) as Hfr.
    destruct (or_cleanup tmp (Err e) (mkWorld f1 (tmp_counter w) (w_pid w))) as [w2 o2] eqn:E2.
    apply or_cleanup_result in E2 as [(? & _)|(e' & _ & ->)]; [discriminate| |discriminate].
    intros [= <- <-]. split_and!; [discriminate|discriminate|left]. cbn in Hfr. rewrite Hfr.
    unfold disk_of. cbn. rewrite Hf. reflexivity.
Qed.

(** The snapshot write as a whole. *)
Lemma write_snapshot_spec dir snap w w' o :
  let p := dir ++ [METADATA_FILE_NAME] in
  write_snapshot_atomic p snap w = (w', o) ->
  o <> Panic /\
  (o = Ok tt -> exists b, json_to_vec snap = Some b /\ disk_of w' !! p = Some (File b)) /\
  (disk_of w' !! p = disk_of w !! p \/ exists b, json_to_vec snap = Some b /\ disk_of w' !! p = Some (File b)).
Proof.
  intros p. unfold write_snapshot_atomic. destruct (json_to_vec snap) as [b|];
    [|run_st; cbn; intros [= <- <-]; split_and!; [discriminate|discriminate|auto]].
  rewrite decide_False by (unfold p; destruct dir; discriminate).
  assert (Hpar : Fs.parent p = dir) by apply Fs.parent_snoc. rewrite Hpar.
  unfold st_lift at 1 2, ok_or, next_tmp_counter, st_get, mbind at 1 2 3 4 5 6 7, stm_bind at 1 2 3 4 5 6 7. cbn [w_pid].
  set (w0 := mkWorld (w_fs w) _ (w_pid w)). set (tmp := dir ++ [snapshot_tmp_name (w_pid w) (tmp_counter w)]).
  assert (Htmp : tmp <> p).
  { unfold tmp, p. intros Heq%app_inv_head. apply (tmp_name_ne (w_pid w) (tmp_counter w)). congruence. }
  unfold on_world at 1. pose proof (create_new_frame tmp (w_fs w0) p ltac:(congruence)) as Hc.
  assert (Hcp : snd (Fs.create_new tmp (w_fs w0)) <> Panic)
    by (unfold Fs.create_new, Fs.can_write; rewrite Fs.syscall_run; cbn; repeat case_match; discriminate).
  destruct (Fs.create_new tmp (w_fs w0)) as [f1 [[]|e|]]; cbn in Hc, Hcp;
    [|intros [= <- <-]; split_and!; [discriminate|discriminate|left; exact Hc]|contradiction].
  unfold try_world at 1. cbn [w_fs tmp_counter w_pid w0].
  destruct ((Fs.write_all tmp b ;; Fs.sync_all) f1) as [f2 o2] eqn:E2.
  destruct (write_sync_result tmp b f1 f2 o2 E2) as (Hf2 & Hp2 & Hok2).
  match goal with |- context [or_cleanup tmp o2 ?x] => set (w2 := x) end.
  pose proof (or_cleanup_frame tmp o2 w2 p ltac:(congruence)) as Hfr.
  assert (Hw2 : disk_of w2 !! p = disk_of w !! p).
  { unfold w2, disk_of. cbn [w_fs]. rewrite Hf2 by congruence. exact Hc. }
  destruct (or_cleanup tmp o2 w2) as [w3 o3] eqn:E3.
  apply or_cleanup_result in E3 as [(-> & -> & ->)|(e & -> & ->)]; [| |exact Hp2].
  2: { intros [= <- <-]. split_and!; [discriminate|discriminate|left; exact (eq_trans Hfr Hw2)]. }
  intros Hend. destruct (install_snapshot dir tmp b w2 w' o Htmp (Hok2 eq_refl) Hend) as (H1 & H2 & H3).
  split_and!; [exact H1|eauto|]. destruct H3 as [H3|H3]; [left; exact (eq_trans H3 Hw2)|right; eauto].
Qed.

End Snapshot.
