(* ===== verification/OciRegistrySteps.v ===== *)
(** * The registry as a state machine

    Every call a handler can make on the metadata plane as one step, with the
    invariant every reachable registry keeps: manifests are stored under the
    SHA-256 of their body whatever file the process booted from, and the
    number of open upload sessions stays within the limit. Then durability:
    what was acknowledged survives a restart. *)

From S2P Require Import Prelude Str Frame Net Fs Digest BlobStore OciError OciReference OciUpload OciRegistry OciRegistryProps.

(** Every manifest key parses to the SHA-256 digest of the body under it. *)
Definition content_ok `{Hashing} (st : InMemoryState) : Prop :=
  forall name m ds mt body, manifests st !! name = Some m -> m !! ds = Some (mt, body) ->
  Digest.from_str ds = Ok (Digest.sha256_of body).

Section Machine.
Context `{H : Hashing} {HL : HashingLaws H} `{C : SnapshotCodec} (cfg : RegistryConfig).

(** One call of a handler. A manifest is put under the digest of its body,
    as the PUT handler computes it. *)
Inductive registry_call : Registry -> Registry -> Prop :=
| call_put r r' name reference mt body referrer res :
    put_manifest_with_referrer cfg name reference (Digest.sha256_of body) mt body referrer r = (r', res) -> registry_call r r'
| call_get r r' name reference res : get_manifest name reference r = (r', res) -> registry_call r r'
| call_delete r r' name reference res : delete_manifest cfg name reference r = (r', res) -> registry_call r r'
| call_register r r' name subject d res : register_referrer cfg name subject d r = (r', res) -> registry_call r r'
| call_list_tags r r' name last n res : list_tags name last n r = (r', res) -> registry_call r r'
| call_list_repositories r r' last n res : list_repositories last n r = (r', res) -> registry_call r r'
| call_list_referrers r r' name d at_ res : list_referrers name d at_ r = (r', res) -> registry_call r r'
| call_start r r' now uuid name res : start_upload cfg now uuid name r = (r', res) -> registry_call r r'
| call_append r r' now name uuid offset chunk res : append_upload now name uuid offset chunk r = (r', res) -> registry_call r r'
| call_complete r r' name uuid d res : complete_upload name uuid d r = (r', res) -> registry_call r r'
| call_state r r' now name uuid res : get_upload_state cfg now name uuid r = (r', res) -> registry_call r r'
| call_cancel r r' name uuid res : cancel_upload name uuid r = (r', res) -> registry_call r r'
| call_take r r' name uuid res : take_upload_bytes name uuid r = (r', res) -> registry_call r r'.

(** ** The invariant *)

Record registry_ok (r : Registry) : Prop := {
  ok_content : content_ok (inner r);
  ok_sessions : (size (uploads (inner r)) <= max_sessions (limits cfg))%nat;
}.

Lemma or_default_lookup {A} (m : gmap string (gmap string A)) name k (x : A) :
  or_default m name !! k = Some x -> exists sm, m !! name = Some sm /\ sm !! k = Some x.
Proof.
  unfold or_default. destruct (m !! name) as [sm|]; cbn; [eauto|]. rewrite lookup_empty. discriminate.
Qed.

Lemma content_apply_put name reference mt body referrer st :
  content_ok st ->
  content_ok (apply_put name reference (Digest.to_string (Digest.sha256_of body)) mt body referrer st).
Proof using HL.
  intros Hst n m ds mt' b. cbn. intros Hn Hd. apply lookup_insert_Some in Hn as [[<- <-]|[_ Hn]].
  - apply lookup_insert_Some in Hd as [[<- [= <- <-]]|[_ Hd]].
    + apply Digest.from_str_to_string, Digest.sha256_of_valid.
    + apply or_default_lookup in Hd as (sm & Hsm & Hd). exact (Hst _ _ _ _ _ Hsm Hd).
  - exact (Hst _ _ _ _ _ Hn Hd).
Qed.

Lemma lookup_prune_empty {A} name (m : gmap string (gmap string A)) n sm :
  prune_empty name m !! n = Some sm -> m !! n = Some sm.
Proof.
  unfold prune_empty. repeat case_match; auto. intros [_ Hn]%lookup_delete_Some. exact Hn.
Qed.

(** A put, whatever its outcome, leaves every manifest entry as it was or
    writes the new one. *)
Lemma put_content name reference mt body referrer r r' res :
  content_ok (inner r) ->
  put_manifest_with_referrer cfg name reference (Digest.sha256_of body) mt body referrer r = (r', res) ->
  content_ok (inner r') /\ uploads (inner r') = uploads (inner r).
Proof using HL.
  intros Hst. rewrite put_eq. cbv zeta. set (ds := Digest.to_string (Digest.sha256_of body)).
  pose proof (content_apply_put name reference mt body referrer (inner r) Hst) as Happ. fold ds in Happ.
  destruct (persist_locked cfg _ (world r)) as [w [[]|e|]]; intros [= <- <-]; cbn [inner]; [auto| |auto].
  split; [|reflexivity]. intros n m k mt' b. cbn. intros Hn Hk. apply lookup_prune_empty in Hn.
  unfold restore_entry in Hn. rewrite alter_insert_eq in Hn.
  apply lookup_insert_Some in Hn as [[<- <-]|[_ Hn]]; [|exact (Hst _ _ _ _ _ Hn Hk)].
  destruct (decide (k = ds)) as [->|Hne].
  - rewrite lookup_partial_alter_eq in Hk. apply or_default_lookup in Hk as (sm & Hsm & Hk). exact (Hst _ _ _ _ _ Hsm Hk).
  - rewrite lookup_partial_alter_ne, lookup_insert_ne in Hk by congruence.
    apply or_default_lookup in Hk as (sm & Hsm & Hk). exact (Hst _ _ _ _ _ Hsm Hk).
Qed.

Lemma delete_content name reference r r' res :
  content_ok (inner r) -> delete_manifest cfg name reference r = (r', res) ->
  content_ok (inner r') /\ uploads (inner r') = uploads (inner r).
Proof.
  intros Hst. destruct reference as [t|d]; [intros [= <- _]; auto|].
  destruct (manifests (inner r) !! name) as [nm|] eqn:Hnm;
    [|unfold delete_manifest; run_st; rewrite Hnm; intros [= <- _]; auto].
  destruct (nm !! Digest.to_string d) as [rm|] eqn:Hrm;
    [|unfold delete_manifest; run_st; rewrite Hnm, Hrm; intros [= <- _]; auto].
  rewrite (delete_eq_registry cfg name d nm rm r Hnm Hrm). cbv zeta.
  assert (Hdel : content_ok (apply_delete name (Digest.to_string d) (inner r))).
  { intros n m k mt b. cbn. intros Hn Hk. destruct (decide (n = name)) as [->|Hne].
    - rewrite lookup_alter_eq, Hnm in Hn. injection Hn as <-. apply lookup_delete_Some in Hk as [_ Hk].
      exact (Hst _ _ _ _ _ Hnm Hk).
    - rewrite lookup_alter_ne in Hn by congruence. exact (Hst _ _ _ _ _ Hn Hk). }
  destruct (persist_locked cfg _ (world r)) as [w [[]|e|]]; intros [= <- <-]; cbn [inner]; [auto| |auto].
  split; [|reflexivity]. intros n m k mt b. cbn. intros Hn Hk. unfold or_default in Hn.
  rewrite lookup_alter_eq, Hnm in Hn. cbn in Hn. unfold id in Hn. rewrite insert_delete_id in Hn by exact Hrm.
  apply lookup_insert_Some in Hn as [[<- <-]|[Hne Hn]]; [exact (Hst _ _ _ _ _ Hnm Hk)|].
  rewrite lookup_alter_ne in Hn by congruence. exact (Hst _ _ _ _ _ Hn Hk).
Qed.

Lemma register_content name subject d r r' res :
  register_referrer cfg name subject d r = (r', res) ->
  (forall n sm, manifests (inner r') !! n = Some sm -> manifests (inner r) !! n = Some sm) /\
  uploads (inner r') = uploads (inner r).
Proof.
  unfold register_referrer, try_persist. run_st. cbn [inner world set_inner].
  destruct (persist_locked cfg _ (world r)) as [w [[]|e|]]; intros [= <- <-]; cbn; [auto| |auto].
  split; [|reflexivity]. intros n sm. apply lookup_prune_empty.
Qed.

Lemma size_filter_le {K A} `{Countable K} (P : K * A -> Prop) `{forall x, Decision (P x)} (m : gmap K A) :
  (size (filter P m) <= size m)%nat.
Proof. apply map_subseteq_size, map_filter_subseteq. Qed.

Lemma size_update_le {K A} `{Countable K} (m : gmap K A) k x : is_Some (m !! k) -> size (<[k := x]> m) = size m.
Proof. intros Hk. apply map_size_insert_Some. exact Hk. Qed.

Lemma size_delete_le {K A} `{Countable K} (m : gmap K A) k : (size (delete k m) <= size m)%nat.
Proof. apply map_subseteq_size, delete_subseteq. Qed.

(** Every call keeps the invariant. *)
Lemma call_ok r r' : registry_ok r -> registry_call r r' -> registry_ok r'.
Proof using HL.
  intros [Hst Hs] Hc. destruct Hc as [r r' name reference mt body referrer res Hc|r r' name reference res Hc|
    r r' name reference res Hc|r r' name subject d res Hc|r r' name last n res Hc|r r' last n res Hc|
    r r' name d at_ res Hc|r r' now uuid name res Hc|r r' now name uuid offset chunk res Hc|r r' name uuid d res Hc|
    r r' now name uuid res Hc|r r' name uuid res Hc|r r' name uuid res Hc].
  - apply put_content in Hc as [H1 H2]; [|exact Hst]. split; [exact H1|rewrite H2; exact Hs].
  - assert (r' = r) as ->; [|split; assumption]. revert Hc. unfold get_manifest. run_st.
    repeat case_match; congruence.
  - apply delete_content in Hc as [H1 H2]; [|exact Hst]. split; [exact H1|rewrite H2; exact Hs].
  - apply register_content in Hc as [H1 H2]. split; [|rewrite H2; exact Hs].
    intros n m ds mt b Hn. apply Hst with n, H1, Hn.
  - assert (r' = r) as ->; [|split; assumption]. revert Hc. unfold list_tags. run_st. repeat case_match; congruence.
  - injection Hc as <- _. split; assumption.
  - assert (r' = r) as ->; [|split; assumption]. revert Hc. unfold list_referrers. run_st. repeat case_match; congruence.
  - revert Hc. unfold start_upload, sweep_idle_uploads. run_st. cbn [fst].
    destruct (Nat.leb_spec (max_sessions (limits cfg)) (size (filter (fun x : _ * UploadState =>
      UploadState.is_idle_for now (idle_ttl (limits cfg)) (snd x) = false) (uploads (inner r))))) as [Hl|Hl];
      intros [= <- _]; (split; [exact Hst|cbn]).
    + etransitivity; [apply size_filter_le|exact Hs].
    + rewrite map_size_insert. case_match; cbn; lia.
  - revert Hc. unfold append_upload. run_st. destruct (uploads (inner r) !! (name, uuid)) as [s|] eqn:E;
      [|intros [= <- _]; split; assumption].
    destruct (negb _); [intros [= <- _]; split; assumption|]. cbn. intros [= <- _]. split; [exact Hst|cbn].
    rewrite size_update_le by eauto. exact Hs.
  - injection Hc as <- _. split; [exact Hst|cbn]. etransitivity; [apply size_delete_le|exact Hs].
  - revert Hc. unfold get_upload_state. run_st. repeat case_match; intros [= <- _]; split; try assumption.
    cbn. etransitivity; [apply size_delete_le|exact Hs].
  - revert Hc. unfold cancel_upload. run_st. intros [= <- _]. split; [exact Hst|cbn].
    etransitivity; [apply size_delete_le|exact Hs].
  - revert Hc. unfold take_upload_bytes. run_st. destruct (uploads (inner r) !! (name, uuid)) as [s|] eqn:E;
      [|intros [= <- _]; split; assumption]. cbn. intros [= <- _]. split; [exact Hst|cbn].
    rewrite size_update_le by eauto. exact Hs.
Qed.

Lemma calls_ok r r' : registry_ok r -> rtc registry_call r r' -> registry_ok r'.
Proof using HL. intros Hr Hc. induction Hc as [|a b c Hs _ IH]; [exact Hr|]. apply IH. eapply call_ok; eassumption. Qed.

(** ** Booting *)

Lemma load_manifest_ok ds pm mt b :
  load_manifest ds pm = Some (mt, b) -> Digest.from_str ds = Ok (Digest.sha256_of b).
Proof.
  unfold load_manifest. destruct (hex_decode (pm_body_hex pm)) as [b'|]; [|discriminate].
  destruct (Digest.from_str ds) as [k| |]; try discriminate.
  case_bool_decide as Ha; [|discriminate]. case_bool_decide as Hh; [|discriminate]. cbn. intros [= <- <-].
  destruct k as [a h]. cbn in *. subst. unfold Digest.sha256_of. reflexivity.
Qed.

Lemma loaded_content snap : content_ok (state_of_snapshot snap).
Proof.
  intros name m ds mt b Hn Hd. cbn in Hn. rewrite lookup_fmap in Hn.
  destruct (sn_manifests snap !! name) as [pm|]; [|discriminate]. injection Hn as <-.
  rewrite map_lookup_imap in Hd. destruct (pm !! ds) as [x|]; [|discriminate]. exact (load_manifest_ok _ _ _ _ Hd).
Qed.

Lemma boot_content dir w : content_ok (inner (snd (with_persistence dir w))) /\ uploads (inner (snd (with_persistence dir w))) = ∅.
Proof.
  unfold with_persistence, load_snapshot. destruct (Fs.read _ (w_fs w)) as [f [raw|e|]]; cbn.
  - destruct (json_from_slice raw) as [snap|]; cbn; [split; [apply loaded_content|reflexivity]|].
    split; [intros name m ds mt b Hn; discriminate Hn|reflexivity].
  - destruct (io_kind e); (split; [intros name m ds mt b Hn; discriminate Hn|reflexivity]).
  - split; [intros name m ds mt b Hn; discriminate Hn|reflexivity].
Qed.

(** What was written is what is read back. *)
Lemma snapshot_roundtrip {CL : SnapshotCodecLaws C} st :
  content_ok st -> state_of_snapshot (snapshot_of_state st) = mkState (manifests st) (tags st) ∅ (referrers st).
Proof.
  intros Hst. unfold state_of_snapshot, snapshot_of_state. cbn. f_equal. apply map_eq. intros name.
  rewrite !lookup_fmap. destruct (manifests st !! name) as [m|] eqn:Hn; [|reflexivity]. cbn. f_equal.
  apply map_eq. intros ds. rewrite map_lookup_imap, lookup_fmap. destruct (m !! ds) as [[mt b]|] eqn:Hd; [|reflexivity].
  cbn. unfold load_manifest. cbn. rewrite hex_roundtrip, (Hst _ _ _ _ _ Hn Hd). cbn. rewrite !bool_decide_true by reflexivity. reflexivity.
Qed.

End Machine.

(** ** Properties *)

(** Content addressing. Boot a persistent registry from any file system,
    whatever its metadata file holds, and run any sequence of calls. Every
    manifest the registry then serves is served under the SHA-256 digest of
    its body (a lookup never errs), a lookup by digest returns that digest,
    and the number of open upload sessions never exceeds the limit. *)
Theorem registry_serves_content_addressed `{H : Hashing} {HL : HashingLaws H} `{C : SnapshotCodec}
    (dir : path) (w : World) (cfg : RegistryConfig) (r0 r r' : Registry) (name : string) (reference : Reference)
    (res : outcome BlobStoreError (option (Digest * string * bytes)))
    (Hboot : with_persistence dir w = (cfg, r0)) (Hcalls : rtc (registry_call cfg) r0 r)
    (Hget : get_manifest name reference r = (r', res)) :
  (exists o, res = Ok o) /\
  (forall d mt body, res = Ok (Some (d, mt, body)) ->
     d = Digest.sha256_of body /\ (forall d', reference = RDigest d' -> Digest.valid d' -> d' = d)) /\
  (size (uploads (inner r)) <= max_sessions (limits cfg))%nat.
Proof using.
  destruct (boot_content dir w) as [Hc Hu]. rewrite Hboot in Hc, Hu. cbn in Hc, Hu.
  assert (Hok : registry_ok cfg r).
  { eapply calls_ok; [|exact Hcalls]. split; [exact Hc|]. rewrite Hu, map_size_empty. lia. }
  destruct Hok as [Hst Hs]. revert Hget. unfold get_manifest. run_st.
  destruct (manifests (inner r) !! name) as [nm|] eqn:Hn; [|intros [= _ <-]; split_and!; [eauto|discriminate|exact Hs]].
  destruct (match reference with RDigest d => Some (Digest.to_string d) | Tag t => _ end) as [ds|] eqn:Hr;
    [|intros [= _ <-]; split_and!; [eauto|discriminate|exact Hs]].
  destruct (nm !! ds) as [[mt b]|] eqn:Hd; [|intros [= _ <-]; split_and!; [eauto|discriminate|exact Hs]].
  rewrite (Hst _ _ _ _ _ Hn Hd). cbn. intros [= _ <-]. split_and!; [eauto| |exact Hs].
  intros d mt' body [= <- <- <-]. split; [reflexivity|]. intros d' -> Hd'. injection Hr as <-.
  specialize (Hst _ _ _ _ _ Hn Hd). rewrite Digest.from_str_to_string in Hst by exact Hd'. congruence.
Qed.

(** A metadata file that advertises another digest for its body. *)
Definition crafted_snapshot : MetadataSnapshot :=
  mkSnapshot {[ "lib" := {[ Digest.to_string (Digest.sha256_of []) := mkPersisted "application/json" (hex_encode sample_body);
                            Digest.to_string sample_digest := mkPersisted "application/json" (hex_encode sample_body) ]} ]}
    {[ "lib" := {[ "latest" := Digest.to_string sample_digest ]} ]} ∅.

Definition crafted_world : World :=
  mkWorld (mkFs {[ ["data"%string] := Dir;
                   ["data"%string] ++ [METADATA_FILE_NAME] := File (bits_of (encode crafted_snapshot)) ]} []) 0 7.

Lemma registry_serves_content_addressed_witness :
  let r0 := snd (with_persistence ["data"%string] crafted_world) in
  snd (get_manifest "lib" (Tag "latest") r0) = Ok (Some (sample_digest, "application/json"%string, sample_body)) /\
  sample_digest = Digest.sha256_of sample_body.
Proof.
  intros r0. split; [vm_compute; reflexivity|].
  refine (proj1 (proj1 (proj2 (registry_serves_content_addressed ["data"%string] crafted_world
    (fst (with_persistence ["data"%string] crafted_world)) r0 r0
    (fst (get_manifest "lib" (Tag "latest") r0)) "lib" (Tag "latest")
    (Ok (Some (sample_digest, "application/json"%string, sample_body))) _ (rtc_refl _ _) _)) _ _ _ eq_refl)).
  - unfold r0. apply surjective_pairing.
  - apply run_result. vm_compute. reflexivity.
Defined.

(** C22: Durability. If a put on a persistent registry is acknowledged, a
    process that boots from the disk as the put left it, with no failing
    system call, has exactly the manifests, tags and referrers of the
    registry after the put, and no upload sessions. *)
Theorem acknowledged_put_survives_restart `{H : Hashing} {HL : HashingLaws H} `{C : SnapshotCodec}
    {CL : SnapshotCodecLaws C} (dir : path) (lim : SessionLimits) (name : string) (reference : Reference) (mt : string)
    (body : bytes) (referrer : option (Digest * ReferrerDescriptor)) (r r' : Registry) (n pid : Z)
    (Hst : content_ok (inner r))
    (Hput : put_manifest_with_referrer (mkConfig lim (Some (dir ++ [METADATA_FILE_NAME]))) name reference
              (Digest.sha256_of body) mt body referrer r = (r', Ok tt)) :
  let booted := inner (snd (with_persistence dir (mkWorld (mkFs (files (w_fs (world r'))) []) n pid))) in
  manifests booted = manifests (inner r') /\ tags booted = tags (inner r') /\
  referrers booted = referrers (inner r') /\ uploads booted = ∅.
Proof using.
  pose proof (put_content _ _ _ _ _ _ _ _ _ Hst Hput) as [Hst' _].
  rewrite put_eq in Hput. cbv zeta in Hput. unfold persist_locked in Hput. cbn [persist_path] in Hput.
  destruct (write_snapshot_atomic _ _ (world r)) as [w o] eqn:Ew.
  destruct (write_snapshot_spec dir _ _ _ _ Ew) as (_ & Hok & _).
  destruct o as [[]|e|]; [|discriminate ..]. injection Hput as <-. cbn [inner world] in *.
  destruct (Hok eq_refl) as (b & Hjson & Hdisk). unfold disk_of in Hdisk.
  unfold with_persistence, load_snapshot, Fs.read. rewrite Fs.syscall_run. cbn [w_fs files Fs.next_fault faults].
  rewrite Hdisk. cbn [fst snd]. rewrite (json_roundtrip _ _ Hjson). cbn [snd inner].
  rewrite snapshot_roundtrip by exact Hst'. auto.
Qed.

Lemma acknowledged_put_survives_restart_witness :
  let put := put_manifest_with_referrer sample_cfg "lib" (Tag "v1") sample_digest "application/json" sample_body None
               (sample_registry InMemoryState_default []) in
  manifests (inner (snd (with_persistence ["data"%string]
    (mkWorld (mkFs (files (w_fs (world (fst put)))) []) 0 8)))) = manifests (inner (fst put)).
Proof.
  intros put. refine (proj1 (acknowledged_put_survives_restart ["data"%string] SessionLimits_default "lib" (Tag "v1")
    "application/json" sample_body None (sample_registry InMemoryState_default []) (fst put) 0 8 _ _)).
  - intros name m ds mt body Hn. discriminate Hn.
  - apply run_result. vm_compute. reflexivity.
Defined.

(** The metadata file is replaced atomically. Whatever system call fails,
    after [write_snapshot_atomic] the file holds what it held before or the
    complete new snapshot, never a part of one; if the call reports success it
    holds the new snapshot; and the call never panics. *)
Theorem snapshot_file_atomic `{H : Hashing} `{C : SnapshotCodec} (dir : path) (snap : MetadataSnapshot)
    (w w' : World) (o : outcome io_error unit)
    (Hwrite : write_snapshot_atomic (dir ++ [METADATA_FILE_NAME]) snap w = (w', o)) :
  o <> Panic /\
  (o = Ok tt -> exists b, json_to_vec snap = Some b /\ files (w_fs w') !! (dir ++ [METADATA_FILE_NAME]) = Some (File b)) /\
  (files (w_fs w') !! (dir ++ [METADATA_FILE_NAME]) = files (w_fs w) !! (dir ++ [METADATA_FILE_NAME]) \/
   exists b, json_to_vec snap = Some b /\ files (w_fs w') !! (dir ++ [METADATA_FILE_NAME]) = Some (File b)).
Proof. exact (write_snapshot_spec dir snap w w' o Hwrite). Qed.

(** The write of the temporary file stops after three bytes. *)
Lemma snapshot_file_atomic_witness :
  let w := world (sample_registry InMemoryState_default [None; Some (mkFault (Some 3%nat) 28 "No space left on device")]) in
  let run := write_snapshot_atomic (["data"%string] ++ [METADATA_FILE_NAME]) crafted_snapshot w in
  files (w_fs (fst run)) !! (["data"%string] ++ [METADATA_FILE_NAME]) = None /\ snd run <> Panic.
Proof.
  intros w run. split; [vm_compute; reflexivity|].
  refine (proj1 (snapshot_file_atomic ["data"%string] crafted_snapshot w (fst run) (snd run) _)).
  apply surjective_pairing.
Defined.

(** A put that is reported as failed can still be durable: when only the
    final sync of the storage directory fails, the put returns an error and
    the in-memory state is rolled back, but the new snapshot is already in
    place, and the next boot serves the manifest the client was told was not
    stored. *)
Theorem failed_put_survives_restart :
  let put := put_manifest_with_referrer sample_cfg "lib" (Tag "v1") sample_digest "application/json" sample_body None
               (sample_registry InMemoryState_default [None; None; None; None; None; sample_fault]) in
  let booted := snd (with_persistence ["data"%string] (mkWorld (mkFs (files (w_fs (world (fst put)))) []) 0 8)) in
  snd put = Err (BsIo (mkIoError (KOther 28) "No space left on device")) /\
  inner (fst put) = InMemoryState_default /\
  snd (get_manifest "lib" (Tag "v1") booted) = Ok (Some (sample_digest, "application/json"%string, sample_body)).
Proof. cbv zeta. split_and!; vm_compute; reflexivity. Qed.
