(* ===== verification/OciListing.v ===== *)
(** * Reading the metadata plane: lookups, deletes and pagination

    What a client sees of [OciRegistry] after acknowledged calls: a put is
    readable by tag and by digest, a delete leaves no dangling reference, and
    following the pagination cursor enumerates everything exactly once. *)

From S2P Require Import Prelude Str Frame Net Fs Digest BlobStore OciError OciReference OciUpload OciRegistry OciRegistryProps.

(** ** Lemmas: pruned lists *)

Lemma prune_list_filter idx ds l removed :
  (idx <= length l)%nat ->
  fst (prune_list idx ds l removed)
  = filter (fun d => Digest.to_string (rd_digest d) <> ds) (take idx l) ++ drop idx l.
Proof.
  revert l removed. induction idx as [|k IH]; intros l removed Hk; [reflexivity|]. cbn [prune_list].
  destruct (l !! k) as [d|] eqn:El; [|apply lookup_ge_None in El; lia].
  rewrite (take_S_r l k d El), filter_app, <- app_assoc. case_bool_decide as Hd.
  - rewrite IH by (rewrite length_delete by eauto; lia). rewrite delete_take_drop.
    rewrite take_app_le, take_take, Nat.min_id by (rewrite length_take; lia).
    rewrite drop_app_ge, length_take, Nat.min_l, Nat.sub_diag by (rewrite ?length_take; lia).
    rewrite filter_cons_False by (cbn; tauto). reflexivity.
  - rewrite IH by lia. rewrite filter_cons_True by exact Hd. cbn [app]. rewrite (drop_S l d k El). reflexivity.
Qed.

Lemma pruned_filter ds l : fst (pruned ds l) = filter (fun d => Digest.to_string (rd_digest d) <> ds) l.
Proof.
  unfold pruned. rewrite prune_list_filter by lia. rewrite firstn_all, drop_all, app_nil_r. reflexivity.
Qed.

(** ** Lemmas: strictly sorted lists and cursors *)

Lemma StronglySorted_lt l : NoDup l -> StronglySorted str_le l -> StronglySorted str_lt l.
Proof.
  intros Hnd Hs. induction Hs as [|x l Hs IH Hall]; [constructor|]. apply NoDup_cons in Hnd as [Hx Hnd].
  constructor; [auto|]. rewrite Forall_forall in Hall |- *. intros y Hy. specialize (Hall y Hy).
  apply str_le_lt in Hall as [->|Hlt]; [contradiction|exact Hlt].
Qed.

Lemma sorted_names names :
  NoDup names -> StronglySorted str_lt (merge_sort str_le names) /\ merge_sort str_le names ≡ₚ names.
Proof.
  intros Hnd. pose proof (merge_sort_Permutation str_le names) as Hp. split; [|exact Hp].
  apply StronglySorted_lt; [rewrite Hp; exact Hnd|]. apply StronglySorted_merge_sort; apply _.
Qed.

Lemma filter_none {A} (P : A -> Prop) `{forall x, Decision (P x)} l : Forall (fun x => ~ P x) l -> filter P l = [].
Proof. intros Hl. induction Hl; [reflexivity|]. rewrite filter_cons_False by assumption. assumption. Qed.

Lemma filter_all {A} (P : A -> Prop) `{forall x, Decision (P x)} l : Forall P l -> filter P l = l.
Proof. intros Hl. induction Hl; [reflexivity|]. rewrite filter_cons_True by assumption. f_equal. assumption. Qed.

(** After a cursor in a strictly sorted list comes the rest of the list. *)
Lemma filter_cursor a c b :
  StronglySorted str_lt ((a ++ [c]) ++ b) -> filter (fun t => str_lt c t) ((a ++ [c]) ++ b) = b.
Proof.
  intros Hs. apply StronglySorted_app in Hs as (Hab & Ha & Hb). rewrite filter_app, filter_none, filter_all; [reflexivity|..].
  - apply Forall_forall. intros y Hy. apply Hab; [apply elem_of_app; right; left|exact Hy].
  - apply Forall_forall. intros y Hy Hlt. apply StronglySorted_app in Ha as (Hac & _ & _).
    apply elem_of_app in Hy as [Hy|Hy]; [|apply list_elem_of_singleton in Hy; subst y]; [|exact (str_lt_irrefl _ Hlt)].
    exact (str_lt_irrefl c (str_lt_trans _ _ _ Hlt (Hac y c Hy ltac:(left)))).
Qed.

(** Follow the cursor, page after page, until an empty page. *)
Fixpoint follow (page : option string -> list string) (fuel : nat) (cursor : option string) : list string :=
  match fuel with
  | O => []
  | S fuel =>
    let p := page cursor in
    match last p with
    | None => []
    | Some c => p ++ follow page fuel (Some c)
    end
  end.

Lemma follow_rest names n l a b fuel :
  (1 <= n)%nat -> merge_sort str_le names = l -> StronglySorted str_lt l -> l = a ++ b -> (length b < fuel)%nat ->
  follow (fun cursor => paginate names cursor (Some n)) fuel (last a) = b.
Proof.
  intros Hn Hl Hs. revert a b. induction fuel as [|fuel IH]; intros a b Hab Hf; [lia|]. cbn [follow].
  assert (Hpage : paginate names (last a) (Some n) = take n b).
  { unfold paginate. rewrite Hl. destruct a as [|x a'] using rev_ind; [rewrite Hab; reflexivity|].
    rewrite last_snoc, Hab. f_equal. apply filter_cursor. rewrite <- Hab. exact Hs. }
  rewrite Hpage. destruct (last (take n b)) as [c|] eqn:Ec.
  - apply last_Some in Ec as (p & Hp). assert (Hsplit : b = take n b ++ drop n b) by (symmetry; apply take_drop).
    replace (Some c) with (last (a ++ take n b)) by (rewrite Hp, app_assoc, last_snoc; reflexivity).
    rewrite (IH (a ++ take n b) (drop n b)).
    + symmetry. exact Hsplit.
    + rewrite <- app_assoc, take_drop. exact Hab.
    + rewrite length_drop. destruct b; [rewrite take_nil in Hp; destruct p; discriminate|]. cbn in *. lia.
  - apply last_None in Ec. destruct b as [|x b]; [reflexivity|]. destruct n; [lia|discriminate].
Qed.

(** ** Properties *)

(** Page of tags as the handler asks for it. *)
Definition tag_page (r : Registry) (name : string) (n : nat) (cursor : option string) : list string :=
  match snd (list_tags name cursor (Some n) r) with Ok l => l | _ => [] end.

(** Tag pagination is exact. With any page size of at least one, asking
    for page after page with the last tag received as cursor, until an empty
    page, yields every tag of the repository exactly once, in byte order. *)
Theorem tag_pagination_complete (r : Registry) (name : string) (m : gmap string string) (n fuel : nat)
    (Hm : tags (inner r) !! name = Some m) (Hn : (1 <= n)%nat) (Hfuel : (size m < fuel)%nat) :
  StronglySorted str_lt (follow (tag_page r name n) fuel None) /\
  NoDup (follow (tag_page r name n) fuel None) /\
  (forall t, t ∈ follow (tag_page r name n) fuel None <-> is_Some (m !! t)).
Proof.
  set (names := fst <$> items m).
  assert (Hpage : forall f c, follow (tag_page r name n) f c = follow (fun cursor => paginate names cursor (Some n)) f c).
  { assert (Heq : forall c, tag_page r name n c = paginate names c (Some n))
      by (intros c; unfold tag_page, list_tags; run_st; rewrite Hm; reflexivity).
    intros f. induction f as [|f IH]; intros c; [reflexivity|]. cbn. rewrite Heq.
    destruct (last _); [rewrite IH; reflexivity|reflexivity]. }
  pose proof (NoDup_items m) as Hnd. fold names in Hnd. destruct (sorted_names names Hnd) as [Hs Hp].
  assert (Hlen : length (merge_sort str_le names) = size m).
  { rewrite Hp. unfold names. rewrite length_fmap, items_perm. apply length_map_to_list. }
  rewrite Hpage. change None with (last (@nil string)).
  rewrite (follow_rest names n _ [] (merge_sort str_le names) fuel Hn eq_refl Hs eq_refl) by lia.
  split_and!; [exact Hs|rewrite Hp; exact Hnd|].
  intros t. rewrite Hp. unfold names. rewrite list_elem_of_fmap. split.
  - intros ([k x] & -> & Hx). apply elem_of_items in Hx. eauto.
  - intros [x Hx]. exists (t, x). split; [reflexivity|]. apply elem_of_items, Hx.
Qed.

Lemma tag_pagination_complete_witness :
  let m := {[ "b" := "x"; "a" := "x"; "c" := "y" ]} : gmap string string in
  let r := sample_registry (mkState ∅ {[ "lib" := m ]} ∅ ∅) [] in
  StronglySorted str_lt (follow (tag_page r "lib" 2) 4 None) /\ follow (tag_page r "lib" 2) 4 None = ["a"; "b"; "c"].
Proof.
  split; [|vm_compute; reflexivity].
  refine (proj1 (tag_pagination_complete (sample_registry (mkState ∅ {[ "lib" := {[ "b" := "x"; "a" := "x"; "c" := "y" ]} ]} ∅ ∅) [])
    "lib" {[ "b" := "x"; "a" := "x"; "c" := "y" ]} 2 4 _ _ _)); [reflexivity|lia|vm_compute; lia].
Defined.

Lemma put_acknowledged `{H : Hashing} `{C : SnapshotCodec} cfg name reference d mt body referrer r r' :
  put_manifest_with_referrer cfg name reference d mt body referrer r = (r', Ok tt) ->
  inner r' = apply_put name reference (Digest.to_string d) mt body referrer (inner r).
Proof.
  rewrite put_eq. cbv zeta. destruct (persist_locked cfg _ (world r)) as [w [[]|e|]]; try discriminate.
  intros [= <-]. reflexivity.
Qed.

(** A put is found by its digest and by the reference it was made under. *)
Lemma get_applied_put name reference d mt body referrer st r ref : Digest.valid d ->
  inner r = apply_put name reference (Digest.to_string d) mt body referrer st ->
  ref = RDigest d \/ (exists t, reference = Tag t /\ ref = Tag t) ->
  get_manifest name ref r = (r, Ok (Some (d, mt, body))).
Proof.
  intros Hd Hst Hr. pose proof (Digest.from_str_to_string d Hd) as Hfrom.
  unfold get_manifest. run_st. rewrite Hst. cbn. destruct Hr as [->|(t & -> & ->)].
  - rewrite !lookup_insert_eq, Hfrom. reflexivity.
  - rewrite !lookup_insert_eq. cbn. rewrite !lookup_insert_eq, Hfrom. reflexivity.
Qed.

(** An acknowledged put is readable: by its digest, and by its tag when
    it was put under one, with the media type and the exact body; and the
    tag listing of the repository contains the tag. *)
Theorem put_manifest_readable `{H : Hashing} `{C : SnapshotCodec} (cfg : RegistryConfig) (name : string)
    (reference : Reference) (d : Digest) (mt : string) (body : bytes)
    (referrer : option (Digest * ReferrerDescriptor)) (r r' : Registry) (Hd : Digest.valid d)
    (Hput : put_manifest_with_referrer cfg name reference d mt body referrer r = (r', Ok tt)) :
  snd (get_manifest name (RDigest d) r') = Ok (Some (d, mt, body)) /\
  (forall t, reference = Tag t ->
     snd (get_manifest name (Tag t) r') = Ok (Some (d, mt, body)) /\
     exists l, snd (list_tags name None None r') = Ok l /\ t ∈ l).
Proof.
  apply put_acknowledged in Hput as Hst. split; [|intros t ->; split].
  - rewrite (get_applied_put _ _ _ _ _ _ _ r' (RDigest d) Hd Hst) by auto. reflexivity.
  - rewrite (get_applied_put _ _ _ _ _ _ _ r' (Tag t) Hd Hst) by eauto. reflexivity.
  - unfold list_tags. run_st. rewrite Hst. cbn. rewrite lookup_insert_eq. eexists. split; [reflexivity|].
    unfold paginate. rewrite merge_sort_Permutation. apply list_elem_of_fmap. exists (t, Digest.to_string d).
    split; [reflexivity|]. apply elem_of_items, lookup_insert_eq.
Qed.

Lemma put_manifest_readable_witness :
  snd (get_manifest "lib" (Tag "v1") (fst (put_manifest_with_referrer sample_cfg "lib" (Tag "v1") sample_digest
    "application/json" sample_body None (sample_registry InMemoryState_default []))))
  = Ok (Some (sample_digest, "application/json"%string, sample_body)).
Proof.
  refine (proj1 (proj2 (put_manifest_readable sample_cfg "lib" (Tag "v1") sample_digest "application/json" sample_body
    None (sample_registry InMemoryState_default []) _ _ _) "v1" eq_refl)).
  - split; vm_compute; reflexivity.
  - apply run_result. vm_compute. reflexivity.
Defined.

(** An acknowledged delete leaves nothing dangling: the manifest is no
    longer found by digest, no tag of the repository points to it, and no
    subject of the repository lists it as a referrer. *)
Theorem delete_manifest_no_dangling `{H : Hashing} `{C : SnapshotCodec} (cfg : RegistryConfig) (name : string)
    (d : Digest) (r r' : Registry) (Hdel : delete_manifest cfg name (RDigest d) r = (r', Ok true)) :
  snd (get_manifest name (RDigest d) r') = Ok None /\
  (forall t x, tags (inner r') !! name ≫= (fun m => m !! t) = Some x -> x <> Digest.to_string d) /\
  (forall subject at_ l x, snd (list_referrers name subject at_ r') = Ok l -> x ∈ l -> rd_digest x <> d).
Proof.
  set (ds := Digest.to_string d) in *.
  assert (Hst : inner r' = apply_delete name ds (inner r)).
  { destruct (manifests (inner r) !! name) as [nm|] eqn:Hnm;
      [|unfold delete_manifest in Hdel; run_st_in Hdel; rewrite Hnm in Hdel; discriminate].
    destruct (nm !! ds) as [rm|] eqn:Hrm;
      [|unfold delete_manifest in Hdel; run_st_in Hdel; rewrite Hnm in Hdel; fold ds in Hdel; rewrite Hrm in Hdel; discriminate].
    rewrite (delete_eq_registry cfg name d nm rm r Hnm Hrm) in Hdel. cbv zeta in Hdel.
    destruct (persist_locked cfg _ (world r)) as [w [[]|e|]]; try discriminate. injection Hdel as <-. reflexivity. }
  split_and!.
  - unfold get_manifest. run_st. rewrite Hst. cbn. rewrite lookup_alter_eq.
    destruct (manifests (inner r) !! name) as [nm|]; cbn; [|reflexivity]. fold ds. rewrite lookup_delete_eq. reflexivity.
  - intros t x. rewrite Hst. cbn. rewrite lookup_alter_eq. destruct (tags (inner r) !! name) as [m|]; cbn; [|discriminate].
    intros [_ Hx]%map_lookup_filter_Some. exact Hx.
  - intros subject at_ l x Hl Hx Heq. unfold list_referrers in Hl. run_st_in Hl. rewrite Hst in Hl. cbn in Hl.
    rewrite lookup_alter_eq in Hl. destruct (referrers (inner r) !! name) as [m|]; cbn in Hl; [|injection Hl as <-; inversion Hx].
    rewrite prune_subjects_lookup in Hl. destruct (m !! Digest.to_string subject) as [l0|]; [|injection Hl as <-; inversion Hx].
    rewrite pruned_filter in Hl. case_decide; cbn in Hl; [injection Hl as <-; inversion Hx|].
    assert (Hin : x ∈ filter (fun d => Digest.to_string (rd_digest d) <> ds) l0).
    { destruct at_; injection Hl as <-; [apply list_elem_of_filter in Hx as [_ Hx]|]; exact Hx. }
    apply list_elem_of_filter in Hin as [Hne _]. apply Hne. unfold ds. congruence.
Qed.

Lemma delete_manifest_no_dangling_witness :
  snd (get_manifest "lib" (RDigest sample_digest)
    (fst (delete_manifest sample_cfg "lib" (RDigest sample_digest) (sample_registry sample_state [])))) = Ok None.
Proof.
  refine (proj1 (delete_manifest_no_dangling sample_cfg "lib" sample_digest (sample_registry sample_state []) _ _)).
  apply run_result. vm_compute. reflexivity.
Defined.
