(* ===== verification/OciMeta.v ===== *)
(** * The metadata plane as an interface

    The trait [RegistryMeta] of [crates/ferro-oci-server/src/registry.rs] as a
    class, the plain catalogue its implementations stand for, and the contract
    between them: every call either does to the catalogue what the specification
    says, or fails and does nothing, a mutation only when the storage under it
    cannot take it. Programs over the interface are verified against the contract
    alone; [OciMetaImpl] discharges it. *)

From S2P Require Import Prelude Str Frame Net Fs Digest BlobStore OciError OciReference OciUpload OciRegistry.

Local Open Scope Z_scope.

(** The methods of the trait. The clock and the fresh uuid are arguments of those
    that read them. *)
Class RegistryMeta (R : Type) := {
  rm_put_manifest : string -> Reference -> Digest -> string -> bytes -> stm R BlobStoreError unit;
  rm_put_manifest_with_referrer : string -> Reference -> Digest -> string -> bytes ->
    option (Digest * ReferrerDescriptor) -> stm R BlobStoreError unit;
  rm_get_manifest : string -> Reference -> stm R BlobStoreError (option (Digest * string * bytes));
  rm_delete_manifest : string -> Reference -> stm R BlobStoreError bool;
  rm_list_tags : string -> option string -> option nat -> stm R BlobStoreError (list string);
  rm_list_repositories : option string -> option nat -> stm R BlobStoreError (list string);
  rm_start_upload : Z -> string -> string -> stm R BlobStoreError UploadAdmission;
  rm_append_upload : Z -> string -> string -> Z -> bytes -> stm R BlobStoreError Z;
  rm_complete_upload : string -> string -> Digest -> stm R BlobStoreError unit;
  rm_get_upload_state : Z -> string -> string -> stm R BlobStoreError (option UploadState);
  rm_cancel_upload : string -> string -> stm R BlobStoreError bool;
  rm_list_referrers : string -> Digest -> option string -> stm R BlobStoreError (list ReferrerDescriptor);
  rm_take_upload_bytes : string -> string -> stm R BlobStoreError (option bytes);
  rm_register_referrer : string -> Digest -> ReferrerDescriptor -> stm R BlobStoreError unit;
}.

(** ** The catalogue *)

(** An open upload session: the bytes so far and the time of its last activity. *)
Record Session := mkSession { s_bytes : bytes; s_active : Z }.

(** Manifests by repository and digest, tags by repository and name, non-empty
    referrer lists by repository and subject, and the open upload sessions. *)
Record Plane := mkPlane {
  p_manifests : gmap (string * string) (string * bytes);
  p_tags : gmap (string * string) string;
  p_referrers : gmap (string * string) (list ReferrerDescriptor);
  p_sessions : gmap (string * string) Session;
}.

Definition set_sessions (f : gmap (string * string) Session -> gmap (string * string) Session) (p : Plane) : Plane :=
  mkPlane (p_manifests p) (p_tags p) (p_referrers p) (f (p_sessions p)).

Definition referrers_of (p : Plane) (name : string) (subject : string) : list ReferrerDescriptor :=
  default [] (p_referrers p !! (name, subject)).

Definition plane_register (name : string) (subject : Digest) (d : ReferrerDescriptor) (p : Plane) : Plane :=
  let s := Digest.to_string subject in
  mkPlane (p_manifests p) (p_tags p) (<[(name, s) := referrers_of p name s ++ [d]]> (p_referrers p)) (p_sessions p).

Definition plane_put (name : string) (reference : Reference) (d : Digest) (mt : string) (body : bytes)
    (referrer : option (Digest * ReferrerDescriptor)) (p : Plane) : Plane :=
  let ds := Digest.to_string d in
  let p := mkPlane (<[(name, ds) := (mt, body)]> (p_manifests p))
                   (match reference with Tag t => <[(name, t) := ds]> (p_tags p) | RDigest _ => p_tags p end)
                   (p_referrers p) (p_sessions p) in
  match referrer with Some (subject, rd) => plane_register name subject rd p | None => p end.

(** The descriptors that do not name [ds], unless none is left. *)
Definition without (ds : string) (l : list ReferrerDescriptor) : option (list ReferrerDescriptor) :=
  match filter (fun d => Digest.to_string (rd_digest d) <> ds) l with [] => None | l => Some l end.

(** A deleted manifest takes with it the tags and the referrer entries of its
    repository that name it. *)
Definition plane_delete (name ds : string) (p : Plane) : Plane :=
  mkPlane (delete (name, ds) (p_manifests p))
          (filter (fun x : string * string * string => ~ (fst (fst x) = name /\ snd x = ds)) (p_tags p))
          (map_imap (fun k l => if decide (fst k = name) then without ds l else Some l) (p_referrers p))
          (p_sessions p).

Definition plane_get (p : Plane) (name : string) (reference : Reference) : option (Digest * string * bytes) :=
  ds ← match reference with RDigest d => Some (Digest.to_string d) | Tag t => p_tags p !! (name, t) end;
  '(mt, body) ← p_manifests p !! (name, ds);
  d ← ok_of (Digest.from_str ds);
  Some (d, mt, body).

(** A session is idle once the time since its last activity, none if the clock
    has gone back, reaches the configured limit. *)
Definition idle (lim : SessionLimits) (now : Z) (s : Session) : Prop := idle_ttl lim <= Z.max 0 (now - s_active s).

#[export] Instance idle_dec lim now s : Decision (idle lim now s).
Proof. unfold idle. apply _. Defined.

(** The idle sessions go; a new one is opened if that leaves room for it. *)
Definition live_sessions (lim : SessionLimits) (now : Z) (p : Plane) : gmap (string * string) Session :=
  filter (fun x : _ * Session => ~ idle lim now (snd x)) (p_sessions p).

Definition plane_start (lim : SessionLimits) (now : Z) (uuid name : string) (p : Plane) : UploadAdmission * Plane :=
  let live := live_sessions lim now p in
  if decide (size live < max_sessions lim)%nat
  then (Started uuid, set_sessions (fun _ => <[(name, uuid) := mkSession [] now]> live) p)
  else (AtCapacity (max_sessions lim), set_sessions (fun _ => live) p).

(** ** Calls, results and what they do *)

Inductive meta_call :=
| MPut (name : string) (reference : Reference) (d : Digest) (mt : string) (body : bytes)
| MPutWithReferrer (name : string) (reference : Reference) (d : Digest) (mt : string) (body : bytes)
    (referrer : option (Digest * ReferrerDescriptor))
| MGet (name : string) (reference : Reference)
| MDelete (name : string) (reference : Reference)
| MTags (name : string) (last : option string) (n : option nat)
| MRepositories (last : option string) (n : option nat)
| MStart (now : Z) (uuid name : string)
| MAppend (now : Z) (name uuid : string) (offset : Z) (chunk : bytes)
| MComplete (name uuid : string) (d : Digest)
| MState (now : Z) (name uuid : string)
| MCancel (name uuid : string)
| MReferrers (name : string) (d : Digest) (artifact_type : option string)
| MTake (name uuid : string)
| MRegister (name : string) (subject : Digest) (d : ReferrerDescriptor).

Inductive meta_result :=
| RUnit
| RManifest (o : option (Digest * string * bytes))
| RBool (b : bool)
| RNames (l : list string)
| RAdmission (a : UploadAdmission)
| ROffset (n : Z)
| RState (o : option UploadState)
| RReferrers (l : list ReferrerDescriptor)
| RBytes (o : option bytes).

(** [names] is the set of the keys of [m] under [name]. *)
Definition names_under {A} (m : gmap (string * string) A) (name : string) (names : list string) : Prop :=
  NoDup names /\ forall t, t ∈ names <-> is_Some (m !! (name, t)).

(** The effect of a call that returned: its result on the catalogue before, and
    the catalogue after. A repository stays listed when its last manifest is
    deleted, so the list of repositories may have more names than the manifests
    show. *)
Definition effect (lim : SessionLimits) (c : meta_call) (res : meta_result) (p p' : Plane) : Prop :=
  match c, res with
  | MPut name reference d mt body, RUnit => p' = plane_put name reference d mt body None p
  | MPutWithReferrer name reference d mt body referrer, RUnit => p' = plane_put name reference d mt body referrer p
  | MGet name reference, RManifest o => p' = p /\ o = plane_get p name reference
  | MDelete name (Tag _), RBool b => p' = p /\ b = false
  | MDelete name (RDigest d), RBool b =>
    b = bool_decide (is_Some (p_manifests p !! (name, Digest.to_string d))) /\
    p' = if b then plane_delete name (Digest.to_string d) p else p
  | MTags name last n, RNames l =>
    p' = p /\ exists names, names_under (p_tags p) name names /\ l = paginate names last n
  | MRepositories last n, RNames l =>
    p' = p /\ exists names, NoDup names /\ l = paginate names last n /\
      forall name ds, is_Some (p_manifests p !! (name, ds)) -> name ∈ names
  | MStart now uuid name, RAdmission a => (a, p') = plane_start lim now uuid name p
  | MAppend now name uuid offset chunk, ROffset n =>
    exists s, p_sessions p !! (name, uuid) = Some s /\ offset = zlen (s_bytes s) /\ n = zlen (s_bytes s ++ chunk) /\
      p' = set_sessions <[(name, uuid) := mkSession (s_bytes s ++ chunk) now]> p
  | MComplete name uuid _, RUnit => p' = set_sessions (delete (name, uuid)) p
  | MState now name uuid, RState (Some u) =>
    exists s, p_sessions p !! (name, uuid) = Some s /\ ~ idle lim now s /\ s = mkSession (up_buffer u) (last_activity u) /\ p' = p
  | MState now name uuid, RState None =>
    (forall s, p_sessions p !! (name, uuid) = Some s -> idle lim now s) /\ p' = set_sessions (delete (name, uuid)) p
  | MCancel name uuid, RBool b =>
    b = bool_decide (is_Some (p_sessions p !! (name, uuid))) /\ p' = set_sessions (delete (name, uuid)) p
  | MReferrers name d at_, RReferrers l =>
    p' = p /\
    l = match at_ with
        | None => referrers_of p name (Digest.to_string d)
        | Some a => filter (fun d => rd_artifact_type d = Some a) (referrers_of p name (Digest.to_string d))
        end
  | MTake name uuid, RBytes (Some b) =>
    exists s, p_sessions p !! (name, uuid) = Some s /\ b = s_bytes s /\
      p' = set_sessions <[(name, uuid) := mkSession [] (s_active s)]> p
  | MTake name uuid, RBytes None => p_sessions p !! (name, uuid) = None /\ p' = p
  | MRegister name subject d, RUnit => p' = plane_register name subject d p
  | _, _ => False
  end.

(** When a call may fail: a mutation of the manifests, the tags or the referrers
    when the storage is not [ready] to take it, an append to a session that is not
    there or has another length. *)
Definition refused (ready : Prop) (c : meta_call) (e : BlobStoreError) (p : Plane) : Prop :=
  match c with
  | MPut _ _ _ _ _ | MPutWithReferrer _ _ _ _ _ _ | MRegister _ _ _ => (exists io, e = BsIo io) /\ ~ ready
  | MDelete name (RDigest d) =>
    (exists io, e = BsIo io) /\ ~ ready /\ is_Some (p_manifests p !! (name, Digest.to_string d))
  | MAppend _ name uuid offset _ => forall s, p_sessions p !! (name, uuid) = Some s -> offset <> zlen (s_bytes s)
  | _ => False
  end.

(** The step the specification allows: it never panics. *)
Definition plane_step (lim : SessionLimits) (ready : Prop) (c : meta_call) (o : outcome BlobStoreError meta_result) (p p' : Plane) : Prop :=
  match o with
  | Ok res => effect lim c res p p'
  | Err e => refused ready c e p /\ p' = p
  | Panic => False
  end.

(** A history: each call with the implementation's state before it, which says
    whether the storage is ready. *)
Section Traces.
Context {R : Type} (lim : SessionLimits) (ready : R -> Prop).

Inductive plane_trace : Plane -> list (R * meta_call * outcome BlobStoreError meta_result) -> Plane -> Prop :=
| trace_nil p : plane_trace p [] p
| trace_cons p r c o p' l p'' :
  plane_step lim (ready r) c o p p' -> plane_trace p' l p'' -> plane_trace p ((r, c, o) :: l) p''.

End Traces.

(** The digests a caller passes are values of the type [Digest], which only the
    parser and the hash build. *)
Definition call_valid (c : meta_call) : Prop :=
  match c with MPut _ _ d _ _ | MPutWithReferrer _ _ d _ _ _ => Digest.valid d | _ => True end.

(** ** The contract *)

Definition as_result {R A} (f : A -> meta_result) (m : stm R BlobStoreError A) : stm R BlobStoreError meta_result :=
  a ← m; mret (f a).

Definition run_call {R} `{M : RegistryMeta R} (c : meta_call) : stm R BlobStoreError meta_result :=
  match c with
  | MPut name reference d mt body => as_result (fun _ => RUnit) (rm_put_manifest name reference d mt body)
  | MPutWithReferrer name reference d mt body referrer =>
    as_result (fun _ => RUnit) (rm_put_manifest_with_referrer name reference d mt body referrer)
  | MGet name reference => as_result RManifest (rm_get_manifest name reference)
  | MDelete name reference => as_result RBool (rm_delete_manifest name reference)
  | MTags name last n => as_result RNames (rm_list_tags name last n)
  | MRepositories last n => as_result RNames (rm_list_repositories last n)
  | MStart now uuid name => as_result RAdmission (rm_start_upload now uuid name)
  | MAppend now name uuid offset chunk => as_result ROffset (rm_append_upload now name uuid offset chunk)
  | MComplete name uuid d => as_result (fun _ => RUnit) (rm_complete_upload name uuid d)
  | MState now name uuid => as_result RState (rm_get_upload_state now name uuid)
  | MCancel name uuid => as_result RBool (rm_cancel_upload name uuid)
  | MReferrers name d at_ => as_result RReferrers (rm_list_referrers name d at_)
  | MTake name uuid => as_result RBytes (rm_take_upload_bytes name uuid)
  | MRegister name subject d => as_result (fun _ => RUnit) (rm_register_referrer name subject d)
  end.

(** An implementation has session limits, an invariant, a catalogue it stands for
    and states in which its storage is ready, and each of its calls is a step of the
    specification. *)
Class RegistryMetaLaws (R : Type) `{M : RegistryMeta R} := {
  meta_limits : SessionLimits;
  meta_inv : R -> Prop;
  meta_view : R -> Plane;
  meta_ready : R -> Prop;
  meta_law : forall c r, meta_inv r -> call_valid c ->
    meta_inv (fst (run_call c r)) /\
    plane_step meta_limits (meta_ready r) c (snd (run_call c r)) (meta_view r) (meta_view (fst (run_call c r)));
}.

Fixpoint run_calls {R} `{M : RegistryMeta R} (cs : list meta_call) (r : R)
    : R * list (R * meta_call * outcome BlobStoreError meta_result) :=
  match cs with
  | [] => (r, [])
  | c :: cs => let '(r', o) := run_call c r in let '(r', l) := run_calls cs r' in (r', (r, c, o) :: l)
  end.

(** ** Programs over the interface *)

Section Programs.
Context {R} `{M : RegistryMeta R}.

(** The chunks of an upload, each at the offset the last one returned. *)
Fixpoint append_all (now : Z) (name uuid : string) (offset : Z) (chunks : list bytes) : stm R BlobStoreError unit :=
  match chunks with
  | [] => mret tt
  | c :: chunks => n ← rm_append_upload now name uuid offset c; append_all now name uuid n chunks
  end.

(** Start, append, take and close, the calls the upload handlers make. *)
Definition upload_bytes (now : Z) (uuid name : string) (d : Digest) (chunks : list bytes)
    : stm R BlobStoreError (option bytes) :=
  a ← rm_start_upload now uuid name;
  match a with
  | AtCapacity _ => mret None
  | Started uuid =>
    append_all now name uuid 0 chunks;;
    b ← rm_take_upload_bytes name uuid;
    rm_complete_upload name uuid d;;
    mret b
  end.

Context {L : RegistryMetaLaws R}.

Lemma calls_trace cs r : meta_inv r -> Forall call_valid cs ->
  meta_inv (fst (run_calls cs r)) /\
  plane_trace meta_limits meta_ready (meta_view r) (snd (run_calls cs r)) (meta_view (fst (run_calls cs r))).
Proof.
  intros Hr Hcs. revert r Hr. induction Hcs as [|c cs Hc _ IH]; intros r Hr; cbn [run_calls]; [split; [exact Hr|constructor]|].
  destruct (meta_law c r Hr Hc) as [Hr1 Hs1]. destruct (run_call c r) as [r1 o]. cbn [fst snd] in *.
  destruct (IH r1 Hr1) as [Hr2 Ht]. destruct (run_calls cs r1) as [r2 l]. cbn [fst snd] in *.
  split; [exact Hr2|]. econstructor; eassumption.
Qed.

(** The law of one method, from that of its call. *)
Lemma method_law {A} (c : meta_call) (f : A -> meta_result) (m : stm R BlobStoreError A) r :
  run_call c = as_result f m -> meta_inv r -> call_valid c ->
  exists r' o, m r = (r', o) /\ meta_inv r' /\
    match o with
    | Ok a => effect meta_limits c (f a) (meta_view r) (meta_view r')
    | Err e => refused (meta_ready r) c e (meta_view r) /\ meta_view r' = meta_view r
    | Panic => False
    end.
Proof.
  intros Hc Hr Hv. destruct (meta_law c r Hr Hv) as [H1 H2]. rewrite Hc in H1, H2. unfold as_result in H1, H2.
  run_st_in H1. run_st_in H2. destruct (m r) as [r' [a|e|]]; cbn in *; eauto 10.
Qed.

Lemma append_all_law now name uuid chunks r buf :
  meta_inv r -> p_sessions (meta_view r) !! (name, uuid) = Some (mkSession buf now) ->
  exists r', append_all now name uuid (zlen buf) chunks r = (r', Ok tt) /\ meta_inv r' /\
    meta_view r' = set_sessions <[(name, uuid) := mkSession (buf ++ concat chunks) now]> (meta_view r).
Proof.
  revert r buf. induction chunks as [|c chunks IH]; intros r buf Hr Hb; cbn [append_all concat].
  - exists r. split_and!; [reflexivity|exact Hr|]. rewrite app_nil_r. destruct (meta_view r) as [ms ts rs ss]. cbn in *.
    unfold set_sessions. cbn. rewrite insert_id by exact Hb. reflexivity.
  - destruct (method_law (MAppend now name uuid (zlen buf) c) ROffset (rm_append_upload now name uuid (zlen buf) c) r
      eq_refl Hr I) as (r1 & o & Hm & Hr1 & Ho). unfold mbind, stm_bind. rewrite Hm.
    destruct o as [n|e|]; [|destruct Ho as [Ho _]; destruct (Ho _ Hb eq_refl)|contradiction].
    destruct Ho as (s & Hb' & _ & -> & Hv1). rewrite Hb in Hb'. injection Hb' as <-. cbn [s_bytes] in *.
    destruct (IH r1 (buf ++ c) Hr1) as (r2 & H2 & Hr2 & Hv2); [rewrite Hv1; apply lookup_insert_eq|].
    exists r2. split_and!; [exact H2|exact Hr2|]. rewrite Hv2, Hv1. unfold set_sessions. cbn.
    rewrite insert_insert_eq, app_assoc. reflexivity.
Qed.

(** The upload program returns the concatenation of its chunks, unless as many
    sessions as the limit are live, and leaves the catalogue as it was, its session
    closed. *)
Lemma upload_bytes_law now uuid name d chunks r : meta_inv r ->
  exists r' o, upload_bytes now uuid name d chunks r = (r', Ok o) /\ meta_inv r' /\
    (if decide (size (live_sessions meta_limits now (meta_view r)) < max_sessions meta_limits)%nat
     then o = Some (concat chunks) /\ p_sessions (meta_view r') !! (name, uuid) = None else o = None) /\
    p_manifests (meta_view r') = p_manifests (meta_view r) /\ p_tags (meta_view r') = p_tags (meta_view r) /\
    p_referrers (meta_view r') = p_referrers (meta_view r).
Proof.
  intros Hr. unfold upload_bytes.
  destruct (method_law (MStart now uuid name) RAdmission (rm_start_upload now uuid name) r eq_refl Hr I) as (r1 & o & H1 & Hr1 & Ho).
  unfold mbind at 1, stm_bind at 1. rewrite H1. destruct o as [a|e|]; [|destruct Ho as [[] _]|contradiction].
  unfold effect, plane_start in Ho. destruct (decide _) as [Hroom|Hfull]; injection Ho as -> Hv1.
  - destruct (append_all_law now name uuid chunks r1 [] Hr1) as (r2 & H2 & Hr2 & Hv2); [rewrite Hv1; apply lookup_insert_eq|].
    change (zlen []) with 0 in H2. unfold mbind at 1, stm_bind at 1. rewrite H2. rewrite Hv1 in Hv2. cbn in Hv2.
    destruct (method_law (MTake name uuid) RBytes (rm_take_upload_bytes name uuid) r2 eq_refl Hr2 I) as (r3 & o & H3 & Hr3 & Ho).
    unfold mbind at 1, stm_bind at 1. rewrite H3. destruct o as [b|e|]; [|destruct Ho as [[] _]|contradiction].
    destruct b as [b|]; [|destruct Ho as [Ho _]; rewrite Hv2 in Ho; cbn in Ho; rewrite lookup_insert_eq in Ho; discriminate].
    destruct Ho as (s & Hb & -> & Hv3). rewrite Hv2 in Hb, Hv3. cbn in Hb. rewrite lookup_insert_eq in Hb. injection Hb as <-.
    destruct (method_law (MComplete name uuid d) (fun _ => RUnit) (rm_complete_upload name uuid d) r3 eq_refl Hr3 I) as (r4 & o & H4 & Hr4 & Ho).
    unfold mbind at 1, stm_bind at 1. rewrite H4. destruct o as [[]|e|]; [|destruct Ho as [[] _]|contradiction].
    exists r4, (Some (concat chunks)). cbn in Ho. rewrite Hv3 in Ho. split_and!; [reflexivity|exact Hr4|reflexivity|..];
      rewrite Ho; [apply lookup_delete_eq|reflexivity..].
  - exists r1, None. rewrite Hv1. split_and!; auto.
Qed.

(** What the trait asks of a put: the manifest is found by its digest, whatever
    it was put under, and by its tag if it had one. *)
Lemma put_then_get_law name reference d mt body r r1 : meta_inv r -> Digest.valid d ->
  rm_put_manifest name reference d mt body r = (r1, Ok tt) ->
  forall ref, ref = RDigest d \/ (Reference.is_tag reference = true /\ ref = reference) ->
  snd (rm_get_manifest name ref r1) = Ok (Some (d, mt, body)).
Proof.
  intros Hr Hd Hp ref Href.
  destruct (method_law (MPut name reference d mt body) (fun _ => RUnit) (rm_put_manifest name reference d mt body) r
    eq_refl Hr Hd) as (r1' & o & Hm & Hr1 & Ho). rewrite Hp in Hm. injection Hm as <- <-.
  change (meta_view r1 = plane_put name reference d mt body None (meta_view r)) in Ho.
  destruct (method_law (MGet name ref) RManifest (rm_get_manifest name ref) r1 eq_refl Hr1 I) as (r2 & o & Hg & _ & Hs).
  rewrite Hg. cbn [snd]. destruct o as [m|e|]; [|destruct Hs as [[] _]|contradiction]. destruct Hs as [_ ->]. rewrite Ho.
  assert (Hds : match ref with RDigest d => Some (Digest.to_string d) | Tag t => p_tags (plane_put name reference d mt body None (meta_view r)) !! (name, t) end
    = Some (Digest.to_string d)).
  { destruct Href as [->|[Ht ->]]; [reflexivity|]. destruct reference; [apply lookup_insert_eq|discriminate]. }
  unfold plane_get. rewrite Hds. cbn. rewrite lookup_insert_eq. cbn. rewrite Digest.from_str_to_string by exact Hd. reflexivity.
Qed.

End Programs.
