(* ===== verification/OciHttp.v ===== *)
(** * Requests, responses and shared state of the OCI server

    Model of the parts of [crates/ferro-oci-server/src/router.rs] that hold
    state ([AppState], its blob gauge) and of the HTTP values the handlers
    exchange with axum. A handler is a computation on the state that returns a
    response or an [OciError], which [into_response] turns into one. *)

From S2P Require Import Prelude Str Frame Net Json Http Digest BlobStore OciError OciUpload OciRegistry.

Local Open Scope Z_scope.

(** ** Responses *)

Inductive Body :=
| BEmpty
| BBytes (b : bytes)
| BErrors (e : list OciErrorInfo)
| BJson (v : Value)
| BTagList (name : string) (tags : list string)
| BCatalog (repositories : list string)
| BReferrers (l : list ReferrerDescriptor).

Record Response := mkResponse { status : Z; resp_headers : headers; resp_body : Body }.

(** [IntoResponse for OciError]. *)
Definition error_response (e : OciError) : Response := mkResponse (OciError.status e) [] (BErrors (OciError.body e)).

(** ** Shared state *)

(** The atomics and stores of [AppState]; [S] is the blob store's state. *)
Record AppState (S : Type) := mkApp { blob_store : S; registry : Registry; blob_count : Z }.
Arguments mkApp {S} _ _ _.
Arguments blob_store {S} _.
Arguments registry {S} _.
Arguments blob_count {S} _.

Record AppConfig := mkAppConfig { registry_cfg : RegistryConfig; max_upload_session_bytes : Z }.

Module AppState.
Section Ops.
Context {S : Type} `{BlobStore S}.

Definition new (s : S) (r : Registry) : AppState S := mkApp s r 0.

(** Run a blob-store or registry method. *)
Definition on_store {A} (m : stm S BlobStoreError A) : stm (AppState S) BlobStoreError A := fun a =>
  let '(s, r) := m (blob_store a) in (mkApp s (registry a) (blob_count a), r).

Definition on_registry {A} (m : stm Registry BlobStoreError A) : stm (AppState S) BlobStoreError A := fun a =>
  let '(g, r) := m (registry a) in (mkApp (blob_store a) g (blob_count a), r).

(** [fetch_add] on an [AtomicI64] wraps. *)
Definition i64_wrap (z : Z) : Z := (z - I64_MIN) mod 18446744073709551616 + I64_MIN.

Definition inc_blob_count : stm (AppState S) BlobStoreError unit := fun a =>
  (mkApp (blob_store a) (registry a) (i64_wrap (blob_count a + 1)), Ok tt).

(** [n.saturating_sub(1).max(0)]. *)
Definition dec_blob_count : stm (AppState S) BlobStoreError unit := fun a =>
  (mkApp (blob_store a) (registry a) (Z.max (Z.max (blob_count a - 1) I64_MIN) 0), Ok tt).

(** [contains(..).await.unwrap_or(false)]. *)
Definition contains_or_false (d : Digest) : stm (AppState S) BlobStoreError bool := fun a =>
  match on_store (bs_contains d) a with
  | (a, Ok b) => (a, Ok b)
  | (a, Err _) => (a, Ok false)
  | (a, Panic) => (a, Panic)
  end.

Definition store_blob_counted (d : Digest) (body : bytes) : stm (AppState S) BlobStoreError unit :=
  already_present ← contains_or_false d;
  on_store (bs_put d body);;
  if negb already_present then inc_blob_count else mret tt.

End Ops.
End AppState.

(** ** Handlers as computations *)

(** A call whose error becomes [OciError::from(e)]. *)
Definition call_with {S A} (f : BlobStoreError -> OciError) (m : stm (AppState S) BlobStoreError A)
    : stm (AppState S) OciError A := fun a => let '(a, r) := m a in (a, map_err f r).

Definition call {S A} (m : stm (AppState S) BlobStoreError A) : stm (AppState S) OciError A :=
  call_with OciError.from_blob_store m.

(** [let _ = m.await]. *)
Definition ignore {S A} (m : stm (AppState S) BlobStoreError A) : stm (AppState S) OciError unit := fun a =>
  match m a with (a, Panic) => (a, Panic) | (a, _) => (a, Ok tt) end.

(** The response a handler sends: [e.into_response()] on an error. *)
Definition into_response {S} (m : stm (AppState S) OciError Response) : stm (AppState S) OciError Response := fun a =>
  match m a with
  | (a, Ok r) => (a, Ok r)
  | (a, Err e) => (a, Ok (error_response e))
  | (a, Panic) => (a, Panic)
  end.
