(* ===== verification/OciBlobHandlers.v ===== *)
(** * Blob and upload endpoints

    Models of [crates/ferro-oci-server/src/handlers/blob_upload.rs] and
    [handlers/blob.rs]. Each handler is the whole function, its early returns
    as thrown errors that [into_response] renders. The clock readings and the
    fresh UUID of a request are in its [ReqEnv]. A handler runs to completion
    before the next one starts. *)

From S2P Require Import Prelude Str Frame Net Digest BlobStore OciError OciReference OciUpload OciRegistry Json Http OciHttp.

Local Open Scope Z_scope.

(** What a request reads from the environment: the clock when the session is
    looked up, the clock when bytes are appended or a session is started, and
    the result of [Uuid::new_v4]. *)
Record ReqEnv := mkReqEnv { now_lookup : Z; now_write : Z; fresh_uuid : string }.

Definition upload_too_large (cap current incoming : Z) : OciError :=
  OciError.with_status 413 (OciError.new BlobUploadInvalid
    (MText ("upload exceeds the " ++ display_u64 cap ++ "-byte session cap (buffered " ++ display_u64 current
            ++ ", incoming " ++ display_u64 incoming ++ ")"))).

Definition would_exceed_cap (cap current incoming : Z) : bool := cap <? u64_saturating_add current incoming.

Definition parse_digest (s : string) : outcome OciError Digest :=
  map_err (fun e => OciError.new DigestInvalid (MCat (MText ("invalid digest `" ++ s ++ "`: ")) (MDigest e)))
    (Digest.from_str s).

Definition unknown_upload (uuid : string) : OciError :=
  OciError.new BlobUploadUnknown (MText ("unknown upload uuid " ++ uuid)).

Definition digest_mismatch (declared actual : Digest) : OciError :=
  OciError.new DigestInvalid
    (MText ("digest mismatch: declared " ++ Digest.to_string declared ++ ", computed " ++ Digest.to_string actual)).

(** [Display for ContentRangeParseError]. *)
Definition content_range_error (e : ContentRangeParseError) : string :=
  match e with Malformed => "malformed Content-Range" | Reversed => "reversed range (start > end)" end.

Definition quoted (s : string) : string := String (ascii_of_N 34) (s ++ String (ascii_of_N 34) "").

Section Handlers.
Context {St : Type} `{HB : BlobStore St} `{H : Hashing} `{C : SnapshotCodec} `{L : HttpLib} (cfg : AppConfig).

Definition upload_location_headers (name uuid : string) (new_offset : Z) : headers :=
  try_header "location" ("/v2/" ++ name ++ "/blobs/uploads/" ++ uuid) ++
  try_header "range" (if new_offset =? 0 then "0-0" else "0-" ++ display_u64 (new_offset - 1)) ++
  try_header "docker-upload-uuid" uuid ++
  [("oci-chunk-min-length", "0")]%string.

Definition blob_created_response (name : string) (d : Digest) : Response :=
  mkResponse 201
    (try_header "location" ("/v2/" ++ name ++ "/blobs/" ++ Digest.to_string d) ++
     try_header "docker-content-digest" (Digest.to_string d) ++
     [("content-length", "0")]%string) BEmpty.

(** ** Uploads *)

Definition init_upload (env : ReqEnv) (name : string) (params : gmap string string) (body : bytes)
    : stm (AppState St) OciError Response := into_response (
  st_lift (validate_name name);;
  match params !! "digest"%string with
  | Some digest_str =>
    digest ← st_lift (parse_digest digest_str);
    let actual := Digest.sha256_of body in
    if bool_decide (algo actual = algo digest) && negb (bool_decide (hex actual = hex digest))
    then st_throw (digest_mismatch digest actual) else
    call (AppState.store_blob_counted digest body);;
    mret (blob_created_response name digest)
  | None =>
    admission ← call (AppState.on_registry (start_upload (registry_cfg cfg) (now_write env) (fresh_uuid env) name));
    match admission with
    | Started uuid => mret (mkResponse 202 (upload_location_headers name uuid 0) BEmpty)
    | AtCapacity cap =>
      st_throw (OciError.new TooManyRequests
        (MText ("upload-session capacity reached (" ++ display_u64 (Z.of_nat cap) ++ " concurrent sessions); retry later")))
    end
  end).

(** The start offset of a chunk, from its Content-Range header if it has one. *)
Definition chunk_start (hs : headers) (expected_offset : Z) (body : bytes) : outcome OciError Z :=
  match header_get hs "content-range" with
  | None => Ok expected_offset
  | Some v =>
    if negb (header_to_str_ok v) then Err (OciError.new BlobUploadInvalid (MText "non-ASCII Content-Range")) else
    range ← map_err (fun e => OciError.new BlobUploadInvalid
                         (MText ("malformed Content-Range `" ++ v ++ "`: " ++ content_range_error e)))
              (ContentRange.parse v);
    declared_len ← ok_or (ContentRange.checked_length range)
      (OciError.with_status 416 (OciError.new BlobUploadInvalid
        (MText ("Content-Range `" ++ v ++ "` spans more than u64::MAX bytes"))));
    if negb (declared_len =? zlen body)
    then Err (OciError.with_status 416 (OciError.new BlobUploadInvalid
      (MText ("Content-Range length mismatch: range `" ++ v ++ "` spans " ++ display_u64 declared_len
              ++ " bytes but body carries " ++ display_u64 (zlen body)))))
    else Ok (cr_start range)
  end.

Definition patch_upload (env : ReqEnv) (name uuid : string) (hs : headers) (body : bytes)
    : stm (AppState St) OciError Response := into_response (
  st_lift (validate_name name);;
  existing ← call (AppState.on_registry (get_upload_state (registry_cfg cfg) (now_lookup env) name uuid));
  state_snapshot ← st_lift (ok_or existing (unknown_upload uuid));
  let expected_offset := UploadState.offset state_snapshot in
  start ← st_lift (chunk_start hs expected_offset body);
  if negb (start =? expected_offset)
  then st_throw (OciError.with_status 416 (OciError.new BlobUploadInvalid
    (MText ("out-of-order chunk: expected offset " ++ display_u64 expected_offset ++ ", got " ++ display_u64 start)))) else
  let cap := max_upload_session_bytes cfg in
  if would_exceed_cap cap expected_offset (zlen body)
  then ignore (AppState.on_registry (cancel_upload name uuid));;
       st_throw (upload_too_large cap expected_offset (zlen body)) else
  new_offset ← call (AppState.on_registry (append_upload (now_write env) name uuid start body));
  mret (mkResponse 202 (upload_location_headers name uuid new_offset) BEmpty)).

(** The final chunk a PUT may carry. *)
Definition append_final (env : ReqEnv) (name uuid : string) (state_snapshot : UploadState) (body : bytes)
    : stm (AppState St) OciError unit :=
  if bool_decide (body = []) then mret tt else
  let cap := max_upload_session_bytes cfg in
  if would_exceed_cap cap (UploadState.offset state_snapshot) (zlen body)
  then ignore (AppState.on_registry (cancel_upload name uuid));;
       st_throw (upload_too_large cap (UploadState.offset state_snapshot) (zlen body))
  else
    _ ← call (AppState.on_registry (append_upload (now_write env) name uuid (UploadState.offset state_snapshot) body));
    mret tt.

Definition finish_upload (env : ReqEnv) (name uuid : string) (params : gmap string string) (body : bytes)
    : stm (AppState St) OciError Response := into_response (
  st_lift (validate_name name);;
  digest_str ← st_lift (ok_or (params !! "digest"%string)
    (OciError.new DigestInvalid (MText "missing `digest` query parameter")));
  declared ← st_lift (parse_digest digest_str);
  existing ← call (AppState.on_registry (get_upload_state (registry_cfg cfg) (now_lookup env) name uuid));
  state_snapshot ← st_lift (ok_or existing (unknown_upload uuid));
  append_final env name uuid state_snapshot body;;
  taken ← call (AppState.on_registry (take_upload_bytes name uuid));
  b ← st_lift (ok_or taken
    (OciError.new BlobUploadUnknown (MText ("upload " ++ uuid ++ " has no buffered bytes"))));
  let actual := Digest.sha256_of b in
  if bool_decide (algo declared = algo actual) && negb (bool_decide (hex actual = hex declared))
  then st_throw (digest_mismatch declared actual) else
  call (AppState.store_blob_counted declared b);;
  call (AppState.on_registry (complete_upload name uuid declared));;
  mret (blob_created_response name declared)).

Definition get_upload_status (env : ReqEnv) (name uuid : string) : stm (AppState St) OciError Response := into_response (
  st_lift (validate_name name);;
  existing ← call (AppState.on_registry (get_upload_state (registry_cfg cfg) (now_lookup env) name uuid));
  s ← st_lift (ok_or existing (unknown_upload uuid));
  mret (mkResponse 204 (upload_location_headers name uuid (UploadState.offset s)) BEmpty)).

Definition cancel_upload_handler (name uuid : string) : stm (AppState St) OciError Response := into_response (
  st_lift (validate_name name);;
  removed ← call (AppState.on_registry (cancel_upload name uuid));
  if negb removed then st_throw (unknown_upload uuid) else
  mret (mkResponse 204 [] BEmpty)).

(** ** Blobs *)

(** [Docker-Content-Digest] and [ETag] of a digest. *)
Definition digest_headers (d : Digest) : headers :=
  let digest_str := Digest.to_string d in
  if header_value_ok digest_str
  then ("docker-content-digest"%string, digest_str) :: try_header "etag" (quoted digest_str)
  else [].

Definition common_blob_headers (d : Digest) (size : Z) : headers :=
  digest_headers d ++ [("content-length", display_u64 size); ("content-type", "application/octet-stream")]%string.

Definition OCI_EMPTY_DESCRIPTOR_DIGEST : string :=
  "sha256:44136fa355b3678a1146ad16f7e8649e94fb4fc21fe77e8310c060f61caaff8a".

Definition OCI_EMPTY_DESCRIPTOR_BYTES : bytes := [x7b; x7d].

Definition blob_not_found (d : Digest) : OciError :=
  OciError.new BlobUnknown (MText ("blob " ++ Digest.to_string d ++ " not found")).

(** The errors of [blob_store.get] in the GET and HEAD handlers. *)
Definition get_error (d : Digest) (e : BlobStoreError) : OciError :=
  match e with NotFound _ => blob_not_found d | _ => OciError.from_blob_store e end.

Definition get_blob (name digest_str : string) : stm (AppState St) OciError Response := into_response (
  st_lift (validate_name name);;
  d ← st_lift (parse_digest digest_str);
  if bool_decide (digest_str = OCI_EMPTY_DESCRIPTOR_DIGEST)
  then mret (mkResponse 200 (common_blob_headers d (zlen OCI_EMPTY_DESCRIPTOR_BYTES)) (BBytes OCI_EMPTY_DESCRIPTOR_BYTES)) else
  b ← call_with (get_error d) (AppState.on_store (bs_get d));
  mret (mkResponse 200 (common_blob_headers d (zlen b)) (BBytes b))).

Definition head_blob (name digest_str : string) : stm (AppState St) OciError Response := into_response (
  st_lift (validate_name name);;
  d ← st_lift (parse_digest digest_str);
  if bool_decide (digest_str = OCI_EMPTY_DESCRIPTOR_DIGEST)
  then mret (mkResponse 200 (common_blob_headers d (zlen OCI_EMPTY_DESCRIPTOR_BYTES)) BEmpty) else
  b ← call_with (get_error d) (AppState.on_store (bs_get d));
  mret (mkResponse 200 (common_blob_headers d (zlen b)) BEmpty)).

Definition delete_blob (name digest_str : string) : stm (AppState St) OciError Response := into_response (
  st_lift (validate_name name);;
  d ← st_lift (parse_digest digest_str);
  exists_ ← call (AppState.on_store (bs_contains d));
  if negb exists_ then st_throw (blob_not_found d) else
  call (AppState.on_store (bs_delete d));;
  call AppState.dec_blob_count;;
  mret (mkResponse 202 [] BEmpty)).

End Handlers.
