(* ===== verification/OciManifestHandlers.v ===== *)
(** * Manifest and listing endpoints

    Models of [crates/ferro-oci-server/src/handlers/manifest.rs],
    [handlers/tags.rs], [handlers/catalog.rs], [handlers/referrers.rs],
    [handlers/base.rs] and [media_types.rs]. *)

From S2P Require Import Prelude Str Frame Net Digest BlobStore OciError OciReference OciUpload OciRegistry Json Http OciHttp OciBlobHandlers.

Local Open Scope Z_scope.

(** ** Media types *)

Definition OCI_IMAGE_MANIFEST : string := "application/vnd.oci.image.manifest.v1+json".
Definition OCI_IMAGE_INDEX : string := "application/vnd.oci.image.index.v1+json".
Definition DOCKER_MANIFEST_V2 : string := "application/vnd.docker.distribution.manifest.v2+json".
Definition DOCKER_MANIFEST_LIST_V2 : string := "application/vnd.docker.distribution.manifest.list.v2+json".

Inductive ManifestKind := ImageManifest | ImageIndex | Artifact.

Definition classify_manifest_media_type (ct : string) : option ManifestKind :=
  let bare := trim (default ct (head (split ";" ct))) in
  if bool_decide (bare = OCI_IMAGE_MANIFEST) || bool_decide (bare = DOCKER_MANIFEST_V2) then Some ImageManifest else
  if bool_decide (bare = OCI_IMAGE_INDEX) || bool_decide (bare = DOCKER_MANIFEST_LIST_V2) then Some ImageIndex else
  if starts_with "application/vnd." bare && ends_with "+json" bare then Some Artifact else None.

(** ** Byte ranges *)

Inductive ByteRangeOutcome := BRange (start end_ : Z) | BUnsatisfiable | BIgnore.

Definition parse_byte_range (raw : string) : ByteRangeOutcome :=
  match strip_prefix "bytes=" raw with
  | None => BIgnore
  | Some spec =>
    if negb (str_all (not_char ",") spec) then BIgnore else
    match split_once "-" spec with
    | None => BIgnore
    | Some (lhs, rhs) =>
      if bool_decide (lhs = ""%string) then BIgnore else
      match parse_u64 lhs with
      | None => BIgnore
      | Some start =>
        match (if bool_decide (rhs = ""%string) then Some USIZE_MAX else parse_u64 rhs) with
        | None => BIgnore
        | Some end_ => if end_ <? start then BUnsatisfiable else BRange start end_
        end
      end
    end
  end.

Section Handlers.
Context {St : Type} `{HB : BlobStore St} `{H : Hashing} `{C : SnapshotCodec} `{L : HttpLib} (cfg : AppConfig).

Definition unsatisfiable_response (total : Z) : Response :=
  mkResponse 416 (try_header "content-range" ("bytes */" ++ display_u64 total) ++ [("accept-ranges", "bytes")]%string) BEmpty.

Definition manifest_response_headers (d : Digest) (media_type : string) (size : Z) : headers :=
  digest_headers d ++ try_header "content-type" media_type ++ [("content-length"%string, display_u64 size)].

Definition full_response (d : Digest) (media_type : string) (body : bytes) : Response :=
  mkResponse 200 (manifest_response_headers d media_type (zlen body) ++ [("accept-ranges", "bytes")]%string) (BBytes body).

Definition range_or_full_response (hs : headers) (d : Digest) (media_type : string) (body : bytes)
    : outcome OciError Response :=
  let total := zlen body in
  match parse_byte_range <$> header_get_str hs "range" with
  | None => Ok (full_response d media_type body)
  | Some BIgnore => Ok (full_response d media_type body)
  | Some BUnsatisfiable => Ok (unsatisfiable_response total)
  | Some (BRange start end_) =>
    let last := Z.max 0 (total - 1) in
    if (total =? 0) || (last <? start) then Ok (unsatisfiable_response total) else
    let clamped_end := Z.min end_ last in
    span ← expect (u64_checked_sub clamped_end start);
    let slice_len := span + 1 in
    part ← slice start (clamped_end + 1) body;
    Ok (mkResponse 206
      (digest_headers d ++ try_header "content-type" media_type ++
       [("content-length"%string, display_u64 slice_len); ("accept-ranges", "bytes")%string] ++
       try_header "content-range"
         ("bytes " ++ display_u64 start ++ "-" ++ display_u64 clamped_end ++ "/" ++ display_u64 total))
      (BBytes part))
  end.

(** ** Manifests *)

Definition manifest_not_found (name reference_str : string) : OciError :=
  OciError.new ManifestUnknown (MText ("manifest " ++ reference_str ++ " not found in " ++ name)).

Definition map_mutation_error (e : BlobStoreError) : OciError :=
  match e with
  | BsIo io => OciError.with_status 500 (OciError.new Unsupported
      (MCat (MText "registry metadata could not be persisted durably: ") (MIo io)))
  | _ => OciError.from_blob_store e
  end.

(** [let Ok(reference) = parse_reference(..) else return manifest_not_found(..)]. *)
Definition reference_or_not_found (name reference_str : string) : outcome OciError Reference :=
  map_err (fun _ => manifest_not_found name reference_str) (Reference.from_str reference_str).

Definition get_manifest_handler (name reference_str : string) (hs : headers)
    : stm (AppState St) OciError Response := into_response (
  st_lift (validate_name name);;
  reference ← st_lift (reference_or_not_found name reference_str);
  found ← call (AppState.on_registry (get_manifest name reference));
  match found with
  | Some (digest, media_type, body) => st_lift (range_or_full_response hs digest media_type body)
  | None => st_throw (manifest_not_found name reference_str)
  end).

Definition head_manifest (name reference_str : string) : stm (AppState St) OciError Response := into_response (
  st_lift (validate_name name);;
  reference ← st_lift (reference_or_not_found name reference_str);
  found ← call (AppState.on_registry (get_manifest name reference));
  match found with
  | Some (digest, media_type, body) =>
    mret (mkResponse 200 (manifest_response_headers digest media_type (zlen body)) BEmpty)
  | None => st_throw (manifest_not_found name reference_str)
  end).

Definition check_blob_present (digest_str : string) : stm (AppState St) OciError unit :=
  if bool_decide (digest_str = OCI_EMPTY_DESCRIPTOR_DIGEST) then mret tt else
  digest ← st_lift (map_err (fun e => OciError.new ManifestInvalid
    (MCat (MText ("invalid digest `" ++ digest_str ++ "`: ")) (MDigest e))) (Digest.from_str digest_str));
  present ← call (AppState.on_store (bs_contains digest));
  if negb present
  then st_throw (OciError.new ManifestBlobUnknown (MText ("referenced blob " ++ digest_str ++ " not present")))
  else mret tt.

(** [for x in l { f(x)?; }]. *)
Fixpoint for_each {A} (f : A -> stm (AppState St) OciError unit) (l : list A) : stm (AppState St) OciError unit :=
  match l with
  | [] => mret tt
  | x :: l => f x;; for_each f l
  end.

(** [if let Some(d) = v.get("digest").and_then(Value::as_str) { f(d)?; }]. *)
Definition if_digest (f : string -> stm (AppState St) OciError unit) (v : Value) : stm (AppState St) OciError unit :=
  match Value.get "digest" v ≫= Value.as_str with
  | Some d => f d
  | None => mret tt
  end.

(** One entry of an index: a registered manifest or a stored blob. *)
Definition check_manifest_present (name d : string) : stm (AppState St) OciError unit :=
  digest ← st_lift (map_err (fun e => OciError.new ManifestInvalid
    (MCat (MText "invalid digest in manifests[]: ") (MDigest e))) (Digest.from_str d));
  found ← call (AppState.on_registry (get_manifest name (RDigest digest)));
  match found with
  | Some _ => mret tt
  | None =>
    as_blob ← call (AppState.on_store (bs_contains digest));
    if negb as_blob
    then st_throw (OciError.new ManifestBlobUnknown (MText ("referenced manifest digest " ++ d ++ " not present")))
    else mret tt
  end.

Definition verify_referenced_blobs (name : string) (parsed : Value) (kind : ManifestKind)
    : stm (AppState St) OciError unit :=
  match kind with
  | ImageManifest | Artifact =>
    match Value.get "config" parsed ≫= Value.as_object with
    | Some config => if_digest check_blob_present (JObject config)
    | None => mret tt
    end;;
    match Value.get "layers" parsed ≫= Value.as_array with
    | Some layers => for_each (if_digest check_blob_present) layers
    | None => mret tt
    end
  | ImageIndex =>
    match Value.get "manifests" parsed ≫= Value.as_array with
    | Some manifests => for_each (if_digest (check_manifest_present name)) manifests
    | None => mret tt
    end
  end.

(** [m.iter().filter_map(..).collect::<BTreeMap<_, _>>()]. *)
Definition collect_annotations (m : list (string * Value)) : gmap string string :=
  fold_left (fun acc '(k, v) => match Value.as_str v with Some s => <[k := s]> acc | None => acc end) m ∅.

Definition non_empty (s : string) : option string := if bool_decide (s = ""%string) then None else Some s.

(** [parsed.get("subject").and_then(|s| s.get("digest")).and_then(Value::as_str)]. *)
Definition subject_digest (parsed : Value) : option string :=
  (Value.get "subject" parsed ≫= Value.get "digest") ≫= Value.as_str.

Definition build_referrer (parsed : Value) (digest : Digest) (content_type : string) (body_len : Z)
    : option (Digest * ReferrerDescriptor) :=
  subj ← subject_digest parsed ≫= fun s => ok_of (Digest.from_str s);
  let artifact_type :=
    match (Value.get "artifactType" parsed ≫= Value.as_str) ≫= non_empty with
    | Some t => Some t
    | None => (Value.get "config" parsed ≫= Value.get "mediaType") ≫= Value.as_str
    end in
  let annotations := collect_annotations <$> (Value.get "annotations" parsed ≫= Value.as_object) in
  Some (subj, mkReferrer content_type digest body_len artifact_type annotations).

(** The check of a put by digest. *)
Definition check_declared (reference : Reference) (digest : Digest) : outcome OciError unit :=
  match reference with
  | Tag _ => Ok tt
  | RDigest declared =>
    if negb (bool_decide (algo declared = algo digest))
    then Err (OciError.new DigestInvalid (MText ("unsupported manifest digest algorithm `"
           ++ algo_prefix (algo declared) ++ "`: only sha256 is supported"))) else
    if negb (bool_decide (hex declared = hex digest))
    then Err (OciError.new DigestInvalid (MText ("manifest digest mismatch: reference " ++ Digest.to_string declared
           ++ ", computed " ++ Digest.to_string digest)))
    else Ok tt
  end.

Definition put_manifest_handler (name reference_str : string) (hs : headers) (body : bytes)
    : stm (AppState St) OciError Response := into_response (
  st_lift (validate_name name);;
  reference ← st_lift (Reference.from_str reference_str);
  content_type ← st_lift (ok_or (header_get_str hs "content-type")
    (OciError.new ManifestInvalid (MText "missing Content-Type")));
  kind ← st_lift (ok_or (classify_manifest_media_type content_type)
    (OciError.new ManifestInvalid (MText ("unsupported manifest media type `" ++ content_type ++ "`"))));
  parsed ← st_lift (ok_or (json_parse body)
    (OciError.new ManifestInvalid (MCat (MText "manifest is not valid JSON: ") (MJson body))));
  verify_referenced_blobs name parsed kind;;
  let digest := Digest.sha256_of body in
  st_lift (check_declared reference digest);;
  let referrer := build_referrer parsed digest content_type (zlen body) in
  call_with map_mutation_error (AppState.on_registry
    (put_manifest_with_referrer (registry_cfg cfg) name reference digest content_type body referrer));;
  mret (mkResponse 201
    (try_header "location" ("/v2/" ++ name ++ "/manifests/" ++ Digest.to_string digest) ++
     try_header "docker-content-digest" (Digest.to_string digest) ++
     match subject_digest parsed with
     | Some subj => try_header "oci-subject" subj
     | None => []
     end ++
     [("content-length", "0")]%string) BEmpty)).

Definition delete_manifest_handler (name reference_str : string) : stm (AppState St) OciError Response := into_response (
  st_lift (validate_name name);;
  reference ← st_lift (Reference.from_str reference_str);
  if Reference.is_tag reference
  then st_throw (OciError.with_status 405 (OciError.new Unsupported
    (MText "DELETE manifest by tag is not supported; use digest"))) else
  deleted ← call_with map_mutation_error (AppState.on_registry (delete_manifest (registry_cfg cfg) name reference));
  if (deleted : bool) then mret (mkResponse 202 [] BEmpty) else st_throw (manifest_not_found name reference_str)).

(** ** Listings *)

(** The [Link] header of a full page. *)
Definition link_header (prefix : string) (n : option Z) (page : list string) : headers :=
  match n, last page with
  | Some limit, Some last_entry =>
    if zlen page =? limit
    then try_header "link" ("<" ++ prefix ++ "?last=" ++ last_entry ++ "&n=" ++ display_u64 limit ++ ">; rel=" ++ quoted "next")
    else []
  | _, _ => []
  end.

Definition list_tags_handler (name : string) (params : gmap string string)
    : stm (AppState St) OciError Response := into_response (
  st_lift (validate_name name);;
  let n := params !! "n"%string ≫= parse_u64 in
  let last := params !! "last"%string in
  tags ← call (AppState.on_registry (list_tags name last (Z.to_nat <$> n)));
  mret (mkResponse 200 (link_header ("/v2/" ++ name ++ "/tags/list") n tags) (BTagList name tags))).

Definition list_catalog (params : gmap string string) : stm (AppState St) OciError Response := into_response (
  let n := params !! "n"%string ≫= parse_u64 in
  let last := params !! "last"%string in
  repos ← call (AppState.on_registry (list_repositories last (Z.to_nat <$> n)));
  mret (mkResponse 200 (link_header "/v2/_catalog" n repos) (BCatalog repos))).

Definition get_referrers (name digest_str : string) (params : gmap string string)
    : stm (AppState St) OciError Response := into_response (
  st_lift (validate_name name);;
  digest ← st_lift (parse_digest digest_str);
  let artifact_type := params !! "artifactType"%string in
  l ← call (AppState.on_registry (list_referrers name digest artifact_type));
  mret (mkResponse 200
    (("content-type"%string, OCI_IMAGE_INDEX) ::
     if bool_decide (is_Some artifact_type) then [("oci-filters-applied", "artifactType")]%string else [])
    (BReferrers l))).

Definition version_check : stm (AppState St) OciError Response :=
  mret (mkResponse 200 [("docker-distribution-api-version", "registry/2.0"); ("content-type", "application/json")]%string
    (BJson (JObject []))).

End Handlers.
