(* ===== verification/OciRouter.v ===== *)
(** * Routing

    Model of [crates/ferro-oci-server/src/router.rs] (module [dispatch] and
    [router]). Matching a path against the four route patterns, decoding it,
    and parsing the query string are axum's: a request carries the matched
    [Target]. Paths are byte strings that hold UTF-8, so a string slice can
    panic off a character boundary. *)

From S2P Require Import Prelude Str Frame Net Digest BlobStore OciError OciReference OciUpload OciRegistry Json Http OciHttp OciBlobHandlers OciManifestHandlers.

Local Open Scope Z_scope.

Definition MAX_BODY_BYTES : Z := 512 * 1024 * 1024.

Inductive Method := GET | HEAD | POST | PUT | PATCH | DELETE.

(** ** Splitting the path *)

Definition keywords : list string := ["blobs/"; "manifests/"; "tags/list"; "referrers/"]%string.

(** The loop over the remaining keywords. *)
Fixpoint split_loop {E} (kws : list string) (rest : string) : outcome E (option (string * string)) :=
  match kws with
  | [] => Ok None
  | kw :: kws =>
    match rfind kw rest with
    | None => split_loop kws rest
    | Some idx =>
      if (idx =? 0)%nat then Ok None else
      if negb (is_char_boundary (idx - 1) rest) then Panic else
      if negb (bool_decide (String.substring (idx - 1) 1 rest = "/"%string)) then split_loop kws rest else
      Ok (Some (str_take (idx - 1) rest, str_drop idx rest))
    end
  end.

Definition split_rest {E} (rest : string) : outcome E (option (string * string)) := split_loop keywords rest.

Definition decode (rest : string) : outcome OciError (string * string) :=
  o ← split_rest rest;
  ok_or o (OciError.new NameUnknown (MText ("cannot route `" ++ rest ++ "`"))).

(** ** Dispatch *)

Section Dispatch.
Context {St : Type} `{HB : BlobStore St} `{H : Hashing} `{C : SnapshotCodec} `{L : HttpLib} (cfg : AppConfig).

Definition unsupported_method : stm (AppState St) OciError Response :=
  into_response (st_throw (OciError.with_status 405 (OciError.new Unsupported (MText "unsupported method")))).

Definition dispatch_inner (env : ReqEnv) (name suffix : string) (method : Method) (hs : headers)
    (params : gmap string string) (body : bytes) : stm (AppState St) OciError Response :=
  if bool_decide (suffix = "tags/list"%string) then
    match method with GET => list_tags_handler name params | _ => unsupported_method end
  else match strip_prefix "referrers/" suffix with
  | Some rest => match method with GET => get_referrers name rest params | _ => unsupported_method end
  | None =>
    match strip_prefix "manifests/" suffix with
    | Some rest =>
      match method with
      | GET => get_manifest_handler name rest hs
      | HEAD => head_manifest name rest
      | PUT => put_manifest_handler cfg name rest hs body
      | DELETE => delete_manifest_handler cfg name rest
      | _ => unsupported_method
      end
    | None =>
      match strip_prefix "blobs/uploads/" suffix with
      | Some rest =>
        let uuid := trim_end_matches "/" rest in
        match method with
        | POST => init_upload cfg env name params body
        | PATCH => patch_upload cfg env name uuid hs body
        | PUT => finish_upload cfg env name uuid params body
        | GET => get_upload_status cfg env name uuid
        | DELETE => cancel_upload_handler name uuid
        | HEAD => unsupported_method
        end
      | None =>
        match strip_prefix "blobs/" suffix with
        | Some rest =>
          match method with
          | GET => get_blob name rest
          | HEAD => head_blob name rest
          | DELETE => delete_blob name rest
          | _ => unsupported_method
          end
        | None =>
          into_response (st_throw (OciError.new NameUnknown (MText ("cannot route `" ++ name ++ "/" ++ suffix ++ "`"))))
        end
      end
    end
  end.

(** A dispatcher: decode the path, then [dispatch_inner]. *)
Definition dispatch (env : ReqEnv) (rest : string) (method : Method) (hs : headers)
    (params : gmap string string) (body : bytes) : stm (AppState St) OciError Response := into_response (
  '(name, suffix) ← st_lift (decode rest);
  dispatch_inner env name suffix method hs params body).

Definition dispatch_get env rest params hs := dispatch env rest GET hs params [].
Definition dispatch_head env rest hs := dispatch env rest HEAD hs ∅ [].
Definition dispatch_delete env rest hs := dispatch env rest DELETE hs ∅ [].
Definition dispatch_post env rest params hs body := dispatch env rest POST hs params body.
Definition dispatch_patch_inner env rest hs body := dispatch env rest PATCH hs ∅ body.
Definition dispatch_put_inner env rest params hs body := dispatch env rest PUT hs params body.

(** ** The router *)

Inductive Target := TVersion | TCatalog | TRest (rest : string).

Record Request := mkRequest {
  rq_method : Method;
  rq_target : Target;
  rq_params : gmap string string;
  rq_headers : headers;
  rq_body : bytes;
  rq_env : ReqEnv;
}.

(** axum answers a [HEAD] on a [get] route with the headers alone, a method
    the route lacks with 405, and a body over the limit with 413. *)
Definition headers_only (m : stm (AppState St) OciError Response) : stm (AppState St) OciError Response :=
  r ← m; mret (mkResponse (status r) (resp_headers r) BEmpty).

Definition method_not_allowed : stm (AppState St) OciError Response := mret (mkResponse 405 [] BEmpty).

(** The [Bytes] extractor under [DefaultBodyLimit::max(MAX_BODY_BYTES)]. *)
Definition with_body (body : bytes) (k : bytes -> stm (AppState St) OciError Response)
    : stm (AppState St) OciError Response :=
  if MAX_BODY_BYTES <? zlen body then mret (mkResponse 413 [] BEmpty) else k body.

Definition on_get (method : Method) (m : stm (AppState St) OciError Response) : stm (AppState St) OciError Response :=
  match method with GET => m | HEAD => headers_only m | _ => method_not_allowed end.

Definition router (q : Request) : stm (AppState St) OciError Response :=
  match rq_target q with
  | TVersion => on_get (rq_method q) version_check
  | TCatalog => on_get (rq_method q) (list_catalog (rq_params q))
  | TRest rest =>
    match rq_method q with
    | GET => dispatch_get (rq_env q) rest (rq_params q) (rq_headers q)
    | HEAD => dispatch_head (rq_env q) rest (rq_headers q)
    | DELETE => dispatch_delete (rq_env q) rest (rq_headers q)
    | POST => with_body (rq_body q) (dispatch_post (rq_env q) rest (rq_params q) (rq_headers q))
    | PATCH => with_body (rq_body q) (dispatch_patch_inner (rq_env q) rest (rq_headers q))
    | PUT => with_body (rq_body q) (dispatch_put_inner (rq_env q) rest (rq_params q) (rq_headers q))
    end
  end.

End Dispatch.
