(* ===== verification/OciServer.v ===== *)
(** * The server's invariant

    One triple ([st_safe]) per method of the metadata plane and of the blob
    store, and from them one per handler: every
    request keeps the invariant [app_ok] and is answered. The handlers are
    verified against [BlobStoreLaws], so the results hold over the in-memory
    and the filesystem store alike. *)

From S2P Require Import Prelude Str Frame Net Fs Digest BlobStore OciError OciReference OciUpload OciRegistry OciRegistryProps OciRegistrySteps Json Http OciHttp OciBlobHandlers OciManifestHandlers OciRouter.

Local Open Scope Z_scope.

(** ** The metadata plane *)

Section Registry.
Context `{H : Hashing} {HL : HashingLaws H} `{C : SnapshotCodec} (cfg : RegistryConfig) (cap : Z).

(** A snapshot path as [with_persistence] builds it. *)
Definition config_ok : Prop :=
  match persist_path cfg with Some p => exists dir, p = dir ++ [METADATA_FILE_NAME] | None => True end.

(** No session buffers more than [cap] bytes. *)
Definition sessions_capped (r : Registry) : Prop :=
  map_Forall (fun _ (s : UploadState) => UploadState.offset s <= cap) (uploads (inner r)).

Definition reg_ok (r : Registry) : Prop := registry_ok cfg r /\ sessions_capped r.

Lemma persist_total st w : config_ok -> snd (persist_locked cfg st w) <> Panic.
Proof.
  unfold config_ok, persist_locked. destruct (persist_path cfg) as [p|]; [|discriminate].
  intros (dir & ->). destruct (write_snapshot_atomic _ _ w) as [w' o] eqn:E.
  exact (proj1 (write_snapshot_spec dir _ _ _ _ E)).
Qed.

(** A step that leaves the sessions alone keeps the invariant. *)
Lemma safe_same_sessions {A} (m : stm Registry BlobStoreError A) (Q : A -> Prop) :
  (forall r, registry_call cfg r (fst (m r))) ->
  (forall r, registry_ok cfg r -> uploads (inner (fst (m r))) = uploads (inner r)) ->
  (forall r, registry_ok cfg r -> match snd (m r) with Ok a => Q a | Err _ => True | Panic => False end) ->
  st_safe reg_ok m Q.
Proof using HL C.
  intros Hc Hu Hq r [Hr Hs]. split; [|exact (Hq r Hr)]. split; [exact (call_ok cfg _ _ Hr (Hc r))|].
  unfold sessions_capped. rewrite Hu by exact Hr. exact Hs.
Qed.

Lemma safe_get_manifest name reference :
  st_safe reg_ok (get_manifest name reference)
    (fun o => forall d mt b, o = Some (d, mt, b) -> d = Digest.sha256_of b).
Proof using HL C.
  assert (Hsame : forall r, fst (get_manifest name reference r) = r)
    by (intros r; unfold get_manifest; run_st; repeat case_match; reflexivity).
  apply safe_same_sessions; [intros r|intros r _; rewrite Hsame; reflexivity|intros r [Hst _]].
  - eapply (call_get cfg r _ name reference), surjective_pairing.
  - unfold get_manifest. run_st. destruct (manifests (inner r) !! name) as [nm|] eqn:Hn; [|discriminate].
    destruct (match reference with RDigest d => Some (Digest.to_string d) | Tag t => _ end) as [ds|]; [|discriminate].
    destruct (nm !! ds) as [[mt b]|] eqn:Hd; [|discriminate].
    rewrite (Hst _ _ _ _ _ Hn Hd). cbn. intros d mt' b' [= <- <- <-]. reflexivity.
Qed.

Lemma safe_put_manifest name reference mt body referrer : config_ok ->
  st_safe reg_ok (put_manifest_with_referrer cfg name reference (Digest.sha256_of body) mt body referrer) (fun _ => True).
Proof using HL C.
  intros Hcfg. apply safe_same_sessions.
  - intros r. eapply call_put, surjective_pairing.
  - intros r [Hst _]. eapply put_content; [exact Hst|apply surjective_pairing].
  - intros r _. rewrite put_eq. cbv zeta.
    pose proof (persist_total (apply_put name reference (Digest.to_string (Digest.sha256_of body)) mt body referrer (inner r)) (world r) Hcfg).
    destruct (persist_locked cfg _ (world r)) as [w [[]|e|]]; cbn in *; auto.
Qed.

Lemma safe_delete_manifest name reference : config_ok ->
  st_safe reg_ok (delete_manifest cfg name reference) (fun _ => True).
Proof using HL C.
  intros Hcfg. apply safe_same_sessions.
  - intros r. eapply call_delete, surjective_pairing.
  - intros r [Hst _]. eapply delete_content; [exact Hst|apply surjective_pairing].
  - intros r _. destruct reference as [t|d]; [exact I|].
    destruct (manifests (inner r) !! name) as [nm|] eqn:Hnm;
      [|unfold delete_manifest; run_st; rewrite Hnm; exact I].
    destruct (nm !! Digest.to_string d) as [rm|] eqn:Hrm;
      [|unfold delete_manifest; run_st; rewrite Hnm, Hrm; exact I].
    rewrite (delete_eq_registry cfg name d nm rm r Hnm Hrm). cbv zeta.
    pose proof (persist_total (apply_delete name (Digest.to_string d) (inner r)) (world r) Hcfg).
    destruct (persist_locked cfg _ (world r)) as [w [[]|e|]]; cbn in *; auto.
Qed.

Lemma safe_list_tags name last n : st_safe reg_ok (list_tags name last n) (fun _ => True).
Proof using HL C.
  apply safe_same_sessions; intros r; [eapply call_list_tags, surjective_pairing|..];
    unfold list_tags; run_st; destruct (tags (inner r) !! name); cbn; auto.
Qed.

Lemma safe_list_repositories last n : st_safe reg_ok (list_repositories last n) (fun _ => True).
Proof using HL C. apply safe_same_sessions; intros r; [eapply call_list_repositories, surjective_pairing|..]; unfold list_repositories; run_st; cbn; auto. Qed.

Lemma safe_list_referrers name d at_ : st_safe reg_ok (list_referrers name d at_) (fun _ => True).
Proof using HL C.
  apply safe_same_sessions; intros r; [eapply call_list_referrers, surjective_pairing|..];
    unfold list_referrers; run_st; destruct (referrers (inner r) !! name) as [m|]; cbn; auto;
    destruct (m !! Digest.to_string d); cbn; auto.
Qed.

(** A step on the sessions alone: the capped buffers are what is left to show. *)
Lemma safe_sessions {A} (m : stm Registry BlobStoreError A) (Q : A -> Prop) :
  (forall r, registry_call cfg r (fst (m r))) ->
  (forall r, sessions_capped r -> sessions_capped (fst (m r)) /\
     match snd (m r) with Ok a => Q a | Err _ => True | Panic => False end) ->
  st_safe reg_ok m Q.
Proof using HL C.
  intros Hc Hm r [Hr Hs]. destruct (Hm r Hs) as [H1 H2]. split; [|exact H2]. split; [exact (call_ok cfg _ _ Hr (Hc r))|exact H1].
Qed.

Lemma capped_insert (k : string * string) (s : UploadState) (u : gmap (string * string) UploadState) :
  UploadState.offset s <= cap -> map_Forall (fun _ (s : UploadState) => UploadState.offset s <= cap) u ->
  map_Forall (fun _ (s : UploadState) => UploadState.offset s <= cap) (<[k := s]> u).
Proof. intros. apply map_Forall_insert_2; assumption. Qed.

Lemma capped_delete (k : string * string) (u : gmap (string * string) UploadState) :
  map_Forall (fun _ (s : UploadState) => UploadState.offset s <= cap) u -> map_Forall (fun _ s => UploadState.offset s <= cap) (delete k u).
Proof. apply map_Forall_delete. Qed.

Lemma safe_start_upload now uuid name : 0 <= cap -> st_safe reg_ok (start_upload cfg now uuid name) (fun _ => True).
Proof using HL C.
  intros Hcap. apply safe_sessions; [intros r; eapply call_start, surjective_pairing|]. intros r Hs.
  unfold start_upload, sweep_idle_uploads. run_st. cbn [fst].
  assert (Hf : map_Forall (fun _ (s : UploadState) => UploadState.offset s <= cap) (filter (fun x : _ * UploadState =>
      UploadState.is_idle_for now (idle_ttl (limits cfg)) (snd x) = false) (uploads (inner r)))).
  { intros k s (Hk & _)%map_lookup_filter_Some. exact (Hs k s Hk). }
  case_match; cbn; (split; [|exact I]); [exact Hf|]. apply capped_insert; [exact Hcap|exact Hf].
Qed.

(** The one place where a buffer grows: the chunk was checked against the
    offset that the append itself re-checks. *)
Lemma safe_append_upload now name uuid offset chunk : offset + zlen chunk <= cap ->
  st_safe reg_ok (append_upload now name uuid offset chunk) (fun n => n = offset + zlen chunk).
Proof using HL C.
  intros Hcap. apply safe_sessions; [intros r; eapply call_append, surjective_pairing|]. intros r Hs.
  unfold append_upload. run_st. destruct (uploads (inner r) !! (name, uuid)) as [s|] eqn:E; [|cbn; auto].
  destruct (Z.eqb_spec offset (UploadState.offset s)) as [->|]; cbn; [|auto].
  unfold UploadState.offset in *. cbn. rewrite zlen_app. split; [|reflexivity].
  apply capped_insert; [|exact Hs]. unfold UploadState.offset. cbn. rewrite zlen_app. exact Hcap.
Qed.

Lemma safe_complete_upload name uuid d : st_safe reg_ok (complete_upload name uuid d) (fun _ => True).
Proof using HL C.
  apply safe_sessions; [intros r; eapply (call_complete cfg r _ name uuid d), surjective_pairing|]. intros r Hs.
  split; [apply capped_delete, Hs|exact I].
Qed.

Lemma safe_get_upload_state now name uuid :
  st_safe reg_ok (get_upload_state cfg now name uuid) (fun o => forall s, o = Some s -> UploadState.offset s <= cap).
Proof using HL C.
  apply safe_sessions; [intros r; eapply call_state, surjective_pairing|]. intros r Hs.
  unfold get_upload_state. run_st. destruct (uploads (inner r) !! (name, uuid)) as [s|] eqn:E; [|cbn; split; [exact Hs|discriminate]].
  case_match; cbn; (split; [|]); [apply capped_delete, Hs|discriminate|exact Hs|].
  intros s' [= <-]. exact (Hs _ _ E).
Qed.

Lemma safe_cancel_upload name uuid : st_safe reg_ok (cancel_upload name uuid) (fun _ => True).
Proof using HL C.
  apply safe_sessions; [intros r; eapply (call_cancel cfg r _ name uuid), surjective_pairing|]. intros r Hs.
  split; [apply capped_delete, Hs|exact I].
Qed.

Lemma safe_take_upload_bytes name uuid : 0 <= cap -> st_safe reg_ok (take_upload_bytes name uuid) (fun _ => True).
Proof using HL C.
  intros Hcap. apply safe_sessions; [intros r; eapply (call_take cfg r _ name uuid), surjective_pairing|]. intros r Hs.
  unfold take_upload_bytes. run_st. destruct (uploads (inner r) !! (name, uuid)) as [s|]; [|cbn; auto]. cbn.
  split; [|exact I]. apply capped_insert; [exact Hcap|exact Hs].
Qed.

End Registry.

#[export] Hint Resolve safe_get_manifest safe_put_manifest safe_delete_manifest safe_list_tags safe_list_repositories
  safe_list_referrers safe_start_upload safe_append_upload safe_complete_upload safe_get_upload_state
  safe_cancel_upload safe_take_upload_bytes : safe.

(** ** The application state *)

Definition config_valid (cfg : AppConfig) : Prop :=
  config_ok (registry_cfg cfg) /\ 0 <= max_upload_session_bytes cfg < U64_MAX.

(** A body with the digest the response advertises for it: the digest of the
    complete blob or manifest, of which a 206 carries a part. The payload of
    the empty descriptor is served under its well-known digest. *)
Definition content_response `{Hashing} (r : Response) : Prop :=
  forall b, resp_body r = BBytes b ->
  exists d full lo, Digest.valid d /\ b = take (length b) (drop lo full) /\ (status r = 200 -> b = full) /\
    (matches d full \/ Digest.to_string d = OCI_EMPTY_DESCRIPTOR_DIGEST /\ full = OCI_EMPTY_DESCRIPTOR_BYTES) /\
    (forall v, ("docker-content-digest"%string, v) ∈ resp_headers r -> v = Digest.to_string d).

Section App.
Context {St : Type} `{HB : BlobStore St} `{H : Hashing} {HL : HashingLaws H} {BL : BlobStoreLaws St}
  `{C : SnapshotCodec} `{L : HttpLib} (cfg : AppConfig).

Record app_ok (a : AppState St) : Prop := {
  app_store : bs_ok (blob_store a);
  app_registry : reg_ok (registry_cfg cfg) (max_upload_session_bytes cfg) (registry a);
}.

Lemma safe_on_store {A} (m : stm St BlobStoreError A) (Q : A -> Prop) :
  st_safe bs_ok m Q -> st_safe app_ok (AppState.on_store m) Q.
Proof.
  intros Hm a [Hs Hr]. destruct (Hm _ Hs) as [H1 H2]. unfold AppState.on_store.
  destruct (m (blob_store a)) as [s r]. split; [split; assumption|exact H2].
Qed.

Lemma safe_on_registry {A} (m : stm Registry BlobStoreError A) (Q : A -> Prop) :
  st_safe (reg_ok (registry_cfg cfg) (max_upload_session_bytes cfg)) m Q -> st_safe app_ok (AppState.on_registry m) Q.
Proof.
  intros Hm a [Hs Hr]. destruct (Hm _ Hr) as [H1 H2]. unfold AppState.on_registry.
  destruct (m (registry a)) as [s r]. split; [split; assumption|exact H2].
Qed.

Lemma safe_call_with {A} (f : BlobStoreError -> OciError) (m : stm (AppState St) BlobStoreError A) (Q : A -> Prop) :
  st_safe app_ok m Q -> st_safe app_ok (call_with f m) Q.
Proof.
  intros Hm a Ha. destruct (Hm a Ha) as [H1 H2]. unfold call_with. destruct (m a) as [a' [x|e|]]; auto.
Qed.

Lemma safe_call {A} (m : stm (AppState St) BlobStoreError A) (Q : A -> Prop) :
  st_safe app_ok m Q -> st_safe app_ok (call m) Q.
Proof. apply safe_call_with. Qed.

Lemma safe_ignore {A} (m : stm (AppState St) BlobStoreError A) (Q : A -> Prop) :
  st_safe app_ok m Q -> st_safe app_ok (ignore m) (fun _ => True).
Proof. intros Hm a Ha. destruct (Hm a Ha) as [H1 H2]. unfold ignore. destruct (m a) as [a' [x|e|]]; cbn in *; auto. Qed.

Lemma safe_into_response (m : stm (AppState St) OciError Response) :
  st_safe app_ok m content_response -> st_safe app_ok (into_response m) content_response.
Proof.
  intros Hm a Ha. destruct (Hm a Ha) as [H1 H2]. unfold into_response. destruct (m a) as [a' [x|e|]]; auto.
  split; [exact H1|]. intros b Hb. discriminate Hb.
Qed.

(** ** Blob-store calls *)

Lemma safe_bs_put d b : Digest.valid d -> st_safe bs_ok (bs_put d b) (fun _ => True).
Proof using BL.
  intros Hd s Hs. split; [apply put_keeps_ok; assumption|].
  pose proof (put_total s d b Hs Hd). destruct (snd (bs_put d b s)); auto.
Qed.

Lemma safe_bs_get d : Digest.valid d -> st_safe bs_ok (bs_get d) (fun b => matches d b).
Proof using BL.
  intros Hd s Hs. destruct (get_spec s d Hs Hd) as (H1 & _ & H3). split; [exact H1|].
  destruct (snd (bs_get d s)); auto. exact (bs_sound s d a Hs Hd H3).
Qed.

Lemma safe_bs_contains d : Digest.valid d -> st_safe bs_ok (bs_contains d) (fun _ => True).
Proof using BL.
  intros Hd s Hs. destruct (contains_spec s d Hs Hd) as (H1 & _ & H3). split; [exact H1|].
  destruct (snd (bs_contains d s)); auto.
Qed.

Lemma safe_bs_delete d : Digest.valid d -> st_safe bs_ok (bs_delete d) (fun _ => True).
Proof using BL.
  intros Hd s Hs. destruct (delete_spec s d Hs Hd) as (H1 & _ & H3). split; [exact H1|].
  destruct (snd (bs_delete d s)); auto.
Qed.

Lemma safe_store_blob_counted d b : Digest.valid d -> st_safe app_ok (AppState.store_blob_counted d b) (fun _ => True).
Proof using BL.
  intros Hd. unfold AppState.store_blob_counted. apply safe_bind with (fun _ => True).
  - intros a Ha. destruct (safe_on_store _ _ (safe_bs_contains d Hd) a Ha) as [H1 H2].
    unfold AppState.contains_or_false. destruct (AppState.on_store (bs_contains d) a) as [a' [x|e|]]; auto.
  - intros x _. eapply safe_bind; [apply safe_on_store, safe_bs_put, Hd|]. intros _ _.
    destruct (negb x); intros a [Hs Hr]; (split; [split; assumption|exact I]).
Qed.

Lemma safe_dec_blob_count : st_safe app_ok (AppState.dec_blob_count (S := St)) (fun _ => True).
Proof. intros a [Hs Hr]. split; [split; assumption|exact I]. Qed.

(** ** Parsers *)

Lemma safe_validate_name name : st_safe app_ok (st_lift (validate_name name)) (fun _ => True).
Proof. apply safe_lift; [apply validate_name_total|auto]. Qed.

Lemma safe_parse_digest s : st_safe app_ok (st_lift (parse_digest s)) (fun d => Digest.valid d /\ Digest.from_str s = Ok d).
Proof.
  unfold parse_digest. pose proof (Digest.from_str_total s) as Ht. pose proof (Digest.from_str_valid s) as Hv.
  apply safe_lift; destruct (Digest.from_str s); cbn; try discriminate; [contradiction|].
  intros d [= <-]. auto.
Qed.

Lemma safe_from_str (f : DigestParseError -> OciError) s :
  st_safe app_ok (st_lift (map_err f (Digest.from_str s))) (fun d => Digest.valid d).
Proof.
  pose proof (Digest.from_str_total s) as Ht. pose proof (Digest.from_str_valid s) as Hv.
  apply safe_lift; destruct (Digest.from_str s); cbn; try discriminate; [contradiction|].
  intros d [= <-]. auto.
Qed.

Lemma safe_ok_or {A} (o : option A) (e : OciError) : st_safe app_ok (st_lift (ok_or o e)) (fun a => o = Some a).
Proof. apply safe_lift; destruct o; cbn; congruence. Qed.

Lemma safe_reference s : st_safe app_ok (st_lift (Reference.from_str s)) (fun _ => True).
Proof. apply safe_lift; [apply reference_parse_total|auto]. Qed.

Lemma safe_reference_or name s : st_safe app_ok (st_lift (reference_or_not_found name s)) (fun _ => True).
Proof.
  pose proof (reference_parse_total s). apply safe_lift; [|auto]. unfold reference_or_not_found.
  destruct (Reference.from_str s); cbn; [discriminate|discriminate|contradiction].
Qed.

(** A response without bytes says nothing about a digest. *)
Lemma no_bytes r : (forall b, resp_body r <> BBytes b) -> content_response r.
Proof. intros Hr b Hb. destruct (Hr b Hb). Qed.

End App.

#[export] Hint Resolve safe_on_store safe_on_registry safe_call safe_call_with safe_ignore safe_into_response safe_bs_put
  safe_bs_get safe_bs_contains safe_bs_delete safe_store_blob_counted safe_dec_blob_count safe_validate_name
  safe_parse_digest safe_from_str safe_ok_or safe_reference safe_reference_or : safe.
