(* ===== verification/OciMetaImpl.v ===== *)
(** * The in-memory registry implements the metadata plane

    [InMemoryRegistryMeta] of [crates/ferro-oci-server/src/registry.rs] as an
    instance of the interface of [OciMeta], and the proof of its contract: with or
    without a snapshot file, whatever the disk does, each call is a step of the
    plain catalogue, and a mutation fails only if a system call of its snapshot
    write does or the directory cannot hold the snapshot. *)

From S2P Require Import Prelude Str Frame Net Fs Digest BlobStore OciError OciReference OciUpload OciRegistry.
From S2P Require Import OciRegistryProps OciRegistrySteps OciListing OciMeta OciServer.

Local Open Scope Z_scope.

(** A registry with the configuration it was built with. *)
Section Instance.
Context `{H : Hashing} `{C : SnapshotCodec} (cfg : RegistryConfig).

#[export] Instance InMemoryRegistryMeta : RegistryMeta Registry := {
  rm_put_manifest := put_manifest cfg;
  rm_put_manifest_with_referrer := put_manifest_with_referrer cfg;
  rm_get_manifest := get_manifest;
  rm_delete_manifest := delete_manifest cfg;
  rm_list_tags := list_tags;
  rm_list_repositories := list_repositories;
  rm_start_upload := start_upload cfg;
  rm_append_upload := append_upload;
  rm_complete_upload := complete_upload;
  rm_get_upload_state := get_upload_state cfg;
  rm_cancel_upload := cancel_upload;
  rm_list_referrers := list_referrers;
  rm_take_upload_bytes := take_upload_bytes;
  rm_register_referrer := register_referrer cfg;
}.

End Instance.

(** The catalogue a state stands for: nested maps as one map of pairs, without
    empty inner maps and empty lists. *)
Definition flat {A} (m : gmap string (gmap string A)) : gmap (string * string) A :=
  map_uncurry (M1 := gmap string) (M2 := gmap string) (M12 := gmap (string * string)) m.

Definition session_of (u : UploadState) : Session := mkSession (up_buffer u) (last_activity u).

Definition plane_of (st : InMemoryState) : Plane :=
  mkPlane (flat (manifests st)) (flat (tags st)) (omap nonempty_list (flat (referrers st))) (session_of <$> uploads st).

(** The directory can take the next snapshot: none of the system calls of the
    write (create, write, sync, rename, open and sync the directory) is going to
    fail, the directory is there, the snapshot's name is not a directory's, and the
    temporary name is free. *)
Record disk_ready (p : path) (w : World) : Prop := {
  dr_calls : Forall (fun x => x = None) (take 6 (faults (w_fs w)));
  dr_dir : Fs.is_dir_in (disk_of w) (Fs.parent p) = true;
  dr_target : Fs.is_dir_in (disk_of w) p = false;
  dr_tmp : disk_of w !! (Fs.parent p ++ [snapshot_tmp_name (w_pid w) (tmp_counter w)]) = None
}.

(** A registry without a snapshot file is always ready. *)
Definition can_persist (cfg : RegistryConfig) (r : Registry) : Prop :=
  match persist_path cfg with Some p => disk_ready p (world r) | None => True end.

(** Every key is the text of a digest. *)
Definition keys_parse (p : Plane) : Prop :=
  forall name ds x, p_manifests p !! (name, ds) = Some x -> exists d, Digest.from_str ds = Ok d.

(** ** Lemmas: nested maps *)

Lemma flat_lookup {A} (m : gmap string (gmap string A)) n k : flat m !! (n, k) = m !! n ≫= (.!! k).
Proof. apply lookup_map_uncurry. Qed.

Lemma flat_or_default {A} (m : gmap string (gmap string A)) n k : or_default m n !! k = flat m !! (n, k).
Proof. rewrite flat_lookup. unfold or_default. destruct (m !! n); [reflexivity|]. cbn. apply lookup_empty. Qed.

Lemma flat_ext {A} (m m' : gmap string (gmap string A)) :
  (forall n k, m !! n ≫= (.!! k) = m' !! n ≫= (.!! k)) -> flat m = flat m'.
Proof. intros Hm. apply map_eq. intros [n k]. rewrite !flat_lookup. apply Hm. Qed.

Lemma flat_insert {A} (m : gmap string (gmap string A)) n k x :
  flat (<[n := <[k := x]> (or_default m n)]> m) = <[(n, k) := x]> (flat m).
Proof.
  apply map_eq. intros [n' k']. rewrite flat_lookup. destruct (decide (n = n')) as [<-|Hn].
  - rewrite lookup_insert_eq. cbn. destruct (decide (k = k')) as [<-|Hk]; [rewrite !lookup_insert_eq; reflexivity|].
    rewrite !lookup_insert_ne by congruence. apply flat_or_default.
  - rewrite !lookup_insert_ne by congruence. rewrite flat_lookup. reflexivity.
Qed.

Lemma flat_prune {A} name (m : gmap string (gmap string A)) : flat (prune_empty name m) = flat m.
Proof.
  apply flat_ext. intros n k. unfold prune_empty. destruct (m !! name) as [x|] eqn:Hx; [|reflexivity].
  case_decide as Hd; [|reflexivity]. subst x. destruct (decide (n = name)) as [->|Hn].
  - rewrite lookup_delete_eq, Hx. cbn. rewrite lookup_empty. reflexivity.
  - rewrite lookup_delete_ne by congruence. reflexivity.
Qed.

Lemma flat_alter_lookup {A} (f : gmap string A -> gmap string A) name (m : gmap string (gmap string A)) n k :
  flat (alter f name m) !! (n, k) = if decide (n = name) then (f <$> m !! name) ≫= (.!! k) else flat m !! (n, k).
Proof.
  rewrite !flat_lookup. case_decide as Hn; [subst n; rewrite lookup_alter_eq; destruct (m !! name); reflexivity|].
  rewrite lookup_alter_ne by congruence. reflexivity.
Qed.

(** ** Lemmas: referrer lists *)

Definition refs (m : referrer_map) (n s : string) : list ReferrerDescriptor := default [] (m !! n ≫= (.!! s)).

Lemma refs_lookup m n s : omap nonempty_list (flat m) !! (n, s) = nonempty_list (refs m n s).
Proof. rewrite lookup_omap, flat_lookup. unfold refs. destruct (m !! n ≫= (.!! s)); reflexivity. Qed.

Lemma refs_default m n s : default [] (omap nonempty_list (flat m) !! (n, s)) = refs m n s.
Proof. rewrite refs_lookup. destruct (refs m n s); reflexivity. Qed.

Lemma refs_ext m m' : (forall n s, refs m n s = refs m' n s) -> omap nonempty_list (flat m) = omap nonempty_list (flat m').
Proof. intros Hm. apply map_eq. intros [n s]. rewrite !refs_lookup, Hm. reflexivity. Qed.

Lemma refs_push name subject d m n s :
  refs (push_referrer name subject d m) n s =
  if decide (n = name /\ s = subject) then refs m n s ++ [d] else refs m n s.
Proof.
  assert (Hr : forall s, default [] (or_default m name !! s) = refs m name s)
    by (intros s'; rewrite flat_or_default, flat_lookup; reflexivity).
  unfold refs at 1, push_referrer. destruct (decide (n = name)) as [->|Hn].
  - rewrite lookup_insert_eq. cbn. destruct (decide (s = subject)) as [->|Hs].
    + rewrite lookup_insert_eq, decide_True by auto. cbn. rewrite Hr. reflexivity.
    + rewrite lookup_insert_ne, decide_False by (congruence || tauto). apply Hr.
  - rewrite lookup_insert_ne, decide_False by (congruence || tauto). reflexivity.
Qed.

Lemma push_view name subject d m :
  omap nonempty_list (flat (push_referrer name subject d m)) =
  <[(name, subject) := refs m name subject ++ [d]]> (omap nonempty_list (flat m)).
Proof.
  apply map_eq. intros [n s]. rewrite refs_lookup, refs_push. case_decide as Hd.
  - destruct Hd as [-> ->]. rewrite lookup_insert_eq. destruct (refs m name subject); reflexivity.
  - rewrite lookup_insert_ne, refs_lookup by (intros [= -> ->]; tauto). reflexivity.
Qed.

Lemma refs_pop_push name subject d m n s :
  refs (pop_referrer name subject (push_referrer name subject d m)) n s = refs m n s.
Proof.
  unfold pop_referrer, push_referrer. rewrite !lookup_insert_eq, length_app, Nat.add_1_r. cbn [pred].
  rewrite take_app_length, insert_insert_eq. unfold refs. destruct (decide (n = name)) as [->|Hn];
    [|rewrite lookup_insert_ne by congruence; reflexivity].
  rewrite lookup_insert_eq. cbn.
  assert (Hr : forall s, m !! name ≫= (.!! s) = or_default m name !! s)
    by (intros s'; rewrite flat_or_default, flat_lookup; reflexivity).
  rewrite Hr. destruct (decide (s = subject)) as [->|Hs].
  - case_decide as Hd; [rewrite lookup_delete_eq|rewrite insert_insert_eq, lookup_insert_eq]; cbn; [symmetry; exact Hd|reflexivity].
  - case_decide; [rewrite lookup_delete_ne, lookup_insert_ne by congruence|rewrite !lookup_insert_ne by congruence]; reflexivity.
Qed.

Lemma prune_view name m : omap nonempty_list (flat (prune_empty name m)) = omap nonempty_list (flat m).
Proof. rewrite flat_prune. reflexivity. Qed.

(** ** Lemmas: what the mutations do to the catalogue *)

Lemma plane_put_view name reference d mt body referrer st :
  plane_of (apply_put name reference (Digest.to_string d) mt body referrer st) =
  plane_put name reference d mt body referrer (plane_of st).
Proof.
  unfold plane_of, apply_put, plane_put. cbn [manifests tags uploads referrers]. rewrite flat_insert.
  destruct reference as [t|d'], referrer as [[subject rd]|]; unfold plane_register, referrers_of;
    cbn [p_manifests p_tags p_referrers p_sessions]; rewrite ?flat_insert, ?push_view, ?refs_default; reflexivity.
Qed.

Lemma rollback_put_view name reference d mt body referrer st :
  plane_of (rollback_put name reference d (or_default (manifests st) name !! d)
    (match reference with Tag tag => or_default (tags st) name !! tag | RDigest _ => None end) referrer
    (apply_put name reference d mt body referrer st)) = plane_of st.
Proof.
  unfold rollback_put, apply_put, prune_empty_repo, plane_of. cbn [manifests tags uploads referrers]. f_equal.
  - rewrite restore_insert. apply flat_prune.
  - destruct reference; [rewrite restore_insert|]; apply flat_prune.
  - rewrite prune_view. destruct referrer as [[subject rd]|]; [|reflexivity]. apply refs_ext. intros n s. apply refs_pop_push.
Qed.

Lemma register_view name subject d st :
  plane_of (mkState (manifests st) (tags st) (uploads st) (push_referrer name (Digest.to_string subject) d (referrers st))) =
  plane_register name subject d (plane_of st).
Proof.
  unfold plane_of, plane_register, referrers_of. cbn [manifests tags uploads referrers p_manifests p_tags p_referrers p_sessions].
  rewrite push_view, refs_default. reflexivity.
Qed.

Lemma refs_pruned name ds m n s :
  refs (alter (prune_subjects ds) name m) n s =
  if decide (n = name) then filter (fun d => Digest.to_string (rd_digest d) <> ds) (refs m n s) else refs m n s.
Proof.
  unfold refs. case_decide as Hn; [subst n; rewrite lookup_alter_eq|rewrite lookup_alter_ne by congruence; reflexivity].
  destruct (m !! name) as [sm|]; cbn; [|reflexivity]. rewrite prune_subjects_lookup.
  destruct (sm !! s) as [l|]; cbn; [|reflexivity]. rewrite pruned_filter. unfold id.
  case_decide as Hd; [symmetry; exact Hd|reflexivity].
Qed.

Lemma delete_view name ds st : plane_of (apply_delete name ds st) = plane_delete name ds (plane_of st).
Proof.
  unfold plane_of, apply_delete, plane_delete. cbn [manifests tags uploads referrers p_manifests p_tags p_referrers p_sessions].
  f_equal; apply map_eq; intros [n k].
  - rewrite flat_alter_lookup. case_decide as Hn; [subst n|rewrite lookup_delete_ne by congruence; reflexivity].
    destruct (decide (k = ds)) as [->|Hk]; [rewrite lookup_delete_eq|rewrite lookup_delete_ne, flat_lookup by congruence];
      destruct (manifests st !! name) as [nm|]; cbn; [apply lookup_delete_eq|reflexivity|apply lookup_delete_ne; congruence|reflexivity].
  - rewrite flat_alter_lookup, map_lookup_filter, !flat_lookup. case_decide as Hn.
    + subst n. destruct (tags st !! name) as [m|]; cbn; [|reflexivity]. rewrite map_lookup_filter.
      destruct (m !! k) as [x|]; cbn; [|reflexivity]. unfold guard. repeat case_decide; cbn in *; tauto || reflexivity.
    + destruct (tags st !! n ≫= (.!! k)) as [x|]; cbn; [|reflexivity]. unfold guard. case_decide; cbn in *; tauto || reflexivity.
  - rewrite refs_lookup, refs_pruned, map_lookup_imap, refs_lookup. cbn [fst]. case_decide; [|destruct (refs _ n k); reflexivity].
    unfold without. destruct (refs (referrers st) n k) as [|x l]; [reflexivity|]. cbn [nonempty_list mbind option_bind].
    set (f := filter _ (x :: l)). destruct f; reflexivity.
Qed.

Lemma refs_restored name ds m n s :
  let rrefs := match m !! name with Some sm => removed_referrers ds sm | None => [] end in
  let m' := alter (prune_subjects ds) name m in
  refs (if decide (rrefs = []) then m' else <[name := fold_left reinsert (rev rrefs) (or_default m' name)]> m') n s = refs m n s.
Proof.
  cbv zeta. destruct (m !! name) as [sm|] eqn:Hn.
  - assert (Hs : default [] (fold_left reinsert (rev (removed_referrers ds sm)) (prune_subjects ds sm) !! s) = default [] (sm !! s)).
    { rewrite restore_subjects_lookup. destruct (sm !! s) as [[|]|]; reflexivity. }
    unfold refs. destruct (decide (n = name)) as [->|Hne].
    + case_decide as Hd; [rewrite Hd in Hs; rewrite lookup_alter_eq, Hn; exact Hs|].
      unfold or_default. rewrite lookup_insert_eq, lookup_alter_eq, Hn. exact Hs.
    + case_decide; [|rewrite lookup_insert_ne by congruence]; rewrite lookup_alter_ne by congruence; reflexivity.
  - rewrite decide_True by reflexivity. unfold refs. rewrite alter_fixed; [reflexivity|]. intros x Hx. congruence.
Qed.

Lemma rollback_delete_view name ds nm rm st :
  manifests st !! name = Some nm -> nm !! ds = Some rm ->
  plane_of (rollback_delete name ds rm
    (match tags st !! name with Some m => removed_tags ds m | None => [] end)
    (match referrers st !! name with Some m => removed_referrers ds m | None => [] end)
    (apply_delete name ds st)) = plane_of st.
Proof.
  intros Hnm Hrm. unfold rollback_delete, apply_delete, plane_of. cbn [manifests tags uploads referrers]. f_equal.
  - f_equal. apply (rollback_manifests name ds nm); assumption.
  - f_equal. apply rollback_tags.
  - apply refs_ext. intros n s. apply refs_restored.
Qed.

Lemma sessions_view st u : plane_of (mkState (manifests st) (tags st) u (referrers st)) = set_sessions (fun _ => session_of <$> u) (plane_of st).
Proof. reflexivity. Qed.

(** ** The contract *)

(** A step of the specification keeps the keys digests. *)
Lemma step_keys lim ready c o p p' : keys_parse p -> call_valid c -> plane_step lim ready c o p p' -> keys_parse p'.
Proof.
  intros Hp Hc. assert (Hput : forall name reference d mt body referrer, Digest.valid d -> keys_parse (plane_put name reference d mt body referrer p)).
  { intros name reference d mt body referrer Hd n ds x. assert (Hm : p_manifests (plane_put name reference d mt body referrer p) =
      <[(name, Digest.to_string d) := (mt, body)]> (p_manifests p)) by (destruct referrer as [[]|]; reflexivity).
    rewrite Hm, lookup_insert_Some. intros [[[= _ <-] _]|[_ Hx]]; [eexists; apply Digest.from_str_to_string, Hd|exact (Hp n ds x Hx)]. }
  destruct o as [res|e|]; [cbn [plane_step]|intros [_ ->]; exact Hp|contradiction].
  destruct c; destruct res; cbn [effect]; try contradiction;
    repeat match goal with |- context [match ?x with _ => _ end] => is_var x; destruct x end; try contradiction;
    try (intros ->; first [exact Hp|apply Hput, Hc]);
    try (intros [_ ->]; exact Hp); try (intros [-> _]; exact Hp).
  - intros [_ ->] n ds x Hx. cbn in Hx. apply lookup_delete_Some in Hx as [_ Hx]. exact (Hp n ds x Hx).
  - unfold plane_start. case_decide; intros [= _ ->]; exact Hp.
  - intros (s & _ & _ & _ & ->). exact Hp.
  - intros (s & _ & _ & _ & ->). exact Hp.
  - intros (s & _ & _ & ->). exact Hp.
Qed.

(** ** The snapshot write on a ready disk *)

(** The next [n] calls run. *)
Definition ahead (n : nat) (f : Fs) : Prop := Forall (fun x => x = None) (take n (faults f)).

(** [m] runs, and leaves this tree. *)
Definition runs (n : nat) (m : stm Fs io_error unit) (f : Fs) (t : tree) : Prop :=
  exists f', m f = (f', Ok tt) /\ files f' = t /\ ahead n f'.

Lemma runs_syscall (g : option fault -> tree -> tree * outcome io_error unit) n f t :
  ahead (S n) f -> g None (files f) = (t, Ok tt) -> runs n (Fs.syscall g) f t.
Proof.
  unfold ahead, runs. intros Hn Hg. rewrite Fs.syscall_run. unfold Fs.next_fault. destruct (faults f) as [|x xs]; cbn in *.
  - rewrite Hg. eexists. split_and!; [reflexivity..|]. destruct n; constructor.
  - apply Forall_cons in Hn as [-> Hn]. rewrite Hg. eexists. split_and!; [reflexivity..|exact Hn].
Qed.

Lemma create_runs n p f : ahead (S n) f -> Fs.can_write (files f) p = Ok tt -> files f !! p = None ->
  runs n (Fs.create_new p) f (<[p := File []]> (files f)).
Proof. intros Hn Hw Hp. apply runs_syscall; [exact Hn|]. rewrite Hw, Hp. reflexivity. Qed.

Lemma rename_runs n a b c f : ahead (S n) f -> files f !! a = Some (File c) -> Fs.can_write (files f) b = Ok tt ->
  runs n (Fs.rename a b) f (<[b := File c]> (delete a (files f))).
Proof. intros Hn Ha Hw. apply runs_syscall; [exact Hn|]. rewrite Ha, Hw. reflexivity. Qed.

Lemma open_runs n d f : ahead (S n) f -> Fs.is_dir_in (files f) d = true -> runs n (Fs.open_dir d) f (files f).
Proof. intros Hn Hd. apply runs_syscall; [exact Hn|]. rewrite Hd. reflexivity. Qed.

Lemma is_dir_other t p d : p <> d -> forall n, Fs.is_dir_in (<[p := n]> t) d = Fs.is_dir_in t d.
Proof. intros Hp n. unfold Fs.is_dir_in. rewrite lookup_insert_ne by exact Hp. reflexivity. Qed.

Lemma snoc_ne {A} (l : list A) x : l ++ [x] <> l.
Proof. intros Heq. apply (f_equal length) in Heq. rewrite length_app in Heq. cbn in Heq. lia. Qed.

Lemma write_ready `{H : Hashing} `{C : SnapshotCodec} {CT : SnapshotCodecTotal C} dir snap w :
  disk_ready (dir ++ [METADATA_FILE_NAME]) w ->
  exists w', write_snapshot_atomic (dir ++ [METADATA_FILE_NAME]) snap w = (w', Ok tt).
Proof.
  intros [Hf Hd Ht Htmp]. rewrite Fs.parent_snoc in *. set (p := dir ++ [METADATA_FILE_NAME]) in *.
  set (tmp := dir ++ [snapshot_tmp_name (w_pid w) (tmp_counter w)]) in *.
  assert (Hne : tmp <> p).
  { unfold tmp, p. intros Heq%app_inv_head. apply (tmp_name_ne (w_pid w) (tmp_counter w)). congruence. }
  destruct (json_total snap) as [b Hb]. destruct w as [f0 k pid]. unfold disk_of in *. cbn [w_fs w_pid tmp_counter] in *.
  destruct (create_runs 5 tmp f0 Hf) as (f1 & E1 & T1 & F1); [|exact Htmp|].
  { apply Fs.can_write_ok; [unfold tmp; rewrite Fs.parent_snoc; exact Hd|]. apply not_true_iff_false. rewrite Fs.is_dir_in_spec.
    intros [Hx|Hx]; [destruct dir; discriminate|congruence]. }
  destruct (runs_syscall (fun x t => match x with None => (<[tmp := File b]> t, Ok tt) |
    Some g => (<[tmp := File (take (default 0%nat (partial g)) b)]> t, Err (Fs.fault_error g)) end) 4 f1 _ F1 eq_refl) as (f2 & E2 & T2 & F2).
  destruct (runs_syscall (fun x t => match x with Some g => (t, Err (Fs.fault_error g)) | None => (t, Ok tt) end) 3 f2 _ F2 eq_refl)
    as (f3 & E3 & T3 & F3). cbn [fst] in T2, T3.
  assert (T : files f3 = <[tmp := File b]> (files f0)) by (rewrite T3, T2, T1; apply insert_insert_eq).
  destruct (rename_runs 2 tmp p b f3 F3) as (f4 & E4 & T4 & F4).
  { rewrite T. apply lookup_insert_eq. }
  { rewrite T. apply Fs.can_write_ok; rewrite is_dir_other; [unfold p; rewrite Fs.parent_snoc; exact Hd| |exact Ht|exact Hne].
    unfold p, tmp. rewrite Fs.parent_snoc. apply snoc_ne. }
  destruct (open_runs 1 dir f4 F4) as (f5 & E5 & T5 & F5).
  { rewrite T4, T, is_dir_other by apply snoc_ne. apply Fs.is_dir_in_spec in Hd as [Hd|Hd]; apply Fs.is_dir_in_spec; [auto|right].
    unfold tmp. rewrite lookup_delete_ne, lookup_insert_ne by apply snoc_ne. exact Hd. }
  destruct (runs_syscall (fun x t => match x with Some g => (t, Err (Fs.fault_error g)) | None => (t, Ok tt) end) 0 f5 _ F5 eq_refl)
    as (f6 & E6 & _).
  unfold write_snapshot_atomic. rewrite Hb, decide_False by (unfold p; destruct dir; discriminate).
  assert (Hpar : Fs.parent p = dir) by apply Fs.parent_snoc. rewrite Hpar. unfold next_tmp_counter, on_world, try_world. run_st. cbn [ok_or w_fs w_pid tmp_counter]. fold tmp.
  rewrite E1. cbn [w_fs w_pid tmp_counter]. unfold Fs.write_all, Fs.sync_all. rewrite E2, E3. unfold or_cleanup. run_st.
  cbn [w_fs w_pid tmp_counter]. rewrite E4. run_st. cbn [w_fs w_pid tmp_counter]. rewrite E5. cbn [w_fs w_pid tmp_counter]. rewrite E6.
  eexists. reflexivity.
Qed.

Section Laws.
Context `{H : Hashing} `{C : SnapshotCodec} {CT : SnapshotCodecTotal C} (cfg : RegistryConfig) (Hcfg : config_ok cfg).

Definition law_holds (c : meta_call) : Prop := forall r, keys_parse (plane_of (inner r)) ->
  let '(r', o) := @run_call _ (InMemoryRegistryMeta cfg) c r in
  plane_step (limits cfg) (can_persist cfg r) c o (plane_of (inner r)) (plane_of (inner r')).

(** Persisting fails only on a disk that is not ready. *)
Lemma persist_cases st r :
  match snd (persist_locked cfg st (world r)) with Ok _ => True | Err _ => ~ can_persist cfg r | Panic => False end.
Proof using CT Hcfg.
  pose proof (persist_total cfg st (world r) Hcfg) as Hp. destruct (snd (persist_locked cfg st (world r))) as [|e|] eqn:E; [exact I| |contradiction].
  intros Hr. revert E Hr Hcfg. unfold persist_locked, can_persist, config_ok. destruct (persist_path cfg) as [p|]; [|discriminate].
  intros E Hr [dir ->]. destruct (write_ready dir (snapshot_of_state st) (world r) Hr) as [w' Hw]. rewrite Hw in E. discriminate.
Qed.

Lemma law_put_with_referrer name reference d mt body referrer : law_holds (MPutWithReferrer name reference d mt body referrer).
Proof using CT Hcfg.
  intros r _. cbn. unfold as_result, mbind, stm_bind. rewrite put_eq. cbv zeta.
  pose proof (persist_cases (apply_put name reference (Digest.to_string d) mt body referrer (inner r)) r) as Hp.
  destruct (persist_locked cfg _ (world r)) as [w [[]|e|]]; cbn in *; [apply plane_put_view| |contradiction].
  split; [eauto|]. apply rollback_put_view.
Qed.

Lemma law_put name reference d mt body : law_holds (MPut name reference d mt body).
Proof using CT Hcfg.
  intros r Hr. specialize (law_put_with_referrer name reference d mt body None r Hr). cbn. unfold as_result, put_manifest, mbind, stm_bind.
  destruct (put_manifest_with_referrer cfg _ _ _ _ _ _ r) as [r' [[]|e|]]; exact id.
Qed.

Lemma law_register name subject d : law_holds (MRegister name subject d).
Proof using CT Hcfg.
  intros r _. cbn. unfold as_result, register_referrer, try_persist. run_st. cbn [inner world set_inner].
  match goal with |- context [persist_locked cfg ?st (world r)] => pose proof (persist_cases st r) as Hp end.
  destruct (persist_locked cfg _ (world r)) as [w [[]|e|]]; cbn in *; [apply register_view| |contradiction].
  split; [eauto|]. unfold plane_of, prune_empty_repo. cbn [manifests tags uploads referrers]. rewrite !flat_prune. f_equal.
  apply refs_ext. intros n s. apply refs_pop_push.
Qed.

(** Looking a digest up, once the reference is resolved. *)
Lemma get_resolved name ds r : keys_parse (plane_of (inner r)) ->
  (match manifests (inner r) !! name with
   | None => (r, Ok None)
   | Some nm =>
     match nm !! ds with
     | None => (r, Ok None)
     | Some (mt, body) => (d ← st_lift (map_err InvalidDigest (Digest.from_str ds)); mret (Some (d, mt, body))) r
     end
   end) =
  (r, Ok ('(mt, body) ← flat (manifests (inner r)) !! (name, ds); d ← ok_of (Digest.from_str ds); Some (d, mt, body))).
Proof.
  intros Hk. specialize (Hk name ds). cbn in Hk. rewrite flat_lookup in *. destruct (manifests (inner r) !! name) as [nm|]; [|reflexivity].
  cbn in *. destruct (nm !! ds) as [[mt b]|]; [|reflexivity]. destruct (Hk _ eq_refl) as [d Hd]. run_st. rewrite Hd. reflexivity.
Qed.

Lemma law_get name reference : law_holds (MGet name reference).
Proof using.
  intros r Hk. assert (Hg : get_manifest name reference r = (r, Ok (plane_get (plane_of (inner r)) name reference))).
  { unfold get_manifest, mbind at 1, stm_bind at 1, st_get. destruct reference as [t|d].
    - unfold plane_get. cbn [plane_of p_tags p_manifests]. rewrite flat_lookup.
      destruct (tags (inner r) !! name) as [tm|]; cbn [mbind option_bind]; [|destruct (manifests (inner r) !! name); reflexivity].
      destruct (tm !! t) as [ds|]; cbn [mbind option_bind]; [|destruct (manifests (inner r) !! name); reflexivity].
      etransitivity; [|exact (get_resolved name ds r Hk)]. destruct (manifests (inner r) !! name) as [nm|]; [|reflexivity].
      destruct (nm !! ds) as [[mt b]|]; reflexivity.
    - etransitivity; [|exact (get_resolved name (Digest.to_string d) r Hk)]. destruct (manifests (inner r) !! name) as [nm|]; [|reflexivity].
      destruct (nm !! Digest.to_string d) as [[mt b]|]; reflexivity. }
  cbn. unfold as_result, mbind, stm_bind. rewrite Hg. cbn. auto.
Qed.

Lemma law_delete name reference : law_holds (MDelete name reference).
Proof using CT Hcfg.
  intros r _. cbn. unfold as_result, mbind at 1, stm_bind at 1. destruct reference as [t|d]; [cbn; auto|].
  destruct (flat (manifests (inner r)) !! (name, Digest.to_string d)) as [rm|] eqn:Hrm; rewrite flat_lookup in Hrm.
  - destruct (manifests (inner r) !! name) as [nm|] eqn:Hnm; [|discriminate]. cbn in Hrm.
    rewrite (delete_eq_registry cfg name d nm rm r Hnm Hrm). cbv zeta.
    pose proof (persist_cases (apply_delete name (Digest.to_string d) (inner r)) r) as Hp.
    assert (Hs : is_Some (p_manifests (plane_of (inner r)) !! (name, Digest.to_string d)))
      by (cbn; rewrite flat_lookup, Hnm; cbn; rewrite Hrm; eauto).
    destruct (persist_locked cfg _ (world r)) as [w [[]|e|]]; cbn in *; [| |contradiction].
    + rewrite bool_decide_true by exact Hs. split; [reflexivity|apply delete_view].
    + split; [eauto|]. apply (rollback_delete_view name _ nm rm); assumption.
  - assert (Hd : delete_manifest cfg name (RDigest d) r = (r, Ok false)).
    { unfold delete_manifest. run_st. destruct (manifests (inner r) !! name) as [nm|]; [|reflexivity]. cbn in Hrm. rewrite Hrm. reflexivity. }
    rewrite Hd. cbn. rewrite flat_lookup, Hrm. split; [|reflexivity]. rewrite bool_decide_false; [reflexivity|intros [? [=]]].
Qed.

Lemma items_names {A} (m : gmap string A) t : t ∈ fst <$> items m <-> is_Some (m !! t).
Proof.
  rewrite list_elem_of_fmap. split.
  - intros ([k x] & -> & Hx). apply elem_of_items in Hx. eauto.
  - intros [x Hx]. exists (t, x). split; [reflexivity|]. apply elem_of_items, Hx.
Qed.

Lemma law_tags name last n : law_holds (MTags name last n).
Proof using.
  intros r _. cbn. unfold as_result, list_tags. run_st. destruct (tags (inner r) !! name) as [m|] eqn:Hm; cbn.
  - split; [reflexivity|]. exists (fst <$> items m). split; [split; [apply NoDup_items|]|reflexivity].
    intros t. rewrite items_names, flat_lookup, Hm. reflexivity.
  - split; [reflexivity|]. exists []. split; [split; [constructor|]|destruct last, n; try reflexivity; destruct n; reflexivity].
    intros t. rewrite flat_lookup, Hm. split; [intros Hx; inversion Hx|intros [? [=]]].
Qed.

Lemma law_repositories last n : law_holds (MRepositories last n).
Proof using.
  intros r _. cbn. split; [reflexivity|]. exists (fst <$> items (manifests (inner r))). split; [apply NoDup_items|]. split; [reflexivity|].
  intros name ds [x Hx]. change (flat (manifests (inner r)) !! (name, ds) = Some x) in Hx.
  rewrite flat_lookup in Hx. apply items_names.
  destruct (manifests (inner r) !! name); [eauto|discriminate].
Qed.

Lemma law_referrers name d at_ : law_holds (MReferrers name d at_).
Proof using.
  intros r _. assert (Hl : list_referrers name d at_ r = (r, Ok (match at_ with
    | None => refs (referrers (inner r)) name (Digest.to_string d)
    | Some a => filter (fun d => rd_artifact_type d = Some a) (refs (referrers (inner r)) name (Digest.to_string d)) end))).
  { unfold list_referrers, refs. run_st. destruct (referrers (inner r) !! name) as [m|]; cbn; [|destruct at_; reflexivity].
    destruct (m !! Digest.to_string d) as [l|]; cbn; destruct at_; reflexivity. }
  cbn. unfold as_result, mbind, stm_bind. rewrite Hl. cbn. unfold referrers_of. cbn [plane_of p_referrers]. rewrite refs_default. auto.
Qed.

Lemma idle_session now u : idle (limits cfg) now (session_of u) <-> UploadState.is_idle_for now (idle_ttl (limits cfg)) u = true.
Proof using. unfold idle, UploadState.is_idle_for. cbn. symmetry. apply Z.leb_le. Qed.

(** The sweep leaves the sessions that are not idle. *)
Lemma sweep_live now r :
  session_of <$> fst (sweep_idle_uploads now (idle_ttl (limits cfg)) (uploads (inner r))) =
  live_sessions (limits cfg) now (plane_of (inner r)).
Proof using.
  unfold sweep_idle_uploads, live_sessions. cbn [fst plane_of p_sessions]. apply map_eq. intros k.
  rewrite lookup_fmap, !map_lookup_filter, lookup_fmap. destruct (uploads (inner r) !! k) as [u|]; [|reflexivity]. cbn.
  pose proof (idle_session now u) as Hi. destruct (UploadState.is_idle_for _ _ u).
  - rewrite !option_guard_False; [reflexivity|tauto|discriminate].
  - rewrite !option_guard_True; [reflexivity|intros Hx; apply Hi in Hx; discriminate|reflexivity].
Qed.

Lemma law_start now uuid name : law_holds (MStart now uuid name).
Proof using.
  intros r _. pose proof (sweep_live now r) as Hl. unfold run_call, plane_step, effect, plane_start. rewrite <- Hl. clear Hl.
  cbn -[sweep_idle_uploads]. unfold as_result, start_upload. run_st.
  set (live := fst (sweep_idle_uploads _ _ _)) in *. clearbody live. rewrite map_size_fmap.
  destruct (Nat.leb_spec (max_sessions (limits cfg)) (size live)) as [Hm|Hm].
  - rewrite decide_False by lia. reflexivity.
  - rewrite decide_True by lia. cbn. unfold plane_of, set_sessions. cbn. rewrite fmap_insert. reflexivity.
Qed.

Lemma law_append now name uuid offset chunk : law_holds (MAppend now name uuid offset chunk).
Proof using.
  intros r _. cbn. unfold as_result, append_upload. run_st. destruct (uploads (inner r) !! (name, uuid)) as [s|] eqn:Hs; cbn.
  - destruct (Z.eqb_spec offset (UploadState.offset s)) as [Ho|Ho]; cbn.
    + exists (session_of s). rewrite lookup_fmap, Hs. split_and!; [reflexivity|exact Ho|reflexivity|].
      unfold plane_of, set_sessions. cbn. rewrite fmap_insert. reflexivity.
    + split; [|reflexivity]. intros s'. rewrite lookup_fmap, Hs. intros [= <-]. exact Ho.
  - split; [|reflexivity]. intros s'. rewrite lookup_fmap, Hs. discriminate.
Qed.

Lemma drop_session_view name uuid r :
  plane_of (inner (set_uploads (delete (name, uuid) (uploads (inner r))) r)) = set_sessions (delete (name, uuid)) (plane_of (inner r)).
Proof. unfold plane_of, set_sessions. cbn. rewrite fmap_delete. reflexivity. Qed.

Lemma law_complete name uuid d : law_holds (MComplete name uuid d).
Proof using. intros r _. cbn. apply drop_session_view. Qed.

Lemma law_cancel name uuid : law_holds (MCancel name uuid).
Proof using.
  intros r _. change (bool_decide (is_Some (uploads (inner r) !! (name, uuid))) =
      bool_decide (is_Some ((session_of <$> uploads (inner r)) !! (name, uuid))) /\
    plane_of (inner (set_uploads (delete (name, uuid) (uploads (inner r))) r)) = set_sessions (delete (name, uuid)) (plane_of (inner r))).
  split; [|apply drop_session_view]. rewrite lookup_fmap. apply bool_decide_ext. rewrite fmap_is_Some. reflexivity.
Qed.

Lemma law_state now name uuid : law_holds (MState now name uuid).
Proof using.
  intros r _. cbn. unfold as_result, get_upload_state. run_st. destruct (uploads (inner r) !! (name, uuid)) as [s|] eqn:Hs; cbn.
  - pose proof (idle_session now s) as Hi. destruct (UploadState.is_idle_for _ _ s); cbn.
    + split; [|apply drop_session_view]. intros s'. rewrite lookup_fmap, Hs. intros [= <-]. tauto.
    + exists (session_of s). rewrite lookup_fmap, Hs. split_and!; [reflexivity|intros Hx; apply Hi in Hx; discriminate|reflexivity..].
  - split; [intros s'; rewrite lookup_fmap, Hs; discriminate|].
    rewrite <- drop_session_view. unfold set_uploads. rewrite delete_id by exact Hs. reflexivity.
Qed.

Lemma law_take name uuid : law_holds (MTake name uuid).
Proof using.
  intros r _. cbn. unfold as_result, take_upload_bytes. run_st. destruct (uploads (inner r) !! (name, uuid)) as [s|] eqn:Hs; cbn;
    rewrite lookup_fmap, Hs; [|auto]. exists (session_of s). split_and!; [reflexivity..|].
  unfold plane_of, set_sessions. cbn. rewrite fmap_insert. reflexivity.
Qed.

Lemma registry_law c : law_holds c.
Proof using CT Hcfg.
  destruct c; auto using law_put, law_put_with_referrer, law_get, law_delete, law_tags, law_repositories, law_start, law_append,
    law_complete, law_state, law_cancel, law_referrers, law_take, law_register.
Qed.

#[export] Instance InMemoryRegistryMeta_laws : RegistryMetaLaws Registry (M := InMemoryRegistryMeta cfg).
Proof using CT Hcfg.
  refine {| meta_limits := limits cfg; meta_inv r := keys_parse (plane_of (inner r)); meta_view r := plane_of (inner r);
            meta_ready := can_persist cfg |}.
  intros c r Hr Hc. pose proof (registry_law c r Hr) as Hs. destruct (run_call c r) as [r' o]. cbn [fst snd].
  split; [exact (step_keys _ _ c o _ _ Hr Hc Hs)|exact Hs].
Defined.

End Laws.

(** Content-addressed states are among those the contract starts from. *)
Lemma content_keys `{Hashing} st : content_ok st -> keys_parse (plane_of st).
Proof.
  intros Hst name ds [mt b] Hx. cbn in Hx. rewrite flat_lookup in Hx. destruct (manifests st !! name) as [m|] eqn:Hm; [|discriminate].
  eexists. exact (Hst name m ds mt b Hm Hx).
Qed.

Lemma boot_config `{Hashing} `{SnapshotCodec} dir w : config_ok (fst (with_persistence dir w)).
Proof.
  unfold with_persistence. destruct (load_snapshot _ (w_fs w)) as [f o]. destruct o as [[st|]|e|]; exists dir; reflexivity.
Qed.

(** C6: the metadata plane is a plain catalogue. Boot the registry from any
    disk and make any sequence of calls of the trait, whatever system calls fail
    on the way: each call answers what a catalogue of manifests, tags, referrer
    lists and upload sessions with their times of last activity answers and changes
    the catalogue as specified, or fails and changes nothing. A mutation fails only
    when the disk cannot take its snapshot, whose text always exists: one of the next
    six system calls is going to fail, the directory is not there, the snapshot's name
    is a directory's or the temporary name is taken; an append fails only when its
    session is gone or has another length. Starting an upload drops exactly the
    idle sessions and is refused exactly when as many as the limit are live. No
    call panics. The catalogue may list a repository whose manifests are all
    deleted. *)
Theorem metadata_plane_refines `{H : Hashing} {HL : HashingLaws H} `{C : SnapshotCodec} {CT : SnapshotCodecTotal C} (dir : path) (w : World)
    (cs : list meta_call) (Hcs : Forall call_valid cs) :
  let '(cfg, r) := with_persistence dir w in
  let '(r', history) := run_calls (M := InMemoryRegistryMeta cfg) cs r in
  plane_trace (limits cfg) (can_persist cfg) (plane_of (inner r)) history (plane_of (inner r')).
Proof.
  pose proof (boot_config dir w) as Hcfg. pose proof (proj1 (boot_content dir w)) as Hst.
  destruct (with_persistence dir w) as [cfg r]. cbn [fst snd] in *.
  pose proof (calls_trace (L := InMemoryRegistryMeta_laws cfg Hcfg) cs r (content_keys _ Hst) Hcs) as [_ Ht].
  destruct (run_calls cs r) as [r' history]. exact Ht.
Qed.

Definition sample_calls : list meta_call :=
  [MPut "lib" (Tag "v1") sample_digest "application/json" sample_body;
   MPutWithReferrer "lib" (Tag "v2") sample_digest "application/json" sample_body (Some (sample_digest, sample_referrer sample_digest));
   MGet "lib" (Tag "v1"); MReferrers "lib" sample_digest None; MTags "lib" None None;
   MStart 5 "u" "lib"; MAppend 6 "lib" "u" 0 sample_body; MAppend 7 "lib" "u" 0 sample_body; MTake "lib" "u"].

(** The second put fails: its tag and its referrer are not there. *)
Definition sample_disk : World := mkWorld (mkFs {[ ["data"%string] := Dir ]} ([None; None; None; None; None; None; None; None] ++ [sample_fault])) 0 7.

Definition sample_run : RegistryConfig * Registry := with_persistence ["data"%string] sample_disk.

Lemma metadata_plane_refines_witness :
  (let '(cfg, r) := sample_run in
   let '(r', history) := run_calls (M := InMemoryRegistryMeta cfg) sample_calls r in
   plane_trace (limits cfg) (can_persist cfg) (plane_of (inner r)) history (plane_of (inner r'))) /\
  snd <$> snd (run_calls (M := InMemoryRegistryMeta (fst sample_run)) sample_calls (snd sample_run)) =
  [Ok RUnit; Err (BsIo (mkIoError (KOther 28) "No space left on device"));
   Ok (RManifest (Some (sample_digest, "application/json"%string, sample_body))); Ok (RReferrers []); Ok (RNames ["v1"%string]);
   Ok (RAdmission (Started "u")); Ok (ROffset 2);
   Err (NotFound "out-of-order upload chunk: expected offset 2, got 0"); Ok (RBytes (Some sample_body))].
Proof.
  split; [|vm_compute; reflexivity]. apply (metadata_plane_refines ["data"%string] sample_disk sample_calls).
  repeat constructor; vm_compute; reflexivity.
Defined.
