(* ===== verification/OciServerProps.v ===== *)
(** * Every request is safe

    Each handler keeps the server's invariant, answers, and serves only bodies
    that have the digest it advertises; then the router and any sequence of
    requests. *)

From S2P Require Import Prelude Str Frame Net Fs Digest BlobStore OciError OciReference OciUpload OciRegistry OciRegistryProps OciRegistrySteps Json Http OciHttp OciBlobHandlers OciManifestHandlers OciRouter OciServer.

Local Open Scope Z_scope.

(** Finish a handler that returns a response without bytes. *)
Ltac safe_done := apply safe_ret, no_bytes; discriminate.

(** ** ASCII paths never panic the splitter *)

Definition is_ascii (c : ascii) : bool := in_range "000" "127" c.

Lemma ascii_boundary i s : str_all is_ascii s = true -> is_char_boundary i s = true.
Proof.
  revert i. induction s as [|c s IH]; intros i; [reflexivity|]. cbn [str_all]. intros [Hc Hs]%andb_prop.
  destruct i as [|i]; [|exact (IH i Hs)]. unfold is_char_boundary. cbn [String.get].
  revert Hc. unfold is_ascii, in_range. intros Hc%andb_prop. destruct Hc as [_ Hc].
  apply negb_true_iff, andb_false_iff. left. apply N.leb_gt. apply N.leb_le in Hc.
  eapply N.le_lt_trans; [exact Hc|reflexivity].
Qed.

Lemma split_loop_ascii {E} kws rest : str_all is_ascii rest = true -> split_loop (E := E) kws rest <> Panic.
Proof.
  intros Ha. induction kws as [|kw kws IH]; cbn; [discriminate|]. destruct (rfind kw rest) as [idx|]; [|exact IH].
  rewrite ascii_boundary by exact Ha. repeat case_match; try discriminate. exact IH.
Qed.

Lemma decode_ascii rest : str_all is_ascii rest = true -> decode rest <> Panic.
Proof.
  intros Ha. unfold decode, split_rest. pose proof (split_loop_ascii (E := OciError) keywords rest Ha).
  destruct (split_loop keywords rest) as [[p|]|e|]; cbn; try discriminate. contradiction.
Qed.

Section Handlers.
Context {St : Type} `{HB : BlobStore St} `{H : Hashing} {HL : HashingLaws H} {BL : BlobStoreLaws St}
  `{C : SnapshotCodec} `{L : HttpLib} (cfg : AppConfig) (Hcfg : config_valid cfg).

Local Abbreviation handler_safe m := (st_safe (app_ok (St := St) cfg) m content_response).

Lemma cap_nonneg : 0 <= max_upload_session_bytes cfg.
Proof using Hcfg. apply Hcfg. Qed.

Lemma config_registry : config_ok (registry_cfg cfg).
Proof using Hcfg. apply Hcfg. Qed.

Local Hint Resolve cap_nonneg config_registry : safe.

(** Passing the cap check means the sum is within the cap. *)
Lemma not_exceeded current incoming :
  would_exceed_cap (max_upload_session_bytes cfg) current incoming = false ->
  current + incoming <= max_upload_session_bytes cfg.
Proof using Hcfg.
  unfold would_exceed_cap, u64_saturating_add. destruct Hcfg as [_ Hc]. intros Hlt%Z.ltb_ge. lia.
Qed.

(** ** Uploads *)

Lemma safe_init_upload env name params body : handler_safe (init_upload cfg env name params body).
Proof using HL BL C Hcfg.
  apply safe_into_response. safe_do. destruct (params !! "digest"%string).
  - eapply safe_bind; [apply safe_parse_digest|]. intros d [Hd _]. cbv zeta. case_match; [apply safe_throw|].
    safe_do. safe_done.
  - safe_do. case_match; [safe_done|apply safe_throw].
Qed.

Lemma content_range_total v : ContentRange.parse v <> Panic.
Proof.
  unfold ContentRange.parse. destruct (split_once _ _) as [[s e]|]; cbn; [|discriminate].
  destruct (parse_u64 (trim s)); cbn; [|discriminate]. destruct (parse_u64 (trim e)); cbn; [|discriminate].
  case_match; discriminate.
Qed.

Lemma chunk_start_total hs off body : chunk_start hs off body <> Panic.
Proof.
  unfold chunk_start. destruct (header_get hs _) as [v|]; [|discriminate]. destruct (negb _); [discriminate|].
  pose proof (content_range_total v). destruct (ContentRange.parse v) as [r|e|]; cbn; [|discriminate|contradiction].
  destruct (ContentRange.checked_length r); cbn; [|discriminate]. destruct (negb _); discriminate.
Qed.

Lemma safe_patch_upload env name uuid hs body : handler_safe (patch_upload cfg env name uuid hs body).
Proof using HL BL C Hcfg.
  apply safe_into_response. safe_do. safe_do. eapply safe_bind; [apply safe_ok_or|]. intros s _. cbv zeta. eapply (safe_bind _ _ _ (fun _ => True)); [apply safe_lift; [apply chunk_start_total|auto]|].
  intros start _. destruct (Z.eqb_spec start (UploadState.offset s)) as [->|]; [|apply safe_throw]. cbn [negb].
  destruct (would_exceed_cap _ _ _) eqn:Hx; [safe_do; apply safe_throw|]. apply not_exceeded in Hx.
  safe_do. safe_done.
Qed.

Lemma safe_append_final env name uuid s body : st_safe (app_ok (St := St) cfg) (append_final cfg env name uuid s body) (fun _ => True).
Proof using HL BL C Hcfg.
  unfold append_final. case_match; [apply safe_ret; exact I|]. cbv zeta.
  destruct (would_exceed_cap _ _ _) eqn:Hx; [safe_do; apply safe_throw|]. apply not_exceeded in Hx.
  safe_do. apply safe_ret. exact I.
Qed.

Local Hint Resolve safe_append_final : safe.

Lemma safe_finish_upload env name uuid params body : handler_safe (finish_upload cfg env name uuid params body).
Proof using HL BL C Hcfg.
  apply safe_into_response. safe_do. safe_do.
  eapply safe_bind; [apply safe_parse_digest|]. intros d [Hd _]. safe_do.
  safe_do. safe_do. safe_do. safe_do. cbv zeta.
  case_match; [apply safe_throw|]. safe_do. safe_do. safe_done.
Qed.

Lemma safe_get_upload_status env name uuid : handler_safe (get_upload_status cfg env name uuid).
Proof using HL BL C Hcfg.
  apply safe_into_response. safe_do. safe_do. safe_do. safe_done.
Qed.

Lemma safe_cancel_handler name uuid : handler_safe (cancel_upload_handler name uuid).
Proof using HL BL C Hcfg. apply safe_into_response. safe_do. safe_do. case_match; [apply safe_throw|safe_done]. Qed.

(** ** Blobs *)

Lemma digest_header_value d (tail : headers) v :
  Forall (fun kv => fst kv <> "docker-content-digest"%string) tail ->
  ("docker-content-digest"%string, v) ∈ digest_headers d ++ tail -> v = Digest.to_string d.
Proof.
  intros Ht [Hin|Hin]%elem_of_app.
  - unfold digest_headers, try_header in Hin. destruct (header_value_ok (Digest.to_string d)); [|destruct (not_elem_of_nil _ Hin)].
    destruct (header_value_ok _); apply elem_of_cons in Hin as [[= ->]|Hin]; try reflexivity;
      [apply list_elem_of_singleton in Hin; discriminate|destruct (not_elem_of_nil _ Hin)].
  - rewrite Forall_forall in Ht. destruct (Ht _ Hin eq_refl).
Qed.

Lemma try_header_name name v x : name <> x -> Forall (fun kv => fst kv <> x) (try_header name v).
Proof. intros Hne. unfold try_header. case_match; constructor; [exact Hne|constructor]. Qed.

(** A complete body under its digest. *)
Lemma full_content d tail b st :
  Digest.valid d -> Forall (fun kv => fst kv <> "docker-content-digest"%string) tail ->
  (matches d b \/ Digest.to_string d = OCI_EMPTY_DESCRIPTOR_DIGEST /\ b = OCI_EMPTY_DESCRIPTOR_BYTES) ->
  content_response (mkResponse st (digest_headers d ++ tail) (BBytes b)).
Proof.
  intros Hd Ht Hm b' [= <-]. exists d, b, O. split_and!; [exact Hd| |auto|exact Hm|].
  - rewrite drop_0, firstn_all. reflexivity.
  - intros v. apply digest_header_value, Ht.
Qed.

Lemma blob_headers_tail size : Forall (fun kv : string * string => fst kv <> "docker-content-digest"%string)
  [("content-length", display_u64 size); ("content-type", "application/octet-stream")]%string.
Proof. repeat constructor; discriminate. Qed.

Lemma safe_get_blob name ds : handler_safe (get_blob name ds).
Proof using HL BL C Hcfg.
  apply safe_into_response. safe_do. eapply safe_bind; [apply safe_parse_digest|]. intros d [Hd Hp].
  case_bool_decide as He.
  - apply safe_ret, full_content; [exact Hd|apply blob_headers_tail|right]. split; [|reflexivity].
    subst ds. vm_compute in Hp. injection Hp as <-. vm_compute. reflexivity.
  - safe_do. apply safe_ret, full_content; [exact Hd|apply blob_headers_tail|auto].
Qed.

Lemma safe_head_blob name ds : handler_safe (head_blob name ds).
Proof using HL BL C Hcfg.
  apply safe_into_response. safe_do. eapply safe_bind; [apply safe_parse_digest|]. intros d [Hd _].
  case_match; [safe_done|]. safe_do. safe_done.
Qed.

Lemma safe_delete_blob name ds : handler_safe (delete_blob name ds).
Proof using HL BL C Hcfg.
  apply safe_into_response. safe_do. eapply safe_bind; [apply safe_parse_digest|]. intros d [Hd _].
  safe_do. case_match; [apply safe_throw|]. safe_do. safe_do. safe_done.
Qed.

(** ** Manifests *)

Lemma parse_byte_range_bounds raw s e : parse_byte_range raw = BRange s e -> 0 <= s <= e.
Proof.
  unfold parse_byte_range. destruct (strip_prefix _ raw) as [spec|]; [|discriminate].
  destruct (negb _); [discriminate|]. destruct (split_once _ spec) as [[lhs rhs]|]; [|discriminate].
  destruct (bool_decide (lhs = _)); [discriminate|]. destruct (parse_u64 lhs) as [a|] eqn:Ha; [|discriminate].
  destruct (if bool_decide _ then _ else _) as [b|]; [|discriminate].
  destruct (Z.ltb_spec b a); [discriminate|]. intros [= <- <-]. apply parse_u64_range in Ha. unfold is_u64 in Ha. lia.
Qed.

(** The range branch never panics and answers with a part of the body. *)
Lemma range_response hs d mt b :
  matches d b -> Digest.valid d ->
  range_or_full_response hs d mt b <> Panic /\
  forall r, range_or_full_response hs d mt b = Ok r -> content_response r.
Proof.
  intros Hm Hd. assert (Hfull : content_response (full_response d mt b)).
  { unfold full_response, manifest_response_headers. rewrite <- app_assoc. apply full_content; auto.
    rewrite <- app_assoc. apply Forall_app. split; [apply try_header_name; discriminate|].
    repeat constructor; discriminate. }
  assert (Huns : content_response (unsatisfiable_response (zlen b))) by (apply no_bytes; discriminate).
  unfold range_or_full_response. destruct (parse_byte_range <$> _) as [[s e| |]|] eqn:Hr;
    try (split; [discriminate|intros r [= <-]; assumption]).
  destruct ((zlen b =? 0) || _) eqn:Hg; [split; [discriminate|intros r [= <-]; assumption]|].
  apply orb_false_iff in Hg as [Hz%Z.eqb_neq Hl%Z.ltb_ge].
  assert (Hse : 0 <= s <= e).
  { destruct (header_get_str hs "range") as [raw|]; [|discriminate]. cbn in Hr. injection Hr as Hr.
    exact (parse_byte_range_bounds _ _ _ Hr). }
  pose proof (zlen_nonneg b). unfold u64_checked_sub. rewrite (proj2 (Z.leb_le _ _)) by lia.
  cbn [expect mbind outcome_bind]. rewrite slice_ok by lia. cbn [mbind outcome_bind].
  split; [discriminate|]. intros r [= <-] b' [= <-].
  exists d, b, (Z.to_nat s). split_and!; [exact Hd| |discriminate|auto|].
  - cbn. rewrite length_take, length_drop. apply (f_equal (fun n => take n _)). unfold zlen in *. lia.
  - intros v. cbn [resp_headers]. apply digest_header_value. apply Forall_app.
    split; [apply try_header_name; discriminate|]. repeat (constructor; [discriminate|]).
    apply try_header_name. discriminate.
Qed.

Lemma sha256_matches b : matches (Digest.sha256_of b) b.
Proof. reflexivity. Qed.

Lemma safe_get_manifest_handler name rs hs : handler_safe (get_manifest_handler name rs hs).
Proof using HL BL C Hcfg.
  apply safe_into_response. safe_do. safe_do.
  eapply safe_bind; [apply safe_call, safe_on_registry, safe_get_manifest|]. cbv beta. intros o Ho.
  destruct o as [[[d mt] b]|]; [|apply safe_throw]. rewrite (Ho d mt b eq_refl).
  destruct (range_response hs (Digest.sha256_of b) mt b (sha256_matches b) (Digest.sha256_of_valid b)) as [Hp Hr].
  apply safe_lift; assumption.
Qed.

Lemma safe_head_manifest name rs : handler_safe (head_manifest name rs).
Proof using HL BL C Hcfg.
  apply safe_into_response. safe_do. safe_do. safe_do. repeat case_match; [safe_done|apply safe_throw].
Qed.

Lemma safe_check_blob_present ds : st_safe (app_ok (St := St) cfg) (check_blob_present ds) (fun _ => True).
Proof using HL BL C Hcfg.
  unfold check_blob_present. case_match; [apply safe_ret; exact I|]. safe_do. safe_do.
  case_match; [apply safe_throw|apply safe_ret; exact I].
Qed.

Lemma safe_check_manifest_present name ds : st_safe (app_ok (St := St) cfg) (check_manifest_present name ds) (fun _ => True).
Proof using HL BL C Hcfg.
  unfold check_manifest_present. safe_do. safe_do. case_match; [apply safe_ret; exact I|]. safe_do.
  case_match; [apply safe_throw|apply safe_ret; exact I].
Qed.

Lemma safe_for_each {A} (f : A -> stm (AppState St) OciError unit) l :
  (forall x, st_safe (app_ok (St := St) cfg) (f x) (fun _ => True)) ->
  st_safe (app_ok (St := St) cfg) (for_each f l) (fun _ => True).
Proof.
  intros Hf. induction l as [|x l IH]; cbn; [apply safe_ret; exact I|].
  eapply safe_bind; [apply Hf|]. intros _ _. exact IH.
Qed.

Lemma safe_if_digest (f : string -> stm (AppState St) OciError unit) v :
  (forall x, st_safe (app_ok (St := St) cfg) (f x) (fun _ => True)) ->
  st_safe (app_ok (St := St) cfg) (if_digest f v) (fun _ => True).
Proof. intros Hf. unfold if_digest. case_match; [apply Hf|apply safe_ret; exact I]. Qed.

Lemma safe_verify name parsed kind :
  st_safe (app_ok (St := St) cfg) (verify_referenced_blobs name parsed kind) (fun _ => True).
Proof using HL BL C Hcfg.
  assert (Hblobs : st_safe (app_ok (St := St) cfg) (verify_referenced_blobs name parsed ImageManifest) (fun _ => True)).
  { cbn. eapply (safe_bind _ _ _ (fun _ => True)).
    - case_match; [apply safe_if_digest; intros; apply safe_check_blob_present|apply safe_ret; exact I].
    - intros _ _. case_match; [|apply safe_ret; exact I]. apply safe_for_each. intros x. apply safe_if_digest.
      intros. apply safe_check_blob_present. }
  destruct kind; [exact Hblobs| |exact Hblobs]. cbn. case_match; [|apply safe_ret; exact I].
  apply safe_for_each. intros x. apply safe_if_digest. intros. apply safe_check_manifest_present.
Qed.

Local Hint Resolve safe_verify : safe.

Lemma safe_put_manifest_handler name rs hs body : handler_safe (put_manifest_handler cfg name rs hs body).
Proof using HL BL C Hcfg.
  apply safe_into_response. do 6 safe_do. cbv zeta. eapply (safe_bind _ _ _ (fun _ => True)).
  { apply safe_lift; [|auto]. unfold check_declared. repeat case_match; discriminate. }
  intros _ _. safe_do. safe_done.
Qed.

Lemma safe_delete_manifest_handler name rs : handler_safe (delete_manifest_handler cfg name rs).
Proof using HL BL C Hcfg.
  apply safe_into_response. safe_do. safe_do. case_match; [apply safe_throw|]. safe_do.
  case_match; [safe_done|apply safe_throw].
Qed.

(** ** Listings *)

Lemma safe_list_tags_handler name params : handler_safe (list_tags_handler name params).
Proof using HL BL C Hcfg. apply safe_into_response. safe_do. cbv zeta. safe_do. safe_done. Qed.

Lemma safe_list_catalog params : handler_safe (list_catalog params).
Proof using HL BL C Hcfg. apply safe_into_response. cbv zeta. safe_do. safe_done. Qed.

Lemma safe_get_referrers name ds params : handler_safe (get_referrers name ds params).
Proof using HL BL C Hcfg.
  apply safe_into_response. safe_do. eapply safe_bind; [apply safe_parse_digest|]. intros d [Hd _]. cbv zeta.
  safe_do. safe_done.
Qed.

(** ** Routing *)

Lemma safe_unsupported : handler_safe unsupported_method.
Proof. apply safe_into_response, safe_throw. Qed.

Lemma safe_dispatch_inner env name suffix method hs params body :
  handler_safe (dispatch_inner cfg env name suffix method hs params body).
Proof using HL BL C Hcfg.
  pose proof safe_unsupported. unfold dispatch_inner.
  case_match; [destruct method; auto using safe_list_tags_handler|].
  case_match; [destruct method; auto using safe_get_referrers|].
  case_match; [destruct method; auto using safe_get_manifest_handler, safe_head_manifest, safe_put_manifest_handler, safe_delete_manifest_handler|].
  case_match; [destruct method; cbv zeta; auto using safe_init_upload, safe_patch_upload, safe_finish_upload, safe_get_upload_status, safe_cancel_handler|].
  case_match; [destruct method; auto using safe_get_blob, safe_head_blob, safe_delete_blob|].
  apply safe_into_response, safe_throw.
Qed.

(** A result of the router: a response, or the panic of a path that is not
    ASCII. *)
Definition answered (q : Request) (res : outcome OciError Response) : Prop :=
  (exists r, res = Ok r /\ content_response r) \/
  (res = Panic /\ exists rest, rq_target q = TRest rest /\ str_all is_ascii rest = false).

Lemma safe_answered q m a : handler_safe m -> (forall a e, snd (m a) <> Err e) -> app_ok cfg a ->
  app_ok cfg (fst (m a)) /\ answered q (snd (m a)).
Proof.
  intros Hm He Ha. destruct (Hm a Ha) as [H1 H2]. split; [exact H1|]. left. specialize (He a).
  destruct (snd (m a)) as [r|e|]; [eauto|destruct (He e eq_refl)|contradiction].
Qed.

Lemma into_response_no_err (m : stm (AppState St) OciError Response) a e : snd (into_response m a) <> Err e.
Proof. unfold into_response. destruct (m a) as [a' [r|e'|]]; discriminate. Qed.

Lemma dispatch_answered q env rest method hs params body a : rq_target q = TRest rest -> app_ok cfg a ->
  app_ok cfg (fst (dispatch cfg env rest method hs params body a)) /\
  answered q (snd (dispatch cfg env rest method hs params body a)).
Proof using HL BL C Hcfg.
  intros Hq Ha. destruct (str_all is_ascii rest) eqn:Hasc.
  - apply safe_answered; [|apply into_response_no_err|exact Ha]. apply safe_into_response.
    eapply (safe_bind _ _ _ (fun _ => True)); [apply safe_lift; [apply decode_ascii, Hasc|auto]|].
    intros [name suffix] _. apply safe_dispatch_inner.
  - unfold dispatch, into_response. run_st. destruct (decode rest) as [[name suffix]|e|].
    + destruct (safe_dispatch_inner env name suffix method hs params body a Ha) as [H1 H2].
      destruct (dispatch_inner _ _ _ _ _ _ _ _ a) as [a' [r|e|]]; cbn in *; [|..|contradiction]; (split; [exact H1|left]); [eauto|].
      eexists. split; [reflexivity|]. apply no_bytes. discriminate.
    + split; [exact Ha|left]. eexists. split; [reflexivity|]. apply no_bytes. discriminate.
    + split; [exact Ha|right]. eauto.
Qed.

Lemma on_get_answered q m a : handler_safe m -> (forall a e, snd (m a) <> Err e) -> app_ok cfg a ->
  app_ok cfg (fst (on_get (rq_method q) m a)) /\ answered q (snd (on_get (rq_method q) m a)).
Proof.
  intros Hm He Ha. destruct (rq_method q); cbn [on_get].
  1: apply safe_answered; assumption.
  1: { apply safe_answered; [|intros a' e|exact Ha].
       - eapply safe_bind; [exact Hm|]. intros r _. safe_done.
       - unfold headers_only. run_st. specialize (He a'). destruct (m a') as [a1 [r|e1|]]; cbn in *; try discriminate.
         intros _. exact (He e1 eq_refl). }
  all: split; [exact Ha|left]; eexists; (split; [reflexivity|]); apply no_bytes; discriminate.
Qed.

Lemma with_body_answered q body k a : app_ok cfg a ->
  (app_ok cfg (fst (k body a)) /\ answered q (snd (k body a))) ->
  app_ok (St := St) cfg (fst (with_body body k a)) /\ answered q (snd (with_body body k a)).
Proof.
  intros Ha Hk. unfold with_body. case_match; [|exact Hk].
  split; [exact Ha|left]. eexists. split; [reflexivity|]. apply no_bytes. discriminate.
Qed.

Lemma router_answered q a : app_ok cfg a -> app_ok cfg (fst (router cfg q a)) /\ answered q (snd (router cfg q a)).
Proof using HL BL C Hcfg.
  intros Ha. unfold router. destruct (rq_target q) as [| |rest] eqn:Hq.
  - apply on_get_answered; [safe_done|discriminate|exact Ha].
  - apply on_get_answered; [apply safe_list_catalog|apply into_response_no_err|exact Ha].
  - destruct (rq_method q); try apply with_body_answered; try apply dispatch_answered; auto.
Qed.

(** Requests one after the other. *)
Fixpoint serve_all (qs : list Request) (a : AppState St) : AppState St * list (outcome OciError Response) :=
  match qs with
  | [] => (a, [])
  | q :: qs => let '(a, r) := router cfg q a in let '(a, rs) := serve_all qs a in (a, r :: rs)
  end.

Lemma serve_all_answered qs a : app_ok cfg a ->
  app_ok cfg (fst (serve_all qs a)) /\ Forall2 answered qs (snd (serve_all qs a)).
Proof using HL BL C Hcfg.
  revert a. induction qs as [|q qs IH]; intros a Ha; cbn; [split; [exact Ha|constructor]|].
  destruct (router_answered q a Ha) as [H1 H2]. destruct (router cfg q a) as [a1 r]. cbn in *.
  destruct (IH a1 H1) as [H3 H4]. destruct (serve_all qs a1) as [a2 rs]. cbn in *. split; [exact H3|constructor; assumption].
Qed.

End Handlers.

(** ** A concrete environment *)

#[export] Existing Instance Memory.memory_store.
#[export] Existing Instance Memory.memory_laws.

Definition sample_blob : bytes := [x68; x69].
Definition sample_blob_digest : string := Digest.to_string (Digest.sha256_of sample_blob).

(** A manifest with one layer, and a parser that knows it. *)
Definition sample_manifest : bytes := [x7b; x31; x7d].

Definition sample_manifest_value : Value :=
  JObject [("config", JObject [("digest", JString OCI_EMPTY_DESCRIPTOR_DIGEST)]);
           ("layers", JArray [JObject [("digest", JString sample_blob_digest)]])]%string.

#[export] Instance toy_http : HttpLib := {
  header_value_ok _ := true;
  header_to_str_ok _ := true;
  json_parse b := if bool_decide (b = sample_manifest) then Some sample_manifest_value else None;
}.

Definition sample_app_cfg : AppConfig := mkAppConfig sample_cfg MAX_UPLOAD_SESSION_BYTES.

Definition sample_app : AppState InMemoryBlobStore := AppState.new Memory.new (sample_registry InMemoryState_default []).

Definition sample_env : ReqEnv := mkReqEnv 5 6 "u1".

Definition sample_request (m : Method) (rest : string) (params : gmap string string) (hs : headers) (b : bytes) : Request :=
  mkRequest m (TRest rest) params hs b sample_env.

Lemma sample_config_valid : config_valid sample_app_cfg.
Proof. split; [exists ["data"%string]; reflexivity|split; [discriminate|reflexivity]]. Defined.

Lemma empty_store_ok : bs_ok (S := InMemoryBlobStore) Memory.new.
Proof. exact (map_Forall_empty _). Defined.

(** ** Properties *)

(** C1: The server's invariant. Boot the registry from any disk over any
    correct blob store and serve any sequence of requests, whatever system
    calls fail. Every request is answered with a response, save that a path
    outside ASCII may panic its handler (and the invariant holds then too); every
    body served has the digest its [Docker-Content-Digest] header advertises
    (or is a part of such a body, for a 206); and in the state reached every
    manifest is stored under its SHA-256 digest, the blob store is sound, the
    number of open upload sessions is within the limit and no session buffers
    more bytes than the cap. *)
Theorem server_invariant {St : Type} `{HB : BlobStore St} `{H : Hashing} {HL : HashingLaws H} {BL : BlobStoreLaws St}
    `{C : SnapshotCodec} `{L : HttpLib} (cap : Z) (dir : path) (w : World) (rcfg : RegistryConfig) (r0 : Registry) (s : St)
    (qs : list Request) (a' : AppState St) (rs : list (outcome OciError Response))
    (Hcap : 0 <= cap < U64_MAX) (Hboot : with_persistence dir w = (rcfg, r0)) (Hs : bs_ok s)
    (Hserve : serve_all (mkAppConfig rcfg cap) qs (AppState.new s r0) = (a', rs)) :
  Forall2 answered qs rs /\
  bs_ok (blob_store a') /\ content_ok (inner (registry a')) /\
  (size (uploads (inner (registry a'))) <= max_sessions (limits rcfg))%nat /\
  map_Forall (fun _ u => UploadState.offset u <= cap) (uploads (inner (registry a'))).
Proof using.
  destruct (boot_content dir w) as [Hc Hu]. rewrite Hboot in Hc, Hu. cbn in Hc, Hu.
  assert (Hv : config_valid (mkAppConfig rcfg cap)).
  { split; [|exact Hcap]. unfold with_persistence in Hboot. destruct (load_snapshot _ (w_fs w)) as [f o].
    injection Hboot as <- _. exists dir. reflexivity. }
  assert (Ha : app_ok (mkAppConfig rcfg cap) (AppState.new s r0)).
  { split; [exact Hs|]. split; [split; [exact Hc|cbn; rewrite Hu, map_size_empty; lia]|].
    unfold sessions_capped. cbn. rewrite Hu. apply map_Forall_empty. }
  destruct (serve_all_answered _ Hv qs _ Ha) as [[H1 [[H2 H3] H4]] H5]. rewrite Hserve in *. cbn in *.
  split_and!; assumption.
Qed.

(** A blob is pushed, its manifest is pushed by tag, both are pulled, and a
    stray path is refused. *)
Definition sample_requests : list Request :=
  [ sample_request POST "lib/app/blobs/uploads/" {[ "digest" := sample_blob_digest ]} [] sample_blob;
    sample_request PUT "lib/app/manifests/v1" ∅ [("content-type", OCI_IMAGE_MANIFEST)]%string sample_manifest;
    sample_request GET ("lib/app/blobs/" ++ sample_blob_digest) ∅ [] [];
    sample_request GET "lib/app/manifests/v1" ∅ [] [];
    sample_request GET "lib/app" ∅ [] [] ].

Lemma server_invariant_witness :
  let boot := with_persistence ["data"%string] (world (sample_registry InMemoryState_default [])) in
  let run := serve_all (mkAppConfig (fst boot) 1000) sample_requests (AppState.new Memory.new (snd boot)) in
  Forall2 answered sample_requests (snd run) /\
  (fun o => status <$> ok_of o) <$> snd run = [Some 201; Some 201; Some 200; Some 200; Some 404] /\
  (resp_body <$> (snd run !! 3%nat ≫= ok_of)) = Some (BBytes sample_manifest).
Proof.
  intros boot run. split_and!; [|vm_compute; reflexivity|vm_compute; reflexivity].
  refine (proj1 (server_invariant 1000 ["data"%string] (world (sample_registry InMemoryState_default [])) (fst boot) (snd boot)
    Memory.new sample_requests (fst run) (snd run) _ _ empty_store_ok _)).
  - unfold U64_MAX. lia.
  - apply surjective_pairing.
  - apply surjective_pairing.
Defined.
