(* ===== verification/OciPush.v ===== *)
(** * Pushing and pulling, end to end

    What a client observes: a chunked upload stores the concatenation of its
    chunks, a pushed manifest can be pulled, a range request gets exactly the
    bytes it names, and the blob gauge counts the stored blobs. *)

From S2P Require Import Prelude Str Frame Net Fs Digest BlobStore OciError OciReference OciUpload OciRegistry OciRegistryProps OciRegistrySteps Json Http OciHttp OciBlobHandlers OciManifestHandlers OciRouter OciServer OciServerProps.

Local Open Scope Z_scope.

(** [HeaderValue::to_str] accepts visible ASCII, and [HeaderValue::from_str]
    accepts it too. *)
Definition is_visible (c : ascii) : bool := in_range "032" "126" c.

Class HttpLibLaws (L : HttpLib) := {
  to_str_visible : forall v, str_all is_visible v = true -> header_to_str_ok v = true;
  from_str_visible : forall v, str_all is_visible v = true -> header_value_ok v = true;
}.

#[export] Instance toy_http_laws : HttpLibLaws toy_http.
Proof. split; reflexivity. Defined.

(** ** A client that uploads in chunks *)

(** A chunk, sent with its Content-Range or without. *)
Record Chunk := mkChunk { ck_env : ReqEnv; ck_declare : bool; ck_body : bytes }.

Definition chunk_headers (off : Z) (c : Chunk) : headers :=
  if ck_declare c && negb (bool_decide (ck_body c = []))
  then [("content-range"%string, ContentRange.print (mkContentRange off (off + zlen (ck_body c) - 1)))] else [].

Section Client.
Context {St : Type} `{HB : BlobStore St} `{H : Hashing} `{C : SnapshotCodec} `{L : HttpLib} (cfg : AppConfig).

Fixpoint patch_all (name uuid : string) (off : Z) (cs : list Chunk) (a : AppState St)
    : AppState St * list (outcome OciError Response) :=
  match cs with
  | [] => (a, [])
  | c :: cs =>
    let '(a, r) := patch_upload cfg (ck_env c) name uuid (chunk_headers off c) (ck_body c) a in
    let '(a, rs) := patch_all name uuid (off + zlen (ck_body c)) cs a in (a, r :: rs)
  end.

Definition chunks_body (cs : list Chunk) : bytes := concat (ck_body <$> cs).

(** ** Lemmas: one session *)

Local Abbreviation ttl := (idle_ttl (limits (registry_cfg cfg))).

(** The session [uuid] of [name] buffers [buf] and was last written at [t]. *)
Definition session (name uuid : string) (buf : bytes) (t : Z) (a : AppState St) : Prop :=
  exists n u, uploads (inner (registry a)) !! (name, uuid) = Some (mkUploadState n u buf t).

Lemma call_registry {A} (f : BlobStoreError -> OciError) (m : stm Registry BlobStoreError A) (s : St) g k r x :
  m g = (r, x) -> call_with f (AppState.on_registry m) (mkApp s g k) = (mkApp s r k, map_err f x).
Proof. intros Hm. unfold call_with, AppState.on_registry. cbn. rewrite Hm. reflexivity. Qed.

Lemma get_live now name uuid u r :
  uploads (inner r) !! (name, uuid) = Some u -> UploadState.is_idle_for now ttl u = false ->
  get_upload_state (registry_cfg cfg) now name uuid r = (r, Ok (Some u)).
Proof. intros Hu Hi. unfold get_upload_state. run_st. rewrite Hu, Hi. reflexivity. Qed.

Lemma not_idle now t n u buf ttl : now < t + ttl -> 0 < ttl -> UploadState.is_idle_for now ttl (mkUploadState n u buf t) = false.
Proof. intros Ht Hp. unfold UploadState.is_idle_for. cbn. apply Z.leb_gt. lia. Qed.

Lemma append_live now name uuid n u buf t chunk r :
  uploads (inner r) !! (name, uuid) = Some (mkUploadState n u buf t) ->
  append_upload now name uuid (zlen buf) chunk r =
    (set_uploads (<[(name, uuid) := mkUploadState n u (buf ++ chunk) now]> (uploads (inner r))) r, Ok (zlen (buf ++ chunk))).
Proof.
  intros Hu. unfold append_upload. run_st. rewrite Hu. unfold UploadState.offset. cbn [up_buffer]. rewrite Z.eqb_refl.
  reflexivity.
Qed.

Lemma take_live name uuid n u buf t r :
  uploads (inner r) !! (name, uuid) = Some (mkUploadState n u buf t) ->
  take_upload_bytes name uuid r = (set_uploads (<[(name, uuid) := mkUploadState n u [] t]> (uploads (inner r))) r, Ok (Some buf)).
Proof. intros Hu. unfold take_upload_bytes. run_st. rewrite Hu. reflexivity. Qed.

(** The range header of the client is accepted at the current offset. *)
Lemma chunk_start_client {LL : HttpLibLaws L} off c :
  0 <= off -> off + zlen (ck_body c) <= U64_MAX -> chunk_start (chunk_headers off c) off (ck_body c) = Ok off.
Proof.
  intros Hoff Hmax. unfold chunk_start, chunk_headers. destruct (ck_declare c); cbn [andb]; [|reflexivity].
  case_bool_decide as Hb; [reflexivity|]. cbn [negb]. unfold header_get. cbn [find]. rewrite bool_decide_true by reflexivity.
  cbn [fmap option_fmap option_map snd]. set (r := mkContentRange off (off + zlen (ck_body c) - 1)).
  assert (Hlen : 1 <= zlen (ck_body c)) by (unfold zlen; destruct (ck_body c); [contradiction|cbn; lia]).
  rewrite to_str_visible.
  2: { apply print_chars; [|reflexivity]. intros ch. unfold is_ascii_digit, is_visible, in_range.
       intros [H1 H2]%andb_prop. apply N.leb_le in H1, H2. apply andb_true_intro.
       split; apply N.leb_le; [etransitivity; [|exact H1]|etransitivity; [exact H2|]]; discriminate. }
  cbn [negb]. rewrite parse_print by (unfold is_u64; cbn; lia). cbn [map_err mbind outcome_bind].
  unfold ContentRange.checked_length, u64_checked_sub, u64_checked_add. cbn [r cr_start cr_end].
  rewrite !(proj2 (Z.leb_le _ _)) by lia. cbn [ok_or mbind outcome_bind].
  replace (off + zlen (ck_body c) - 1 - off + 1) with (zlen (ck_body c)) by lia. rewrite Z.eqb_refl. reflexivity.
Qed.

Lemma within_cap cap cur inc : cap < U64_MAX -> cur + inc <= cap -> would_exceed_cap cap cur inc = false.
Proof. intros. unfold would_exceed_cap, u64_saturating_add. apply Z.ltb_ge. lia. Qed.

Lemma uploads_set u r : uploads (inner (set_uploads u r)) = u.
Proof. reflexivity. Qed.

(** One accepted chunk. *)
Lemma patch_accepted {LL : HttpLibLaws L} name uuid buf t c a :
  validate_name name = Ok tt -> max_upload_session_bytes cfg < U64_MAX ->
  session name uuid buf t a -> 0 < ttl -> now_lookup (ck_env c) < t + ttl ->
  zlen buf + zlen (ck_body c) <= max_upload_session_bytes cfg ->
  exists a' hs, patch_upload cfg (ck_env c) name uuid (chunk_headers (zlen buf) c) (ck_body c) a = (a', Ok (mkResponse 202 hs BEmpty)) /\
    blob_store a' = blob_store a /\ blob_count a' = blob_count a /\
    session name uuid (buf ++ ck_body c) (now_write (ck_env c)) a'.
Proof.
  intros Hn Hmax (n & u & Hu) Hp Ht Hcap. destruct a as [s g k]. cbn in Hu. unfold patch_upload, into_response, call. run_st. rewrite Hn.
  rewrite (call_registry _ _ _ _ _ _ _ (get_live _ _ _ _ _ Hu (not_idle _ _ _ _ _ _ Ht Hp))). cbn [map_err ok_or registry blob_store blob_count].
  unfold UploadState.offset. cbn [up_buffer].
  rewrite chunk_start_client by (auto using zlen_nonneg; lia). rewrite Z.eqb_refl. cbn [negb].
  rewrite within_cap by lia. rewrite (call_registry _ _ _ _ _ _ _ (append_live _ _ _ _ _ _ _ _ _ Hu)). cbn [map_err].
  eexists _, _. split_and!; [reflexivity|reflexivity|reflexivity|]. exists n, u. cbn. apply lookup_insert_eq.
Qed.

(** Every clock reading of a request falls in one idle window. *)
Definition in_window (t0 : Z) (env : ReqEnv) : Prop :=
  t0 <= now_lookup env < t0 + ttl /\ t0 <= now_write env < t0 + ttl.

Lemma window_live t0 t env : t0 <= t -> in_window t0 env -> 0 < ttl /\ now_lookup env < t + ttl.
Proof. unfold in_window. lia. Qed.

Lemma chunks_body_cons c cs : chunks_body (c :: cs) = ck_body c ++ chunks_body cs.
Proof. reflexivity. Qed.

Definition accepted (o : outcome OciError Response) : Prop := exists hs, o = Ok (mkResponse 202 hs BEmpty).

(** All the chunks are accepted and buffered in order. *)
Lemma patch_all_accepted {LL : HttpLibLaws L} name uuid t0 cs : validate_name name = Ok tt -> max_upload_session_bytes cfg < U64_MAX ->
  forall buf t a, session name uuid buf t a -> t0 <= t < t0 + ttl -> Forall (fun c => in_window t0 (ck_env c)) cs ->
  zlen buf + zlen (chunks_body cs) <= max_upload_session_bytes cfg ->
  exists a' rs t', patch_all name uuid (zlen buf) cs a = (a', rs) /\ Forall accepted rs /\ length rs = length cs /\
    blob_store a' = blob_store a /\ session name uuid (buf ++ chunks_body cs) t' a' /\ t0 <= t' < t0 + ttl.
Proof.
  intros Hn Hmax. induction cs as [|c cs IH]; intros buf t a Hs Ht Hall Hcap.
  - exists a, [], t. cbn. rewrite app_nil_r. auto 10.
  - apply Forall_cons in Hall as [Hc Hall]. rewrite chunks_body_cons, zlen_app in Hcap.
    pose proof (zlen_nonneg (chunks_body cs)). destruct (window_live t0 t (ck_env c) ltac:(lia) Hc) as [Hp Hl].
    destruct (patch_accepted name uuid buf t c a Hn Hmax Hs Hp Hl ltac:(lia)) as (a1 & hs & E1 & Hb & _ & Hs1).
    destruct (IH (buf ++ ck_body c) (now_write (ck_env c)) a1 Hs1) as (a2 & rs & t' & E2 & Hrs & Hlen & Hb2 & Hs2 & Ht2);
      [apply Hc|exact Hall|rewrite zlen_app; lia|].
    exists a2, (Ok (mkResponse 202 hs BEmpty) :: rs), t'. cbn [patch_all]. rewrite E1. rewrite zlen_app in E2. rewrite E2.
    rewrite chunks_body_cons, app_assoc. split_and!; auto; [constructor; [eexists; reflexivity|exact Hrs]|cbn; congruence|congruence|lia|lia].
Qed.

(** An admitted session starts empty. *)
Lemma init_accepted env name a :
  validate_name name = Ok tt ->
  (size (fst (sweep_idle_uploads (now_write env) ttl (uploads (inner (registry a))))) < max_sessions (limits (registry_cfg cfg)))%nat ->
  exists a' hs, init_upload cfg env name ∅ [] a = (a', Ok (mkResponse 202 hs BEmpty)) /\
    blob_store a' = blob_store a /\ session name (fresh_uuid env) [] (now_write env) a'.
Proof.
  intros Hn Hsz. destruct a as [s g k]. cbn in Hsz. unfold init_upload, into_response, call. run_st. rewrite Hn, lookup_empty.
  erewrite call_registry.
  2: { unfold start_upload. run_st. rewrite (proj2 (Nat.leb_gt _ _)) by exact Hsz. reflexivity. }
  cbn [map_err]. eexists _, _. split_and!; [reflexivity|reflexivity|]. eexists _, _. cbn. apply lookup_insert_eq.
Qed.

End Client.

(** ** Lemmas: completing an upload *)

Section Finish.
Context {St : Type} `{HB : BlobStore St} `{H : Hashing} {HL : HashingLaws H} {BL : BlobStoreLaws St}
  `{C : SnapshotCodec} `{L : HttpLib} (cfg : AppConfig).

Local Abbreviation ttl := (idle_ttl (limits (registry_cfg cfg))).

(** Storing bytes under their digest, when no failure lies ahead. *)
Lemma store_counted_quiet d b s g k :
  bs_ok s -> bs_quiet s -> Digest.valid d -> matches d b ->
  exists s', AppState.store_blob_counted d b (mkApp s g k) =
    (mkApp s' g (if bool_decide (is_Some (bs_view s d)) then k else AppState.i64_wrap (k + 1)), Ok tt) /\
    bs_ok s' /\ bs_quiet s' /\ bs_view s' d = Some b.
Proof.
  intros Hok Hq Hd Hm. unfold AppState.store_blob_counted, AppState.contains_or_false, AppState.on_store, AppState.inc_blob_count.
  run_st. cbn [blob_store registry blob_count].
  destruct (contains_spec s d Hok Hd) as (Hok1 & _ & _). destruct (contains_quiet s d Hok Hq Hd) as (Hq1 & Hr1).
  destruct (bs_contains d s) as [s1 r1]. cbn in Hok1, Hq1, Hr1. subst r1. cbn [blob_store registry blob_count].
  destruct (put_quiet s1 d b Hok1 Hq1 Hd Hm) as (Hr2 & Hq2 & Hv2). pose proof (put_keeps_ok s1 d b Hok1 Hd) as Hok2.
  destruct (bs_put d b s1) as [s2 r2]. cbn in *. subst r2. exists s2. cbn. case_bool_decide; cbn; auto.
Qed.

Lemma append_final_ok env name uuid n u buf t body s g k :
  max_upload_session_bytes cfg < U64_MAX -> zlen buf + zlen body <= max_upload_session_bytes cfg ->
  uploads (inner g) !! (name, uuid) = Some (mkUploadState n u buf t) ->
  exists g' t', append_final (St := St) cfg env name uuid (mkUploadState n u buf t) body (mkApp s g k) = (mkApp s g' k, Ok tt) /\
    uploads (inner g') !! (name, uuid) = Some (mkUploadState n u (buf ++ body) t').
Proof.
  intros Hmax Hcap Hu. unfold append_final. case_bool_decide as Hb.
  - subst body. rewrite app_nil_r. exists g, t. auto.
  - cbv zeta. unfold UploadState.offset. cbn [up_buffer]. rewrite within_cap by lia. unfold call. run_st.
    rewrite (call_registry _ _ _ _ _ _ _ (append_live _ _ _ _ _ _ _ _ _ Hu)). cbn [map_err].
    eexists _, _. split; [reflexivity|]. cbn. apply lookup_insert_eq.
Qed.

(** The final PUT stores the buffered bytes and closes the session. *)
Lemma finish_accepted env name uuid buf t body (a : AppState St) :
  validate_name name = Ok tt -> max_upload_session_bytes cfg < U64_MAX ->
  session name uuid buf t a -> 0 < ttl -> now_lookup env < t + ttl ->
  zlen buf + zlen body <= max_upload_session_bytes cfg -> bs_ok (blob_store a) -> bs_quiet (blob_store a) ->
  let d := Digest.sha256_of (buf ++ body) in
  exists a' hs, finish_upload cfg env name uuid {[ "digest"%string := Digest.to_string d ]} body a = (a', Ok (mkResponse 201 hs BEmpty)) /\
    bs_ok (blob_store a') /\ bs_quiet (blob_store a') /\ bs_view (blob_store a') d = Some (buf ++ body) /\
    uploads (inner (registry a')) !! (name, uuid) = None.
Proof using HL.
  intros Hn Hmax (n & u & Hu) Hp Ht Hcap Hok Hq d. destruct a as [s g k]. cbn in Hu, Hok, Hq.
  unfold finish_upload, into_response. run_st. unfold call. rewrite Hn, lookup_singleton_eq. cbn [ok_or].
  unfold parse_digest. rewrite Digest.from_str_to_string by apply Digest.sha256_of_valid. cbn [map_err].
  rewrite (call_registry _ _ _ _ _ _ _ (get_live _ _ _ _ _ _ Hu (not_idle _ _ _ _ _ _ Ht Hp))). cbn [map_err ok_or].
  destruct (append_final_ok env name uuid n u buf t body s g k Hmax Hcap Hu) as (g1 & t1 & E1 & Hu1). rewrite E1.
  rewrite (call_registry _ _ _ _ _ _ _ (take_live _ _ _ _ _ _ _ Hu1)). cbn [map_err ok_or]. cbv zeta. fold d. rewrite (bool_decide_true (hex d = hex d)) by reflexivity. rewrite andb_false_r.
  match goal with |- context [mkApp s ?g2 k] => 
    destruct (store_counted_quiet d (buf ++ body) s g2 k Hok Hq (Digest.sha256_of_valid _) (sha256_matches _))
      as (s' & E2 & Hok' & Hq' & Hv') end.
  unfold call_with at 1. rewrite E2. cbn [map_err].
  erewrite call_registry by (unfold complete_upload; run_st; reflexivity). cbn [map_err].
  eexists _, _. split_and!; [reflexivity|exact Hok'|exact Hq'|exact Hv'|]. cbn. apply lookup_delete_eq.
Qed.

(** A stored blob is served. *)
Lemma get_blob_stored name d b (a : AppState St) :
  validate_name name = Ok tt -> Digest.valid d -> bs_ok (blob_store a) -> bs_quiet (blob_store a) ->
  bs_view (blob_store a) d = Some b -> Digest.to_string d <> OCI_EMPTY_DESCRIPTOR_DIGEST ->
  snd (get_blob name (Digest.to_string d) a) = Ok (mkResponse 200 (common_blob_headers d (zlen b)) (BBytes b)).
Proof.
  intros Hn Hd Hok Hq Hv Hne. destruct a as [s g k]. cbn in Hok, Hq, Hv. unfold get_blob, into_response. run_st. rewrite Hn.
  unfold parse_digest. rewrite Digest.from_str_to_string by exact Hd. cbn [map_err].
  rewrite bool_decide_false by exact Hne. unfold call_with, AppState.on_store. cbn [blob_store registry blob_count].
  destruct (get_quiet s d Hok Hq Hd) as [_ Hr]. destruct (bs_get d s) as [s' r]. cbn in Hr. rewrite Hr, Hv. reflexivity.
Qed.

End Finish.

(** ** Properties *)

(** C3: A chunked upload stores the concatenation of its chunks. For a valid
    repository name, a server below its session limit over a blob store that
    does not fail, and requests within the idle window whose bytes fit the
    session cap: the POST opens a session (202), every PATCH is accepted
    (202), with its Content-Range or without, the closing PUT under the digest
    of all the bytes is acknowledged (201) and closes the session, and a GET
    of that digest then returns exactly those bytes. *)
Theorem chunked_upload_roundtrip {St : Type} `{HB : BlobStore St} `{H : Hashing} {HL : HashingLaws H} {BL : BlobStoreLaws St}
    `{C : SnapshotCodec} `{L : HttpLib} {LL : HttpLibLaws L} (cfg : AppConfig) (name : string) (a : AppState St)
    (env0 envf : ReqEnv) (cs : list Chunk) (last_chunk : bytes) (t0 : Z)
    (Hname : validate_name name = Ok tt) (Hmax : max_upload_session_bytes cfg < U64_MAX)
    (Hcap : zlen (chunks_body cs ++ last_chunk) <= max_upload_session_bytes cfg)
    (Hadmit : (size (fst (sweep_idle_uploads (now_write env0) (idle_ttl (limits (registry_cfg cfg)))
                 (uploads (inner (registry a))))) < max_sessions (limits (registry_cfg cfg)))%nat)
    (Hclock : Forall (in_window cfg t0) (env0 :: envf :: (ck_env <$> cs)))
    (Hok : bs_ok (blob_store a)) (Hq : bs_quiet (blob_store a)) :
  let whole := chunks_body cs ++ last_chunk in
  let d := Digest.sha256_of whole in
  let '(a1, r0) := init_upload cfg env0 name ∅ [] a in
  let '(a2, rs) := patch_all cfg name (fresh_uuid env0) 0 cs a1 in
  let '(a3, rf) := finish_upload cfg envf name (fresh_uuid env0) {[ "digest"%string := Digest.to_string d ]} last_chunk a2 in
  accepted r0 /\ Forall accepted rs /\ length rs = length cs /\ (exists hs, rf = Ok (mkResponse 201 hs BEmpty)) /\
  uploads (inner (registry a3)) !! (name, fresh_uuid env0) = None /\
  bs_view (blob_store a3) d = Some whole /\
  (Digest.to_string d <> OCI_EMPTY_DESCRIPTOR_DIGEST ->
   snd (get_blob name (Digest.to_string d) a3) = Ok (mkResponse 200 (common_blob_headers d (zlen whole)) (BBytes whole))).
Proof using.
  intros whole d. apply Forall_cons in Hclock as [H0 Hclock]. apply Forall_cons in Hclock as [Hf Hcs].
  rewrite zlen_app in Hcap. pose proof (zlen_nonneg last_chunk).
  destruct (init_accepted cfg env0 name a Hname Hadmit) as (a1 & hs0 & E1 & Hb1 & Hs1). rewrite E1.
  destruct (patch_all_accepted cfg name (fresh_uuid env0) t0 cs Hname Hmax [] (now_write env0) a1 Hs1)
    as (a2 & rs & t & E2 & Hrs & Hlen & Hb2 & Hs2 & Ht); [apply H0|exact (proj1 (Forall_fmap _ _ _) Hcs)|rewrite zlen_nil; lia|].
  change (zlen (@nil byte)) with 0 in E2. rewrite E2, app_nil_l in *.
  destruct (window_live cfg t0 t envf ltac:(lia) Hf) as [Hp Hl].
  destruct (finish_accepted cfg envf name (fresh_uuid env0) _ t last_chunk a2 Hname Hmax Hs2 Hp Hl)
    as (a3 & hs & E3 & Hok3 & Hq3 & Hv3 & Hu3); [lia|congruence|congruence|].
  unfold d, whole. rewrite E3. split_and!; [eexists; reflexivity|exact Hrs|exact Hlen|eauto|exact Hu3|exact Hv3|].
  intros Hne. apply get_blob_stored; auto using Digest.sha256_of_valid.
Qed.

Lemma chunked_upload_roundtrip_witness :
  let env := sample_env in
  let cs := [mkChunk env true [x61; x62]; mkChunk env false [x63]] in
  let '(a1, r0) := init_upload sample_app_cfg env "lib/app" ∅ [] sample_app in
  let '(a2, rs) := patch_all sample_app_cfg "lib/app" "u1" 0 cs a1 in
  Forall accepted rs /\
  blob_store (fst (finish_upload sample_app_cfg env "lib/app" "u1"
    {[ "digest"%string := Digest.to_string (Digest.sha256_of [x61; x62; x63; x64]) ]} [x64] a2)) !!
    Digest.sha256_of [x61; x62; x63; x64] = Some [x61; x62; x63; x64].
Proof.
  pose proof (chunked_upload_roundtrip sample_app_cfg "lib/app" sample_app sample_env sample_env
    [mkChunk sample_env true [x61; x62]; mkChunk sample_env false [x63]] [x64] 0) as Hw.
  cbv zeta beta in Hw |- *.
  change (fresh_uuid sample_env) with "u1"%string in Hw.
  change (chunks_body [mkChunk sample_env true [x61; x62]; mkChunk sample_env false [x63]] ++ [x64])%list
    with [x61; x62; x63; x64] in Hw.
  destruct (init_upload _ _ _ _ _ _) as [a1 r0]. destruct (patch_all _ _ _ _ _ a1) as [a2 rs].
  destruct (finish_upload _ _ _ _ _ _ a2) as [a3 rf]. 
  assert (Hall : Forall (in_window sample_app_cfg 0) [sample_env; sample_env; sample_env; sample_env])
    by (repeat constructor; vm_compute; congruence).
  destruct Hw as (_ & Hrs & _ & _ & _ & Hv & _); [vm_compute; reflexivity|vm_compute; reflexivity|vm_compute; congruence|
    apply Nat.ltb_lt; vm_compute; reflexivity|exact Hall|exact empty_store_ok|exact I|].
  split; [exact Hrs|exact Hv].
Defined.
