(* ===== verification/OciPull.v ===== *)
(** * Pushing manifests, pulling ranges, counting blobs

    The acceptance condition of a manifest push and that an accepted manifest
    can be pulled; the exact answer to a byte-range request; and the blob gauge
    against the in-memory store. *)

From S2P Require Import Prelude Str Frame Net Fs Digest BlobStore OciError OciReference OciUpload OciRegistry OciRegistryProps OciRegistrySteps OciListing Json Http OciHttp OciBlobHandlers OciManifestHandlers OciRouter OciServer OciServerProps OciPush.

Local Open Scope Z_scope.

(** ** What a manifest refers to *)

Definition digests_of (l : list Value) : list string := omap (fun v => Value.get "digest" v ≫= Value.as_str) l.

Definition referenced_blobs (v : Value) : list string :=
  digests_of (option_list (JObject <$> (Value.get "config" v ≫= Value.as_object))) ++
  digests_of (default [] (Value.get "layers" v ≫= Value.as_array)).

Definition index_entries (v : Value) : list string :=
  digests_of (default [] (Value.get "manifests" v ≫= Value.as_array)).

Section Push.
Context {St : Type} `{HB : BlobStore St} `{H : Hashing} {HL : HashingLaws H} {BL : BlobStoreLaws St}
  `{C : SnapshotCodec} `{L : HttpLib} (cfg : AppConfig).

(** The blob is stored, or is the empty descriptor. *)
Definition blob_present (a : AppState St) (ds : string) : Prop :=
  ds = OCI_EMPTY_DESCRIPTOR_DIGEST \/ exists d, Digest.from_str ds = Ok d /\ is_Some (bs_view (blob_store a) d).

(** The entry is a manifest of the repository or a stored blob. *)
Definition entry_present (name : string) (a : AppState St) (ds : string) : Prop :=
  exists d, Digest.from_str ds = Ok d /\
    ((exists x, get_manifest name (RDigest d) (registry a) = (registry a, Ok (Some x))) \/ is_Some (bs_view (blob_store a) d)).

(** [a'] has the metadata of [a] and its blobs. *)
Definition same_content (a a' : AppState St) : Prop :=
  registry a' = registry a /\ bs_ok (blob_store a') /\
  forall e, Digest.valid e -> bs_view (blob_store a') e = bs_view (blob_store a) e.

Lemma same_content_refl a : bs_ok (blob_store a) -> same_content a a.
Proof. intros Hok. split_and!; auto. Qed.

Lemma same_content_trans a b c : same_content a b -> same_content b c -> same_content a c.
Proof. intros (H1 & _ & H3) (H4 & H5 & H6). split_and!; [congruence|exact H5|]. intros e He. rewrite H6, H3 by exact He. reflexivity. Qed.

(** A check: on success the property holds of every state with the content of
    the one it started in, and it changes no content. *)
Definition checks (m : stm (AppState St) OciError unit) (P : AppState St -> Prop) : Prop :=
  forall a a', bs_ok (blob_store a) -> m a = (a', Ok tt) -> same_content a a' /\ P a.

Lemma call_contains d a a' x : bs_ok (blob_store a) -> Digest.valid d ->
  call (AppState.on_store (bs_contains d)) a = (a', Ok x) ->
  same_content a a' /\ x = bool_decide (is_Some (bs_view (blob_store a) d)).
Proof.
  intros Hok Hd. destruct a as [s g k]. unfold call, call_with, AppState.on_store. cbn.
  destruct (contains_spec s d Hok Hd) as (H1 & H2 & H3). destruct (bs_contains d s) as [s' [y|e|]]; cbn in *; try discriminate.
  intros [= <- <-]. split; [split_and!; auto|exact H3].
Qed.

Lemma checks_blob ds : checks (check_blob_present ds) (fun a => blob_present a ds).
Proof.
  intros a a' Hok. unfold check_blob_present. case_bool_decide as He.
  - intros [= <-]. split; [apply same_content_refl, Hok|left; exact He].
  - run_st. destruct (Digest.from_str ds) as [d| |] eqn:Ed; cbn; try discriminate.
    destruct (call (AppState.on_store (bs_contains d)) a) as [a1 [x|e|]] eqn:Ec; try discriminate.
    apply call_contains in Ec as [Hs ->]; [|exact Hok|exact (Digest.from_str_valid ds d Ed)].
    case_bool_decide as Hv; cbn; [|discriminate]. intros [= <-]. split; [exact Hs|right; eauto].
Qed.

Lemma get_manifest_state name reference r : fst (get_manifest name reference r) = r.
Proof. unfold get_manifest. run_st. repeat case_match; reflexivity. Qed.

Lemma checks_entry name ds : checks (check_manifest_present name ds) (fun a => entry_present name a ds).
Proof.
  intros a a' Hok. unfold check_manifest_present. run_st.
  destruct (Digest.from_str ds) as [d| |] eqn:Ed; cbn; try discriminate.
  pose proof (get_manifest_state name (RDigest d) (registry a)) as Hst. unfold call at 1.
  destruct a as [s g k]. cbn in Hst, Hok |- *. destruct (get_manifest name (RDigest d) g) as [g' o] eqn:Eg. cbn in Hst. subst g'.
  rewrite (call_registry _ _ s g k _ _ Eg). destruct o as [[x|]|e|]; cbn [map_err]; try discriminate.
  - intros [= <-]. split; [apply same_content_refl, Hok|]. exists d. split; [exact Ed|left]. exists x. exact Eg.
  - destruct (call (AppState.on_store (bs_contains d)) (mkApp s g k)) as [a1 [x|e|]] eqn:Ec; try discriminate.
    apply call_contains in Ec as [Hs ->]; [|exact Hok|exact (Digest.from_str_valid ds d Ed)].
    case_bool_decide as Hv; cbn; [|discriminate]. intros [= <-]. split; [exact Hs|]. exists d. split; [exact Ed|right; exact Hv].
Qed.

(** The property depends on the content alone. *)
Definition stable (P : AppState St -> Prop) : Prop := forall a a', same_content a a' -> P a' -> P a.

Lemma stable_blob ds : stable (fun a => blob_present a ds).
Proof.
  intros a a' (_ & _ & Hv) [->|(d & Ed & Hs)]; [left; reflexivity|right]. exists d.
  rewrite Hv in Hs by exact (Digest.from_str_valid ds d Ed). auto.
Qed.

Lemma stable_entry name ds : stable (fun a => entry_present name a ds).
Proof.
  intros a a' (Hr & _ & Hv) (d & Ed & Hs). exists d. rewrite Hr, Hv in Hs by exact (Digest.from_str_valid ds d Ed). auto.
Qed.

Lemma checks_then (m k : stm (AppState St) OciError unit) P Q : checks m P -> checks k Q -> stable Q ->
  checks (m;; k) (fun a => P a /\ Q a).
Proof.
  intros Hm Hk HQ a a' Hok. run_st. destruct (m a) as [a1 [[]|e|]] eqn:Em; try discriminate. intros Ek.
  destruct (Hm a a1 Hok Em) as [Hs HP]. destruct (Hk a1 a' (proj1 (proj2 Hs)) Ek) as [Hs' Hq].
  split; [exact (same_content_trans _ _ _ Hs Hs')|]. split; [exact HP|exact (HQ _ _ Hs Hq)].
Qed.

Lemma checks_weaken m (P Q : AppState St -> Prop) : checks m P -> (forall a, P a -> Q a) -> checks m Q.
Proof. intros Hm Hpq a a' Hok Ha. destruct (Hm a a' Hok Ha) as [Hs HP]. auto. Qed.

Lemma checks_ret (P : AppState St -> Prop) : (forall a, P a) -> checks (mret tt) P.
Proof. intros HP a a' Hok [= <-]. split; [apply same_content_refl, Hok|apply HP]. Qed.

(** The loop over a list of descriptors checks each digest in it. *)
Lemma checks_list (f : string -> stm (AppState St) OciError unit) (P : string -> AppState St -> Prop) l :
  (forall ds, checks (f ds) (P ds)) -> (forall ds, stable (P ds)) ->
  checks (for_each (if_digest f) l) (fun a => Forall (fun ds => P ds a) (digests_of l)).
Proof.
  intros Hf HP. induction l as [|v l IH]; cbn [for_each]; [apply checks_ret; constructor|].
  eapply checks_weaken; [apply (checks_then _ _ (fun a => forall ds, Value.get "digest" v ≫= Value.as_str = Some ds -> P ds a)
    (fun a => Forall (fun ds => P ds a) (digests_of l)))|].
  - unfold if_digest. destruct (Value.get "digest" v ≫= Value.as_str) as [ds|].
    + eapply checks_weaken; [apply Hf|]. intros a Ha ds' [= <-]. exact Ha.
    + apply checks_ret. discriminate.
  - exact IH.
  - intros a a' Hs Hall. rewrite Forall_forall in Hall |- *.
    intros ds Hds. exact (HP ds _ _ Hs (Hall ds Hds)).
  - intros a [H1 H2]. unfold digests_of in *. cbn. destruct (Value.get "digest" v ≫= Value.as_str) as [ds|]; [|exact H2].
    constructor; [exact (H1 ds eq_refl)|exact H2].
Qed.

Lemma verify_checks name parsed kind :
  checks (verify_referenced_blobs name parsed kind) (fun a =>
    match kind with
    | ImageIndex => Forall (entry_present name a) (index_entries parsed)
    | _ => Forall (blob_present a) (referenced_blobs parsed)
    end).
Proof.
  assert (Hlist : forall l, checks (for_each (if_digest check_blob_present) l) (fun a => Forall (blob_present a) (digests_of l)))
    by (intros l; apply (checks_list check_blob_present (fun ds a => blob_present a ds)); [apply checks_blob|apply stable_blob]).
  assert (Hblobs : checks (verify_referenced_blobs name parsed ImageManifest) (fun a => Forall (blob_present a) (referenced_blobs parsed))).
  { unfold verify_referenced_blobs, referenced_blobs.
    set (l1 := digests_of (option_list _)). set (l2 := digests_of (default [] _)).
    apply (checks_weaken _ (fun a => Forall (blob_present a) l1 /\ Forall (blob_present a) l2));
      [|intros a; apply Forall_app].
    apply checks_then; unfold l1, l2.
    - destruct (Value.get "config" parsed ≫= Value.as_object) as [o|]; [|apply checks_ret; constructor].
      eapply checks_weaken; [|intros a Ha; exact Ha]. intros a a' Hok Hm. apply (Hlist [JObject o] a a' Hok).
      cbn [for_each]. run_st. rewrite Hm. reflexivity.
    - destruct (Value.get "layers" parsed ≫= Value.as_array) as [ls|]; [apply Hlist|apply checks_ret; constructor].
    - intros a a' Hs Hall. rewrite Forall_forall in Hall |- *. intros ds Hds. exact (stable_blob ds _ _ Hs (Hall ds Hds)). }
  destruct kind; [exact Hblobs| |exact Hblobs]. unfold verify_referenced_blobs, index_entries.
  destruct (Value.get "manifests" parsed ≫= Value.as_array) as [ms|]; [|apply checks_ret; constructor].
  apply (checks_list (check_manifest_present name) (fun ds a => entry_present name a ds)); [apply checks_entry|apply stable_entry].
Qed.

(** The statements before the put, when they all pass. *)
Lemma put_handler_accepted name rs hs body a a' hs' :
  bs_ok (blob_store a) ->
  put_manifest_handler cfg name rs hs body a = (a', Ok (mkResponse 201 hs' BEmpty)) ->
  exists reference ct kind parsed a1,
    validate_name name = Ok tt /\ Reference.from_str rs = Ok reference /\ header_get_str hs "content-type" = Some ct /\
    classify_manifest_media_type ct = Some kind /\ json_parse body = Some parsed /\
    verify_referenced_blobs name parsed kind a = (a1, Ok tt) /\ check_declared reference (Digest.sha256_of body) = Ok tt /\
    put_manifest_with_referrer (registry_cfg cfg) name reference (Digest.sha256_of body) ct body
      (build_referrer parsed (Digest.sha256_of body) ct (zlen body)) (registry a1) = (registry a', Ok tt).
Proof.
  intros Hok. unfold put_manifest_handler, into_response. run_st.
  destruct (validate_name name) as [[]| |] eqn:En; [|discriminate ..].
  destruct (Reference.from_str rs) as [reference| |] eqn:Er; [|discriminate ..].
  destruct (header_get_str hs "content-type") as [ct|] eqn:Ect; [|discriminate]. cbn [ok_or].
  destruct (classify_manifest_media_type ct) as [kind|] eqn:Ek; [|discriminate]. cbn [ok_or].
  destruct (json_parse body) as [parsed|] eqn:Ej; [|discriminate]. cbn [ok_or].
  destruct (verify_referenced_blobs name parsed kind a) as [a1 [[]|e|]] eqn:Ev; [|discriminate ..].
  destruct (check_declared reference (Digest.sha256_of body)) as [[]| |] eqn:Ed; [|discriminate ..].
  destruct a1 as [s g k]. set (m := put_manifest_with_referrer _ _ _ _ _ _ _). destruct (m g) as [g' [[]|e|]] eqn:Ep;
    rewrite (call_registry _ _ s g k _ _ Ep); cbn [map_err]; [|discriminate ..].
  intros [= <- _]. exists reference, ct, kind, parsed, (mkApp s g k). cbn [registry]. auto 10.
Qed.

(** A manifest the registry holds is served in full. *)
Lemma get_handler_full name rs reference d mt body (a : AppState St) :
  validate_name name = Ok tt -> Reference.from_str rs = Ok reference ->
  get_manifest name reference (registry a) = (registry a, Ok (Some (d, mt, body))) ->
  get_manifest_handler name rs [] a = (a, Ok (full_response d mt body)).
Proof.
  intros Hn Hr Hg. destruct a as [s g k]. unfold get_manifest_handler, into_response. run_st.
  rewrite Hn. unfold reference_or_not_found, call. rewrite Hr. cbn [map_err].
  rewrite (call_registry _ _ s g k _ _ Hg). reflexivity.
Qed.

End Push.

(** ** Properties *)

(** C16: A manifest push that is answered with 201 was valid and is pullable.
    The name and the reference were well-formed, the media type was a
    manifest's, the body parsed as JSON, and everything it refers to was
    there: every [config] and [layers] digest is a stored blob or the empty
    descriptor, every entry of an index is a manifest of the repository or a
    stored blob. The reference, if a digest, is the SHA-256 of the body.
    Afterwards a pull by the same reference, and one by digest, returns 200
    with the digest, the media type and the exact bytes. *)
Theorem pushed_manifest_pullable {St : Type} `{HB : BlobStore St} `{H : Hashing} {HL : HashingLaws H} {BL : BlobStoreLaws St}
    `{C : SnapshotCodec} `{L : HttpLib} (cfg : AppConfig) (name rs : string) (hs hs' : headers) (body : bytes)
    (a a' : AppState St) (Hok : bs_ok (blob_store a))
    (Hput : put_manifest_handler cfg name rs hs body a = (a', Ok (mkResponse 201 hs' BEmpty))) :
  let d := Digest.sha256_of body in
  exists reference ct kind parsed,
    validate_name name = Ok tt /\ Reference.from_str rs = Ok reference /\
    (forall d', reference = RDigest d' -> d' = d) /\
    header_get_str hs "content-type" = Some ct /\ classify_manifest_media_type ct = Some kind /\
    json_parse body = Some parsed /\
    match kind with
    | ImageIndex => Forall (entry_present name a) (index_entries parsed)
    | _ => Forall (blob_present a) (referenced_blobs parsed)
    end /\
    get_manifest_handler name rs [] a' = (a', Ok (full_response d ct body)) /\
    get_manifest_handler name (Digest.to_string d) [] a' = (a', Ok (full_response d ct body)).
Proof using.
  intros d. apply put_handler_accepted in Hput as (reference & ct & kind & parsed & a1 & Hn & Hr & Hct & Hk & Hj & Hv & Hd & Hp); [|exact Hok].
  destruct (verify_checks name parsed kind a a1 Hok Hv) as [_ Hpres]. apply put_acknowledged in Hp.
  assert (Hvd : Digest.valid d) by apply Digest.sha256_of_valid.
  assert (Hdec : forall d', reference = RDigest d' -> d' = d).
  { intros [al hx] ->. revert Hd. unfold check_declared, d, Digest.sha256_of. cbn. repeat case_bool_decide; cbn; try discriminate.
    congruence. }
  exists reference, ct, kind, parsed. split_and!; try assumption.
  - eapply get_handler_full; [exact Hn|exact Hr|]. eapply get_applied_put; [exact Hvd|exact Hp|].
    destruct reference as [t|d']; [right; eauto|left]. f_equal. exact (Hdec d' eq_refl).
  - eapply get_handler_full; [exact Hn|exact (reference_valid_parse (RDigest d) Hvd)|].
    eapply get_applied_put; [exact Hvd|exact Hp|left; reflexivity].
Qed.

Lemma pushed_manifest_pullable_witness :
  let a := mkApp {[ Digest.sha256_of sample_blob := sample_blob ]} (sample_registry InMemoryState_default []) 1 in
  let a' := fst (put_manifest_handler sample_app_cfg "lib/app" "v1" [("content-type", OCI_IMAGE_MANIFEST)]%string sample_manifest a) in
  get_manifest_handler "lib/app" (Digest.to_string (Digest.sha256_of sample_manifest)) [] a'
    = (a', Ok (full_response (Digest.sha256_of sample_manifest) OCI_IMAGE_MANIFEST sample_manifest)).
Proof.
  intros a a'.
  pose proof (pushed_manifest_pullable sample_app_cfg "lib/app" "v1" [("content-type", OCI_IMAGE_MANIFEST)]%string
    (resp_headers (default (mkResponse 0 [] BEmpty) (ok_of (snd (put_manifest_handler sample_app_cfg "lib/app" "v1"
       [("content-type", OCI_IMAGE_MANIFEST)]%string sample_manifest a))))) sample_manifest a a') as Hw.
  destruct Hw as (reference & ct & kind & parsed & _ & _ & _ & Hct & _ & _ & _ & _ & Hget).
  - apply map_Forall_singleton. split; [split; vm_compute; reflexivity|reflexivity].
  - apply run_result. vm_compute. reflexivity.
  - assert (Hc : ct = OCI_IMAGE_MANIFEST) by (vm_compute in Hct; injection Hct as <-; reflexivity). rewrite Hget, Hc. reflexivity.
Defined.

(** The [Range] header of a client that wants bytes [s] to [e]. *)
Definition range_value (s e : Z) : string := ("bytes=" ++ display_u64 s ++ "-" ++ display_u64 e)%string.

Lemma parse_range_value s e : is_u64 s -> is_u64 e -> s <= e -> parse_byte_range (range_value s e) = BRange s e.
Proof.
  intros Hs He Hle. unfold parse_byte_range, range_value. change (strip_prefix "bytes=" ("bytes=" ++ ?x)) with (Some x).
  destruct (display_u64_digits s) as [Hne Hds]. destruct (display_u64_digits e) as [Hne' Hde].
  rewrite !str_all_app, (digits_not_char "," (display_u64 s)), (digits_not_char "," (display_u64 e)) by (reflexivity || assumption).
  change (negb (true && (str_all (not_char ",") "-" && true))) with false. cbv iota.
  change ("-" ++ display_u64 e)%string with (String "-" (display_u64 e)).
  rewrite split_once_app by (apply digits_not_char; [reflexivity|assumption]).
  rewrite !bool_decide_false by assumption. rewrite !parse_display_u64 by assumption.
  rewrite (proj2 (Z.ltb_ge _ _)) by lia. reflexivity.
Qed.

(** C38: A range request on a manifest gets exactly the bytes it asks for. For
    [Range: bytes=s-e] with [s <= e]: when [s] lies in the body the answer is
    206, byte [i] of its body is byte [s + i] of the manifest for every
    position up to [e], and its Content-Length is its length; otherwise the
    answer is 416 without a body. No such request panics. *)
Theorem range_request_exact `{H : Hashing} `{L : HttpLib} (hs : headers) (d : Digest) (mt : string) (b : bytes) (s e : Z)
    (Hhdr : header_get_str hs "range" = Some (range_value s e)) (Hs : 0 <= s <= e) (He : e <= U64_MAX) :
  exists r, range_or_full_response hs d mt b = Ok r /\
    (s < zlen b -> status r = 206 /\ exists part, resp_body r = BBytes part /\
       (forall i : nat, part !! i = if s + Z.of_nat i <=? e then b !! (Z.to_nat s + i)%nat else None) /\
       ("content-length"%string, display_u64 (zlen part)) ∈ resp_headers r) /\
    (zlen b <= s -> status r = 416 /\ resp_body r = BEmpty).
Proof using.
  unfold range_or_full_response. rewrite Hhdr. cbn [fmap option_fmap option_map].
  rewrite parse_range_value by (unfold is_u64; lia). pose proof (zlen_nonneg b).
  destruct ((zlen b =? 0) || (Z.max 0 (zlen b - 1) <? s)) eqn:Hg.
  - eexists. split; [reflexivity|]. split; [|cbn; auto]. intros Hlt. apply orb_true_iff in Hg as [Hz%Z.eqb_eq|Hl%Z.ltb_lt]; lia.
  - apply orb_false_iff in Hg as [Hz%Z.eqb_neq Hl%Z.ltb_ge]. set (ce := Z.min e (Z.max 0 (zlen b - 1))).
    unfold u64_checked_sub. rewrite (proj2 (Z.leb_le _ _)) by lia. cbn [expect mbind outcome_bind].
    rewrite slice_ok by lia. cbn [mbind outcome_bind]. eexists. split; [reflexivity|]. split; [intros _|lia].
    split; [reflexivity|]. eexists. split; [reflexivity|]. split.
    + intros i. destruct (Z.leb_spec (s + Z.of_nat i) e) as [Hi|Hi].
      * destruct (decide (s + Z.of_nat i <= ce)); [rewrite lookup_take_lt by lia; apply lookup_drop|].
        rewrite lookup_take_ge by lia. symmetry. apply lookup_ge_None. unfold zlen in *. lia.
      * apply lookup_take_ge. lia.
    + cbn [resp_headers]. replace (zlen (take _ _)) with (ce - s + 1);
        [apply elem_of_app; right; apply elem_of_app; right; left|].
      unfold zlen in *. rewrite length_take, length_drop. lia.
Qed.

Lemma range_request_exact_witness :
  let hs := [("range", "bytes=1-9")]%string in
  range_or_full_response hs (Digest.sha256_of sample_manifest) "application/json" sample_manifest <> Panic /\
  (resp_body <$> ok_of (range_or_full_response hs (Digest.sha256_of sample_manifest) "application/json" sample_manifest))
    = Some (BBytes [x31; x7d]).
Proof.
  intros hs. split; [|vm_compute; reflexivity].
  destruct (range_request_exact hs (Digest.sha256_of sample_manifest) "application/json" sample_manifest 1 9)
    as (r & Hr & _); [vm_compute; reflexivity|lia|unfold U64_MAX; lia|].
  rewrite Hr. discriminate.
Defined.
