(* ===== verification/OciRoutes.v ===== *)
(** * Routing is right for ordinary names

    The path splitter looks for its four keywords one after the other, each
    from the right. It finds the endpoint of every path whose repository name
    has no component that is itself a keyword; for other valid names it can
    pick the wrong place. *)

From S2P Require Import Prelude Str Frame Net Fs Digest BlobStore OciError OciReference OciUpload OciRegistry OciRegistryProps Json Http OciHttp OciBlobHandlers OciManifestHandlers OciRouter OciServer OciServerProps.

Local Open Scope string_scope.

(** ** Lemmas: the last occurrence *)

Lemma starts_with_app p s : starts_with p s = true <-> exists t, s = p ++ t.
Proof.
  unfold starts_with. rewrite bool_decide_eq_true. split; intros [t Ht]; exists t; apply strip_prefix_app; exact Ht.
Qed.

Lemma rfind_spec kw s i : rfind kw s = Some i -> exists x y, s = x ++ kw ++ y /\ String.length x = i.
Proof.
  assert (Hhere : forall s i, (if starts_with kw s then Some O else None) = Some i ->
    exists x y, s = x ++ kw ++ y /\ String.length x = i).
  { intros s' i'. destruct (starts_with kw s') eqn:E; [|discriminate]. intros [= <-].
    apply starts_with_app in E as [t ->]. exists "", t. split; reflexivity. }
  revert i. induction s as [|c s IH]; intros i; cbn [rfind]; [apply Hhere|].
  destruct (rfind kw s) as [j|]; [|apply Hhere]. intros [= <-].
  destruct (IH j eq_refl) as (x & y & -> & <-). exists (String c x), y. split; reflexivity.
Qed.

Lemma rfind_shift kw x s i : rfind kw s = Some i -> rfind kw (x ++ s) = Some (String.length x + i)%nat.
Proof. intros Hs. induction x as [|c x IH]; [exact Hs|]. rewrite str_app_cons. cbn [rfind String.length]. rewrite IH. reflexivity. Qed.

Lemma rfind_prefix kw y : is_Some (rfind kw (kw ++ y)).
Proof.
  assert (Hst : starts_with kw (kw ++ y) = true) by (apply starts_with_app; eauto).
  destruct (kw ++ y) as [|c s]; cbn [rfind]; [rewrite Hst; eauto|].
  destruct (rfind kw s); [eauto|]. rewrite Hst. eauto.
Qed.

Lemma rfind_inside kw x y : is_Some (rfind kw (x ++ kw ++ y)).
Proof. destruct (rfind_prefix kw y) as [i Hi]. rewrite (rfind_shift kw x _ i Hi). eauto. Qed.

(** A keyword: a slash after a part without one. *)
Definition keyword (p q : string) : string := p ++ String "/" q.

Lemma rfind_no_slash p q s : str_all (not_char "/") s = true -> rfind (keyword p q) s = None.
Proof.
  intros Hs. destruct (rfind (keyword p q) s) as [i|] eqn:E; [exfalso|reflexivity].
  apply rfind_spec in E as (x & y & -> & _). unfold keyword in Hs. rewrite !str_all_app in Hs. cbn in Hs.
  rewrite andb_false_r in Hs. cbn in Hs. rewrite andb_false_r in Hs. discriminate.
Qed.

(** The last occurrence in a path lies in its tail, or the first segment ends
    with the keyword's first part. *)
Lemma rfind_segment p q a s i :
  str_all (not_char "/") p = true -> str_all (not_char "/") a = true ->
  rfind (keyword p q) (a ++ String "/" s) = Some i ->
  (exists j, rfind (keyword p q) s = Some j /\ i = (String.length a + S j)%nat) \/
  (rfind (keyword p q) s = None /\ exists a', a = a' ++ p /\ String.length a' = i).
Proof.
  intros Hp Ha Hr. destruct (rfind (keyword p q) s) as [j|] eqn:Ej.
  - left. exists j. split; [reflexivity|]. change (String "/" s) with ("/" ++ s) in Hr. rewrite <- str_app_assoc in Hr.
    rewrite (rfind_shift _ (a ++ "/") s j Ej), str_length_app in Hr. injection Hr as <-. cbn. lia.
  - right. split; [reflexivity|]. apply rfind_spec in Hr as (x & y & Heq & <-).
    destruct (split_once "/" x) as [[u v]|] eqn:Ex.
    + exfalso. apply split_once_spec in Ex as [-> Hu].
      apply (f_equal (split_once "/")) in Heq. rewrite str_app_assoc, str_app_cons in Heq.
      rewrite !split_once_app in Heq by assumption. injection Heq as _ ->.
      destruct (rfind_inside (keyword p q) v y) as [k Hk]. congruence.
    + apply split_once_none in Ex. exists x. split; [|reflexivity].
      apply (f_equal (split_once "/")) in Heq. unfold keyword in Heq.
      rewrite <- !str_app_assoc, str_app_assoc, str_app_cons in Heq.
      rewrite !split_once_app in Heq by (rewrite ?str_all_app, ?Hp, ?Ex; auto). injection Heq as -> _. reflexivity.
Qed.

(** ** Lemmas: paths of segments *)

(** The segments in front of a suffix. *)
Definition path_of (cs : list string) (suffix : string) : string := foldr (fun c s => c ++ String "/" s) suffix cs.

Lemma path_of_join cs suffix : cs <> [] -> path_of cs suffix = join "/" cs ++ String "/" suffix.
Proof.
  induction cs as [|c cs IH]; [contradiction|]. intros _. destruct cs as [|c' cs]; [reflexivity|].
  rewrite join_cons by discriminate. change (path_of (c :: c' :: cs) suffix) with (c ++ String "/" (path_of (c' :: cs) suffix)).
  rewrite IH by discriminate. rewrite str_app_assoc, str_app_cons. reflexivity.
Qed.

Lemma get_app_r a s i : String.get (String.length a + i) (a ++ s) = String.get i s.
Proof. induction a as [|c a IH]; [reflexivity|]. exact IH. Qed.

Lemma get_app_l a s i : (i < String.length a)%nat -> String.get i (a ++ s) = String.get i a.
Proof.
  revert i. induction a as [|c a IH]; intros i Hi; [cbn in Hi; lia|]. rewrite str_app_cons.
  destruct i as [|i]; [reflexivity|]. apply IH. cbn in Hi. lia.
Qed.

Lemma get_all f s i c : str_all f s = true -> String.get i s = Some c -> f c = true.
Proof.
  revert i. induction s as [|x s IH]; intros i; cbn; [discriminate|]. intros [Hx Hs]%andb_prop.
  destruct i as [|i]; [intros [= <-]; exact Hx|apply IH, Hs].
Qed.

Lemma get_some s i : (i < String.length s)%nat -> exists c, String.get i s = Some c.
Proof. revert i. induction s as [|x s IH]; intros i Hi; cbn in *; [lia|]. destruct i; [eauto|]. apply IH. lia. Qed.

Lemma substring_get s i c : String.get i s = Some c -> String.substring i 1 s = String c "".
Proof.
  revert i. induction s as [|x s IH]; intros i; cbn; [discriminate|]. destruct i as [|i].
  - intros [= <-]. destruct s; reflexivity.
  - apply IH.
Qed.

(** A segment an ordinary name may have, for the keyword part [p]. *)
Definition plain_segment (p c : string) : Prop :=
  str_all (not_char "/") c = true /\ str_all is_ascii c = true /\ c <> p.

(** Every occurrence of a foreign keyword in such a path is inside a segment. *)
Lemma foreign_keyword p q cs suffix i :
  str_all (not_char "/") p = true -> Forall (plain_segment p) cs -> rfind (keyword p q) suffix = None ->
  rfind (keyword p q) (path_of cs suffix) = Some i ->
  exists k c, i = S k /\ String.get k (path_of cs suffix) = Some c /\ c <> "/"%char /\ is_ascii c = true.
Proof.
  intros Hp Hcs Hsuf. revert i. induction Hcs as [|c cs (Hc & Hasc & Hne) _ IH]; intros i Hr; [cbn in Hr; congruence|].
  change (path_of (c :: cs) suffix) with (c ++ String "/" (path_of cs suffix)) in *.
  apply rfind_segment in Hr as [(j & Hj & ->)|(_ & a' & -> & <-)]; [| |exact Hp|exact Hc].
  - destruct (IH j Hj) as (k & x & -> & Hx & Hd). exists (String.length c + S k)%nat, x.
    split; [lia|]. rewrite get_app_r. cbn. auto.
  - destruct a' as [|x a']; [destruct (Hne eq_refl)|]. exists (String.length a').
    destruct (get_some (String x a') (String.length a')) as [y Hy]; [cbn; lia|]. exists y. split; [reflexivity|].
    rewrite !str_all_app in Hc, Hasc. apply andb_prop in Hc as [Hc _]. apply andb_prop in Hasc as [Hasc _].
    rewrite str_app_assoc, get_app_l by (cbn; lia). split; [exact Hy|].
    split; [apply not_char_true, (get_all _ _ _ _ Hc Hy)|exact (get_all _ _ _ _ Hasc Hy)].
Qed.

Lemma ascii_not_continuation c : is_ascii c = true -> in_range "128" "191" c = false.
Proof.
  unfold is_ascii, in_range. intros [_ Hc]%andb_prop. apply andb_false_iff. left.
  apply N.leb_gt. apply N.leb_le in Hc. eapply N.le_lt_trans; [exact Hc|reflexivity].
Qed.

(** The loop passes over a keyword that only occurs inside segments. *)
Lemma split_loop_skip {E} p q kws cs suffix :
  str_all (not_char "/") p = true -> Forall (plain_segment p) cs -> rfind (keyword p q) suffix = None ->
  split_loop (E := E) (keyword p q :: kws) (path_of cs suffix) = split_loop kws (path_of cs suffix).
Proof.
  intros Hp Hcs Hsuf. cbn [split_loop]. destruct (rfind (keyword p q) (path_of cs suffix)) as [i|] eqn:Ei; [|reflexivity].
  destruct (foreign_keyword p q cs suffix i Hp Hcs Hsuf Ei) as (k & c & -> & Hg & Hne & Ha).
  cbn [Nat.eqb]. rewrite Nat.sub_succ, Nat.sub_0_r. unfold is_char_boundary. rewrite Hg, ascii_not_continuation by exact Ha.
  cbn [negb]. rewrite (substring_get _ _ _ Hg), bool_decide_false by (intros [= ->]; contradiction). reflexivity.
Qed.

(** The loop stops at a keyword that starts the suffix. *)
Lemma split_loop_hit {E} kw kws name suffix :
  rfind kw suffix = Some O ->
  split_loop (E := E) (kw :: kws) (name ++ String "/" suffix) = Ok (Some (name, suffix)).
Proof.
  intros Hs. cbn [split_loop]. change (String "/" suffix) with ("/" ++ suffix). rewrite <- str_app_assoc.
  rewrite (rfind_shift kw (name ++ "/") suffix O Hs), str_length_app. cbn [String.length].
  replace (String.length name + 1 + 0)%nat with (S (String.length name)) by lia. cbn [Nat.eqb].
  rewrite Nat.sub_succ, Nat.sub_0_r. rewrite str_app_assoc.
  assert (Hg : String.get (String.length name) (name ++ "/" ++ suffix) = Some "/"%char).
  { rewrite <- (Nat.add_0_r (String.length name)), get_app_r. reflexivity. }
  unfold is_char_boundary. rewrite Hg, (substring_get _ _ _ Hg). change (in_range "128" "191" "/") with false.
  cbn [negb]. rewrite bool_decide_true by reflexivity. cbn [negb].
  rewrite str_take_app. rewrite <- str_app_assoc.
  replace (S (String.length name)) with (String.length (name ++ "/")) by (rewrite str_length_app; cbn; lia).
  rewrite str_drop_app. reflexivity.
Qed.

Lemma rfind_head p x : str_all (not_char "/") p = true -> rfind (keyword p "") x = None ->
  rfind (keyword p "") (p ++ String "/" x) = Some O.
Proof.
  intros Hp Hx. destruct (rfind_prefix (keyword p "") x) as [i Hi]. unfold keyword in Hi at 2. rewrite str_app_assoc, str_app_cons in Hi.
  change ("" ++ x) with x in Hi. rewrite Hi. apply rfind_segment in Hi as [(j & Hj & _)|(_ & a' & Ha & <-)]; try exact Hp; [congruence|].
  destruct a' as [|c a']; [reflexivity|]. apply (f_equal String.length) in Ha. rewrite str_length_app in Ha. cbn in Ha. lia.
Qed.

Lemma rfind_segment_none p q a s : str_all (not_char "/") p = true -> str_all (not_char "/") a = true ->
  str_drop (String.length a - String.length p) a <> p -> rfind (keyword p q) s = None -> rfind (keyword p q) (a ++ String "/" s) = None.
Proof.
  intros Hp Ha Hne Hs. destruct (rfind (keyword p q) (a ++ String "/" s)) as [i|] eqn:E; [exfalso|reflexivity].
  apply rfind_segment in E as [(j & Hj & _)|(_ & a' & Heq & _)]; [congruence| |exact Hp|exact Ha].
  apply Hne. subst a. rewrite str_length_app.
  replace (String.length a' + String.length p - String.length p)%nat with (String.length a') by lia. apply str_drop_app.
Qed.

(** ** The endpoints *)

Inductive Endpoint :=
| EBlob (digest : string) | EUpload (uuid : string) | EManifest (reference : string) | ETags | EReferrers (digest : string).

Definition suffix_of (e : Endpoint) : string :=
  match e with
  | EBlob d => "blobs/" ++ d
  | EUpload u => "blobs/uploads/" ++ u
  | EManifest r => "manifests/" ++ r
  | ETags => "tags/list"
  | EReferrers d => "referrers/" ++ d
  end.

Definition argument (e : Endpoint) : string :=
  match e with EBlob x | EUpload x | EManifest x | EReferrers x => x | ETags => "" end.

Definition reserved : list string := ["blobs"; "manifests"; "tags"; "referrers"].

Lemma component_ascii c : component c -> str_all is_ascii c = true.
Proof.
  assert (Hal : forall s, str_all is_alnum s = true -> str_all is_ascii s = true).
  { intros s. apply str_all_impl. intros x. pose proof (ascii_forall (fun c => implb (is_alnum c) (is_ascii c)) eq_refl x) as Hc.
    cbn beta in Hc. destruct (is_alnum x); [intros _; exact Hc|discriminate]. }
  intros Hc. induction Hc as [s [_ Hs]|c sep r Hc IH Hsep [_ Hr]]; [auto|].
  rewrite !str_all_app, IH, (Hal r Hr), andb_true_r.
  destruct Hsep as [->|[->|[->|Hs]]]; [reflexivity ..|]. revert Hs. apply str_all_impl.
  intros x Hx. apply Ascii.eqb_eq in Hx as ->. reflexivity.
Qed.

Lemma split_path {E} cs e : Forall component cs -> Forall (fun c => c ∉ reserved) cs -> cs <> [] ->
  str_all (not_char "/") (argument e) = true ->
  split_rest (E := E) (path_of cs (suffix_of e)) = Ok (Some (join "/" cs, suffix_of e)).
Proof.
  intros Hcs Hres Hne Harg.
  assert (Hplain : forall p, p ∈ reserved -> Forall (plain_segment p) cs).
  { intros p Hp. apply Forall_forall. intros c Hc. rewrite Forall_forall in Hcs, Hres.
    split_and!; [apply component_no_slash, Hcs, Hc|apply component_ascii, Hcs, Hc|].
    intros ->. exact (Hres p Hc Hp). }
  unfold split_rest, keywords.
  change ["blobs/"; "manifests/"; "tags/list"; "referrers/"]
    with [keyword "blobs" ""; keyword "manifests" ""; keyword "tags" "list"; keyword "referrers" ""].
  destruct e as [x|x|x| |x]; cbn [suffix_of argument] in *.
  - rewrite path_of_join by exact Hne. apply split_loop_hit. apply (rfind_head "blobs" x); [reflexivity|apply rfind_no_slash, Harg].
  - rewrite path_of_join by exact Hne. apply split_loop_hit. apply (rfind_head "blobs" ("uploads" ++ String "/" x)); [reflexivity|].
    apply rfind_segment_none; [reflexivity|reflexivity|discriminate|apply rfind_no_slash, Harg].
  - rewrite split_loop_skip; [|reflexivity|apply Hplain; set_solver|
      apply (rfind_segment_none _ _ "manifests"); [reflexivity|reflexivity|discriminate|apply rfind_no_slash, Harg]].
    rewrite path_of_join by exact Hne. apply split_loop_hit, (rfind_head "manifests" x); [reflexivity|apply rfind_no_slash, Harg].
  - do 2 (rewrite split_loop_skip; [|reflexivity|apply Hplain; set_solver|reflexivity]).
    rewrite path_of_join by exact Hne. apply split_loop_hit. reflexivity.
  - do 3 (rewrite split_loop_skip; [|reflexivity|apply Hplain; set_solver|
      apply (rfind_segment_none _ _ "referrers"); [reflexivity|reflexivity|discriminate|apply rfind_no_slash, Harg]]).
    rewrite path_of_join by exact Hne. apply split_loop_hit, (rfind_head "referrers" x); [reflexivity|apply rfind_no_slash, Harg].
Qed.

(** ** Properties *)

(** Routing. For every valid repository name none of whose components is
    [blobs], [manifests], [tags] or [referrers], and every endpoint with an
    argument that has no slash, the path is split into exactly that name and
    that endpoint. *)
Theorem split_rest_routes {E : Type} (name : string) (e : Endpoint)
    (Hname : validate_name name = Ok tt)
    (Hplain : Forall (fun c => c ∉ reserved) (split "/" name))
    (Harg : str_all (not_char "/") (argument e) = true) :
  split_rest (E := E) (name ++ "/" ++ suffix_of e) = Ok (Some (name, suffix_of e)).
Proof.
  apply validate_name_iff in Hname as (_ & cs & Hne & Hcs & ->).
  assert (Hsl : Forall (fun c => str_all (not_char "/") c = true) cs)
    by (eapply Forall_impl; [exact Hcs|apply component_no_slash]).
  rewrite split_join in Hplain by assumption.
  change ("/" ++ suffix_of e) with (String "/" (suffix_of e)). rewrite <- path_of_join by exact Hne.
  apply split_path; assumption.
Qed.

Lemma split_rest_routes_witness :
  split_rest (E := OciError) "my-org/blobstore/manifests/v1.0" = Ok (Some ("my-org/blobstore", "manifests/v1.0")).
Proof.
  apply (split_rest_routes "my-org/blobstore" (EManifest "v1.0")); [vm_compute; reflexivity| |reflexivity].
  change (split "/" "my-org/blobstore") with ["my-org"; "blobstore"].
  repeat constructor; unfold reserved; rewrite !not_elem_of_cons; split_and!; try discriminate; apply not_elem_of_nil.
Defined.

(** Routing goes wrong for valid names with a keyword component. The
    manifest of the valid repository [x/blobs/foo] cannot be pushed: the path
    is split at [blobs] and the request is refused as a blob request; the
    repository [blobs/foo] cannot be addressed at all. A path whose keyword
    follows a character outside ASCII panics the splitter. *)
Theorem keyword_component_misroutes :
  validate_name "x/blobs/foo" = Ok tt /\
  split_rest (E := OciError) "x/blobs/foo/manifests/latest" = Ok (Some ("x", "blobs/foo/manifests/latest")) /\
  (status <$> ok_of (snd (router sample_app_cfg
     (sample_request PUT "x/blobs/foo/manifests/latest" ∅ [("content-type", OCI_IMAGE_INDEX)] sample_manifest) sample_app))) = Some 405%Z /\
  validate_name "blobs/foo" = Ok tt /\
  split_rest (E := OciError) "blobs/foo/manifests/latest" = Ok None /\
  split_rest (E := OciError) (String "195" (String "169" "blobs/x")) = Panic.
Proof. split_and!; vm_compute; reflexivity. Qed.
