(* ===== verification/OciGauge.v ===== *)
(** * The blob gauge under concurrent requests

    [AppState::store_blob_counted] ([router.rs]) and [delete_blob]
    ([handlers/blob.rs]) as tasks that interleave between their awaits, over the
    in-memory store. A push holds the accounting mutex from its look-up to its
    increment; a delete takes no lock. With pushes alone the gauge is the number
    of blobs stored since the start, whatever the interleaving and whatever the
    store held then; two deletes of one blob put it off. *)

From S2P Require Import Prelude Str Frame Net Fs Digest BlobStore OciError OciUpload OciRegistry Json Http OciHttp.

Local Open Scope Z_scope.

#[local] Existing Instance Memory.memory_store.

(** Where a push stands. *)
Inductive push_pc :=
| PWaiting                   (** for the mutex *)
| PLocked                    (** holds it *)
| PChecked (present : bool)  (** [contains] has returned *)
| PStored (present : bool)   (** [put] has returned *)
| PDone (r : outcome BlobStoreError unit).

(** Where a delete stands. *)
Inductive delete_pc := DStart | DExists | DRemoved | DDone (found : bool).

Inductive task :=
| TPush (d : Digest) (b : bytes) (pc : push_pc)
| TDelete (d : Digest) (pc : delete_pc).

Record Gauge := mkGauge {
  g_store : InMemoryBlobStore;
  g_count : Z;
  g_lock : option nat;
  g_tasks : gmap nat task
}.

Section Steps.
Context `{H : Hashing}.

Definition holds_blob (d : Digest) (s : InMemoryBlobStore) : bool := bool_decide (is_Some (s !! d)).

Inductive gstep : Gauge -> Gauge -> Prop :=
| g_spawn s c l ts i t :
  ts !! i = None -> (exists d b, t = TPush d b PWaiting) \/ (exists d, t = TDelete d DStart) ->
  gstep (mkGauge s c l ts) (mkGauge s c l (<[i := t]> ts))
| g_acquire s c ts i d b :
  ts !! i = Some (TPush d b PWaiting) ->
  gstep (mkGauge s c None ts) (mkGauge s c (Some i) (<[i := TPush d b PLocked]> ts))
| g_check s c l ts i d b :
  ts !! i = Some (TPush d b PLocked) ->
  gstep (mkGauge s c l ts) (mkGauge s c l (<[i := TPush d b (PChecked (holds_blob d s))]> ts))
| g_put s c l ts i d b present s' u :
  ts !! i = Some (TPush d b (PChecked present)) -> Memory.put d b s = (s', Ok u) ->
  gstep (mkGauge s c l ts) (mkGauge s' c l (<[i := TPush d b (PStored present)]> ts))
| g_put_fails s c l ts i d b present s' e :
  ts !! i = Some (TPush d b (PChecked present)) -> Memory.put d b s = (s', Err e) ->
  gstep (mkGauge s c l ts) (mkGauge s' c None (<[i := TPush d b (PDone (Err e))]> ts))
| g_inc s c l ts i d b present :
  ts !! i = Some (TPush d b (PStored present)) ->
  gstep (mkGauge s c l ts)
        (mkGauge s (if present then c else AppState.i64_wrap (c + 1)) None (<[i := TPush d b (PDone (Ok tt))]> ts))
| g_exists s c l ts i d :
  ts !! i = Some (TDelete d DStart) ->
  gstep (mkGauge s c l ts) (mkGauge s c l (<[i := TDelete d (if holds_blob d s then DExists else DDone false)]> ts))
| g_remove s c l ts i d s' u :
  ts !! i = Some (TDelete d DExists) -> Memory.delete d s = (s', Ok u) ->
  gstep (mkGauge s c l ts) (mkGauge s' c l (<[i := TDelete d DRemoved]> ts))
| g_dec s c l ts i d :
  ts !! i = Some (TDelete d DRemoved) ->
  gstep (mkGauge s c l ts) (mkGauge s (Z.max (Z.max (c - 1) I64_MIN) 0) l (<[i := TDelete d (DDone true)]> ts)).

(** The server starts with its gauge at zero, over a store that may already hold
    blobs. *)
Definition gauge_start (s0 : InMemoryBlobStore) : Gauge := mkGauge s0 0 None ∅.

(** A push that meets no other task is [store_blob_counted]. *)
Lemma push_alone s c (ts : gmap nat task) (i : nat) d b (reg : Registry) a' r :
  AppState.store_blob_counted d b (mkApp s reg c) = (a', r) ->
  rtc gstep (mkGauge s c None (<[i := TPush d b PWaiting]> ts)) (mkGauge (blob_store a') (blob_count a') None (<[i := TPush d b (PDone r)]> ts)).
Proof.
  intros Hs. eapply rtc_l; [apply (g_acquire _ _ _ i), lookup_insert_eq|]. rewrite insert_insert_eq.
  eapply rtc_l; [apply (g_check _ _ _ _ i), lookup_insert_eq|]. rewrite insert_insert_eq.
  unfold AppState.store_blob_counted, AppState.contains_or_false, AppState.on_store, mbind, stm_bind in Hs. cbn in Hs.
  destruct (Memory.put d b s) as [s' [[]|e|]] eqn:Ep; cbn in Hs.
  - eapply rtc_l; [apply (g_put _ _ _ _ i) with (u := tt) (1 := lookup_insert_eq _ _ _), Ep|]. rewrite insert_insert_eq.
    eapply rtc_l; [apply (g_inc _ _ _ _ i), lookup_insert_eq|]. rewrite insert_insert_eq.
    unfold holds_blob. destruct (bool_decide _); injection Hs as <- <-; apply rtc_refl.
  - eapply rtc_l; [apply (g_put_fails _ _ _ _ i) with (1 := lookup_insert_eq _ _ _), Ep|]. rewrite insert_insert_eq.
    injection Hs as <- <-. apply rtc_refl.
  - rewrite Memory.put_cases in Ep. case_decide; discriminate.
Qed.

(** ** Pushes alone *)

Definition is_push (t : task) : bool := match t with TPush _ _ _ => true | TDelete _ _ => false end.

Definition no_delete (g : Gauge) : Prop := map_Forall (fun _ t => is_push t = true) (g_tasks g).

(** What the task that holds the mutex has stored and not yet counted. *)
Definition pending (g : Gauge) : Z :=
  match g_lock g with
  | Some i => match g_tasks g !! i with Some (TPush _ _ (PStored false)) => 1 | _ => 0 end
  | None => 0
  end.

(** A task past the mutex holds it, and what it has seen is still so. *)
Definition task_ok (g : Gauge) (i : nat) (t : task) : Prop :=
  match t with
  | TPush d b PLocked => g_lock g = Some i
  | TPush d b (PChecked present) => g_lock g = Some i /\ present = holds_blob d (g_store g)
  | TPush d b (PStored _) => g_lock g = Some i /\ is_Some (g_store g !! d)
  | _ => True
  end.

(** The blobs there are besides those of the start, without the one not yet
    counted. *)
Definition counted (n0 : nat) (g : Gauge) : Z := Z.of_nat (size (g_store g)) - Z.of_nat n0 - pending g.

Record gauge_ok (n0 : nat) (g : Gauge) : Prop := {
  go_base : 0 <= counted n0 g;
  go_count : g_count g = AppState.i64_wrap (counted n0 g);
  go_tasks : map_Forall (task_ok g) (g_tasks g);
  go_lock : forall i, g_lock g = Some i -> exists d b pc, g_tasks g !! i = Some (TPush d b pc) /\ pc <> PWaiting /\ forall r, pc <> PDone r
}.

Lemma i64_wrap_succ x : AppState.i64_wrap (AppState.i64_wrap x + 1) = AppState.i64_wrap (x + 1).
Proof.
  unfold AppState.i64_wrap. generalize 18446744073709551616, I64_MIN. intros M m.
  replace ((x - m) mod M + m + 1 - m) with ((x - m) mod M + 1) by ring. rewrite Zplus_mod_idemp_l.
  replace (x - m + 1) with (x + 1 - m) by ring. reflexivity.
Qed.

#[local] Opaque AppState.i64_wrap.

(** The tasks other than the one that holds the mutex have not passed it. *)
Lemma others_ok s c l ts s' c' l' i t :
  map_Forall (task_ok (mkGauge s c l ts)) ts -> (l = None \/ l = Some i) ->
  task_ok (mkGauge s' c' l' (<[i := t]> ts)) i t ->
  map_Forall (task_ok (mkGauge s' c' l' (<[i := t]> ts))) (<[i := t]> ts).
Proof.
  intros Ht Hl Hi j tj Hj. destruct (decide (i = j)) as [<-|Hne].
  - rewrite lookup_insert_eq in Hj. injection Hj as <-. exact Hi.
  - rewrite lookup_insert_ne in Hj by exact Hne. specialize (Ht j tj Hj). unfold task_ok in *. cbn in *.
    destruct tj as [d b []|]; try exact I; exfalso; destruct Hl as [->| ->]; intuition congruence.
Qed.

Lemma pending_other s c l ts i t : l <> Some i -> pending (mkGauge s c l (<[i := t]> ts)) = pending (mkGauge s c l ts).
Proof. intros Hne. unfold pending. cbn. destruct l as [k|]; [|reflexivity]. rewrite lookup_insert_ne by congruence. reflexivity. Qed.

(** A new task, or the first step of one, changes nothing the others rely on. *)
Lemma quiet_ok s c l ts i t :
  map_Forall (task_ok (mkGauge s c l ts)) ts -> task_ok (mkGauge s c l (<[i := t]> ts)) i t ->
  map_Forall (task_ok (mkGauge s c l (<[i := t]> ts))) (<[i := t]> ts).
Proof.
  intros Ht Hi j tj Hj. destruct (decide (i = j)) as [<-|Hne].
  - rewrite lookup_insert_eq in Hj. injection Hj as <-. exact Hi.
  - rewrite lookup_insert_ne in Hj by exact Hne. exact (Ht j tj Hj).
Qed.

Lemma memory_put_ok d b s s' u : Memory.put d b s = (s', Ok u) -> s' = <[d := b]> s.
Proof. rewrite Memory.put_cases. case_decide; congruence. Qed.

Lemma size_after_put d b (s : InMemoryBlobStore) :
  Z.of_nat (size (<[d := b]> s)) = Z.of_nat (size s) + (if holds_blob d s then 0 else 1).
Proof.
  unfold holds_blob. destruct (s !! d) as [x|] eqn:E.
  - rewrite bool_decide_true by eauto. rewrite map_size_insert_Some by eauto. lia.
  - rewrite bool_decide_false by (intros [? ?]; discriminate). rewrite map_size_insert_None by exact E. lia.
Qed.

Lemma memory_put_err d b s s' e : Memory.put d b s = (s', Err e) -> s' = s.
Proof. rewrite Memory.put_cases. case_decide; congruence. Qed.

Lemma gstep_ok n0 g g' : no_delete g -> gauge_ok n0 g -> gstep g g' -> gauge_ok n0 g'.
Proof.
  intros Hn [Hb Hc Ht Hl] Hst. unfold counted in Hb, Hc.
  destruct Hst as [s c l ts i t Hi Hnew|s c ts i d b Hi|s c l ts i d b Hi|s c l ts i d b pr s' u Hi Hp|s c l ts i d b pr s' e Hi Hp
    |s c l ts i d b pr Hi|s c l ts i d Hi|s c l ts i d s' u Hi Hp|s c l ts i d Hi]; try discriminate (Hn i _ Hi); cbn in *.
  - assert (Hne : l <> Some i) by (intros ->; destruct (Hl i eq_refl) as (d & b & pc & Hlk & _); congruence).
    split; unfold counted; cbn; rewrite ?pending_other by exact Hne; [exact Hb|exact Hc| |].
    + apply quiet_ok; [exact Ht|]. destruct Hnew as [(d & b & ->)|(d & ->)]; exact I.
    + intros k ->. rewrite lookup_insert_ne by congruence. exact (Hl k eq_refl).
  - unfold pending in Hb, Hc. cbn in Hb, Hc. split; unfold counted, pending; cbn; rewrite ?lookup_insert_eq; [exact Hb|exact Hc| |].
    + apply (others_ok s c None ts); [exact Ht|auto|reflexivity].
    + intros k [= <-]. rewrite lookup_insert_eq. do 3 eexists. split_and!; [reflexivity|discriminate|discriminate].
  - pose proof (Ht i _ Hi) as Hlk. cbn in Hlk. subst l. unfold pending in Hb, Hc. cbn in Hb, Hc. rewrite Hi in Hb, Hc.
    split; unfold counted, pending; cbn; rewrite ?lookup_insert_eq; [exact Hb|exact Hc| |].
    + apply (others_ok s c (Some i) ts); [exact Ht|auto|]. split; reflexivity.
    + intros k [= <-]. rewrite lookup_insert_eq. do 3 eexists. split_and!; [reflexivity|discriminate|discriminate].
  - pose proof (Ht i _ Hi) as Hlk. cbn in Hlk. destruct Hlk as [-> ->]. apply memory_put_ok in Hp. subst s'.
    unfold pending in Hb, Hc. cbn in Hb, Hc. rewrite Hi in Hb, Hc. pose proof (size_after_put d b s) as Hsz.
    split; unfold counted, pending; cbn; rewrite ?lookup_insert_eq.
    + destruct (holds_blob d s); lia.
    + rewrite Hc. f_equal. destruct (holds_blob d s); lia.
    + apply (others_ok s c (Some i) ts); [exact Ht|auto|]. split; [reflexivity|]. cbn. rewrite lookup_insert_eq. eauto.
    + intros k [= <-]. rewrite lookup_insert_eq. do 3 eexists. split_and!; [reflexivity|discriminate|discriminate].
  - pose proof (Ht i _ Hi) as Hlk. cbn in Hlk. destruct Hlk as [-> ->]. apply memory_put_err in Hp. subst s'.
    unfold pending in Hb, Hc. cbn in Hb, Hc. rewrite Hi in Hb, Hc. split; unfold counted, pending; cbn; [exact Hb|exact Hc| |].
    + apply (others_ok s c (Some i) ts); [exact Ht|auto|exact I].
    + discriminate.
  - pose proof (Ht i _ Hi) as Hlk. cbn in Hlk. destruct Hlk as [-> _]. unfold pending in Hb, Hc. cbn in Hb, Hc. rewrite Hi in Hb, Hc.
    split; unfold counted, pending; cbn.
    + destruct pr; lia.
    + rewrite Hc. destruct pr; [reflexivity|]. rewrite i64_wrap_succ. f_equal. lia.
    + apply (others_ok s c (Some i) ts); [exact Ht|auto|exact I].
    + discriminate.
Qed.

(** Tasks stay, so a history without deletes had none before. *)
Lemma no_delete_before g g' : gstep g g' -> no_delete g' -> no_delete g.
Proof.
  assert (Hback : forall (ts : gmap nat task) i t, (forall t', ts !! i = Some t' -> is_push t' = is_push t) ->
    map_Forall (fun _ t => is_push t = true) (<[i := t]> ts) -> map_Forall (fun _ t => is_push t = true) ts).
  { intros ts i t Hi Hn j tj Hj. destruct (decide (i = j)) as [<-|Hne].
    - rewrite (Hi tj Hj). exact (Hn i t (lookup_insert_eq _ _ _)).
    - apply (Hn j). rewrite lookup_insert_ne by exact Hne. exact Hj. }
  unfold no_delete. destruct 1 as [? ? ? ? i ? Hi|? ? ? i ? ? Hi|? ? ? ? i ? ? Hi|? ? ? ? i ? ? ? ? ? Hi|? ? ? ? i ? ? ? ? ? Hi|? ? ? ? i ? ? ? Hi|? ? ? ? i ? Hi|? ? ? ? i ? ? ? Hi|? ? ? ? i ? Hi];
    cbn; apply Hback; rewrite Hi; intros ? [=]; subst; reflexivity.
Qed.

Lemma no_delete_history g g' : rtc gstep g g' -> no_delete g' -> no_delete g.
Proof. induction 1 as [|a b c Hab _ IH]; eauto using no_delete_before. Qed.

Lemma reachable_gauge_ok n0 g g' : rtc gstep g g' -> gauge_ok n0 g -> no_delete g' -> gauge_ok n0 g'.
Proof.
  induction 1 as [|a b c Hab Hbc IH]; intros Ha Hn; [exact Ha|]. apply IH; [|exact Hn].
  exact (gstep_ok n0 a b (no_delete_before a b Hab (no_delete_history b c Hbc Hn)) Ha Hab).
Qed.

Lemma i64_wrap_id z : 0 <= z <= I64_MAX -> AppState.i64_wrap z = z.
Proof.
  Transparent AppState.i64_wrap. unfold AppState.i64_wrap, I64_MIN, I64_MAX. intros Hz. rewrite Z.mod_small by lia. lia.
Qed.

Lemma start_ok s0 : gauge_ok (size s0) (gauge_start s0).
Proof.
  assert (H0 : counted (size s0) (gauge_start s0) = 0) by (unfold counted; cbn; lia).
  split; [rewrite H0; lia|rewrite H0, i64_wrap_id by (unfold I64_MAX; lia); reflexivity|exact (map_Forall_empty _)|discriminate].
Qed.

Lemma pending_bound g : 0 <= pending g <= 1.
Proof. unfold pending. repeat case_match; lia. Qed.

(** C21: with pushes alone, in any number and any interleaving over the in-memory
    store, the blob gauge counts the distinct blobs stored since the server started,
    up to the largest 64-bit integer. A server starts with the gauge at zero,
    whatever its store already holds; from then on the gauge is never above the
    number of blobs added to that and never more than one below it, and it is that
    number whenever no push holds the accounting mutex. It is the number of blobs in
    the store exactly when the store was empty at the start. *)
Theorem gauge_counts_distinct_blobs (s0 : InMemoryBlobStore) g :
  rtc gstep (gauge_start s0) g -> no_delete g ->
  let added := Z.of_nat (size (g_store g)) - Z.of_nat (size s0) in
  added <= I64_MAX ->
  0 <= added /\ added - 1 <= g_count g <= added /\
  (g_lock g = None -> g_count g = added /\ (g_count g = Z.of_nat (size (g_store g)) <-> s0 = ∅)).
Proof.
  intros Hr Hn added Hs. destruct (reachable_gauge_ok _ _ g Hr (start_ok s0) Hn) as [Hb Hc _ _]. pose proof (pending_bound g) as Hp.
  unfold counted in *. fold added in Hb, Hc. rewrite i64_wrap_id in Hc by lia. split_and!; [lia..|]. intros E.
  unfold pending in Hc. rewrite E in Hc. split; [lia|]. rewrite <- map_size_empty_iff. unfold added in *. lia.
Qed.

End Steps.

(** ** Interleavings *)

Definition blob_a : bytes := [Byte.x61].
Definition blob_b : bytes := [Byte.x62].
Definition digest_a : Digest := Digest.sha256_of blob_a.
Definition digest_b : Digest := Digest.sha256_of blob_b.

(** Task [i] takes one step of a rule. *)
Ltac take rule i := eapply rtc_l; [eapply (rule _ _ _ _ i); (reflexivity || (vm_compute; reflexivity))|].
Ltac spawn i t := eapply rtc_l; [apply (g_spawn _ _ _ _ i t); [reflexivity|eauto 6]|].
Ltac acquire i := eapply rtc_l; [eapply (g_acquire _ _ _ i); reflexivity|].

(** Two overlapping pushes of one blob to a server started over a store that holds
    another: the blob is counted once, the other not at all. *)
Lemma gauge_counts_distinct_blobs_witness :
  let s0 : InMemoryBlobStore := {[ digest_b := blob_b ]} in
  exists g, rtc gstep (gauge_start s0) g /\ size (g_tasks g) = 2%nat /\ size (g_store g) = 2%nat /\ g_lock g = None /\ g_count g = 1.
Proof.
  intros s0.
  assert (Hr : exists g, rtc gstep (gauge_start s0) g /\ size (g_tasks g) = 2%nat /\ g_lock g = None /\ no_delete g /\ size (g_store g) = 2%nat).
  { eexists. split.
    - spawn 0%nat (TPush digest_a blob_a PWaiting). spawn 1%nat (TPush digest_a blob_a PWaiting). acquire 0%nat.
      take g_check 0%nat. take g_put 0%nat. take g_inc 0%nat. acquire 1%nat. take g_check 1%nat. take g_put 1%nat. take g_inc 1%nat.
      apply rtc_refl.
    - split_and!; [vm_compute; reflexivity|reflexivity| |vm_compute; reflexivity].
      unfold no_delete. cbn. apply (bool_decide_unpack _). vm_compute. exact I. }
  destruct Hr as (g & Hr & Ht & Hl & Hn & Hs). exists g. split_and!; [exact Hr|exact Ht|exact Hs|exact Hl|].
  assert (H0 : size s0 = 1%nat) by (vm_compute; reflexivity).
  destruct (gauge_counts_distinct_blobs s0 g Hr Hn) as (_ & _ & Hc); [rewrite Hs, H0; unfold I64_MAX; lia|].
  destruct (Hc Hl) as [-> _]. rewrite Hs, H0. reflexivity.
Defined.

(** Two overlapping deletes of one blob both see it and both take it off the gauge:
    with every request done the gauge says that the store is empty, and it holds a
    blob. *)
Lemma overlapping_deletes_drift :
  exists g, rtc gstep (gauge_start ∅) g /\ g_lock g = None /\ g_count g = 0 /\ g_store g !! digest_b = Some blob_b /\
    g_tasks g !! 2%nat = Some (TDelete digest_a (DDone true)) /\ g_tasks g !! 3%nat = Some (TDelete digest_a (DDone true)).
Proof.
  eexists. split.
  - spawn 0%nat (TPush digest_a blob_a PWaiting). acquire 0%nat. take g_check 0%nat. take g_put 0%nat. take g_inc 0%nat.
    spawn 1%nat (TPush digest_b blob_b PWaiting). acquire 1%nat. take g_check 1%nat. take g_put 1%nat. take g_inc 1%nat.
    spawn 2%nat (TDelete digest_a DStart). spawn 3%nat (TDelete digest_a DStart). take g_exists 2%nat. take g_exists 3%nat.
    take g_remove 2%nat. take g_remove 3%nat. take g_dec 2%nat. take g_dec 3%nat. apply rtc_refl.
  - vm_compute. auto.
Qed.
