(* ===== verification/AirflowText.v ===== *)
(** * Identifiers and source positions of the Airflow DAG parser

    [crates/ferro-airflow-dag-parser/src/common.rs] and [line_index.rs]: the
    validated identifiers, the parser's result and error types, and the index
    that turns byte offsets into lines and columns, with the theorem that it
    counts line feeds. *)

From S2P Require Import Prelude Str.

Local Open Scope string_scope.
Local Open Scope Z_scope.

(** ** Identifiers ([common.rs]) *)

Definition MAX_IDENTIFIER_LEN : Z := 250.

(** A [char] is kept as its UTF-8 bytes. *)
Inductive IdentifierError : Type :=
| IdEmpty (kind : string)
| TooLong (kind : string) (max_len len : Z)
| InvalidCharacter (kind : string) (bad : string).

Definition is_safe_airflow_char (ch : string) : bool :=
  match ch with
  | String c "" => is_ascii_alphanumeric c || Ascii.eqb c "_" || Ascii.eqb c "-" || Ascii.eqb c "."
  | _ => false
  end.

Definition validate_safe_identifier (kind value : string) (max_len : Z) : outcome IdentifierError unit :=
  if bool_decide (value = "") then Err (IdEmpty kind) else
  let len := zlen (chars value) in
  if max_len <? len then Err (TooLong kind max_len len) else
  match find (fun c => negb (is_safe_airflow_char c)) (chars value) with
  | Some bad => Err (InvalidCharacter kind bad)
  | None => Ok tt
  end.

(** The two newtypes; their field is private, [new] is the only constructor
    besides the derived [Deserialize]. *)
Record DagId : Type := mkDagId { dag_str : string }.
Record TaskId : Type := mkTaskId { task_str : string }.

#[export] Instance DagId_eq_dec : EqDecision DagId.
Proof. solve_decision. Defined.
#[export] Instance TaskId_eq_dec : EqDecision TaskId.
Proof. solve_decision. Defined.

Definition DagId_new (s : string) : outcome IdentifierError DagId :=
  _ ← validate_safe_identifier "dag_id" s MAX_IDENTIFIER_LEN; Ok (mkDagId s).

Definition TaskId_new (s : string) : outcome IdentifierError TaskId :=
  _ ← validate_safe_identifier "task_id" s MAX_IDENTIFIER_LEN; Ok (mkTaskId s).

(** ** Results and errors *)

Record SourceSpan : Type := mkSourceSpan { start_line : Z; end_line : Z }.

Record ExtractedDag : Type := mkExtractedDag {
  dag_id : option DagId;
  task_ids : list TaskId;
  schedule : option string;
  has_default_args : bool;
  deps_edges : list (TaskId * TaskId);
  source_span : option SourceSpan
}.

Definition ExtractedDag_default : ExtractedDag := mkExtractedDag None [] None false [] None.

(** The reason of [InvalidIdentifier] is kept as the error it is printed from. *)
Inductive ParseError : Type :=
| Parse (msg : string)
| InvalidIdentifier (kind value : string) (reason : IdentifierError)
| Internal (msg : string)
| Io (path : string) (source : string)
| NoBackend.

Definition from_id_error (kind value : string) (err : IdentifierError) : ParseError :=
  InvalidIdentifier kind value err.

Definition push_unique_task (into : list TaskId) (name : TaskId) : list TaskId :=
  if existsb (fun e => bool_decide (task_str e = task_str name)) into then into else (into ++ [name])%list.

Definition make_dag_id (value : string) : outcome ParseError DagId :=
  map_err (from_id_error "dag_id" value) (DagId_new value).

Definition make_task_id (value : string) : outcome ParseError TaskId :=
  map_err (from_id_error "task_id" value) (TaskId_new value).

(** [<[&str]>::contains]. *)
Definition contains (l : list string) (s : string) : bool := existsb (fun x => String.eqb x s) l.

(** ** Line index ([line_index.rs]) *)

Record LineIndex : Type := mkLineIndex { line_starts : list Z; total_len : Z }.

Definition u32_or_max (n : Z) : Z := default U32_MAX (u32_try_from n).

(** The loop of [new] over the bytes from [idx] on. *)
Fixpoint starts_from (idx : Z) (s : string) : list Z :=
  match s with
  | "" => []
  | String b s =>
    if Ascii.eqb b "010" then u32_or_max (idx + 1) :: starts_from (idx + 1) s else starts_from (idx + 1) s
  end.

Definition LineIndex_new (src : string) : LineIndex :=
  mkLineIndex (0 :: starts_from 0 src) (u32_or_max (str_len src)).

(** [<[T]>::binary_search]: halving [size] from [base], then one comparison. *)
Fixpoint halve (fuel : nat) (l : list Z) (x : Z) (base size : nat) : nat :=
  match fuel with
  | O => base
  | S fuel =>
    if Nat.leb size 1 then base else
    let half := Nat.div2 size in
    let mid := (base + half)%nat in
    halve fuel l x (if default 0 (l !! mid) <=? x then mid else base) (size - half)
  end.

Definition binary_search (l : list Z) (x : Z) : nat + nat :=
  match l with
  | [] => inr O
  | _ =>
    let base := halve (length l) l x 0 (length l) in
    let v := default 0 (l !! base) in
    if v =? x then inl base else inr (if v <? x then S base else base)
  end.

(** [a + b] on [u32], which panics on overflow in a checked build. *)
Definition u32_add {E} (a b : Z) : outcome E Z := if a + b <=? U32_MAX then Ok (a + b) else Panic.

Definition line_col {E} (li : LineIndex) (offset : Z) : outcome E (Z * Z) :=
  let clamped := Z.min offset (total_len li) in
  let line_idx := match binary_search (line_starts li) clamped with inl i => i | inr i => Nat.pred i end in
  line_start ← expect (line_starts li !! line_idx);
  col ← u32_add (Z.max 0 (clamped - line_start)) 1;
  line ← u32_add (u32_or_max (Z.of_nat line_idx)) 1;
  Ok (line, col).

(** A [TextRange] of the text-size library: start and exclusive end. *)
Record TextRange : Type := mkTextRange { range_start : N; range_end : N }.

Definition span_of {E} (li : LineIndex) (r : TextRange) : outcome E SourceSpan :=
  '(start_line, _) ← line_col li (Z.of_N (range_start r));
  let end_offset := Z.max 0 (Z.of_N (range_end r) - 1) in
  '(end_line, _) ← line_col li end_offset;
  Ok (mkSourceSpan start_line (Z.max end_line start_line)).

(** ** Identifiers: what the check accepts *)

Definition safe_identifier (s : string) : Prop :=
  s <> "" /\ zlen (chars s) <= MAX_IDENTIFIER_LEN /\ Forall (fun c => is_safe_airflow_char c = true) (chars s).

Lemma validate_safe_identifier_iff kind s :
  validate_safe_identifier kind s MAX_IDENTIFIER_LEN = Ok tt <-> safe_identifier s.
Proof.
  unfold validate_safe_identifier, safe_identifier. case_bool_decide; [split; [discriminate|intros [? _]; contradiction]|].
  destruct (Z.ltb_spec MAX_IDENTIFIER_LEN (zlen (chars s))); [split; [discriminate|lia]|].
  destruct (find _ _) as [bad|] eqn:E.
  - apply List.find_some in E as [Hin Hbad]. split; [discriminate|]. intros (_ & _ & Hall).
    rewrite List.Forall_forall in Hall. rewrite (Hall bad Hin) in Hbad. discriminate.
  - split; [|reflexivity]. intros _. split_and!; [assumption|lia|]. apply List.Forall_forall. intros c Hc.
    pose proof (List.find_none _ _ E c Hc) as Hn. apply negb_false_iff in Hn. exact Hn.
Qed.

Lemma validate_total kind s n : validate_safe_identifier kind s n <> Panic.
Proof. unfold validate_safe_identifier. repeat case_match; discriminate. Qed.

Lemma make_task_id_inv s t : make_task_id s = Ok t -> t = mkTaskId s /\ safe_identifier s.
Proof.
  unfold make_task_id, TaskId_new. destruct (validate_safe_identifier _ _ _) as [[]| |] eqn:E; cbn; try discriminate.
  intros [= <-]. split; [reflexivity|]. eapply validate_safe_identifier_iff, E.
Qed.

Lemma make_dag_id_inv s d : make_dag_id s = Ok d -> d = mkDagId s /\ safe_identifier s.
Proof.
  unfold make_dag_id, DagId_new. destruct (validate_safe_identifier _ _ _) as [[]| |] eqn:E; cbn; try discriminate.
  intros [= <-]. split; [reflexivity|]. eapply validate_safe_identifier_iff, E.
Qed.

Lemma make_task_id_total s : make_task_id s <> Panic.
Proof.
  unfold make_task_id, TaskId_new. pose proof (validate_total "task_id" s MAX_IDENTIFIER_LEN) as H.
  destruct (validate_safe_identifier _ _ _); cbn; [discriminate|discriminate|contradiction].
Qed.

Lemma make_dag_id_total s : make_dag_id s <> Panic.
Proof.
  unfold make_dag_id, DagId_new. pose proof (validate_total "dag_id" s MAX_IDENTIFIER_LEN) as H.
  destruct (validate_safe_identifier _ _ _); cbn; [discriminate|discriminate|contradiction].
Qed.

Lemma push_unique_task_spec into t :
  push_unique_task into t = if decide (t ∈ into) then into else (into ++ [t])%list.
Proof.
  unfold push_unique_task. destruct (existsb _ into) eqn:E.
  - apply List.existsb_exists in E as (e & Hin & He). apply bool_decide_eq_true in He.
    destruct e, t. cbn in He. subst. rewrite decide_True; [reflexivity|]. apply list_elem_of_In, Hin.
  - rewrite decide_False; [reflexivity|]. intros Hin. apply list_elem_of_In in Hin.
    assert (Ht : existsb (fun e => bool_decide (task_str e = task_str t)) into = true); [|congruence].
    apply List.existsb_exists. exists t. split; [exact Hin|]. apply bool_decide_eq_true. reflexivity.
Qed.

(** ** Positions: the reference counts bytes and line feeds one at a time *)

Fixpoint walk_pos (n : nat) (s : string) (line col : Z) : Z * Z :=
  match n, s with
  | S n, String b s => if Ascii.eqb b "010" then walk_pos n s (line + 1) 1 else walk_pos n s line (col + 1)
  | _, _ => (line, col)
  end.

Lemma str_len_cons c s : str_len (String c s) = 1 + str_len s.
Proof. unfold str_len. cbn [String.length]. lia. Qed.

Lemma u32_or_max_id n : n <= U32_MAX -> u32_or_max n = n.
Proof. intros H. unfold u32_or_max, u32_try_from. destruct (Z.leb_spec n U32_MAX); [reflexivity|lia]. Qed.

Lemma starts_from_bounds idx s v :
  0 <= idx -> idx + str_len s <= U32_MAX -> v ∈ starts_from idx s -> idx < v <= idx + str_len s.
Proof.
  revert idx. induction s as [|b s IH]; intros idx H0 Hlen Hv; cbn in Hv; [inversion Hv|].
  rewrite str_len_cons in *. pose proof (Zle_0_nat (String.length s)) as Hs. fold (str_len s) in Hs.
  destruct (Ascii.eqb b "010"); [|apply IH in Hv; lia].
  apply elem_of_cons in Hv as [->|Hv]; [rewrite u32_or_max_id by lia; lia|apply IH in Hv; lia].
Qed.

Lemma starts_from_sorted idx s :
  0 <= idx -> idx + str_len s <= U32_MAX -> StronglySorted Z.le (starts_from idx s).
Proof.
  revert idx. induction s as [|b s IH]; intros idx H0 Hlen; cbn; [constructor|].
  rewrite str_len_cons in *. pose proof (Zle_0_nat (String.length s)) as Hs. fold (str_len s) in Hs.
  destruct (Ascii.eqb b "010"); [|apply IH; lia].
  rewrite u32_or_max_id by lia. constructor; [apply IH; lia|]. apply Forall_forall. intros v Hv.
  apply starts_from_bounds in Hv; lia.
Qed.

Lemma length_starts_from idx s : zlen (starts_from idx s) <= str_len s.
Proof.
  revert idx. induction s as [|b s IH]; intros idx; cbn [starts_from]; [reflexivity|].
  rewrite str_len_cons. specialize (IH (idx + 1)).
  destruct (Ascii.eqb b "010"); rewrite ?zlen_cons; lia.
Qed.

(** The walk from byte [idx] of a line that starts at [st] ends on the line of
    the last start not after [c]. *)
Lemma walk_pos_start s : forall idx st c line i v,
  0 <= st <= idx -> idx <= c <= idx + str_len s -> idx + str_len s <= U32_MAX ->
  (st :: starts_from idx s) !! i = Some v -> v <= c ->
  (forall w, (st :: starts_from idx s) !! S i = Some w -> c < w) ->
  walk_pos (Z.to_nat (c - idx)) s line (idx - st + 1) = (line + Z.of_nat i, c - v + 1).
Proof.
  induction s as [|b s IH]; intros idx st c line i v Hst Hc Hlen Hi Hv Hnext.
  - unfold str_len in Hc. cbn in Hc. assert (c = idx) as -> by lia.
    destruct i; [|discriminate]. cbn in Hi. injection Hi as <-. destruct (Z.to_nat _); cbn; f_equal; lia.
  - destruct (decide (c = idx)) as [->|Hne].
    + rewrite Z.sub_diag. cbn [Z.to_nat walk_pos]. destruct i as [|i].
      * cbn in Hi. injection Hi as <-. f_equal. lia.
      * change (starts_from idx (String b s) !! i = Some v) in Hi. apply list_elem_of_lookup_2, starts_from_bounds in Hi; lia.
    + rewrite str_len_cons in *. replace (Z.to_nat (c - idx)) with (S (Z.to_nat (c - (idx + 1)))) by lia.
      cbn [walk_pos starts_from] in *. destruct (Ascii.eqb b "010").
      * rewrite u32_or_max_id in Hi, Hnext by lia. destruct i as [|i]; [specialize (Hnext _ eq_refl); lia|].
        pose proof (IH (idx + 1) (idx + 1) c (line + 1) i v ltac:(lia) ltac:(lia) ltac:(lia) Hi Hv Hnext) as E.
        replace (idx + 1 - (idx + 1) + 1) with 1 in E by lia. rewrite E. f_equal; lia.
      * replace (idx - st + 1 + 1) with (idx + 1 - st + 1) by lia. apply (IH (idx + 1)); try assumption; lia.
Qed.

(** ** The binary search finds the last element not above [x] *)

Section Search.
Context (l : list Z) (x : Z).

Definition above_from (n : nat) : Prop := forall j v, (n <= j)%nat -> l !! j = Some v -> x < v.

Lemma sorted_lookup i j v w : StronglySorted Z.le l -> l !! i = Some v -> l !! j = Some w -> (i <= j)%nat -> v <= w.
Proof.
  intros Hs. revert i j. induction Hs as [|a k Hs IH Ha]; intros i j Hi Hj Hle; [discriminate|].
  destruct i as [|i], j as [|j]; cbn in Hi, Hj; [simplify_eq; lia| |lia|apply (IH i j); [assumption|assumption|lia]].
  injection Hi as <-. rewrite Forall_forall in Ha. apply Ha, (list_elem_of_lookup_2 _ j), Hj.
Qed.

Lemma halve_spec fuel base size v :
  StronglySorted Z.le l -> (size <= fuel)%nat -> (1 <= size)%nat -> (base + size <= length l)%nat ->
  l !! base = Some v -> v <= x -> above_from (base + size) ->
  exists w, l !! halve fuel l x base size = Some w /\ w <= x /\ above_from (S (halve fuel l x base size)).
Proof.
  intros Hs. revert base size v. induction fuel as [|fuel IH]; intros base size v Hf H1 Hlen Hb Hv Hab; [lia|].
  cbn [halve]. destruct (Nat.leb_spec size 1) as [Hsz|Hsz].
  - exists v. split_and!; [exact Hb|exact Hv|]. replace (base + size)%nat with (S base) in Hab by lia. exact Hab.
  - pose proof (Nat.div2_odd size) as Hodd. pose proof (Nat.b2n_le_1 (Nat.odd size)) as Hb1.
    destruct (lookup_lt_is_Some_2 l (base + Nat.div2 size)) as [m Hm]; [lia|]. rewrite Hm. cbn [default id].
    destruct (Z.leb_spec m x) as [Hle|Hgt].
    + apply (IH _ _ m); [lia|lia|lia|exact Hm|exact Hle|].
      replace (base + Nat.div2 size + (size - Nat.div2 size))%nat with (base + size)%nat by lia. exact Hab.
    + apply (IH _ _ v); [lia|lia|lia|exact Hb|exact Hv|]. intros j w Hj Hw.
      pose proof (sorted_lookup _ _ _ _ Hs Hm Hw ltac:(lia)). lia.
Qed.

(** The index [line_col] takes from the search. *)
Lemma binary_search_last v :
  StronglySorted Z.le l -> l !! 0%nat = Some v -> v <= x ->
  let i := match binary_search l x with inl i => i | inr i => Nat.pred i end in
  exists w, l !! i = Some w /\ w <= x /\ above_from (S i).
Proof.
  intros Hs H0 Hv. assert (Hl : (1 <= length l)%nat) by (destruct l; [discriminate|cbn; lia]).
  destruct (halve_spec (length l) 0 (length l) v Hs) as (w & Hw & Hle & Hab); [lia|lia|lia|exact H0|exact Hv| |].
  { intros j u Hj Hu. apply lookup_lt_Some in Hu. lia. }
  unfold binary_search. destruct l as [|a l'] eqn:El; [discriminate|]. rewrite <- El in *. rewrite Hw. cbn [default id].
  destruct (Z.eqb_spec w x); [exists w; auto|]. destruct (Z.ltb_spec w x); [cbn [Nat.pred]; exists w; auto|lia].
Qed.

End Search.

Lemma line_index_last src offset :
  str_len src < U32_MAX -> 0 <= offset ->
  let l := line_starts (LineIndex_new src) in
  let c := Z.min offset (str_len src) in
  let i := match binary_search l c with inl i => i | inr i => Nat.pred i end in
  exists v, l !! i = Some v /\ 0 <= v <= c /\ 0 <= Z.of_nat i <= str_len src /\ above_from l c (S i).
Proof.
  intros Hlen Hoff l c i. pose proof (Zle_0_nat (String.length src)) as Hs. fold (str_len src) in Hs.
  assert (Hb : forall v, v ∈ starts_from 0 src -> 0 < v <= 0 + str_len src)
    by (intros v; apply starts_from_bounds; lia).
  assert (Hsort : StronglySorted Z.le l).
  { constructor; [apply starts_from_sorted; lia|]. apply Forall_forall. intros v Hv. apply Hb in Hv. lia. }
  destruct (binary_search_last l c 0 Hsort eq_refl) as (v & Hv & Hle & Hab); [lia|]. exists v.
  split_and!; [exact Hv| |exact Hle|lia| |exact Hab].
  - fold i in Hv. destruct i; cbn in Hv; [injection Hv as <-; lia|]. apply list_elem_of_lookup_2, Hb in Hv. lia.
  - apply lookup_lt_Some in Hv. fold i in Hv. pose proof (length_starts_from 0 src) as Hn. unfold zlen in Hn.
    subst l. cbn in Hv. lia.
Qed.

Lemma walk_pos_clamp n s line col :
  walk_pos n s line col = walk_pos (Nat.min n (String.length s)) s line col.
Proof.
  revert n line col. induction s as [|b s IH]; intros [|n] line col; try reflexivity.
  cbn. destruct (Ascii.eqb b "010"); apply IH.
Qed.

Lemma line_col_index {E} src offset :
  str_len src < U32_MAX -> 0 <= offset ->
  let l := line_starts (LineIndex_new src) in
  let c := Z.min offset (str_len src) in
  exists i v, line_col (E := E) (LineIndex_new src) offset = Ok (1 + Z.of_nat i, c - v + 1) /\
    l !! i = Some v /\ v <= c /\ above_from l c (S i).
Proof.
  intros Hlen Hoff l c. destruct (line_index_last src offset Hlen Hoff) as (v & Hv & Hvc & Hi & Hab).
  unfold line_col. cbn [total_len LineIndex_new]. rewrite (u32_or_max_id (str_len src)) by lia.
  fold l c. fold l c in Hv, Hi, Hab, Hvc. set (i := match binary_search l c with inl i => i | inr i => Nat.pred i end) in *.
  exists i, v. split; [|split_and!; [exact Hv|lia|exact Hab]]. rewrite Hv. cbn [expect mbind outcome_bind].
  rewrite Z.max_r by lia. unfold u32_add.
  destruct (Z.leb_spec (c - v + 1) U32_MAX); [|lia]. cbn [mbind outcome_bind].
  rewrite u32_or_max_id by lia. destruct (Z.leb_spec (Z.of_nat i + 1) U32_MAX); [|lia]. cbn [mbind outcome_bind].
  do 2 f_equal. lia.
Qed.

(** The number of lines of a source. *)
Definition line_count (src : string) : Z := zlen (line_starts (LineIndex_new src)).

Lemma span_of_ok {E} src r :
  str_len src < U32_MAX ->
  exists a b, span_of (E := E) (LineIndex_new src) r = Ok (mkSourceSpan a b) /\ 1 <= a <= b /\ b <= line_count src.
Proof.
  intros Hlen. unfold span_of.
  destruct (line_col_index (E := E) src (Z.of_N (range_start r)) Hlen ltac:(lia)) as (i & v & -> & Hi & _).
  destruct (line_col_index (E := E) src (Z.max 0 (Z.of_N (range_end r) - 1)) Hlen ltac:(lia)) as (j & w & E2 & Hj & _).
  cbn. rewrite E2. cbn. eexists _, _. split; [reflexivity|]. apply lookup_lt_Some in Hi, Hj.
  unfold line_count, zlen. lia.
Qed.

Lemma line_col_walk {E} src offset :
  str_len src < U32_MAX -> 0 <= offset ->
  line_col (E := E) (LineIndex_new src) offset = Ok (walk_pos (Z.to_nat offset) src 1 1).
Proof.
  intros Hlen Hoff. destruct (line_col_index (E := E) src offset Hlen Hoff) as (i & v & -> & Hv & Hle & Hab). f_equal.
  rewrite walk_pos_clamp. replace (Nat.min _ _) with (Z.to_nat (Z.min offset (str_len src) - 0)) by (unfold str_len; lia).
  symmetry. apply (walk_pos_start src 0 0 (Z.min offset (str_len src)) 1 i v); [lia|unfold str_len; lia|lia|exact Hv|lia|].
  intros w Hw. apply (Hab (S i) w); [lia|exact Hw].
Qed.

(** C27: On a source shorter than 4 GiB minus one byte the line index never
    panics: its binary search over precomputed line starts gives the line and
    column that reading the source byte by byte and counting line feeds gives, an
    offset past the end being the position of the end; and the span of a range is
    the line of its first byte to the line of its last. *)
Theorem line_col_counts_lines {E} (src : string) :
  str_len src < U32_MAX ->
  (forall offset, 0 <= offset -> line_col (E := E) (LineIndex_new src) offset = Ok (walk_pos (Z.to_nat offset) src 1 1)) /\
  (forall r, let line n := fst (walk_pos (N.to_nat n) src 1 1) in
     span_of (E := E) (LineIndex_new src) r =
     Ok (mkSourceSpan (line (range_start r)) (Z.max (line (range_end r - 1)%N) (line (range_start r))))).
Proof.
  intros Hlen. split; [intros offset Hoff; apply line_col_walk; assumption|]. intros r line. unfold span_of, line.
  rewrite !line_col_walk by lia. cbn [mbind outcome_bind]. replace (Z.to_nat (Z.of_N (range_start r))) with (N.to_nat (range_start r)) by lia.
  replace (Z.to_nat (Z.max 0 (Z.of_N (range_end r) - 1))) with (N.to_nat (range_end r - 1)) by lia.
  destruct (walk_pos _ src 1 1), (walk_pos _ src 1 1). reflexivity.
Qed.

Lemma line_col_counts_lines_witness :
  line_col (E := ParseError) (LineIndex_new "ab
cd") 4 = Ok (2, 2).
Proof.
  destruct (line_col_counts_lines (E := ParseError) "ab
cd") as [H _]; [reflexivity|]. apply (H 4). lia.
Defined.
