(* ===== verification/AirflowShield.v ===== *)
(** * The syntax the parser returns, and the shield around it

    The shape of the third-party syntax tree as the crate reads it: the
    constructors and fields its patterns name, with one constructor for every
    other form. [crates/ferro-airflow-dag-parser/src/panic_safe.rs]: the byte
    scan, the token scan and the guarded call of the parser, with the theorem
    that the parser only sees source within the limits. *)

From S2P Require Import Prelude Str AirflowText.

Local Open Scope string_scope.
Local Open Scope Z_scope.

(** ** Syntax trees and tokens, as the crate matches on them *)

(** The text [to_string] gives of a number is kept in place of its value. *)
Inductive Number : Type :=
| Int (text : string)
| Float (text : string)
| Complex (real imag : string).

Inductive Operator : Type := RShift | LShift | OtherOperator.

Inductive InterpolatedStringElement : Type :=
| ElementLiteral (value : string)
| Interpolation.

Inductive FStringPart : Type :=
| PartLiteral (value : string)
| PartFString (elements : list InterpolatedStringElement).

(** Every node has its range; a keyword is its name, absent for [**kwargs], and
    its value. *)
#[local] Unset Elimination Schemes.

Inductive Expr : Type :=
| Call (range : TextRange) (func : Expr) (args : list Expr) (keywords : list (option string * Expr))
| Name (range : TextRange) (id : string)
| Attribute (range : TextRange) (value : Expr) (attr : string)
| StringLiteral (range : TextRange) (value : string)
| NoneLiteral (range : TextRange)
| BooleanLiteral (range : TextRange) (value : bool)
| NumberLiteral (range : TextRange) (value : Number)
| EllipsisLiteral (range : TextRange)
| FString (range : TextRange) (value : list FStringPart)
| Starred (range : TextRange)
| ListExpr (range : TextRange) (elts : list Expr)
| TupleExpr (range : TextRange) (elts : list Expr)
| BinOp (range : TextRange) (left : Expr) (op : Operator) (right : Expr)
| OtherExpr (range : TextRange).

Definition expr_range (e : Expr) : TextRange :=
  match e with
  | Call r _ _ _ | Name r _ | Attribute r _ _ | StringLiteral r _ | NoneLiteral r | BooleanLiteral r _
  | NumberLiteral r _ | EllipsisLiteral r | FString r _ | Starred r | ListExpr r _ | TupleExpr r _
  | BinOp r _ _ _ | OtherExpr r => r
  end.

(** Decorators and [with] items are kept as their expressions, [elif] and [else]
    clauses as their bodies. *)
Inductive Stmt : Type :=
| With (items : list Expr) (body : list Stmt) (range : TextRange)
| FunctionDef (name : string) (decorator_list : list Expr) (body : list Stmt) (range : TextRange)
| Assign (targets : list Expr) (value : Expr)
| AnnAssign (target : Expr) (value : option Expr)
| ExprStmt (value : Expr)
| ClassDef (body : list Stmt)
| If (test : Expr) (body : list Stmt) (elif_else_clauses : list (list Stmt))
| For (iter : Expr) (body : list Stmt)
| While (test : Expr) (body : list Stmt)
| Try (body : list Stmt)
| OtherStmt.

#[local] Set Elimination Schemes.

(** Induction with the hypothesis on every subexpression. *)
Section ExprInduction.
Variable P : Expr -> Prop.
Hypothesis P_Call : forall r f args kws, P f -> Forall P args -> Forall (fun kw => P (snd kw)) kws -> P (Call r f args kws).
Hypothesis P_Attribute : forall r v attr, P v -> P (Attribute r v attr).
Hypothesis P_List : forall r elts, Forall P elts -> P (ListExpr r elts).
Hypothesis P_Tuple : forall r elts, Forall P elts -> P (TupleExpr r elts).
Hypothesis P_BinOp : forall r a op b, P a -> P b -> P (BinOp r a op b).
Hypothesis P_Name : forall r id, P (Name r id).
Hypothesis P_StringLiteral : forall r v, P (StringLiteral r v).
Hypothesis P_NoneLiteral : forall r, P (NoneLiteral r).
Hypothesis P_BooleanLiteral : forall r v, P (BooleanLiteral r v).
Hypothesis P_NumberLiteral : forall r v, P (NumberLiteral r v).
Hypothesis P_EllipsisLiteral : forall r, P (EllipsisLiteral r).
Hypothesis P_FString : forall r v, P (FString r v).
Hypothesis P_Starred : forall r, P (Starred r).
Hypothesis P_OtherExpr : forall r, P (OtherExpr r).

Fixpoint Expr_ind (e : Expr) : P e :=
  let exprs := fix exprs (l : list Expr) : Forall P l :=
    match l with [] => List.Forall_nil _ | x :: l => List.Forall_cons _ _ _ (Expr_ind x) (exprs l) end in
  match e with
  | Call r f args kws =>
    P_Call r f args kws (Expr_ind f) (exprs args)
      ((fix keywords (l : list (option string * Expr)) : Forall (fun kw => P (snd kw)) l :=
          match l with
          | [] => List.Forall_nil _
          | (n, x) :: l => List.Forall_cons _ (n, x) _ (Expr_ind x) (keywords l)
          end) kws)
  | Attribute r v attr => P_Attribute r v attr (Expr_ind v)
  | ListExpr r elts => P_List r elts (exprs elts)
  | TupleExpr r elts => P_Tuple r elts (exprs elts)
  | BinOp r a op b => P_BinOp r a op b (Expr_ind a) (Expr_ind b)
  | Name r id => P_Name r id
  | StringLiteral r v => P_StringLiteral r v
  | NoneLiteral r => P_NoneLiteral r
  | BooleanLiteral r v => P_BooleanLiteral r v
  | NumberLiteral r v => P_NumberLiteral r v
  | EllipsisLiteral r => P_EllipsisLiteral r
  | FString r v => P_FString r v
  | Starred r => P_Starred r
  | OtherExpr r => P_OtherExpr r
  end.

End ExprInduction.

(** Induction with the hypothesis on every statement of every nested body. *)
Section StmtInduction.
Variable P : Stmt -> Prop.
Hypothesis P_With : forall items body r, Forall P body -> P (With items body r).
Hypothesis P_FunctionDef : forall name decs body r, Forall P body -> P (FunctionDef name decs body r).
Hypothesis P_Assign : forall targets value, P (Assign targets value).
Hypothesis P_AnnAssign : forall target value, P (AnnAssign target value).
Hypothesis P_ExprStmt : forall value, P (ExprStmt value).
Hypothesis P_ClassDef : forall body, Forall P body -> P (ClassDef body).
Hypothesis P_If : forall test body clauses, Forall P body -> Forall (Forall P) clauses -> P (If test body clauses).
Hypothesis P_For : forall iter body, Forall P body -> P (For iter body).
Hypothesis P_While : forall test body, Forall P body -> P (While test body).
Hypothesis P_Try : forall body, Forall P body -> P (Try body).
Hypothesis P_OtherStmt : P OtherStmt.

Fixpoint Stmt_ind (s : Stmt) : P s :=
  let stmts := fix stmts (l : list Stmt) : Forall P l :=
    match l with [] => List.Forall_nil _ | x :: l => List.Forall_cons _ _ _ (Stmt_ind x) (stmts l) end in
  match s with
  | With items body r => P_With items body r (stmts body)
  | FunctionDef name decs body r => P_FunctionDef name decs body r (stmts body)
  | Assign targets value => P_Assign targets value
  | AnnAssign target value => P_AnnAssign target value
  | ExprStmt value => P_ExprStmt value
  | ClassDef body => P_ClassDef body (stmts body)
  | If test body clauses =>
    P_If test body clauses (stmts body)
      ((fix bodies (l : list (list Stmt)) : Forall (Forall P) l :=
          match l with [] => List.Forall_nil _ | x :: l => List.Forall_cons _ _ _ (stmts x) (bodies l) end) clauses)
  | For iter body => P_For iter body (stmts body)
  | While test body => P_While test body (stmts body)
  | Try body => P_Try body (stmts body)
  | OtherStmt => P_OtherStmt
  end.

End StmtInduction.

Module TokenKind.

Inductive TokenKind : Type :=
| Indent | Dedent | TStringStart
| Lpar | Lsqb | Lbrace | Rpar | Rsqb | Rbrace
| Newline | NonLogicalNewline | Comment
| Not | Minus | Plus | Tilde | Star | DoubleStar | Await | Lambda | Slash | Percent | And | Or | If | Else
| Yield | From | Async
| Other.

End TokenKind.
Export TokenKind (TokenKind).

#[export] Instance TokenKind_eq_dec : EqDecision TokenKind.
Proof. solve_decision. Defined.

(** What a panic carries. *)
Inductive Payload : Type :=
| StaticStr (s : string)
| OwnedString (s : string)
| OtherPayload.

(** A run of the parser: a module, a syntax error, or a panic. *)
Inductive ParserRun : Type :=
| Parsed (body : list Stmt)
| SyntaxError (msg : string)
| Unwound (payload : Payload).

(** The third-party parser and its lexer, as the tokens before the end of the
    file. *)
Class PyParser : Type := {
  lex : string -> list TokenKind;
  parse_module : string -> ParserRun
}.

(** ** The scans ([panic_safe.rs]) *)

Definition MAX_PARSE_NESTING_DEPTH : Z := 256.
Definition MAX_PARSE_RECURSION : Z := 1024.

Definition is_open (b : ascii) : bool := Ascii.eqb b "(" || Ascii.eqb b "[" || Ascii.eqb b "{".
Definition is_close (b : ascii) : bool := Ascii.eqb b ")" || Ascii.eqb b "]" || Ascii.eqb b "}".

(** The loop of [nesting_depth_exceeds], with its two variables. *)
Fixpoint nesting_scan (s : string) (depth max : Z) : Z :=
  match s with
  | "" => max
  | String b s =>
    if is_open b then nesting_scan s (depth + 1) (Z.max max (depth + 1))
    else if is_close b then nesting_scan s (Z.max 0 (depth - 1)) max
    else nesting_scan s depth max
  end.

Definition nesting_depth_exceeds (source : string) (cap : Z) : option Z :=
  let max := nesting_scan source 0 0 in
  if cap <? max then Some max else None.

Record Scan : Type := mkScan { brackets : Z; op_run : Z; line_right_rec : Z; indent : Z; scan_max : Z }.

Definition is_operator (tk : TokenKind) : bool :=
  match tk with
  | TokenKind.Not | TokenKind.Minus | TokenKind.Plus | TokenKind.Tilde | TokenKind.Star | TokenKind.DoubleStar
  | TokenKind.Await | TokenKind.Lambda | TokenKind.Slash | TokenKind.Percent | TokenKind.And | TokenKind.Or
  | TokenKind.If | TokenKind.Else | TokenKind.Yield | TokenKind.From | TokenKind.Async => true
  | _ => false
  end.

Definition is_right_recursive (tk : TokenKind) : bool :=
  match tk with
  | TokenKind.DoubleStar | TokenKind.If | TokenKind.Else | TokenKind.Lambda => true
  | _ => false
  end.

(** The arms of the loop that update the counters. *)
Definition count_token (tk : TokenKind) (s : Scan) : Scan :=
  match tk with
  | TokenKind.Indent => mkScan (brackets s) 0 (line_right_rec s) (indent s + 1) (scan_max s)
  | TokenKind.Dedent => mkScan (brackets s) 0 (line_right_rec s) (Z.max 0 (indent s - 1)) (scan_max s)
  | TokenKind.Lpar | TokenKind.Lsqb | TokenKind.Lbrace =>
    mkScan (brackets s + 1) 0 (line_right_rec s) (indent s) (scan_max s)
  | TokenKind.Rpar | TokenKind.Rsqb | TokenKind.Rbrace =>
    mkScan (Z.max 0 (brackets s - 1)) 0 (line_right_rec s) (indent s) (scan_max s)
  | TokenKind.Newline =>
    mkScan (brackets s) 0 (if brackets s =? 0 then 0 else line_right_rec s) (indent s) (scan_max s)
  | TokenKind.NonLogicalNewline | TokenKind.Comment => s
  | _ =>
    if is_operator tk
    then mkScan (brackets s) (op_run s + 1) (line_right_rec s + if is_right_recursive tk then 1 else 0) (indent s) (scan_max s)
    else mkScan (brackets s) 0 (line_right_rec s) (indent s) (scan_max s)
  end.

Definition scan_depth (s : Scan) : Z := brackets s + op_run s + line_right_rec s + indent s.

Fixpoint lex_loop (toks : list TokenKind) (s : Scan) : option string :=
  match toks with
  | [] => None
  | TokenKind.TStringStart :: _ =>
    Some "input rejected: Python 3.14 t-strings (PEP 750) are not supported by the vendored parser"
  | tk :: toks =>
    let s := count_token tk s in
    let max := Z.max (scan_max s) (scan_depth s) in
    if MAX_PARSE_RECURSION <? max
    then Some ("input rejected: expression recursion depth " ++ display_u64 max ++
               " exceeds the stack-safety cap of " ++ display_u64 MAX_PARSE_RECURSION)
    else lex_loop toks (mkScan (brackets s) (op_run s) (line_right_rec s) (indent s) max)
  end.

Definition panic_payload_message (p : Payload) : string :=
  match p with
  | StaticStr s => s
  | OwnedString s => s
  | OtherPayload => "<non-string panic payload>"
  end.

Section Shield.
Context `{PyParser}.

Definition lex_reject_reason (source : string) : option string := lex_loop (lex source) (mkScan 0 0 0 0 0).

Definition parse_module_safely (source : string) : outcome ParseError (list Stmt) :=
  match parse_module source with
  | Parsed body => Ok body
  | SyntaxError msg => Err (Parse msg)
  | Unwound p => Err (Internal ("ruff_python_parser panicked on input: " ++ panic_payload_message p))
  end.

(** [spawn] is the error text of a failed thread spawn, [payload] what a panic of
    [f] carries. *)
Definition shield_parser_panic {T} (spawn : option string) (payload : Payload) (src : string)
    (f : outcome ParseError T) : outcome ParseError T :=
  match nesting_depth_exceeds src MAX_PARSE_NESTING_DEPTH with
  | Some depth =>
    Err (Parse ("input rejected: bracket/brace nesting depth " ++ display_u64 depth ++
                " exceeds the stack-safety cap of " ++ display_u64 MAX_PARSE_NESTING_DEPTH))
  | None =>
    match lex_reject_reason src with
    | Some reason => Err (Parse reason)
    | None =>
      match spawn with
      | Some e => Err (Internal ("failed to spawn dag-parse thread: " ++ e))
      | None =>
        match f with
        | Panic => Err (Internal ("ruff_python_parser panicked on input: " ++ panic_payload_message payload))
        | result => result
        end
      end
    end
  end.

End Shield.

(** ** What the scans measure *)

Definition byte_net (b : ascii) : Z := if is_open b then 1 else if is_close b then -1 else 0.

(** Opening minus closing delimiters of a stretch of source. *)
Fixpoint net_open (s : string) : Z :=
  match s with "" => 0 | String b s => byte_net b + net_open s end.

Lemma nesting_scan_cons b s depth max :
  0 <= depth <= max -> exists d m, nesting_scan (String b s) depth max = nesting_scan s d m /\
    0 <= d <= m /\ depth + byte_net b <= d /\ max <= m /\ (d = depth + byte_net b \/ d = 0) /\ (m = max \/ m = d).
Proof.
  intros Hd. cbn [nesting_scan]. unfold byte_net. destruct (is_open b), (is_close b); (eexists _, _; split; [reflexivity|lia]).
Qed.

(** The scan bounds every prefix, counted from the current depth, and every
    stretch. *)
Lemma nesting_scan_bounds s depth max :
  0 <= depth <= max ->
  max <= nesting_scan s depth max /\
  (forall p q, s = p ++ q -> depth + net_open p <= nesting_scan s depth max) /\
  (forall p seg q, s = p ++ seg ++ q -> net_open seg <= nesting_scan s depth max).
Proof.
  revert depth max. induction s as [|b s IH]; intros depth max Hd.
  - cbn. split_and!; [lia| |]; intros; destruct p; try destruct seg; try discriminate; cbn; lia.
  - destruct (nesting_scan_cons b s depth max Hd) as (d & m & -> & Hdm & Hle & Hm & _).
    destruct (IH d m Hdm) as (I1 & I2 & I3).
    assert (Hpre : forall p q, String b s = p ++ q -> depth + net_open p <= nesting_scan s d m).
    { intros [|c p] q E; cbn in *; [lia|]. injection E as <- E. specialize (I2 _ _ E). lia. }
    split_and!; [lia|exact Hpre|]. intros [|c p] seg q E; cbn in E.
    + specialize (Hpre seg q E). lia.
    + injection E as <- E. apply (I3 _ _ _ E).
Qed.

(** And it is reached by one of them. *)
Lemma nesting_scan_reached s depth max :
  0 <= depth <= max ->
  nesting_scan s depth max = max \/
  (exists p q, s = p ++ q /\ nesting_scan s depth max = depth + net_open p) \/
  (exists p seg q, s = p ++ seg ++ q /\ nesting_scan s depth max = net_open seg).
Proof.
  revert depth max. induction s as [|b s IH]; intros depth max Hd; [left; reflexivity|].
  destruct (nesting_scan_cons b s depth max Hd) as (d & m & -> & Hdm & Hle & _ & Hval & Hmv).
  assert (Hpre : forall p q, s = p ++ q -> nesting_scan s d m = d + net_open p ->
    nesting_scan s d m = max \/ (exists p q, String b s = p ++ q /\ nesting_scan s d m = depth + net_open p) \/
    (exists p seg q, String b s = p ++ seg ++ q /\ nesting_scan s d m = net_open seg)).
  { intros p q E Er. right. destruct Hval as [->| ->]; [left|right].
    - exists (String b p), q. split; [rewrite E; reflexivity|cbn; lia].
    - exists (String b ""), p, q. split; [rewrite E; reflexivity|lia]. }
  destruct (IH d m Hdm) as [Er|[(p & q & E & Er)|(p & seg & q & E & Er)]]; [|eauto|].
  - destruct Hmv as [->| ->]; [left; exact Er|]. apply (Hpre "" s); [reflexivity|cbn; lia].
  - right. right. exists (String b p), seg, q. split; [rewrite E; reflexivity|exact Er].
Qed.

Lemma nesting_depth_none src cap :
  0 <= cap ->
  (nesting_depth_exceeds src cap = None) <-> (forall p seg q, src = p ++ seg ++ q -> net_open seg <= cap).
Proof.
  intros Hc. unfold nesting_depth_exceeds.
  destruct (nesting_scan_bounds src 0 0) as (_ & _ & Hb); [lia|].
  destruct (Z.ltb_spec cap (nesting_scan src 0 0)) as [Hlt|Hle].
  - split; [discriminate|]. intros Hall. exfalso.
    destruct (nesting_scan_reached src 0 0) as [E|[(p & q & E & Er)|(p & seg & q & E & Er)]]; [lia|lia| |].
    + specialize (Hall "" p q E). lia.
    + specialize (Hall p seg q E). lia.
  - split; [|reflexivity]. intros _ p seg q E. specialize (Hb p seg q E). lia.
Qed.

(** ** The token scan *)

Definition token_bracket (tk : TokenKind) : Z :=
  match tk with
  | TokenKind.Lpar | TokenKind.Lsqb | TokenKind.Lbrace => 1
  | TokenKind.Rpar | TokenKind.Rsqb | TokenKind.Rbrace => -1
  | _ => 0
  end.

Definition token_indent (tk : TokenKind) : Z :=
  match tk with TokenKind.Indent => 1 | TokenKind.Dedent => -1 | _ => 0 end.

Definition is_trivia (tk : TokenKind) : bool :=
  match tk with TokenKind.NonLogicalNewline | TokenKind.Comment => true | _ => false end.

Definition sum_of (f : TokenKind -> Z) (toks : list TokenKind) : Z := foldr (fun tk n => f tk + n) 0 toks.

Definition net_brackets : list TokenKind -> Z := sum_of token_bracket.
Definition net_indent : list TokenKind -> Z := sum_of token_indent.
Definition operators : list TokenKind -> Z := sum_of (fun tk => if is_operator tk then 1 else 0).
Definition right_recursive : list TokenKind -> Z := sum_of (fun tk => if is_right_recursive tk then 1 else 0).

(** The counters after the tokens [toks]. *)
Definition count_tokens (toks : list TokenKind) (s : Scan) : Scan := foldl (fun s tk => count_token tk s) s toks.

Definition scan_nonneg (s : Scan) : Prop := 0 <= brackets s /\ 0 <= op_run s /\ 0 <= line_right_rec s /\ 0 <= indent s.

Lemma count_token_nonneg tk s : scan_nonneg s -> scan_nonneg (count_token tk s).
Proof. intros (? & ? & ? & ?). unfold scan_nonneg. destruct tk; cbn; try case_match; cbn; lia. Qed.

Lemma count_tokens_nonneg toks s : scan_nonneg s -> scan_nonneg (count_tokens toks s).
Proof. revert s. induction toks as [|tk toks IH]; intros s Hs; [exact Hs|]. apply IH, count_token_nonneg, Hs. Qed.

Lemma count_tokens_brackets toks s : brackets s + net_brackets toks <= brackets (count_tokens toks s).
Proof.
  revert s. induction toks as [|tk toks IH]; intros s; cbn; [lia|]. specialize (IH (count_token tk s)).
  unfold count_tokens, net_brackets in IH. assert (brackets s + token_bracket tk <= brackets (count_token tk s)) by (destruct tk; cbn; lia).
  unfold net_brackets, sum_of in *. lia.
Qed.

Lemma count_tokens_indent toks s : indent s + net_indent toks <= indent (count_tokens toks s).
Proof.
  revert s. induction toks as [|tk toks IH]; intros s; cbn; [lia|]. specialize (IH (count_token tk s)).
  unfold count_tokens in IH. assert (indent s + token_indent tk <= indent (count_token tk s)) by (destruct tk; cbn; lia).
  unfold net_indent, sum_of in *. lia.
Qed.

Lemma count_tokens_right_recursive toks s :
  TokenKind.Newline ∉ toks -> line_right_rec s + right_recursive toks <= line_right_rec (count_tokens toks s).
Proof.
  revert s. induction toks as [|tk toks IH]; intros s Hn; cbn; [lia|]. apply not_elem_of_cons in Hn as [Ht Hn].
  specialize (IH (count_token tk s) Hn). unfold count_tokens, right_recursive, sum_of in IH.
  assert (line_right_rec s + (if is_right_recursive tk then 1 else 0) <= line_right_rec (count_token tk s))
    by (destruct tk; cbn; try lia; contradiction). lia.
Qed.

Lemma count_tokens_operators toks s :
  Forall (fun tk => is_operator tk || is_trivia tk = true) toks -> op_run s + operators toks <= op_run (count_tokens toks s).
Proof.
  intros Ht. revert s. induction Ht as [|tk toks Htk _ IH]; intros s; cbn; [lia|].
  specialize (IH (count_token tk s)). unfold count_tokens, operators, sum_of in IH.
  assert (op_run s + (if is_operator tk then 1 else 0) <= op_run (count_token tk s)) by (destruct tk; cbn in *; try lia; discriminate).
  lia.
Qed.

Lemma count_tokens_app a b s : count_tokens (a ++ b)%list s = count_tokens b (count_tokens a s).
Proof. unfold count_tokens. apply foldl_app. Qed.

(** The running maximum does not influence the counters. *)
Definition set_scan_max (m : Z) (s : Scan) : Scan := mkScan (brackets s) (op_run s) (line_right_rec s) (indent s) m.

Lemma count_token_set_max tk m s : count_token tk (set_scan_max m s) = set_scan_max m (count_token tk s).
Proof. destruct tk, s; reflexivity. Qed.

Lemma count_tokens_set_max toks m s : scan_depth (count_tokens toks (set_scan_max m s)) = scan_depth (count_tokens toks s).
Proof.
  revert s. induction toks as [|tk toks IH]; intros s; [reflexivity|]. unfold count_tokens in *. cbn.
  rewrite count_token_set_max. apply IH.
Qed.

(** The scan accepts exactly when there is no t-string and the depth stays within
    the cap after every token. *)
Lemma lex_loop_none toks s :
  scan_max s <= MAX_PARSE_RECURSION ->
  (lex_loop toks s = None) <->
  (TokenKind.TStringStart ∉ toks) /\
  (forall pre rest, toks = (pre ++ rest)%list -> pre <> [] -> scan_depth (count_tokens pre s) <= MAX_PARSE_RECURSION).
Proof.
  revert s. induction toks as [|tk toks IH]; intros s Hs.
  { split; [|reflexivity]. intros _. split; [apply not_elem_of_nil|]. intros [|] rest E; [done|discriminate]. }
  destruct (decide (tk = TokenKind.TStringStart)) as [->|Htk].
  { split; [discriminate|]. intros [Hn _]. exfalso. apply Hn, list_elem_of_here. }
  assert (Hmax : scan_max (count_token tk s) = scan_max s) by (destruct tk; reflexivity).
  transitivity ((if MAX_PARSE_RECURSION <? Z.max (scan_max (count_token tk s)) (scan_depth (count_token tk s))
                 then Some "" else lex_loop toks (set_scan_max (Z.max (scan_max (count_token tk s)) (scan_depth (count_token tk s))) (count_token tk s))) = None).
  { cbn [lex_loop]. destruct tk; try contradiction; cbv zeta; case_match; split; (discriminate || (intros E; exact E)). }
  destruct (Z.ltb_spec MAX_PARSE_RECURSION (Z.max (scan_max (count_token tk s)) (scan_depth (count_token tk s)))) as [Hlt|Hle].
  { split; [discriminate|]. intros [_ Hd]. specialize (Hd [tk] toks eq_refl ltac:(discriminate)). cbn in Hd. lia. }
  rewrite IH by exact Hle. rewrite not_elem_of_cons. split.
  - intros [Hn Hd]. split; [auto|]. intros [|t pre] rest E Hne; [done|]. injection E as <- E.
    destruct (decide (pre = [])) as [->|Hp]; [cbn; lia|].
    specialize (Hd pre rest E Hp). rewrite count_tokens_set_max in Hd. exact Hd.
  - intros [[_ Hn] Hd]. split; [exact Hn|]. intros pre rest E Hp. rewrite count_tokens_set_max.
    apply (Hd (tk :: pre) rest); [rewrite E; reflexivity|discriminate].
Qed.

(** ** The limits of the source the parser is run on *)

Section Limits.
Context `{PyParser}.

(** No stretch of bytes opens more than 256 delimiters beyond those it closes;
    there is no t-string; and at every point of the token stream the brackets and
    blocks still open, the right-recursive operators since a point of the logical
    line and the operators of the run that ends there add up to at most 1024. *)
Definition within_limits (src : string) : Prop :=
  (forall p seg q, src = p ++ seg ++ q -> net_open seg <= MAX_PARSE_NESTING_DEPTH) /\
  (TokenKind.TStringStart ∉ lex src) /\
  (forall pre rest b i r o, lex src = (pre ++ rest)%list ->
     b `suffix_of` pre -> i `suffix_of` pre -> r `suffix_of` pre -> o `suffix_of` pre ->
     TokenKind.Newline ∉ r -> Forall (fun tk => is_operator tk || is_trivia tk = true) o ->
     net_brackets b + net_indent i + right_recursive r + operators o <= MAX_PARSE_RECURSION).

Lemma accepted_depth src pre rest b i r o :
  lex_reject_reason src = None -> lex src = (pre ++ rest)%list ->
  b `suffix_of` pre -> i `suffix_of` pre -> r `suffix_of` pre -> o `suffix_of` pre ->
  TokenKind.Newline ∉ r -> Forall (fun tk => is_operator tk || is_trivia tk = true) o ->
  net_brackets b + net_indent i + right_recursive r + operators o <= MAX_PARSE_RECURSION.
Proof.
  intros Hl E Hb Hi Hr Ho Hn Hf. apply lex_loop_none in Hl as [_ Hd]; [|vm_compute; discriminate].
  destruct (decide (pre = [])) as [->|Hp].
  { apply suffix_nil_inv in Hb, Hi, Hr, Ho. subst. vm_compute. discriminate. }
  specialize (Hd pre rest E Hp). unfold scan_depth in Hd.
  assert (Hz : forall a, scan_nonneg (count_tokens a (mkScan 0 0 0 0 0)))
    by (intros a; apply count_tokens_nonneg; unfold scan_nonneg; cbn; lia).
  assert (net_brackets b <= brackets (count_tokens pre (mkScan 0 0 0 0 0))).
  { destruct Hb as [a ->]. rewrite count_tokens_app. pose proof (count_tokens_brackets b (count_tokens a (mkScan 0 0 0 0 0))).
    destruct (Hz a) as (? & _). lia. }
  assert (net_indent i <= indent (count_tokens pre (mkScan 0 0 0 0 0))).
  { destruct Hi as [a ->]. rewrite count_tokens_app. pose proof (count_tokens_indent i (count_tokens a (mkScan 0 0 0 0 0))).
    destruct (Hz a) as (_ & _ & _ & ?). lia. }
  assert (right_recursive r <= line_right_rec (count_tokens pre (mkScan 0 0 0 0 0))).
  { destruct Hr as [a ->]. rewrite count_tokens_app. pose proof (count_tokens_right_recursive r (count_tokens a (mkScan 0 0 0 0 0)) Hn).
    destruct (Hz a) as (_ & _ & ? & _). lia. }
  assert (operators o <= op_run (count_tokens pre (mkScan 0 0 0 0 0))).
  { destruct Ho as [a ->]. rewrite count_tokens_app. pose proof (count_tokens_operators o (count_tokens a (mkScan 0 0 0 0 0)) Hf).
    destruct (Hz a) as (_ & ? & _). lia. }
  lia.
Qed.

(** C17: Whatever the source, either it is refused with a parse error before the
    guarded work is started, or it is within the limits (delimiter nesting at most
    256 in any stretch of bytes, no t-string, and at most 1024 for open brackets,
    open blocks, right-recursive operators of a logical line and a run of prefix
    operators taken together, comments and line breaks inside brackets not
    interrupting the run); then the result is that of the guarded work, with a
    panic of it, or a thread that cannot be started, turned into an internal
    error. *)
Theorem parser_sees_admitted_source_only (src : string) :
  (exists msg, forall T spawn payload (f : outcome ParseError T),
     shield_parser_panic spawn payload src f = Err (Parse msg)) \/
  (within_limits src /\
   forall T spawn payload (f : outcome ParseError T),
     shield_parser_panic spawn payload src f =
     match spawn, f with
     | Some e, _ => Err (Internal ("failed to spawn dag-parse thread: " ++ e))
     | None, Panic => Err (Internal ("ruff_python_parser panicked on input: " ++ panic_payload_message payload))
     | None, result => result
     end).
Proof.
  unfold shield_parser_panic. destruct (nesting_depth_exceeds _ _) as [d|] eqn:En; [left; eauto|].
  destruct (lex_reject_reason src) as [m|] eqn:El; [left; eauto|]. right. split.
  - split_and!.
    + apply nesting_depth_none; [vm_compute; discriminate|exact En].
    + apply lex_loop_none in El; [exact (proj1 El)|vm_compute; discriminate].
    + intros pre rest b i r o. apply accepted_depth, El.
  - intros T [e|] payload f; [reflexivity|destruct f; reflexivity].
Qed.

End Limits.
