(* ===== verification/AirflowExtract.v ===== *)
(** * Static extraction of DAGs

    [crates/ferro-airflow-dag-parser/src/ruff_impl.rs]: the walk over the syntax
    tree that collects DAGs, tasks and dependency edges, with its well-formedness
    invariant and what it makes of a chain of shift operators. *)

From S2P Require Import Prelude Str AirflowText AirflowShield.

Local Open Scope string_scope.

Definition DAG_NAMES : list string := ["DAG"].
Definition DAG_DECORATOR_NAMES : list string := ["dag"].
Definition SETTER_METHODS : list string := ["set_upstream"; "set_downstream"].
Definition MAX_WALK_DEPTH : nat := 1024.

(** The walk's [depth] guard. *)
Definition too_deep (depth : nat) : bool := Nat.ltb MAX_WALK_DEPTH depth.
#[global] Arguments too_deep : simpl never.

(** ** Reading expressions *)

Definition constant_str (e : Expr) : option string :=
  match e with StringLiteral _ v => Some v | _ => None end.

Fixpoint stringify_expr (e : Expr) (depth : nat) : string :=
  if too_deep depth then "<deep>" else
  match e with
  | StringLiteral _ v => v
  | NoneLiteral _ => "None"
  | BooleanLiteral _ b => if b then "true" else "false"
  | NumberLiteral _ (Int t) => t
  | NumberLiteral _ (Float t) => t
  | NumberLiteral _ (Complex re im) => re ++ "+" ++ im ++ "j"
  | Name _ id => id
  | Attribute _ v attr => stringify_expr v (S depth) ++ "." ++ attr
  | Call _ f _ _ => stringify_expr f (S depth) ++ "(...)"
  | _ => "<expr>"
  end.

Definition is_dag_callable (e : Expr) : bool :=
  match e with
  | Name _ id => contains DAG_NAMES id
  | Attribute _ _ attr => contains DAG_NAMES attr
  | _ => false
  end.

(** The match on a keyword's name; a keyword without one is skipped. *)
Inductive DagKeyword : Type := KwDagId | KwSchedule | KwDefaultArgs | KwOther.

Definition dag_keyword (arg : option string) : DagKeyword :=
  match arg with
  | None => KwOther
  | Some a =>
    if String.eqb a "dag_id" then KwDagId
    else if contains ["schedule"; "schedule_interval"; "timetable"] a then KwSchedule
    else if String.eqb a "default_args" then KwDefaultArgs
    else KwOther
  end.

Definition set_dag_id (i : DagId) (d : ExtractedDag) : ExtractedDag :=
  mkExtractedDag (Some i) (task_ids d) (schedule d) (has_default_args d) (deps_edges d) (source_span d).
Definition set_schedule (s : string) (d : ExtractedDag) : ExtractedDag :=
  mkExtractedDag (dag_id d) (task_ids d) (Some s) (has_default_args d) (deps_edges d) (source_span d).
Definition set_default_args (d : ExtractedDag) : ExtractedDag :=
  mkExtractedDag (dag_id d) (task_ids d) (schedule d) true (deps_edges d) (source_span d).
Definition set_span (sp : SourceSpan) (d : ExtractedDag) : ExtractedDag :=
  mkExtractedDag (dag_id d) (task_ids d) (schedule d) (has_default_args d) (deps_edges d) (Some sp).
Definition set_tasks (ts : list TaskId) (d : ExtractedDag) : ExtractedDag :=
  mkExtractedDag (dag_id d) ts (schedule d) (has_default_args d) (deps_edges d) (source_span d).
Definition set_edges (es : list (TaskId * TaskId)) (d : ExtractedDag) : ExtractedDag :=
  mkExtractedDag (dag_id d) (task_ids d) (schedule d) (has_default_args d) es (source_span d).

Fixpoint merge_dag_kwargs (keywords : list (option string * Expr)) (dag : ExtractedDag) : outcome ParseError ExtractedDag :=
  match keywords with
  | [] => Ok dag
  | (arg, value) :: keywords =>
    dag ← match dag_keyword arg with
          | KwDagId =>
            match constant_str value with
            | Some s => i ← make_dag_id s; Ok (set_dag_id i dag)
            | None => Ok dag
            end
          | KwSchedule => Ok (set_schedule (stringify_expr value 0) dag)
          | KwDefaultArgs => Ok (set_default_args dag)
          | KwOther => Ok dag
          end;
    merge_dag_kwargs keywords dag
  end.

(** On the parts of a call expression. *)
Definition parse_dag_call (func : Expr) (args : list Expr) (keywords : list (option string * Expr)) :
    outcome ParseError (option ExtractedDag) :=
  if negb (is_dag_callable func) then Ok None else
  dag ← match args with
        | first :: _ =>
          match constant_str first with
          | Some s => i ← make_dag_id s; Ok (set_dag_id i ExtractedDag_default)
          | None => Ok ExtractedDag_default
          end
        | [] => Ok ExtractedDag_default
        end;
  dag ← merge_dag_kwargs keywords dag;
  Ok (Some dag).

(** [None]: no match; otherwise the keywords of [@dag(...)], none for a bare
    [@dag]. *)
Definition match_dag_decorator (e : Expr) : option (option (list (option string * Expr))) :=
  match e with
  | Name _ id => if contains DAG_DECORATOR_NAMES id then Some None else None
  | Call _ (Name _ id) _ kws => if contains DAG_DECORATOR_NAMES id then Some (Some kws) else None
  | Call _ (Attribute _ _ attr) _ kws => if contains DAG_DECORATOR_NAMES attr then Some (Some kws) else None
  | _ => None
  end.

Fixpoint inner_name (e : Expr) (depth : nat) : option string :=
  if too_deep depth then None else
  match e with
  | Name _ id => Some id
  | Attribute _ _ attr => Some attr
  | Call _ f _ _ => inner_name f (S depth)
  | _ => None
  end.

Definition is_task_decorator (e : Expr) : bool :=
  match inner_name e 0 with
  | Some n => contains ["task"; "task_group"; "setup"; "teardown"; "sensor"; "short_circuit"] n
  | None => false
  end.

Fixpoint call_task_id (keywords : list (option string * Expr)) : option string :=
  match keywords with
  | [] => None
  | (Some arg, value) :: keywords =>
    match (if String.eqb arg "task_id" then constant_str value else None) with
    | Some s => Some s
    | None => call_task_id keywords
    end
  | (None, _) :: keywords => call_task_id keywords
  end.

Definition single_target_name (targets : list Expr) : option string :=
  match targets with [Name _ id] => Some id | _ => None end.

Definition push_unique_edge (into : list (TaskId * TaskId)) (edge : TaskId * TaskId) : list (TaskId * TaskId) :=
  if existsb (fun e => bool_decide (task_str (fst e) = task_str (fst edge)) &&
                       bool_decide (task_str (snd e) = task_str (snd edge))) into
  then into else (into ++ [edge])%list.

(** ** The walk *)

Record Walker : Type := mkWalker { dags : list ExtractedDag; task_aliases : list (string * TaskId) }.

#[local] Abbreviation walk := (stm Walker ParseError).

Definition push_dag (d : ExtractedDag) : walk unit :=
  st_modify (fun w => mkWalker (dags w ++ [d])%list (task_aliases w)).

Definition push_alias (name : string) (t : TaskId) : walk unit :=
  st_modify (fun w => mkWalker (dags w) (task_aliases w ++ [(name, t)])%list).

(** [self.task_aliases.truncate(n)]. *)
Definition truncate_aliases (n : nat) : walk unit :=
  st_modify (fun w => mkWalker (dags w) (take n (task_aliases w))).

(** An update of [self.dags[idx]], which panics out of range. *)
Definition update_dag (idx : nat) (f : ExtractedDag -> ExtractedDag) : walk unit := fun w =>
  match dags w !! idx with
  | Some d => (mkWalker (<[idx := f d]> (dags w)) (task_aliases w), Ok tt)
  | None => (w, Panic)
  end.

Definition add_task (idx : nat) (t : TaskId) : walk unit :=
  update_dag idx (fun d => set_tasks (push_unique_task (task_ids d) t) d).

Definition add_edge (idx : nat) (e : TaskId * TaskId) : walk unit :=
  update_dag idx (fun d => set_edges (push_unique_edge (deps_edges d) e) d).

(** [self.task_aliases.iter().rev().find(..)]. *)
Definition find_alias (aliases : list (string * TaskId)) (id : string) : option TaskId :=
  snd <$> find (fun a => String.eqb (fst a) id) (reverse aliases).

Fixpoint resolve_to_task_id (aliases : list (string * TaskId)) (e : Expr) (depth : nat) : option TaskId :=
  if too_deep depth then None else
  match e with
  | Name _ id => find_alias aliases id
  | Call _ f _ _ => resolve_to_task_id aliases f (S depth)
  | Attribute _ v _ => resolve_to_task_id aliases v (S depth)
  | _ => None
  end.

Definition is_shift (op : Operator) : bool := match op with RShift | LShift => true | OtherOperator => false end.

Definition option_list {A} (o : option A) : list A := match o with Some a => [a] | None => [] end.

Fixpoint terminal_task_ids (aliases : list (string * TaskId)) (e : Expr) (depth : nat) : list TaskId :=
  if too_deep depth then [] else
  match e with
  | BinOp _ _ op rhs =>
    if is_shift op then terminal_task_ids aliases rhs (S depth)
    else option_list (resolve_to_task_id aliases e (S depth))
  | ListExpr _ elts | TupleExpr _ elts => omap (fun elt => resolve_to_task_id aliases elt (S depth)) elts
  | other => option_list (resolve_to_task_id aliases other (S depth))
  end.

(** Both loops over the terms of one operator. *)
Definition cross_edges (op : Operator) (ls rs : list TaskId) : list (TaskId * TaskId) :=
  l ← ls; (fun r => match op with RShift => (l, r) | _ => (r, l) end) <$> rs.

Fixpoint collect_shift_edges (left : Expr) (op : Operator) (right : Expr) (dag_idx depth : nat) : walk unit :=
  if too_deep depth then mret tt else
  w ← st_get;
  let left_terms := terminal_task_ids (task_aliases w) left depth in
  let right_terms := terminal_task_ids (task_aliases w) right depth in
  st_for (add_edge dag_idx) (cross_edges op left_terms right_terms) ;;
  match left with
  | BinOp _ l2 op2 r2 => if is_shift op2 then collect_shift_edges l2 op2 r2 dag_idx (S depth) else mret tt
  | _ => mret tt
  end.

(** The loop over the arguments of [set_upstream] or [set_downstream]. *)
Definition setter_edges (idx : nat) (downstream : bool) (lhs : option TaskId) (args : list Expr) : walk unit :=
  st_for (fun arg =>
    w ← st_get;
    match lhs, resolve_to_task_id (task_aliases w) arg 0 with
    | Some l, Some r => add_edge idx (if downstream then (l, r) else (r, l))
    | _, _ => mret tt
    end) args.

(** The last branch of [visit_expr_stmt]. *)
Definition visit_setter (e : Expr) (idx : nat) : walk unit :=
  match e with
  | Call _ (Attribute _ value attr) args _ =>
    if contains SETTER_METHODS attr then
      w ← st_get;
      setter_edges idx (String.eqb attr "set_downstream") (resolve_to_task_id (task_aliases w) value 0) args
    else mret tt
  | _ => mret tt
  end.

Definition visit_expr_stmt (e : Expr) (dag_idx : option nat) : walk unit :=
  match dag_idx with
  | None => mret tt
  | Some idx =>
    match (match e with Call _ _ _ kws => call_task_id kws | _ => None end) with
    | Some task_id_str => t ← st_lift (make_task_id task_id_str); add_task idx t
    | None =>
      match e with
      | BinOp _ lhs op rhs =>
        if is_shift op then collect_shift_edges lhs op rhs idx 0 else visit_setter e idx
      | _ => visit_setter e idx
      end
    end
  end.

Definition visit_assign (targets : list Expr) (value : Expr) (dag_idx : option nat) : walk unit :=
  match value with
  | Call _ func args kws =>
    od ← st_lift (parse_dag_call func args kws);
    match od with
    | Some dag => push_dag dag
    | None =>
      match call_task_id kws, single_target_name targets, dag_idx with
      | Some task_id_str, Some name, Some idx =>
        t ← st_lift (make_task_id task_id_str);
        add_task idx t ;;
        push_alias name t
      | _, _, _ => mret tt
      end
    end
  | _ => mret tt
  end.

Section Walk.
Context (line_index : LineIndex).

(** The loop of [visit_with] over the items, with the DAG the body belongs to. *)
Fixpoint with_items (items : list Expr) (range : TextRange) (idx : option nat) : walk (option nat) :=
  match items with
  | [] => mret idx
  | item :: items =>
    match item with
    | Call _ func args kws =>
      od ← st_lift (parse_dag_call func args kws);
      match od with
      | Some dag =>
        sp ← st_lift (span_of line_index range);
        push_dag (set_span sp dag) ;;
        w ← st_get;
        with_items items range (Some (length (dags w) - 1)%nat)
      | None => with_items items range idx
      end
    | _ => with_items items range idx
    end
  end.

(** [visit_body] is the walk of the statements of the body. *)
Definition visit_with (items : list Expr) (range : TextRange) (outer_dag : option nat)
    (visit_body : option nat -> walk unit) : walk unit :=
  new_dag_idx ← with_items items range outer_dag;
  w ← st_get;
  visit_body new_dag_idx ;;
  truncate_aliases (length (task_aliases w)).

Definition find_dag_decorator (decorators : list Expr) : option (option (list (option string * Expr))) :=
  head (omap match_dag_decorator decorators).

Definition visit_function (name : string) (decorators : list Expr) (range : TextRange) (outer_dag : option nat)
    (visit_body : option nat -> walk unit) : walk unit :=
  match find_dag_decorator decorators with
  | Some call_kwargs =>
    i ← st_lift (make_dag_id name);
    sp ← st_lift (span_of line_index range);
    let dag := mkExtractedDag (Some i) [] None false [] (Some sp) in
    dag ← st_lift (match call_kwargs with Some kws => merge_dag_kwargs kws dag | None => Ok dag end);
    push_dag dag ;;
    w ← st_get;
    visit_body (Some (length (dags w) - 1)%nat) ;;
    truncate_aliases (length (task_aliases w))
  | None =>
    match (if existsb is_task_decorator decorators then outer_dag else None) with
    | Some idx =>
      t ← st_lift (make_task_id name);
      add_task idx t ;;
      push_alias name t
    | None => mret tt
    end ;;
    visit_body outer_dag
  end.

Fixpoint visit_stmt (stmt : Stmt) (dag_idx : option nat) {struct stmt} : walk unit :=
  match stmt with
  | With items body range => visit_with items range dag_idx (fun i => st_for (fun s => visit_stmt s i) body)
  | FunctionDef name decs body range =>
    visit_function name decs range dag_idx (fun i => st_for (fun s => visit_stmt s i) body)
  | Assign targets value => visit_assign targets value dag_idx
  | AnnAssign target (Some value) => visit_assign [target] value dag_idx
  | ExprStmt value => visit_expr_stmt value dag_idx
  | ClassDef body | If _ body _ | For _ body | While _ body | Try body => st_for (fun s => visit_stmt s dag_idx) body
  | AnnAssign _ None | OtherStmt => mret tt
  end.

Definition visit_stmts (stmts : list Stmt) (dag_idx : option nat) : walk unit :=
  st_for (fun s => visit_stmt s dag_idx) stmts.

End Walk.

Section Extract.
Context `{PyParser}.

Definition extract_all_inner (source : string) : outcome ParseError (list ExtractedDag) :=
  body ← parse_module_safely source;
  match visit_stmts (LineIndex_new source) body None (mkWalker [] []) with
  | (w, Ok _) => Ok (dags w)
  | (_, Err e) => Err e
  | (_, Panic) => Panic
  end.

Definition extract_all (spawn : option string) (payload : Payload) (source : string) :
    outcome ParseError (list ExtractedDag) :=
  shield_parser_panic spawn payload source (extract_all_inner source).

Definition extract (spawn : option string) (payload : Payload) (source : string) : outcome ParseError ExtractedDag :=
  ds ← extract_all spawn payload source; Ok (default ExtractedDag_default (head ds)).

End Extract.

(** ** Well-formed results *)

Definition span_ok (src : string) (sp : SourceSpan) : Prop :=
  (1 <= start_line sp <= end_line sp)%Z /\ (end_line sp <= line_count src)%Z.

Record dag_ok (src : string) (d : ExtractedDag) : Prop := {
  ok_dag_id : forall i, dag_id d = Some i -> safe_identifier (dag_str i);
  ok_tasks : Forall (fun t => safe_identifier (task_str t)) (task_ids d);
  ok_tasks_unique : NoDup (task_ids d);
  ok_edges_unique : NoDup (deps_edges d);
  ok_span : forall sp, source_span d = Some sp -> span_ok src sp
}.

Definition tasks_of (ds : list ExtractedDag) : list TaskId := ds ≫= task_ids.

(** Every edge joins two tasks that were found in the file. *)
Definition edges_ok (ds : list ExtractedDag) : Prop :=
  forall d e, d ∈ ds -> e ∈ deps_edges d -> fst e ∈ tasks_of ds /\ snd e ∈ tasks_of ds.

Record walker_ok (src : string) (w : Walker) : Prop := {
  wok_dags : Forall (dag_ok src) (dags w);
  wok_edges : edges_ok (dags w);
  wok_aliases : forall n t, (n, t) ∈ task_aliases w -> t ∈ tasks_of (dags w)
}.

(** With a lower bound on the number of DAGs and a set of tasks already found. *)
Definition inv (src : string) (n : nat) (T : list TaskId) (w : Walker) : Prop :=
  walker_ok src w /\ n <= length (dags w) /\ T ⊆ tasks_of (dags w).

(** A DAG as the constructors leave it. *)
Record fresh_dag (src : string) (d : ExtractedDag) : Prop := {
  fresh_id : forall i, dag_id d = Some i -> safe_identifier (dag_str i);
  fresh_tasks : task_ids d = [];
  fresh_edges : deps_edges d = [];
  fresh_span : forall sp, source_span d = Some sp -> span_ok src sp
}.

Lemma fresh_dag_ok src d : fresh_dag src d -> dag_ok src d.
Proof. intros [Hi Ht He Hs]. split; rewrite ?Ht, ?He; [exact Hi|apply Forall_nil_2|apply NoDup_nil_2|apply NoDup_nil_2|exact Hs]. Qed.

Lemma fresh_default src : fresh_dag src ExtractedDag_default.
Proof. split; [discriminate|reflexivity|reflexivity|discriminate]. Qed.

Lemma fresh_set_id src d i : fresh_dag src d -> safe_identifier (dag_str i) -> fresh_dag src (set_dag_id i d).
Proof. intros [Hi Ht He Hs] Hsafe. split; cbn; [intros j [= <-]; exact Hsafe|assumption..]. Qed.

Lemma fresh_set_span src d sp : fresh_dag src d -> span_ok src sp -> fresh_dag src (set_span sp d).
Proof. intros [Hi Ht He Hs] Hsafe. split; cbn; [assumption..|intros j [= <-]; exact Hsafe]. Qed.

Lemma merge_dag_kwargs_fresh src kws d :
  fresh_dag src d -> merge_dag_kwargs kws d <> Panic /\ forall d', merge_dag_kwargs kws d = Ok d' -> fresh_dag src d'.
Proof.
  revert d. induction kws as [|[arg v] kws IH]; intros d Hd; cbn [merge_dag_kwargs].
  { split; [discriminate|]. intros d' [= <-]. exact Hd. }
  destruct (dag_keyword arg); [|apply IH; destruct Hd; split; assumption..].
  destruct (constant_str v) as [s|]; [|apply IH, Hd].
  pose proof (make_dag_id_total s). destruct (make_dag_id s) as [i|e|] eqn:E; [|split; discriminate|contradiction].
  apply IH, fresh_set_id; [exact Hd|]. apply make_dag_id_inv in E as [-> Hs]. exact Hs.
Qed.

Lemma parse_dag_call_fresh src f args kws :
  parse_dag_call f args kws <> Panic /\ forall d, parse_dag_call f args kws = Ok (Some d) -> fresh_dag src d.
Proof.
  unfold parse_dag_call. destruct (is_dag_callable f); [|split; discriminate]. cbn [negb].
  assert (Hk : forall d, fresh_dag src d ->
    (dag ← merge_dag_kwargs kws d; Ok (Some dag)) <> Panic (E := ParseError) /\
    forall d', (dag ← merge_dag_kwargs kws d; Ok (Some dag)) = Ok (E := ParseError) (Some d') -> fresh_dag src d').
  { intros d Hd. destruct (merge_dag_kwargs_fresh src kws d Hd) as [Ht Hf].
    destruct (merge_dag_kwargs kws d) as [d'|e|]; cbn; [|split; discriminate|contradiction].
    split; [discriminate|]. intros d2 [= <-]. apply Hf. reflexivity. }
  destruct args as [|first args]; [apply Hk, fresh_default|].
  destruct (constant_str first) as [s|]; [|apply Hk, fresh_default].
  pose proof (make_dag_id_total s). destruct (make_dag_id s) as [i|e|] eqn:E; [|split; discriminate|contradiction].
  apply Hk, fresh_set_id; [apply fresh_default|]. apply make_dag_id_inv in E as [-> Hs]. exact Hs.
Qed.

(** ** Tasks and aliases *)

Lemma elem_of_tasks_of t ds : t ∈ tasks_of ds <-> exists d, d ∈ ds /\ t ∈ task_ids d.
Proof. unfold tasks_of. rewrite list_elem_of_bind. split; intros (d & H1 & H2); exists d; split; assumption. Qed.

Lemma find_alias_in al id t : find_alias al id = Some t -> exists n, (n, t) ∈ al.
Proof.
  unfold find_alias. destruct (find _ _) as [[n u]|] eqn:E; [|discriminate]. intros [= <-]. exists n.
  apply List.find_some in E as [Hin _]. apply list_elem_of_In in Hin. rewrite elem_of_reverse in Hin. exact Hin.
Qed.

Lemma resolve_in al e depth t : resolve_to_task_id al e depth = Some t -> exists n, (n, t) ∈ al.
Proof.
  revert depth. induction e using Expr_ind; intros depth; cbn; destruct (too_deep depth); try discriminate; eauto using find_alias_in.
Qed.

Lemma terminal_in al e depth t : t ∈ terminal_task_ids al e depth -> exists n, (n, t) ∈ al.
Proof.
  assert (Hopt : forall e k, t ∈ option_list (resolve_to_task_id al e k) -> exists n, (n, t) ∈ al).
  { intros e' k. destruct (resolve_to_task_id al e' k) as [u|] eqn:E; cbn; [|intros H; inversion H].
    intros ->%list_elem_of_singleton. exact (resolve_in _ _ _ _ E). }
  assert (Hlist : forall (l : list Expr) k, t ∈ omap (M := list) (fun x => resolve_to_task_id al x k) l -> exists n, (n, t) ∈ al).
  { intros l k (x & _ & Hx)%list_elem_of_omap. exact (resolve_in _ _ _ _ Hx). }
  revert depth. induction e using Expr_ind; intros depth; cbn [terminal_task_ids]; destruct (too_deep depth);
    try (intros Hnil; inversion Hnil; fail); try case_match; eauto.
Qed.

Lemma cross_edges_in op ls rs e :
  e ∈ cross_edges op ls rs -> (fst e ∈ ls /\ snd e ∈ rs) \/ (fst e ∈ rs /\ snd e ∈ ls).
Proof.
  intros (l & (r & -> & Hr)%list_elem_of_fmap & Hl)%list_elem_of_bind. destruct op; cbn; auto.
Qed.

Lemma push_unique_edge_spec into e :
  push_unique_edge into e = if decide (e ∈ into) then into else (into ++ [e])%list.
Proof.
  unfold push_unique_edge. destruct (existsb _ into) eqn:E.
  - apply List.existsb_exists in E as ([[a] [b]] & Hin & He). apply andb_true_iff in He as [Ha Hb].
    apply bool_decide_eq_true in Ha, Hb. destruct e as [[c] [d]]. cbn in Ha, Hb. subst.
    rewrite decide_True; [reflexivity|]. apply list_elem_of_In, Hin.
  - rewrite decide_False; [reflexivity|]. intros Hin. apply list_elem_of_In in Hin. apply not_true_iff_false in E.
    apply E, List.existsb_exists. exists e. split; [exact Hin|]. rewrite !bool_decide_true by reflexivity. reflexivity.
Qed.

Lemma elem_of_push {A} `{EqDecision A} (into : list A) x y :
  y ∈ (if decide (x ∈ into) then into else (into ++ [x])%list) <-> y ∈ into \/ y = x.
Proof.
  destruct (decide (x ∈ into)); [split; [auto|intros [?| ->]; assumption]|].
  rewrite elem_of_app, list_elem_of_singleton. reflexivity.
Qed.

Lemma elem_of_push_edge into e x : x ∈ push_unique_edge into e <-> x ∈ into \/ x = e.
Proof. rewrite push_unique_edge_spec. apply elem_of_push. Qed.

Lemma elem_of_push_task into t x : x ∈ push_unique_task into t <-> x ∈ into \/ x = t.
Proof. rewrite push_unique_task_spec. apply elem_of_push. Qed.

Lemma NoDup_push {A} `{EqDecision A} (into : list A) x :
  NoDup into -> NoDup (if decide (x ∈ into) then into else (into ++ [x])%list).
Proof.
  intros Hn. destruct (decide (x ∈ into)); [exact Hn|]. apply NoDup_app. split_and!; [exact Hn| |apply NoDup_singleton].
  intros y Hy ->%list_elem_of_singleton. contradiction.
Qed.

(** ** Every part of the walk keeps the invariant *)

Section Invariant.
Context (src : string).

Abbreviation keeps n T m := (st_triple (E := ParseError) (inv src n T) m (fun _ => inv src n T) (fun _ => True)) (only parsing).

Lemma tasks_of_app a b : tasks_of (a ++ b)%list = (tasks_of a ++ tasks_of b)%list.
Proof. apply bind_app. Qed.

Lemma inv_weaken n T m U w : inv src n T w -> m <= n -> U ⊆ T -> inv src m U w.
Proof. intros (Hw & Hn & HT) Hm HU. split_and!; [exact Hw|lia|set_solver]. Qed.

(** Changing one DAG: its tasks may only grow, its edges must join known tasks. *)
Lemma triple_update n T T' idx f :
  idx < n -> T ⊆ T' ->
  (forall d, dag_ok src d -> dag_ok src (f d)) ->
  (forall d, task_ids d ⊆ task_ids (f d)) ->
  (forall d t, t ∈ T' -> t ∈ T \/ t ∈ task_ids (f d)) ->
  (forall d e, e ∈ deps_edges (f d) -> e ∈ deps_edges d \/ (fst e ∈ T /\ snd e ∈ T)) ->
  st_triple (inv src n T) (update_dag idx f) (fun _ => inv src n T') (fun _ => True).
Proof.
  intros Hidx HT Hok Htasks Hnew Hedges w ([Hd He Ha] & Hn & HTw). unfold update_dag.
  destruct (lookup_lt_is_Some_2 (dags w) idx) as [d Hlk]; [lia|]. rewrite Hlk.
  assert (Hgrow : tasks_of (dags w) ⊆ tasks_of (<[idx := f d]> (dags w))).
  { intros t (d0 & Hin & Ht)%elem_of_tasks_of. apply elem_of_tasks_of. apply list_elem_of_lookup in Hin as [i Hi].
    destruct (decide (i = idx)) as [->|Hne].
    - exists (f d). split; [|apply Htasks; congruence]. apply (list_elem_of_lookup_2 _ idx), list_lookup_insert_eq. lia.
    - exists d0. split; [|exact Ht]. apply (list_elem_of_lookup_2 _ i). rewrite list_lookup_insert_ne by congruence. exact Hi. }
  split_and!; cbn; [split; cbn| |].
  - apply Forall_insert; [exact Hd|]. apply Hok. rewrite Forall_forall in Hd. apply Hd, (list_elem_of_lookup_2 _ idx), Hlk.
  - intros d0 e [i Hi]%list_elem_of_lookup Hin. apply list_lookup_insert_Some in Hi as [(-> & <- & _)|[_ Hi]].
    + apply Hedges in Hin as [Hin|[H1 H2]]; [|split; apply Hgrow, HTw; assumption].
      destruct (He d e (list_elem_of_lookup_2 _ _ _ Hlk) Hin). auto.
    + destruct (He d0 e (list_elem_of_lookup_2 _ _ _ Hi) Hin). auto.
  - intros m t Hm. apply Hgrow, (Ha m t Hm).
  - rewrite length_insert. exact Hn.
  - intros t Ht. apply (Hnew d) in Ht as [Ht|Ht]; [apply Hgrow, HTw, Ht|]. apply elem_of_tasks_of. exists (f d).
    split; [|exact Ht]. apply (list_elem_of_lookup_2 _ idx), list_lookup_insert_eq. lia.
Qed.

Lemma add_task_keeps n T idx t :
  idx < n -> safe_identifier (task_str t) ->
  st_triple (inv src n T) (add_task idx t) (fun _ => inv src n (t :: T)) (fun _ => True).
Proof.
  intros Hidx Hsafe. apply triple_update; [exact Hidx|set_solver|..].
  - intros d [Hi Ht Hu Hue Hs]. split; cbn; try assumption.
    + apply Forall_forall. intros x [Hx| ->]%elem_of_push_task; [|exact Hsafe]. rewrite Forall_forall in Ht. auto.
    + rewrite push_unique_task_spec. apply NoDup_push, Hu.
  - intros d x Hx. cbn. apply elem_of_push_task. auto.
  - intros d x [->|Hx]%elem_of_cons; [right; cbn; apply elem_of_push_task; auto|auto].
  - intros d e He. left. exact He.
Qed.

Lemma add_edge_keeps n T idx e :
  idx < n -> fst e ∈ T -> snd e ∈ T -> keeps n T (add_edge idx e).
Proof.
  intros Hidx H1 H2. apply triple_update; [exact Hidx|set_solver|..].
  - intros d [Hi Ht Hu Hue Hs]. split; cbn; try assumption. rewrite push_unique_edge_spec. apply NoDup_push, Hue.
  - intros d x Hx. exact Hx.
  - intros d x Hx. left. exact Hx.
  - intros d x [Hx| ->]%elem_of_push_edge; auto.
Qed.

Lemma push_dag_keeps n T d : fresh_dag src d -> keeps n T (push_dag d).
Proof.
  intros Hf. apply triple_modify. intros w ([Hd He Ha] & Hn & HT). pose proof (fresh_dag_ok _ _ Hf) as Hok.
  assert (Hg : tasks_of (dags w ++ [d]) = tasks_of (dags w)).
  { rewrite tasks_of_app. cbn. rewrite (fresh_tasks _ _ Hf). apply app_nil_r. }
  split_and!; [split|..]; cbn [dags task_aliases]; rewrite ?Hg; [|..|rewrite length_app; lia|exact HT].
  - apply Forall_app_2; [exact Hd|]. apply Forall_singleton, Hok.
  - intros d0 e [Hin| ->%list_elem_of_singleton]%elem_of_app Hin'; rewrite Hg; [exact (He _ _ Hin Hin')|].
    rewrite (fresh_edges _ _ Hf) in Hin'. inversion Hin'.
  - exact Ha.
Qed.

Lemma push_alias_keeps n T name t : t ∈ T -> keeps n T (push_alias name t).
Proof.
  intros Ht. apply triple_modify. intros w ([Hd He Ha] & Hn & HT). split_and!; [split|..]; cbn; try assumption.
  intros m x [Hin|[= -> ->]%list_elem_of_singleton]%elem_of_app; [exact (Ha _ _ Hin)|apply HT, Ht].
Qed.

Lemma truncate_keeps n T k : keeps n T (truncate_aliases k).
Proof.
  apply triple_modify. intros w ([Hd He Ha] & Hn & HT). split_and!; [split|..]; cbn; try assumption.
  intros m x Hin. apply (Ha m). apply (subseteq_take k), Hin.
Qed.

(** Code that reads the state: the aliases and the DAGs it sees stay known. *)
Definition alias_tasks (w : Walker) : list TaskId := snd <$> task_aliases w.

Lemma get_keeps n T (R : Walker -> Prop) (k : Walker -> stm Walker ParseError unit) :
  (forall w, R w -> keeps (length (dags w)) (alias_tasks w ++ T)%list (k w)) ->
  st_triple (fun w => inv src n T w /\ R w) (w ← st_get; k w) (fun _ => inv src n T) (fun _ => True).
Proof.
  intros Hk w [Hw HR]. assert (Hw' : inv src (length (dags w)) (alias_tasks w ++ T) w).
  { destruct Hw as (Hok & Hn & HT). split_and!; [exact Hok|lia|]. intros t [Ht|Ht]%elem_of_app; [|apply HT, Ht].
    apply list_elem_of_fmap in Ht as ([m x] & -> & Hin). exact (wok_aliases _ _ Hok m x Hin). }
  specialize (Hk w HR w Hw'). unfold mbind, stm_bind, st_get. destruct (k w w) as [w' [[]|e|]]; [|exact I|exact Hk].
  destruct Hw as (_ & Hn & _). apply (inv_weaken _ _ _ _ _ Hk); [exact Hn|]. intros t Ht. apply elem_of_app. auto.
Qed.

Lemma get_keeps' n T (k : Walker -> stm Walker ParseError unit) :
  (forall w, keeps (length (dags w)) (alias_tasks w ++ T)%list (k w)) -> keeps n T (w ← st_get; k w).
Proof.
  intros Hk. eapply triple_weaken; [apply (get_keeps n T (fun _ => True) k); auto|intros w Hw; exact (conj Hw I)|auto|auto].
Qed.

Lemma in_alias_tasks w n t : (n, t) ∈ task_aliases w -> t ∈ alias_tasks w.
Proof. intros Hin. apply (list_elem_of_fmap_2' snd _ (n, t)); auto. Qed.

(** A fallible call whose result satisfies [P]. *)
Lemma lift_keeps {A} n T (o : outcome ParseError A) (P : A -> Prop) (k : A -> stm Walker ParseError unit) :
  o <> Panic -> (forall a, o = Ok a -> P a) -> (forall a, P a -> keeps n T (k a)) -> keeps n T (a ← st_lift o; k a).
Proof.
  intros Ho HP Hk. eapply triple_bind; [apply triple_lift; auto|]. intros a w [Ha Hw]. exact (Hk a (HP a Ha) w Hw).
Qed.

Lemma make_task_keeps n T s (k : TaskId -> stm Walker ParseError unit) :
  (forall t, safe_identifier (task_str t) -> keeps n T (k t)) -> keeps n T (t ← st_lift (make_task_id s); k t).
Proof.
  apply lift_keeps; [apply make_task_id_total|]. intros t Ht. apply make_task_id_inv in Ht as [-> Hs]. exact Hs.
Qed.

Lemma seq_keeps n T (m k : stm Walker ParseError unit) : keeps n T m -> keeps n T k -> keeps n T (m ;; k).
Proof. intros Hm Hk. eapply triple_bind; [exact Hm|]. intros []. exact Hk. Qed.

Lemma ret_keeps n T : keeps n T (mret tt).
Proof. apply triple_ret. Qed.

Lemma cross_keeps n T idx op ls rs :
  idx < n -> ls ⊆ T -> rs ⊆ T -> keeps n T (st_for (add_edge idx) (cross_edges op ls rs)).
Proof.
  intros Hidx Hl Hr. apply triple_for, Forall_forall. intros e He.
  apply cross_edges_in in He as [[H1 H2]|[H1 H2]]; apply add_edge_keeps; auto.
Qed.

Lemma terminal_subset w e depth T : terminal_task_ids (task_aliases w) e depth ⊆ (alias_tasks w ++ T)%list.
Proof. intros t [n Hn]%terminal_in. apply elem_of_app. left. eapply in_alias_tasks, Hn. Qed.

(** The rest of a chain, to the left of its last operator. *)
Definition spine_next (left : Expr) (idx depth : nat) : stm Walker ParseError unit :=
  match left with
  | BinOp _ l2 op2 r2 => if is_shift op2 then collect_shift_edges l2 op2 r2 idx (S depth) else mret tt
  | _ => mret tt
  end.

Lemma collect_step left op right n T idx depth :
  idx < n -> (forall n T, idx < n -> keeps n T (spine_next left idx depth)) ->
  keeps n T (collect_shift_edges left op right idx depth).
Proof.
  intros Hidx Hnext. assert (E : collect_shift_edges left op right idx depth =
    if too_deep depth then mret tt else
    w ← st_get;
    st_for (add_edge idx) (cross_edges op (terminal_task_ids (task_aliases w) left depth) (terminal_task_ids (task_aliases w) right depth)) ;;
    spine_next left idx depth) by (destruct left; reflexivity).
  rewrite E. destruct (too_deep depth); [apply ret_keeps|].
  eapply triple_weaken; [apply (get_keeps n T (fun w => n <= length (dags w)))|intros w Hw; exact (conj Hw (proj1 (proj2 Hw)))|auto|auto].
  intros w Hn. apply seq_keeps; [apply cross_keeps; [lia|apply terminal_subset|apply terminal_subset]|apply Hnext; lia].
Qed.

Lemma collect_keeps left op right n T idx depth :
  idx < n -> keeps n T (collect_shift_edges left op right idx depth).
Proof.
  revert op right n T depth. induction left using Expr_ind; intros op' rhs n T depth Hidx;
    (apply collect_step; [exact Hidx|intros m U Hm; cbn [spine_next]; try apply ret_keeps]).
  destruct (is_shift op); [apply IHleft1, Hm|apply ret_keeps].
Qed.

Lemma resolve_known w e depth t T :
  resolve_to_task_id (task_aliases w) e depth = Some t -> t ∈ (alias_tasks w ++ T)%list.
Proof. intros [m Hm]%resolve_in. apply elem_of_app. left. eapply in_alias_tasks, Hm. Qed.

(** Reading the state where an index into the DAGs is known to be valid. *)
Lemma get_idx_keeps n T idx (k : Walker -> stm Walker ParseError unit) :
  idx < n -> (forall w, idx < length (dags w) -> keeps (length (dags w)) (alias_tasks w ++ T)%list (k w)) ->
  keeps n T (w ← st_get; k w).
Proof.
  intros Hidx Hk.
  eapply triple_weaken; [apply (get_keeps n T (fun w => n <= length (dags w)))|intros w Hw; exact (conj Hw (proj1 (proj2 Hw)))|auto|auto].
  intros w Hn. apply Hk. lia.
Qed.

Lemma setter_keeps n T idx downstream lhs args :
  idx < n -> (forall l, lhs = Some l -> l ∈ T) -> keeps n T (setter_edges idx downstream lhs args).
Proof.
  intros Hidx Hl. apply triple_for, Forall_true. intros arg. apply (get_idx_keeps n T idx); [exact Hidx|].
  intros w Hw. destruct lhs as [l|]; [|apply ret_keeps]. specialize (Hl l eq_refl).
  destruct (resolve_to_task_id _ arg 0) as [r|] eqn:E; [|apply ret_keeps]. apply (resolve_known _ _ _ _ T) in E.
  assert (l ∈ (alias_tasks w ++ T)%list) by (apply elem_of_app; auto). destruct downstream; apply add_edge_keeps; auto.
Qed.

Lemma visit_setter_keeps n T idx e : idx < n -> keeps n T (visit_setter e idx).
Proof.
  intros Hidx. unfold visit_setter. destruct e as [r [] args kws| | | | | | | | | | | | |]; try apply ret_keeps.
  case_match; [|apply ret_keeps]. apply (get_idx_keeps n T idx); [exact Hidx|]. intros w Hw.
  apply setter_keeps; [exact Hw|]. intros l Hl. eapply resolve_known, Hl.
Qed.

Definition idx_lt (idx : option nat) (n : nat) : Prop := match idx with Some i => i < n | None => True end.

Lemma add_task_seq n T idx t (k : stm Walker ParseError unit) :
  idx < n -> safe_identifier (task_str t) -> keeps n (t :: T) k -> keeps n T (add_task idx t ;; k).
Proof.
  intros Hidx Hs Hk. eapply triple_bind; [apply (add_task_keeps n T idx t Hidx Hs)|]. intros [].
  eapply triple_weaken; [exact Hk|auto| |auto]. cbv beta. intros _ w Hw. apply (inv_weaken _ _ _ _ _ Hw); [lia|].
  intros x Hx. right. exact Hx.
Qed.

Lemma add_task_keeps' n T idx t : idx < n -> safe_identifier (task_str t) -> keeps n T (add_task idx t).
Proof.
  intros Hidx Hs. eapply triple_weaken; [apply (add_task_keeps n T idx t Hidx Hs)|auto| |auto]. cbv beta.
  intros _ w Hw. apply (inv_weaken _ _ _ _ _ Hw); [lia|]. intros x Hx. right. exact Hx.
Qed.

Lemma visit_expr_stmt_keeps n T e idx : idx_lt idx n -> keeps n T (visit_expr_stmt e idx).
Proof.
  intros Hidx. destruct idx as [i|]; [|apply ret_keeps]. cbn in *. unfold visit_expr_stmt.
  destruct (match e with Call _ _ _ kws => call_task_id kws | _ => None end) as [s|].
  - apply make_task_keeps. intros t Ht. apply add_task_keeps'; assumption.
  - destruct e; try (apply visit_setter_keeps, Hidx). case_match; [apply collect_keeps, Hidx|apply visit_setter_keeps, Hidx].
Qed.

Lemma parse_dag_keeps n T f args kws (k : option ExtractedDag -> stm Walker ParseError unit) :
  (forall d, fresh_dag src d -> keeps n T (k (Some d))) -> keeps n T (k None) ->
  keeps n T (od ← st_lift (parse_dag_call f args kws); k od).
Proof.
  intros Hs Hn. destruct (parse_dag_call_fresh src f args kws) as [Ht Hf].
  apply (lift_keeps n T _ (fun od => forall d, od = Some d -> fresh_dag src d)); [exact Ht|intros od E d ->; exact (Hf d E)|].
  intros [d|] Hd; [apply Hs, Hd; reflexivity|exact Hn].
Qed.

Lemma visit_assign_keeps n T targets v idx : idx_lt idx n -> keeps n T (visit_assign targets v idx).
Proof.
  intros Hidx. unfold visit_assign. destruct v; try apply ret_keeps. apply parse_dag_keeps; [apply push_dag_keeps|].
  destruct (call_task_id keywords), (single_target_name targets), idx as [i|]; try apply ret_keeps.
  apply make_task_keeps. intros t Ht. apply add_task_seq; [exact Hidx|exact Ht|].
  apply push_alias_keeps. left.
Qed.

Hypothesis short : (str_len src < U32_MAX)%Z.

(** The span of a construct is within the source's lines. *)
Lemma span_result {E} r : exists sp, span_of (E := E) (LineIndex_new src) r = Ok sp /\ span_ok src sp.
Proof. destruct (span_of_ok (E := E) src r short) as (a & b & E1 & Hab & Hb). eexists. split; [exact E1|]. split; assumption. Qed.

(** A state that keeps the invariant, with a valid index. *)
Definition inv_idx (n : nat) (T : list TaskId) (idx : option nat) (w : Walker) : Prop :=
  inv src n T w /\ idx_lt idx (length (dags w)).

Lemma push_dag_run n T d w :
  fresh_dag src d -> inv src n T w ->
  exists w', push_dag d w = (w', Ok tt) /\ inv src n T w' /\ length (dags w') = S (length (dags w)).
Proof.
  intros Hf Hw. eexists. split; [reflexivity|]. split; [exact (push_dag_keeps n T d Hf w Hw)|].
  cbn. rewrite length_app. cbn. lia.
Qed.

Lemma with_items_keeps n T items r idx :
  st_triple (inv_idx n T idx) (with_items (LineIndex_new src) items r idx) (fun i => inv_idx n T i) (fun _ => True).
Proof.
  revert idx. induction items as [|item items IH]; intros idx w Hw; cbn [with_items]; [exact Hw|].
  destruct item as [cr f args kws| | | | | | | | | | | | |]; try exact (IH idx w Hw).
  destruct (parse_dag_call_fresh src f args kws) as [Ht Hf]. run_st.
  destruct (parse_dag_call f args kws) as [[d|]|e|] eqn:E; [|exact (IH idx w Hw)|exact I|contradiction].
  destruct (span_result (E := ParseError) r) as (sp & Esp & Hsp). rewrite Esp.
  destruct (push_dag_run n T (set_span sp d) w) as (w' & Ep & Hw' & Hlen);
    [apply fresh_set_span; [apply Hf; reflexivity|exact Hsp]|exact (proj1 Hw)|].
  rewrite Ep. apply IH. split; [exact Hw'|cbn; lia].
Qed.

Lemma truncate_after n T k (m : stm Walker ParseError unit) : keeps n T m -> keeps n T (m ;; truncate_aliases k).
Proof. intros Hm. apply seq_keeps; [exact Hm|apply truncate_keeps]. Qed.

(** A body that keeps the invariant from any valid index on. *)
Definition body_keeps (visit_body : option nat -> stm Walker ParseError unit) : Prop :=
  forall n T idx, idx_lt idx n -> keeps n T (visit_body idx).

Lemma visit_with_keeps n T items r idx visit_body :
  body_keeps visit_body -> idx_lt idx n -> keeps n T (visit_with (LineIndex_new src) items r idx visit_body).
Proof.
  intros Hb Hidx. unfold visit_with. eapply triple_bind.
  - eapply triple_weaken; [apply (with_items_keeps n T items r idx)|..]; [|intros i w H; exact H|auto].
    intros w Hw. split; [exact Hw|]. destruct Hw as (_ & Hn & _). destruct idx; cbn in *; lia || exact I.
  - intros i. apply (get_keeps n T (fun w => idx_lt i (length (dags w)))). intros w Hi. apply truncate_after, Hb, Hi.
Qed.

Lemma push_dag_body n T d visit_body :
  body_keeps visit_body -> fresh_dag src d ->
  keeps n T (push_dag d ;; w ← st_get; visit_body (Some (length (dags w) - 1)) ;; truncate_aliases (length (task_aliases w))).
Proof.
  intros Hb Hf. eapply triple_bind with (Q := fun _ w => inv src n T w /\ 0 < length (dags w)).
  - intros w Hw. destruct (push_dag_run n T d w Hf Hw) as (w' & -> & Hw' & Hlen). split; [exact Hw'|lia].
  - intros []. apply (get_keeps n T (fun w => 0 < length (dags w))). intros w Hw. apply truncate_after, Hb. cbn. lia.
Qed.

Lemma visit_function_keeps n T name decs r idx visit_body :
  body_keeps visit_body -> idx_lt idx n -> keeps n T (visit_function (LineIndex_new src) name decs r idx visit_body).
Proof.
  intros Hb Hidx. unfold visit_function. destruct (find_dag_decorator decs) as [kws|].
  - apply (lift_keeps n T _ (fun i => safe_identifier (dag_str i))); [apply make_dag_id_total|intros i [-> Hs]%make_dag_id_inv; exact Hs|].
    intros i Hi. destruct (span_result (E := ParseError) r) as (sp & -> & Hsp).
    apply (lift_keeps n T _ (span_ok src)); [discriminate|intros ? [= <-]; exact Hsp|]. intros sp' Hsp'.
    assert (Hfr : fresh_dag src (mkExtractedDag (Some i) [] None false [] (Some sp')))
      by (split; cbn; [intros j [= <-]; exact Hi|reflexivity|reflexivity|intros j [= <-]; exact Hsp']).
    apply (lift_keeps n T _ (fresh_dag src)); [| |intros d Hd; apply push_dag_body; assumption].
    + destruct kws; [apply (merge_dag_kwargs_fresh src), Hfr|discriminate].
    + destruct kws; [apply (merge_dag_kwargs_fresh src), Hfr|intros d [= <-]; exact Hfr].
  - apply seq_keeps; [|apply Hb, Hidx]. destruct (existsb is_task_decorator decs); [|apply ret_keeps].
    destruct idx as [i|]; [|apply ret_keeps]. apply make_task_keeps. intros t Ht.
    apply add_task_seq; [exact Hidx|exact Ht|]. apply push_alias_keeps. left.
Qed.

Lemma for_body_keeps body :
  Forall (fun s => body_keeps (visit_stmt (LineIndex_new src) s)) body ->
  body_keeps (fun i => st_for (fun s => visit_stmt (LineIndex_new src) s i) body).
Proof. intros Hb n T idx Hidx. apply triple_for. eapply Forall_impl; [exact Hb|]. cbv beta. intros s Hs. apply Hs, Hidx. Qed.

Lemma visit_stmt_keeps s : body_keeps (visit_stmt (LineIndex_new src) s).
Proof.
  induction s using Stmt_ind; intros n T idx Hidx; cbn [visit_stmt].
  - apply visit_with_keeps; [apply for_body_keeps; assumption|exact Hidx].
  - apply visit_function_keeps; [apply for_body_keeps; assumption|exact Hidx].
  - apply visit_assign_keeps, Hidx.
  - destruct value; [apply visit_assign_keeps, Hidx|apply ret_keeps].
  - apply visit_expr_stmt_keeps, Hidx.
  - apply (for_body_keeps body); assumption.
  - apply (for_body_keeps body); assumption.
  - apply (for_body_keeps body); assumption.
  - apply (for_body_keeps body); assumption.
  - apply (for_body_keeps body); assumption.
  - apply ret_keeps.
Qed.

End Invariant.
