(* ===== verification/AirflowChains.v ===== *)
(** * What the extraction returns

    The results of [AirflowExtract] on whole sources: every extraction is
    well-formed, and a chain of shift operators gives the edges Airflow's
    operators define. *)

From S2P Require Import Prelude Str AirflowText AirflowShield AirflowExtract.

Local Open Scope string_scope.

Section Results.
Context `{PyParser}.

Lemma inner_result src :
  (str_len src < U32_MAX)%Z ->
  extract_all_inner src <> Panic /\
  forall ds, extract_all_inner src = Ok ds -> Forall (dag_ok src) ds /\ edges_ok ds.
Proof.
  intros Hlen. unfold extract_all_inner. destruct (parse_module_safely src) as [body|e|] eqn:Ep; [|split; discriminate|].
  2: { unfold parse_module_safely in Ep. case_match; discriminate. }
  assert (H0 : inv src 0 [] (mkWalker [] [])).
  { split_and!; [split; cbn|cbn; lia|intros t Ht; inversion Ht].
    - apply Forall_nil_2.
    - intros d e Hd. inversion Hd.
    - intros n t Ht. inversion Ht. }
  pose proof (for_body_keeps src body (Forall_true _ _ (visit_stmt_keeps src Hlen)) 0 [] None I _ H0) as Hv.
  cbv beta in Hv. cbn [mbind outcome_bind]. unfold visit_stmts. destruct (st_for _ body _) as [w [[]|e|]]; cbn in *; [|split; discriminate|contradiction].
  split; [discriminate|]. intros ds [= <-]. destruct Hv as (Hok & _). split; [apply Hok|apply Hok].
Qed.

(** C13: On a source shorter than 4 GiB the work on the parse thread never panics (every index into the list of
    DAGs is in range), so the only panics turned into internal errors are the
    parser's own; and an extraction that succeeds returns DAGs whose identifiers
    pass Airflow's rule, whose tasks and edges are listed once, whose edges join
    tasks found in the file, and whose spans are non-empty line ranges of the
    source. *)
Theorem extraction_well_formed (src : string) (spawn : option string) (payload : Payload) :
  (str_len src < U32_MAX)%Z ->
  extract_all_inner src <> Panic /\ extract_all spawn payload src <> Panic /\
  forall ds, extract_all spawn payload src = Ok ds -> Forall (dag_ok src) ds /\ edges_ok ds.
Proof.
  intros Hlen. destruct (inner_result src Hlen) as [Hp Hok]. unfold extract_all, shield_parser_panic.
  split; [exact Hp|]. destruct (nesting_depth_exceeds _ _); [split; discriminate|].
  destruct (lex_reject_reason src); [split; discriminate|]. destruct spawn; [split; discriminate|].
  destruct (extract_all_inner src); [split; [discriminate|exact Hok]|split; discriminate|contradiction].
Qed.

End Results.

(** ** Chains of shift operators *)

(** [e0 op1 e1 op2 e2 ...], as the parser nests it. *)
Definition chain (e0 : Expr) (ops : list (TextRange * Operator * Expr)) : Expr :=
  foldl (fun l x => match x with (r, op, e) => BinOp r l op e end) e0 ops.

Definition is_name (e : Expr) : Prop := match e with Name _ _ => True | _ => False end.

(** A variable, or a list or tuple of variables. *)
Definition operand (e : Expr) : Prop :=
  match e with Name _ _ => True | ListExpr _ elts | TupleExpr _ elts => Forall is_name elts | _ => False end.

(** The tasks an operand stands for. *)
Definition name_task (al : list (string * TaskId)) (e : Expr) : option TaskId :=
  match e with Name _ id => find_alias al id | _ => None end.

Definition operand_tasks (al : list (string * TaskId)) (e : Expr) : list TaskId :=
  match e with
  | ListExpr _ elts | TupleExpr _ elts => omap (name_task al) elts
  | _ => option_list (name_task al e)
  end.

(** Airflow's operators: [x >> y] puts every task of [x] upstream of every task
    of [y], [x << y] every task of [y] upstream of every task of [x]. *)
Definition op_edges (op : Operator) (xs ys : list TaskId) : list (TaskId * TaskId) :=
  match op with
  | RShift => List.list_prod xs ys
  | LShift => List.list_prod ys xs
  | OtherOperator => []
  end.

(** Both evaluate to their right operand. *)
Fixpoint chain_edges (al : list (string * TaskId)) (e0 : Expr) (ops : list (TextRange * Operator * Expr)) : list (TaskId * TaskId) :=
  match ops with
  | [] => []
  | (_, op, e) :: ops => (op_edges op (operand_tasks al e0) (operand_tasks al e) ++ chain_edges al e ops)%list
  end.

Definition last_operand (e0 : Expr) (ops : list (TextRange * Operator * Expr)) : Expr :=
  match last ops with Some (_, _, e) => e | None => e0 end.

Lemma chain_edges_snoc al e0 ops r op e :
  chain_edges al e0 (ops ++ [(r, op, e)])%list =
  (chain_edges al e0 ops ++ op_edges op (operand_tasks al (last_operand e0 ops)) (operand_tasks al e))%list.
Proof.
  revert e0. induction ops as [|[[r1 op1] e1] ops IH]; intros e0; cbn [app chain_edges].
  - rewrite app_nil_r. reflexivity.
  - rewrite IH, <- app_assoc. do 2 f_equal. unfold last_operand. rewrite last_cons.
    destruct (last ops) as [[[? ?] ?]|]; reflexivity.
Qed.

Lemma elem_of_cross op ls rs x : is_shift op = true -> x ∈ cross_edges op ls rs <-> x ∈ op_edges op ls rs.
Proof.
  intros Hop. unfold cross_edges. rewrite list_elem_of_bind.
  setoid_rewrite list_elem_of_fmap. destruct x as [a b].
  destruct op; [| |discriminate]; cbn; rewrite list_elem_of_In, List.in_prod_iff, <- !list_elem_of_In;
    (split; [intros (u & (v & [= -> ->] & Hv) & Hu); auto|intros [Ha Hb]; eauto 6]).
Qed.

Lemma chain_snoc e0 ops r op e : chain e0 (ops ++ [(r, op, e)])%list = BinOp r (chain e0 ops) op e.
Proof. unfold chain. rewrite foldl_app. reflexivity. Qed.

Lemma not_too_deep n : n <= MAX_WALK_DEPTH -> too_deep n = false.
Proof. intros Hn. unfold too_deep. apply Nat.ltb_ge, Hn. Qed.

Lemma resolve_name al e depth :
  is_name e -> depth <= MAX_WALK_DEPTH -> resolve_to_task_id al e depth = name_task al e.
Proof.
  intros He Hd. destruct e; try contradiction. cbn [resolve_to_task_id name_task]. rewrite not_too_deep by exact Hd. reflexivity.
Qed.

Lemma terminal_operand al e depth :
  operand e -> S depth <= MAX_WALK_DEPTH -> terminal_task_ids al e depth = operand_tasks al e.
Proof.
  intros He Hd. assert (Hl : forall l, Forall is_name l ->
    omap (fun elt => resolve_to_task_id al elt (S depth)) l = omap (name_task al) l).
  { induction 1 as [|x l Hx _ IH]; [reflexivity|]. cbn. rewrite (resolve_name al x) by assumption. rewrite IH. reflexivity. }
  destruct e; try contradiction; cbn [terminal_task_ids operand_tasks]; rewrite not_too_deep by lia; auto.
  rewrite resolve_name by assumption. reflexivity.
Qed.

Lemma terminal_chain al e0 ops depth :
  operand e0 -> Forall (fun x => is_shift (snd (fst x)) = true /\ operand (snd x)) ops ->
  (match ops with [] => S depth | _ => S (S depth) end) <= MAX_WALK_DEPTH ->
  terminal_task_ids al (chain e0 ops) depth = operand_tasks al (last_operand e0 ops).
Proof.
  intros H0 Hops Hd. destruct ops as [|[[r op] e] ops' _] using rev_ind; [apply terminal_operand; assumption|].
  apply Forall_app in Hops as [_ [[Hop He] _]%Forall_cons]. cbn in Hop, He.
  rewrite chain_snoc. cbn [terminal_task_ids]. unfold last_operand. rewrite last_snoc, Hop.
  assert (S (S depth) <= MAX_WALK_DEPTH) by (destruct ops'; exact Hd).
  rewrite not_too_deep by lia. apply terminal_operand; [exact He|lia].
Qed.

(** The state with the edges [es] added to the DAG at [idx]. *)
Definition with_edges (idx : nat) (d : ExtractedDag) (es : list (TaskId * TaskId)) (w : Walker) : Walker :=
  mkWalker (<[idx := set_edges es d]> (dags w)) (task_aliases w).

Lemma with_edges_id idx d w : dags w !! idx = Some d -> with_edges idx d (deps_edges d) w = w.
Proof.
  intros Hd. unfold with_edges. replace (set_edges (deps_edges d) d) with d by (destruct d; reflexivity).
  rewrite list_insert_id by exact Hd. destruct w; reflexivity.
Qed.

Lemma add_edges_run idx es d w :
  dags w !! idx = Some d ->
  st_for (add_edge idx) es w = (with_edges idx d (foldl push_unique_edge (deps_edges d) es) w, Ok tt).
Proof.
  revert d w. induction es as [|e es IH]; intros d w Hd; cbn; [rewrite with_edges_id by exact Hd; reflexivity|].
  unfold mbind, stm_bind, add_edge at 1, update_dag. rewrite Hd. cbn.
  rewrite (IH (set_edges (push_unique_edge (deps_edges d) e) d)).
  - unfold with_edges. cbn. rewrite list_insert_insert_eq. reflexivity.
  - cbn. apply list_lookup_insert_eq. apply lookup_lt_Some in Hd. exact Hd.
Qed.

Lemma elem_of_push_all es into x : x ∈ foldl push_unique_edge into es <-> x ∈ into \/ x ∈ es.
Proof.
  revert into. induction es as [|e es IH]; intros into; cbn; [split; [auto|intros [H|H]; [exact H|inversion H]]|].
  rewrite IH, elem_of_push_edge, elem_of_cons. tauto.
Qed.

Lemma NoDup_push_all es into : NoDup into -> NoDup (foldl push_unique_edge into es).
Proof.
  revert into. induction es as [|e es IH]; intros into Hn; [exact Hn|]. cbn. apply IH.
  rewrite push_unique_edge_spec. apply NoDup_push, Hn.
Qed.

Section Chain.
Context (al : list (string * TaskId)) (e0 : Expr).
Hypothesis first_operand : operand e0.

Lemma collect_chain ops : forall r op e idx depth d w,
  Forall (fun x => is_shift (snd (fst x)) = true /\ operand (snd x)) (ops ++ [(r, op, e)])%list ->
  S (length ops) + depth <= MAX_WALK_DEPTH -> task_aliases w = al -> dags w !! idx = Some d ->
  exists es, collect_shift_edges (chain e0 ops) op e idx depth w = (with_edges idx d es w, Ok tt) /\
    (NoDup (deps_edges d) -> NoDup es) /\
    forall x, x ∈ es <-> x ∈ deps_edges d \/ x ∈ chain_edges al e0 (ops ++ [(r, op, e)])%list.
Proof.
  induction ops as [|[[r1 op1] e1] ops IH] using rev_ind; intros r op e idx depth d w Hall Hlen Hal Hd.
  - cbn [chain foldl]. apply Forall_cons in Hall as [[Hop He] _]. cbn in Hop, He, Hlen.
    exists (foldl push_unique_edge (deps_edges d) (cross_edges op (operand_tasks al e0) (operand_tasks al e))). split; [|split; [apply NoDup_push_all|]].
    + assert (E : collect_shift_edges e0 op e idx depth w =
        st_for (add_edge idx) (cross_edges op (terminal_task_ids (task_aliases w) e0 depth) (terminal_task_ids (task_aliases w) e depth)) w).
      { destruct e0; try contradiction; cbn [collect_shift_edges]; rewrite not_too_deep by lia; run_st;
          destruct (st_for _ _ w) as [? [[]|?|]]; reflexivity. }
      rewrite E, Hal, !terminal_operand by (assumption || lia). apply add_edges_run, Hd.
    + intros x. rewrite elem_of_push_all, elem_of_cross by exact Hop. cbn [app chain_edges]. rewrite app_nil_r. reflexivity.
  - pose proof Hall as Hall'. apply Forall_app in Hall' as [Hpre [[Hop He] _]%Forall_cons]. cbn in Hop, He.
    rewrite length_app in Hlen. cbn in Hlen. rewrite chain_snoc. cbn [collect_shift_edges].
    rewrite not_too_deep by lia. run_st. rewrite Hal, <- (chain_snoc e0 ops r1 op1 e1).
    rewrite terminal_chain; [|exact first_operand|exact Hpre|destruct ops; cbn; lia].
    rewrite (terminal_operand al e) by (exact He || lia). rewrite (add_edges_run idx _ d w Hd).
    assert (Hop1 : is_shift op1 = true) by (apply Forall_app in Hpre as [_ [[H1 _] _]%Forall_cons]; exact H1).
    rewrite Hop1. set (es1 := foldl _ _ _).
    destruct (IH r1 op1 e1 idx (S depth) (set_edges es1 d) (with_edges idx d es1 w)) as (es & -> & Hnd & Hes);
      [exact Hpre|lia|exact Hal|cbn; apply list_lookup_insert_eq; apply lookup_lt_Some in Hd; exact Hd|].
    exists es. split; [|split; [intros Hn; apply Hnd, NoDup_push_all, Hn|]].
    + unfold with_edges. cbn. rewrite list_insert_insert_eq. reflexivity.
    + intros x. rewrite Hes. cbn [deps_edges set_edges]. unfold es1. rewrite elem_of_push_all, elem_of_cross by exact Hop. rewrite (chain_edges_snoc al e0 _ r op e).
      unfold last_operand. rewrite last_snoc, elem_of_app. tauto.
Qed.

End Chain.

(** C26: Inside a DAG, a statement that is a chain of up to 1024 shift operators
    over task variables and lists of them adds to that DAG exactly the edges that
    the left-to-right evaluation of the operators defines, once each, and changes
    nothing else. As in Airflow an operator draws edges between all its left and all
    its right operands and gives its right operand; lists get the same reading on
    either side, also between two of them, where Python itself has no operator. *)
Theorem shift_chain_edges (w : Walker) (idx : nat) (d : ExtractedDag) (e0 : Expr) (ops : list (TextRange * Operator * Expr)) :
  dags w !! idx = Some d -> NoDup (deps_edges d) -> ops <> [] -> length ops <= MAX_WALK_DEPTH ->
  operand e0 -> Forall (fun x => is_shift (snd (fst x)) = true /\ operand (snd x)) ops ->
  exists es, visit_expr_stmt (chain e0 ops) (Some idx) w =
      (mkWalker (<[idx := set_edges es d]> (dags w)) (task_aliases w), Ok tt) /\ NoDup es /\
    forall x, x ∈ es <-> x ∈ deps_edges d \/ x ∈ chain_edges (task_aliases w) e0 ops.
Proof.
  intros Hd Hn Hne Hlen H0 Hops. destruct ops as [|[[r op] e] ops' _] using rev_ind; [contradiction|].
  rewrite length_app in Hlen. cbn in Hlen.
  destruct (collect_chain (task_aliases w) e0 H0 ops' r op e idx 0 d w Hops ltac:(lia) eq_refl Hd) as (es & Hrun & Hnd & Hes).
  exists es. split_and!; [|exact (Hnd Hn)|exact Hes]. rewrite chain_snoc. cbn [visit_expr_stmt].
  apply Forall_app in Hops as [_ [[Hop _] _]%Forall_cons]. cbn in Hop. rewrite Hop. exact Hrun.
Qed.

(** ** Concrete runs *)

Definition at_ (n : N) : TextRange := mkTextRange n (n + 1).

Definition task (s : string) : TaskId := mkTaskId s.

(** A DAG under construction with three task variables. *)
Definition three_tasks : Walker :=
  mkWalker [mkExtractedDag (Some (mkDagId "d")) [task "a"; task "b"; task "c"] None false [] None]
           [("a", task "a"); ("b", task "b"); ("c", task "c")].

(** [a >> [b, c]]. *)
Lemma shift_chain_edges_witness :
  exists es, visit_expr_stmt (chain (Name (at_ 0) "a") [(at_ 0, RShift, ListExpr (at_ 5) [Name (at_ 6) "b"; Name (at_ 9) "c"])])
      (Some 0) three_tasks =
      (mkWalker (<[0 := set_edges es (mkExtractedDag (Some (mkDagId "d")) [task "a"; task "b"; task "c"] None false [] None)]>
        (dags three_tasks)) (task_aliases three_tasks), Ok tt) /\ NoDup es /\
    forall x, x ∈ es <-> x ∈ [] \/ x ∈ [(task "a", task "b"); (task "a", task "c")].
Proof.
  apply (shift_chain_edges three_tasks 0 (mkExtractedDag (Some (mkDagId "d")) [task "a"; task "b"; task "c"] None false [] None)
    (Name (at_ 0) "a") [(at_ 0, RShift, ListExpr (at_ 5) [Name (at_ 6) "b"; Name (at_ 9) "c"])]).
  - reflexivity.
  - apply NoDup_nil_2.
  - discriminate.
  - apply Nat.leb_le. reflexivity.
  - exact I.
  - apply Forall_singleton. split; [reflexivity|]. repeat constructor.
Defined.

(** A parser for one source: [with DAG("d"): t = BashOperator(task_id="t")]. *)
Definition demo_parser : PyParser := {|
  lex _ := [TokenKind.Other; TokenKind.Other; TokenKind.Lpar; TokenKind.Other; TokenKind.Rpar];
  parse_module _ := Parsed
    [With [Call (at_ 5) (Name (at_ 5) "DAG") [StringLiteral (at_ 9) "d"] []]
       [Assign [Name (at_ 15) "t"] (Call (at_ 19) (Name (at_ 19) "BashOperator") [] [(Some "task_id", StringLiteral (at_ 40) "t")])]
       (mkTextRange 0 44)]
|}.

Lemma extraction_well_formed_witness :
  @extract_all demo_parser None OtherPayload "with DAG('d'):
  t = BashOperator(task_id='t')" <> Panic.
Proof.
  apply (@extraction_well_formed demo_parser "with DAG('d'):
  t = BashOperator(task_id='t')" None OtherPayload). reflexivity.
Defined.

Lemma demo_extraction :
  @extract_all demo_parser None OtherPayload "with DAG('d'):
  t = BashOperator(task_id='t')" =
  Ok [mkExtractedDag (Some (mkDagId "d")) [task "t"] None false [] (Some (mkSourceSpan 1 2))].
Proof. vm_compute. reflexivity. Qed.

(** The edge between the operands of a parenthesised right operand is not
    collected: [a >> (b >> c)] gives only [a -> c]. *)
Lemma right_nested_shift_loses_edge :
  fst (visit_expr_stmt (BinOp (at_ 0) (Name (at_ 0) "a") RShift (BinOp (at_ 6) (Name (at_ 6) "b") RShift (Name (at_ 11) "c")))
         (Some 0) three_tasks) =
  with_edges 0 (mkExtractedDag (Some (mkDagId "d")) [task "a"; task "b"; task "c"] None false [] None)
    [(task "a", task "c")] three_tasks.
Proof. vm_compute. reflexivity. Qed.
