(* ===== verification/AirflowMarkers.v ===== *)
(** * Dynamic-pattern markers

    [crates/ferro-airflow-dag-parser/src/dynamic_markers.rs]: the visitor that
    flags constructs the static extraction cannot follow, with a counter of the
    DAG contexts it is in; and the theorem that it computes the markers of a
    compositional definition in which the context is lexical. *)

From S2P Require Import Prelude Str AirflowText AirflowShield.

Local Open Scope string_scope.
Local Open Scope Z_scope.

Inductive DynamicMarker : Type :=
| PathStemDagId (line col : Z)
| ChainSplat (line col : Z)
| FStringTaskId (line col : Z) (source : string)
| DynamicScheduleExpr (line col : Z)
| UnsupportedTaskFlow (line col : Z)
| ImportTimeBranching (line col : Z)
| ForLoopTaskGeneration (line col : Z).

Definition marker_kind (m : DynamicMarker) : string :=
  match m with
  | PathStemDagId _ _ => "path_stem_dag_id"
  | ChainSplat _ _ => "chain_splat"
  | FStringTaskId _ _ _ => "fstring_task_id"
  | DynamicScheduleExpr _ _ => "dynamic_schedule_expr"
  | UnsupportedTaskFlow _ _ => "unsupported_task_flow"
  | ImportTimeBranching _ _ => "import_time_branching"
  | ForLoopTaskGeneration _ _ => "for_loop_task_generation"
  end.

Definition DAG_NAMES : list string := ["DAG"].
Definition DAG_DECORATOR_NAMES : list string := ["dag"].
Definition CHAIN_HELPERS : list string := ["chain"; "chain_linear"; "cross_downstream"].
Definition OPERATOR_SUFFIXES : list string := ["Operator"; "Sensor"].
Definition TASK_DECORATORS : list string := ["task"; "task_group"; "setup"; "teardown"; "sensor"; "short_circuit"].
Definition MAX_DECORATOR_CHAIN_DEPTH : nat := 1024.

(** ** Predicates on expressions *)

(** The name tested by the three predicates on a callee. *)
Definition callee_name (e : Expr) : option string :=
  match e with Name _ id => Some id | Attribute _ _ attr => Some attr | _ => None end.

Definition is_dag_callable (e : Expr) : bool :=
  match callee_name e with Some n => contains DAG_NAMES n | None => false end.

Definition callee_is_chain_helper (e : Expr) : bool :=
  match callee_name e with Some n => contains CHAIN_HELPERS n | None => false end.

Definition is_operator_constructor (e : Expr) : bool :=
  match callee_name e with Some n => existsb (fun suf => ends_with suf n) OPERATOR_SUFFIXES | None => false end.

Fixpoint inner (e : Expr) (depth : nat) : option string :=
  if Nat.ltb MAX_DECORATOR_CHAIN_DEPTH depth then None else
  match e with
  | Name _ id => Some id
  | Attribute _ _ attr => Some attr
  | Call _ f _ _ => inner f (S depth)
  | _ => None
  end.

Definition match_dag_decorator (e : Expr) : bool :=
  match inner e 0 with Some n => contains DAG_DECORATOR_NAMES n | None => false end.

(** On the callee of the call. *)
Definition is_task_decorator_call (func : Expr) : bool :=
  match inner func 0 with Some n => contains TASK_DECORATORS n | None => false end.

Definition task_decorator_is_dynamic (args : list Expr) (kws : list (option string * Expr)) : bool :=
  negb (bool_decide (args = [])) ||
  existsb (fun kw => match fst kw with Some n => contains ["expand"; "partial"] n | None => false end) kws.

Definition is_acceptable_schedule_literal (e : Expr) : bool :=
  match e with
  | StringLiteral _ _ | NoneLiteral _ | EllipsisLiteral _ => true
  | Call _ (Name _ id) _ _ => String.eqb id "timedelta"
  | _ => false
  end.

Definition is_constant_bool (e : Expr) : bool :=
  match e with BooleanLiteral _ _ | NoneLiteral _ | NumberLiteral _ _ => true | _ => false end.

(** The ellipsis character, in UTF-8. *)
Definition elided : string := "{" ++ String "226" (String "128" (String "166" "")) ++ "}".

Definition render_element (el : InterpolatedStringElement) : string :=
  match el with ElementLiteral v => v | Interpolation => elided end.

Definition render_part (p : FStringPart) : string :=
  match p with PartLiteral v => v | PartFString els => String.concat "" (render_element <$> els) end.

Definition render_fstring (parts : list FStringPart) : string := String.concat "" (render_part <$> parts).

(** ** The visitor *)

Record MarkerVisitor : Type := mkVisitor { markers : list DynamicMarker; in_dag_ctx : Z }.

#[local] Abbreviation visit := (stm MarkerVisitor ParseError).

Definition push_marker (m : DynamicMarker) : visit unit :=
  st_modify (fun v => mkVisitor (markers v ++ [m])%list (in_dag_ctx v)).

(** [self.in_dag_ctx += 1] and [-= 1], with the overflow checks of [u32]. *)
Definition ctx_inc : visit unit := fun v =>
  if in_dag_ctx v <? U32_MAX then (mkVisitor (markers v) (in_dag_ctx v + 1), Ok tt) else (v, Panic).
Definition ctx_dec : visit unit := fun v =>
  if 0 <? in_dag_ctx v then (mkVisitor (markers v) (in_dag_ctx v - 1), Ok tt) else (v, Panic).

Definition in_ctx : visit bool := v ← st_get; mret (0 <? in_dag_ctx v).

Section Visitor.
Context (line_index : LineIndex).

(** [self.line_col(node)], then a marker at that place. *)
Definition push_at (r : TextRange) (m : Z -> Z -> DynamicMarker) : visit unit :=
  '(line, col) ← st_lift (line_col line_index (Z.of_N (range_start r)));
  push_marker (m line col).

(** The first starred argument. *)
Fixpoint first_starred (args : list Expr) : option TextRange :=
  match args with [] => None | Starred r :: _ => Some r | _ :: args => first_starred args end.

(** The loop of [visit_call] over the keywords. *)
Definition fstring_keyword (kw : option string * Expr) : visit unit :=
  match kw with
  | (Some n, FString r parts) =>
    if String.eqb n "task_id" then push_at r (fun line col => FStringTaskId line col (render_fstring parts)) else mret tt
  | _ => mret tt
  end.

(** What [visit_call] does before it descends into the arguments. *)
Definition visit_call_head (func : Expr) (args : list Expr) (kws : list (option string * Expr)) : visit unit :=
  c ← in_ctx;
  (if c && callee_is_chain_helper func
   then match first_starred args with Some r => push_at r ChainSplat | None => mret tt end
   else mret tt) ;;
  st_for fstring_keyword kws.

(** [visit_expr], [visit_call] and [visit_call_args]. *)
Fixpoint visit_expr (e : Expr) : visit unit :=
  match e with
  | Call _ func args kws =>
    visit_call_head func args kws ;;
    st_for visit_expr args ;;
    st_for (fun kw => visit_expr (snd kw)) kws
  | _ => mret tt
  end.

Definition visit_call_args (args : list Expr) (kws : list (option string * Expr)) : visit unit :=
  st_for visit_expr args ;;
  st_for (fun kw => visit_expr (snd kw)) kws.

Definition scan_dag_keyword (kw : option string * Expr) : visit unit :=
  match fst kw with
  | None => mret tt
  | Some n =>
    if String.eqb n "dag_id" then
      match snd kw with
      | StringLiteral _ _ => mret tt
      | other => push_at (expr_range other) PathStemDagId
      end
    else if contains ["schedule"; "schedule_interval"; "timetable"] n && negb (is_acceptable_schedule_literal (snd kw))
    then push_at (expr_range (snd kw)) DynamicScheduleExpr
    else mret tt
  end.

Definition scan_dag_kwargs (kws : list (option string * Expr)) : visit unit := st_for scan_dag_keyword kws.

Fixpoint enter_with (items : list Expr) (opened : bool) : visit bool :=
  match items with
  | [] => mret opened
  | Call _ func args kws :: items =>
    if is_dag_callable func
    then ctx_inc ;; scan_dag_kwargs kws ;; enter_with items true
    else visit_call_args args kws ;; enter_with items opened
  | _ :: items => enter_with items opened
  end.

Definition visit_decorator (d : Expr) : visit unit :=
  visit_expr d ;;
  c ← in_ctx;
  match d with
  | Call r func args kws =>
    if c && is_task_decorator_call func && task_decorator_is_dynamic args kws
    then push_at r UnsupportedTaskFlow else mret tt
  | _ => mret tt
  end.

Definition visit_decorator_list (decorators : list Expr) : visit unit := st_for visit_decorator decorators.

Definition flag_branching_item (item : Expr) : visit unit :=
  match item with
  | Call r func _ _ => if is_dag_callable func then push_at r ImportTimeBranching else mret tt
  | _ => mret tt
  end.

Definition flag_branching_in_body (body : list Stmt) : visit unit :=
  st_for (fun s => match s with With items _ _ => st_for flag_branching_item items | _ => mret tt end) body.

Definition flag_for_stmt (s : Stmt) : visit unit :=
  match s with
  | ExprStmt (Call r func _ _) | Assign _ (Call r func _ _) =>
    if is_operator_constructor func then push_at r ForLoopTaskGeneration else mret tt
  | _ => mret tt
  end.

Definition flag_for_loop_body (body : list Stmt) : visit unit :=
  c ← in_ctx;
  if (c : bool) then st_for flag_for_stmt body else mret tt.

Fixpoint visit_stmt (s : Stmt) : visit unit :=
  match s with
  | With items body _ =>
    opened ← enter_with items false;
    st_for visit_stmt body ;;
    (if opened : bool then ctx_dec else mret tt)
  | FunctionDef _ decs body _ =>
    let dag_dec := existsb match_dag_decorator decs in
    (if dag_dec then ctx_inc else mret tt) ;;
    visit_decorator_list decs ;;
    st_for visit_stmt body ;;
    (if dag_dec then ctx_dec else mret tt)
  | Assign targets value => visit_expr value ;; st_for visit_expr targets
  | AnnAssign target (Some value) => visit_expr target ;; visit_expr value
  | ExprStmt value => visit_expr value
  | If test body clauses =>
    (if is_constant_bool test then mret tt
     else flag_branching_in_body body ;; st_for flag_branching_in_body clauses) ;;
    visit_expr test ;;
    st_for visit_stmt body ;;
    st_for (fun clause => st_for visit_stmt clause) clauses
  | For iter body => flag_for_loop_body body ;; visit_expr iter ;; st_for visit_stmt body
  | While test body => visit_expr test ;; st_for visit_stmt body
  | Try body | ClassDef body => st_for visit_stmt body
  | AnnAssign _ None | OtherStmt => mret tt
  end.

Definition visit_stmts (stmts : list Stmt) : visit unit := st_for visit_stmt stmts.

End Visitor.

Section Detect.
Context `{PyParser}.

Definition detect_dynamic_markers_impl (source : string) : outcome ParseError (list DynamicMarker) :=
  body ← parse_module_safely source;
  match visit_stmts (LineIndex_new source) body (mkVisitor [] 0) with
  | (v, Ok _) => Ok (markers v)
  | (_, Err e) => Err e
  | (_, Panic) => Panic
  end.

Definition detect_dynamic_markers (spawn : option string) (payload : Payload) (source : string) :
    outcome ParseError (list DynamicMarker) :=
  shield_parser_panic spawn payload source (detect_dynamic_markers_impl source).

End Detect.
