(* ===== verification/AirflowScopes.v ===== *)
(** * Markers by lexical scope

    A compositional definition of the markers of a statement, in which being
    inside a DAG is a property of the place in the source, and the proof that the
    visitor of [AirflowMarkers], with its counter, computes it. *)

From S2P Require Import Prelude Str AirflowText AirflowShield AirflowMarkers.

Local Open Scope string_scope.
Local Open Scope Z_scope.

(** ** The markers of a place *)

Section Reference.
Context (src : string).

Definition marker_at (r : TextRange) (m : Z -> Z -> DynamicMarker) : list DynamicMarker :=
  let '(line, col) := walk_pos (N.to_nat (range_start r)) src 1 1 in [m line col].

Definition splat_markers (ctx : bool) (func : Expr) (args : list Expr) : list DynamicMarker :=
  if ctx && callee_is_chain_helper func
  then match first_starred args with Some r => marker_at r ChainSplat | None => [] end else [].

Definition fstring_markers (kw : option string * Expr) : list DynamicMarker :=
  match kw with
  | (Some n, FString r parts) =>
    if String.eqb n "task_id" then marker_at r (fun l c => FStringTaskId l c (render_fstring parts)) else []
  | _ => []
  end.

Fixpoint expr_markers (ctx : bool) (e : Expr) : list DynamicMarker :=
  match e with
  | Call _ func args kws =>
    (splat_markers ctx func args ++ List.flat_map fstring_markers kws ++
     List.flat_map (expr_markers ctx) args ++ List.flat_map (fun kw => expr_markers ctx (snd kw)) kws)%list
  | _ => []
  end.

Definition keyword_markers (kw : option string * Expr) : list DynamicMarker :=
  match fst kw with
  | None => []
  | Some n =>
    if String.eqb n "dag_id" then
      match snd kw with StringLiteral _ _ => [] | other => marker_at (expr_range other) PathStemDagId end
    else if contains ["schedule"; "schedule_interval"; "timetable"] n && negb (is_acceptable_schedule_literal (snd kw))
    then marker_at (expr_range (snd kw)) DynamicScheduleExpr
    else []
  end.

Definition is_dag_item (item : Expr) : bool :=
  match item with Call _ func _ _ => is_dag_callable func | _ => false end.

Definition opens_dag (items : list Expr) : bool := existsb is_dag_item items.

(** An item after the DAG is inside it. *)
Fixpoint items_markers (ctx : bool) (items : list Expr) : list DynamicMarker :=
  match items with
  | [] => []
  | Call _ func args kws :: items =>
    if is_dag_callable func
    then (List.flat_map keyword_markers kws ++ items_markers true items)%list
    else (List.flat_map (expr_markers ctx) args ++ List.flat_map (fun kw => expr_markers ctx (snd kw)) kws ++
          items_markers ctx items)%list
  | _ :: items => items_markers ctx items
  end.

Definition decorator_markers (ctx : bool) (d : Expr) : list DynamicMarker :=
  (expr_markers ctx d ++
   match d with
   | Call r func args kws =>
     if ctx && is_task_decorator_call func && task_decorator_is_dynamic args kws
     then marker_at r UnsupportedTaskFlow else []
   | _ => []
   end)%list.

Definition branch_markers (body : list Stmt) : list DynamicMarker :=
  List.flat_map (fun s =>
    match s with
    | With items _ _ =>
      List.flat_map (fun item => if is_dag_item item then marker_at (expr_range item) ImportTimeBranching else []) items
    | _ => []
    end) body.

Definition loop_markers (ctx : bool) (body : list Stmt) : list DynamicMarker :=
  if ctx then
    List.flat_map (fun s =>
      match s with
      | ExprStmt (Call r func _ _) | Assign _ (Call r func _ _) =>
        if is_operator_constructor func then marker_at r ForLoopTaskGeneration else []
      | _ => []
      end) body
  else [].

(** Statements of a [with DAG(...)] body and of a [@dag] function are inside a
    DAG; every other statement is where its parent is. *)
Fixpoint stmt_markers (ctx : bool) (s : Stmt) : list DynamicMarker :=
  match s with
  | With items body _ =>
    (items_markers ctx items ++ List.flat_map (stmt_markers (ctx || opens_dag items)) body)%list
  | FunctionDef _ decs body _ =>
    let ctx := ctx || existsb match_dag_decorator decs in
    (List.flat_map (decorator_markers ctx) decs ++ List.flat_map (stmt_markers ctx) body)%list
  | Assign targets value => (expr_markers ctx value ++ List.flat_map (expr_markers ctx) targets)%list
  | AnnAssign target (Some value) => (expr_markers ctx target ++ expr_markers ctx value)%list
  | ExprStmt value => expr_markers ctx value
  | If test body clauses =>
    ((if is_constant_bool test then [] else branch_markers body ++ List.flat_map branch_markers clauses) ++
     expr_markers ctx test ++ List.flat_map (stmt_markers ctx) body ++
     List.flat_map (fun c => List.flat_map (stmt_markers ctx) c) clauses)%list
  | For iter body => (loop_markers ctx body ++ expr_markers ctx iter ++ List.flat_map (stmt_markers ctx) body)%list
  | While test body => (expr_markers ctx test ++ List.flat_map (stmt_markers ctx) body)%list
  | Try body | ClassDef body => List.flat_map (stmt_markers ctx) body
  | AnnAssign _ None | OtherStmt => []
  end.

End Reference.

(** No [with] statement opens two DAGs. *)
Definition count_dags (items : list Expr) : nat := length (filter (fun i => is_dag_item i = true) items).

Fixpoint single_dag (s : Stmt) : bool :=
  match s with
  | With items body _ => Nat.leb (count_dags items) 1 && forallb single_dag body
  | FunctionDef _ _ body _ | ClassDef body | For _ body | While _ body | Try body => forallb single_dag body
  | If _ body clauses => forallb single_dag body && forallb (forallb single_dag) clauses
  | _ => true
  end.

(** Nesting depth of compound statements. *)
Definition max_of {A} (f : A -> Z) (l : list A) : Z := foldr (fun x n => Z.max (f x) n) 0 l.

Fixpoint stmt_depth (s : Stmt) : Z :=
  match s with
  | With _ body _ | FunctionDef _ _ body _ | ClassDef body | For _ body | While _ body | Try body => 1 + max_of stmt_depth body
  | If _ body clauses => 1 + Z.max (max_of stmt_depth body) (max_of (max_of stmt_depth) clauses)
  | _ => 0
  end.

Lemma max_of_le {A} (f : A -> Z) l n : max_of f l <= n <-> 0 <= n /\ Forall (fun x => f x <= n) l.
Proof.
  induction l as [|x l IH]; cbn; [split; [intros; split; [lia|constructor]|intros []; lia]|].
  rewrite Forall_cons. unfold max_of in IH. rewrite Z.max_lub_iff, IH. tauto.
Qed.

(** ** The visitor emits them *)

(** From counter [c], [m] returns [a] with counter [c'] and appends [ms]. *)
Definition emits {A} (m : stm MarkerVisitor ParseError A) (c : Z) (ms : list DynamicMarker) (c' : Z) (a : A) : Prop :=
  forall v, in_dag_ctx v = c -> m v = (mkVisitor (markers v ++ ms)%list c', Ok a).

Lemma emits_ret {A} (a : A) c : emits (mret a) c [] c a.
Proof. intros [ms k] <-. cbn. rewrite app_nil_r. reflexivity. Qed.

Lemma emits_bind {A B} (m : stm MarkerVisitor ParseError A) (k : A -> stm MarkerVisitor ParseError B) c ms c' a ms' c'' b :
  emits m c ms c' a -> emits (k a) c' ms' c'' b -> emits (m ≫= k) c (ms ++ ms')%list c'' b.
Proof.
  intros Hm Hk v Hv. unfold mbind, stm_bind. rewrite (Hm v Hv), (Hk (mkVisitor (markers v ++ ms) c') eq_refl). cbn. rewrite app_assoc. reflexivity.
Qed.

Lemma emits_for {A} (f : A -> stm MarkerVisitor ParseError unit) g c l :
  Forall (fun x => emits (f x) c (g x) c tt) l -> emits (st_for f l) c (List.flat_map g l) c tt.
Proof.
  induction 1 as [|x l Hx _ IH]; cbn; [apply emits_ret|]. eapply emits_bind; [exact Hx|exact IH].
Qed.

Lemma emits_if {A} (b : bool) (m k : stm MarkerVisitor ParseError A) c ms ms' c' a :
  emits m c ms c' a -> emits k c ms' c' a -> emits (if b then m else k) c (if b then ms else ms') c' a.
Proof. destruct b; auto. Qed.

Lemma emits_in_ctx c : emits in_ctx c [] c (0 <? c).
Proof. intros [ms k] <-. unfold in_ctx. run_st. cbn. rewrite app_nil_r. reflexivity. Qed.

(** After a silent read. *)
Lemma emits_ctx {A} (k : bool -> stm MarkerVisitor ParseError A) c ms c' a :
  emits (k (0 <? c)) c ms c' a -> emits (b ← in_ctx; k b) c ms c' a.
Proof. intros Hk. apply (emits_bind _ _ c [] c (0 <? c) ms); [apply emits_in_ctx|exact Hk]. Qed.

Lemma emits_inc c : 0 <= c < U32_MAX -> emits ctx_inc c [] (c + 1) tt.
Proof. intros Hc [ms k] <-. unfold ctx_inc. cbn in *. destruct (Z.ltb_spec k U32_MAX); [rewrite app_nil_r; reflexivity|lia]. Qed.

Lemma emits_dec c : 0 < c -> emits ctx_dec c [] (c - 1) tt.
Proof. intros Hc [ms k] <-. unfold ctx_dec. cbn in *. destruct (Z.ltb_spec 0 k); [rewrite app_nil_r; reflexivity|lia]. Qed.

Section Emits.
Context (src : string).
Hypothesis short : str_len src < U32_MAX.
Abbreviation li := (LineIndex_new src).

Lemma emits_at r m c : emits (push_at li r m) c (marker_at src r m) c tt.
Proof.
  intros v Hv. unfold push_at, marker_at. rewrite line_col_walk by lia.
  replace (Z.to_nat (Z.of_N (range_start r))) with (N.to_nat (range_start r)) by lia.
  destruct (walk_pos _ src 1 1) as [line col]. run_st. unfold push_marker, st_modify. rewrite Hv. reflexivity.
Qed.

Lemma emits_fstring c kw : emits (fstring_keyword li kw) c (fstring_markers src kw) c tt.
Proof. destruct kw as [[n|] []]; cbn; try apply emits_ret. destruct (String.eqb n "task_id"); [apply emits_at|apply emits_ret]. Qed.

Lemma emits_call_head c f args kws :
  emits (visit_call_head li f args kws) c (splat_markers src (0 <? c) f args ++ List.flat_map (fstring_markers src) kws)%list c tt.
Proof.
  unfold visit_call_head, splat_markers. apply emits_ctx. eapply emits_bind.
  - apply emits_if; [|apply emits_ret]. destruct (first_starred args); [apply emits_at|apply emits_ret].
  - apply emits_for, Forall_true. intros kw. apply emits_fstring.
Qed.

Lemma emits_expr c e : emits (visit_expr li e) c (expr_markers src (0 <? c) e) c tt.
Proof.
  induction e using Expr_ind; cbn [visit_expr expr_markers]; try apply emits_ret.
  rewrite app_assoc. eapply emits_bind; [apply emits_call_head|]. eapply emits_bind; apply emits_for; assumption.
Qed.

Lemma emits_args c args kws :
  emits (visit_call_args li args kws) c
    (List.flat_map (expr_markers src (0 <? c)) args ++ List.flat_map (fun kw => expr_markers src (0 <? c) (snd kw)) kws)%list c tt.
Proof. eapply emits_bind; apply emits_for, Forall_true; intros x; apply emits_expr. Qed.

Lemma emits_exprs c l : emits (st_for (visit_expr li) l) c (List.flat_map (expr_markers src (0 <? c)) l) c tt.
Proof. apply emits_for, Forall_true. intros x. apply emits_expr. Qed.

Lemma emits_keyword c kw : emits (scan_dag_keyword li kw) c (keyword_markers src kw) c tt.
Proof.
  unfold scan_dag_keyword, keyword_markers. destruct (fst kw) as [n|]; [|apply emits_ret].
  apply emits_if; [destruct (snd kw); (apply emits_ret || apply emits_at)|apply emits_if; [apply emits_at|apply emits_ret]].
Qed.

Lemma emits_decorator c d : emits (visit_decorator li d) c (decorator_markers src (0 <? c) d) c tt.
Proof.
  unfold visit_decorator, decorator_markers. eapply emits_bind; [apply emits_expr|]. apply emits_ctx.
  destruct d; try apply emits_ret. apply emits_if; [apply emits_at|apply emits_ret].
Qed.

Lemma emits_branches c body : emits (flag_branching_in_body li body) c (branch_markers src body) c tt.
Proof.
  apply emits_for, Forall_true. intros []; try apply emits_ret. apply emits_for, Forall_true.
  intros []; try apply emits_ret. cbn. apply emits_if; [apply emits_at|apply emits_ret].
Qed.

Lemma emits_loop c body : emits (flag_for_loop_body li body) c (loop_markers src (0 <? c) body) c tt.
Proof.
  unfold flag_for_loop_body, loop_markers. apply emits_ctx. apply emits_if; [|apply emits_ret].
  apply emits_for, Forall_true. intros []; try apply emits_ret; destruct value; try apply emits_ret;
    (apply emits_if; [apply emits_at|apply emits_ret]).
Qed.

Lemma positive_ctx c : 0 <= c -> (0 <? c + 1) = true.
Proof. intros Hc. apply Z.ltb_lt. lia. Qed.

Lemma emits_items_none items c o :
  opens_dag items = false -> emits (enter_with li items o) c (items_markers src (0 <? c) items) c o.
Proof.
  induction items as [|i items IH]; cbn [opens_dag existsb]; intros Ho; [apply emits_ret|].
  apply orb_false_iff in Ho as [Hi Ho]. specialize (IH Ho).
  destruct i; try exact IH. cbn in Hi. cbn [enter_with items_markers]. rewrite Hi, app_assoc.
  eapply emits_bind; [apply emits_args|exact IH].
Qed.

Lemma count_dags_none items : count_dags items = O -> opens_dag items = false.
Proof.
  unfold count_dags. induction items as [|i items IH]; [reflexivity|]. rewrite filter_cons. cbn [opens_dag existsb].
  destruct (decide (is_dag_item i = true)) as [Hi|Hi]; [discriminate|]. intros Hl.
  apply not_true_is_false in Hi. rewrite Hi. exact (IH Hl).
Qed.

(** The items of a [with] leave the counter one higher when one opens a DAG. *)
Lemma emits_items items c :
  (count_dags items <= 1)%nat -> 0 <= c < U32_MAX ->
  emits (enter_with li items false) c (items_markers src (0 <? c) items)
    (if opens_dag items then c + 1 else c) (opens_dag items).
Proof.
  induction items as [|i items IH]; intros Hn Hc; [apply emits_ret|]. unfold count_dags in *. rewrite filter_cons in Hn.
  destruct i; try exact (IH Hn Hc). cbn [enter_with items_markers opens_dag existsb is_dag_item].
  destruct (is_dag_callable i) eqn:Ed; cbn [orb].
  - rewrite decide_True in Hn by exact Ed. cbn in Hn.
    eapply (emits_bind _ _ _ []); [apply emits_inc, Hc|].
    eapply emits_bind; [apply emits_for, Forall_true; intros kw; apply emits_keyword|].
    pose proof (emits_items_none items (c + 1) true) as Hrest. rewrite positive_ctx in Hrest by lia.
    apply Hrest, count_dags_none. unfold count_dags. lia.
  - rewrite decide_False in Hn by (cbn; rewrite Ed; discriminate). rewrite app_assoc.
    eapply emits_bind; [apply emits_args|exact (IH Hn Hc)].
Qed.

Definition stmt_emits (s : Stmt) : Prop :=
  forall c, single_dag s = true -> 0 <= c -> c + stmt_depth s <= U32_MAX ->
  emits (visit_stmt li s) c (stmt_markers src (0 <? c) s) c tt.

Lemma emits_body c body :
  Forall stmt_emits body -> forallb single_dag body = true -> 0 <= c -> c + max_of stmt_depth body <= U32_MAX ->
  emits (st_for (visit_stmt li) body) c (List.flat_map (stmt_markers src (0 <? c)) body) c tt.
Proof.
  intros Hb Hs Hc Hd. apply emits_for. apply List.forallb_forall in Hs || rewrite List.forallb_forall in Hs.
  assert (Hd' : max_of stmt_depth body <= U32_MAX - c) by lia. apply max_of_le in Hd' as [_ Hd'].
  rewrite Forall_forall in *. intros s Hin. apply Hb; [exact Hin|apply Hs, list_elem_of_In, Hin|exact Hc|].
  specialize (Hd' s Hin). cbv beta in Hd'. lia.
Qed.

Lemma max_of_nonneg {A} (f : A -> Z) l : 0 <= max_of f l.
Proof. apply (max_of_le f l (max_of f l)). lia. Qed.

(** The body of a scope that raised the counter when [opened], and its end. *)
Lemma emits_scope (opened : bool) c body :
  Forall stmt_emits body -> forallb single_dag body = true -> 0 <= c -> c + (1 + max_of stmt_depth body) <= U32_MAX ->
  emits (st_for (visit_stmt li) body ;; (if opened then ctx_dec else mret tt)) (if opened then c + 1 else c)
    (List.flat_map (stmt_markers src ((0 <? c) || opened)) body) c tt.
Proof.
  intros Hb Hs Hc Hd. rewrite <- (app_nil_r (List.flat_map _ _)). destruct opened.
  - rewrite orb_true_r. pose proof (emits_body (c + 1) body Hb Hs) as Hbody. rewrite positive_ctx in Hbody by lia.
    eapply emits_bind; [apply Hbody; lia|]. replace c with (c + 1 - 1) at 2 by lia. apply emits_dec. lia.
  - rewrite orb_false_r. eapply emits_bind; [apply emits_body; [assumption|assumption|lia|lia]|apply emits_ret].
Qed.

Lemma emits_with items body r : Forall stmt_emits body -> stmt_emits (With items body r).
Proof.
  intros Hb c Hs Hc Hd. cbn [visit_stmt stmt_markers single_dag stmt_depth] in *. pose proof (max_of_nonneg stmt_depth body).
  apply andb_true_iff in Hs as [Hn Hs]. apply Nat.leb_le in Hn.
  eapply emits_bind; [apply emits_items; [exact Hn|lia]|]. apply emits_scope; assumption.
Qed.

Lemma emits_function name decs body r : Forall stmt_emits body -> stmt_emits (FunctionDef name decs body r).
Proof.
  intros Hb c Hs Hc Hd. cbn [visit_stmt stmt_markers single_dag stmt_depth] in *. pose proof (max_of_nonneg stmt_depth body).
  set (o := existsb match_dag_decorator decs).
  assert (Hctx : ((0 <? c) || o) = (0 <? (if o then c + 1 else c))).
  { destruct o; [rewrite orb_true_r, positive_ctx by exact Hc; reflexivity|apply orb_false_r]. }
  eapply (emits_bind _ _ _ [] (if o then c + 1 else c)); [destruct o; [apply emits_inc; lia|apply emits_ret]|].
  eapply emits_bind; [|apply emits_scope; assumption].
  apply emits_for, Forall_true. intros d. rewrite Hctx. apply emits_decorator.
Qed.

Lemma emits_conditional test body clauses :
  Forall stmt_emits body -> Forall (Forall stmt_emits) clauses -> stmt_emits (If test body clauses).
Proof.
  intros Hb Hcl c Hs Hc Hd. cbn [visit_stmt stmt_markers single_dag stmt_depth] in *.
  apply andb_true_iff in Hs as [Hs Hsc].
  eapply emits_bind.
  { destruct (is_constant_bool test); [apply emits_ret|]. eapply emits_bind; [apply emits_branches|].
    apply emits_for, Forall_true. intros b. apply emits_branches. }
  eapply emits_bind; [apply emits_expr|]. eapply emits_bind; [apply emits_body; [assumption|assumption|lia|lia]|].
  apply emits_for. rewrite List.forallb_forall in Hsc.
  assert (Hd' : max_of (max_of stmt_depth) clauses <= U32_MAX - c) by lia. apply max_of_le in Hd' as [_ Hd'].
  rewrite Forall_forall in *. intros b Hin. apply emits_body; [apply Hcl, Hin|apply Hsc, list_elem_of_In, Hin|exact Hc|].
  specialize (Hd' b Hin). cbv beta in Hd'. lia.
Qed.

Lemma visit_stmt_emits s : stmt_emits s.
Proof.
  induction s using Stmt_ind.
  - apply emits_with. assumption.
  - apply emits_function. assumption.
  - intros c _ Hc _. eapply emits_bind; [apply emits_expr|apply emits_exprs].
  - intros c _ Hc _. destruct value; [eapply emits_bind; apply emits_expr|apply emits_ret].
  - intros c _ Hc _. apply emits_expr.
  - intros c Hs Hc Hd. cbn in Hd. apply emits_body; [assumption|assumption|lia|lia].
  - apply emits_conditional; assumption.
  - intros c Hs Hc Hd. cbn in Hd. eapply emits_bind; [apply emits_loop|]. eapply emits_bind; [apply emits_expr|].
    apply emits_body; [assumption|assumption|lia|lia].
  - intros c Hs Hc Hd. cbn in Hd. eapply emits_bind; [apply emits_expr|]. apply emits_body; [assumption|assumption|lia|lia].
  - intros c Hs Hc Hd. cbn in Hd. apply emits_body; [assumption|assumption|lia|lia].
  - intros c _ _ _. apply emits_ret.
Qed.

End Emits.

(** C19: On every module of less than 4 GiB in which no [with] statement opens two DAGs
    the marker visitor never panics and returns exactly the markers of the lexical
    definition, each at the line and column obtained by counting line feeds. A splat
    helper, an operator directly in a loop's body, and a task decorator with a
    positional argument or a keyword [expand] or [partial] are flagged where they
    are written inside a [with DAG] body or a [@dag] function; a decorator with other
    keywords, as [@task(retries=3)], is not. The order is that in which the visitor
    meets the constructs, not that of the source: the operators of a loop's body come
    before the loop's iterable, the DAGs opened in the branches of an [if] before its
    test, an assignment's value before its targets. *)
Theorem markers_are_lexical `{PyParser} (src : string) (body : list Stmt) :
  str_len src < U32_MAX -> parse_module src = Parsed body ->
  forallb single_dag body = true -> max_of stmt_depth body <= U32_MAX ->
  detect_dynamic_markers_impl src = Ok (List.flat_map (stmt_markers src false) body).
Proof.
  intros Hlen Hp Hs Hd. unfold detect_dynamic_markers_impl, parse_module_safely. rewrite Hp. cbn [mbind outcome_bind].
  unfold visit_stmts. rewrite (emits_body src 0 body); [reflexivity| |exact Hs|lia|lia|reflexivity].
  apply Forall_true. intros s. apply visit_stmt_emits, Hlen.
Qed.

(** ** Concrete modules *)

Definition pt (n : N) : TextRange := mkTextRange n (n + 1).
Definition run_of (body : list Stmt) : PyParser := {| lex _ := []; parse_module _ := Parsed body |}.
Definition dag_call (n : N) : Expr := Call (pt n) (Name (pt n) "DAG") [StringLiteral (pt n) "d"] [].
Definition splat (n : N) : Stmt := ExprStmt (Call (pt n) (Name (pt n) "chain") [Starred (pt (n + 7))] []).

(** [with DAG("d"): chain( *xs)], then [chain( *xs)] outside. *)
Definition one_dag : list Stmt := [With [dag_call 5] [splat 15] (mkTextRange 0 25); splat 26].

Lemma markers_are_lexical_witness :
  @detect_dynamic_markers_impl (run_of one_dag) "with DAG('d'): chain( *x)
chain( *x)" = Ok [ChainSplat 1 23].
Proof.
  apply (@markers_are_lexical (run_of one_dag) "with DAG('d'): chain( *x)
chain( *x)" one_dag).
  - reflexivity.
  - reflexivity.
  - reflexivity.
  - apply Z.leb_le. reflexivity.
Defined.

(** [with DAG("d"), DAG("d"): pass] opens the context twice and closes it once:
    the call after the block is flagged as if it were inside. *)
Lemma two_dags_leak_the_context :
  @detect_dynamic_markers_impl (run_of [With [dag_call 5; dag_call 15] [] (mkTextRange 0 30); splat 31])
    "with DAG('d'), DAG('d'): pass
chain( *x)" = Ok [ChainSplat 2 9] /\
  List.flat_map (stmt_markers "with DAG('d'), DAG('d'): pass
chain( *x)" false) [With [dag_call 5; dag_call 15] [] (mkTextRange 0 30); splat 31] = [].
Proof. split; vm_compute; reflexivity. Qed.

(** A computed schedule in [@dag(schedule=Asset(..))] gets no marker; in
    [with DAG(schedule=Asset(..))] it does. *)
Lemma decorator_schedule_not_flagged src :
  let asset := Call (pt 14) (Name (pt 14) "Asset") [] [] in
  stmt_markers src false (FunctionDef "f" [Call (pt 1) (Name (pt 1) "dag") [] [(Some "schedule", asset)]] [] (pt 0)) = [] /\
  stmt_markers src false (With [Call (pt 1) (Name (pt 1) "DAG") [] [(Some "schedule", asset)]] [] (pt 0)) =
    marker_at src (pt 14) DynamicScheduleExpr.
Proof. split; [reflexivity|]. cbn -[marker_at]. rewrite !app_nil_r. reflexivity. Qed.

(** An f-string [task_id] is flagged outside every DAG too. *)
Lemma fstring_flagged_outside_dag src parts :
  stmt_markers src false (ExprStmt (Call (pt 0) (Name (pt 0) "f") [] [(Some "task_id", FString (pt 10) parts)])) =
  marker_at src (pt 10) (fun l c => FStringTaskId l c (render_fstring parts)).
Proof. cbn -[marker_at]. rewrite !app_nil_r. reflexivity. Qed.

(** In a DAG, a task decorator is flagged for a positional argument or for the
    keywords [expand] and [partial], and for no other keyword: [@task(retries=3)] and
    a decorator with [**options] get no marker. *)
Lemma task_keywords_not_flagged src r r' (kws : list (option string * Expr)) :
  Forall (fun kw => fst kw <> Some "expand" /\ fst kw <> Some "partial" /\ expr_markers src true (snd kw) = [] /\
    (fst kw <> Some "task_id" \/ forall r parts, snd kw <> FString r parts)) kws ->
  decorator_markers src true (Call r (Name r' "task") [] kws) = [].
Proof.
  intros Hk. unfold decorator_markers. assert (Hd : task_decorator_is_dynamic [] kws = false).
  { unfold task_decorator_is_dynamic. rewrite bool_decide_true by reflexivity. cbn [negb orb].
    induction Hk as [|[[n|] e] kws (H1 & H2 & _) _ IH]; [reflexivity| |exact IH]. cbn [existsb fst] in *. rewrite IH.
    unfold contains. cbn [existsb]. destruct (String.eqb_spec "expand" n) as [<-|_]; [congruence|].
    destruct (String.eqb_spec "partial" n) as [<-|_]; [congruence|reflexivity]. }
  rewrite Hd, andb_false_r, app_nil_r. cbn [expr_markers]. unfold splat_markers. cbn [app List.flat_map].
  replace (true && callee_is_chain_helper (Name r' "task")) with false by reflexivity. cbn [app].
  clear Hd. induction Hk as [|[n e] kws (_ & _ & H3 & H4) _ IH]; [reflexivity|]. cbn [List.flat_map fst snd] in *.
  apply app_nil in IH as [IH1 IH2]. rewrite IH1, IH2, H3, !app_nil_r. unfold fstring_markers.
  destruct n as [n|]; [|reflexivity]. destruct e; try reflexivity. destruct (String.eqb_spec n "task_id") as [->|_]; [|reflexivity].
  destruct H4 as [H4|H4]; [congruence|destruct (H4 _ _ eq_refl)].
Qed.

(** The run of [@dag def f: @task(retries=3) def g: pass]. *)
Lemma retries_not_flagged :
  @detect_dynamic_markers_impl (run_of [FunctionDef "f" [Name (pt 1) "dag"]
    [FunctionDef "g" [Call (pt 20) (Name (pt 20) "task") [] [(Some "retries", NumberLiteral (pt 32) (Int "3"))]] [] (pt 40)] (pt 5)])
    "source" = Ok [].
Proof. vm_compute. reflexivity. Qed.

(** The operator in a loop's body is reported before the f-string in the loop's
    iterable, which is written first. *)
Lemma markers_in_visiting_order src (r r' : TextRange) parts :
  stmt_markers src true (For (Call (pt 0) (Name (pt 0) "f") [] [(Some "task_id", FString r parts)])
                             [ExprStmt (Call r' (Name r' "BashOperator") [] [])]) =
  (marker_at src r' ForLoopTaskGeneration ++ marker_at src r (fun l c => FStringTaskId l c (render_fstring parts)))%list.
Proof. cbn -[marker_at]. rewrite !app_nil_r. reflexivity. Qed.
