(* ===== verification/AirflowCache.v ===== *)
(** * The public interface and the parse cache

    [crates/ferro-airflow-dag-parser/src/api.rs] and [cache.rs]: parsing a file,
    and the cache keyed by canonical path that skips files whose stamp or content
    hash has not changed, with the theorem that what it returns is the parse of the
    file's present content. *)

From S2P Require Import Prelude Str AirflowText AirflowShield AirflowExtract AirflowMarkers.

Local Open Scope string_scope.
Local Open Scope Z_scope.

(** ** The system the crate runs on *)

(** [std::fs::Metadata], as the cache reads it: the modification time in
    nanoseconds from the Unix epoch, if the platform reports one, and the size. *)
Record Metadata : Type := mkMetadata { modified : option Z; len : Z }.

(** The file system at a moment: what [metadata], [read] and [canonicalize] give
    for a path; an error is its text. *)
Record Disk : Type := mkDisk {
  metadata : string -> Metadata + string;
  read : string -> string + string;
  canonicalize : string -> option string
}.

(** What a call gets from the host: whether each of the two parse threads can be
    started, the payloads of panics, and the clock. *)
Record Host : Type := mkHost {
  spawn_extract : option string;
  spawn_markers : option string;
  payload_of : Payload;
  now : Z
}.

Definition read_to_string (d : Disk) (path : string) : outcome ParseError string :=
  match read d path with
  | inl b => if utf8_valid b then Ok b else Err (Io path "stream did not contain valid UTF-8")
  | inr e => Err (Io path e)
  end.

(** ** The interface ([api.rs]) *)

Record ParseOutcome : Type := mkParseOutcome {
  o_dags : list ExtractedDag;
  o_dynamic_markers : list DynamicMarker;
  o_source_hash : Z;
  o_parsed_at : Z;
  o_source_path : option string
}.

(** [hash_source] of [cache.rs], on wrapping [u64]. *)
Definition u64_wrapping_mul (a b : Z) : Z := Z.modulo (a * b) 18446744073709551616.

Fixpoint hash_from (h : Z) (s : string) : Z :=
  match s with
  | "" => h
  | String b s => hash_from (u64_wrapping_mul (Z.lxor h (Z.of_N (code b))) 1099511628211) s
  end.

Definition hash_source (src : string) : Z := hash_from 14695981039346656037 src.

Section Api.
Context `{PyParser}.

Definition extract_with_default_backend (h : Host) (src : string) : outcome ParseError (list ExtractedDag) :=
  extract_all (spawn_extract h) (payload_of h) src.

Definition extract_static_dag (h : Host) (src : string) : outcome ParseError ExtractedDag :=
  ds ← extract_with_default_backend h src; Ok (default ExtractedDag_default (head ds)).

Definition extract_all_static_dags (h : Host) (src : string) : outcome ParseError (list ExtractedDag) :=
  extract_with_default_backend h src.

(** [detect_dynamic_markers(src).unwrap_or_default()]. *)
Definition dynamic_markers_for (h : Host) (src : string) : list DynamicMarker :=
  default [] (ok_of (detect_dynamic_markers (spawn_markers h) (payload_of h) src)).

Definition parse_dag_file (h : Host) (path source : string) (hash : Z) : outcome ParseError ParseOutcome :=
  ds ← extract_with_default_backend h source;
  Ok (mkParseOutcome ds (dynamic_markers_for h source) hash (now h) (Some path)).

Definition parse_dag_path (h : Host) (d : Disk) (path : string) : outcome ParseError ParseOutcome :=
  source ← read_to_string d path;
  parse_dag_file h path source (hash_source source).

(** ** The cache ([cache.rs]) *)

Record FileFingerprint : Type := mkFingerprint { mtime_ns : Z; size : Z }.

#[export] Instance FileFingerprint_eq_dec : EqDecision FileFingerprint.
Proof. solve_decision. Defined.

Definition from_metadata (m : Metadata) : FileFingerprint :=
  mkFingerprint (match modified m with Some t => if 0 <=? t then t else 0 | None => 0 end) (len m).

Record CacheEntry : Type := mkCacheEntry {
  e_source_hash : Z;
  e_fingerprint : FileFingerprint;
  e_outcome : ParseOutcome
}.

Definition ParseCache : Type := gmap string CacheEntry.

Definition ParseCache_new : ParseCache := ∅.

Definition cache_len (c : ParseCache) : nat := base.size c.

Definition cache_is_empty (c : ParseCache) : bool := bool_decide (c = ∅).

Definition canonicalise (d : Disk) (path : string) : string := default path (canonicalize d path).

Definition peek (c : ParseCache) (d : Disk) (path : string) : option ParseOutcome :=
  e_outcome <$> c !! canonicalise d path.

(** [if let Some(entry) = self.inner.get(&key) && test(entry)]. *)
Definition cached_if (test : CacheEntry -> bool) (key : string) (c : ParseCache) : option CacheEntry :=
  match c !! key with Some e => if test e then Some e else None | None => None end.

(** After the file has been read; [key] is the canonical path. *)
Definition parse_changed (h : Host) (key source : string) (fp : FileFingerprint) : stm ParseCache ParseError ParseOutcome :=
  c ← st_get;
  let hash := hash_source source in
  match cached_if (fun e => e_source_hash e =? hash) key c with
  | Some e =>
    st_modify (fun c : ParseCache => <[key := mkCacheEntry (e_source_hash e) fp (e_outcome e)]> c) ;;
    mret (e_outcome e)
  | None =>
    o ← st_lift (parse_dag_file h key source hash);
    st_modify (fun c : ParseCache => <[key := mkCacheEntry hash fp o]> c) ;;
    mret o
  end.

(** [d] is the file system when the file is looked up, [d'] when it is read. *)
Definition get_or_parse (h : Host) (d d' : Disk) (path : string) : stm ParseCache ParseError ParseOutcome :=
  let key := canonicalise d path in
  match metadata d key with
  | inr e => st_throw (Io key e)
  | inl meta =>
    let fp := from_metadata meta in
    c ← st_get;
    match cached_if (fun e => bool_decide (e_fingerprint e = fp)) key c with
    | Some e => mret (e_outcome e)
    | None =>
      source ← st_lift (read_to_string d' key);
      parse_changed h key source fp
    end
  end.

Definition invalidate (d : Disk) (path : string) (c : ParseCache) : ParseCache := delete (canonicalise d path) c.

Definition clear (c : ParseCache) : ParseCache := ∅.

(** One call on a shared cache. *)
Inductive call : Type :=
| CGet (h : Host) (d : Disk) (path : string)
| CInvalidate (d : Disk) (path : string)
| CClear.

Definition run_call (c : ParseCache) (x : call) : ParseCache :=
  match x with
  | CGet h d path => fst (get_or_parse h d d path c)
  | CInvalidate d path => invalidate d path c
  | CClear => clear c
  end.

Definition run_calls (xs : list call) : ParseCache := foldl run_call ParseCache_new xs.

End Api.

(** ** What the cache returns *)

Section Transparency.
Context `{PyParser}.

Lemma shield_ok {T} spawn payload src (f : outcome ParseError T) x :
  shield_parser_panic spawn payload src f = Ok x -> f = Ok x.
Proof. unfold shield_parser_panic. repeat case_match; try discriminate. exact id. Qed.

Lemma shield_total {T} spawn payload src (f : outcome ParseError T) : shield_parser_panic spawn payload src f <> Panic.
Proof. unfold shield_parser_panic. repeat case_match; discriminate. Qed.

(** [o] is a parse of the content [c] of the file [key]: its DAGs are those of the
    extraction; its markers are the detected ones, or none where the detection
    failed. *)
Record parsed_as (key c : string) (o : ParseOutcome) : Prop := {
  pa_dags : extract_all_inner c = Ok (o_dags o);
  pa_markers : o_dynamic_markers o = [] \/ detect_dynamic_markers_impl c = Ok (o_dynamic_markers o);
  pa_hash : o_source_hash o = hash_source c;
  pa_path : o_source_path o = Some key
}.

Lemma parse_dag_file_ok h key c o :
  parse_dag_file h key c (hash_source c) = Ok o -> parsed_as key c o.
Proof.
  unfold parse_dag_file, extract_with_default_backend, extract_all.
  destruct (shield_parser_panic _ _ _ _) as [ds|e|] eqn:E; try discriminate. intros [= <-].
  split; cbn; [exact (shield_ok _ _ _ _ _ E)| |reflexivity|reflexivity].
  unfold dynamic_markers_for, detect_dynamic_markers.
  destruct (shield_parser_panic (spawn_markers h) _ _ _) as [ms|e|] eqn:Em; [right|left; reflexivity|left; reflexivity].
  exact (shield_ok _ _ _ _ _ Em).
Qed.

Lemma parse_dag_file_total h key c n : parse_dag_file h key c n <> Panic.
Proof.
  unfold parse_dag_file, extract_with_default_backend, extract_all. apply bind_total; [apply shield_total|discriminate].
Qed.

(** The file [key] has the content [ver key fp] whenever its stamp is [fp]. *)
Context (ver : string -> FileFingerprint -> string).

Definition disk_ok (d : Disk) : Prop :=
  forall key m c, metadata d key = inl m -> read d key = inl c -> c = ver key (from_metadata m).

Definition call_ok (x : call) : Prop := match x with CGet _ d _ => disk_ok d | _ => True end.

Hypothesis hash_separates : forall key f f', hash_source (ver key f) = hash_source (ver key f') -> ver key f = ver key f'.

Definition entry_ok (key : string) (e : CacheEntry) : Prop :=
  e_source_hash e = hash_source (ver key (e_fingerprint e)) /\ parsed_as key (ver key (e_fingerprint e)) (e_outcome e).

Definition cache_ok (c : ParseCache) : Prop := map_Forall entry_ok c.

(** The entry of [key] is fresh for the stamp [fp]. *)
Definition serves (c : ParseCache) (key : string) (fp : FileFingerprint) (o : ParseOutcome) : Prop :=
  exists hash, c !! key = Some (mkCacheEntry hash fp o).

Lemma cached_if_some test key c e : cached_if test key c = Some e -> c !! key = Some e /\ test e = true.
Proof. unfold cached_if. destruct (c !! key) as [e'|]; [|discriminate]. destruct (test e') eqn:Et; [intros [= ->]; auto|discriminate]. Qed.

Lemma parse_changed_result h key source fp c :
  cache_ok c -> source = ver key fp ->
  match parse_changed h key source fp c with
  | (c', Ok o) => cache_ok c' /\ parsed_as key source o /\ serves c' key fp o
  | (c', Err _) => c' = c
  | (_, Panic) => False
  end.
Proof.
  intros Hc Hs. unfold parse_changed. run_st.
  destruct (cached_if (fun e => e_source_hash e =? hash_source source) key c) as [e|] eqn:E.
  - apply cached_if_some in E as [El He]. apply Z.eqb_eq in He. destruct (Hc key e El) as [Hh Hp].
    assert (Hv : ver key (e_fingerprint e) = source) by (rewrite Hs; apply hash_separates; congruence).
    rewrite Hv in Hp. split_and!; [|exact Hp|eexists; apply lookup_insert_eq].
    apply map_Forall_insert_2; [|exact Hc]. split; cbn; [congruence|]. rewrite <- Hs. exact Hp.
  - pose proof (parse_dag_file_total h key source (hash_source source)) as Ht.
    destruct (parse_dag_file h key source (hash_source source)) as [o|er|] eqn:Ep; [|reflexivity|contradiction].
    apply parse_dag_file_ok in Ep. split_and!; [|exact Ep|eexists; apply lookup_insert_eq].
    apply map_Forall_insert_2; [|exact Hc]. split; cbn; [congruence|]. rewrite <- Hs. exact Ep.
Qed.

Lemma get_or_parse_result h d path c :
  cache_ok c -> disk_ok d ->
  match get_or_parse h d d path c with
  | (c', Ok o) => cache_ok c' /\ (forall content, read d (canonicalise d path) = inl content -> parsed_as (canonicalise d path) content o) /\
      exists m, metadata d (canonicalise d path) = inl m /\ serves c' (canonicalise d path) (from_metadata m) o
  | (c', Err _) => c' = c
  | (_, Panic) => False
  end.
Proof.
  intros Hc Hd. unfold get_or_parse. set (key := canonicalise d path). destruct (metadata d key) as [m|er] eqn:Em; [|reflexivity].
  run_st. destruct (cached_if (fun e => bool_decide (e_fingerprint e = from_metadata m)) key c) as [e|] eqn:E.
  - apply cached_if_some in E as [El Hfp]. apply bool_decide_eq_true in Hfp. destruct (Hc key e El) as [_ Hp].
    split_and!; [exact Hc| |].
    + intros content Hr. rewrite (Hd key m content Em Hr), <- Hfp. exact Hp.
    + exists m. split; [reflexivity|]. exists (e_source_hash e). rewrite <- Hfp, El. destruct e; reflexivity.
  - unfold read_to_string. destruct (read d key) as [b|er] eqn:Er; [|reflexivity]. destruct (utf8_valid b); [|reflexivity].
    pose proof (parse_changed_result h key b (from_metadata m) c Hc (Hd key m b Em Er)) as Hr.
    destruct (parse_changed _ _ _ _ c) as [c' [o|?|]]; [|exact Hr|exact Hr]. destruct Hr as (H1 & H2 & H3).
    split_and!; [exact H1|intros content [= <-]; exact H2|exists m; auto].
Qed.

Lemma run_calls_ok xs c : Forall call_ok xs -> cache_ok c -> cache_ok (foldl run_call c xs).
Proof.
  intros Hxs. revert c. induction Hxs as [|x xs Hx _ IH]; intros c Hc; [exact Hc|]. cbn. apply IH.
  destruct x as [h d path|d path|]; cbn in *.
  - pose proof (get_or_parse_result h d path c Hc Hx) as Hr. destruct (get_or_parse h d d path c) as [c' [o|e|]]; cbn; [apply Hr|rewrite Hr; exact Hc|contradiction].
  - apply map_Forall_delete, Hc.
  - apply map_Forall_empty.
Qed.

(** A second lookup of a file with the same stamp does not read it. *)
Lemma serves_hit h d d' path c m o :
  metadata d (canonicalise d path) = inl m -> serves c (canonicalise d path) (from_metadata m) o ->
  get_or_parse h d d' path c = (c, Ok o).
Proof.
  intros Hm [hash Hl]. unfold get_or_parse. rewrite Hm. run_st. unfold cached_if. rewrite Hl. cbn [e_fingerprint].
  rewrite bool_decide_true by reflexivity. reflexivity.
Qed.

End Transparency.

(** C12: After any sequence of lookups, invalidations and clears, where a file's
    stamp (modification time and size) identifies its content and the content hash
    tells the versions of one file apart, a lookup never panics; when it succeeds
    its DAGs are those the extraction gives for the file's present content, with
    that content's hash, the canonical path, and the detected markers or none; the
    same lookup again returns the same outcome without reading the file; and a
    failed lookup leaves the cache as it was. *)
Theorem cache_returns_current_parse `{PyParser} (ver : string -> FileFingerprint -> string) (xs : list call)
    (h : Host) (d : Disk) (path : string) :
  (forall key f f', hash_source (ver key f) = hash_source (ver key f') -> ver key f = ver key f') ->
  Forall (call_ok ver) xs -> disk_ok ver d ->
  match get_or_parse h d d path (run_calls xs) with
  | (c', Ok o) =>
    (forall content, read d (canonicalise d path) = inl content -> parsed_as (canonicalise d path) content o) /\
    (forall h2 d2, get_or_parse h2 d d2 path c' = (c', Ok o))
  | (c', Err _) => c' = run_calls xs
  | (_, Panic) => False
  end.
Proof.
  intros Hsep Hxs Hd. assert (Hc : cache_ok ver (run_calls xs))
    by (apply run_calls_ok; [exact Hsep|exact Hxs|apply map_Forall_empty]).
  pose proof (get_or_parse_result ver Hsep h d path _ Hc Hd) as Hr.
  destruct (get_or_parse h d d path (run_calls xs)) as [c' [o|e|]]; [|exact Hr|exact Hr].
  destruct Hr as (_ & Hp & m & Hm & Hs). split; [exact Hp|]. intros h2 d2. eapply serves_hit; eassumption.
Qed.

(** ** Concrete runs *)

(** A parser that finds no statement in any source, or one call that is marked. *)
Definition marked_parser : PyParser := {|
  lex _ := [];
  parse_module src :=
    if String.eqb src "" then Parsed []
    else Parsed [ExprStmt (Call (mkTextRange 0 1) (Name (mkTextRange 0 1) "f") []
           [(Some "task_id", FString (mkTextRange 0 1) [PartLiteral src])])]
|}.

(** A disk with the one file [/d/a.py], reached as [a.py]. *)
Definition one_file (mtime : Z) (content : string) : Disk := {|
  metadata p := if String.eqb p "/d/a.py" then inl (mkMetadata (Some mtime) (str_len content)) else inr "not found";
  read p := if String.eqb p "/d/a.py" then inl content else inr "not found";
  canonicalize p := if contains ["a.py"; "/d/a.py"] p then Some "/d/a.py" else None
|}.

Definition no_file : Disk := {| metadata _ := inr "not found"; read _ := inr "not found"; canonicalize _ := None |}.

Definition host (n : Z) : Host := mkHost None None OtherPayload n.

(** The content of the file at time 1 is [x], later [y]. *)
Definition versions (key : string) (fp : FileFingerprint) : string := if mtime_ns fp =? 1 then "x" else "y".

Lemma versions_separated key f f' :
  hash_source (versions key f) = hash_source (versions key f') -> versions key f = versions key f'.
Proof. unfold versions. destruct (mtime_ns f =? 1), (mtime_ns f' =? 1); try reflexivity; vm_compute; discriminate. Qed.

Lemma one_file_ok t c : (if t =? 1 then "x" else "y") = c -> 0 <= t -> disk_ok versions (one_file t c).
Proof.
  intros <- Ht key m content. unfold one_file. cbn. destruct (String.eqb key "/d/a.py"); [|discriminate].
  intros [= <-] [= <-]. unfold versions, from_metadata. cbn. destruct (Z.leb_spec 0 t); [reflexivity|lia].
Qed.

Lemma cache_returns_current_parse_witness :
  match @get_or_parse marked_parser (host 5) (one_file 2 "y") (one_file 2 "y") "a.py"
          (@run_calls marked_parser [CGet (host 3) (one_file 1 "x") "a.py"]) with
  | (_, Ok o) => @parsed_as marked_parser "/d/a.py" "y" o
  | _ => False
  end.
Proof.
  assert (Hx : Forall (call_ok versions) [CGet (host 3) (one_file 1 "x") "a.py"])
    by (apply Forall_singleton, one_file_ok; [reflexivity|lia]).
  assert (Hy : disk_ok versions (one_file 2 "y")) by (apply one_file_ok; [reflexivity|lia]).
  pose proof (@cache_returns_current_parse marked_parser versions [CGet (host 3) (one_file 1 "x") "a.py"]
    (host 5) (one_file 2 "y") "a.py" versions_separated Hx Hy) as T.
  destruct (get_or_parse _ _ _ _ _) as [c' [o|e|]] eqn:E; [|vm_compute in E; discriminate|exact T].
  apply (proj1 T). reflexivity.
Defined.

(** The markers of an outcome, by the text of the f-string. *)
Definition marker_texts (r : ParseCache * outcome ParseError ParseOutcome) : list string :=
  match snd r with
  | Ok o => omap (fun m => match m with FStringTaskId _ _ t => Some t | _ => None end) (o_dynamic_markers o)
  | _ => []
  end.

(** Content rewritten with the same size within the resolution of the clock is
    not seen. *)
Lemma same_stamp_is_stale :
  let c := @run_calls marked_parser [CGet (host 1) (one_file 1 "x") "a.py"] in
  marker_texts (@get_or_parse marked_parser (host 2) (one_file 1 "y") (one_file 1 "y") "a.py" c) = ["x"].
Proof. vm_compute. reflexivity. Qed.

(** A file that is gone has no canonical path, so its entry is not found. *)
Lemma invalidate_after_delete_keeps_entry :
  let c := @run_calls marked_parser [CGet (host 1) (one_file 1 "x") "a.py"] in
  cache_len (invalidate no_file "a.py" c) = 1%nat /\ cache_len (invalidate (one_file 1 "x") "a.py" c) = 0%nat.
Proof. split; vm_compute; reflexivity. Qed.

(** A marker thread that cannot be started gives an outcome without markers, which
    is kept until the file changes. *)
Lemma failed_marker_thread_is_cached :
  let h := mkHost None (Some "no threads") OtherPayload 1 in
  let c := @run_calls marked_parser [CGet h (one_file 1 "x") "a.py"] in
  marker_texts (@get_or_parse marked_parser (host 2) (one_file 1 "x") (one_file 1 "x") "a.py" c) = [] /\
  marker_texts (@get_or_parse marked_parser (host 2) (one_file 1 "x") (one_file 1 "x") "a.py" ParseCache_new) = ["x"].
Proof. split; vm_compute; reflexivity. Qed.
