(* ===== verification/AirflowCodec.v ===== *)
(** * The JSON form of the DAG parser's results

    The derived [Serialize] and [Deserialize] of
    [crates/ferro-airflow-dag-parser/src/common.rs], [dynamic_markers.rs] and
    [api.rs]: identifiers as bare strings, structs with every field written,
    markers tagged by their variant's name. What the extraction returns survives
    printing and reading; the reader of an identifier does not validate it. *)

From S2P Require Import Prelude Str Json AirflowText AirflowShield AirflowExtract AirflowMarkers AirflowChains AirflowCache.

Local Open Scope string_scope.
Local Open Scope Z_scope.

(** ** The text of an instant *)

(** [DateTime<Utc>] through [chrono]'s RFC 3339 form; an instant is the number of
    nanoseconds from the epoch. *)
Class UtcText := { utc_write : Z -> string; utc_read : string -> option Z }.

(** The last instant of the year 9999. *)
Definition UTC_MAX : Z := 253402300799999999999.

(** Instants of the years 1970 to 9999 are read back as they were written. *)
Class UtcTextLaws (U : UtcText) := {
  utc_roundtrip : forall t, 0 <= t <= UTC_MAX -> utc_read (utc_write t) = Some t
}.

(** ** Shapes the derived code shares *)

Definition ser_option {A} (f : A -> Value) (o : option A) : Value := match o with Some a => f a | None => JNull end.

(** A tuple of two. *)
Definition ser_pair {A B} (f : A -> Value) (g : B -> Value) (x : A * B) : Value := JArray [f (fst x); g (snd x)].
Definition de_pair {A B} (d : de A) (e : de B) : de (A * B) := fun v =>
  match v with JArray [a; b] => x ← d a; y ← e b; Some (x, y) | _ => None end.

(** The slots of a struct none of whose fields has a default: as an array it has
    them all, and only as an object may an optional one be missing. *)
Definition de_fields (names : list string) (v : Value) : option (list (option Value)) :=
  match v with
  | JArray l => if (length l =? length names)%nat then Some (map Some l) else None
  | _ => de_slots names v
  end.

(** The tag of an internally tagged enum and what is left of the document: the one
    field of that name, or the first element of an array. *)
Definition de_tagged (tag : string) (v : Value) : option (string * Value) :=
  match v with
  | JObject fs =>
    match List.filter (fun f => bool_decide (fst f = tag)) fs with
    | [(_, JString t)] => Some (t, JObject (List.filter (fun f => negb (bool_decide (fst f = tag))) fs))
    | _ => None
    end
  | JArray (JString t :: l) => Some (t, JArray l)
  | _ => None
  end.

(** ** Identifiers and DAGs ([common.rs]) *)

Definition ser_DagId (i : DagId) : Value := JString (dag_str i).
Definition ser_TaskId (i : TaskId) : Value := JString (task_str i).

(** [#[serde(transparent)]]: any string. *)
Definition de_DagId : de DagId := fun v => mkDagId <$> de_string v.
Definition de_TaskId : de TaskId := fun v => mkTaskId <$> de_string v.

Definition de_u32 : de Z := de_uint U32_MAX.

Definition ser_SourceSpan (s : SourceSpan) : Value :=
  JObject [("start_line", ser_u64 (start_line s)); ("end_line", ser_u64 (end_line s))].

Definition de_SourceSpan : de SourceSpan := fun v =>
  match de_fields ["start_line"; "end_line"] v with
  | Some [a; b] => a ← de_field de_u32 None a; b ← de_field de_u32 None b; Some (mkSourceSpan a b)
  | _ => None
  end.

Definition ser_ExtractedDag (d : ExtractedDag) : Value :=
  JObject [("dag_id", ser_option ser_DagId (dag_id d)); ("task_ids", ser_vec ser_TaskId (task_ids d));
           ("schedule", ser_option JString (schedule d)); ("has_default_args", JBool (has_default_args d));
           ("deps_edges", ser_vec (ser_pair ser_TaskId ser_TaskId) (deps_edges d));
           ("source_span", ser_option ser_SourceSpan (source_span d))].

Definition de_ExtractedDag : de ExtractedDag := fun v =>
  match de_fields ["dag_id"; "task_ids"; "schedule"; "has_default_args"; "deps_edges"; "source_span"] v with
  | Some [i; ts; sch; args; es; sp] =>
    i ← de_field (de_option de_DagId) (Some None) i;
    ts ← de_field (de_vec de_TaskId) None ts;
    sch ← de_field (de_option de_string) (Some None) sch;
    args ← de_field de_bool None args;
    es ← de_field (de_vec (de_pair de_TaskId de_TaskId)) None es;
    sp ← de_field (de_option de_SourceSpan) (Some None) sp;
    Some (mkExtractedDag i ts sch args es sp)
  | _ => None
  end.

(** ** Markers ([dynamic_markers.rs]) *)

Definition ser_marker (variant : string) (line col : Z) (rest : list (string * Value)) : Value :=
  JObject ([("kind", JString variant); ("line", ser_u64 line); ("col", ser_u64 col)] ++ rest)%list.

Definition ser_DynamicMarker (m : DynamicMarker) : Value :=
  match m with
  | PathStemDagId l c => ser_marker "PathStemDagId" l c []
  | ChainSplat l c => ser_marker "ChainSplat" l c []
  | FStringTaskId l c s => ser_marker "FStringTaskId" l c [("source", JString s)]
  | DynamicScheduleExpr l c => ser_marker "DynamicScheduleExpr" l c []
  | UnsupportedTaskFlow l c => ser_marker "UnsupportedTaskFlow" l c []
  | ImportTimeBranching l c => ser_marker "ImportTimeBranching" l c []
  | ForLoopTaskGeneration l c => ser_marker "ForLoopTaskGeneration" l c []
  end.

Definition de_line_col (f : Z -> Z -> DynamicMarker) : de DynamicMarker := fun v =>
  match de_fields ["line"; "col"] v with
  | Some [l; c] => l ← de_field de_u32 None l; c ← de_field de_u32 None c; Some (f l c)
  | _ => None
  end.

Definition de_fstring : de DynamicMarker := fun v =>
  match de_fields ["line"; "col"; "source"] v with
  | Some [l; c; s] =>
    l ← de_field de_u32 None l; c ← de_field de_u32 None c; s ← de_field de_string None s; Some (FStringTaskId l c s)
  | _ => None
  end.

Definition de_DynamicMarker : de DynamicMarker := fun v =>
  '(variant, content) ← de_tagged "kind" v;
  d ← snd <$> find (fun a => String.eqb (fst a) variant)
    [("PathStemDagId", de_line_col PathStemDagId); ("ChainSplat", de_line_col ChainSplat); ("FStringTaskId", de_fstring);
     ("DynamicScheduleExpr", de_line_col DynamicScheduleExpr); ("UnsupportedTaskFlow", de_line_col UnsupportedTaskFlow);
     ("ImportTimeBranching", de_line_col ImportTimeBranching); ("ForLoopTaskGeneration", de_line_col ForLoopTaskGeneration)];
  d content.

(** ** Outcomes ([api.rs]) *)

Section Outcomes.
Context `{U : UtcText}.

Definition ser_ParseOutcome (o : ParseOutcome) : Value :=
  JObject [("dags", ser_vec ser_ExtractedDag (o_dags o)); ("dynamic_markers", ser_vec ser_DynamicMarker (o_dynamic_markers o));
           ("source_hash", ser_u64 (o_source_hash o)); ("parsed_at", JString (utc_write (o_parsed_at o)));
           ("source_path", ser_option JString (o_source_path o))].

Definition de_utc : de Z := fun v => de_string v ≫= utc_read.

Definition de_ParseOutcome : de ParseOutcome := fun v =>
  match de_fields ["dags"; "dynamic_markers"; "source_hash"; "parsed_at"; "source_path"] v with
  | Some [ds; ms; h; t; p] =>
    ds ← de_field (de_vec de_ExtractedDag) None ds;
    ms ← de_field (de_vec de_DynamicMarker) None ms;
    h ← de_field (de_uint U64_MAX) None h;
    t ← de_field de_utc None t;
    p ← de_field (de_option de_string) (Some None) p;
    Some (mkParseOutcome ds ms h t p)
  | _ => None
  end.

End Outcomes.

(** ** Well-formed results: the machine integers are in range *)

Definition span_wf (s : SourceSpan) : Prop := is_u32 (start_line s) /\ is_u32 (end_line s).
Definition dag_wf (d : ExtractedDag) : Prop := forall s, source_span d = Some s -> span_wf s.

Definition marker_wf (m : DynamicMarker) : Prop :=
  match m with
  | PathStemDagId l c | ChainSplat l c | FStringTaskId l c _ | DynamicScheduleExpr l c | UnsupportedTaskFlow l c
  | ImportTimeBranching l c | ForLoopTaskGeneration l c => is_u32 l /\ is_u32 c
  end.

Record outcome_wf (o : ParseOutcome) : Prop := {
  wf_dags : Forall dag_wf (o_dags o);
  wf_markers : Forall marker_wf (o_dynamic_markers o);
  wf_hash : is_u64 (o_source_hash o);
  wf_time : 0 <= o_parsed_at o <= UTC_MAX
}.

(** ** Lemmas: reading what was written *)

Lemma de_u32_ser n : is_u32 n -> de_u32 (ser_u64 n) = Some n.
Proof. intros Hn. apply de_uint_ser; unfold is_u32, is_u64, U32_MAX, U64_MAX in *; lia. Qed.

Lemma de_ser_TaskIds l : de_vec de_TaskId (ser_vec ser_TaskId l) = Some l.
Proof. apply de_vec_ser, Forall_true. intros []. reflexivity. Qed.

Lemma de_ser_edges l : de_vec (de_pair de_TaskId de_TaskId) (ser_vec (ser_pair ser_TaskId ser_TaskId) l) = Some l.
Proof. apply de_vec_ser, Forall_true. intros [[] []]. reflexivity. Qed.

(** As [de_struct], for these readers. *)
Ltac de_all_fields :=
  match goal with |- context [de_fields ?n ?v] =>
    let r := eval vm_compute in (de_fields n v) in
    replace (de_fields n v) with r by (vm_compute; reflexivity) end;
  cbv [mbind option_bind de_field].

Lemma de_ser_SourceSpan s : span_wf s -> de_SourceSpan (ser_SourceSpan s) = Some s.
Proof.
  destruct s as [a b]. intros [Ha%de_u32_ser Hb%de_u32_ser]. unfold de_SourceSpan, ser_SourceSpan. cbn [start_line end_line] in *.
  revert Ha Hb. generalize (ser_u64 a) (ser_u64 b). intros va vb Ha Hb. de_all_fields. rewrite Ha, Hb. reflexivity.
Qed.

Lemma de_ser_ExtractedDag d : dag_wf d -> de_ExtractedDag (ser_ExtractedDag d) = Some d.
Proof.
  destruct d as [i ts sch args es sp]. intros Hwf. unfold de_ExtractedDag, ser_ExtractedDag.
  cbn [dag_id task_ids schedule has_default_args deps_edges source_span].
  assert (Hi : de_option de_DagId (ser_option ser_DagId i) = Some i) by (destruct i as [[]|]; reflexivity).
  assert (Hs : de_option de_string (ser_option JString sch) = Some sch) by (destruct sch; reflexivity).
  assert (Hp : de_option de_SourceSpan (ser_option ser_SourceSpan sp) = Some sp).
  { destruct sp as [s|]; [|reflexivity]. apply de_option_some; [discriminate|]. apply de_ser_SourceSpan, Hwf. reflexivity. }
  generalize (de_ser_TaskIds ts), (de_ser_edges es). revert Hi Hs Hp.
  generalize (ser_option ser_DagId i) (ser_option JString sch) (ser_option ser_SourceSpan sp) (ser_vec ser_TaskId ts)
    (ser_vec (ser_pair ser_TaskId ser_TaskId) es).
  intros vi vs vp vt ve Hi Hs Hp Ht He. de_all_fields. rewrite Hi, Ht, Hs, He, Hp. reflexivity.
Qed.

Lemma de_ser_DynamicMarker m : marker_wf m -> de_DynamicMarker (ser_DynamicMarker m) = Some m.
Proof.
  intros Hwf. destruct m as [l c|l c|l c s|l c|l c|l c|l c]; destruct Hwf as [Hl%de_u32_ser Hc%de_u32_ser];
    unfold de_DynamicMarker, ser_DynamicMarker, ser_marker; revert Hl Hc; generalize (ser_u64 l) (ser_u64 c);
    intros vl vc Hl Hc;
    match goal with |- context [de_tagged ?t ?v] => let r := eval vm_compute in (de_tagged t v) in
      replace (de_tagged t v) with r by (vm_compute; reflexivity) end;
    cbn [mbind option_bind find fst snd String.eqb Ascii.eqb Bool.eqb fmap option_fmap option_map]; unfold de_line_col, de_fstring;
    de_all_fields; rewrite Hl, Hc; reflexivity.
Qed.

(** ** Lemmas: the results of the crate are well-formed *)

Lemma u32_add_range {E} a b n : 0 <= a -> 0 <= b -> u32_add (E := E) a b = Ok n -> is_u32 n.
Proof. intros Ha Hb. unfold u32_add, is_u32. destruct (Z.leb_spec (a + b) U32_MAX); [intros [= <-]; lia|discriminate]. Qed.

(** Whatever the index and the offset, a place is two [u32]. *)
Lemma line_col_range {E} li offset l c : line_col (E := E) li offset = Ok (l, c) -> is_u32 l /\ is_u32 c.
Proof.
  unfold line_col. destruct (expect _) as [start| |]; cbn; try discriminate.
  destruct (u32_add (Z.max _ _) 1) as [c'| |] eqn:Ec; cbn; try discriminate.
  destruct (u32_add (u32_or_max _) 1) as [l'| |] eqn:El; cbn; try discriminate. intros [= <- <-].
  split; [refine (u32_add_range _ _ _ _ _ El)|refine (u32_add_range _ _ _ _ _ Ec)]; try lia.
  unfold u32_or_max, u32_try_from, U32_MAX. destruct (Z.leb_spec (Z.of_nat (match binary_search (line_starts li) (Z.min offset (total_len li)) with inl i => i | inr i => Nat.pred i end)) 4294967295); cbn; lia.
Qed.

Definition markers_wf (v : MarkerVisitor) : Prop := Forall marker_wf (markers v).

Lemma st_keeps_for {S E A} (P : S -> Prop) (f : A -> stm S E unit) l :
  Forall (fun x => st_keeps P (f x)) l -> st_keeps P (st_for f l).
Proof. induction 1 as [|x l Hx _ IH]; [apply st_keeps_ret|]. apply st_keeps_bind; [exact Hx|intros _; exact IH]. Qed.

Section Visited.
Context (li : LineIndex).

Lemma keeps_push_at r m : (forall l c, is_u32 l -> is_u32 c -> marker_wf (m l c)) -> st_keeps markers_wf (push_at li r m).
Proof.
  intros Hm v Hv. unfold push_at. run_st. destruct (line_col li _) as [[l c]| |] eqn:E; try exact Hv.
  apply line_col_range in E as [Hl Hc]. apply Forall_app_2; [exact Hv|]. constructor; [exact (Hm l c Hl Hc)|constructor].
Qed.

Lemma keeps_ctx_inc : st_keeps markers_wf ctx_inc.
Proof. intros v Hv. unfold ctx_inc. destruct (_ <? _); exact Hv. Qed.

Lemma keeps_ctx_dec : st_keeps markers_wf ctx_dec.
Proof. intros v Hv. unfold ctx_dec. destruct (_ <? _); exact Hv. Qed.

Lemma keeps_in_ctx : st_keeps markers_wf in_ctx.
Proof. intros v Hv. exact Hv. Qed.

End Visited.

Create HintDb markers.
#[local] Hint Resolve keeps_push_at keeps_ctx_inc keeps_ctx_dec keeps_in_ctx st_keeps_ret : markers.

(** The glue between calls of the visitor. *)
Ltac keeps :=
  repeat match goal with
  | |- st_keeps _ (mbind _ _) => apply st_keeps_bind; [|intros ?]
  | |- st_keeps _ (if ?b then _ else _) => destruct b
  | |- st_keeps _ (match ?x with _ => _ end) => destruct x
  | |- st_keeps _ (st_for _ _) => apply st_keeps_for, Forall_forall; intros ? _
  | |- st_keeps _ (push_at _ _ _) => apply keeps_push_at; intros; cbn; auto
  | _ => progress auto with markers
  end.

Section Visits.
Context (li : LineIndex).

Lemma keeps_visit_expr e : st_keeps markers_wf (visit_expr li e).
Proof.
  induction e using Expr_ind; cbn [visit_expr]; try apply st_keeps_ret.
  unfold visit_call_head, fstring_keyword. apply st_keeps_bind; [keeps|intros _].
  apply st_keeps_bind; [apply st_keeps_for; assumption|intros _; apply st_keeps_for; assumption].
Qed.

#[local] Hint Resolve keeps_visit_expr : markers.

Lemma keeps_enter_with items b : st_keeps markers_wf (enter_with li items b).
Proof.
  revert b. induction items as [|e items IH]; intros b; [apply st_keeps_ret|].
  destruct e; cbn [enter_with]; try apply IH. unfold scan_dag_kwargs, scan_dag_keyword, visit_call_args. keeps; apply IH.
Qed.

#[local] Hint Resolve keeps_enter_with : markers.

Lemma keeps_visit_stmt s : st_keeps markers_wf (visit_stmt li s).
Proof.
  assert (Hfor : forall body, Forall (fun s => st_keeps markers_wf (visit_stmt li s)) body -> st_keeps markers_wf (st_for (visit_stmt li) body))
    by (intros body; apply st_keeps_for).
  induction s using Stmt_ind; cbn [visit_stmt]; unfold visit_decorator_list, visit_decorator, flag_branching_in_body,
    flag_branching_item, flag_for_loop_body, flag_for_stmt;
    repeat match goal with
    | |- st_keeps _ (st_for (visit_stmt li) _) => apply Hfor; assumption
    | |- st_keeps _ (st_for (fun c => st_for (visit_stmt li) c) _) => apply st_keeps_for; eapply Forall_impl; [eassumption|exact Hfor]
    | |- st_keeps _ (mbind _ _) => apply st_keeps_bind; [|intros ?]
    end; keeps.
Qed.

End Visits.

Lemma detected_wf `{PyParser} src ms : detect_dynamic_markers_impl src = Ok ms -> Forall marker_wf ms.
Proof.
  unfold detect_dynamic_markers_impl. destruct (parse_module_safely src) as [body| |]; cbn; try discriminate.
  pose proof (st_keeps_for markers_wf (visit_stmt (LineIndex_new src)) body
    (proj2 (Forall_forall _ _) (fun s _ => keeps_visit_stmt _ s)) (mkVisitor [] 0) (Forall_nil_2 _)) as Hv.
  unfold visit_stmts. destruct (st_for _ _ _) as [v [[]| |]]; try discriminate. intros [= <-]. exact Hv.
Qed.

Lemma line_count_le src : line_count src <= str_len src + 1.
Proof. unfold line_count, zlen. cbn. pose proof (length_starts_from 0 src) as Hn. unfold zlen in Hn. lia. Qed.

Lemma dag_ok_wf src d : str_len src < U32_MAX -> dag_ok src d -> dag_wf d.
Proof.
  intros Hlen Hd s Hs. destruct (ok_span src d Hd s Hs) as [H1 H2]. pose proof (line_count_le src). unfold span_wf, is_u32. lia.
Qed.

Lemma hash_from_u64 s h : is_u64 h -> is_u64 (hash_from h s).
Proof.
  revert h. induction s as [|b s IH]; intros h Hh; cbn; [exact Hh|]. apply IH. unfold u64_wrapping_mul, is_u64, U64_MAX.
  pose proof (Z.mod_pos_bound (Z.lxor h (Z.of_N (code b)) * 1099511628211) 18446744073709551616 ltac:(lia)). lia.
Qed.

(** What parsing a file returns is well-formed. *)
Lemma parsed_wf `{PyParser} h path src o :
  str_len src < U32_MAX -> 0 <= now h <= UTC_MAX -> parse_dag_file h path src (hash_source src) = Ok o -> outcome_wf o.
Proof.
  intros Hlen Hnow Ho. pose proof (parse_dag_file_ok h path src o Ho) as [Hd Hm Hh _]. split.
  - eapply Forall_impl; [exact (proj1 (proj2 (inner_result src Hlen) _ Hd))|]. intros d. apply dag_ok_wf, Hlen.
  - destruct Hm as [->|Hm]; [constructor|exact (detected_wf src _ Hm)].
  - rewrite Hh. apply hash_from_u64. vm_compute. split; discriminate.
  - revert Ho. unfold parse_dag_file. destruct (extract_with_default_backend h src); cbn; try discriminate. intros [= <-]. exact Hnow.
Qed.

(** ** Printing and reading *)

Lemma printable_TaskIds n l : printable (S (S n)) (ser_vec ser_TaskId l) = true.
Proof. apply printable_vec, Forall_true. reflexivity. Qed.

Lemma printable_option {A} n (f : A -> Value) o :
  (forall a, o = Some a -> printable (S n) (f a) = true) -> printable (S n) (ser_option f o) = true.
Proof. destruct o; cbn [ser_option]; intros Ho; [apply Ho|]; reflexivity. Qed.

Lemma u32_u64 n : is_u32 n -> is_u64 n.
Proof. unfold is_u32, is_u64, U32_MAX, U64_MAX. lia. Qed.

Lemma printable_dag n d : dag_wf d -> printable (S (S (S (S n)))) (ser_ExtractedDag d) = true.
Proof.
  intros Hd. apply printable_object. repeat apply List.Forall_cons; cbn [snd]; try apply List.Forall_nil; try reflexivity.
  - apply printable_option. reflexivity.
  - apply printable_TaskIds.
  - apply printable_option. reflexivity.
  - apply printable_vec, Forall_true. reflexivity.
  - apply printable_option. intros s [Ha%u32_u64 Hb%u32_u64]%Hd. apply printable_object.
    repeat apply List.Forall_cons; cbn [snd]; try apply List.Forall_nil; apply printable_u64; assumption.
Qed.

Lemma printable_marker n m : marker_wf m -> printable (S (S n)) (ser_DynamicMarker m) = true.
Proof.
  intros Hm. destruct m; destruct Hm as [Hl%u32_u64 Hc%u32_u64]; apply printable_object;
    repeat apply List.Forall_cons; cbn [snd]; try apply List.Forall_nil; try reflexivity; apply printable_u64; assumption.
Qed.

Section Roundtrip.
Context `{U : UtcText} {UL : UtcTextLaws U}.

Lemma de_ser_ParseOutcome o : outcome_wf o -> de_ParseOutcome (ser_ParseOutcome o) = Some o.
Proof using UL.
  destruct o as [ds ms h t p]. intros [Hd Hm Hh Ht]. cbn in Hd, Hm, Hh, Ht. unfold de_ParseOutcome, ser_ParseOutcome.
  cbn [o_dags o_dynamic_markers o_source_hash o_parsed_at o_source_path].
  assert (Vd : de_vec de_ExtractedDag (ser_vec ser_ExtractedDag ds) = Some ds)
    by (apply de_vec_ser; eapply Forall_impl; [exact Hd|apply de_ser_ExtractedDag]).
  assert (Vm : de_vec de_DynamicMarker (ser_vec ser_DynamicMarker ms) = Some ms)
    by (apply de_vec_ser; eapply Forall_impl; [exact Hm|apply de_ser_DynamicMarker]).
  assert (Vh : de_uint U64_MAX (ser_u64 h) = Some h) by (apply de_uint_ser; unfold is_u64 in *; tauto || lia).
  assert (Vt : de_utc (JString (utc_write t)) = Some t) by exact (utc_roundtrip t Ht).
  assert (Vp : de_option de_string (ser_option JString p) = Some p) by (destruct p; reflexivity).
  revert Vd Vm Vh Vt Vp. generalize (ser_vec ser_ExtractedDag ds) (ser_vec ser_DynamicMarker ms) (ser_u64 h) (JString (utc_write t))
    (ser_option JString p). intros vd vm vh vt vp Vd Vm Vh Vt Vp. de_all_fields. rewrite Vd, Vm, Vh, Vt, Vp. reflexivity.
Qed.

Lemma printable_outcome o : outcome_wf o -> printable JSON_DEPTH (ser_ParseOutcome o) = true.
Proof using.
  intros [Hd Hm Hh _]. apply printable_object. repeat apply List.Forall_cons; cbn [snd]; try apply List.Forall_nil; try reflexivity.
  - apply printable_vec. eapply Forall_impl; [exact Hd|]. intros d. apply printable_dag.
  - apply printable_vec. eapply Forall_impl; [exact Hm|]. intros m. apply printable_marker.
  - apply printable_u64, Hh.
  - apply printable_option. reflexivity.
Qed.

(** A result survives being stored as JSON. What parsing a file of less than
    4 GiB returns (its DAGs, markers, hash, instant and path) is printed, and the
    text is read back as the very same value. *)
Theorem parsed_outcome_roundtrips `{PyParser} `{J : JsonText} {JL : JsonTextLaws J} (h : Host) (d : Disk) (path : string)
    (o : ParseOutcome) (Hnow : 0 <= now h <= UTC_MAX)
    (Hlen : forall src, read_to_string d path = Ok src -> str_len src < U32_MAX)
    (Hparse : parse_dag_path h d path = Ok o) :
  exists text, json_write (ser_ParseOutcome o) = Some text /\
    json_read (bytes_of_string text) ≫= de_ParseOutcome = Some o.
Proof using UL.
  unfold parse_dag_path in Hparse. destruct (read_to_string d path) as [src| |]; try discriminate.
  pose proof (parsed_wf h path src o (Hlen src eq_refl) Hnow Hparse) as Hwf.
  destruct (json_write_ok _ (printable_outcome o Hwf)) as (text & Hw & Hr). exists text. split; [exact Hw|].
  rewrite Hr. exact (de_ser_ParseOutcome o Hwf).
Qed.

End Roundtrip.

(** The derived reader accepts an identifier that the constructor refuses. *)
Lemma read_identifier_unchecked :
  de_DagId (JString "has space") = Some (mkDagId "has space") /\
  DagId_new "has space" = Err (InvalidCharacter "dag_id" " ").
Proof. split; vm_compute; reflexivity. Qed.

(** Instants through their countable encoding. *)
#[export] Instance bits_utc : UtcText := {
  utc_write t := bit_text (encode t);
  utc_read s := p ← text_bits s; decode p
}.

#[export] Instance bits_utc_laws : UtcTextLaws bits_utc.
Proof. split. intros t _. cbn. rewrite text_bits_text. apply decode_encode. Qed.

Definition sample_outcome : outcome ParseError ParseOutcome := @parse_dag_path marked_parser (host 3) (one_file 1 "x") "/d/a.py".

Lemma parsed_outcome_roundtrips_witness : exists o, sample_outcome = Ok o /\
  exists text, json_write (ser_ParseOutcome o) = Some text /\ json_read (bytes_of_string text) ≫= de_ParseOutcome = Some o.
Proof.
  assert (Ho : exists o, sample_outcome = Ok o) by (eexists; vm_compute; reflexivity). destruct Ho as [o Ho]. exists o. split; [exact Ho|].
  apply (@parsed_outcome_roundtrips _ _ marked_parser _ _ (host 3) (one_file 1 "x") "/d/a.py" o); [cbn; unfold UTC_MAX; lia| |exact Ho].
  intros src Hs. vm_compute in Hs. injection Hs as <-. reflexivity.
Defined.
