(* ===== verification/Tls.v ===== *)
(** * TLS configuration of the Lumberjack client and server

    [crates/ferro-lumberjack/src/tls.rs]: the two builders, which read PEM files
    and end in a rustls configuration, and the verifier that accepts every
    certificate. rustls and webpki-roots are an interface, [Rustls]: decoding PEM
    blocks, turning a certificate into a trust anchor, the bundled anchors, and
    checking a server's chain and key. The theorems say that the trust a client
    ends with is what was asked for: the bundled anchors when no certificate was
    supplied, exactly the supplied ones otherwise, and no verification only
    after the call that disables it. *)

From S2P Require Import Prelude Str Frame Net Fs.

Local Open Scope string_scope.

Class Rustls := {
  CertificateDer : Type;
  PrivateKeyDer : Type;
  TrustAnchor : Type;
  SignatureScheme : Type;
  ServerConfig : Type;
  (** [CertificateDer::pem_slice_iter]: a certificate or an error per block. *)
  pem_slice_iter : bytes -> list (outcome string CertificateDer);
  (** [PrivateKeyDer::from_pem_slice]. *)
  from_pem_slice : bytes -> outcome string PrivateKeyDer;
  (** [RootCertStore::add]. *)
  trust_anchor : CertificateDer -> outcome string TrustAnchor;
  TLS_SERVER_ROOTS : list TrustAnchor;
  supported_schemes : list SignatureScheme;
  (** [ServerConfig::builder().with_no_client_auth().with_single_cert(..)]. *)
  with_single_cert : list CertificateDer -> PrivateKeyDer -> outcome string ServerConfig;
  (** The verifier over a root store. *)
  webpki_verify : list TrustAnchor -> CertificateDer -> list CertificateDer -> string -> outcome string unit;
  (** Whether a handshake signature by a certificate's key is good. *)
  verify_signature : bytes -> CertificateDer -> bytes -> outcome string unit
}.

Section Tls.
Context `{R : Rustls}.

(** [collect::<Result<Vec<_>, _>>()]: up to the first error. *)
Fixpoint collect {A} (l : list (outcome string A)) : outcome string (list A) :=
  match l with
  | [] => Ok []
  | r :: l => a ← r; rest ← collect l; Ok (a :: rest)
  end.

(** [Path::display] of an absolute path. *)
Definition display (p : path) : string := "/" ++ join "/"%char p.

(** [std::fs::read] with the error as a message. *)
Definition read_pem (what : string) (p : path) : stm Fs ProtocolError bytes := fun s =>
  let '(s, r) := Fs.read p s in (s, map_err (fun e => Tls (what ++ display p ++ ": " ++ io_msg e)) r).

(** ** The client *)

(** The certificate verifier of a [ClientConfig]; there is no client
    authentication in either case. *)
Inductive Verifier :=
| AcceptAnyVerifier (supported : list SignatureScheme)
| WebPkiVerifier (roots : list TrustAnchor).

Record TlsConfig := mkTlsConfig { verifier : Verifier }.

Record TlsConfigBuilder := mkTlsConfigBuilder {
  custom_roots : list CertificateDer;
  insecure_skip_verification : bool
}.

Definition TlsConfig_builder : TlsConfigBuilder := mkTlsConfigBuilder [] false.

Definition add_ca_pem_bytes (b : TlsConfigBuilder) (pem : bytes) : outcome ProtocolError TlsConfigBuilder :=
  parsed ← map_err (fun e => Tls ("parse PEM: " ++ e)) (collect (pem_slice_iter pem));
  match parsed with
  | [] => Err (Tls "no CERTIFICATE blocks found in PEM input")
  | _ => Ok (mkTlsConfigBuilder (custom_roots b ++ parsed)%list (insecure_skip_verification b))
  end.

Definition add_ca_pem_file (b : TlsConfigBuilder) (p : path) : stm Fs ProtocolError TlsConfigBuilder :=
  bytes ← read_pem "read " p;
  st_lift (add_ca_pem_bytes b bytes).

Definition dangerous_disable_verification (b : TlsConfigBuilder) : TlsConfigBuilder :=
  mkTlsConfigBuilder (custom_roots b) true.

(** The loop over the custom roots. *)
Fixpoint add_roots (roots : list TrustAnchor) (certs : list CertificateDer) : outcome ProtocolError (list TrustAnchor) :=
  match certs with
  | [] => Ok roots
  | cert :: certs =>
    a ← map_err (fun e => Tls ("add root cert: " ++ e)) (trust_anchor cert);
    add_roots (roots ++ [a])%list certs
  end.

Definition tls_build (b : TlsConfigBuilder) : outcome ProtocolError TlsConfig :=
  if insecure_skip_verification b then Ok (mkTlsConfig (AcceptAnyVerifier supported_schemes)) else
  roots ← match custom_roots b with
          | [] => Ok TLS_SERVER_ROOTS
          | certs => add_roots [] certs
          end;
  Ok (mkTlsConfig (WebPkiVerifier roots)).

(** [verify_server_cert] of the configuration's verifier. *)
Definition verify_server_cert (c : TlsConfig) (end_entity : CertificateDer) (intermediates : list CertificateDer)
    (server_name : string) : outcome string unit :=
  match verifier c with
  | AcceptAnyVerifier _ => Ok tt
  | WebPkiVerifier roots => webpki_verify roots end_entity intermediates server_name
  end.

(** [verify_tls12_signature] and [verify_tls13_signature]. *)
Definition verify_tls_signature (c : TlsConfig) (message : bytes) (cert : CertificateDer) (dss : bytes) : outcome string unit :=
  match verifier c with
  | AcceptAnyVerifier _ => Ok tt
  | WebPkiVerifier _ => verify_signature message cert dss
  end.

(** The builder's methods as calls, in the order a program makes them, each
    followed by [?]. *)
Inductive client_call :=
| CAddFile (p : path)
| CAddBytes (pem : bytes)
| CDisable.

#[export] Instance client_call_eq_dec : EqDecision client_call.
Proof. solve_decision. Defined.

Definition client_apply (b : TlsConfigBuilder) (c : client_call) : stm Fs ProtocolError TlsConfigBuilder :=
  match c with
  | CAddFile p => add_ca_pem_file b p
  | CAddBytes pem => st_lift (add_ca_pem_bytes b pem)
  | CDisable => mret (dangerous_disable_verification b)
  end.

Fixpoint client_calls (b : TlsConfigBuilder) (cs : list client_call) : stm Fs ProtocolError TlsConfigBuilder :=
  match cs with
  | [] => mret b
  | c :: cs => b ← client_apply b c; client_calls b cs
  end.

(** ** The server *)

Record ServerTlsConfig := mkServerTlsConfig { server_inner : ServerConfig }.

Record ServerTlsConfigBuilder := mkServerTlsConfigBuilder {
  cert_chain : list CertificateDer;
  key : option PrivateKeyDer
}.

Definition ServerTlsConfig_builder : ServerTlsConfigBuilder := mkServerTlsConfigBuilder [] None.

Definition cert_pem_bytes (b : ServerTlsConfigBuilder) (pem : bytes) : outcome ProtocolError ServerTlsConfigBuilder :=
  parsed ← map_err (fun e => Tls ("parse cert PEM: " ++ e)) (collect (pem_slice_iter pem));
  match parsed with
  | [] => Err (Tls "no CERTIFICATE blocks found in cert PEM")
  | _ => Ok (mkServerTlsConfigBuilder (cert_chain b ++ parsed)%list (key b))
  end.

Definition cert_pem_file (b : ServerTlsConfigBuilder) (p : path) : stm Fs ProtocolError ServerTlsConfigBuilder :=
  bytes ← read_pem "read cert " p;
  st_lift (cert_pem_bytes b bytes).

Definition key_pem_bytes (b : ServerTlsConfigBuilder) (pem : bytes) : outcome ProtocolError ServerTlsConfigBuilder :=
  k ← map_err (fun e => Tls ("no PRIVATE KEY block found in key PEM: " ++ e)) (from_pem_slice pem);
  Ok (mkServerTlsConfigBuilder (cert_chain b) (Some k)).

Definition key_pem_file (b : ServerTlsConfigBuilder) (p : path) : stm Fs ProtocolError ServerTlsConfigBuilder :=
  bytes ← read_pem "read key " p;
  st_lift (key_pem_bytes b bytes).

Definition server_tls_build (b : ServerTlsConfigBuilder) : outcome ProtocolError ServerTlsConfig :=
  match cert_chain b with
  | [] => Err (Tls "ServerTlsConfig: no certificate chain configured")
  | chain =>
    k ← ok_or (key b) (Tls "ServerTlsConfig: no private key configured");
    cfg ← map_err (fun e => Tls ("build server config: " ++ e)) (with_single_cert chain k);
    Ok (mkServerTlsConfig cfg)
  end.

Inductive server_call :=
| SCertFile (p : path) | SCertBytes (pem : bytes)
| SKeyFile (p : path) | SKeyBytes (pem : bytes).

Definition server_apply (b : ServerTlsConfigBuilder) (c : server_call) : stm Fs ProtocolError ServerTlsConfigBuilder :=
  match c with
  | SCertFile p => cert_pem_file b p
  | SCertBytes pem => st_lift (cert_pem_bytes b pem)
  | SKeyFile p => key_pem_file b p
  | SKeyBytes pem => st_lift (key_pem_bytes b pem)
  end.

Fixpoint server_calls (b : ServerTlsConfigBuilder) (cs : list server_call) : stm Fs ProtocolError ServerTlsConfigBuilder :=
  match cs with
  | [] => mret b
  | c :: cs => b ← server_apply b c; server_calls b cs
  end.

(** ** What the calls supply *)

(** The PEM text a source stands for in a tree of files. *)
Inductive pem_source := FromFile (p : path) | FromBytes (pem : bytes).

Definition holds (t : tree) (src : pem_source) (pem : bytes) : Prop :=
  match src with FromFile p => t !! p = Some (File pem) | FromBytes b => pem = b end.

(** Its certificates, every block of it decoded. *)
Definition supplies (t : tree) (src : pem_source) (certs : list CertificateDer) : Prop :=
  exists pem, holds t src pem /\ pem_slice_iter pem = map Ok certs /\ certs <> [].

Definition ca_source (c : client_call) : option pem_source :=
  match c with CAddFile p => Some (FromFile p) | CAddBytes b => Some (FromBytes b) | CDisable => None end.

Definition cert_source (c : server_call) : option pem_source :=
  match c with SCertFile p => Some (FromFile p) | SCertBytes b => Some (FromBytes b) | _ => None end.

Definition key_source (c : server_call) : option pem_source :=
  match c with SKeyFile p => Some (FromFile p) | SKeyBytes b => Some (FromBytes b) | _ => None end.

(** ** Lemmas *)

Lemma collect_ok {A} (l : list (outcome string A)) r : collect l = Ok r <-> l = map Ok r.
Proof.
  split; revert r.
  - induction l as [|[a|e|] l IH]; cbn; intros r H; [injection H as <-; reflexivity| |discriminate..].
    destruct (collect l) as [rest|e|]; [|discriminate..]. injection H as <-. cbn. f_equal. apply IH. reflexivity.
  - intros r ->. induction r as [|a r IH]; cbn; [reflexivity|]. rewrite IH. reflexivity.
Qed.

Lemma map_err_ok {E F A} (f : E -> F) (m : outcome E A) a : map_err f m = Ok a <-> m = Ok a.
Proof. destruct m; cbn; split; congruence. Qed.

Lemma read_ok p s s' b : Fs.read p s = (s', Ok b) -> files s' = files s /\ files s !! p = Some (File b).
Proof.
  unfold Fs.read, Fs.syscall.
  destruct (faults s) as [|[f|] xs]; cbn; intros H; [|discriminate|];
    destruct (files s !! p) as [[|c]|]; cbn in *; try discriminate; injection H as <- <-; auto.
Qed.

Lemma read_pem_ok what p s s' b : read_pem what p s = (s', Ok b) -> files s' = files s /\ files s !! p = Some (File b).
Proof.
  unfold read_pem. destruct (Fs.read p s) as [s1 r] eqn:E. intros H. injection H as <- H.
  apply map_err_ok in H. subst. apply read_ok in E. exact E.
Qed.

Lemma add_ca_ok t b pem b' :
  add_ca_pem_bytes b pem = Ok b' ->
  exists certs, supplies t (FromBytes pem) certs /\ custom_roots b' = (custom_roots b ++ certs)%list /\
    insecure_skip_verification b' = insecure_skip_verification b.
Proof.
  unfold add_ca_pem_bytes. intros H. destruct (map_err _ _) as [parsed|e|] eqn:E; [|discriminate..]. cbn in H.
  apply map_err_ok, collect_ok in E. destruct parsed as [|c cs]; [discriminate|]. injection H as <-.
  exists (c :: cs). split_and!; [exists pem; split_and!; [reflexivity|exact E|discriminate]|reflexivity..].
Qed.

Lemma cert_pem_ok t b pem b' :
  cert_pem_bytes b pem = Ok b' ->
  exists certs, supplies t (FromBytes pem) certs /\ cert_chain b' = (cert_chain b ++ certs)%list /\ key b' = key b.
Proof.
  unfold cert_pem_bytes. intros H. destruct (map_err _ _) as [parsed|e|] eqn:E; [|discriminate..]. cbn in H.
  apply map_err_ok, collect_ok in E. destruct parsed as [|c cs]; [discriminate|]. injection H as <-.
  exists (c :: cs). split_and!; [exists pem; split_and!; [reflexivity|exact E|discriminate]|reflexivity..].
Qed.

Lemma key_pem_ok b pem b' :
  key_pem_bytes b pem = Ok b' -> exists k, from_pem_slice pem = Ok k /\ cert_chain b' = cert_chain b /\ key b' = Some k.
Proof.
  unfold key_pem_bytes. intros H. destruct (map_err _ _) as [k|e|] eqn:E; [|discriminate..]. apply map_err_ok in E.
  injection H as <-. eauto.
Qed.

(** A file's text is as good as the bytes. *)
Lemma supplies_file t p pem certs : t !! p = Some (File pem) -> supplies t (FromBytes pem) certs -> supplies t (FromFile p) certs.
Proof. intros Hp (pem' & -> & H). exists pem. split; [exact Hp|exact H]. Qed.

Lemma st_bind_ok {S E A B} (m : stm S E A) (k : A -> stm S E B) s s' b :
  (m ≫= k) s = (s', Ok b) -> exists a s1, m s = (s1, Ok a) /\ k a s1 = (s', Ok b).
Proof. unfold mbind, stm_bind. destruct (m s) as [s1 [a|e|]]; intros H; [eauto|discriminate..]. Qed.

(** One call of the client's builder. *)
Lemma client_apply_ok b c s s' b' :
  client_apply b c s = (s', Ok b') ->
  files s' = files s /\
  match ca_source c with
  | Some src => exists certs, supplies (files s) src certs /\ custom_roots b' = (custom_roots b ++ certs)%list /\
      insecure_skip_verification b' = insecure_skip_verification b
  | None => custom_roots b' = custom_roots b /\ insecure_skip_verification b' = true
  end.
Proof.
  destruct c as [p|pem|]; cbn.
  - intros H. apply st_bind_ok in H as (pem & s1 & Hr & H). apply read_pem_ok in Hr as [Hf Hp]. injection H as <- H.
    split; [exact Hf|]. apply (add_ca_ok (files s)) in H as (certs & Hs & H). exists certs.
    split; [exact (supplies_file _ _ _ _ Hp Hs)|exact H].
  - intros H. injection H as <- H. split; [reflexivity|]. apply add_ca_ok, H.
  - intros H. injection H as <- <-. auto.
Qed.

(** A sequence of them. *)
Lemma client_calls_ok cs : forall b s s' b',
  client_calls b cs s = (s', Ok b') ->
  exists certs, Forall2 (supplies (files s)) (omap ca_source cs) certs /\
    custom_roots b' = (custom_roots b ++ concat certs)%list /\
    insecure_skip_verification b' = insecure_skip_verification b || bool_decide (CDisable ∈ cs).
Proof.
  induction cs as [|c cs IH]; intros b s s' b' H.
  - injection H as <- <-. exists []. split_and!; [constructor|cbn; rewrite app_nil_r; reflexivity|].
    rewrite bool_decide_false by apply not_elem_of_nil. rewrite orb_false_r. reflexivity.
  - apply st_bind_ok in H as (b1 & s1 & Hc & H). apply client_apply_ok in Hc as [Hf Hc].
    apply IH in H as (certs & Hs & Hr & Hi). rewrite Hf in Hs. cbn [omap list_omap].
    destruct (ca_source c) as [src|] eqn:Ec.
    + destruct Hc as (cc & Hcc & Hr1 & Hi1). exists (cc :: certs). split_and!; [constructor; assumption| |].
      * rewrite Hr, Hr1. cbn. rewrite app_assoc. reflexivity.
      * rewrite Hi, Hi1. f_equal. apply bool_decide_ext. rewrite elem_of_cons. split; [auto|].
        intros [<-|Hin]; [discriminate|exact Hin].
    + destruct Hc as [Hr1 Hi1]. exists certs. split_and!; [exact Hs|rewrite Hr, Hr1; reflexivity|].
      rewrite Hi, Hi1. destruct c; try discriminate. rewrite (bool_decide_true (_ ∈ CDisable :: cs)) by apply list_elem_of_here.
      rewrite orb_true_r. reflexivity.
Qed.

Lemma add_roots_ok certs : forall roots r,
  add_roots roots certs = Ok r -> exists l, r = (roots ++ l)%list /\ Forall2 (fun c a => trust_anchor c = Ok a) certs l.
Proof.
  induction certs as [|c certs IH]; cbn; intros roots r H.
  - injection H as <-. exists []. rewrite app_nil_r. auto.
  - destruct (map_err _ _) as [a|e|] eqn:E; [|discriminate..]. apply map_err_ok in E. cbn in H.
    apply IH in H as (l & -> & Hl). exists (a :: l). rewrite <- app_assoc. auto.
Qed.

(** The trust of a client's TLS configuration is what the calls on its builder
    asked for. If [dangerous_disable_verification] was called, every server is
    accepted; if not, the trust anchors are the bundled ones when no call supplied
    certificates, and otherwise exactly the anchors of all the certificates
    supplied, in order, each call having supplied at least one: a file that is
    missing, is malformed or has no certificate is an error and never a silent
    return to the bundled anchors. *)
Theorem trust_is_what_was_configured cs s s' b cfg :
  client_calls TlsConfig_builder cs s = (s', Ok b) -> tls_build b = Ok cfg ->
  exists certs, Forall2 (supplies (files s)) (omap ca_source cs) certs /\
    match verifier cfg with
    | AcceptAnyVerifier supported => CDisable ∈ cs /\ supported = supported_schemes
    | WebPkiVerifier roots => (CDisable ∉ cs) /\
        match omap ca_source cs with
        | [] => roots = TLS_SERVER_ROOTS
        | _ => Forall2 (fun c a => trust_anchor c = Ok a) (concat certs) roots
        end
    end.
Proof.
  intros Hc Hb. apply client_calls_ok in Hc as (certs & Hs & Hr & Hi). cbn in Hr, Hi. exists certs. split; [exact Hs|].
  unfold tls_build in Hb. rewrite Hi in Hb. case_bool_decide as Hd; [injection Hb as <-; cbn; auto|].
  destruct Hs as [|src cc srcs certs Hcc Hs]; rewrite Hr in Hb; cbn in Hb |- *; [injection Hb as <-; cbn; auto|].
  destruct Hcc as (pem & _ & _ & Hne). destruct (cc ++ concat certs)%list as [|x xs] eqn:E; [destruct cc; [contradiction|discriminate]|].
  change (add_roots [] (x :: xs) ≫= (fun roots => Ok (mkTlsConfig (WebPkiVerifier roots))) = Ok cfg) in Hb.
  destruct (add_roots [] (x :: xs)) as [r|e|] eqn:Ea; [|discriminate Hb..]. injection Hb as <-. cbn [verifier].
  apply add_roots_ok in Ea as (l & -> & Hl). auto.
Qed.

(** A configuration that rejects some server was built without the call that
    disables verification. *)
Corollary rejecting_config_verifies cs s s' b cfg cert chain name e :
  client_calls TlsConfig_builder cs s = (s', Ok b) -> tls_build b = Ok cfg ->
  verify_server_cert cfg cert chain name = Err e -> CDisable ∉ cs.
Proof.
  intros Hc Hb. apply client_calls_ok in Hc as (certs & _ & _ & Hi). cbn in Hi. unfold tls_build in Hb. rewrite Hi in Hb.
  case_bool_decide as Hd; [|auto]. injection Hb as <-. discriminate.
Qed.

(** ** The server's chain and key *)

(** One call of the server's builder. *)
Lemma server_apply_ok b c s s' b' :
  server_apply b c s = (s', Ok b') ->
  files s' = files s /\
  match cert_source c with
  | Some src => exists certs, supplies (files s) src certs /\ cert_chain b' = (cert_chain b ++ certs)%list /\ key b' = key b
  | None => exists src pem k, key_source c = Some src /\ holds (files s) src pem /\ from_pem_slice pem = Ok k /\
      cert_chain b' = cert_chain b /\ key b' = Some k
  end.
Proof.
  destruct c as [p|pem|p|pem]; cbn; intros H.
  - apply st_bind_ok in H as (pem & s1 & Hr & H). apply read_pem_ok in Hr as [Hf Hp]. injection H as <- H.
    split; [exact Hf|]. apply (cert_pem_ok (files s)) in H as (certs & Hs & H). exists certs.
    split; [exact (supplies_file _ _ _ _ Hp Hs)|exact H].
  - injection H as <- H. split; [reflexivity|]. apply cert_pem_ok, H.
  - apply st_bind_ok in H as (pem & s1 & Hr & H). apply read_pem_ok in Hr as [Hf Hp]. injection H as <- H.
    split; [exact Hf|]. apply key_pem_ok in H as (k & Hk & H). exists (FromFile p), pem, k. auto.
  - injection H as <- H. split; [reflexivity|]. apply key_pem_ok in H as (k & Hk & H). exists (FromBytes pem), pem, k.
    split_and!; [reflexivity|reflexivity|exact Hk|apply H..].
Qed.

(** A sequence of them: the certificates in the order of the calls, the key of
    the last call that gave one. *)
Lemma server_calls_ok cs : forall b s s' b',
  server_calls b cs s = (s', Ok b') ->
  (exists certs, Forall2 (supplies (files s)) (omap cert_source cs) certs /\
    cert_chain b' = (cert_chain b ++ concat certs)%list) /\
  match last (omap key_source cs) with
  | Some src => exists pem k, holds (files s) src pem /\ from_pem_slice pem = Ok k /\ key b' = Some k
  | None => key b' = key b
  end.
Proof.
  induction cs as [|c cs IH]; intros b s s' b' H.
  - injection H as <- <-. split; [|reflexivity]. exists []. split; [constructor|]. cbn. rewrite app_nil_r. reflexivity.
  - apply st_bind_ok in H as (b1 & s1 & Hc & H). apply server_apply_ok in Hc as [Hf Hc].
    apply IH in H as ((certs & Hs & Hr) & Hk). rewrite Hf in Hs, Hk. cbn [omap list_omap].
    destruct (cert_source c) as [src|] eqn:Ec.
    + destruct Hc as (cc & Hcc & Hr1 & Hk1). replace (key_source c) with (@None pem_source) by (destruct c; easy).
      split; [|rewrite <- Hk1; exact Hk]. exists (cc :: certs). split; [constructor; assumption|].
      rewrite Hr, Hr1. cbn. rewrite app_assoc. reflexivity.
    + destruct Hc as (src & pem & k & -> & Hp & Hk1 & Hr1 & Hb1). split; [exists certs; rewrite Hr, Hr1; auto|].
      destruct (omap key_source cs) as [|src' srcs] eqn:Es; cbn [last] in *; [rewrite Hk, Hb1; eauto|].
      change (last (src :: src' :: srcs)) with (last (src' :: srcs)).
      destruct (last (src' :: srcs)) eqn:El; [exact Hk|apply last_None in El; discriminate].
Qed.

(** A server's TLS configuration is built from a non-empty chain, all the
    certificates supplied in the order of the calls, and the key of the last call
    that supplied one, accepted together by rustls. *)
Theorem server_chain_and_key cs s s' b cfg :
  server_calls ServerTlsConfig_builder cs s = (s', Ok b) -> server_tls_build b = Ok cfg ->
  exists certs src pem k, Forall2 (supplies (files s)) (omap cert_source cs) certs /\ concat certs <> [] /\
    last (omap key_source cs) = Some src /\ holds (files s) src pem /\ from_pem_slice pem = Ok k /\
    with_single_cert (concat certs) k = Ok (server_inner cfg).
Proof.
  intros Hc Hb. apply server_calls_ok in Hc as [(certs & Hs & Hr) Hk]. cbn in Hr, Hk. unfold server_tls_build in Hb.
  rewrite Hr in Hb. destruct (concat certs) as [|x xs] eqn:E; [discriminate|].
  destruct (last (omap key_source cs)) as [src|] eqn:El; [|rewrite Hk in Hb; discriminate].
  destruct Hk as (pem & k & Hh & Hp & Hk). rewrite Hk in Hb. cbn in Hb.
  destruct (map_err _ _) as [sc|e|] eqn:Em; [|discriminate..]. apply map_err_ok in Em. injection Hb as <-.
  exists certs, src, pem, k. rewrite E. split_and!; [exact Hs|discriminate|reflexivity|exact Hh|exact Hp|exact Em].
Qed.

End Tls.

(** A rustls for the witnesses: PEM text is a sequence of one-byte blocks, a zero
    byte is a malformed one. *)
#[local] Instance byte_rustls : Rustls := {|
  CertificateDer := byte; PrivateKeyDer := bytes; TrustAnchor := byte; SignatureScheme := unit; ServerConfig := bytes * bytes;
  pem_slice_iter := map (fun b => if Byte.eqb b Byte.x00 then Err "bad block" else Ok b);
  from_pem_slice := fun b => match b with [] => Err "no key" | _ => Ok b end;
  trust_anchor := Ok;
  TLS_SERVER_ROOTS := [Byte.xff];
  supported_schemes := [];
  with_single_cert := fun c k => Ok (c, k);
  webpki_verify := fun roots c _ _ => if existsb (Byte.eqb c) roots then Ok tt else Err "unknown issuer";
  verify_signature := fun _ _ _ => Ok tt
|}.

Lemma trust_is_what_was_configured_witness :
  exists certs, Forall2 (supplies (R := byte_rustls) {[ ["ca.pem"] := File [Byte.x01; Byte.x02] ]}) [FromFile ["ca.pem"]; FromBytes [Byte.x03]] certs /\
    Forall2 (fun c a => trust_anchor (Rustls := byte_rustls) c = Ok a) (concat certs) [Byte.x01; Byte.x02; Byte.x03].
Proof.
  destruct (trust_is_what_was_configured (R := byte_rustls) [CAddFile ["ca.pem"]; CAddBytes [Byte.x03]]
              (mkFs {[ ["ca.pem"] := File [Byte.x01; Byte.x02] ]} []) (mkFs {[ ["ca.pem"] := File [Byte.x01; Byte.x02] ]} [])
              (mkTlsConfigBuilder (R := byte_rustls) [Byte.x01; Byte.x02; Byte.x03] false)
              (mkTlsConfig (R := byte_rustls) (WebPkiVerifier (R := byte_rustls) [Byte.x01; Byte.x02; Byte.x03]))) as (certs & Hs & _ & H);
    [vm_compute; reflexivity|reflexivity|].
  exists certs. split; [exact Hs|exact H].
Defined.
