(* ===== verification/OciTypes.v ===== *)
(** * OCI manifest types

    [crates/ferro-oci-server/src/manifest.rs]: descriptors, image manifests and
    image indexes with the codecs their attributes derive. A struct with a
    flattened field is read from an object only; the keys that are no field of it
    are collected into [extra] and written back after the fields. What a reader
    accepts is printed and read back without loss, unknown keys included. *)

From S2P Require Import Prelude Str Json Digest.

Local Open Scope string_scope.
Local Open Scope Z_scope.

(** ** Flattened structs *)

(** The slots of the fields [names] and the other keys, of which the last
    occurrence counts. *)
Definition de_flat (names : list string) (v : Value) : option (list (option Value) * gmap string Value) :=
  match v with
  | JObject fs =>
    if forallb (fun n => (length (List.filter (fun f => bool_decide (fst f = n)) fs) <=? 1)%nat) names
    then Some (map (fun n => Value.get n v) names,
               list_to_map (reverse (map (fun f => (fst f, value_of (snd f)))
                                         (List.filter (fun f => negb (bool_decide (fst f ∈ names))) fs))))
    else None
  | _ => None
  end.

Definition ser_flat (fs : list (string * Value)) (extra : gmap string Value) : Value := JObject (fs ++ items extra).

Definition ser_string_map : gmap string string -> Value := ser_map JString.
Definition de_string_map : de (gmap string string) := de_map de_string.

(** ** Digests as strings *)

(** [Digest]: [try_from = "String"], [into = "String"]. *)
Definition de_Digest : de Digest := fun v => s ← de_string v; ok_of (Digest.from_str s).
Definition ser_Digest (d : Digest) : Value := JString (Digest.to_string d).

(** ** The types *)

Record Descriptor := mkDescriptor {
  d_media_type : string;
  d_digest : Digest;
  d_size : Z;
  d_urls : list string;
  d_annotations : option (gmap string string);
  d_artifact_type : option string;
  d_platform : option Value;
  d_extra : gmap string Value
}.

Definition descriptor_names : list string :=
  ["mediaType"; "digest"; "size"; "urls"; "annotations"; "artifactType"; "platform"].

Definition ser_Descriptor (d : Descriptor) : Value :=
  ser_flat ([("mediaType", JString (d_media_type d)); ("digest", ser_Digest (d_digest d)); ("size", ser_u64 (d_size d))] ++
            (match d_urls d with [] => [] | us => [("urls", ser_vec JString us)] end) ++
            ser_some "annotations" ser_string_map (d_annotations d) ++
            ser_some "artifactType" JString (d_artifact_type d) ++
            ser_some "platform" id (d_platform d)) (d_extra d).

Definition de_Descriptor : de Descriptor := fun v =>
  '(slots, extra) ← de_flat descriptor_names v;
  match slots with
  | [mt; dg; sz; us; an; at_; pl] =>
    media_type ← de_field de_string None mt;
    digest ← de_field de_Digest None dg;
    size ← de_field (de_uint U64_MAX) None sz;
    urls ← de_field (de_vec de_string) (Some []) us;
    annotations ← de_field (de_option de_string_map) (Some None) an;
    artifact_type ← de_field (de_option de_string) (Some None) at_;
    platform ← de_field (de_option (fun v => Some (value_of v))) (Some None) pl;
    Some (mkDescriptor media_type digest size urls annotations artifact_type platform extra)
  | _ => None
  end.

Record ImageManifest := mkImageManifest {
  m_schema_version : Z;
  m_media_type : option string;
  m_artifact_type : option string;
  m_config : Descriptor;
  m_layers : list Descriptor;
  m_subject : option Descriptor;
  m_annotations : option (gmap string string);
  m_extra : gmap string Value
}.

Definition manifest_names : list string :=
  ["schemaVersion"; "mediaType"; "artifactType"; "config"; "layers"; "subject"; "annotations"].

Definition ser_ImageManifest (m : ImageManifest) : Value :=
  ser_flat ([("schemaVersion", ser_u64 (m_schema_version m))] ++
            ser_some "mediaType" JString (m_media_type m) ++
            ser_some "artifactType" JString (m_artifact_type m) ++
            [("config", ser_Descriptor (m_config m)); ("layers", ser_vec ser_Descriptor (m_layers m))] ++
            ser_some "subject" ser_Descriptor (m_subject m) ++
            ser_some "annotations" ser_string_map (m_annotations m)) (m_extra m).

Definition de_ImageManifest : de ImageManifest := fun v =>
  '(slots, extra) ← de_flat manifest_names v;
  match slots with
  | [sv; mt; at_; cf; ly; sj; an] =>
    schema_version ← de_field (de_uint U32_MAX) None sv;
    media_type ← de_field (de_option de_string) (Some None) mt;
    artifact_type ← de_field (de_option de_string) (Some None) at_;
    config ← de_field de_Descriptor None cf;
    layers ← de_field (de_vec de_Descriptor) None ly;
    subject ← de_field (de_option de_Descriptor) (Some None) sj;
    annotations ← de_field (de_option de_string_map) (Some None) an;
    Some (mkImageManifest schema_version media_type artifact_type config layers subject annotations extra)
  | _ => None
  end.

Record ImageIndex := mkImageIndex {
  i_schema_version : Z;
  i_media_type : option string;
  i_artifact_type : option string;
  i_manifests : list Descriptor;
  i_subject : option Descriptor;
  i_annotations : option (gmap string string);
  i_extra : gmap string Value
}.

Definition index_names : list string :=
  ["schemaVersion"; "mediaType"; "artifactType"; "manifests"; "subject"; "annotations"].

Definition ser_ImageIndex (i : ImageIndex) : Value :=
  ser_flat ([("schemaVersion", ser_u64 (i_schema_version i))] ++
            ser_some "mediaType" JString (i_media_type i) ++
            ser_some "artifactType" JString (i_artifact_type i) ++
            [("manifests", ser_vec ser_Descriptor (i_manifests i))] ++
            ser_some "subject" ser_Descriptor (i_subject i) ++
            ser_some "annotations" ser_string_map (i_annotations i)) (i_extra i).

Definition de_ImageIndex : de ImageIndex := fun v =>
  '(slots, extra) ← de_flat index_names v;
  match slots with
  | [sv; mt; at_; ms; sj; an] =>
    schema_version ← de_field (de_uint U32_MAX) None sv;
    media_type ← de_field (de_option de_string) (Some None) mt;
    artifact_type ← de_field (de_option de_string) (Some None) at_;
    manifests ← de_field (de_vec de_Descriptor) None ms;
    subject ← de_field (de_option de_Descriptor) (Some None) sj;
    annotations ← de_field (de_option de_string_map) (Some None) an;
    Some (mkImageIndex schema_version media_type artifact_type manifests subject annotations extra)
  | _ => None
  end.

Definition empty_image_index : ImageIndex :=
  mkImageIndex 2 (Some "application/vnd.oci.image.index.v1+json") None [] None None ∅.

(** ** What a reader returns *)

Record extra_ok (names : list string) (extra : gmap string Value) : Prop := {
  extra_other : forall k, k ∈ names -> extra !! k = None;
  extra_normal : map_Forall (fun _ v => value_of v = v) extra
}.

Record descriptor_ok (d : Descriptor) : Prop := {
  do_digest : Digest.valid (d_digest d);
  do_size : is_u64 (d_size d);
  do_platform : forall v, d_platform d = Some v -> v <> JNull /\ value_of v = v;
  do_extra : extra_ok descriptor_names (d_extra d)
}.

Record manifest_ok (m : ImageManifest) : Prop := {
  mo_version : is_u32 (m_schema_version m);
  mo_config : descriptor_ok (m_config m);
  mo_layers : Forall descriptor_ok (m_layers m);
  mo_subject : forall d, m_subject m = Some d -> descriptor_ok d;
  mo_extra : extra_ok manifest_names (m_extra m)
}.

Record index_ok (i : ImageIndex) : Prop := {
  io_version : is_u32 (i_schema_version i);
  io_manifests : Forall descriptor_ok (i_manifests i);
  io_subject : forall d, i_subject i = Some d -> descriptor_ok d;
  io_extra : extra_ok index_names (i_extra i)
}.

(** ** Lemmas: flattening *)

Lemma get_app n fs gs : ~ n ∈ (fst <$> gs) -> Value.get n (JObject (fs ++ gs)) = Value.get n (JObject fs).
Proof.
  intros Hn. cbn. induction fs as [|[k v] fs IH]; cbn.
  - induction gs as [|[k v] gs IH]; cbn in *; [reflexivity|]. apply not_elem_of_cons in Hn as [Hk Hn].
    rewrite bool_decide_false by congruence. exact (IH Hn).
  - case_bool_decide; [reflexivity|exact IH].
Qed.

Lemma filter_app_none {A} (p : A -> bool) l1 l2 :
  Forall (fun x => p x = false) l2 -> List.filter p (l1 ++ l2) = List.filter p l1.
Proof.
  intros H. rewrite List.filter_app. induction H as [|x l2 Hx _ IH]; cbn; [apply app_nil_r|rewrite Hx; exact IH].
Qed.

Lemma filter_all_true {A} (p : A -> bool) l : Forall (fun x => p x = true) l -> List.filter p l = l.
Proof. induction 1 as [|x l Hx _ IH]; cbn; [reflexivity|]. rewrite Hx, IH. reflexivity. Qed.

Lemma filter_all_false {A} (p : A -> bool) l : Forall (fun x => p x = false) l -> List.filter p l = [].
Proof. induction 1 as [|x l Hx _ IH]; cbn; [reflexivity|]. rewrite Hx, IH. reflexivity. Qed.

Lemma occurrences_le_1 {A} (fs : list (string * A)) n :
  NoDup (fst <$> fs) -> (length (List.filter (fun f => bool_decide (fst f = n)) fs) <=? 1)%nat = true.
Proof.
  intros H. apply Nat.leb_le. induction fs as [|[k v] fs IH]; cbn in *; [lia|].
  apply NoDup_cons in H as [Hk Hn]. case_bool_decide; [|exact (IH Hn)]. subst. cbn.
  rewrite filter_all_false; [cbn; lia|]. apply Forall_forall. intros [k' v'] Hin. cbn.
  apply bool_decide_eq_false. intros ->. apply Hk. exact (list_elem_of_fmap_2 fst _ _ Hin).
Qed.

Lemma list_to_map_items {A} (m : gmap string A) : list_to_map (reverse (items m)) = m.
Proof.
  rewrite (list_to_map_proper _ (map_to_list m)); [apply list_to_map_to_list| |].
  - rewrite fmap_reverse, reverse_Permutation. apply NoDup_items.
  - rewrite reverse_Permutation. apply items_perm.
Qed.

(** Writing a flattened struct and reading it. *)
Lemma de_flat_ser names fs extra :
  NoDup (fst <$> fs) -> (fst <$> fs) ⊆ names -> extra_ok names extra ->
  de_flat names (ser_flat fs extra) = Some (map (fun n => Value.get n (JObject fs)) names, extra).
Proof.
  intros Hnd Hsub [Hother Hnorm]. unfold de_flat, ser_flat.
  assert (Hit : forall f, f ∈ items extra -> ~ fst f ∈ names).
  { intros [k v] Hin Hk. apply elem_of_items in Hin. cbn in Hk. rewrite (Hother k Hk) in Hin. discriminate. }
  rewrite (proj2 (List.forallb_forall _ _)).
  - f_equal. f_equal.
    + apply map_ext_Forall, Forall_forall. intros n Hn. apply get_app. intros Hin.
      apply list_elem_of_fmap_1 in Hin as (f & -> & Hf). exact (Hit f Hf Hn).
    + rewrite List.filter_app. rewrite filter_all_false.
      * rewrite filter_all_true; cbn.
        -- rewrite (map_ext_Forall (fun f => (fst f, value_of (snd f))) id).
           ++ rewrite map_id. apply list_to_map_items.
           ++ apply Forall_forall. intros [k v] Hin. apply elem_of_items in Hin. cbn. rewrite (Hnorm k v Hin). reflexivity.
        -- apply Forall_forall. intros f Hf. apply negb_true_iff, bool_decide_eq_false, Hit, Hf.
      * apply Forall_forall. intros f Hf. apply negb_false_iff, bool_decide_eq_true, Hsub.
        exact (list_elem_of_fmap_2 fst _ _ Hf).
  - intros n Hn%list_elem_of_In. rewrite filter_app_none; [apply occurrences_le_1, Hnd|].
    apply Forall_forall. intros f Hf. apply bool_decide_eq_false. intros <-. exact (Hit f Hf Hn).
Qed.

Lemma de_flat_ok names v slots extra : de_flat names v = Some (slots, extra) -> extra_ok names extra.
Proof.
  destruct v as [| | | | |fs]; try discriminate. cbn. destruct (forallb _ _); [|discriminate]. intros [= _ <-].
  assert (Hin : forall k v, list_to_map (M := gmap string Value) (reverse (map (fun f => (fst f, value_of (snd f)))
            (List.filter (fun f => negb (bool_decide (fst f ∈ names))) fs))) !! k = Some v ->
          (k ∉ names) /\ value_of v = v).
  { intros k v H. apply elem_of_list_to_map_2 in H. apply elem_of_reverse, list_elem_of_In, List.in_map_iff in H as ([k' v'] & [= <- <-] & H).
    apply List.filter_In in H as [_ H]. cbn in H. split; [|apply value_of_idem].
    apply negb_true_iff, bool_decide_eq_false in H. exact H. }
  split; [|intros k v H; apply (Hin k v H)]. intros k Hk. apply eq_None_not_Some. intros [v Hv]. exact (proj1 (Hin k v Hv) Hk).
Qed.

(** Read the fields of a flattened struct from the object its serializer wrote;
    the field values are variables. *)
Ltac de_flat_struct Hx :=
  match goal with |- context [de_flat ?n (ser_flat ?fs ?e)] =>
    rewrite (de_flat_ser n fs e);
    [ match goal with |- context [map ?f n] =>
        let r := eval vm_compute in (map f n) in replace (map f n) with r by (vm_compute; reflexivity) end
    | cbn [fmap list_fmap fst app]; apply (bool_decide_unpack _); vm_compute; exact I
    | cbn [fmap list_fmap fst app]; apply (bool_decide_unpack _); vm_compute; exact I
    | exact Hx ]
  end; cbv [mbind option_bind de_field].

Lemma de_ser_Digest d : Digest.valid d -> de_Digest (ser_Digest d) = Some d.
Proof. intros Hd. unfold de_Digest, ser_Digest. cbn. rewrite Digest.from_str_to_string by exact Hd. reflexivity. Qed.

Lemma de_ser_strings l : de_vec de_string (ser_vec JString l) = Some l.
Proof. apply de_vec_ser, Forall_true. reflexivity. Qed.

Lemma de_ser_opt_map m : de_option de_string_map (ser_string_map m) = Some (Some m).
Proof. apply de_option_some; [discriminate|]. apply de_map_ser. intros k v _. reflexivity. Qed.

Lemma de_ser_Descriptor d : descriptor_ok d -> de_Descriptor (ser_Descriptor d) = Some d.
Proof.
  destruct d as [mt dg sz us an art pl ex]. intros [Hdg Hsz Hpl Hex]. cbn in Hdg, Hsz, Hpl, Hex. unfold de_Descriptor, ser_Descriptor.
  cbn [d_media_type d_digest d_size d_urls d_annotations d_artifact_type d_platform d_extra].
  generalize (de_ser_Digest dg Hdg). generalize (ser_Digest dg). intros vdg Edg.
  assert (Esz : de_uint U64_MAX (ser_u64 sz) = Some sz) by (apply de_uint_ser; [exact Hsz|apply Hsz]).
  revert Esz. generalize (ser_u64 sz). intros vsz Esz.
  assert (Epl : forall v, pl = Some v -> de_option (fun v => Some (value_of v)) v = Some (Some v)).
  { intros v Hv. destruct (Hpl v Hv) as [Hn Hid]. apply de_option_some; [exact Hn|]. rewrite Hid. reflexivity. }
  unfold ser_some. destruct an as [m|]; [generalize (de_ser_opt_map m); generalize (ser_string_map m); intros van Ean|];
    (destruct pl as [vp|]; [specialize (Epl vp eq_refl); unfold id|]); (destruct us as [|u us]; [|generalize (de_ser_strings (u :: us)); generalize (ser_vec JString (u :: us)); intros vus Eus]);
    destruct art; cbn [app];
    de_flat_struct Hex; rewrite ?Edg, ?Esz, ?Eus, ?Ean, ?Epl; reflexivity.
Qed.

Lemma de_ser_Descriptors l : Forall descriptor_ok l -> de_vec de_Descriptor (ser_vec ser_Descriptor l) = Some l.
Proof. intros H. apply de_vec_ser. eapply Forall_impl; [exact H|]. exact de_ser_Descriptor. Qed.

Lemma de_ser_subject d : descriptor_ok d -> de_option de_Descriptor (ser_Descriptor d) = Some (Some d).
Proof. intros H. apply de_option_some; [discriminate|apply de_ser_Descriptor, H]. Qed.

Lemma de_ser_version n : is_u32 n -> de_uint U32_MAX (ser_u64 n) = Some n.
Proof. unfold is_u32. intros H. apply de_uint_ser; unfold is_u64, U32_MAX, U64_MAX in *; lia. Qed.

Lemma de_ser_ImageManifest m : manifest_ok m -> de_ImageManifest (ser_ImageManifest m) = Some m.
Proof.
  destruct m as [sv mt art cf ly sj an ex]. intros [Hsv Hcf Hly Hsj Hex]. cbn in Hsv, Hcf, Hly, Hsj, Hex. unfold de_ImageManifest, ser_ImageManifest.
  cbn [m_schema_version m_media_type m_artifact_type m_config m_layers m_subject m_annotations m_extra].
  generalize (de_ser_version sv Hsv). generalize (ser_u64 sv). intros vsv Esv.
  generalize (de_ser_Descriptors ly Hly). generalize (ser_vec ser_Descriptor ly). intros vly Ely.
  assert (Esj : forall d, sj = Some d -> de_option de_Descriptor (ser_Descriptor d) = Some (Some d))
    by (intros d Hd; apply de_ser_subject, Hsj, Hd).
  generalize (de_ser_Descriptor cf Hcf). generalize (ser_Descriptor cf). intros vcf Ecf.
  unfold ser_some. destruct an as [m|]; [generalize (de_ser_opt_map m); generalize (ser_string_map m); intros van Ean|];
    (destruct sj as [d|]; [generalize (Esj d eq_refl); generalize (ser_Descriptor d); intros vsj Esj'|]); destruct mt, art; cbn [app];
    de_flat_struct Hex; rewrite ?Esv, ?Ecf, ?Ely, ?Ean, ?Esj'; reflexivity.
Qed.

Lemma de_ser_ImageIndex i : index_ok i -> de_ImageIndex (ser_ImageIndex i) = Some i.
Proof.
  destruct i as [sv mt art ms sj an ex]. intros [Hsv Hms Hsj Hex]. cbn in Hsv, Hms, Hsj, Hex. unfold de_ImageIndex, ser_ImageIndex.
  cbn [i_schema_version i_media_type i_artifact_type i_manifests i_subject i_annotations i_extra].
  generalize (de_ser_version sv Hsv). generalize (ser_u64 sv). intros vsv Esv.
  generalize (de_ser_Descriptors ms Hms). generalize (ser_vec ser_Descriptor ms). intros vms Ems.
  assert (Esj : forall d, sj = Some d -> de_option de_Descriptor (ser_Descriptor d) = Some (Some d))
    by (intros d Hd; apply de_ser_subject, Hsj, Hd).
  unfold ser_some. destruct an as [m|]; [generalize (de_ser_opt_map m); generalize (ser_string_map m); intros van Ean|];
    (destruct sj as [d|]; [generalize (Esj d eq_refl); generalize (ser_Descriptor d); intros vsj Esj'|]); destruct mt, art; cbn [app];
    de_flat_struct Hex; rewrite ?Esv, ?Ems, ?Ean, ?Esj'; reflexivity.
Qed.

(** ** Lemmas: a reader returns well-formed values *)

Lemma bind_some {A B} (m : option A) (k : A -> option B) b : (m ≫= k) = Some b -> exists a, m = Some a /\ k a = Some b.
Proof. destruct m as [a|]; [eauto|discriminate]. Qed.

(** Take apart a chain of reads in [H]. *)
Ltac fields H :=
  repeat (let x := fresh "x" in let E := fresh "E" in apply bind_some in H as (x & E & H)).

Lemma de_Digest_ok v d : de_Digest v = Some d -> Digest.valid d.
Proof.
  unfold de_Digest. intros H. apply bind_some in H as (s & _ & H). destruct (Digest.from_str s) eqn:E; [|discriminate..].
  injection H as <-. exact (Digest.from_str_valid _ _ E).
Qed.

Lemma de_field_some {A} (d : de A) slot a : de_field d None slot = Some a -> exists v, d v = Some a.
Proof. destruct slot; [eauto|discriminate]. Qed.

Lemma de_field_opt {A} (d : de A) slot a :
  de_field (de_option d) (Some None) slot = Some (Some a) -> exists v, v <> JNull /\ d v = Some a.
Proof.
  destruct slot as [v|]; [|discriminate]. unfold de_field, de_option. intros H. exists v.
  destruct v; (split; [congruence|]); try discriminate H; (destruct (d _); [|discriminate H]); injection H as ->; reflexivity.
Qed.

Lemma de_Descriptor_ok v d : de_Descriptor v = Some d -> descriptor_ok d.
Proof.
  unfold de_Descriptor. intros H. apply bind_some in H as ([slots extra] & Hf & H). apply de_flat_ok in Hf.
  destruct slots as [|mt [|dg [|sz [|us [|an [|art [|pl [|]]]]]]]]; try discriminate.
  fields H. injection H as <-. apply de_field_some in E0 as [v0 E0]. apply de_field_some in E1 as [v1 E1].
  split; cbn.
  - exact (de_Digest_ok _ _ E0).
  - apply de_uint_range in E1. exact E1.
  - intros vp ->. apply de_field_opt in E5 as (v5 & Hn & E5). injection E5 as <-. split; [destruct v5; cbn; congruence|apply value_of_idem].
  - exact Hf.
Qed.

Lemma de_Descriptors_ok v l : de_vec de_Descriptor v = Some l -> Forall descriptor_ok l.
Proof.
  destruct v as [| | | |vs|]; try discriminate. cbn. intros H. apply mapM_Some_1 in H.
  induction H; constructor; [eapply de_Descriptor_ok; eassumption|assumption].
Qed.

Lemma de_subject_ok slot d : de_field (de_option de_Descriptor) (Some None) slot = Some (Some d) -> descriptor_ok d.
Proof. intros H. apply de_field_opt in H as (v & _ & H). exact (de_Descriptor_ok _ _ H). Qed.

Lemma de_ImageManifest_ok v m : de_ImageManifest v = Some m -> manifest_ok m.
Proof.
  unfold de_ImageManifest. intros H. apply bind_some in H as ([slots extra] & Hf & H). apply de_flat_ok in Hf.
  destruct slots as [|sv [|mt [|art [|cf [|ly [|sj [|an [|]]]]]]]]; try discriminate.
  fields H. injection H as <-. apply de_field_some in E as [v0 E]. apply de_field_some in E2 as [v2 E2].
  apply de_field_some in E3 as [v3 E3]. split; cbn.
  - exact (de_uint_range _ _ _ E).
  - exact (de_Descriptor_ok _ _ E2).
  - exact (de_Descriptors_ok _ _ E3).
  - intros d ->. exact (de_subject_ok _ _ E4).
  - exact Hf.
Qed.

Lemma de_ImageIndex_ok v i : de_ImageIndex v = Some i -> index_ok i.
Proof.
  unfold de_ImageIndex. intros H. apply bind_some in H as ([slots extra] & Hf & H). apply de_flat_ok in Hf.
  destruct slots as [|sv [|mt [|art [|ms [|sj [|an [|]]]]]]]; try discriminate.
  fields H. injection H as <-. apply de_field_some in E as [v0 E]. apply de_field_some in E2 as [v2 E2]. split; cbn.
  - exact (de_uint_range _ _ _ E).
  - exact (de_Descriptors_ok _ _ E2).
  - intros d ->. exact (de_subject_ok _ _ E3).
  - exact Hf.
Qed.

(** ** Round trips *)

(** The last value of a key in a document. *)
Definition last_field (k : string) (v : Value) : option Value :=
  match v with JObject fs => snd <$> last (List.filter (fun f => bool_decide (fst f = k)) fs) | _ => None end.

Lemma list_to_map_reverse_last {A} (fs : list (string * A)) k :
  list_to_map (M := gmap string A) (reverse fs) !! k = snd <$> last (List.filter (fun f => bool_decide (fst f = k)) fs).
Proof.
  induction fs as [|[k' v] fs IH] using rev_ind; cbn; [apply lookup_empty|].
  rewrite reverse_snoc, List.filter_app. cbn. destruct (decide (k' = k)) as [->|Hk].
  - rewrite bool_decide_true by reflexivity. rewrite last_snoc, lookup_insert_eq. reflexivity.
  - rewrite bool_decide_false by exact Hk. rewrite app_nil_r, lookup_insert_ne by exact Hk. exact IH.
Qed.

Lemma filter_unknown_key {A} (names : list string) k (fs : list (string * A)) :
  k ∉ names ->
  List.filter (fun f => bool_decide (fst f = k)) (List.filter (fun f => negb (bool_decide (fst f ∈ names))) fs) =
  List.filter (fun f => bool_decide (fst f = k)) fs.
Proof.
  intros Hk. induction fs as [|[k' v] fs IH]; cbn; [reflexivity|]. destruct (decide (k' = k)) as [->|Hne].
  - rewrite (bool_decide_false (k ∈ names)) by exact Hk. cbn. rewrite IH. reflexivity.
  - rewrite (bool_decide_false (k' = k)) by exact Hne. destruct (negb _); cbn; [rewrite bool_decide_false by exact Hne|]; exact IH.
Qed.

Lemma filter_map_fields {A B} (g : A -> B) k (fs : list (string * A)) :
  List.filter (fun f => bool_decide (fst f = k)) (map (fun f => (fst f, g (snd f))) fs) =
  map (fun f => (fst f, g (snd f))) (List.filter (fun f => bool_decide (fst f = k)) fs).
Proof. induction fs as [|[k' v] fs IH]; cbn; [reflexivity|]. rewrite IH. case_bool_decide; reflexivity. Qed.

(** The unknown keys a reader keeps. *)
Lemma de_flat_extra names v slots extra k :
  de_flat names v = Some (slots, extra) -> k ∉ names -> extra !! k = value_of <$> last_field k v.
Proof.
  destruct v as [| | | | |fs]; try discriminate. cbn. destruct (forallb _ _); [|discriminate]. intros [= _ <-] Hk.
  rewrite list_to_map_reverse_last, filter_map_fields, filter_unknown_key by exact Hk.
  rewrite fmap_last. destruct (last _); reflexivity.
Qed.

Lemma get_items (m : gmap string Value) k : Value.get k (JObject (items m)) = m !! k.
Proof.
  cbn. destruct (find _ (items m)) as [[k' v]|] eqn:E; cbn.
  - apply List.find_some in E as [Hin Hk]. apply bool_decide_eq_true in Hk. subst. symmetry.
    apply elem_of_items, list_elem_of_In, Hin.
  - symmetry. apply eq_None_not_Some. intros [v Hv]. apply elem_of_items, list_elem_of_In in Hv.
    apply (List.find_none _ _ E) in Hv. cbn in Hv. rewrite bool_decide_true in Hv by reflexivity. discriminate.
Qed.

(** And the ones a writer writes. *)
Lemma get_flat names fs extra k :
  (fst <$> fs) ⊆ names -> k ∉ names -> Value.get k (ser_flat fs extra) = extra !! k.
Proof.
  intros Hs Hk. rewrite <- (get_items extra k). unfold ser_flat. induction fs as [|[k' v] fs IH]; [reflexivity|].
  cbn. cbn in Hs. rewrite bool_decide_false; [apply IH; set_solver|]. intros ->. apply Hk. set_solver.
Qed.

(** Every written key is a known one. *)
Ltac known_keys := unfold ser_some; repeat case_match; cbn [fmap list_fmap fst app]; apply (bool_decide_unpack _); vm_compute; exact I.

(** C32: an image manifest or image index that the reader accepts survives printing:
    what is printed is read back as the very same value, and a key that is no field
    of the type has in the printed document the value it had last in the document
    that was read, with the keys of objects inside it in order. *)
Theorem parsed_manifest_roundtrips :
  (forall v m, de_ImageManifest v = Some m ->
     de_ImageManifest (ser_ImageManifest m) = Some m /\
     forall k, k ∉ manifest_names -> Value.get k (ser_ImageManifest m) = value_of <$> last_field k v) /\
  (forall v i, de_ImageIndex v = Some i ->
     de_ImageIndex (ser_ImageIndex i) = Some i /\
     forall k, k ∉ index_names -> Value.get k (ser_ImageIndex i) = value_of <$> last_field k v).
Proof.
  split; intros v m H.
  - split; [apply de_ser_ImageManifest, (de_ImageManifest_ok _ _ H)|]. intros k Hk. unfold ser_ImageManifest.
    rewrite (get_flat manifest_names) by (known_keys || exact Hk).
    unfold de_ImageManifest in H. apply bind_some in H as ([slots extra] & Hf & H).
    destruct slots as [|sv [|mt [|art [|cf [|ly [|sj [|an [|]]]]]]]]; try discriminate.
    fields H. injection H as <-. exact (de_flat_extra _ _ _ _ _ Hf Hk).
  - split; [apply de_ser_ImageIndex, (de_ImageIndex_ok _ _ H)|]. intros k Hk. unfold ser_ImageIndex.
    rewrite (get_flat index_names) by (known_keys || exact Hk).
    unfold de_ImageIndex in H. apply bind_some in H as ([slots extra] & Hf & H).
    destruct slots as [|sv [|mt [|art [|ms [|sj [|an [|]]]]]]]; try discriminate.
    fields H. injection H as <-. exact (de_flat_extra _ _ _ _ _ Hf Hk).
Qed.

Definition sample_index : Value :=
  JObject [("x-note", JNumber "1"); ("manifests", JArray []); ("schemaVersion", JNumber "2"); ("subject", JNull); ("x-note", JBool true)].

Lemma parsed_manifest_roundtrips_witness :
  exists i, de_ImageIndex sample_index = Some i /\ de_ImageIndex (ser_ImageIndex i) = Some i /\
    Value.get "x-note" (ser_ImageIndex i) = Some (JBool true).
Proof.
  destruct (de_ImageIndex sample_index) as [i|] eqn:E; [|vm_compute in E; discriminate].
  destruct (proj2 parsed_manifest_roundtrips sample_index i E) as [Hr Hk]. exists i. split_and!; [reflexivity|exact Hr|].
  rewrite (Hk "x-note"); [reflexivity|]. apply (bool_decide_unpack _). vm_compute. exact I.
Defined.

(** The empty index of the referrers interface, as it is printed. *)
Lemma empty_image_index_document :
  ser_ImageIndex empty_image_index =
  JObject [("schemaVersion", JNumber "2"); ("mediaType", JString "application/vnd.oci.image.index.v1+json"); ("manifests", JArray [])].
Proof. vm_compute. reflexivity. Qed.

(** A value built in memory is not protected: an extra key named like a field is
    written twice and the document is refused. *)
Lemma colliding_extra_key_unreadable i v :
  i_extra i = {[ "schemaVersion" := v ]} -> de_ImageIndex (ser_ImageIndex i) = None.
Proof.
  intros He. unfold de_ImageIndex, ser_ImageIndex, ser_flat. rewrite He. destruct i as [sv mt art ms sj an ex].
  cbn [i_schema_version i_media_type i_artifact_type i_manifests i_subject i_annotations].
  replace (items {[ "schemaVersion" := v ]}) with [("schemaVersion", v)] by reflexivity.
  generalize (ser_u64 sv), (ser_vec ser_Descriptor ms). intros a b. unfold ser_some.
  destruct mt, art, an as [m|], sj as [d|]; try generalize (ser_string_map m); try generalize (ser_Descriptor d); reflexivity.
Qed.
