(* ===== verification/Metrics.v ===== *)
(** * Metrics of the two servers

    [metrics.rs] in [crates/ferro-oci-server/src] and
    [crates/ferro-cargo-registry-server/src], whose middleware is the same text.
    The middleware is split where it awaits the handler, so that requests overlap
    and a client can go away in between; the series are finite maps, and the
    invariant says what the counters, the gauges and the label sets are worth. *)

From S2P Require Import Prelude Str Json CargoState.

Local Open Scope string_scope.
Local Open Scope Z_scope.

(** ** Labels *)

Definition method_label (method : string) : string :=
  if existsb (String.eqb method) ["GET"; "HEAD"; "POST"; "PUT"; "PATCH"; "DELETE"; "OPTIONS"] then method else "OTHER".

(** A lookup in the literal arms of a match on the route's pattern. *)
Definition route_label (arms : list (string * string)) (matched : option string) : option string :=
  match matched with
  | Some m => snd <$> find (fun a => String.eqb (fst a) m) arms
  | None => None
  end.

(** Registration with a Prometheus registry, here the names in it: a name that is
    there already, or buckets that do not increase, are an error, and the code
    expects none. *)
Inductive collector := Series (name : string) | Histogram (name : string) (buckets : list Z).

Definition increasing (l : list Z) : bool := forallb (fun p => fst p <? snd p) (zip l (tail l)).

Definition register (c : collector) (registry : list string) : outcome string (list string) :=
  match c with
  | Series n => if bool_decide (n ∈ registry) then Panic else Ok (registry ++ [n])%list
  | Histogram n bs => if bool_decide (n ∈ registry) || negb (increasing bs) then Panic else Ok (registry ++ [n])%list
  end.

Fixpoint register_all (cs : list collector) (registry : list string) : outcome string (list string) :=
  match cs with [] => Ok registry | c :: cs => registry ← register c registry; register_all cs registry end.

(** In milliseconds. *)
Definition DURATION_BUCKETS : list Z := [1; 5; 10; 25; 50; 100; 250; 500; 1000; 2500; 5000; 10000].

Module OciMetrics.

Definition collectors : list collector :=
  [Series "ferrooci_http_requests_total"; Histogram "ferrooci_http_request_duration_seconds" DURATION_BUCKETS;
   Series "ferrooci_uploads_in_flight"; Series "ferrooci_storage_blobs"; Series "ferrooci_storage_bytes"; Series "ferrooci_build_info"].

Definition arms : list (string * string) :=
  [("/v2/", "version"); ("/v2", "version"); ("/v2/_catalog", "catalog"); ("/live", "live"); ("/ready", "ready");
   ("/healthz", "healthz"); ("/metrics", "metrics")].

Definition handler_for (matched : option string) (path : string) : string :=
  match route_label arms matched with
  | Some l => l
  | None =>
    if ends_with "/tags/list" path then "tags"
    else if str_contains "/referrers/" path then "referrers"
    else if str_contains "/manifests/" path then "manifests"
    else if str_contains "/blobs/uploads" path then "uploads"
    else if str_contains "/blobs/" path then "blobs"
    else "other"
  end.

Definition handler_labels : list string :=
  ["version"; "catalog"; "live"; "ready"; "healthz"; "metrics"; "tags"; "referrers"; "manifests"; "uploads"; "blobs"; "other"].

End OciMetrics.

Module CargoMetrics.

Definition collectors : list collector :=
  [Series "ferrocargo_http_requests_total"; Histogram "ferrocargo_http_request_duration_seconds" DURATION_BUCKETS;
   Series "ferrocargo_in_flight"; Series "ferrocargo_crates_total"; Series "ferrocargo_crate_versions"; Series "ferrocargo_storage_bytes";
   Series "ferrocargo_build_info"].

Definition arms : list (string * string) :=
  [("/config.json", "config"); ("/index/{*path}", "index"); ("/{prefix}/{name}", "index"); ("/{p0}/{p1}/{name}", "index");
   ("/index.git/{*path}", "git_index"); ("/api/v1/crates/new", "publish");
   ("/api/v1/crates/{name}/{version}/download", "download"); ("/api/v1/crates/{name}/{version}/yank", "yank");
   ("/api/v1/crates/{name}/{version}/unyank", "unyank"); ("/api/v1/crates/{name}/owners", "owners");
   ("/live", "live"); ("/ready", "ready"); ("/healthz", "healthz"); ("/metrics", "metrics")].

Definition handler_for (matched : option string) (path : string) : string :=
  match route_label arms matched with
  | Some l => l
  | None =>
    if starts_with "/index" path then "index"
    else if starts_with "/api/v1/crates" path then "crates_api"
    else "other"
  end.

Definition handler_labels : list string :=
  ["config"; "index"; "git_index"; "publish"; "download"; "yank"; "unyank"; "owners"; "live"; "ready"; "healthz"; "metrics";
   "crates_api"; "other"].

(** The values of the two gauges of [refresh_storage]. *)
Definition crates_total (cs : gmap string CrateRecord) : Z :=
  if Z.of_nat (size cs) <=? I64_MAX then Z.of_nat (size cs) else I64_MAX.

Definition version_count (cs : gmap string CrateRecord) : Z :=
  foldr (fun r n => zlen (entries r) + n) 0 (snd <$> map_to_list cs).

Definition crate_versions (cs : gmap string CrateRecord) : Z :=
  if version_count cs <=? I64_MAX then version_count cs else I64_MAX.

End CargoMetrics.

(** ** The series and the middleware *)

(** [G]: the storage gauges, [ferrooci_storage_blobs] in one server, the numbers
    of crates and of versions in the other. *)
Record Metrics (G : Type) : Type := mkMetrics {
  requests_total : gmap (string * string * string) Z;
  request_duration : gmap (string * string) (list Z);
  in_flight : Z;
  storage : G
}.
Arguments mkMetrics {G} _ _ _ _.
Arguments requests_total {G} _.
Arguments request_duration {G} _.
Arguments in_flight {G} _.
Arguments storage {G} _.

(** A new gauge is zero. *)
Definition Metrics_new {G} (zero : G) : Metrics G := mkMetrics ∅ ∅ 0 zero.

Record Request : Type := mkRequest { r_method : string; r_matched : option string; r_path : string }.

(** [with_label_values(l).inc()] and [.observe(x)]. *)
Definition inc {K} `{Countable K} (k : K) (m : gmap K Z) : gmap K Z := <[k := default 0 (m !! k) + 1]> m.
Definition observe {K} `{Countable K} (k : K) (x : Z) (m : gmap K (list Z)) : gmap K (list Z) :=
  <[k := (default [] (m !! k) ++ [x])%list]> m.

Section Middleware.
Context {G : Type} (handler_for : option string -> string -> string).

(** [track_metrics] up to the call of the handler. *)
Definition track_begin (m : Metrics G) : Metrics G :=
  mkMetrics (requests_total m) (request_duration m) (in_flight m + 1) (storage m).

(** And from its response on. *)
Definition track_end (r : Request) (status elapsed : Z) (m : Metrics G) : Metrics G :=
  let handler := handler_for (r_matched r) (r_path r) in
  let method := method_label (r_method r) in
  mkMetrics (inc (method, handler, display_u64 status) (requests_total m))
            (observe (method, handler) elapsed (request_duration m))
            (in_flight m - 1) (storage m).

(** [refresh_storage]. *)
Definition refresh_storage (sample : G) (m : Metrics G) : Metrics G :=
  mkMetrics (requests_total m) (request_duration m) (in_flight m) sample.

(** [encode]: the text encoder of the [prometheus] crate is the argument; an
    encoder that fails, or whose bytes are not text, gives the empty document. *)
Definition encode (encoder : Metrics G -> option bytes) (m : Metrics G) : string :=
  match encoder m with
  | Some buf => let s := string_of_bytes buf in if utf8_valid s then s else ""
  | None => ""
  end.

(** [metrics_handler]: the document is the series as they are after the gauges
    have been set. *)
Definition metrics_handler (sample : G) (m : Metrics G) : Metrics G * Metrics G :=
  let m := refresh_storage sample m in (m, m).

(** A server: its series and state, the requests whose handler runs, the number
    answered and the number dropped while their handler ran, and the documents
    served with the state they were served in. *)
Context {A : Type} (sample : A -> G).

Record Server : Type := mkServer {
  sv_metrics : Metrics G; sv_app : A; sv_active : list Request; sv_answered : Z; sv_dropped : Z; sv_scraped : list (A * Metrics G)
}.

(** [instrument]: every request, one of [/metrics] too, goes through the
    middleware; a handler changes the state. *)
Inductive sstep : Server -> Server -> Prop :=
| s_begin m x act a d sc r : sstep (mkServer m x act a d sc) (mkServer (track_begin m) x (r :: act) a d sc)
| s_app m x x' act a d sc : act <> [] -> sstep (mkServer m x act a d sc) (mkServer m x' act a d sc)
| s_scrape m x act a d sc r :
  r ∈ act -> r_matched r = Some "/metrics" ->
  sstep (mkServer m x act a d sc)
        (mkServer (fst (metrics_handler (sample x) m)) x act a d ((x, snd (metrics_handler (sample x) m)) :: sc))
| s_end m x act1 act2 a d sc r status elapsed :
  sstep (mkServer m x (act1 ++ r :: act2) a d sc) (mkServer (track_end r status elapsed m) x (act1 ++ act2) (a + 1) d sc)
| s_drop m x act1 act2 a d sc r :
  sstep (mkServer m x (act1 ++ r :: act2) a d sc) (mkServer m x (act1 ++ act2) a (d + 1) sc).

Definition server_start (zero : G) (x : A) : Server := mkServer (Metrics_new zero) x [] 0 0 [].

End Middleware.
Arguments mkServer {G A} _ _ _ _ _ _.

(** The servers' gauges. *)
Definition oci_sample (blob_count : Z) : Z := blob_count.
Definition cargo_sample (cs : gmap string CrateRecord) : Z * Z := (CargoMetrics.crates_total cs, CargoMetrics.crate_versions cs).

(** ** Bounded labels *)

Lemma method_label_bounded m : method_label m ∈ ["GET"; "HEAD"; "POST"; "PUT"; "PATCH"; "DELETE"; "OPTIONS"; "OTHER"].
Proof.
  unfold method_label. destruct (existsb _ _) eqn:E; [|apply list_elem_of_In; cbn; tauto].
  apply List.existsb_exists in E as (x & Hx & He). apply String.eqb_eq in He. subst.
  apply list_elem_of_In. cbn in *. tauto.
Qed.

Lemma route_label_in arms matched l : route_label arms matched = Some l -> l ∈ snd <$> arms.
Proof.
  unfold route_label. destruct matched as [m|]; [|discriminate]. destruct (find _ arms) as [a|] eqn:E; [|discriminate].
  intros [= <-]. apply List.find_some in E as [Hin _]. apply list_elem_of_fmap_2, list_elem_of_In, Hin.
Qed.

Lemma oci_handler_bounded matched path : OciMetrics.handler_for matched path ∈ OciMetrics.handler_labels.
Proof.
  unfold OciMetrics.handler_for. destruct (route_label _ matched) as [l|] eqn:E.
  - apply route_label_in in E. apply list_elem_of_In in E. apply list_elem_of_In. cbn in *. tauto.
  - apply list_elem_of_In. repeat case_match; cbn; tauto.
Qed.

Lemma cargo_handler_bounded matched path : CargoMetrics.handler_for matched path ∈ CargoMetrics.handler_labels.
Proof.
  unfold CargoMetrics.handler_for. destruct (route_label _ matched) as [l|] eqn:E.
  - apply route_label_in in E. apply list_elem_of_In in E. apply list_elem_of_In. cbn in *. tauto.
  - apply list_elem_of_In. repeat case_match; cbn; tauto.
Qed.

(** Both servers register their metrics without a panic. *)
Lemma registrations_succeed :
  (exists r, register_all OciMetrics.collectors [] = Ok r) /\ (exists r, register_all CargoMetrics.collectors [] = Ok r).
Proof. split; eexists; vm_compute; reflexivity. Qed.

(** ** Accounting *)

Definition map_sum {K A} `{Countable K} (f : A -> Z) (m : gmap K A) : Z := map_fold (fun _ x n => f x + n) 0 m.

Lemma map_sum_insert {K A} `{Countable K} (f : A -> Z) (m : gmap K A) k x :
  map_sum f (<[k := x]> m) = f x + map_sum f (delete k m).
Proof.
  unfold map_sum. rewrite <- insert_delete_eq, map_fold_insert_L; [reflexivity| |apply lookup_delete_eq].
  intros. lia.
Qed.

Lemma map_sum_update {K A} `{Countable K} (f : A -> Z) (m : gmap K A) k x :
  map_sum f (<[k := x]> m) = map_sum f m + f x - match m !! k with Some y => f y | None => 0 end.
Proof.
  rewrite map_sum_insert. destruct (m !! k) as [y|] eqn:E.
  - rewrite <- (insert_id m k y E) at 2. rewrite map_sum_insert. lia.
  - rewrite delete_id by exact E. lia.
Qed.

(** What the series are worth. *)
Record accounted {G A} (sample : A -> G) (labels : list string) (s : Server (G := G) (A := A)) : Prop := {
  acc_gauge : in_flight (sv_metrics s) = zlen (sv_active s) + sv_dropped s;
  acc_dropped : 0 <= sv_dropped s;
  acc_requests : map_sum id (requests_total (sv_metrics s)) = sv_answered s;
  acc_durations : map_sum zlen (request_duration (sv_metrics s)) = sv_answered s;
  acc_labels : forall k, k ∈ dom (requests_total (sv_metrics s)) ->
    fst (fst k) ∈ ["GET"; "HEAD"; "POST"; "PUT"; "PATCH"; "DELETE"; "OPTIONS"; "OTHER"] /\ snd (fst k) ∈ labels;
  acc_scraped : Forall (fun sc => storage (snd sc) = sample (fst sc) /\ 1 <= in_flight (snd sc)) (sv_scraped s)
}.

Lemma sstep_accounted {G A} handler_for (sample : A -> G) labels s s' :
  (forall m p, handler_for m p ∈ labels) -> sstep handler_for sample s s' -> accounted sample labels s -> accounted sample labels s'.
Proof.
  intros Hl Hst [Hg Hdr Hr Hd Hk Hsc]. destruct Hst; cbn in *.
  - split; cbn; rewrite ?zlen_cons; [lia|assumption..].
  - split; assumption.
  - split; cbn; try assumption. constructor; [|exact Hsc]. cbn. split; [reflexivity|].
    apply list_elem_of_split in H as (l1 & l2 & ->). rewrite Hg, zlen_app, zlen_cons. pose proof (zlen_nonneg l1). pose proof (zlen_nonneg l2). lia.
  - rewrite zlen_app, zlen_cons in Hg. split; cbn; rewrite ?zlen_app; [lia|assumption| | | |assumption].
    + unfold inc. rewrite map_sum_update. destruct (_ !! _); cbn; unfold id in *; lia.
    + unfold observe. rewrite map_sum_update. destruct (_ !! _); cbn; rewrite ?zlen_app, ?zlen_cons, ?zlen_nil; lia.
    + intros k. unfold inc. rewrite dom_insert, elem_of_union, elem_of_singleton.
      intros [->|Hin]; [split; [apply method_label_bounded|apply Hl]|apply Hk, Hin].
  - rewrite zlen_app, zlen_cons in Hg. split; cbn; rewrite ?zlen_app; [lia|lia|assumption..].
Qed.

Lemma reachable_accounted {G A} handler_for (sample : A -> G) labels zero x s :
  (forall m p, handler_for m p ∈ labels) -> rtc (sstep handler_for sample) (server_start zero x) s -> accounted sample labels s.
Proof.
  intros Hl Hs. assert (H0 : accounted sample labels (server_start zero x)).
  { split; [reflexivity|cbn; lia|reflexivity|reflexivity| |constructor]. cbn. intros k. rewrite dom_empty_L. set_solver. }
  revert H0. induction Hs as [|a b c Hab _ IH]; [auto|]. intros Ha. apply IH. eapply sstep_accounted; eassumption.
Qed.

(** In every reachable state of either server, with requests overlapping, the
    request counter and the histogram hold one entry per answered request, under
    method and handler labels from a fixed set whatever the request paths were; the
    gauge of requests being served is their number plus the number of requests whose
    client went away meanwhile, which is never taken off; and every metrics document
    served has the storage gauges of the state it was served in and counts its own
    request. *)
Theorem metrics_account_for_requests :
  (forall n s, rtc (sstep OciMetrics.handler_for oci_sample) (server_start 0 n) s ->
     accounted oci_sample OciMetrics.handler_labels s) /\
  (forall cs s, rtc (sstep CargoMetrics.handler_for cargo_sample) (server_start (0, 0) cs) s ->
     accounted cargo_sample CargoMetrics.handler_labels s).
Proof.
  split; intros x s Hs; eapply reachable_accounted; [|exact Hs| |exact Hs]; intros; [apply oci_handler_bounded|apply cargo_handler_bounded].
Qed.

Lemma metrics_account_for_requests_witness :
  map_sum id (requests_total (track_end OciMetrics.handler_for (mkRequest "GET" (Some "/v2/{*rest}") "/v2/a/blobs/x") 200 1
                                (track_begin (Metrics_new 0)))) = 1.
Proof.
  refine (acc_requests _ _ _ (proj1 metrics_account_for_requests 0
    (mkServer (track_end OciMetrics.handler_for (mkRequest "GET" (Some "/v2/{*rest}") "/v2/a/blobs/x") 200 1 (track_begin (Metrics_new 0)))
              0 [] 1 0 []) _)).
  eapply rtc_l; [apply s_begin with (r := mkRequest "GET" (Some "/v2/{*rest}") "/v2/a/blobs/x")|].
  eapply rtc_l; [apply (s_end _ _ _ _ [] [])|]. apply rtc_refl.
Defined.

(** A client that disconnects while its request is being served leaves the gauge
    at one for good. *)
Lemma dropped_request_leaks_gauge :
  exists s, rtc (sstep OciMetrics.handler_for oci_sample) (server_start 0 0) s /\ sv_active s = [] /\ in_flight (sv_metrics s) = 1.
Proof.
  exists (mkServer (track_begin (Metrics_new 0)) 0 [] 0 1 []). split_and!; [|reflexivity|reflexivity].
  eapply rtc_l; [apply s_begin with (r := mkRequest "GET" None "/v2/a/blobs/x")|].
  eapply rtc_l; [apply (s_drop _ _ _ _ [] [])|]. apply rtc_refl.
Qed.
