(* ===== verification/Addr.v ===== *)
(** * Socket addresses

    What [serve.rs] of both servers uses of [std::net]: reading a [SocketAddr]
    from text, printing it, its port and whether its address is the wildcard.
    The reader follows the grammar of [core::net]: dotted IPv4 octets without
    leading zeros, IPv6 groups with one [::] and an IPv4 tail, a scope identifier,
    a port. *)

From S2P Require Import Prelude Str.
From stdpp Require pretty.

Local Open Scope string_scope.
Local Open Scope Z_scope.

(** ** Numbers *)

(** [char::to_digit(radix)] for radix 10 and 16. *)
Definition to_digit (radix : Z) (c : ascii) : option Z :=
  let v := if is_ascii_digit c then digit_value c
           else if in_range "a" "f" c then Z.of_N (code c) - 87
           else if in_range "A" "F" c then Z.of_N (code c) - 55
           else radix in
  if v <? radix then Some v else None.

(** The digits a text starts with, and the rest. *)
Fixpoint span_digits (radix : Z) (s : string) : list Z * string :=
  match s with
  | "" => ([], "")
  | String c t =>
    match to_digit radix c with
    | Some v => let '(ds, rest) := span_digits radix t in (v :: ds, rest)
    | None => ([], s)
    end
  end.

Definition digits_value (radix : Z) (ds : list Z) : Z := fold_left (fun acc v => acc * radix + v) ds 0.

(** [read_number]: a value up to [limit]; too many digits, no digit and, where
    they are not allowed, leading zeros are refused. *)
Definition read_number (radix : Z) (max_digits : option nat) (allow_zero_prefix : bool) (limit : Z) (s : string)
    : option (Z * string) :=
  let '(ds, rest) := span_digits radix s in
  if match max_digits with Some m => (m <? length ds)%nat | None => false end then None else
  match ds with
  | [] => None
  | d0 :: more =>
    if negb allow_zero_prefix && (d0 =? 0) && negb (bool_decide (more = [])) then None
    else if digits_value radix ds <=? limit then Some (digits_value radix ds, rest) else None
  end.

Definition read_given_char (c : ascii) (s : string) : option string :=
  match s with String d t => if Ascii.eqb d c then Some t else None | "" => None end.

(** [read_separator]: the separator before every part but the first. *)
Definition read_separator {A} (sep : ascii) (index : nat) (inner : string -> option (A * string)) (s : string)
    : option (A * string) :=
  match index with O => inner s | S _ => s ← read_given_char sep s; inner s end.

(** ** Addresses *)

Inductive IpAddr := V4 (octets : Z * Z * Z * Z) | V6 (segments : list Z).

Record SocketAddr := mkSocketAddr { ip : IpAddr; port : Z; scope_id : Z }.

Definition read_octet (i : nat) : string -> option (Z * string) := read_separator "." i (read_number 10 (Some 3%nat) false 255).

Definition read_ipv4 (s : string) : option (Z * Z * Z * Z * string) :=
  '(a, s) ← read_octet 0 s;
  '(b, s) ← read_octet 1 s;
  '(c, s) ← read_octet 2 s;
  '(d, s) ← read_octet 3 s;
  Some (a, b, c, d, s).

(** [read_groups] from group [i] of [limit], [n] groups left: the groups read,
    whether an IPv4 tail ended them, and the rest. *)
Fixpoint read_groups (n i limit : nat) (acc : list Z) (s : string) : list Z * bool * string :=
  match n with
  | O => (acc, false, s)
  | S n =>
    match (if (S i <? limit)%nat then read_separator ":" i read_ipv4 s else None) with
    | Some (a, b, c, d, rest) => (app acc [a * 256 + b; c * 256 + d], true, rest)
    | None =>
      match read_separator ":" i (read_number 16 (Some 4%nat) true 65535) s with
      | Some (g, rest) => read_groups n (S i) limit (app acc [g]) rest
      | None => (acc, false, s)
      end
    end
  end.

Definition read_ipv6 (s : string) : option (list Z * string) :=
  let '(head, head_ipv4, s) := read_groups 8 0 8 [] s in
  if (length head =? 8)%nat then Some (head, s) else
  if head_ipv4 then None else
  s ← read_given_char ":" s;
  s ← read_given_char ":" s;
  let limit := (8 - (length head + 1))%nat in
  let '(tail, _, s) := read_groups limit 0 limit [] s in
  Some (app head (app (replicate (8 - length tail - length head) 0) tail), s).

Definition read_port (s : string) : option (Z * string) :=
  s ← read_given_char ":" s; read_number 10 None true 65535 s.

Definition read_socket_addr_v4 (s : string) : option (SocketAddr * string) :=
  '(a, b, c, d, s) ← read_ipv4 s;
  '(p, s) ← read_port s;
  Some (mkSocketAddr (V4 (a, b, c, d)) p 0, s).

Definition read_scope_id (s : string) : option (Z * string) :=
  s ← read_given_char "%" s; read_number 10 None true U32_MAX s.

Definition read_socket_addr_v6 (s : string) : option (SocketAddr * string) :=
  s ← read_given_char "[" s;
  '(segs, s) ← read_ipv6 s;
  let '(scope, s) := match read_scope_id s with Some r => r | None => (0, s) end in
  s ← read_given_char "]" s;
  '(p, s) ← read_port s;
  Some (mkSocketAddr (V6 segs) p scope, s).

(** [str::parse::<SocketAddr>]: the whole text. *)
Definition parse_socket_addr (s : string) : option SocketAddr :=
  match (match read_socket_addr_v4 s with Some r => Some r | None => read_socket_addr_v6 s end) with
  | Some (a, "") => Some a
  | _ => None
  end.

Definition is_unspecified (a : IpAddr) : bool :=
  match a with
  | V4 (a, b, c, d) => (a =? 0) && (b =? 0) && (c =? 0) && (d =? 0)
  | V6 segs => forallb (Z.eqb 0) segs
  end.

(** ** Printing *)

Definition hex_char (v : Z) : ascii := ascii_of_N (Z.to_N (if v <? 10 then v + 48 else v + 87)).

(** [{:x}] of a 16-bit number. *)
Definition display_hex (v : Z) : string :=
  let ds := [v / 4096 mod 16; v / 256 mod 16; v / 16 mod 16; v mod 16] in
  let fix strip l := match l with [d] => [d] | d :: l => if d =? 0 then strip l else d :: l | [] => [] end in
  String.string_of_list_ascii (map hex_char (strip ds)).

Definition display_ipv4 (o : Z * Z * Z * Z) : string :=
  let '(a, b, c, d) := o in
  display_u64 a ++ "." ++ display_u64 b ++ "." ++ display_u64 c ++ "." ++ display_u64 d.

(** The first longest run of zero groups: its start and length. *)
Fixpoint zero_span (i : nat) (segs : list Z) (current longest : nat * nat) : nat * nat :=
  match segs with
  | [] => longest
  | g :: segs =>
    if g =? 0
    then let current := ((if (snd current =? 0)%nat then i else fst current), S (snd current)) in
         zero_span (S i) segs current (if (snd longest <? snd current)%nat then current else longest)
    else zero_span (S i) segs (0, 0)%nat longest
  end.

Definition display_ipv6 (segs : list Z) : string :=
  match segs with
  | [0; 0; 0; 0; 0; 65535; g; h] => "::ffff:" ++ display_ipv4 (g / 256, g mod 256, h / 256, h mod 256)
  | _ =>
    let '(start, len) := zero_span 0 segs (0, 0)%nat (0, 0)%nat in
    if (1 <? len)%nat
    then join ":" (map display_hex (take start segs)) ++ "::" ++ join ":" (map display_hex (drop (start + len) segs))
    else join ":" (map display_hex segs)
  end.

Definition display_socket_addr (a : SocketAddr) : string :=
  match ip a with
  | V4 o => display_ipv4 o ++ ":" ++ display_u64 (port a)
  | V6 segs =>
    if scope_id a =? 0 then "[" ++ display_ipv6 segs ++ "]:" ++ display_u64 (port a)
    else "[" ++ display_ipv6 segs ++ "%" ++ display_u64 (scope_id a) ++ "]:" ++ display_u64 (port a)
  end.

Example parse_v6 : display_socket_addr <$> parse_socket_addr "[2001:DB8:0:0:1::1%7]:8080" = Some "[2001:db8::1:0:0:1%7]:8080".
Proof. vm_compute. reflexivity. Qed.

Example parse_v6_mapped : display_socket_addr <$> parse_socket_addr "[::ffff:10.0.0.1]:80" = Some "[::ffff:10.0.0.1]:80".
Proof. vm_compute. reflexivity. Qed.

Example parse_octal : parse_socket_addr "010.0.0.1:80" = None /\ parse_socket_addr "10.0.0.1" = None /\ parse_socket_addr "localhost:80" = None.
Proof. vm_compute. auto. Qed.

(** ** Round trip *)

Lemma to_digit_10 c : to_digit 10 c = if is_ascii_digit c then Some (digit_value c) else None.
Proof. destruct c as [[] [] [] [] [] [] [] []]; vm_compute; reflexivity. Qed.

(** A text that starts with no digit. *)
Definition no_digit (s : string) : Prop := match s with "" => True | String c _ => is_ascii_digit c = false end.

Lemma span_digits_app s rest :
  str_all is_ascii_digit s = true -> no_digit rest -> span_digits 10 (s ++ rest) = (fst (span_digits 10 s), rest).
Proof.
  intros Hs Hr. induction s as [|c s IH].
  - rewrite str_app_nil. destruct rest as [|c rest]; [reflexivity|]. cbn [span_digits]. rewrite to_digit_10, (Hr : is_ascii_digit c = false). reflexivity.
  - cbn in Hs. apply andb_true_iff in Hs as [Hc Hs].
    change (span_digits 10 (String c (s ++ rest)) = (fst (span_digits 10 (String c s)), rest)). cbn [span_digits].
    rewrite to_digit_10, Hc, (IH Hs).
    destruct (span_digits 10 s) as [ds r]. reflexivity.
Qed.

Lemma span_digits_all s : str_all is_ascii_digit s = true -> snd (span_digits 10 s) = "".
Proof. intros Hs. pose proof (span_digits_app s "" Hs I) as H. rewrite str_app_nil_r in H. rewrite H. reflexivity. Qed.

(** A number read to the end of a text is read before any other character. *)
Lemma read_number_app m z l s v rest :
  str_all is_ascii_digit s = true -> no_digit rest ->
  read_number 10 m z l s = Some (v, "") -> read_number 10 m z l (s ++ rest) = Some (v, rest).
Proof.
  intros Hs Hr. unfold read_number. rewrite (span_digits_app s rest Hs Hr). destruct (span_digits 10 s) as [ds r]. cbn [fst].
  repeat case_match; try discriminate; intros [= -> ->]; reflexivity.
Qed.

Lemma digits_value_parse s : forall limit acc n,
  parse_digits limit acc s = Some n -> fold_left (fun acc v => acc * 10 + v) (fst (span_digits 10 s)) acc = n.
Proof.
  induction s as [|c s IH]; cbn; intros limit acc n H; [congruence|]. rewrite to_digit_10. destruct (is_ascii_digit c); [|discriminate].
  destruct (_ <=? limit); [|discriminate]. specialize (IH _ _ _ H). destruct (span_digits 10 s) as [ds r]. exact IH.
Qed.

Lemma parse_digits_display limit n : 0 <= n <= limit -> parse_digits limit 0 (display_u64 n) = Some n.
Proof.
  intros Hn. unfold display_u64, pretty.pretty, pretty.pretty_N. case_decide as H0.
  - change (parse_digits limit 0 "0") with (if 0 <=? limit then Some 0 else None). rewrite (proj2 (Z.leb_le 0 limit)) by lia. f_equal. lia.
  - rewrite parse_digits_pretty by lia. cbn. f_equal. lia.
Qed.

Lemma read_port_display p : 0 <= p <= 65535 -> read_number 10 None true 65535 (display_u64 p) = Some (p, "").
Proof.
  intros Hp. destruct (display_u64_digits p) as [Hne Hd]. pose proof (digits_value_parse _ _ _ _ (parse_digits_display 65535 p Hp)) as Hv.
  pose proof (span_digits_all _ Hd) as Hr. unfold read_number. destruct (display_u64 p) as [|c s]; [contradiction|].
  cbn in Hd. apply andb_true_iff in Hd as [Hc _]. cbn [span_digits] in *. rewrite to_digit_10, Hc in *.
  destruct (span_digits 10 s) as [ds r]. cbn [fst snd] in *. subst r. unfold digits_value.
  rewrite Hv. cbn. rewrite (proj2 (Z.leb_le p 65535)) by lia. reflexivity.
Qed.

Lemma read_octet_display a : 0 <= a <= 255 -> read_number 10 (Some 3%nat) false 255 (display_u64 a) = Some (a, "").
Proof.
  intros Ha. assert (Hall : forallb (fun n => bool_decide (read_number 10 (Some 3%nat) false 255 (display_u64 (Z.of_nat n)) = Some (Z.of_nat n, "")))
    (seq 0 256) = true) by (vm_compute; reflexivity).
  rewrite List.forallb_forall in Hall. specialize (Hall (Z.to_nat a)). rewrite List.in_seq, bool_decide_eq_true, Z2Nat.id in Hall by lia.
  apply Hall. lia.
Qed.

Lemma read_octet_0 a rest : 0 <= a <= 255 -> no_digit rest -> read_octet 0 (display_u64 a ++ rest) = Some (a, rest).
Proof. intros Ha Hr. apply read_number_app; [apply display_u64_digits|exact Hr|apply read_octet_display, Ha]. Qed.

Lemma read_octet_S i a rest : 0 <= a <= 255 -> no_digit rest -> read_octet (S i) (String "." (display_u64 a ++ rest)) = Some (a, rest).
Proof. intros Ha Hr. exact (read_octet_0 a rest Ha Hr). Qed.

(** An IPv4 address is read back from what it prints as. *)
Theorem parse_display_v4 a b c d p :
  0 <= a <= 255 -> 0 <= b <= 255 -> 0 <= c <= 255 -> 0 <= d <= 255 -> 0 <= p <= 65535 ->
  parse_socket_addr (display_socket_addr (mkSocketAddr (V4 (a, b, c, d)) p 0)) = Some (mkSocketAddr (V4 (a, b, c, d)) p 0).
Proof.
  intros Ha Hb Hc Hd Hp. unfold parse_socket_addr, display_socket_addr, display_ipv4, read_socket_addr_v4, read_ipv4.
  cbn [ip port]. rewrite !str_app_assoc. unfold String.append at 2 4 6 8. fold String.append.
  rewrite (read_octet_0 a) by (exact Ha || reflexivity). cbn [mbind option_bind].
  rewrite (read_octet_S 0 b) by (exact Hb || reflexivity). cbn [mbind option_bind].
  rewrite (read_octet_S 1 c) by (exact Hc || reflexivity). cbn [mbind option_bind].
  rewrite (read_octet_S 2 d) by (exact Hd || reflexivity). cbn [mbind option_bind].
  unfold read_port. cbn [read_given_char]. rewrite Ascii.eqb_refl. cbn [mbind option_bind].
  rewrite (read_port_display p Hp). reflexivity.
Qed.
