(* ===== verification/SharedDisk.v ===== *)
(** * One directory for the blobs and the snapshot

    The binaries of both registries keep two things in one directory
    ([serve.rs]): the filesystem blob store and the snapshot file of the
    metadata. The models of the handlers give each its own file system. This file
    shows that nothing is lost by that: the calls of either side read and write
    only their own part of the directory, whatever faults they meet, so a
    sequence of calls on one disk gives the results it gives on two, and leaves
    on the one disk what it leaves on each of the two. *)

From S2P Require Import Prelude Str Frame Net Fs Digest BlobStore FsStore Json CargoIndex OciRegistry CargoState.

Local Open Scope list_scope.

Create HintDb local.

(** ** States with a file system in them *)

Class HasFs (S : Type) := {
  get_fs : S -> Fs;
  set_fs : Fs -> S -> S;
  get_set_fs : forall f s, get_fs (set_fs f s) = f;
  set_set_fs : forall f g s, set_fs f (set_fs g s) = set_fs f s;
  set_get_fs : forall s, set_fs (get_fs s) s = s
}.

#[export] Instance fs_has_fs : HasFs Fs.
Proof. refine {| get_fs := fun s => s; set_fs := fun f _ => f |}; reflexivity. Defined.

#[export] Instance process_has_fs : HasFs Process.
Proof.
  refine {| get_fs := p_fs; set_fs := fun f s => mkProcess f (tmp_seq s) (pid s) |}; [reflexivity|reflexivity|intros []; reflexivity].
Defined.

#[export] Instance world_has_fs : HasFs World.
Proof.
  refine {| get_fs := w_fs; set_fs := fun f s => mkWorld f (tmp_counter s) (w_pid s) |}; [reflexivity|reflexivity|intros []; reflexivity].
Defined.

Definition tree_of {S} `{HasFs S} (s : S) : tree := files (get_fs s).
Definition set_tree {S} `{HasFs S} (t : tree) (s : S) : S := set_fs (mkFs t (faults (get_fs s))) s.

Lemma tree_of_set {S} `{HasFs S} t (s : S) : tree_of (set_tree t s) = t.
Proof. unfold tree_of, set_tree. rewrite get_set_fs. reflexivity. Qed.

Lemma set_tree_set {S} `{HasFs S} t u (s : S) : set_tree t (set_tree u s) = set_tree t s.
Proof. unfold set_tree. rewrite get_set_fs, set_set_fs. reflexivity. Qed.

(** ** Programs that keep to a part of the tree *)

Definition agree (R : path -> Prop) (t u : tree) : Prop := forall q, R q -> t !! q = u !! q.

(** The part of a tree a program may look at below a directory [d], and the
    part it may change: what it may look at are [d], the directories above it, and
    what it may change. *)
Section Locality.
Context (d : path) (W : path -> Prop).
Hypothesis W_below : forall q, W q -> exists x rest, q = d ++ x :: rest.

(** [d] and the directories above it exist. *)
Definition rooted (t : tree) : Prop := forall k, (1 <= k <= length d)%nat -> t !! take k d = Some Dir.

Definition above (q : path) : Prop := exists k, (k <= length d)%nat /\ q = take k d.
Definition R (q : path) : Prop := above q \/ W q.

Hypothesis R_closed : forall q k, R q -> R (take k q).

Definition local {S E A} `{HasFs S} (m : stm S E A) : Prop := forall s u,
  rooted (tree_of s) -> agree R (tree_of s) u ->
  snd (m (set_tree u s)) = snd (m s) /\
  fst (m (set_tree u s)) = set_tree (tree_of (fst (m (set_tree u s)))) (fst (m s)) /\
  agree R (tree_of (fst (m s))) (tree_of (fst (m (set_tree u s)))) /\
  (forall q, ~ W q -> tree_of (fst (m s)) !! q = tree_of s !! q).

Lemma above_not_W q : above q -> ~ W q.
Proof.
  intros (k & Hk & ->) Hw. apply W_below in Hw as (x & rest & Heq). apply (f_equal length) in Heq.
  rewrite length_take, length_app in Heq. cbn in Heq. lia.
Qed.

Lemma rooted_keeps t u : rooted t -> (forall q, ~ W q -> u !! q = t !! q) -> rooted u.
Proof.
  intros Hr Hu k Hk. rewrite Hu; [exact (Hr k Hk)|]. apply above_not_W. exists k. split; [lia|reflexivity].
Qed.

Lemma rooted_agree t u : rooted t -> agree R t u -> rooted u.
Proof. intros Hr Ha k Hk. rewrite <- (Ha (take k d)); [exact (Hr k Hk)|]. left. exists k. split; [lia|reflexivity]. Qed.

Lemma local_ret {S E A} `{HasFs S} (o : outcome E A) : local (st_lift o : stm S E A).
Proof.
  intros s u _ Ha. cbn. rewrite tree_of_set. auto.
Qed.

Lemma local_bind {S E A B} `{HasFs S} (m : stm S E A) (k : A -> stm S E B) :
  local m -> (forall a, local (k a)) -> local (m ≫= k).
Proof.
  intros Hm Hk s u Hr Ha. destruct (Hm s u Hr Ha) as (Hres & Hst & Hag & Hun).
  unfold mbind, stm_bind. destruct (m s) as [s1 r1], (m (set_tree u s)) as [s2 r2]. cbn [fst snd] in *. subst r2.
  destruct r1 as [a|e|]; cbn [fst snd]; [|split_and!; auto..].
  rewrite Hst. destruct (Hk a s1 (tree_of s2)) as (Hres' & Hst' & Hag' & Hun').
  { eapply rooted_keeps; [exact Hr|exact Hun]. }
  { exact Hag. }
  split_and!; [exact Hres'|exact Hst'|exact Hag'|]. intros q Hq. rewrite Hun' by exact Hq. apply Hun, Hq.
Qed.

(** Looking at the state outside its tree. *)
Lemma local_get {S E A} `{HasFs S} (k : S -> stm S E A) :
  (forall s u, k (set_tree u s) = k s) -> (forall s, local (k s)) -> local (st_get ≫= k).
Proof.
  intros Hk Hl s u Hr Ha. unfold mbind, stm_bind, st_get. rewrite (Hk s u). exact (Hl s s u Hr Ha).
Qed.

(** ** The calls *)

(** What a call does to the tree depends on the part it may look at. *)
Definition local_fn {A} (f : tree -> tree * A) : Prop := forall t u,
  rooted t -> agree R t u ->
  snd (f u) = snd (f t) /\ agree R (fst (f t)) (fst (f u)) /\ (forall q, ~ W q -> fst (f t) !! q = t !! q).

Lemma local_syscall {A} (f : option fault -> tree -> tree * outcome io_error A) :
  (forall x, local_fn (f x)) -> local (Fs.syscall f).
Proof.
  intros Hf s u Hr Ha. unfold tree_of, set_tree in *. cbn in *. rewrite !Fs.syscall_run. cbn.
  change (Fs.next_fault (mkFs u (faults s))) with (Fs.next_fault s).
  destruct (Hf (Fs.next_fault s) (files s) u Hr Ha) as (H1 & H2 & H3). auto.
Qed.

Lemma local_fn_id {A} (g : tree -> A) :
  (forall t u, rooted t -> agree R t u -> g u = g t) -> local_fn (fun t => (t, g t)).
Proof. intros Hg t u Hr Ha. cbn. auto. Qed.

Lemma local_fn_const {A} (a : A) : local_fn (fun t => (t, a)).
Proof. apply (local_fn_id (fun _ => a)). reflexivity. Qed.

Lemma agree_insert t u q n : agree R t u -> agree R (<[q := n]> t) (<[q := n]> u).
Proof.
  intros Ha p Hp. destruct (decide (q = p)) as [->|Hne]; [rewrite !lookup_insert_eq; reflexivity|].
  rewrite !lookup_insert_ne by exact Hne. exact (Ha p Hp).
Qed.

Lemma disk_agree_delete t u q : agree R t u -> agree R (delete q t) (delete q u).
Proof.
  intros Ha p Hp. destruct (decide (q = p)) as [->|Hne]; [rewrite !lookup_delete_eq; reflexivity|].
  rewrite !lookup_delete_ne by exact Hne. exact (Ha p Hp).
Qed.

Lemma insert_outside (t : tree) q n : W q -> forall p, ~ W p -> <[q := n]> t !! p = t !! p.
Proof. intros Hq p Hp. apply lookup_insert_ne. congruence. Qed.

Lemma delete_outside (t : tree) q : W q -> forall p, ~ W p -> delete q t !! p = t !! p.
Proof. intros Hq p Hp. apply lookup_delete_ne. congruence. Qed.

Lemma is_dir_in_agree t u p : R p -> agree R t u -> Fs.is_dir_in u p = Fs.is_dir_in t p.
Proof. intros Hp Ha. unfold Fs.is_dir_in. rewrite (Ha p Hp). reflexivity. Qed.

Lemma missing_agree t u p : R p -> agree R t u -> Fs.missing u p = Fs.missing t p.
Proof.
  intros Hp Ha. unfold Fs.missing. replace (existsb _ (seq 0 (length p))) with
    (existsb (fun k => match t !! take k p with Some (File _) => true | _ => false end) (seq 0 (length p))); [reflexivity|].
  induction (seq 0 (length p)) as [|k ks IH]; cbn; [reflexivity|].
  rewrite IH, (Ha (take k p)) by apply R_closed, Hp. reflexivity.
Qed.

Lemma R_parent p : R p -> R (Fs.parent p).
Proof. apply R_closed. Qed.

Lemma can_write_agree t u p : R p -> agree R t u -> Fs.can_write u p = Fs.can_write t p.
Proof.
  intros Hp Ha. unfold Fs.can_write. rewrite !(is_dir_in_agree t u), (missing_agree t u) by auto using R_parent. reflexivity.
Qed.

Lemma R_of_W p : W p -> R p.
Proof. right. assumption. Qed.

Lemma local_write p b : W p -> local (Fs.write p b).
Proof.
  intros Hp. apply local_syscall. intros x t u Hr Ha. rewrite (can_write_agree t u) by auto using R_of_W.
  destruct (Fs.can_write t p) as [?|?|]; [destruct x as [[[k|] c m]|]|..]; cbn; auto using agree_insert, insert_outside.
Qed.

Lemma local_create_new p : W p -> local (Fs.create_new p).
Proof.
  intros Hp. apply local_syscall. intros [f|]; [apply local_fn_const|]. intros t u Hr Ha.
  rewrite (can_write_agree t u), <- (Ha p) by auto using R_of_W.
  destruct (Fs.can_write t p); [destruct (t !! p)|..]; cbn; auto using agree_insert, insert_outside.
Qed.

Lemma local_write_all p b : W p -> local (Fs.write_all p b).
Proof. intros Hp. apply local_syscall. intros [f|] t u Hr Ha; cbn; auto using agree_insert, insert_outside. Qed.

Lemma local_sync_all : local Fs.sync_all.
Proof. apply local_syscall. intros [f|]; apply local_fn_const. Qed.

Lemma local_open_dir p : R p -> local (Fs.open_dir p).
Proof.
  intros Hp. apply local_syscall. intros [f|]; [apply local_fn_const|]. apply local_fn_id. intros t u Hr Ha.
  rewrite (is_dir_in_agree t u), (missing_agree t u) by assumption. reflexivity.
Qed.

Lemma local_rename p q : W p -> W q -> local (Fs.rename p q).
Proof.
  intros Hp Hq. apply local_syscall. intros [f|]; [apply local_fn_const|]. intros t u Hr Ha.
  rewrite (can_write_agree t u), (missing_agree t u), <- (Ha p) by auto using R_of_W.
  destruct (t !! p) as [[|c]|]; [cbn; auto|destruct (Fs.can_write t q)|]; cbn; auto.
  split_and!; [reflexivity|apply agree_insert, disk_agree_delete, Ha|]. intros x Hx.
  rewrite insert_outside, delete_outside by assumption. reflexivity.
Qed.

Lemma local_remove_file p : W p -> local (Fs.remove_file p).
Proof.
  intros Hp. apply local_syscall. intros [f|]; [apply local_fn_const|]. intros t u Hr Ha.
  rewrite (missing_agree t u), <- (Ha p) by auto using R_of_W.
  destruct (t !! p) as [[|c]|]; cbn; auto using disk_agree_delete, delete_outside.
Qed.

Lemma local_read p : R p -> local (Fs.read p).
Proof.
  intros Hp. apply local_syscall. intros [f|]; [apply local_fn_const|]. intros t u Hr Ha.
  rewrite (missing_agree t u), <- (Ha p) by assumption. destruct (t !! p) as [[|c]|]; cbn; auto.
Qed.

Lemma local_metadata p : R p -> local (Fs.metadata p).
Proof.
  intros Hp. apply local_syscall. intros [f|]; [apply local_fn_const|]. apply local_fn_id. intros t u Hr Ha.
  rewrite (missing_agree t u), <- (Ha p) by assumption. reflexivity.
Qed.

(** A program may list a directory when it may look at all its entries. *)
Lemma local_read_dir p : R p -> (forall x, R (p ++ [x])) -> local (Fs.read_dir p).
Proof.
  intros Hp Hx. apply local_syscall. intros [f|]; [apply local_fn_const|]. apply local_fn_id. intros t u Hr Ha.
  rewrite (missing_agree t u), (is_dir_in_agree t u), (Fs.children_agree t u) by auto. reflexivity.
Qed.

Lemma local_next_entry names : local (Fs.next_entry names).
Proof. apply local_syscall. intros [f|]; apply local_fn_const. Qed.

(** A fault that cuts a [create_dir_all] short, and its whole run. *)
Lemma local_make_dirs p n : W p -> (n <= length p)%nat -> local_fn (Fs.make_dirs p n).
Proof.
  intros Hp Hn t u Hr Ha.
  assert (Hun : forall q, ~ W q -> fst (Fs.make_dirs p n t) !! q = t !! q).
  { intros q Hq. destruct (Fs.make_dirs_lookup p n t q Hn) as [H|(_ & Hnone & k & Hk & ->)]; [exact H|].
    exfalso. destruct (R_closed p k (R_of_W p Hp)) as [(j & Hj & Heq)|Hw]; [|exact (Hq Hw)].
    rewrite Heq in Hnone. destruct j as [|j]; [|rewrite Hr in Hnone by lia; discriminate].
    apply (f_equal length) in Heq. rewrite !length_take in Heq. lia. }
  assert (Hag : snd (Fs.make_dirs p n u) = snd (Fs.make_dirs p n t) /\ agree R (fst (Fs.make_dirs p n t)) (fst (Fs.make_dirs p n u))).
  { clear Hun. induction n as [|k IH]; [cbn; auto|]. cbn [Fs.make_dirs]. destruct (IH ltac:(lia)) as [Hs Hk].
    destruct (Fs.make_dirs p k t) as [t1 r1], (Fs.make_dirs p k u) as [u1 r2]. cbn [fst snd] in *. subst r2.
    destruct r1; [|cbn; auto..]. rewrite <- (Hk (take (S k) p)) by apply R_closed, R_of_W, Hp.
    destruct (t1 !! take (S k) p) as [[|c]|]; cbn; auto using agree_insert. }
  tauto.
Qed.

Lemma local_create_dir_all p : W p -> local (Fs.create_dir_all p).
Proof.
  intros Hp. apply local_syscall. intros [f|]; [|apply local_make_dirs; [exact Hp|lia]]. intros t u Hr Ha. cbn.
  destruct (local_make_dirs p (min (default 0 (partial f)) (pred (length p))) Hp ltac:(lia) t u Hr Ha) as (_ & H1 & H2). auto.
Qed.

End Locality.
Arguments local d W {S E A} {_} m.

(** Calls lifted into the states of the store and of the snapshot writer. *)
Section Lifting.
Context (d : path) (W : path -> Prop).
Hypothesis W_below : forall q, W q -> exists x rest, q = d ++ x :: rest.

Lemma local_on_fs {A} (m : stm Fs io_error A) : local d W m -> local d W (FsStore.on_fs m).
Proof.
  intros Hm s u Hr Ha. destruct (Hm (p_fs s) u Hr Ha) as (H1 & H2 & H3 & H4). unfold FsStore.on_fs, set_tree, tree_of in *. cbn in *.
  destruct (m (p_fs s)) as [s1 r1], (m _) as [s2 r2]. cbn in *. subst r2. rewrite H2. cbn. auto.
Qed.

Lemma local_try_fs {A} (m : stm Fs io_error A) : local d W m -> local d W (FsStore.try_fs m).
Proof.
  intros Hm s u Hr Ha. destruct (Hm (p_fs s) u Hr Ha) as (H1 & H2 & H3 & H4). unfold FsStore.try_fs, set_tree, tree_of in *. cbn in *.
  destruct (m (p_fs s)) as [s1 r1], (m _) as [s2 r2]. cbn in *. subst r2. rewrite H2. cbn. auto.
Qed.

Lemma local_on_world {A} (m : stm Fs io_error A) : local d W m -> local d W (on_world m).
Proof.
  intros Hm s u Hr Ha. destruct (Hm (w_fs s) u Hr Ha) as (H1 & H2 & H3 & H4). unfold on_world, set_tree, tree_of in *. cbn in *.
  destruct (m (w_fs s)) as [s1 r1], (m _) as [s2 r2]. cbn in *. subst r2. rewrite H2. cbn. auto.
Qed.

Lemma local_try_world {A} (m : stm Fs io_error A) : local d W m -> local d W (try_world m).
Proof.
  intros Hm s u Hr Ha. destruct (Hm (w_fs s) u Hr Ha) as (H1 & H2 & H3 & H4). unfold try_world, set_tree, tree_of in *. cbn in *.
  destruct (m (w_fs s)) as [s1 r1], (m _) as [s2 r2]. cbn in *. subst r2. rewrite H2. cbn. auto.
Qed.

Lemma local_next_tmp_seq : local d W FsStore.next_tmp_seq.
Proof. intros s u Hr Ha. cbn. auto. Qed.

Lemma local_next_tmp_counter : local d W next_tmp_counter.
Proof. intros s u Hr Ha. cbn. auto. Qed.

Lemma local_test_path f p : local d W (Fs.metadata p) -> local d W (Fs.test_path f p).
Proof.
  intros Hm s u Hr Ha. destruct (Hm s u Hr Ha) as (H1 & H2 & H3 & H4). unfold Fs.test_path in *.
  destruct (Fs.metadata p s) as [s1 r1], (Fs.metadata p (set_tree u s)) as [s2 r2]. cbn in H1, H2, H3, H4. subst r2.
  destruct r1; cbn; auto.
Qed.

End Lifting.

(** ** The store's part: the directories of the two algorithms *)

Definition blob_part (d : path) (q : path) : Prop := exists a rest, q = d ++ algo_prefix a :: rest.

(** ** The snapshot's part: the entries of [d] whose name starts with the file's *)

Definition snapshot_part (d : path) (file : string) (q : path) : Prop :=
  exists name, q = d ++ [name] /\ starts_with file name = true.

Lemma blob_part_below d q : blob_part d q -> exists x rest, q = d ++ x :: rest.
Proof. intros (a & rest & ->). eauto. Qed.

Lemma snapshot_part_below d file q : snapshot_part d file q -> exists x rest, q = d ++ x :: rest.
Proof. intros (name & -> & _). eauto. Qed.

Lemma take_below (d : path) x rest k :
  (k <= length d /\ take k (d ++ x :: rest) = take k d)%nat \/
  take k (d ++ x :: rest) = d ++ x :: take (k - length d - 1) rest.
Proof.
  destruct (decide (k <= length d)%nat) as [Hk|Hk]; [left; split; [exact Hk|apply take_app_le, Hk]|right].
  rewrite take_app, take_ge by lia. f_equal. destruct (k - length d)%nat as [|j] eqn:E; [lia|]. cbn. f_equal. f_equal. lia.
Qed.

Lemma take_above d q k : above d q -> above d (take k q).
Proof. intros (j & Hj & ->). exists (k `min` j)%nat. split; [lia|]. apply take_take. Qed.

Lemma blob_part_closed d q k : R d (blob_part d) q -> R d (blob_part d) (take k q).
Proof.
  intros [Ha|(a & rest & ->)]; [left; apply take_above, Ha|].
  destruct (take_below d (algo_prefix a) rest k) as [[Hk ->]| ->]; [left; exists k; auto|right; eexists a, _; reflexivity].
Qed.

Lemma snapshot_part_closed d file q k : R d (snapshot_part d file) q -> R d (snapshot_part d file) (take k q).
Proof.
  intros [Ha|(name & -> & Hn)]; [left; apply take_above, Ha|].
  destruct (take_below d name [] k) as [[Hk ->]| ->]; [left; exists k; auto|right]. rewrite take_nil. exists name. auto.
Qed.

#[export] Hint Resolve blob_part_below snapshot_part_below blob_part_closed snapshot_part_closed : local.

Lemma local_mret {S E A} `{HasFs S} d W (a : A) : local d W (mret a : stm S E A).
Proof. exact (local_ret d W (Ok a)). Qed.

Lemma local_throw {S E A} `{HasFs S} d W (e : E) : local d W (st_throw e : stm S E A).
Proof. exact (local_ret d W (Err e)). Qed.

#[export] Hint Resolve local_mret local_throw local_ret local_on_fs local_try_fs local_on_world local_try_world local_next_tmp_seq
  local_next_tmp_counter local_test_path local_write local_create_new local_write_all local_sync_all local_open_dir local_rename
  local_remove_file local_read local_metadata local_next_entry local_create_dir_all R_of_W : local.

(** Through a program bind by bind and branch by branch. *)
Ltac local_go :=
  repeat match goal with
  | |- local _ _ (mbind _ _) => apply local_bind; [eauto with local|eauto 8 with local|intros ?]
  | |- local _ _ (if ?x then _ else _) => destruct x
  | |- local _ _ (match ?x with _ => _ end) => destruct x
  end; eauto 8 with local.

Section Store.
Context `{H : Hashing} (self : FsBlobStore).

Lemma path_for_part d p : FsStore.path_for self d = Ok p -> blob_part (root self) p /\ blob_part (root self) (Fs.parent p).
Proof.
  unfold FsStore.path_for, FsStore.algo_dir. destruct (_ <? 2)%nat; [discriminate|]. intros [= <-].
  rewrite (app_assoc _ [str_take 2 (hex d)] [str_drop 2 (hex d)] : _ = _). rewrite Fs.parent_snoc, <- !app_assoc.
  split; exists (algo d); eauto.
Qed.

Lemma tmp_part a rest : blob_part (root self) (FsStore.tmp_dir self a ++ rest).
Proof. unfold FsStore.tmp_dir, FsStore.algo_dir. rewrite <- !app_assoc. exists a. eauto. Qed.

Lemma tmp_dir_part a : blob_part (root self) (FsStore.tmp_dir self a).
Proof. rewrite <- (app_nil_r (FsStore.tmp_dir self a)). apply tmp_part. Qed.

Hint Resolve tmp_part tmp_dir_part : local.

(** A program that starts from a digest's path. *)
Lemma local_path {A} d (k : path -> stm Process BlobStoreError A) :
  (forall p, blob_part (root self) p -> blob_part (root self) (Fs.parent p) -> local (root self) (blob_part (root self)) (k p)) ->
  local (root self) (blob_part (root self)) (st_lift (FsStore.path_for self d) ≫= k).
Proof.
  intros Hk s u Hr Ha. pose proof (path_for_part d) as Hp. cbn. destruct (FsStore.path_for self d) as [p|e|].
  - destruct (Hp p eq_refl) as [H1 H2]. exact (Hk p H1 H2 s u Hr Ha).
  - exact (local_throw _ _ e s u Hr Ha).
  - exact (local_ret _ _ Panic s u Hr Ha).
Qed.

Lemma local_put d b : local (root self) (blob_part (root self)) (FsStore.put self d b).
Proof.
  unfold FsStore.put. destruct (negb _); [apply local_throw|]. apply local_path. intros p Hp Hpp.
  do 3 (apply local_bind; [eauto with local|eauto 8 with local|intros ?]).
  apply local_get; [reflexivity|]. intros s0. local_go.
Qed.
Lemma local_get_blob d : local (root self) (blob_part (root self)) (FsStore.get self d).
Proof. apply local_path. intros p Hp Hpp. local_go. Qed.

Lemma local_contains d : local (root self) (blob_part (root self)) (FsStore.contains self d).
Proof. apply local_path. intros p Hp Hpp. local_go. Qed.

Lemma local_delete_blob d : local (root self) (blob_part (root self)) (FsStore.delete self d).
Proof. apply local_path. intros p Hp Hpp. local_go. Qed.

(** The listing reads the directories of the store's part, and those only. *)
Lemma algo_part a rest : blob_part (root self) (FsStore.algo_dir self a ++ rest).
Proof. unfold FsStore.algo_dir. rewrite <- app_assoc. exists a. eauto. Qed.

Lemma algo_dir_part a : blob_part (root self) (FsStore.algo_dir self a).
Proof. rewrite <- (app_nil_r (FsStore.algo_dir self a)). apply algo_part. Qed.

Hint Resolve algo_part algo_dir_part : local.

Lemma local_read_dir_below a rest : local (root self) (blob_part (root self)) (Fs.read_dir (FsStore.algo_dir self a ++ rest)).
Proof.
  apply local_read_dir; [eauto with local..|]. intros x. rewrite <- app_assoc. eauto with local.
Qed.

Lemma local_read_algo_dir a : local (root self) (blob_part (root self)) (Fs.read_dir (FsStore.algo_dir self a)).
Proof. rewrite <- (app_nil_r (FsStore.algo_dir self a)). apply local_read_dir_below. Qed.

Hint Resolve local_read_dir_below local_read_algo_dir : local.

Lemma local_for_entries names body :
  (forall name out, local (root self) (blob_part (root self)) (body name out)) ->
  forall out, local (root self) (blob_part (root self)) (FsStore.for_entries names body out).
Proof.
  intros Hb. induction names as [|name names IH]; intros out; cbn [FsStore.for_entries]; local_go.
Qed.

Lemma local_push_file a prefix_name file_name out : local (root self) (blob_part (root self)) (FsStore.push_file a prefix_name file_name out).
Proof. unfold FsStore.push_file. local_go. Qed.

Hint Resolve local_for_entries local_push_file : local.

Lemma local_collect_prefix a prefix_name out : local (root self) (blob_part (root self)) (FsStore.collect_prefix self a prefix_name out).
Proof. unfold FsStore.collect_prefix, Fs.is_dir. local_go. Qed.

Hint Resolve local_collect_prefix : local.

Lemma local_list_algo a out : local (root self) (blob_part (root self)) (FsStore.list_algo self a out).
Proof. unfold FsStore.list_algo, FsStore.collect_algo, Fs.exists_. local_go. Qed.

Hint Resolve local_list_algo : local.

Lemma local_list : local (root self) (blob_part (root self)) (FsStore.list_ self).
Proof. unfold FsStore.list_. local_go. Qed.

End Store.

Lemma snapshot_name_part d file suffix : snapshot_part d file (d ++ [(file ++ suffix)%string]).
Proof. exists (file ++ suffix)%string. split; [reflexivity|]. apply bool_decide_eq_true. exists suffix. apply strip_prefix_app. reflexivity. Qed.

Lemma snapshot_file_part d file : snapshot_part d file (d ++ [file]).
Proof. rewrite <- (str_app_nil_r file) at 2. apply snapshot_name_part. Qed.

Lemma above_self d : above d d.
Proof. exists (length d). split; [lia|]. rewrite take_ge by lia. reflexivity. Qed.

Lemma R_self d W : R d W d.
Proof. left. apply above_self. Qed.

#[export] Hint Resolve snapshot_name_part snapshot_file_part R_self : local.

(** The OCI registry's mirror. *)
Lemma local_write_snapshot `{H : Hashing} `{C : SnapshotCodec} d st :
  local d (snapshot_part d METADATA_FILE_NAME) (write_snapshot_atomic (d ++ [METADATA_FILE_NAME]) st).
Proof.
  unfold write_snapshot_atomic. apply local_bind; [eauto with local|apply local_ret|]. intros b.
  rewrite Fs.parent_snoc. destruct (decide _) as [E|_]; [destruct d; discriminate|].
  change (local d (snapshot_part d METADATA_FILE_NAME) (seq ← next_tmp_counter;
     w ← st_get;
     on_world (Fs.create_new (d ++ [snapshot_tmp_name (w_pid w) seq]));;
     r ← try_world (Fs.write_all (d ++ [snapshot_tmp_name (w_pid w) seq]) b ;; Fs.sync_all);
     or_cleanup (d ++ [snapshot_tmp_name (w_pid w) seq]) r;;
     r ← try_world (Fs.rename (d ++ [snapshot_tmp_name (w_pid w) seq]) (d ++ [METADATA_FILE_NAME]));
     or_cleanup (d ++ [snapshot_tmp_name (w_pid w) seq]) r;;
     on_world (Fs.open_dir d);;
     on_world Fs.sync_all)).
  apply local_bind; [eauto with local..|]. intros seq. apply local_get; [reflexivity|]. intros w.
  assert (Hc : forall r, local d (snapshot_part d METADATA_FILE_NAME) (or_cleanup (d ++ [snapshot_tmp_name (w_pid w) seq]) r)).
  { intros r. unfold or_cleanup, snapshot_tmp_name. local_go. }
  unfold snapshot_tmp_name in *.
  apply local_bind; [eauto with local|eauto 8 with local|]. intros ?.
  apply local_bind; [eauto with local|apply local_try_world; local_go|]. intros ?. local_go.
Qed.

Lemma local_sync_parent_dir d file : local d (snapshot_part d file) (sync_parent_dir d).
Proof.
  intros s u Hr Ha. unfold sync_parent_dir.
  destruct (local_open_dir d (snapshot_part d file) (snapshot_part_closed d file) d (R_self _ _) s u Hr Ha) as (H1 & H2 & H3 & H4).
  destruct (Fs.open_dir d s) as [s1 r1], (Fs.open_dir d (set_tree u s)) as [s2 r2]. cbn [fst snd] in *. subst r2.
  destruct r1; [|auto..]. rewrite H2.
  destruct (local_sync_all d (snapshot_part d file) s1 (tree_of s2)) as (K1 & K2 & K3 & K4).
  { eapply rooted_keeps; [apply snapshot_part_below|exact Hr|exact H4]. }
  { exact H3. }
  destruct (Fs.sync_all s1) as [s3 r3], (Fs.sync_all (set_tree (tree_of s2) s1)) as [s4 r4]. cbn [fst snd] in *. subst r4.
  assert (K5 : forall q, ~ snapshot_part d file q -> tree_of s3 !! q = tree_of s !! q).
  { intros q Hq. rewrite K4, H4 by exact Hq. reflexivity. }
  destruct r3; [cbn; auto| |cbn; auto]. destruct (io_kind _); cbn; auto.
Qed.

Hint Resolve local_sync_parent_dir : local.

(** And Cargo's. *)
Lemma local_write_attempts d b n : forall last_err,
  local d (snapshot_part d STATE_FILE) (write_attempts n d (d ++ [STATE_FILE]) b last_err).
Proof.
  induction n as [|n IH]; intros last_err; [apply local_throw|]. cbn [write_attempts].
  apply local_bind; [eauto with local..|]. intros seq. apply local_get; [reflexivity|]. intros w.
  unfold save_tmp_name. apply local_bind; [eauto with local|eauto 8 with local|]. intros [?|e|]; [|local_go; apply IH|apply local_ret].
  apply local_bind; [eauto with local|apply local_try_world; local_go|]. intros ?. local_go.
Qed.

Lemma local_save `{J : JsonText} d cs : local d (snapshot_part d STATE_FILE) (save d cs).
Proof. unfold save. apply local_bind; [eauto with local|apply local_ret|]. intros json. apply local_write_attempts. Qed.

(** ** Starting on the directory *)

(** [create_dir_all(dir)?; FsBlobStore::new(dir)?], as both servers open their
    store. *)
Definition open_store (d : path) : stm Process BlobStoreError FsBlobStore :=
  FsStore.on_fs (Fs.create_dir_all d);; FsStore.new d.

Lemma make_dirs_rooted d n t : rooted d t -> (n <= length d)%nat -> Fs.make_dirs d n t = (t, Ok tt).
Proof.
  intros Hr. induction n as [|k IH]; intros Hn; [reflexivity|]. cbn [Fs.make_dirs]. rewrite IH by lia. rewrite Hr by lia. reflexivity.
Qed.

Lemma local_create_root d W : local d W (Fs.create_dir_all d).
Proof.
  apply local_syscall. intros [f|] t u Hr Ha; pose proof (rooted_agree d W _ _ Hr Ha) as Hu; cbn;
    rewrite !make_dirs_rooted by (assumption || lia); cbn; auto.
Qed.

Lemma local_open_store d : local d (blob_part d) (open_store d).
Proof. unfold open_store, FsStore.new. local_go; apply local_on_fs, local_create_root. Qed.

(** A start that succeeds leaves the directory in place, and if it was there it
    changes nothing. *)
Lemma make_dirs_all p n t t' : (n <= length p)%nat -> Fs.make_dirs p n t = (t', Ok tt) ->
  forall k, (1 <= k <= n)%nat -> t' !! take k p = Some Dir.
Proof.
  revert t'. induction n as [|j IH]; intros t' Hn; [intros; lia|]. cbn [Fs.make_dirs].
  destruct (Fs.make_dirs p j t) as [t1 [[]|e|]]; [|discriminate..]. specialize (IH t1 ltac:(lia) eq_refl).
  destruct (t1 !! take (S j) p) as [[|c]|] eqn:E; [|discriminate|]; intros [= <-] k Hk.
  - destruct (decide (k = S j)) as [->|]; [exact E|apply IH; lia].
  - destruct (decide (take k p = take (S j) p)) as [->|Hne]; [apply lookup_insert_eq|].
    rewrite lookup_insert_ne by congruence. apply IH. destruct (decide (k = S j)) as [->|]; [contradiction|lia].
Qed.

Lemma create_dir_all_rooted d s s' : Fs.create_dir_all d s = (s', Ok tt) -> rooted d (files s').
Proof.
  unfold Fs.create_dir_all. rewrite Fs.syscall_run. destruct (Fs.next_fault s) as [f|]; [discriminate|].
  destruct (Fs.make_dirs d (length d) (files s)) as [t r] eqn:E. cbn. intros [= <- ->] k Hk. exact (make_dirs_all _ _ _ _ (le_n _) E k Hk).
Qed.

(** ** Sequences of calls *)

Inductive blob_call := BPut (dg : Digest) (b : bytes) | BGet (dg : Digest) | BContains (dg : Digest) | BDelete (dg : Digest)
  | BList.

Inductive blob_result := RDone | RBytes (b : bytes) | RPresent (x : bool) | RDigests (l : list Digest).

(** One server: its store's directory, and its snapshot file with the program that
    writes it and the one that reads it. *)
Section Schedule.
Context `{H : Hashing} (self : FsBlobStore) {X Y : Type} (file : string).
Context (mirror : X -> stm World io_error unit) (load_mirror : stm Fs io_error Y).
Hypothesis mirror_local : forall x, local (root self) (snapshot_part (root self) file) (mirror x).
Hypothesis load_local : local (root self) (snapshot_part (root self) file) load_mirror.
Hypothesis file_apart : forall a, starts_with file (algo_prefix a) = false.

Definition blob_op (c : blob_call) : stm Process BlobStoreError blob_result :=
  match c with
  | BPut dg b => FsStore.put self dg b;; mret RDone
  | BGet dg => b ← FsStore.get self dg; mret (RBytes b)
  | BContains dg => x ← FsStore.contains self dg; mret (RPresent x)
  | BDelete dg => FsStore.delete self dg;; mret RDone
  | BList => l ← FsStore.list_ self; mret (RDigests l)
  end.

(** A call of the blob store, a save of the metadata, or a restart of the process
    under an identifier, each with the faults its system calls meet. *)
Inductive disk_call :=
| CBlob (c : blob_call) (script : list (option fault))
| CSave (x : X) (script : list (option fault))
| CRestart (new_pid : Z) (script script' : list (option fault)).

Inductive disk_result :=
| DBlob (r : outcome BlobStoreError blob_result)
| DSave (r : outcome io_error unit)
| DRestart (r : outcome BlobStoreError FsBlobStore) (y : outcome io_error Y).

(** What a process keeps besides its disk. *)
Record Counters := mkCounters { c_seq : Z; c_counter : Z; c_pid : Z }.

Definition run_blob {A} (m : stm Process BlobStoreError A) (script : list (option fault)) (t : tree) (c : Counters)
    : tree * Counters * outcome BlobStoreError A :=
  let '(p, r) := m (mkProcess (mkFs t script) (c_seq c) (c_pid c)) in
  (files (p_fs p), mkCounters (tmp_seq p) (c_counter c) (c_pid c), r).

Definition run_save (m : stm World io_error unit) (script : list (option fault)) (t : tree) (c : Counters)
    : tree * Counters * outcome io_error unit :=
  let '(w, r) := m (mkWorld (mkFs t script) (c_counter c) (c_pid c)) in
  (files (w_fs w), mkCounters (c_seq c) (tmp_counter w) (c_pid c), r).

Definition run_load (script : list (option fault)) (t : tree) : tree * outcome io_error Y :=
  let '(f, r) := load_mirror (mkFs t script) in (files f, r).

Definition fresh (i : Z) : Counters := mkCounters 0 0 i.

(** On one disk. *)
Definition one_step (c : disk_call) (s : tree * Counters) : tree * Counters * disk_result :=
  let '(t, k) := s in
  match c with
  | CBlob b script => let '(t, k, r) := run_blob (blob_op b) script t k in (t, k, DBlob r)
  | CSave x script => let '(t, k, r) := run_save (mirror x) script t k in (t, k, DSave r)
  | CRestart i script script' =>
    let '(t, k, r) := run_blob (open_store (root self)) script t (fresh i) in
    let '(t, y) := run_load script' t in (t, k, DRestart r y)
  end.

(** On two: the first for the blobs, the second for the snapshot. *)
Definition two_step (c : disk_call) (s : tree * tree * Counters) : tree * tree * Counters * disk_result :=
  let '(tb, ts, k) := s in
  match c with
  | CBlob b script => let '(tb, k, r) := run_blob (blob_op b) script tb k in (tb, ts, k, DBlob r)
  | CSave x script => let '(ts, k, r) := run_save (mirror x) script ts k in (tb, ts, k, DSave r)
  | CRestart i script script' =>
    let '(tb, k, r) := run_blob (open_store (root self)) script tb (fresh i) in
    let '(ts, y) := run_load script' ts in (tb, ts, k, DRestart r y)
  end.

Fixpoint one_run (cs : list disk_call) (s : tree * Counters) : tree * Counters * list disk_result :=
  match cs with
  | [] => (s, [])
  | c :: cs => let '(s, r) := one_step c s in let '(s, rs) := one_run cs s in (s, r :: rs)
  end.

Fixpoint two_run (cs : list disk_call) (s : tree * tree * Counters) : tree * tree * Counters * list disk_result :=
  match cs with
  | [] => (s, [])
  | c :: cs => let '(s, r) := two_step c s in let '(s, rs) := two_run cs s in (s, r :: rs)
  end.

(** The one disk has the blobs of the first of the two and the snapshot files of
    the second. *)
Record same_disk (t tb ts : tree) : Prop := {
  sd_rooted : rooted (root self) t;
  sd_blobs : agree (R (root self) (blob_part (root self))) t tb;
  sd_snapshot : agree (R (root self) (snapshot_part (root self) file)) t ts
}.

Lemma local_blob_op c : local (root self) (blob_part (root self)) (blob_op c).
Proof. destruct c; (apply local_bind; [eauto with local| |eauto with local]); auto using local_put, local_get_blob, local_contains, local_delete_blob, local_list. Qed.

Lemma parts_apart q : blob_part (root self) q -> ~ snapshot_part (root self) file q.
Proof using file_apart.
  intros (a & rest & ->) (name & Heq & Hn). apply app_inv_head in Heq. injection Heq as <- _. rewrite file_apart in Hn. discriminate.
Qed.

Lemma snapshot_reads_no_blob q : R (root self) (snapshot_part (root self) file) q -> ~ blob_part (root self) q.
Proof using file_apart.
  intros [Ha|Hs] Hb; [exact (above_not_W _ _ (blob_part_below (root self)) q Ha Hb)|exact (parts_apart q Hb Hs)].
Qed.

Lemma blob_reads_no_snapshot q : R (root self) (blob_part (root self)) q -> ~ snapshot_part (root self) file q.
Proof using file_apart.
  intros [Ha|Hb] Hs; [exact (above_not_W _ _ (snapshot_part_below (root self) file) q Ha Hs)|exact (parts_apart q Hb Hs)].
Qed.

(** A program of the blob side, on the one disk and on its own. *)
Lemma run_blob_same {A} (m : stm Process BlobStoreError A) script k t tb ts :
  local (root self) (blob_part (root self)) m -> same_disk t tb ts ->
  exists t' tb' k' r, run_blob m script t k = (t', k', r) /\ run_blob m script tb k = (tb', k', r) /\ same_disk t' tb' ts.
Proof using file_apart.
  intros Hm [Hr Hb Hs]. unfold run_blob.
  destruct (Hm (mkProcess (mkFs t script) (c_seq k) (c_pid k)) tb Hr Hb) as (H1 & H2 & H3 & H4). unfold set_tree, tree_of in *. cbn in *.
  destruct (m (mkProcess (mkFs t script) _ _)) as [p r], (m (mkProcess (mkFs tb script) _ _)) as [p' r']. cbn in *. subst r'.
  rewrite H2. cbn. do 4 eexists. split_and!; [reflexivity..|]. split.
  - exact (rooted_keeps _ _ (blob_part_below (root self)) _ _ Hr H4).
  - exact H3.
  - intros q Hq. rewrite H4 by exact (snapshot_reads_no_blob q Hq). exact (Hs q Hq).
Qed.

(** And of the snapshot side. *)
Lemma run_save_same (m : stm World io_error unit) script k t tb ts :
  local (root self) (snapshot_part (root self) file) m -> same_disk t tb ts ->
  exists t' ts' k' r, run_save m script t k = (t', k', r) /\ run_save m script ts k = (ts', k', r) /\ same_disk t' tb ts'.
Proof using file_apart.
  intros Hm [Hr Hb Hs]. unfold run_save.
  destruct (Hm (mkWorld (mkFs t script) (c_counter k) (c_pid k)) ts Hr Hs) as (H1 & H2 & H3 & H4). unfold set_tree, tree_of in *. cbn in *.
  destruct (m (mkWorld (mkFs t script) _ _)) as [p r], (m (mkWorld (mkFs ts script) _ _)) as [p' r']. cbn in *. subst r'.
  rewrite H2. cbn. do 4 eexists. split_and!; [reflexivity..|]. split.
  - exact (rooted_keeps _ _ (snapshot_part_below (root self) file) _ _ Hr H4).
  - intros q Hq. rewrite H4 by exact (blob_reads_no_snapshot q Hq). exact (Hb q Hq).
  - exact H3.
Qed.

Lemma run_load_same script t tb ts :
  same_disk t tb ts -> exists t' ts' r, run_load script t = (t', r) /\ run_load script ts = (ts', r) /\ same_disk t' tb ts'.
Proof using load_local file_apart.
  intros [Hr Hb Hs]. unfold run_load.
  destruct (load_local (mkFs t script) ts Hr Hs) as (H1 & H2 & H3 & H4). unfold set_tree, tree_of in *. cbn in *.
  destruct (load_mirror (mkFs t script)) as [f r], (load_mirror (mkFs ts script)) as [f' r']. cbn in *. subst r'.
  do 3 eexists. split_and!; [reflexivity..|]. split.
  - exact (rooted_keeps _ _ (snapshot_part_below (root self) file) _ _ Hr H4).
  - intros q Hq. rewrite H4 by exact (blob_reads_no_snapshot q Hq). exact (Hb q Hq).
  - exact H3.
Qed.

Lemma step_same c t tb ts k :
  same_disk t tb ts ->
  exists t' tb' ts' k' r, one_step c (t, k) = (t', k', r) /\ two_step c (tb, ts, k) = (tb', ts', k', r) /\ same_disk t' tb' ts'.
Proof using mirror_local load_local file_apart.
  intros Hs. destruct c as [b script|x script|i script script']; cbn.
  - destruct (run_blob_same (blob_op b) script k _ _ _ (local_blob_op b) Hs) as (t' & tb' & k' & r & -> & -> & Hs').
    do 5 eexists. split_and!; [reflexivity..|exact Hs'].
  - destruct (run_save_same (mirror x) script k _ _ _ (mirror_local x) Hs) as (t' & ts' & k' & r & -> & -> & Hs').
    do 5 eexists. split_and!; [reflexivity..|exact Hs'].
  - destruct (run_blob_same (open_store (root self)) script (fresh i) _ _ _ (local_open_store (root self)) Hs)
      as (t1 & tb1 & k1 & r & -> & -> & Hs1).
    destruct (run_load_same script' _ _ _ Hs1) as (t2 & ts2 & y & -> & -> & Hs2).
    do 5 eexists. split_and!; [reflexivity..|exact Hs2].
Qed.

Lemma run_same cs : forall t tb ts k,
  same_disk t tb ts ->
  exists t' tb' ts' k' rs, one_run cs (t, k) = (t', k', rs) /\ two_run cs (tb, ts, k) = (tb', ts', k', rs) /\ same_disk t' tb' ts'.
Proof using mirror_local load_local file_apart.
  induction cs as [|c cs IH]; intros t tb ts k Hs; cbn [one_run two_run].
  - do 5 eexists. split_and!; [reflexivity..|exact Hs].
  - destruct (step_same c t tb ts k Hs) as (t1 & tb1 & ts1 & k1 & r & -> & -> & Hs1).
    destruct (IH t1 tb1 ts1 k1 Hs1) as (t2 & tb2 & ts2 & k2 & rs & -> & -> & Hs2).
    do 5 eexists. split_and!; [reflexivity..|exact Hs2].
Qed.

End Schedule.
Arguments CBlob {X} _ _.
Arguments CSave {X} _ _.
Arguments CRestart {X} _ _ _.

Lemma same_disk_refl self file t : rooted (root self) t -> same_disk self file t t t.
Proof. intros Hr. split; [exact Hr|intros q _; reflexivity|intros q _; reflexivity]. Qed.

(** The readers of the two snapshot files. *)
Lemma local_load_snapshot `{H : Hashing} `{C : SnapshotCodec} d :
  local d (snapshot_part d METADATA_FILE_NAME) (load_snapshot (d ++ [METADATA_FILE_NAME])).
Proof.
  intros s u Hr Ha. unfold load_snapshot.
  destruct (local_read d (snapshot_part d METADATA_FILE_NAME) (snapshot_part_closed d METADATA_FILE_NAME) (d ++ [METADATA_FILE_NAME])
              (R_of_W _ _ _ (snapshot_file_part d METADATA_FILE_NAME)) s u Hr Ha) as (H1 & H2 & H3 & H4).
  destruct (Fs.read _ s) as [s1 r1], (Fs.read _ (set_tree u s)) as [s2 r2]. cbn [fst snd] in *. subst r2.
  destruct r1 as [raw|e|]; [destruct (json_from_slice raw)|destruct (io_kind e)|]; cbn; auto.
Qed.

Lemma local_load `{J : JsonText} d : local d (snapshot_part d STATE_FILE) (load d).
Proof.
  intros s u Hr Ha. unfold load, state_path.
  destruct (local_read d (snapshot_part d STATE_FILE) (snapshot_part_closed d STATE_FILE) (d ++ [STATE_FILE])
              (R_of_W _ _ _ (snapshot_file_part d STATE_FILE)) s u Hr Ha) as (H1 & H2 & H3 & H4).
  destruct (Fs.read _ s) as [s1 r1], (Fs.read _ (set_tree u s)) as [s2 r2]. cbn [fst snd] in *. subst r2.
  destruct r1 as [raw|e|]; [destruct (json_read raw ≫= de_Snapshot)|..]; cbn; auto.
Qed.

(** C9: one directory behaves as two disks. Both registries keep their blobs and the
    snapshot file of their metadata in one directory. Suppose it and the directories
    above it exist, as a successful start leaves them. For any sequence of put, get,
    contains, delete and list calls of the blob store, snapshot saves and restarts,
    with any faults in any of their system calls, the results on the one disk are
    those on two separate disks, restarts read the same metadata, and in the end the
    one disk has the blobs of the one and the snapshot files of the other: neither
    component ever sees or harms the other's files. A directory is listed in the
    order of its names, the same on both sides. *)
Theorem one_directory_serves_both `{H : Hashing} `{C : SnapshotCodec} `{J : JsonText} (self : FsBlobStore) (t : tree) (k : Counters) :
  rooted (root self) t ->
  (forall cs : list (disk_call (X := MetadataSnapshot)),
    let '(t', k1, rs1) := one_run self (write_snapshot_atomic (root self ++ [METADATA_FILE_NAME]))
                            (load_snapshot (root self ++ [METADATA_FILE_NAME])) cs (t, k) in
    let '(tb, ts, k2, rs2) := two_run self (write_snapshot_atomic (root self ++ [METADATA_FILE_NAME]))
                            (load_snapshot (root self ++ [METADATA_FILE_NAME])) cs (t, t, k) in
    rs1 = rs2 /\ k1 = k2 /\ same_disk self METADATA_FILE_NAME t' tb ts) /\
  (forall cs : list (disk_call (X := crate_map)),
    let '(t', k1, rs1) := one_run self (save (root self)) (load (root self)) cs (t, k) in
    let '(tb, ts, k2, rs2) := two_run self (save (root self)) (load (root self)) cs (t, t, k) in
    rs1 = rs2 /\ k1 = k2 /\ same_disk self STATE_FILE t' tb ts).
Proof.
  intros Hr. split; intros cs.
  - destruct (run_same self METADATA_FILE_NAME (write_snapshot_atomic (root self ++ [METADATA_FILE_NAME]))
      (load_snapshot (root self ++ [METADATA_FILE_NAME])) (fun x => local_write_snapshot (root self) x) (local_load_snapshot (root self))
      ltac:(intros []; reflexivity) cs t t t k (same_disk_refl self _ t Hr)) as (t' & tb & ts & k' & rs & -> & -> & Hs). auto.
  - destruct (run_same self STATE_FILE (save (root self)) (load (root self)) (fun x => local_save (root self) x) (local_load (root self))
      ltac:(intros []; reflexivity) cs t t t k (same_disk_refl self _ t Hr)) as (t' & tb & ts & k' & rs & -> & -> & Hs). auto.
Qed.

Lemma one_directory_serves_both_witness :
  let self := mkFsBlobStore ["data"%string] in
  let t : tree := {[ ["data"%string] := Dir ]} in
  let b : bytes := [Byte.x68; Byte.x69] in
  let cs : list (disk_call (X := MetadataSnapshot)) :=
    [CBlob (BPut (Digest.sha256_of b) b) []; CSave (snapshot_of_state InMemoryState_default) [None; None; Some (mkFault None 5 "sync")];
     CSave (snapshot_of_state InMemoryState_default) []; CRestart 9 [] []; CBlob BList []; CBlob (BGet (Digest.sha256_of b)) []] in
  let one := one_run self (write_snapshot_atomic (root self ++ [METADATA_FILE_NAME]))
               (load_snapshot (root self ++ [METADATA_FILE_NAME])) cs (t, fresh 7) in
  let two := two_run self (write_snapshot_atomic (root self ++ [METADATA_FILE_NAME]))
               (load_snapshot (root self ++ [METADATA_FILE_NAME])) cs (t, t, fresh 7) in
  snd one = snd two /\ drop 4 (snd one) = [DBlob (Ok (RDigests [Digest.sha256_of b])); DBlob (Ok (RBytes b))].
Proof.
  intros self t b cs one two. split; [|vm_compute; reflexivity].
  pose proof (proj1 (one_directory_serves_both self t (fresh 7) ltac:(intros [|[|k]] Hk; cbn in Hk; [lia|reflexivity|lia])) cs) as H.
  fold one two in H. destruct one as [[t' k1] rs1], two as [[[tb ts] k2] rs2]. exact (proj1 H).
Defined.
