(* ===== verification/Serve.v ===== *)
(** * Starting the OCI server

    [crates/ferro-oci-server/src/serve.rs]: the configuration from environment
    variables, the store it describes, the application with its health probes
    and metrics, and the checks a start makes before the socket is bound. The
    blob store behind [Arc<dyn BlobStore>] is a sum of the two implementations
    with the interface's contract. A started server keeps the server's
    invariant from its first request on, and stops at the first signal. *)

From S2P Require Import Prelude Str Frame Net Fs Digest BlobStore FsStore FsStoreSpec OciError OciReference OciUpload OciRegistry OciRegistryProps OciRegistrySteps Json Http OciHttp OciBlobHandlers OciManifestHandlers OciRouter OciServer OciServerProps CargoIndex CargoState Metrics Addr SharedDisk.

Local Open Scope string_scope.
Local Open Scope Z_scope.

(** ** [Arc<dyn BlobStore>] *)

Inductive SharedBlobStore := SMemory (m : InMemoryBlobStore) | SDisk (self : FsBlobStore) (p : Process).

Section Dispatch.
Context `{H : Hashing} {HL : HashingLaws H}.

Definition dispatch {A} (mem : stm InMemoryBlobStore BlobStoreError A) (disk : FsBlobStore -> stm Process BlobStoreError A)
    : stm SharedBlobStore BlobStoreError A := fun s =>
  match s with
  | SMemory m => (SMemory (fst (mem m)), snd (mem m))
  | SDisk self p => (SDisk self (fst (disk self p)), snd (disk self p))
  end.

#[export] Instance shared_store : BlobStore SharedBlobStore := {
  bs_put d b := dispatch (Memory.put d b) (fun self => FsStore.put self d b);
  bs_get d := dispatch (Memory.get d) (fun self => FsStore.get self d);
  bs_contains d := dispatch (Memory.contains d) (fun self => FsStore.contains self d);
  bs_delete d := dispatch (Memory.delete d) (fun self => FsStore.delete self d);
  bs_list := dispatch Memory.list_ FsStore.list_
}.

Definition shared_view (s : SharedBlobStore) : Digest -> option bytes :=
  match s with SMemory m => @bs_view H _ _ Memory.memory_laws m | SDisk self p => @bs_view H _ _ (fs_laws self) p end.
Definition shared_ok (s : SharedBlobStore) : Prop :=
  match s with SMemory m => @bs_ok H _ _ Memory.memory_laws m | SDisk self p => @bs_ok H _ _ (fs_laws self) p end.
Definition shared_quiet (s : SharedBlobStore) : Prop :=
  match s with SMemory m => @bs_quiet H _ _ Memory.memory_laws m | SDisk self p => @bs_quiet H _ _ (fs_laws self) p end.

Lemma pair_eta {A B} (x : A * B) a b : fst x = a -> snd x = b -> x = (a, b).
Proof. destruct x. cbn. congruence. Qed.

#[export] Instance shared_laws : BlobStoreLaws SharedBlobStore.
Proof using HL.
  refine {| bs_view := shared_view; bs_ok := shared_ok; bs_quiet := shared_quiet |}.
  - intros [m|self p]; [exact (@bs_sound H _ _ Memory.memory_laws m)|exact (@bs_sound H _ _ (fs_laws self) p)].
  - intros [m|self p] d b Hm; cbn.
    + pose proof (@put_mismatch H _ _ Memory.memory_laws m d b Hm) as E. cbn in E. rewrite E. reflexivity.
    + pose proof (@put_mismatch H _ _ (fs_laws self) p d b Hm) as E. cbn in E. rewrite E. reflexivity.
  - intros [m|self p]; [exact (@put_total H _ _ Memory.memory_laws m)|exact (@put_total H _ _ (fs_laws self) p)].
  - intros [m|self p]; [exact (@put_keeps_ok H _ _ Memory.memory_laws m)|exact (@put_keeps_ok H _ _ (fs_laws self) p)].
  - intros [m|self p]; [exact (@put_frame H _ _ Memory.memory_laws m)|exact (@put_frame H _ _ (fs_laws self) p)].
  - intros [m|self p] s' d b u Hs Hd [= <- E]; cbn.
    + exact (@put_stores H _ _ Memory.memory_laws m _ d b u Hs Hd (pair_eta _ _ _ eq_refl E)).
    + exact (@put_stores H _ _ (fs_laws self) p _ d b u Hs Hd (pair_eta _ _ _ eq_refl E)).
  - intros [m|self p] s' d b u Hs Hd [= <- E]; cbn.
    + exact (@put_fails H _ _ Memory.memory_laws m _ d b u Hs Hd (pair_eta _ _ _ eq_refl E)).
    + exact (@put_fails H _ _ (fs_laws self) p _ d b u Hs Hd (pair_eta _ _ _ eq_refl E)).
  - intros [m|self p]; [exact (@put_quiet H _ _ Memory.memory_laws m)|exact (@put_quiet H _ _ (fs_laws self) p)].
  - intros [m|self p]; [exact (@get_spec H _ _ Memory.memory_laws m)|exact (@get_spec H _ _ (fs_laws self) p)].
  - intros [m|self p]; [exact (@get_quiet H _ _ Memory.memory_laws m)|exact (@get_quiet H _ _ (fs_laws self) p)].
  - intros [m|self p]; [exact (@contains_spec H _ _ Memory.memory_laws m)|exact (@contains_spec H _ _ (fs_laws self) p)].
  - intros [m|self p]; [exact (@contains_quiet H _ _ Memory.memory_laws m)|exact (@contains_quiet H _ _ (fs_laws self) p)].
  - intros [m|self p]; [exact (@delete_spec H _ _ Memory.memory_laws m)|exact (@delete_spec H _ _ (fs_laws self) p)].
  - intros [m|self p]; [exact (@delete_quiet H _ _ Memory.memory_laws m)|exact (@delete_quiet H _ _ (fs_laws self) p)].
  - intros [m|self p]; [exact (@list_spec H _ _ Memory.memory_laws m)|exact (@list_spec H _ _ (fs_laws self) p)].
  - intros [m|self p]; [exact (@list_quiet H _ _ Memory.memory_laws m)|exact (@list_quiet H _ _ (fs_laws self) p)].
Defined.

End Dispatch.

(** ** Starting *)

(** What a start fails with. *)
Inductive StartError :=
| SListen (var listen : string)
| SOrigin (addr : SocketAddr)
| SIo (e : io_error)
| SStore (e : BlobStoreError).

(** [PathBuf::from], resolved against the working directory. *)
Definition path_of (cwd : path) (s : string) : path :=
  let parts := List.filter (fun c => negb (bool_decide (c = "" \/ c = "."))) (split "/"%char s) in
  if starts_with "/" s then parts else (cwd ++ parts)%list.

Definition non_empty (o : option string) : option string :=
  match o with Some s => if bool_decide (s = "") then None else Some s | None => None end.

Module OciServe.

Definition ENV_LISTEN : string := "FERRO_OCI_LISTEN".
Definition ENV_STORAGE_DIR : string := "FERRO_OCI_STORAGE_DIR".
Definition DEFAULT_LISTEN : string := "0.0.0.0:8080".

Record Config : Type := mkConfig { listen : string; storage_dir : option string }.

Definition from_raw (listen storage_dir : option string) : Config :=
  mkConfig (default DEFAULT_LISTEN listen) (non_empty storage_dir).

(** On the environment as a function. *)
Definition from_env (env : string -> option string) : Config :=
  from_raw (env ENV_LISTEN) (non_empty (env ENV_STORAGE_DIR)).

Definition socket_addr (c : Config) : outcome StartError SocketAddr :=
  ok_or (parse_socket_addr (listen c)) (SListen ENV_LISTEN (listen c)).

Section Start.
Context `{H : Hashing} `{C : SnapshotCodec} `{L : HttpLib} (cwd : path).

(** [Config::blob_store]. *)
Definition blob_store (c : Config) : stm Process StartError SharedBlobStore := fun p =>
  match storage_dir c with
  | None => (p, Ok (SMemory Memory.new))
  | Some dir =>
    match FsStore.try_fs (Fs.create_dir_all (path_of cwd dir)) p with
    | (p, Ok (Ok _)) =>
      match FsStore.new (path_of cwd dir) p with
      | (p, Ok self) => (p, Ok (SDisk self p))
      | (p, Err e) => (p, Err (SStore e))
      | (p, Panic) => (p, Panic)
      end
    | (p, Ok (Err e)) => (p, Err (SIo e))
    | (p, _) => (p, Panic)
    end
  end.

(** The assembled application: the router's state and the metrics. *)
Record App : Type := mkServeApp { app_cfg : AppConfig; app_state : AppState SharedBlobStore; series : Metrics Z }.

Definition with_max_upload_session_bytes (s : SharedBlobStore) (r : RegistryConfig * Registry) (n : Z)
    : AppConfig * AppState SharedBlobStore :=
  (mkAppConfig (fst r) n, AppState.new s (snd r)).

Definition AppState_new (s : SharedBlobStore) (r : RegistryConfig * Registry) : AppConfig * AppState SharedBlobStore :=
  with_max_upload_session_bytes s r MAX_UPLOAD_SESSION_BYTES.

Definition assemble (s : SharedBlobStore) (r : RegistryConfig * Registry) : App :=
  let '(cfg, st) := AppState_new s r in mkServeApp cfg st (Metrics_new 0).

Definition build_app (s : SharedBlobStore) (w : World) : App := assemble s (InMemoryRegistryMeta_new w).

Definition build_app_persisted (s : SharedBlobStore) (dir : path) (w : World) : App := assemble s (with_persistence dir w).

(** [serve] up to the listening socket; [bind] is the operating system's answer. *)
Definition serve (c : Config) (bind : SocketAddr -> outcome io_error unit) (p : Process) (w : World) : outcome StartError App :=
  addr ← socket_addr c;
  store ← snd (blob_store c p);
  let app := match storage_dir c with
             | Some dir => build_app_persisted store (path_of cwd dir) w
             | None => build_app store w
             end in
  map_err SIo (bind addr);;
  Ok app.

(** ** The application with probes and metrics *)

Inductive AppRequest :=
| ALive (m : Method) | AReady (m : Method) | AHealthz (m : Method) | AMetrics (m : Method)
| AV2 (q : OciRouter.Request) (slash : bool).

(** The probes are [get] routes; the metrics document is the series. *)
Inductive AppResponse := RHttp (r : Response) | RMetrics (doc : Metrics Z).

Definition get_route (m : Method) (r : Response) : Response :=
  match m with GET => r | HEAD => mkResponse (status r) (resp_headers r) BEmpty | _ => mkResponse 405 [] BEmpty end.

Definition ok_text : Response := mkResponse 200 [("content-type", "text/plain; charset=utf-8")] (BBytes (bytes_of_string "OK")).

Definition probe_routes (q : AppRequest) : option Response :=
  match q with
  | ALive m => Some (get_route m ok_text)
  | AHealthz m => Some (get_route m (mkResponse 200 [("content-type", "application/json")] (BJson (JObject [("status", JString "ok")]))))
  | AReady m => Some (get_route m ok_text)
  | _ => None
  end.

Definition method_name (m : Method) : string :=
  match m with GET => "GET" | HEAD => "HEAD" | POST => "POST" | PUT => "PUT" | PATCH => "PATCH" | DELETE => "DELETE" end.

(** What the middleware sees of a request: its method, the pattern it matched and
    its path. *)
Definition seen (q : AppRequest) : Metrics.Request :=
  match q with
  | ALive m => Metrics.mkRequest (method_name m) (Some "/live") "/live"
  | AReady m => Metrics.mkRequest (method_name m) (Some "/ready") "/ready"
  | AHealthz m => Metrics.mkRequest (method_name m) (Some "/healthz") "/healthz"
  | AMetrics m => Metrics.mkRequest (method_name m) (Some "/metrics") "/metrics"
  | AV2 q slash =>
    let '(matched, p) := match rq_target q with
                         | TVersion => if slash then ("/v2/", "/v2/") else ("/v2", "/v2")
                         | TCatalog => ("/v2/_catalog", "/v2/_catalog")
                         | TRest rest => ("/v2/{*rest}", "/v2/" ++ rest)
                         end in
    Metrics.mkRequest (method_name (rq_method q)) (Some matched) p
  end.

Definition METRICS_TYPE : string := "text/plain; version=0.0.4; charset=utf-8".

(** The merged routes. *)
Definition routes (q : AppRequest) : stm App OciError AppResponse := fun a =>
  match probe_routes q with
  | Some r => (a, Ok (RHttp r))
  | None =>
    match q with
    | AV2 q _ =>
      let '(st, r) := router (app_cfg a) q (app_state a) in
      (mkServeApp (app_cfg a) st (series a), r ← r; Ok (RHttp r))
    | AMetrics method =>
      let '(m, doc) := metrics_handler (blob_count (app_state a)) (series a) in
      match method with
      | GET => (mkServeApp (app_cfg a) (app_state a) m, Ok (RMetrics doc))
      | HEAD => (mkServeApp (app_cfg a) (app_state a) m, Ok (RHttp (mkResponse 200 [("content-type", METRICS_TYPE)] BEmpty)))
      | _ => (a, Ok (RHttp (mkResponse 405 [] BEmpty)))
      end
    | _ => (a, Ok (RHttp (mkResponse 404 [] BEmpty)))
    end
  end.

Definition response_status (r : AppResponse) : Z := match r with RHttp r => status r | RMetrics _ => 200 end.

Definition set_series (f : Metrics Z -> Metrics Z) (a : App) : App := mkServeApp (app_cfg a) (app_state a) (f (series a)).

(** One request through [track_metrics], [elapsed] after it came in; a handler that
    panics takes the middleware with it. *)
Definition instrumented (q : AppRequest) (elapsed : Z) : stm App OciError AppResponse := fun a =>
  match routes q (set_series track_begin a) with
  | (a, Ok r) => (set_series (track_end OciMetrics.handler_for (seen q) (response_status r) elapsed) a, Ok r)
  | (a, e) => (a, e)
  end.

Fixpoint run (qs : list (AppRequest * Z)) (a : App) : App * list (outcome OciError AppResponse) :=
  match qs with
  | [] => (a, [])
  | (q, t) :: qs => let '(a, r) := instrumented q t a in let '(a, rs) := run qs a in (a, r :: rs)
  end.

End Start.
End OciServe.

Section Started.
Context `{H : Hashing} {HL : HashingLaws H} `{C : SnapshotCodec} `{L : HttpLib}.
Import OciServe.

(** The invariant of a running application. *)
Record serve_ok (a : App) : Prop := {
  so_config : config_valid (app_cfg a);
  so_state : app_ok (app_cfg a) (app_state a);
}.

(** A request is answered: on the OCI routes as the router answers. *)
Definition app_answered (q : AppRequest) (r : outcome OciError AppResponse) : Prop :=
  match q with
  | AV2 q _ => exists r', answered q r' /\ r = (x ← r'; Ok (RHttp x))
  | _ => exists x, r = Ok x
  end.

Lemma serve_ok_series a m : serve_ok a -> serve_ok (mkServeApp (app_cfg a) (app_state a) m).
Proof. intros [Hv Ha]. split; assumption. Qed.

Hint Resolve serve_ok_series : core.

(** The handler's part: the series change at most in the storage gauge. *)
Lemma routes_ok q a :
  serve_ok a -> serve_ok (fst (routes q a)) /\ app_answered q (snd (routes q a)) /\ app_cfg (fst (routes q a)) = app_cfg a /\
  in_flight (series (fst (routes q a))) = in_flight (series a) /\
  requests_total (series (fst (routes q a))) = requests_total (series a).
Proof using HL.
  intros Ha. destruct q as [m|m|m|m|q sl]; cbn; [split_and!; eauto..| |].
  - destruct m; cbn; split_and!; eauto.
  - destruct Ha as [Hv Ha]. destruct (router_answered _ Hv q _ Ha) as [H1 H2]. unfold routes. cbn.
    destruct (router (app_cfg a) q (app_state a)) as [st r]. cbn in *. split_and!; [split; assumption|eauto|reflexivity..].
Qed.

(** What a request adds to the series. *)
Definition is_ok {E A} (r : outcome E A) : Z := match r with Ok _ => 1 | _ => 0 end.

Lemma instrumented_ok q t a :
  serve_ok a -> let '(a', r) := instrumented q t a in
  serve_ok a' /\ app_answered q r /\ app_cfg a' = app_cfg a /\
  in_flight (series a') = in_flight (series a) + 1 - is_ok r /\
  map_sum id (requests_total (series a')) = map_sum id (requests_total (series a)) + is_ok r.
Proof using HL.
  intros Ha. unfold instrumented.
  destruct (routes_ok q (set_series track_begin a) (serve_ok_series a _ Ha)) as (H1 & H2 & H3 & H4 & H5).
  destruct (routes q (set_series track_begin a)) as [a1 [r|e|]]; cbn in *; split_and!; try assumption; try lia.
  - apply serve_ok_series, H1.
  - unfold inc. rewrite map_sum_update, H5. destruct (_ !! _); cbn; unfold id in *; lia.
  - rewrite H5. lia.
  - rewrite H5. lia.
Qed.

Definition total_ok (rs : list (outcome OciError AppResponse)) : Z := foldr (fun r n => is_ok r + n) 0 rs.

Lemma run_ok qs : forall a, serve_ok a -> let '(a', rs) := run qs a in
  serve_ok a' /\ Forall2 app_answered (fst <$> qs) rs /\ app_cfg a' = app_cfg a /\
  in_flight (series a') = in_flight (series a) + zlen rs - total_ok rs /\
  map_sum id (requests_total (series a')) = map_sum id (requests_total (series a)) + total_ok rs.
Proof using HL.
  induction qs as [|[q t] qs IH]; intros a Ha; cbn.
  - split_and!; [assumption|apply List.Forall2_nil|reflexivity|rewrite zlen_nil; cbn; lia|cbn; lia].
  - pose proof (instrumented_ok q t a Ha) as Hi. destruct (instrumented q t a) as [a1 r]. destruct Hi as (H1 & H2 & H3 & H4 & H5).
    specialize (IH a1 H1). destruct (run qs a1) as [a2 rs]. destruct IH as (I1 & I2 & I3 & I4 & I5). cbn. rewrite zlen_cons.
    split_and!; [assumption|constructor; assumption|congruence|fold (total_ok rs); lia|fold (total_ok rs); lia].
Qed.

(** Making the store's directory keeps a sound tree sound. *)
Lemma make_dirs_prefix (p q : path) n t : (n <= length p)%nat -> Fs.make_dirs (p ++ q) n t = Fs.make_dirs p n t.
Proof.
  induction n as [|k IH]; intros Hn; [reflexivity|]. cbn [Fs.make_dirs]. rewrite IH by lia. rewrite take_app_le by lia. reflexivity.
Qed.

Lemma create_root_ok self s : tree_ok self (files s) -> tree_ok self (files (fst (Fs.create_dir_all (root self) s))).
Proof.
  intros Ht. unfold Fs.create_dir_all. rewrite Fs.syscall_run. cbn [fst files].
  assert (Hm : forall n, (n <= length (root self))%nat -> tree_ok self (fst (Fs.make_dirs (root self) n (files s)))).
  { intros n Hn. rewrite <- (make_dirs_prefix (root self) [algo_prefix Sha256; ""%string] n _ Hn).
    pose proof (tree_ok_make_dirs self Sha256 "" n (files s) Ht ltac:(lia)) as Hk.
    unfold FsStore.algo_dir in Hk. rewrite <- app_assoc in Hk. exact Hk. }
  destruct (Fs.next_fault s); cbn [fst]; apply Hm; lia.
Qed.

Lemma blob_store_ok cwd c p p' s :
  (forall dir, storage_dir c = Some dir -> tree_ok (mkFsBlobStore (path_of cwd dir)) (files (p_fs p))) ->
  OciServe.blob_store cwd c p = (p', Ok s) -> shared_ok s.
Proof.
  intros Hd. unfold OciServe.blob_store. destruct (storage_dir c) as [dir|].
  2: { intros [= <- <-]. exact (map_Forall_empty _). }
  specialize (Hd dir eq_refl). set (self := mkFsBlobStore (path_of cwd dir)) in *.
  pose proof (create_root_ok self (p_fs p) Hd) as H1. change (root self) with (path_of cwd dir) in H1.
  unfold FsStore.try_fs. destruct (Fs.create_dir_all (path_of cwd dir) (p_fs p)) as [f1 [u|e|]]; [|discriminate..]. cbn in H1.
  unfold FsStore.new, FsStore.on_fs, mbind, stm_bind. cbn [p_fs].
  pose proof (create_root_ok self f1 H1) as H2. change (root self) with (path_of cwd dir) in H2.
  destruct (Fs.create_dir_all (path_of cwd dir) f1) as [f2 [u2|e|]]; cbn; intros [=]; subst. exact H2.
Qed.

(** A freshly assembled application over a sound store and a registry as it boots. *)
Lemma assemble_ok s rcfg r :
  shared_ok s -> config_ok rcfg -> content_ok (inner r) -> uploads (inner r) = ∅ -> serve_ok (assemble s (rcfg, r)).
Proof.
  intros Hs Hc Hco Hu. split; [split; [exact Hc|cbn; unfold MAX_UPLOAD_SESSION_BYTES, U64_MAX; lia]|].
  split; [exact Hs|]. split; [split; [exact Hco|cbn; rewrite Hu, map_size_empty; lia]|].
  unfold sessions_capped. cbn. rewrite Hu. apply map_Forall_empty.
Qed.

(** C5: a started server. Whatever the environment variables, if [serve] gets to the
    listening socket, on a disk whose blob directory is sound if one is used, then
    any sequence of requests to the assembled application, health probes and metrics
    scrapes included, is answered; the invariant of the server holds at the end, with
    the session limits and the byte cap the start has set; the request counter counts
    the answered requests, and the gauge of requests being served is the number of
    those whose handler panicked. *)
Theorem started_server_answers cwd c bind p w a0 qs a' rs :
  serve cwd c bind p w = Ok a0 ->
  (forall dir, storage_dir c = Some dir -> tree_ok (mkFsBlobStore (path_of cwd dir)) (files (p_fs p))) ->
  run qs a0 = (a', rs) ->
  Forall2 app_answered (fst <$> qs) rs /\
  shared_ok (OciHttp.blob_store (app_state a')) /\ content_ok (inner (registry (app_state a'))) /\
  (size (uploads (inner (registry (app_state a')))) <= DEFAULT_MAX_UPLOAD_SESSIONS)%nat /\
  map_Forall (fun _ u => UploadState.offset u <= MAX_UPLOAD_SESSION_BYTES) (uploads (inner (registry (app_state a')))) /\
  map_sum id (requests_total (series a')) = total_ok rs /\
  in_flight (series a') = zlen rs - total_ok rs.
Proof using HL.
  intros Hs Hd Hrun. unfold serve in Hs. destruct (socket_addr c) as [addr|e|]; [|discriminate..]. cbn in Hs.
  destruct (OciServe.blob_store cwd c p) as [p' [s|e|]] eqn:Eb; [|discriminate..]. cbn in Hs.
  destruct (bind addr); [|discriminate..]. injection Hs as <-.
  pose proof (blob_store_ok _ _ _ _ _ Hd Eb) as Hok.
  set (a0 := match storage_dir c with Some dir => _ | None => _ end) in *.
  assert (Ha : serve_ok a0 /\ limits (registry_cfg (app_cfg a0)) = SessionLimits_default /\
               max_upload_session_bytes (app_cfg a0) = MAX_UPLOAD_SESSION_BYTES /\ series a0 = Metrics_new 0).
  { unfold a0. destruct (storage_dir c) as [dir|]; cbn.
    - destruct (boot_content (path_of cwd dir) w) as [Hco Hu]. unfold build_app_persisted.
      assert (Hcfg : config_ok (fst (with_persistence (path_of cwd dir) w)) /\
                     limits (fst (with_persistence (path_of cwd dir) w)) = SessionLimits_default).
      { unfold with_persistence. destruct (load_snapshot _ (w_fs w)) as [f o]. cbn. split; [exists (path_of cwd dir); reflexivity|reflexivity]. }
      destruct (with_persistence (path_of cwd dir) w) as [rcfg r]. cbn in *. split_and!; try reflexivity; [|apply Hcfg].
      apply assemble_ok; [exact Hok|apply Hcfg|exact Hco|exact Hu].
    - split_and!; try reflexivity. apply assemble_ok; [exact Hok|exact I| |reflexivity].
      intros name m ds mt b Hn. discriminate Hn. }
  destruct Ha as (Ha & Hl & Hc & Hm). pose proof (run_ok qs a0 Ha) as Hr. rewrite Hrun in Hr.
  destruct Hr as ([Hv [Hst [[Hco Hsz] Hcap]]] & H2 & H3 & H4 & H5). rewrite H3 in *. rewrite Hm in *. cbn in H4, H5.
  rewrite Hl in Hsz. cbn in Hsz. rewrite Hc in Hcap.
  split_and!; [exact H2|exact Hst|exact Hco|exact Hsz|exact Hcap|exact H5|lia].
Qed.

End Started.

Lemma empty_tree_ok `{H : Hashing} self : tree_ok self ∅.
Proof. split; [intros q n Hq|intros a q r n Hp Hq|intros a q k c Hq|intros a x Hq]; rewrite lookup_empty in Hq; discriminate. Qed.

(** A start from the environment on an empty disk, and a push seen by a scrape. *)
Definition sample_environment (var : string) : option string :=
  if bool_decide (var = OciServe.ENV_STORAGE_DIR) then Some "/srv/oci" else None.

Definition sample_start : outcome StartError OciServe.App :=
  OciServe.serve [] (OciServe.from_env sample_environment) (fun _ => Ok tt) (mkProcess (mkFs ∅ []) 0 7) (mkWorld (mkFs ∅ []) 0 7).

Definition sample_traffic : list (OciServe.AppRequest * Z) :=
  [(OciServe.AV2 (sample_request POST "lib/app/blobs/uploads/" {[ "digest" := sample_blob_digest ]} [] sample_blob) false, 3);
   (OciServe.AHealthz GET, 1);
   (OciServe.AMetrics GET, 1)].

Lemma started_server_answers_witness :
  match sample_start with
  | Ok a0 => map_sum id (requests_total (OciServe.series (fst (OciServe.run sample_traffic a0)))) = 3 /\
      (OciServe.response_status <$> omap ok_of (snd (OciServe.run sample_traffic a0))) = [201; 200; 200]
  | _ => False
  end.
Proof.
  destruct sample_start as [a0|e|] eqn:E; [|vm_compute in E; discriminate..].
  destruct (OciServe.run sample_traffic a0) as [a' rs] eqn:Er.
  destruct (started_server_answers [] (OciServe.from_env sample_environment) (fun _ => Ok tt) (mkProcess (mkFs ∅ []) 0 7)
    (mkWorld (mkFs ∅ []) 0 7) a0 sample_traffic a' rs E ltac:(intros dir _; apply empty_tree_ok) Er) as (_ & _ & _ & _ & _ & H & _).
  vm_compute in E. injection E as <-. vm_compute in Er. injection Er as <- <-. cbn [fst snd]. split; [rewrite H|]; vm_compute; reflexivity.
Defined.

(** After a restart the blob gauge starts from zero whatever the store holds. *)
Lemma blob_gauge_restarts_at_zero :
  match sample_start with
  | Ok a0 =>
    match OciHttp.blob_store (OciServe.app_state (fst (OciServe.run sample_traffic a0))) with
    | SDisk _ p =>
      match OciServe.serve [] (OciServe.from_env sample_environment) (fun _ => Ok tt) p (mkWorld (mkFs ∅ []) 0 8) with
      | Ok a1 =>
        snd (OciServe.run [(OciServe.AMetrics GET, 1)] a1) = [Ok (OciServe.RMetrics (mkMetrics ∅ ∅ 1 0))] /\
        is_Some (shared_view (OciHttp.blob_store (OciServe.app_state a1)) (Digest.sha256_of sample_blob))
      | _ => False
      end
    | _ => False
    end
  | _ => False
  end.
Proof. vm_compute. split; [reflexivity|eexists; reflexivity]. Qed.

(** ** Waiting for a signal

    [shutdown_signal] of [serve.rs] in [crates/ferro-oci-server/src] and in
    [crates/ferro-cargo-registry-server/src], the same text in both: the future
    that ends the serving loop of a server. *)

Module Shutdown.

Local Open Scope nat_scope.

Inductive Signal := SIGINT | SIGTERM | OtherSignal (number : nat).

#[export] Instance Signal_eq_dec : EqDecision Signal.
Proof. solve_decision. Defined.

Section Wait.

(** The signals the process gets once the two futures are polled, in order; a
    future is the position at which it is resolved. One whose handler the
    operating system does not install logs that and is resolved at once. *)
Context (signals : list Signal).

Definition await (installed : bool) (s : Signal) : option nat :=
  if installed then fst <$> list_find (fun x => x = s) signals else Some 0.

Definition ctrl_c (installed : bool) : option nat := await installed SIGINT.
Definition terminate (installed : bool) : option nat := await installed SIGTERM.

(** [tokio::select!]: the first of the two. *)
Definition shutdown_signal (ctrl_c_installed terminate_installed : bool) : option nat :=
  match ctrl_c ctrl_c_installed, terminate terminate_installed with
  | Some a, Some b => Some (Nat.min a b)
  | Some a, None | None, Some a => Some a
  | None, None => None
  end.

Definition stops (s : Signal) : Prop := s = SIGINT \/ s = SIGTERM.

Lemma await_spec s :
  match await true s with
  | Some n => signals !! n = Some s /\ forall k, (k < n)%nat -> signals !! k <> Some s
  | None => s ∉ signals
  end.
Proof.
  unfold await. destruct (list_find (fun x => x = s) signals) as [[n x]|] eqn:E; cbn.
  - apply list_find_Some in E as (Hn & -> & Hk). split; [exact Hn|]. intros k Hlt Hs. exact (Hk k s Hs Hlt eq_refl).
  - apply list_find_None in E. rewrite Forall_forall in E. intros Hs. exact (E s Hs eq_refl).
Qed.

(** With both handlers installed a server stops at the first interrupt or
    termination signal, and runs for as long as there is none. *)
Theorem shutdown_at_first_signal :
  match shutdown_signal true true with
  | Some n => (exists s, signals !! n = Some s /\ stops s) /\ forall k s, (k < n)%nat -> signals !! k = Some s -> ~ stops s
  | None => Forall (fun s => ~ stops s) signals
  end.
Proof.
  unfold shutdown_signal, ctrl_c, terminate, stops. pose proof (await_spec SIGINT) as Hi. pose proof (await_spec SIGTERM) as Ht.
  destruct (await true SIGINT) as [a|], (await true SIGTERM) as [b|].
  - destruct Hi as [Hi Hi'], Ht as [Ht Ht']. split.
    + destruct (Nat.min_spec a b) as [[_ ->]|[_ ->]]; eauto.
    + intros k s Hk Hs [->| ->]; [exact (Hi' k ltac:(lia) Hs)|exact (Ht' k ltac:(lia) Hs)].
  - destruct Hi as [Hi Hi']. split; [eauto|]. intros k s Hk Hs [->| ->]; [exact (Hi' k Hk Hs)|].
    apply Ht, (list_elem_of_lookup_2 _ k), Hs.
  - destruct Ht as [Ht Ht']. split; [eauto|]. intros k s Hk Hs [->| ->]; [|exact (Ht' k Hk Hs)].
    apply Hi, (list_elem_of_lookup_2 _ k), Hs.
  - apply Forall_forall. intros s Hs [->| ->]; contradiction.
Qed.

(** A server one of whose handlers cannot be installed stops as soon as it has
    started, without any signal. *)
Lemma failed_handler_stops a b : a = false \/ b = false -> shutdown_signal a b = Some 0.
Proof.
  unfold shutdown_signal, ctrl_c, terminate. intros [->| ->]; cbn; [destruct (await b SIGTERM)|destruct (await a SIGINT) as [[|n]|]]; reflexivity.
Qed.

End Wait.

End Shutdown.
