(* ===== verification/CargoServe.v ===== *)
(** * Starting the Cargo server

    [crates/ferro-cargo-registry-server/src/serve.rs]: the configuration from
    environment variables, the origin the index advertises, the state built from
    the data directory, and the application with its health probes and metrics.
    A server that starts advertises an origin clients can reach, and the
    instrumentation changes neither what the handlers answer nor what they do. *)

From S2P Require Import Prelude Str Frame Net Fs Digest BlobStore FsStore Json Http Regex CargoName CargoVersion CargoIndex CargoState Metrics Addr SharedDisk Serve CargoHandlers.

Local Open Scope string_scope.
Local Open Scope Z_scope.

(** ** Configuration *)

Definition ENV_DATA : string := "FERRO_CARGO_REGISTRY_DATA".
Definition ENV_LISTEN : string := "FERRO_CARGO_REGISTRY_LISTEN".
Definition ENV_API : string := "FERRO_CARGO_REGISTRY_API".
Definition DEFAULT_DATA : string := "./registry-data".
Definition DEFAULT_LISTEN : string := "0.0.0.0:8081".

Record Config : Type := mkConfig { data_dir : string; listen : string; api_host : option string }.

Definition from_vars (lookup : string -> option string) : Config :=
  mkConfig (default DEFAULT_DATA (lookup ENV_DATA)) (default DEFAULT_LISTEN (lookup ENV_LISTEN)) (non_empty (lookup ENV_API)).

Definition socket_addr (c : Config) : outcome StartError SocketAddr :=
  ok_or (parse_socket_addr (listen c)) (SListen ENV_LISTEN (listen c)).

Definition resolve_api_host (c : Config) (addr : SocketAddr) : string :=
  default ("http://" ++ display_socket_addr addr) (api_host c).

Definition resolve_api_host_checked (c : Config) (addr : SocketAddr) : outcome StartError string :=
  match api_host c with
  | Some explicit => Ok explicit
  | None =>
    if is_unspecified (ip addr) || (port addr =? 0) then Err (SOrigin addr)
    else Ok ("http://" ++ display_socket_addr addr)
  end.

Section Start.
Context `{J : JsonText} (cwd : path).

(** [build_state]. *)
Definition build_state (dir : path) (api_host : string) (p : Process) (w : World)
    : Process * outcome StartError (FsBlobStore * CargoConfig * CargoState Process) :=
  match FsStore.try_fs (Fs.create_dir_all dir) p with
  | (p, Ok (Ok _)) =>
    match FsStore.new dir p with
    | (p, Ok store) => let '(cfg, st) := CargoState_with_persistence p api_host dir w in (p, Ok (store, cfg, st))
    | (p, Err e) => (p, Err (SStore e))
    | (p, Panic) => (p, Panic)
    end
  | (p, Ok (Err e)) => (p, Err (SIo e))
  | (p, _) => (p, Panic)
  end.

(** [serve] up to the listening socket. *)
Definition serve (c : Config) (bind : SocketAddr -> outcome io_error unit) (p : Process) (w : World)
    : outcome StartError (FsBlobStore * CargoConfig * CargoState Process) :=
  addr ← socket_addr c;
  api_host ← resolve_api_host_checked c addr;
  st ← snd (build_state (path_of cwd (data_dir c)) api_host p w);
  map_err SIo (bind addr);;
  Ok st.

End Start.

Lemma starts_from_data `{J : JsonText} dir api p w p' store cfg st :
  build_state dir api p w = (p', Ok (store, cfg, st)) ->
  root store = dir /\ cfg = mkCargoConfig (IndexConfig_new api) (Some dir) /\
  crates st = match snd (load dir (w_fs w)) with Ok m => m | _ => ∅ end /\ rooted dir (files (p_fs (blobs st))).
Proof.
  unfold build_state, CargoState_with_persistence. destruct (FsStore.try_fs _ p) as [p1 [[u|e|]|e|]]; [|discriminate..].
  destruct (FsStore.new dir p1) as [p2 [self|e|]] eqn:En; [|discriminate..]. destruct (load dir (w_fs w)) as [f o].
  intros H. injection H as <- <- <- <-. cbn.
  unfold FsStore.new, FsStore.on_fs, mbind, stm_bind in En. destruct (Fs.create_dir_all dir (p_fs p1)) as [f2 [[]|e|]] eqn:Ec; [|discriminate..].
  cbn in En. injection En as <- <-. split_and!; [reflexivity..|]. exact (create_dir_all_rooted _ _ _ Ec).
Qed.

(** A Cargo server that starts advertises an origin clients can use: the configured
    one, or one derived from a listen address with a concrete host and a port that is
    not zero; the index it serves is the one in the data directory's snapshot. *)
Theorem started_cargo_origin `{J : JsonText} cwd c bind p w store cfg st :
  serve cwd c bind p w = Ok (store, cfg, st) ->
  exists addr, parse_socket_addr (listen c) = Some addr /\
    config cfg = IndexConfig_new (resolve_api_host c addr) /\
    (api_host c = None -> is_unspecified (ip addr) = false /\ port addr <> 0) /\
    crates st = match snd (load (path_of cwd (data_dir c)) (w_fs w)) with Ok m => m | _ => ∅ end /\
    rooted (root store) (files (p_fs (blobs st))).
Proof.
  unfold serve, socket_addr, resolve_api_host_checked, resolve_api_host.
  destruct (parse_socket_addr (listen c)) as [addr|]; [|discriminate]. cbn. intros H. exists addr. split; [reflexivity|].
  destruct (api_host c) as [host|]; cbn in H |- *.
  - destruct (build_state _ _ p w) as [p' [[[s1 c1] st1]|e|]] eqn:E; [|discriminate..]. cbn in H.
    destruct (bind addr); [|discriminate..]. injection H as <- <- <-. apply starts_from_data in E as (-> & -> & Hc & Hr).
    split_and!; [reflexivity|discriminate|exact Hc|exact Hr].
  - destruct (is_unspecified (ip addr)); [discriminate|]. cbn in H. destruct (Z.eqb_spec (port addr) 0); [discriminate|]. cbn in H.
    destruct (build_state _ _ p w) as [p' [[[s1 c1] st1]|e|]] eqn:E; [|discriminate..]. cbn in H.
    destruct (bind addr); [|discriminate..]. injection H as <- <- <-. apply starts_from_data in E as (-> & -> & Hc & Hr).
    split_and!; [reflexivity|auto|exact Hc|exact Hr].
Qed.

(** The default configuration does not start: its listen address is the wildcard. *)
Lemma default_cargo_config_refused `{J : JsonText} cwd bind p w :
  serve cwd (from_vars (fun _ => None)) bind p w = Err (SOrigin (mkSocketAddr (V4 (0, 0, 0, 0)) 8081 0)).
Proof. reflexivity. Qed.

(** ** The application *)

Section App.
Context `{H : Hashing} `{J : JsonText} `{L : HttpLib} `{U : UnicodeDigits} {St : Type} `{BS : BlobStore St} (cfg : CargoConfig).

Record App := mkApp { app_state : CargoState St; series : Metrics (Z * Z) }.

Definition build_app (st : CargoState St) : App := mkApp st (Metrics_new (0, 0)).

(** The probes: [live] and [ready] have no body. *)
Inductive Probe := Live | Ready | Healthz.

Definition probe_routes (p : Probe) : Z * option Value :=
  match p with
  | Live => (200, None)
  | Ready => (200, None)
  | Healthz => (200, Some (JObject [("status", JString "ok")]))
  end.

Inductive AppRequest := AProbe (p : Probe) | AMetrics | AApi (r : CargoRequest).

Inductive AppResponse := RProbe (r : Z * option Value) | RMetrics (doc : Metrics (Z * Z)) | RApi (r : CargoResponse).

(** The merged routes. *)
Definition routes (q : AppRequest) : stm App CargoError AppResponse := fun a =>
  match q with
  | AProbe p => (a, Ok (RProbe (probe_routes p)))
  | AMetrics =>
    let '(m, doc) := metrics_handler (cargo_sample (crates (app_state a))) (series a) in (mkApp (app_state a) m, Ok (RMetrics doc))
  | AApi r => let '(st, x) := router cfg r (app_state a) in (mkApp st (series a), x ← x; Ok (RApi x))
  end.

Definition response_status (r : AppResponse) : Z :=
  match r with RProbe r => fst r | RMetrics _ => 200 | RApi r => cstatus r end.

(** What the middleware sees: the method, the pattern of the route, the path. *)
Definition seen (q : AppRequest) : Request :=
  match q with
  | AProbe Live => mkRequest "GET" (Some "/live") "/live"
  | AProbe Ready => mkRequest "GET" (Some "/ready") "/ready"
  | AProbe Healthz => mkRequest "GET" (Some "/healthz") "/healthz"
  | AMetrics => mkRequest "GET" (Some "/metrics") "/metrics"
  | AApi r =>
    match r with
    | GetConfig => mkRequest "GET" (Some "/config.json") "/config.json"
    | GetIndex p _ => mkRequest "GET" (Some "/index/{*path}") ("/index/" ++ p)
    | GetIndexRoot2 a n _ => mkRequest "GET" (Some "/{prefix}/{name}") ("/" ++ a ++ "/" ++ n)
    | GetIndexRoot3 a b n _ => mkRequest "GET" (Some "/{p0}/{p1}/{name}") ("/" ++ a ++ "/" ++ b ++ "/" ++ n)
    | GetGitIndex p => mkRequest "GET" (Some "/index.git/{*path}") ("/index.git/" ++ p)
    | PutNew _ => mkRequest "PUT" (Some "/api/v1/crates/new") "/api/v1/crates/new"
    | GetDownload n v => mkRequest "GET" (Some "/api/v1/crates/{name}/{version}/download") ("/api/v1/crates/" ++ n ++ "/" ++ v ++ "/download")
    | DeleteYank n v => mkRequest "DELETE" (Some "/api/v1/crates/{name}/{version}/yank") ("/api/v1/crates/" ++ n ++ "/" ++ v ++ "/yank")
    | PutUnyank n v => mkRequest "PUT" (Some "/api/v1/crates/{name}/{version}/unyank") ("/api/v1/crates/" ++ n ++ "/" ++ v ++ "/unyank")
    | GetOwners n => mkRequest "GET" (Some "/api/v1/crates/{name}/owners") ("/api/v1/crates/" ++ n ++ "/owners")
    | PutOwners n _ => mkRequest "PUT" (Some "/api/v1/crates/{name}/owners") ("/api/v1/crates/" ++ n ++ "/owners")
    | DeleteOwners n _ => mkRequest "DELETE" (Some "/api/v1/crates/{name}/owners") ("/api/v1/crates/" ++ n ++ "/owners")
    end
  end.

(** One request through [track_metrics]; a handler that panics takes the
    middleware with it. *)
Definition instrumented (q : AppRequest) (elapsed : Z) : stm App CargoError AppResponse := fun a =>
  match routes q (mkApp (app_state a) (track_begin (series a))) with
  | (a, Ok r) => (mkApp (app_state a) (track_end CargoMetrics.handler_for (seen q) (response_status r) elapsed (series a)), Ok r)
  | (a, e) => (a, e)
  end.

Fixpoint run (qs : list (AppRequest * Z)) (a : App) : App * list (outcome CargoError AppResponse) :=
  match qs with
  | [] => (a, [])
  | (q, t) :: qs => let '(a, r) := instrumented q t a in let '(a, rs) := run qs a in (a, r :: rs)
  end.

(** ** The instrumentation is transparent *)

(** The interface's requests among those of the application. *)
Definition api_requests (qs : list (AppRequest * Z)) : list CargoRequest :=
  omap (fun q => match fst q with AApi r => Some r | _ => None end) qs.

Lemma instrumented_state q t a :
  app_state (fst (instrumented q t a)) = match q with AApi r => fst (router cfg r (app_state a)) | _ => app_state a end.
Proof. destruct q as [p| |r]; unfold instrumented, routes; cbn; [reflexivity..|]. destruct (router cfg r (app_state a)) as [st [x|e|]]; reflexivity. Qed.

(** What a request is answered with and counted under does not depend on the
    series. *)
Lemma instrumented_answer q t a :
  snd (instrumented q t a) =
  match q with
  | AProbe p => Ok (RProbe (probe_routes p))
  | AMetrics => Ok (RMetrics (refresh_storage (cargo_sample (crates (app_state a))) (track_begin (series a))))
  | AApi r => x ← snd (router cfg r (app_state a)); Ok (RApi x)
  end.
Proof. destruct q as [p| |r]; unfold instrumented, routes; cbn; [reflexivity..|]. destruct (router cfg r (app_state a)) as [st [x|e|]]; reflexivity. Qed.

Lemma run_state qs : forall a, app_state (fst (run qs a)) = run_requests cfg (api_requests qs) (app_state a).
Proof.
  induction qs as [|[q t] qs IH]; intros a; cbn [run]; [reflexivity|].
  pose proof (instrumented_state q t a) as Hs. destruct (instrumented q t a) as [a1 r]. cbn in Hs. specialize (IH a1).
  destruct (run qs a1) as [a2 rs]. cbn in IH |- *. rewrite IH, Hs. destruct q as [p| |q]; reflexivity.
Qed.

(** The label of every request of the interface is the name of its handler. *)
Definition handler_name (r : CargoRequest) : string :=
  match r with
  | GetConfig => "config"
  | GetIndex _ _ | GetIndexRoot2 _ _ _ | GetIndexRoot3 _ _ _ _ => "index"
  | GetGitIndex _ => "git_index"
  | PutNew _ => "publish"
  | GetDownload _ _ => "download"
  | DeleteYank _ _ => "yank"
  | PutUnyank _ _ => "unyank"
  | GetOwners _ | PutOwners _ _ | DeleteOwners _ _ => "owners"
  end.

(** The metrics and the probes of a Cargo server change neither the state nor an
    answer of its interface: after any sequence of requests the state is the one the
    handlers alone reach, and each answered request of the interface adds one to the
    series of its method, its handler's name and its status. *)
Theorem instrumentation_transparent qs a :
  app_state (fst (run qs a)) = run_requests cfg (api_requests qs) (app_state a) /\
  forall r t a' x, instrumented (AApi r) t a = (a', Ok (RApi x)) ->
    snd (router cfg r (app_state a)) = Ok x /\
    requests_total (series a') = inc (method_label (r_method (seen (AApi r))), handler_name r, display_u64 (cstatus x)) (requests_total (series a)).
Proof.
  split; [apply run_state|]. intros r t a' x Hi. pose proof (instrumented_answer (AApi r) t a) as Hr. rewrite Hi in Hr. cbn in Hr.
  destruct (snd (router cfg r (app_state a))) as [y|e|] eqn:E; [|discriminate..]. cbn in Hr. injection Hr as ->. split; [reflexivity|].
  unfold instrumented, routes in Hi. cbn [app_state series] in Hi. destruct (router cfg r (app_state a)) as [st o]. cbn in E. subst o.
  injection Hi as <-. destruct r; reflexivity.
Qed.

End App.
