(* ===== verification/Harness.v ===== *)
(** * Running the crates' own checks on the model

    The assertions and the glue the repository's fuzz targets and unit tests are
    written with. A check is a computation that returns or panics; an assertion
    that does not hold is a panic, and so is an [unwrap] of an error. The files
    [Fuzz] and [Test*] translate the checks; a test that passes here is a point
    where the model and the code are known to agree. *)

From S2P Require Import Prelude.

Abbreviation run := (outcome Empty_set unit).

#[export] Instance outcome_eq_dec {E A} `{EqDecision E} `{EqDecision A} : EqDecision (outcome E A).
Proof. solve_decision. Defined.

(** [assert!], [assert_eq!] and [assert_ne!]. *)
Definition assert (b : bool) : run := if b then Ok tt else Panic.
Definition assert_eq {A} `{EqDecision A} (x y : A) : run := assert (bool_decide (x = y)).
Definition assert_ne {A} `{EqDecision A} (x y : A) : run := assert (negb (bool_decide (x = y))).

(** [unwrap] and [expect] on results and options, [unwrap_err]. *)
Definition unwrap {E A} (m : outcome E A) : outcome Empty_set A :=
  match m with Ok a => Ok a | _ => Panic end.
Definition unwrap_err {E A} (m : outcome E A) : outcome Empty_set E :=
  match m with Err e => Ok e | _ => Panic end.
Definition unwrap_some {A} (o : option A) : outcome Empty_set A := expect o.

Definition is_ok {E A} (m : outcome E A) : bool := match m with Ok _ => true | _ => false end.
Definition is_err {E A} (m : outcome E A) : bool := match m with Err _ => true | _ => false end.
Definition is_none {A} (o : option A) : bool := match o with None => true | Some _ => false end.

(** [if let Ok(x) = m { k(x) }] and [let _ = m;]. *)
Definition if_ok {E A} (m : outcome E A) (k : A -> run) : run :=
  match m with Ok a => k a | Err _ => Ok tt | Panic => Panic end.

Definition ignore {E A} (m : outcome E A) : run := if_ok m (fun _ => Ok tt).

(** [for x in l { f(x) }]. *)
Fixpoint for_each {A} (f : A -> run) (l : list A) : run :=
  match l with [] => Ok tt | x :: l => f x ;; for_each f l end.

(** A call of a method on a value the test holds: the value it leaves and what it
    returned. *)
Definition call {S E A} (m : stm S E A) (s : S) : outcome Empty_set (S * outcome E A) := Ok (m s).
Definition call_ok {S E A} (m : stm S E A) (s : S) : outcome Empty_set (S * A) :=
  match m s with (s, Ok a) => Ok (s, a) | _ => Panic end.

(** A test that calls methods on one value throughout: [m.unwrap()],
    [m.expect_err(..)], the result as a value, and a pure check in between. *)
Abbreviation session S A := (stm S Empty_set A).

Definition ok {S E A} (m : stm S E A) : session S A := fun s => let '(s, o) := m s in (s, unwrap o).
Definition err {S E A} (m : stm S E A) : session S E := fun s => let '(s, o) := m s in (s, unwrap_err o).
Definition result {S E A} (m : stm S E A) : session S (outcome E A) := fun s => let '(s, o) := m s in (s, Ok o).
Definition check {S A} (r : outcome Empty_set A) : session S A := st_lift r.

(** The test run from a starting value. *)
Definition starting {S A} (s : S) (t : session S A) : outcome Empty_set A := snd (t s).

(** A byte-string literal. *)
Definition bs (s : string) : bytes := String.list_byte_of_string s.

(** The tests of a file, by name. *)
Definition suite := list (string * run).
Definition passes (s : suite) : bool := forallb (fun t => match snd t with Ok _ => true | _ => false end) s.
