(* ===== verification/Fuzz.v ===== *)
(** * The fuzz targets, on every input

    The eleven targets under [fuzz/fuzz_targets] and [crates/*/fuzz/fuzz_targets]:
    each feeds arbitrary bytes to a parser that reads what a client sends, and
    asserts what must hold of an accepted input. A target is a function of its
    input that returns or panics, an [assert] that fails being a panic. Ten of
    them return on every input; the eleventh, on the publish body, is refuted, and
    the inputs it fails on are characterised. *)

From S2P Require Import Prelude Str Frame FrameSpec Rle Json Digest BlobStore CargoName CargoIndex.
From S2P Require Import MavenCoordinate MavenLayout MavenPaths MavenXml MavenHandlers MavenProps OciError OciReference.
From S2P Require Import AirflowText AirflowShield AirflowExtract AirflowMarkers AirflowCache Harness.

Local Open Scope string_scope.

(** [let Ok(s) = std::str::from_utf8(data) else { return; };]. *)
Definition with_text (data : bytes) (k : string -> run) : run :=
  match from_utf8 data with Some s => k s | None => Ok tt end.

(** ** Lumberjack frames *)

Section Frames.
Context `{Z0 : Zlib}.

(** [for _ in 0..n { match d.next_frame() { .. } }]. *)
Fixpoint next_frames (n : nat) (d : FrameDecoder) : run :=
  match n with
  | O => Ok tt
  | S n =>
    match next_frame d with
    | (d, Ok (Some _)) => next_frames n d
    | (_, Ok None) | (_, Err _) => Ok tt
    | (_, Panic) => Panic
    end
  end.

Definition fuzz_parse_frame (data : bytes) : run :=
  next_frames 1024 (feed (with_max_frame_payload (1024 * 1024)) data).

(** [slice::chunks(n)], for [n > 0]; the fuel is the length. *)
Fixpoint chunks (fuel n : nat) (l : bytes) : list bytes :=
  match fuel, l with
  | S fuel, _ :: _ => take n l :: chunks fuel n (drop n l)
  | _, _ => []
  end.

(** The final [loop], which an error leaves by [return]. *)
Definition final_drain (d : FrameDecoder) : run :=
  match drain (drain_fuel d) d with (_, Panic, _) => Panic | _ => Ok tt end.

Definition fuzz_lumberjack_frame_decode (data : bytes) : run :=
  match data with
  | [] => Ok tt
  | b :: payload =>
    let chunk := Z.to_nat (byte_Z b) in
    if (chunk =? 0)%nat || (length payload <=? chunk)%nat then final_drain (feed FrameDecoder_new payload) else
    match feed_chunks FrameDecoder_new (chunks (length payload) chunk payload) with
    | (_, Ok _, dec) => final_drain dec
    | (_, Err _, _) => Ok tt
    | (_, Panic, _) => Panic
    end
  end.

End Frames.

(** ** Digests and references *)

Definition fuzz_parse_digest (data : bytes) : run :=
  with_text data (fun s =>
    if_ok (Digest.from_str s) (fun d =>
      reparsed ← unwrap (Digest.from_str (Digest.to_string d));
      assert (bool_decide (d = reparsed)))).

Definition fuzz_parse_reference (data : bytes) : run :=
  with_text data (fun s =>
    _ ← if_ok (Reference.from_str s) (fun r =>
      reparsed ← unwrap (Reference.from_str (Reference.to_string r));
      _ ← assert (bool_decide (r = reparsed));
      match Reference.as_tag r with
      | Some t => _ ← assert (negb (bool_decide (t = ""))); assert (String.length t <=? MAX_TAG_LENGTH)%nat
      | None => Ok tt
      end);
    if_ok (OciReference.validate_name s) (fun _ =>
      _ ← assert (negb (bool_decide (s = "")));
      _ ← assert (String.length s <=? MAX_NAME_LENGTH)%nat;
      for_each_ok (fun component =>
        _ ← assert (negb (bool_decide (component = "..")));
        _ ← assert (negb (bool_decide (component = ".")));
        assert (negb (bool_decide (component = "")))) (split "/" s))).

(** ** Maven paths and documents *)

Definition fuzz_parse_layout_path (data : bytes) : run :=
  with_text data (fun s =>
    if_ok (parse_layout_path s) (fun parsed =>
      match class parsed with
      | Artifact | Checksum _ =>
        let rendered := Coordinate.repository_path (coordinate parsed) in
        _ ← assert (negb (bool_decide (rendered = "")));
        for_each_ok (fun seg => assert (negb (bool_decide (seg = "..")))) (split "/" rendered)
      | _ => Ok tt
      end)).

Definition fuzz_parse_metadata_xml `{QuickXml} (data : bytes) : run :=
  with_text data (fun s => ignore (MavenMetadata.from_xml s)).

Definition fuzz_maven_pom_parse `{QuickXml} (data : bytes) : run :=
  with_text data (fun s => ignore (parse_pom s)).

(** ** Airflow sources *)

Section Airflow.
Context `{PyParser} (h : Host).

Definition fuzz_extract_static_dag (data : bytes) : run :=
  with_text data (fun src => ignore (extract_static_dag h src)).

Definition fuzz_airflow_dag_extract (data : bytes) : run :=
  with_text data (fun src => ignore (extract_all_static_dags h src)).

(** [dynamic_markers_for] is [detect_dynamic_markers] with its errors dropped. *)
Definition fuzz_dynamic_markers (data : bytes) : run :=
  with_text data (fun src => ignore (detect_dynamic_markers (spawn_markers h) (payload_of h) src)).

End Airflow.

(** ** The Cargo publish body *)

Section Cargo.
Context `{JsonText}.

(** [req.manifest.get("name").and_then(|v| v.as_str())]. *)
Definition published_name (data : bytes) : option string :=
  req ← ok_of (parse data); v ← Value.get "name" (manifest req); Value.as_str v.

Definition fuzz_parse_publish_body (data : bytes) : run :=
  if_ok (parse data) (fun req =>
    match Value.get "name" (manifest req) ≫= Value.as_str with
    | Some name =>
      if is_valid_name name then
        _ ← assert (String.length name <=? MAX_NAME_LEN)%nat;
        path ← index_path name;
        _ ← assert (negb (bool_decide (path = "")));
        assert (ends_with (to_ascii_lowercase name) path)
      else
        path ← index_path name;
        assert (negb (str_contains ".." path))
    | None => Ok tt
    end).

End Cargo.

(** ** Lemmas: targets that return *)

Lemma with_text_total data (k : string -> run) : (forall s, k s <> Panic) -> with_text data k <> Panic.
Proof. intros Hk. unfold with_text. destruct (from_utf8 data); [apply Hk|discriminate]. Qed.

Lemma ignore_total {E A} (m : outcome E A) : m <> Panic -> ignore m <> Panic.
Proof. destruct m; [discriminate|discriminate|contradiction]. Qed.

Lemma if_ok_total {E A} (m : outcome E A) (k : A -> run) :
  m <> Panic -> (forall a, m = Ok a -> k a <> Panic) -> if_ok m k <> Panic.
Proof. intros Hm Hk. destruct m; [apply Hk; reflexivity|discriminate|contradiction]. Qed.

Lemma assert_ok b : b = true -> assert b = Ok tt.
Proof. intros ->. reflexivity. Qed.

Lemma assert_neq (x y : string) : x <> y -> assert (negb (bool_decide (x = y))) = Ok tt.
Proof. intros H. apply assert_ok. rewrite bool_decide_false by exact H. reflexivity. Qed.

Section Frame_targets.
Context `{Z0 : Zlib} {ZL : ZlibLaws Z0}.

Lemma next_frames_total n d : wf d -> next_frames n d <> Panic.
Proof using ZL.
  revert d. induction n as [|n IH]; intros d Hd; cbn; [discriminate|]. rewrite next_frame_parse by exact Hd.
  destruct (FrameSpec.parse_frame (max_frame_payload d) (rest d)) as [[[f k]|]| |] eqn:E; cbn; try discriminate.
  - apply parse_frame_progress in E. apply IH, wf_advance; [exact Hd|lia].
  - exfalso. exact (parse_frame_total _ _ E).
Qed.

Lemma fuzz_parse_frame_total data : fuzz_parse_frame data <> Panic.
Proof using ZL. apply next_frames_total, wf_feed, wf_new. Qed.

Lemma final_drain_total d : wf d -> final_drain d <> Panic.
Proof using ZL.
  intros Hd. unfold final_drain.
  assert (Hl : (length (rest d) < drain_fuel d)%nat).
  { unfold drain_fuel. pose proof (length_rest_le_buf d). lia. }
  destruct (drain_parse_all _ d Hd Hl) as (d' & -> & _). pose proof (parse_all_total (max_frame_payload d) _ _ Hl) as Ht.
  destruct (snd (fst (parse_all _ _ _))); [discriminate|discriminate|contradiction].
Qed.

Lemma fuzz_lumberjack_frame_decode_total data : fuzz_lumberjack_frame_decode data <> Panic.
Proof using ZL.
  destruct data as [|b payload]; [discriminate|]. unfold fuzz_lumberjack_frame_decode. cbn zeta.
  destruct (_ || _); [apply final_drain_total, wf_feed, wf_new|].
  set (cs := chunks _ _ _).
  destruct (feed_chunks_parse_all FrameDecoder_new cs (S (length (concat cs)))) as (d' & -> & Hwf & _).
  - apply wf_new.
  - reflexivity.
  - change (rest FrameDecoder_new) with (@nil byte). cbn [app]. lia.
  - destruct (snd (fst (parse_all _ _ _))) eqn:E; [apply final_drain_total, Hwf|discriminate|].
    exfalso. revert E. apply parse_all_total. change (rest FrameDecoder_new) with (@nil byte). cbn [app]. lia.
Qed.

End Frame_targets.

Lemma fuzz_parse_digest_total data : fuzz_parse_digest data <> Panic.
Proof.
  apply with_text_total. intros s. apply if_ok_total; [apply Digest.from_str_total|]. intros d Hd.
  rewrite Digest.from_str_to_string by exact (Digest.from_str_valid s d Hd). cbn.
  rewrite bool_decide_true by reflexivity. discriminate.
Qed.

Lemma component_asserts c : component c ->
  (_ ← assert (negb (bool_decide (c = "..")));
   _ ← assert (negb (bool_decide (c = ".")));
   assert (negb (bool_decide (c = "")))) = Ok tt.
Proof.
  intros [(x & t & -> & Hx) _]%component_shape.
  rewrite !assert_neq by (intros [= -> _]; discriminate). reflexivity.
Qed.

Lemma tag_asserts t : is_valid_tag t = true ->
  (_ ← assert (negb (bool_decide (t = ""))); assert (String.length t <=? MAX_TAG_LENGTH)%nat) = Ok tt.
Proof.
  intros Ht. rewrite assert_neq by (intros ->; discriminate Ht). cbn. apply assert_ok, Nat.leb_le.
  unfold is_valid_tag in Ht. destruct (Nat.ltb_spec MAX_TAG_LENGTH (String.length t)); [|assumption].
  rewrite orb_true_r in Ht. discriminate.
Qed.

Lemma fuzz_parse_reference_total data : fuzz_parse_reference data <> Panic.
Proof.
  apply with_text_total. intros s. apply bind_total.
  - apply if_ok_total; [apply reference_parse_total|]. intros r Hr.
    destruct (reference_parse_valid s r Hr) as [Hv _]. rewrite reference_valid_parse by exact Hv. cbn.
    rewrite assert_ok by (apply bool_decide_eq_true; reflexivity). cbn.
    destruct r as [t|d]; cbn; [rewrite (tag_asserts t Hv)|]; discriminate.
  - intros _. apply if_ok_total; [apply validate_name_total|].
    intros [] (Hlen & cs & Hcs & Hall & ->)%validate_name_iff.
    rewrite split_join by (exact Hcs || (eapply Forall_impl; [exact Hall|apply component_no_slash])).
    rewrite assert_neq, assert_ok, (proj2 (for_each_ok_iff _ cs)); [discriminate| | |].
    + eapply Forall_impl; [exact Hall|apply component_asserts].
    + apply Nat.leb_le, Hlen.
    + destruct Hall as [|c cs Hc Hall]; [contradiction|]. destruct (component_shape c Hc) as [(x & t & -> & _) _].
      destruct cs; discriminate.
Qed.

Lemma fuzz_parse_layout_path_total data : fuzz_parse_layout_path data <> Panic.
Proof.
  apply with_text_total. intros s. apply if_ok_total; [apply parse_layout_total|]. intros [c cl] Hp. cbn [class coordinate].
  assert (Hr : Coordinate.repository_path c <> "").
  { intros E. pose proof (accepted_segments s c cl Hp) as Hs. rewrite E in Hs. cbn in Hs.
    apply (f_equal length) in Hs. rewrite length_app in Hs. cbn in Hs. lia. }
  assert (Hseg : for_each_ok (E := Empty_set) (fun seg => assert (negb (bool_decide (seg = "..")))) (split "/" (Coordinate.repository_path c)) = Ok tt).
  { apply for_each_ok_iff. eapply Forall_impl; [exact (accepted_not_traversal s c cl Hp)|].
    intros seg [_ Hn]. apply assert_neq, Hn. }
  destruct cl; [| |discriminate]; rewrite (assert_neq _ _ Hr); cbn; rewrite Hseg; discriminate.
Qed.

Lemma fuzz_maven_total `{QuickXml} data : fuzz_parse_metadata_xml data <> Panic /\ fuzz_maven_pom_parse data <> Panic.
Proof.
  split; apply with_text_total; intros s; apply ignore_total; [apply from_xml_total|apply parse_pom_total].
Qed.

Lemma fuzz_airflow_total `{PyParser} h data :
  fuzz_extract_static_dag h data <> Panic /\ fuzz_airflow_dag_extract h data <> Panic /\ fuzz_dynamic_markers h data <> Panic.
Proof.
  split_and!; apply with_text_total; intros s; apply ignore_total; [apply bind_total; [apply shield_total|discriminate]|..];
    apply shield_total.
Qed.

(** ** Lemmas: the path of a name that was not validated *)

(** A slice taken by [index_path] falls inside a character of the name (offset 0
    is always a boundary of well-formed text). *)
Definition splits_character (name : string) : bool :=
  match String.length name with
  | 0 | 1 | 2 => false
  | 3 => negb (is_char_boundary 0 name && is_char_boundary 1 name)
  | _ => negb (is_char_boundary 0 name && is_char_boundary 2 name && is_char_boundary 4 name)
  end%nat.

Lemma starts_with_cons x p c s : starts_with (String x p) (String c s) = Ascii.eqb x c && starts_with p s.
Proof. unfold starts_with. cbn [strip_prefix]. destruct (Ascii.eqb x c); reflexivity. Qed.

Lemma dots_slash a b : str_contains ".." (a ++ String "/" b) = str_contains ".." a || str_contains ".." b.
Proof.
  induction a as [|c a IH]; [reflexivity|]. rewrite str_app_cons. cbn [str_contains].
  rewrite IH, !starts_with_cons, orb_assoc. f_equal. f_equal. f_equal.
  destruct a as [|d a]; [reflexivity|]. rewrite str_app_cons, !starts_with_cons. reflexivity.
Qed.

Lemma index_path_dots {E} name :
  index_path (E := E) name =
    if splits_character (to_ascii_lowercase name) then Panic else
    Ok (match to_ascii_lowercase name with "" => "" | lower => index_prefix lower ++ "/" ++ lower end).
Proof.
  unfold index_path, index_prefix, splits_character. set (lower := to_ascii_lowercase name). clearbody lower.
  destruct lower as [|a [|b [|c [|d t]]]]; [reflexivity|reflexivity|reflexivity|..]; cbn [String.length];
    unfold str_slice, is_char_boundary; cbn [String.get String.length Nat.leb andb Nat.sub String.substring mbind outcome_bind].
  - destruct (is_continuation a), (is_continuation b); reflexivity.
  - destruct (is_continuation a), (is_continuation c); try reflexivity; cbn.
    destruct t as [|e t]; cbn; [reflexivity|]. destruct (is_continuation e); reflexivity.
Qed.

Lemma dots_cons a b s :
  str_contains ".." (String a (String b s)) = Ascii.eqb "." a && Ascii.eqb "." b || str_contains ".." (String b s).
Proof. cbn [str_contains]. rewrite !(starts_with_cons "."). f_equal. f_equal. destruct s; apply andb_true_r. Qed.

Lemma dots_one a : str_contains ".." (String a "") = false.
Proof. cbn [str_contains]. rewrite starts_with_cons. apply orb_false_iff. split; [apply andb_false_r|reflexivity]. Qed.

Lemma dots_prefix lower : str_contains ".." (index_prefix lower) = true -> str_contains ".." lower = true.
Proof.
  destruct lower as [|a [|b [|c [|d t]]]]; unfold index_prefix; cbn [String.length String.substring];
    try (intros H; discriminate H).
  - change ("3/" ++ ?x) with ("3" ++ String "/" x). rewrite dots_slash, !dots_one. discriminate.
  - change ("/" ++ ?x) with (String "/" x). rewrite dots_slash.
    replace (String.substring 0 0 t) with "" by (destruct t; reflexivity). rewrite !dots_cons, !dots_one.
    intros H. repeat (apply orb_true_iff in H as [H|H] || discriminate H); rewrite H, ?orb_true_r; reflexivity.
Qed.

Lemma lower_dots name : str_contains ".." (to_ascii_lowercase name) = str_contains ".." name.
Proof.
  unfold to_ascii_lowercase. assert (Hc : forall c, Ascii.eqb "." (to_ascii_lowercase_char c) = Ascii.eqb "." c).
  { intros [[] [] [] [] [] [] [] []]; reflexivity. }
  induction name as [|a [|b s] IH]; [reflexivity| |].
  - cbn [str_map]. rewrite !dots_one. reflexivity.
  - cbn [str_map] in *. rewrite !dots_cons, IH, !Hc. reflexivity.
Qed.

Lemma lower_splits name : splits_character (to_ascii_lowercase name) = splits_character name.
Proof.
  assert (Hb : forall i s, is_char_boundary i (to_ascii_lowercase s) = is_char_boundary i s).
  { intros i s. unfold is_char_boundary, to_ascii_lowercase. revert i.
    induction s as [|c s IH]; intros i; [destruct i; reflexivity|]. destruct i as [|i]; cbn [String.get str_map]; [|apply IH].
    destruct c as [[] [] [] [] [] [] [] []]; reflexivity. }
  unfold splits_character. rewrite !Hb. unfold to_ascii_lowercase. rewrite length_str_map. reflexivity.
Qed.

(** What [index_path] makes of any name at all. *)
Lemma index_path_any {E} name :
  if splits_character name then index_path (E := E) name = Panic else
  exists path, index_path (E := E) name = Ok path /\ str_contains ".." path = str_contains ".." name /\
    ends_with (to_ascii_lowercase name) path = true /\ (name <> "" -> path <> "").
Proof.
  rewrite index_path_dots, lower_splits. destruct (splits_character name); [reflexivity|].
  eexists. split; [reflexivity|]. rewrite <- (lower_dots name).
  assert (Hne : name <> "" -> to_ascii_lowercase name <> "") by (destruct name; [contradiction|discriminate]).
  set (lower := to_ascii_lowercase name) in *. clearbody lower.
  destruct lower as [|c s] eqn:El; [split_and!; [reflexivity|reflexivity|intros H; destruct (Hne H eq_refl)]|].
  cbv iota zeta. rewrite <- El. change ("/" ++ lower) with (String "/" lower). split_and!.
  - rewrite dots_slash. destruct (str_contains ".." (index_prefix lower)) eqn:Ep; [|reflexivity].
    rewrite (dots_prefix lower Ep). reflexivity.
  - change (String "/" lower) with ("/" ++ lower). rewrite <- str_app_assoc.
    destruct (strip_suffix lower ((index_prefix lower ++ "/") ++ lower)) eqn:Es.
    + unfold strip_suffix in Es. destruct (ends_with _ _); [reflexivity|discriminate].
    + rewrite (proj2 (strip_suffix_iff lower _ (index_prefix lower ++ "/")) eq_refl) in Es. discriminate.
  - intros _. destruct (index_prefix lower); discriminate.
Qed.

(** ** What the targets establish *)

(** C18: ten of the eleven fuzz targets return on every input whatever the
    libraries behind them do (the XML parser and the Python parser may panic, the
    parse thread may fail to start), and every assertion they make holds: the
    frame decoder with either framing, the digest parser with its round trip, the
    reference and name parsers with their round trip and bounds, the layout
    parser with the confinement of its paths, both XML documents and the three
    entry points of the DAG parser. *)
Theorem fuzz_targets_return `{Z0 : Zlib} {ZL : ZlibLaws Z0} `{QuickXml} `{PyParser} (h : Host) (data : bytes) :
  Forall (fun target : bytes -> run => target data = Ok tt)
    [fuzz_parse_frame; fuzz_lumberjack_frame_decode; fuzz_parse_digest; fuzz_parse_reference; fuzz_parse_layout_path;
     fuzz_parse_metadata_xml; fuzz_maven_pom_parse; fuzz_extract_static_dag h; fuzz_airflow_dag_extract h;
     fuzz_dynamic_markers h].
Proof.
  assert (Hok : forall r : run, r <> Panic -> r = Ok tt) by (intros [[]|[]|] Hr; [reflexivity|contradiction]).
  destruct (fuzz_maven_total data) as [? ?], (fuzz_airflow_total h data) as (? & ? & ?).
  pose proof (fuzz_parse_frame_total data). pose proof (fuzz_lumberjack_frame_decode_total data).
  pose proof (fuzz_parse_digest_total data). pose proof (fuzz_parse_reference_total data).
  pose proof (fuzz_parse_layout_path_total data). repeat constructor; apply Hok; assumption.
Qed.

(** Libraries that panic on every input. *)
Definition panicking_xml : QuickXml := {| xml_metadata _ := XmlPanic None; xml_pom _ := XmlPanic None |}.
Definition panicking_parser : PyParser := {| lex _ := []; parse_module _ := Unwound OtherPayload |}.

Lemma fuzz_targets_return_witness :
  Forall (fun target : bytes -> run => target (bs "2Wabcd2A01234") = Ok tt)
    [fuzz_parse_frame; fuzz_lumberjack_frame_decode; fuzz_parse_digest; fuzz_parse_reference; fuzz_parse_layout_path;
     fuzz_parse_metadata_xml (H := panicking_xml); fuzz_maven_pom_parse (H := panicking_xml);
     fuzz_extract_static_dag (H := panicking_parser) (host 3); fuzz_airflow_dag_extract (H := panicking_parser) (host 3);
     fuzz_dynamic_markers (H := panicking_parser) (host 3)].
Proof. exact (@fuzz_targets_return rle_zlib rle_zlib_laws panicking_xml panicking_parser (host 3) (bs "2Wabcd2A01234")). Defined.

Lemma publish_parse_total `{JsonText} data : parse data <> Panic.
Proof.
  unfold parse, read_u32_le. destruct (_ <? 4)%Z; [discriminate|]. cbn. case_match; [discriminate|].
  apply bind_total; [apply ok_or_total|]. intros v. case_match; [discriminate|]. cbn. case_match; discriminate.
Qed.

Lemma valid_name_asserts name : is_valid_name name = true ->
  (_ ← assert (String.length name <=? MAX_NAME_LEN)%nat;
   path ← index_path name;
   _ ← assert (negb (bool_decide (path = "")));
   assert (ends_with (to_ascii_lowercase name) path)) = Ok tt.
Proof.
  intros Hv. destruct (valid_name_chars name Hv) as (Hne & Hlen & _).
  rewrite assert_ok by (apply Nat.leb_le, Hlen). cbn [mbind outcome_bind].
  pose proof (index_path_any (E := Empty_set) name) as Hi. destruct (splits_character name).
  - rewrite index_path_eq in Hi by exact Hv. discriminate.
  - destruct Hi as (path & -> & _ & He & Hp). cbn [mbind outcome_bind].
    rewrite assert_neq by exact (Hp Hne). exact (assert_ok _ He).
Qed.

(** The target on the publish body fails exactly on the bodies that name an
    invalid crate whose name holds two dots in a row (its path then holds them too)
    or whose bytes [index_path] cuts inside a character. For a valid name its
    assertions hold: the length is within the limit, and the path is not empty and
    ends with the name in lower case. *)
Theorem publish_target_exact `{JsonText} (data : bytes) :
  fuzz_parse_publish_body data = Panic <->
  exists name, published_name data = Some name /\ is_valid_name name = false /\
    (splits_character name = true \/ str_contains ".." name = true).
Proof.
  unfold fuzz_parse_publish_body, published_name, if_ok. pose proof (publish_parse_total data) as Ht.
  destruct (parse data) as [req|e|]; cbn [ok_of mbind option_bind]; [|split; [discriminate|intros (? & [=] & _)]|contradiction].
  change (Value.get "name" (manifest req) ≫= (fun v => Value.as_str v)) with (Value.get "name" (manifest req) ≫= Value.as_str).
  destruct (_ ≫= Value.as_str) as [name|]; [|split; [discriminate|intros (? & [=] & _)]].
  transitivity (is_valid_name name = false /\ (splits_character name = true \/ str_contains ".." name = true));
    [|split; [eauto|intros (? & [= <-] & ?); assumption]].
  destruct (is_valid_name name) eqn:Hv; [rewrite valid_name_asserts by exact Hv; split; [discriminate|intros [[=] _]]|].
  pose proof (index_path_any (E := Empty_set) name) as Hi. destruct (splits_character name).
  - rewrite Hi. split; [auto|reflexivity].
  - destruct Hi as (path & -> & Hd & _). cbn [mbind outcome_bind]. rewrite Hd.
    destruct (str_contains ".." name); cbn; [split; [auto|reflexivity]|split; [discriminate|intros (_ & [[=]|[=]])]].
Qed.

(** The body that publishes a crate called [..] refutes the target: the path is
    [2/..]. *)
Definition dotdot_body : bytes := encode (JObject [("name", JString "..")]) [].

Lemma publish_target_refuted : published_name dotdot_body = Some ".." /\ fuzz_parse_publish_body dotdot_body = Panic.
Proof. split; vm_compute; reflexivity. Qed.
