(* ===== verification/TestLumberjack.v ===== *)
(** * The unit tests of the Lumberjack crate

    [mod tests] of [frame.rs], [sequence.rs], [server.rs], [client.rs] and
    [tls.rs] in [crates/ferro-lumberjack/src], run on the model: one definition per
    test, under its name. *)

From S2P Require Import Prelude Sequence Frame Rle Str Net Server Client Fs Tls Harness.

(** ** The unit tests of the frame codec and of sequence numbers

    [mod tests] of [crates/ferro-lumberjack/src/frame.rs] and [sequence.rs], run on
    the model with the codec of [Rle] for zlib. The property tests of the module
    are the theorems of [FrameProps] and of [Fuzz]; the test of the buffer's
    capacity has no counterpart. *)

Module FrameTests.

Import Prelude Sequence Frame Rle Harness.

Local Open Scope Z_scope.

(** [d.next_frame()], and with [.unwrap()]. *)
Definition try_next (d : FrameDecoder) : outcome Empty_set (FrameDecoder * outcome FrameError (option Frame)) := call next_frame d.
Definition next (d : FrameDecoder) : outcome Empty_set (FrameDecoder * option Frame) := call_ok next_frame d.

(** A test that feeds one buffer to a new decoder. *)
Definition decoding (b : bytes) : FrameDecoder := feed FrameDecoder_new b.

(** [u32::from_be_bytes] of four bytes at an offset. *)
Definition be_at (i : nat) (b : bytes) : Z := u32_from_be_bytes (take 4 (drop i b)).

(** The result of a next frame is an error of this kind. *)
Definition too_large (requested limit : Z) (o : outcome FrameError (option Frame)) : bool :=
  bool_decide (o = Err (PayloadTooLarge requested limit)).

Definition is_compressed (o : option Frame) : bool := match o with Some (Compressed _) => true | _ => false end.

Definition encode_window_layout : run :=
  let b := encode_window 42 in
  assert_eq (b !! 0%nat) (Some "2"%byte) ;; assert_eq (b !! 1%nat) (Some "W"%byte) ;; assert_eq (be_at 2 b) 42.

Definition encode_ack_layout : run :=
  let b := encode_ack 7 in
  assert_eq (b !! 0%nat) (Some "2"%byte) ;; assert_eq (b !! 1%nat) (Some "A"%byte) ;; assert_eq (be_at 2 b) 7.

Definition encode_json_frame_layout : run :=
  let b := encode_json_frame 13 (bs "hello") in
  assert_eq (take 2 b) (bs "2J") ;; assert_eq (be_at 2 b) 13 ;; assert_eq (be_at 6 b) 5 ;; assert_eq (drop 10 b) (bs "hello").

Definition decode_window_round_trip : run :=
  '(d, f) ← next (decoding (encode_window 123));
  f ← unwrap_some f;
  assert_eq f (Window 123) ;;
  '(_, f) ← next d;
  assert_eq f None.

Definition decode_ack_round_trip : run :=
  '(_, f) ← next (decoding (encode_ack 987654));
  assert_eq f (Some (Ack 987654)).

(** A JSON payload, quotes included. *)
Definition object : bytes := "{"%byte :: x22 :: "k"%byte :: x22 :: ":"%byte :: x22 :: "v"%byte :: x22 :: ["}"%byte].

Definition decode_json_round_trip : run :=
  '(_, f) ← next (decoding (encode_json_frame 1 object));
  f ← unwrap_some f;
  match f with Json seq payload => assert_eq seq 1 ;; assert_eq payload object | _ => Panic end.

Definition decode_handles_concatenated_frames : run :=
  let d := decoding (encode_window 2 ++ encode_json_frame 1 (bs "a") ++ encode_json_frame 2 (bs "bb") ++ encode_ack 2) in
  '(d, f) ← next d; assert_eq f (Some (Window 2)) ;;
  '(d, f) ← next d; assert_eq f (Some (Json 1 (bs "a"))) ;;
  '(d, f) ← next d; assert_eq f (Some (Json 2 (bs "bb"))) ;;
  '(d, f) ← next d; assert_eq f (Some (Ack 2)) ;;
  '(_, f) ← next d; assert_eq f None.

(** The loop of the test over the bytes of the frame. *)
Fixpoint feed_byte_by_byte (l : bytes) (d : FrameDecoder) : outcome Empty_set FrameDecoder :=
  match l with
  | [] => Ok d
  | b :: l => '(d, f) ← next d; assert_eq f None ;; feed_byte_by_byte l (feed d [b])
  end.

Definition decode_handles_byte_at_a_time_feeds : run :=
  d ← feed_byte_by_byte (encode_json_frame 5 (bs "abcdefgh")) FrameDecoder_new;
  '(_, f) ← next d;
  f ← unwrap_some f;
  match f with Json seq payload => assert_eq seq 5 ;; assert_eq payload (bs "abcdefgh") | _ => Panic end.

Definition decode_compressed_round_trip : run :=
  let inner := encode_json_frame 1 (bs "hello") ++ encode_json_frame 2 (bs "world") in
  outer ← unwrap (encode_compressed 6 inner);
  '(_, f) ← next (decoding outer);
  f ← unwrap_some f;
  match f with Compressed decompressed => assert_eq decompressed inner | _ => Panic end.

Definition decode_rejects_bad_version : run :=
  '(_, o) ← try_next (decoding (["1"%byte; "W"%byte] ++ u32_to_be_bytes 1));
  assert_eq o (Err (UnsupportedVersion "1"%byte)).

Definition decode_rejects_unknown_frame_type : run :=
  '(_, o) ← try_next (decoding (["2"%byte; "Z"%byte] ++ u32_to_be_bytes 1));
  assert_eq o (Err (UnknownFrameType "Z"%byte)).

Definition decode_caps_oversize_json_payload : run :=
  '(_, o) ← try_next (feed (with_max_frame_payload 16) (["2"%byte; "J"%byte] ++ u32_to_be_bytes 1 ++ u32_to_be_bytes 100));
  assert (match o with Err (PayloadTooLarge _ _) => true | _ => false end).

Definition decode_caps_zlib_bomb : run :=
  let original := replicate (Z.to_nat (1024 * 64)) x00 in
  frame ← unwrap (encode_compressed 9 original);
  '(_, o) ← try_next (feed (with_max_frame_payload 1024) frame);
  assert (match o with Err (DecompressedTooLarge _) | Err (PayloadTooLarge _ _) => true | _ => false end).

(** A legacy frame with the given sequence number and pairs. *)
Definition legacy (seq : Z) (pairs : list (bytes * bytes)) : bytes :=
  bs "2D" ++ u32_to_be_bytes seq ++ u32_to_be_bytes (zlen pairs) ++
  concat ((fun kv => u32_to_be_bytes (zlen (fst kv)) ++ fst kv ++ u32_to_be_bytes (zlen (snd kv)) ++ snd kv) <$> pairs).

Definition legacy_d_frame_is_decoded_as_unknown_and_advances : run :=
  '(d, f) ← next (decoding (legacy 5 [(bs "foo", bs "bar")] ++ encode_ack 5));
  f ← unwrap_some f;
  match f with
  | Unknown frame_type raw =>
    assert_eq frame_type "D"%byte ;; assert_eq (take 2 raw) (bs "2D") ;;
    '(_, f) ← next d; assert_eq f (Some (Ack 5))
  | _ => Panic
  end.

Definition frame_type_wire_bytes_are_exact : run :=
  let all := [FtWindow; FtJson; FtCompressed; FtAck] in
  assert_eq (wire_byte <$> all) (bs "WJCA") ;;
  for_each (fun t => assert_ne (wire_byte t) x00 ;; assert_ne (wire_byte t) x01) all ;;
  assert_eq (length (remove_dups (wire_byte <$> all))) 4%nat ;;
  assert_eq (wire_byte <$> all) [FRAME_TYPE_WINDOW; FRAME_TYPE_JSON; FRAME_TYPE_COMPRESSED; FRAME_TYPE_ACK] ;;
  assert_eq (encode_window 0 !! 1%nat) (Some (wire_byte FtWindow)) ;;
  assert_eq (encode_ack 0 !! 1%nat) (Some (wire_byte FtAck)) ;;
  assert_eq (encode_json_frame 0 [] !! 1%nat) (Some (wire_byte FtJson)).

(** [n] frames consumed. *)
Fixpoint consume (n : nat) (d : FrameDecoder) : outcome Empty_set FrameDecoder :=
  match n with O => Ok d | S n => '(d, _) ← next d; consume n d end.

Definition decoder_at (acks_total acks_consumed : nat) : outcome Empty_set FrameDecoder :=
  consume acks_consumed (decoding (concat (replicate acks_total (encode_ack 7)))).

(** [(d.read_pos, d.buf.len())]. *)
Definition cursor (d : FrameDecoder) : Z * Z := (read_pos d, zlen (buf d)).

Definition feed_compacts_when_read_pos_at_least_half : run :=
  d ← decoder_at 4 2;
  assert_eq (cursor d) (12, 24) ;;
  let d := feed d [] in
  assert_eq (cursor d) (0, 12) ;;
  '(_, f) ← next d; assert_eq f (Some (Ack 7)).

Definition feed_does_not_compact_when_read_pos_below_half : run :=
  d ← decoder_at 6 2;
  assert_eq (cursor d) (12, 36) ;;
  assert_eq (cursor (feed d [])) (12, 36).

Definition feed_does_not_compact_when_read_pos_zero : run :=
  let d := decoding (encode_ack 7) in
  assert_eq (read_pos d) 0 ;;
  assert_eq (cursor (feed d [])) (0, zlen (buf d)).

Definition feed_compacts_strictly_above_half : run :=
  d ← decoder_at 4 3;
  assert_eq (cursor d) (18, 24) ;;
  let d := feed d [] in
  assert_eq (cursor d) (0, 6) ;;
  '(_, f) ← next d; assert_eq f (Some (Ack 7)).

Definition feed_half_uses_integer_division_not_mod_or_mul : run :=
  d ← decoder_at 4 2;
  assert_eq (cursor d) (12, 24) ;;
  assert_eq (read_pos (feed d [])) 0 ;;
  d2 ← decoder_at 6 1;
  assert_eq (cursor d2) (6, 36) ;;
  assert_eq (cursor (feed d2 [])) (6, 36).

Definition feed_and_predicate_requires_both_operands : run :=
  d ← decoder_at 6 1;
  assert_eq (cursor d) (6, 36) ;;
  assert_eq (read_pos (feed d [])) 6.

Definition window_needs_exactly_six_bytes : run :=
  let full := encode_window 0xDEADBEEF in
  '(d, f) ← next (decoding (take 5 full)); assert_eq f None ;;
  '(_, f) ← next (feed d (drop 5 full)); assert_eq f (Some (Window 0xDEADBEEF)).

Definition ack_needs_exactly_six_bytes : run :=
  let full := encode_ack 0x01020304 in
  '(d, f) ← next (decoding (take 5 full)); assert_eq f None ;;
  '(_, f) ← next (feed d (drop 5 full)); assert_eq f (Some (Ack 0x01020304)).

Definition json_needs_ten_header_bytes_then_payload : run :=
  let full := encode_json_frame 9 (bs "ABCD") in
  '(d, f) ← next (decoding (take 9 full)); assert_eq f None ;;
  '(d, f) ← next (feed d (take 1 (drop 9 full))); assert_eq f None ;;
  '(_, f) ← next (feed d (drop 10 full)); assert_eq f (Some (Json 9 (bs "ABCD"))).

Definition json_payload_cap_is_strictly_greater_than : run :=
  let cap := 8 in
  '(_, f) ← next (feed (with_max_frame_payload cap) (encode_json_frame 1 (replicate 8 "z"%byte)));
  match f with
  | Some (Json _ got) => assert_eq (zlen got) cap
  | _ => Panic
  end ;;
  '(_, o) ← try_next (feed (with_max_frame_payload cap) (encode_json_frame 1 (replicate 9 "z"%byte)));
  assert (too_large (cap + 1) cap o).

Definition compressed_needs_six_header_bytes : run :=
  let inner := encode_json_frame 1 (bs "hi") in
  frame ← unwrap (encode_compressed 6 inner);
  let n := length frame in
  '(d, f) ← next (decoding (take 5 frame)); assert_eq f None ;;
  '(d, f) ← next (feed d (take 1 (drop 5 frame))); assert_eq f None ;;
  '(d, f) ← next (feed d (take (n - 7) (drop 6 frame))); assert_eq f None ;;
  '(_, f) ← next (feed d (drop (n - 1) frame)); assert_eq f (Some (Compressed inner)).

Definition compressed_payload_cap_is_strictly_greater_than : run :=
  let inner := encode_json_frame 1 (bs "hello world payload") in
  frame ← unwrap (encode_compressed 0 inner);
  let clen := be_at 2 frame in
  '(_, f) ← next (feed (with_max_frame_payload (Z.max clen (zlen inner))) frame);
  assert (is_compressed f) ;;
  '(_, o) ← try_next (feed (with_max_frame_payload (clen - 1)) frame);
  assert (too_large clen (clen - 1) o).

Definition compressed_read_pos_advances_by_six_plus_len : run :=
  wire ← unwrap (encode_compressed 0 (encode_json_frame 1 (bs "payload-bytes")));
  '(d, f) ← next (feed (with_max_frame_payload (64 * 1024)) (wire ++ encode_ack 55));
  assert (is_compressed f) ;;
  '(d, f) ← next d; assert_eq f (Some (Ack 55)) ;;
  '(_, f) ← next d; assert_eq f None.

Definition legacy_d_frame_header_boundary_is_ten : run :=
  let frame := legacy 5 [] in
  '(d, f) ← next (decoding (take 9 frame)); assert_eq f None ;;
  '(_, f) ← next (feed d (drop 9 frame));
  match f with
  | Some (Unknown frame_type raw) => assert_eq frame_type "D"%byte ;; assert_eq (length raw) 10%nat
  | _ => Panic
  end.

Definition legacy_d_frame_pair_length_boundaries : run :=
  let frame := legacy 5 [(bs "ab", bs "cde")] in
  let total := length frame in
  for_each (fun cut => '(_, f) ← next (decoding (take cut frame)); assert_eq f None) (seq 1 (total - 1)) ;;
  '(_, f) ← next (decoding frame);
  match f with Some (Unknown _ raw) => assert_eq (length raw) total | _ => Panic end.

Definition legacy_d_frame_key_and_val_len_caps : run :=
  let cap := 4 in
  '(_, o) ← try_next (feed (with_max_frame_payload cap) (bs "2D" ++ u32_to_be_bytes 1 ++ u32_to_be_bytes 1 ++ u32_to_be_bytes (cap + 1)));
  assert (too_large (cap + 1) cap o) ;;
  '(_, o) ← try_next (feed (with_max_frame_payload cap)
    (bs "2D" ++ u32_to_be_bytes 1 ++ u32_to_be_bytes 1 ++ u32_to_be_bytes 1 ++ bs "k" ++ u32_to_be_bytes (cap + 1)));
  assert (too_large (cap + 1) cap o).

Definition decompress_cap_is_inclusive_at_limit : run :=
  frame ← unwrap (encode_compressed 9 (replicate 32 x00));
  assert (zlen frame - 6 <=? 31) ;;
  '(_, f) ← next (feed (with_max_frame_payload 32) frame);
  match f with Some (Compressed decompressed) => assert_eq (zlen decompressed) 32 | _ => Panic end ;;
  '(_, o) ← try_next (feed (with_max_frame_payload 31) frame);
  assert_eq o (Err (DecompressedTooLarge 31)).

Definition next_frame_min_header_boundary_is_strictly_less_than_two : run :=
  let d := decoding [PROTOCOL_VERSION; "Z"%byte] in
  assert_eq (pending d) 2 ;;
  '(_, o) ← try_next d; assert_eq o (Err (UnknownFrameType "Z"%byte)) ;;
  let d2 := decoding (bs "1W") in
  assert_eq (pending d2) 2 ;;
  '(_, o) ← try_next d2; assert_eq o (Err (UnsupportedVersion "1"%byte)) ;;
  '(_, f) ← next (decoding [PROTOCOL_VERSION]); assert_eq f None.

Definition compressed_header_boundary_is_strictly_less_than_six : run :=
  let d := decoding ([PROTOCOL_VERSION; FRAME_TYPE_COMPRESSED] ++ u32_to_be_bytes 0) in
  assert_eq (pending d) 6 ;;
  '(_, f) ← next d; assert_eq f (Some (Compressed [])) ;;
  '(_, f) ← next (decoding [PROTOCOL_VERSION; FRAME_TYPE_COMPRESSED; x00; x00; x00]); assert_eq f None.

Definition legacy_d_frame_key_and_val_len_caps_accept_at_exactly_cap : run :=
  let cap := 3 in
  let frame := legacy 7 [(bs "abc", bs "xyz")] in
  '(_, f) ← next (feed (with_max_frame_payload cap) frame);
  match f with
  | Some (Unknown frame_type raw) => assert_eq frame_type "D"%byte ;; assert_eq (length raw) 24%nat
  | _ => Panic
  end ;;
  '(_, o) ← try_next (feed (with_max_frame_payload (cap - 1)) frame);
  assert (too_large cap (cap - 1) o).

(** ** [sequence.rs] *)

Definition exact_match : run :=
  let s := Sequence.new 100 in
  assert (Sequence.is_exactly_acked_by s 100) ;; assert (negb (Sequence.is_exactly_acked_by s 99)) ;;
  assert (negb (Sequence.is_exactly_acked_by s 101)).

Definition exact_match_wraps_around : run :=
  let s := Sequence.new U32_MAX in
  assert (Sequence.is_exactly_acked_by s U32_MAX) ;; assert (negb (Sequence.is_exactly_acked_by s 0)).

Definition advance_wraps : run :=
  let s := Sequence.new U32_MAX in
  assert_eq (Sequence.value (Sequence.advance s 1)) 0 ;; assert_eq (Sequence.value (Sequence.advance s 2)) 1.

Definition at_least_basic : run :=
  let s := Sequence.new 100 in
  for_each (fun a => assert (Sequence.is_at_least_acked_by s a)) [100; 101; 200] ;;
  for_each (fun a => assert (negb (Sequence.is_at_least_acked_by s a))) [99; 0].

Definition at_least_across_wrap : run :=
  let s := Sequence.new U32_MAX in
  for_each (fun a => assert (Sequence.is_at_least_acked_by s a)) [0; 5; 0x7FFFFFFE] ;;
  assert (negb (Sequence.is_at_least_acked_by s 0x7FFFFFFF)).

Definition round_trip_u32 : run := assert_eq (Sequence.value (Sequence.new 42)) 42.

(** The suite, in the order of the files. *)
Definition frame_tests : suite :=
  [("encode_window_layout", encode_window_layout); ("encode_ack_layout", encode_ack_layout);
   ("encode_json_frame_layout", encode_json_frame_layout); ("decode_window_round_trip", decode_window_round_trip);
   ("decode_ack_round_trip", decode_ack_round_trip); ("decode_json_round_trip", decode_json_round_trip);
   ("decode_handles_concatenated_frames", decode_handles_concatenated_frames);
   ("decode_handles_byte_at_a_time_feeds", decode_handles_byte_at_a_time_feeds);
   ("decode_compressed_round_trip", decode_compressed_round_trip); ("decode_rejects_bad_version", decode_rejects_bad_version);
   ("decode_rejects_unknown_frame_type", decode_rejects_unknown_frame_type);
   ("decode_caps_oversize_json_payload", decode_caps_oversize_json_payload); ("decode_caps_zlib_bomb", decode_caps_zlib_bomb);
   ("legacy_d_frame_is_decoded_as_unknown_and_advances", legacy_d_frame_is_decoded_as_unknown_and_advances);
   ("frame_type_wire_bytes_are_exact", frame_type_wire_bytes_are_exact);
   ("feed_compacts_when_read_pos_at_least_half", feed_compacts_when_read_pos_at_least_half);
   ("feed_does_not_compact_when_read_pos_below_half", feed_does_not_compact_when_read_pos_below_half);
   ("feed_does_not_compact_when_read_pos_zero", feed_does_not_compact_when_read_pos_zero);
   ("feed_compacts_strictly_above_half", feed_compacts_strictly_above_half);
   ("feed_half_uses_integer_division_not_mod_or_mul", feed_half_uses_integer_division_not_mod_or_mul);
   ("feed_and_predicate_requires_both_operands", feed_and_predicate_requires_both_operands);
   ("window_needs_exactly_six_bytes", window_needs_exactly_six_bytes); ("ack_needs_exactly_six_bytes", ack_needs_exactly_six_bytes);
   ("json_needs_ten_header_bytes_then_payload", json_needs_ten_header_bytes_then_payload);
   ("json_payload_cap_is_strictly_greater_than", json_payload_cap_is_strictly_greater_than);
   ("compressed_needs_six_header_bytes", compressed_needs_six_header_bytes);
   ("compressed_payload_cap_is_strictly_greater_than", compressed_payload_cap_is_strictly_greater_than);
   ("compressed_read_pos_advances_by_six_plus_len", compressed_read_pos_advances_by_six_plus_len);
   ("legacy_d_frame_header_boundary_is_ten", legacy_d_frame_header_boundary_is_ten);
   ("legacy_d_frame_pair_length_boundaries", legacy_d_frame_pair_length_boundaries);
   ("legacy_d_frame_key_and_val_len_caps", legacy_d_frame_key_and_val_len_caps);
   ("decompress_cap_is_inclusive_at_limit", decompress_cap_is_inclusive_at_limit);
   ("next_frame_min_header_boundary_is_strictly_less_than_two", next_frame_min_header_boundary_is_strictly_less_than_two);
   ("compressed_header_boundary_is_strictly_less_than_six", compressed_header_boundary_is_strictly_less_than_six);
   ("legacy_d_frame_key_and_val_len_caps_accept_at_exactly_cap", legacy_d_frame_key_and_val_len_caps_accept_at_exactly_cap);
   ("exact_match", exact_match); ("exact_match_wraps_around", exact_match_wraps_around); ("advance_wraps", advance_wraps);
   ("at_least_basic", at_least_basic); ("at_least_across_wrap", at_least_across_wrap); ("round_trip_u32", round_trip_u32)]%string.

Lemma frame_tests_pass : passes frame_tests = true.
Proof. vm_compute. reflexivity. Qed.

End FrameTests.

(** ** The unit tests of the Lumberjack server and client

    [mod tests] of [crates/ferro-lumberjack/src/server.rs] and [client.rs]. A peer
    of a test is the script of the connection the code under test is given: the
    bytes it writes, one read event per write, and its closing the socket as the
    end of the script. The tests of [Debug] output have no counterpart. *)

Module PeerTests.

Import Prelude Str Frame Sequence Net Server Client Rle Harness.

Local Open Scope Z_scope.

(** ** The server's tests *)

(** A legacy frame of [pair_count] empty pairs. *)
Definition legacy_d_frame_empty (seq : Z) (pair_count : nat) : bytes :=
  ["2"%byte; "D"%byte] ++ u32_to_be_bytes seq ++ u32_to_be_bytes (Z.of_nat pair_count) ++
  concat (replicate pair_count (u32_to_be_bytes 0 ++ u32_to_be_bytes 0)).

Definition read_chunk_constant_is_8_kib : run :=
  assert_eq (Z.of_nat READ_CHUNK) 8192 ;; assert_eq (Z.of_nat READ_CHUNK) (8 * 1024) ;;
  assert_ne (Z.of_nat READ_CHUNK) (8 + 1024).

(** The accumulator of a window with this many slots left. *)
Definition slots (remaining : option Z) : WindowAcc := mkAcc [] remaining 0 0.

Definition is_codec {A} (o : outcome ProtocolError A) : bool := match o with Err (Codec _) => true | _ => false end.

Definition consume_slot_decrements_and_guards : run :=
  '(_, o) ← call consume_slot (slots None); assert (is_codec o) ;;
  '(zero, o) ← call consume_slot (slots (Some 0)); assert (is_codec o) ;; assert_eq (window_remaining zero) (Some 0) ;;
  '(two, o) ← call consume_slot (slots (Some 2)); assert (is_ok o) ;; assert_eq (window_remaining two) (Some 1) ;;
  '(two, o) ← call consume_slot two; assert (is_ok o) ;; assert_eq (window_remaining two) (Some 0) ;;
  '(_, o) ← call consume_slot two; assert (is_codec o).

Definition ephemeral_listener : outcome Empty_set Listener := unwrap (bind ServerBuilder_default (Ok tt)).

Definition ephemeral_listener_capped (max_events max_bytes : Z) : outcome Empty_set Listener :=
  unwrap (bind (max_window_bytes_set max_bytes (max_window_events_set max_events ServerBuilder_default)) (Ok tt)).

(** [listener.accept().await.unwrap()] with a client that makes these writes. *)
Definition accepted (l : outcome Empty_set Listener) (writes : list bytes) : outcome Empty_set ServerConnection :=
  l ← l; unwrap (accept l (Ok (mkConn (RBytes <$> writes) [] [])) (fun c => Ok c)).

(** What the client reads back. *)
Definition received (c : ServerConnection) : bytes := outgoing (conn c).
Definition acked_seq (ack : bytes) : Z := u32_from_be_bytes (take 4 (drop 2 ack)).

Definition json_object (k : byte) (n : byte) : bytes := ["{"%byte; x22; k; x22; ":"%byte; n; "}"%byte].

Definition reads_simple_uncompressed_window : run :=
  conn ← accepted ephemeral_listener
    [encode_window 2 ++ encode_json_frame 1 (json_object "a" "1") ++ encode_json_frame 2 (json_object "b" "2")];
  '(conn, w) ← call_ok read_and_ack conn;
  let ack := received conn in
  assert_eq (take 2 ack) (bs "2A") ;; assert_eq (acked_seq ack) 2 ;;
  window ← unwrap_some w;
  assert_eq (length (w_events window)) 2%nat ;;
  first ← unwrap_some (w_events window !! 0%nat);
  assert_eq (ev_seq first) 1 ;; assert_eq (ev_payload first) (json_object "a" "1") ;;
  assert_eq (w_last_seq window) 2.

(** Data frames with the sequence numbers from 1 and one payload. *)
Definition numbered (n : nat) (payload : bytes) : bytes :=
  concat ((fun i => encode_json_frame (Z.of_nat i + 1) payload) <$> List.seq 0 n).

Definition reads_compressed_window : run :=
  compressed ← unwrap (encode_compressed 6 (numbered 5 (bs "{}")));
  conn ← accepted ephemeral_listener [encode_window 5 ++ compressed];
  '(conn, w) ← call_ok read_and_ack conn;
  assert_eq (acked_seq (received conn)) 5 ;;
  window ← unwrap_some w;
  assert_eq (length (w_events window)) 5%nat ;; assert_eq (w_last_seq window) 5.

Definition clean_eof_before_window_returns_none : run :=
  conn ← accepted ephemeral_listener [];
  '(_, w) ← call_ok read_window conn;
  assert (is_none w).

Definition truncated_window_is_unexpected_eof : run :=
  conn ← accepted ephemeral_listener [encode_window 3];
  '(_, o) ← call read_window conn;
  match o with Err (Io e) => assert_eq (io_kind e) KUnexpectedEof | _ => Panic end.

Definition data_frame_before_window_is_rejected : run :=
  conn ← accepted ephemeral_listener [encode_json_frame 1 (bs "{}")];
  '(_, o) ← call read_window conn;
  assert (is_codec o).

Definition split_window_across_socket_reads : run :=
  conn ← accepted ephemeral_listener ((fun b => [b]) <$> encode_window 3 ++ numbered 3 (bs "x"));
  '(conn, w) ← call_ok read_and_ack conn;
  assert_eq (acked_seq (received conn)) 3 ;;
  window ← unwrap_some w;
  assert_eq (length (w_events window)) 3%nat ;; assert_eq (w_last_seq window) 3.

Definition empty_window_returns_empty_events : run :=
  conn ← accepted ephemeral_listener [encode_window 0];
  '(_, w) ← call_ok read_window conn;
  window ← unwrap_some w;
  assert_eq (length (w_events window)) 0%nat ;; assert_eq (w_last_seq window) 0.

Definition window_of_legacy_d_frames_completes : run :=
  conn ← accepted ephemeral_listener [encode_window 2 ++ legacy_d_frame_empty 1 0 ++ legacy_d_frame_empty 2 0];
  '(conn, w) ← call_ok read_and_ack conn;
  assert_eq (received conn !! 1%nat) (Some "A"%byte) ;;
  window ← unwrap_some w;
  assert_eq (length (w_events window)) 0%nat.

Definition mixed_json_and_d_frames_consume_correct_slots : run :=
  conn ← accepted ephemeral_listener
    [encode_window 3 ++ encode_json_frame 1 (bs "first") ++ legacy_d_frame_empty 2 0 ++ encode_json_frame 3 (bs "third")];
  '(conn, w) ← call_ok read_and_ack conn;
  assert_eq (acked_seq (received conn)) 3 ;;
  window ← unwrap_some w;
  assert_eq (length (w_events window)) 2%nat ;;
  assert_eq (ev_seq <$> w_events window) [1; 3] ;; assert_eq (w_last_seq window) 3.

Definition d_frame_before_window_is_rejected : run :=
  conn ← accepted ephemeral_listener [legacy_d_frame_empty 1 0];
  '(_, o) ← call read_window conn;
  assert (is_codec o).

(** [while let Some(window) = conn.read_window().await.unwrap()]. *)
Fixpoint read_all (fuel : nat) (conn : ServerConnection) : outcome Empty_set (ServerConnection * list EventWindow) :=
  match fuel with
  | O => Panic
  | S fuel =>
    '(conn, w) ← call_ok read_window conn;
    match w with
    | None => Ok (conn, [])
    | Some window =>
      '(conn, _) ← call_ok (send_ack (w_last_seq window)) conn;
      '(conn, got) ← read_all fuel conn;
      Ok (conn, window :: got)
    end
  end.

Definition consecutive_windows_on_same_connection : run :=
  conn ← accepted ephemeral_listener
    [encode_window 2; encode_json_frame 1 (bs "a"); encode_json_frame 2 (bs "b"); encode_window 1; encode_json_frame 3 (bs "c")];
  '(conn, windows) ← read_all 6 conn;
  assert_eq (acked_seq (take 6 (received conn))) 2 ;; assert_eq (acked_seq (drop 6 (received conn))) 3 ;;
  assert_eq (length windows) 2%nat ;;
  assert_eq (length ∘ w_events <$> windows) [2%nat; 1%nat] ;;
  second ← unwrap_some (windows !! 1%nat);
  assert_eq (w_last_seq second) 3.

Definition default_window_caps_are_documented_values : run :=
  assert_eq DEFAULT_MAX_WINDOW_EVENTS 100000 ;; assert_eq DEFAULT_MAX_WINDOW_BYTES (256 * 1024 * 1024).

(** The connection's window was refused with these figures. *)
Definition window_too_large (kind : string) (requested limit : Z) (o : outcome ProtocolError (option EventWindow)) : run :=
  match o with
  | Err (WindowTooLarge k r l) => assert_eq k kind ;; assert_eq r requested ;; assert_eq l limit
  | _ => Panic
  end.

Definition declared_window_count_above_cap_is_rejected_before_accumulating : run :=
  conn ← accepted (ephemeral_listener_capped 3 (2 ^ 30)) [encode_window 10];
  '(_, o) ← call read_window conn;
  window_too_large "event count" 10 3 o.

Definition accumulated_bytes_above_cap_is_rejected_mid_window : run :=
  conn ← accepted (ephemeral_listener_capped 100 10) [encode_window 5 ++ numbered 5 (bs "4444")];
  '(_, o) ← call read_window conn;
  window_too_large "byte total" 12 10 o.

Definition byte_cap_is_enforced_inside_compressed_batch : run :=
  compressed ← unwrap (encode_compressed 6 (numbered 5 (bs "4444")));
  conn ← accepted (ephemeral_listener_capped 100 10) [encode_window 5 ++ compressed];
  '(_, o) ← call read_window conn;
  window_too_large "byte total" 12 10 o.

Definition window_exactly_at_caps_still_succeeds : run :=
  conn ← accepted (ephemeral_listener_capped 3 9) [encode_window 3 ++ numbered 3 (bs "abc")];
  '(conn, w) ← call_ok read_and_ack conn;
  assert_eq (acked_seq (received conn)) 3 ;;
  window ← unwrap_some w;
  assert_eq (length (w_events window)) 3%nat ;; assert_eq (w_last_seq window) 3.

Definition server_tests : suite :=
  [("read_chunk_constant_is_8_kib", read_chunk_constant_is_8_kib);
   ("consume_slot_decrements_and_guards", consume_slot_decrements_and_guards);
   ("reads_simple_uncompressed_window", reads_simple_uncompressed_window);
   ("reads_compressed_window", reads_compressed_window);
   ("clean_eof_before_window_returns_none", clean_eof_before_window_returns_none);
   ("truncated_window_is_unexpected_eof", truncated_window_is_unexpected_eof);
   ("data_frame_before_window_is_rejected", data_frame_before_window_is_rejected);
   ("split_window_across_socket_reads", split_window_across_socket_reads);
   ("empty_window_returns_empty_events", empty_window_returns_empty_events);
   ("window_of_legacy_d_frames_completes", window_of_legacy_d_frames_completes);
   ("mixed_json_and_d_frames_consume_correct_slots", mixed_json_and_d_frames_consume_correct_slots);
   ("d_frame_before_window_is_rejected", d_frame_before_window_is_rejected);
   ("consecutive_windows_on_same_connection", consecutive_windows_on_same_connection);
   ("default_window_caps_are_documented_values", default_window_caps_are_documented_values);
   ("declared_window_count_above_cap_is_rejected_before_accumulating", declared_window_count_above_cap_is_rejected_before_accumulating);
   ("accumulated_bytes_above_cap_is_rejected_mid_window", accumulated_bytes_above_cap_is_rejected_mid_window);
   ("byte_cap_is_enforced_inside_compressed_batch", byte_cap_is_enforced_inside_compressed_batch);
   ("window_exactly_at_caps_still_succeeds", window_exactly_at_caps_still_succeeds)]%string.

Lemma server_tests_pass : passes server_tests = true.
Proof. vm_compute. reflexivity. Qed.

(** ** The client's tests *)

Definition offline_client (hosts : list string) (load_balance : bool) (seq : Z) : Client :=
  mkClient hosts load_balance 0 0 (Sequence.new seq) None false (mkNetwork [] []).

Definition next_seq_reports_advanced_watermark : run :=
  let c := offline_client ["h:1"%string] false 40 in
  assert_eq (next_seq c) 41 ;; assert_eq (next_seq c) 41 ;;
  assert_eq (next_seq (offline_client ["h:1"%string] false U32_MAX)) 0 ;;
  assert_eq (next_seq (offline_client ["h:1"%string] false 999)) 1000.

Definition host_count_reflects_configured_hosts : run :=
  assert_eq (host_count (offline_client [] false 0)) 0 ;;
  assert_eq (host_count (offline_client ["a:1"%string] false 0)) 1 ;;
  assert_eq (host_count (offline_client ["a:1"; "b:2"; "c:3"]%string false 0)) 3.

(** [(0..n).map(|_| c.pick_host()).collect()]. *)
Fixpoint picks (n : nat) (c : Client) : outcome Empty_set (list string) :=
  match n with O => Ok [] | S n => '(c, h) ← call_ok pick_host c; hs ← picks n c; Ok (h :: hs) end.

Definition pick_host_load_balanced_round_robins_with_modulo : run :=
  hosts ← picks 6 (offline_client ["a:1"; "b:2"; "c:3"]%string true 0);
  assert_eq hosts ["a:1"; "b:2"; "c:3"; "a:1"; "b:2"; "c:3"]%string.

(** [c.host_cursor.store(n, Ordering::Relaxed)]. *)
Definition store_cursor (n : Z) (c : Client) : Client :=
  mkClient (hosts c) (load_balance c) (compression_level c) n (Client.seq c) (connection c) (tls c) (network c).

Definition pick_host_sticky_uses_modulo_of_cursor : run :=
  let c := offline_client ["a:1"; "b:2"; "c:3"]%string false 0 in
  '(c, h) ← call_ok pick_host (store_cursor 7 c); assert_eq h "b:2"%string ;;
  '(c, h) ← call_ok pick_host c; assert_eq h "b:2"%string ;;
  '(c, h) ← call_ok pick_host (store_cursor 4 c); assert_eq h "b:2"%string ;;
  '(_, h) ← call_ok pick_host (store_cursor 5 c); assert_eq h "c:3"%string.

Definition build_window_payload_compresses_only_when_shrinking : run :=
  let events := replicate 32 (replicate 256 "a"%byte) in
  let inner_len := foldr (fun e n => 10 + zlen e + n) 0 events in
  payload ← unwrap (build_window_payload 9 events (Sequence.new 0));
  assert (zlen payload <? 6 + inner_len) ;;
  assert_eq (take 2 payload) (bs "2W") ;; assert_eq (u32_from_be_bytes (take 4 (drop 2 payload))) 32.

Definition build_window_payload_skips_compression_when_disabled : run :=
  payload ← unwrap (build_window_payload 0 [json_object "x" "1"] (Sequence.new 0));
  assert_eq (take 2 payload) (bs "2W") ;; assert_eq (take 2 (drop 6 payload)) (bs "2J").

Definition build_window_payload_does_not_compress_incompressible_small_batch : run :=
  payload ← unwrap (build_window_payload 9 [bs "q"] (Sequence.new 0));
  assert_eq (take 2 payload) (bs "2W") ;; assert_eq (take 2 (drop 6 payload)) (bs "2J").

(** No test of the file uses TLS: every server name is accepted. *)
Definition any_name (host : string) : option string := None.

Definition builder_requires_hosts : run :=
  match snd (connect any_name ClientBuilder_new (mkNetwork [] [])) with
  | Err NoHostsConfigured => Ok tt
  | _ => Panic
  end.

(** A client of one host whose peer answers with [reply], the fates of the
    connection's operations given; [connect().await.unwrap()]. *)
Definition connect_peer (reply : bytes) (fates : list fate) : outcome Empty_set Client :=
  match connect any_name (compression_level_set 0 (add_host "127.0.0.1:5044"%string ClientBuilder_new))
          (mkNetwork [mkDial Completes Completes (mkConnection reply fates [])] []) with
  | (c, Ok _) => Ok c
  | _ => Panic
  end.

Definition happy_path_uncompressed_round_trip : run :=
  client ← connect_peer (["2"%byte; "A"%byte] ++ u32_to_be_bytes 2) [];
  '(_, acked) ← call_ok (send_json any_name [json_object "a" "1"; json_object "b" "2"]) client;
  assert_eq acked 2.

Definition unexpected_ack_version_is_error : run :=
  client ← connect_peer (["1"%byte; "A"%byte] ++ u32_to_be_bytes 1) [];
  '(_, o) ← call (send_json any_name [bs "x"]) client;
  err ← unwrap_err o;
  match err with AllHostsFailed _ => Ok tt | _ => Panic end.

(** The write and the flush complete; the read of the ACK does not. *)
Definition ack_timeout_surfaces_as_timeout_error : run :=
  client ← connect_peer [] [Completes; Completes; TimesOut];
  '(_, o) ← call (send_json any_name [bs "x"]) client;
  err ← unwrap_err o;
  match err with AllHostsFailed _ => Ok tt | _ => Panic end.

Definition ack_server (ack_seq : Z) : bytes := ["2"%byte; "A"%byte] ++ u32_to_be_bytes ack_seq.
Definition connect_to (peer : bytes) : outcome Empty_set Client := connect_peer peer [].

Definition full_ack_returns_count : run :=
  client ← connect_to (ack_server 3);
  '(_, acked) ← call_ok (send_json any_name [bs "a"; bs "b"; bs "c"]) client;
  assert_eq acked 3.

Definition partial_ack_surfaces_partial_error : run :=
  client ← connect_to (ack_server 2);
  '(_, o) ← call (send_json any_name [bs "a"; bs "b"; bs "c"]) client;
  err ← unwrap_err o;
  match err with AllHostsFailed (PartialAck acked sent) => assert_eq acked 2 ;; assert_eq sent 3 | _ => Panic end.

(** A batch of two events, and an ACK that is no acknowledgement of it. *)
Definition refused_ack (ack_seq : Z) : run :=
  client ← connect_to (ack_server ack_seq);
  '(_, o) ← call (send_json any_name [bs "a"; bs "b"]) client;
  err ← unwrap_err o;
  match err with AllHostsFailed (UnexpectedAck _ _ _ _) => Ok tt | _ => Panic end.

Definition zero_acked_count_is_unexpected_ack : run := refused_ack 0.
Definition over_count_ack_is_unexpected_ack : run := refused_ack 5.

Definition empty_batch_returns_zero : run :=
  client ← connect_peer [] [];
  '(_, acked) ← call_ok (send_json any_name []) client;
  assert_eq acked 0.

Definition client_tests : suite :=
  [("next_seq_reports_advanced_watermark", next_seq_reports_advanced_watermark);
   ("host_count_reflects_configured_hosts", host_count_reflects_configured_hosts);
   ("pick_host_load_balanced_round_robins_with_modulo", pick_host_load_balanced_round_robins_with_modulo);
   ("pick_host_sticky_uses_modulo_of_cursor", pick_host_sticky_uses_modulo_of_cursor);
   ("build_window_payload_compresses_only_when_shrinking", build_window_payload_compresses_only_when_shrinking);
   ("build_window_payload_skips_compression_when_disabled", build_window_payload_skips_compression_when_disabled);
   ("build_window_payload_does_not_compress_incompressible_small_batch", build_window_payload_does_not_compress_incompressible_small_batch);
   ("builder_requires_hosts", builder_requires_hosts);
   ("happy_path_uncompressed_round_trip", happy_path_uncompressed_round_trip);
   ("unexpected_ack_version_is_error", unexpected_ack_version_is_error);
   ("ack_timeout_surfaces_as_timeout_error", ack_timeout_surfaces_as_timeout_error);
   ("full_ack_returns_count", full_ack_returns_count);
   ("partial_ack_surfaces_partial_error", partial_ack_surfaces_partial_error);
   ("zero_acked_count_is_unexpected_ack", zero_acked_count_is_unexpected_ack);
   ("over_count_ack_is_unexpected_ack", over_count_ack_is_unexpected_ack);
   ("empty_batch_returns_zero", empty_batch_returns_zero)]%string.

Lemma client_tests_pass : passes client_tests = true.
Proof. vm_compute. reflexivity. Qed.

End PeerTests.

(** ** The unit tests of the Lumberjack TLS configuration

    [mod tests] of [crates/ferro-lumberjack/src/tls.rs]. Certificates, keys and
    their PEM text belong to rustls and rcgen: here a certificate's PEM is the byte
    [C], a key's the byte [K], and any other byte is a block that does not parse.
    The test of [Debug] output has no counterpart. *)

Module TlsTests.

Import Prelude Str Frame Net Fs Client Tls Harness.

Local Open Scope string_scope.

#[local] Instance letter_rustls : Rustls := {|
  CertificateDer := byte; PrivateKeyDer := byte; TrustAnchor := byte; SignatureScheme := unit; ServerConfig := bytes * byte;
  pem_slice_iter := map (fun b => if bool_decide (b = "C"%byte) then Ok b else Err "invalid base64");
  from_pem_slice := fun b => match b with ["K"%byte] => Ok "K"%byte | _ => Err "no items found" end;
  trust_anchor := Ok;
  TLS_SERVER_ROOTS := ["R"%byte];
  supported_schemes := [];
  with_single_cert := fun c k => Ok (c, k);
  webpki_verify := fun _ _ _ _ => Ok tt;
  verify_signature := fun _ _ _ => Ok tt
|}.

Definition cert_pem : bytes := ["C"%byte].
Definition key_pem : bytes := ["K"%byte].
Definition malformed : bytes := ["x"%byte].

(** [err.to_string()] of a TLS error contains one of these. *)
Definition says {A} (o : outcome ProtocolError A) (texts : list string) : run :=
  e ← unwrap_err o; match e with Tls msg => assert (existsb (fun t => str_contains t msg) texts) | _ => Panic end.

(** [cfg.inner()]: the configuration was built. *)
Definition builds {A} (o : outcome ProtocolError A) : run := unwrap o ;; Ok tt.

Definition default_builder_uses_webpki_roots : run := builds (tls_build TlsConfig_builder).
Definition empty_pem_input_is_rejected : run := says (add_ca_pem_bytes TlsConfig_builder []) ["no CERTIFICATE"].
Definition malformed_pem_input_is_rejected : run := says (add_ca_pem_bytes TlsConfig_builder malformed) ["parse PEM"; "no CERTIFICATE"].

(** [ServerName::try_from] takes the names of the tests. *)
Definition parse_sni_strips_port : run :=
  sn ← unwrap (parse_sni (fun _ => None) "logstash.example.com:5044"); assert_eq sn "logstash.example.com".
Definition parse_sni_strips_v6_brackets : run := builds (parse_sni (fun _ => None) "[::1]:5044").

Definition dangerous_disable_builds : run := builds (tls_build (dangerous_disable_verification TlsConfig_builder)).

Definition server_builder_requires_cert_chain : run := says (server_tls_build ServerTlsConfig_builder) ["certificate chain"].

Definition server_builder_requires_key_after_cert : run :=
  b ← unwrap (cert_pem_bytes ServerTlsConfig_builder cert_pem); says (server_tls_build b) ["private key"].

Definition server_builder_round_trip : run :=
  b ← unwrap (cert_pem_bytes ServerTlsConfig_builder cert_pem);
  b ← unwrap (key_pem_bytes b key_pem);
  builds (server_tls_build b).

Definition server_builder_rejects_empty_cert_pem : run := says (cert_pem_bytes ServerTlsConfig_builder []) ["no CERTIFICATE"].
Definition server_builder_rejects_missing_key_pem : run := says (key_pem_bytes ServerTlsConfig_builder cert_pem) ["PRIVATE KEY"].

(** The files of the tests, and a path that is not there. *)
Definition pem_files : Fs :=
  mkFs (<[["tmp"; "cert.pem"] := File cert_pem]> (<[["tmp"; "key.pem"] := File key_pem]> {[ ["tmp"] := Dir ]})) [].
Definition nonexistent (f : string) : path := ["nonexistent"; "ferro-lumberjack"; f].

Definition add_ca_pem_file_propagates_read_error : run :=
  '(_, o) ← call (add_ca_pem_file TlsConfig_builder (nonexistent "ca.pem")) pem_files;
  says o ["/nonexistent/ferro-lumberjack/ca.pem"].

Definition add_ca_pem_file_reads_real_file : run :=
  '(_, b) ← call_ok (add_ca_pem_file TlsConfig_builder ["tmp"; "cert.pem"]) pem_files; builds (tls_build b).

Definition cert_pem_file_propagates_read_error : run :=
  '(_, o) ← call (cert_pem_file ServerTlsConfig_builder (nonexistent "cert.pem")) pem_files;
  says o ["/nonexistent/ferro-lumberjack/cert.pem"].

Definition key_pem_file_propagates_read_error : run :=
  '(_, o) ← call (key_pem_file ServerTlsConfig_builder (nonexistent "key.pem")) pem_files;
  says o ["/nonexistent/ferro-lumberjack/key.pem"].

Definition cert_and_key_pem_files_round_trip_from_disk : run :=
  '(f, b) ← call_ok (cert_pem_file ServerTlsConfig_builder ["tmp"; "cert.pem"]) pem_files;
  '(_, b) ← call_ok (key_pem_file b ["tmp"; "key.pem"]) f;
  builds (server_tls_build b).

Definition add_self_signed_pem_ok : run := b ← unwrap (add_ca_pem_bytes TlsConfig_builder cert_pem); builds (tls_build b).

Definition tls_tests : suite :=
  [("default_builder_uses_webpki_roots", default_builder_uses_webpki_roots); ("empty_pem_input_is_rejected", empty_pem_input_is_rejected);
   ("malformed_pem_input_is_rejected", malformed_pem_input_is_rejected); ("parse_sni_strips_port", parse_sni_strips_port);
   ("parse_sni_strips_v6_brackets", parse_sni_strips_v6_brackets); ("dangerous_disable_builds", dangerous_disable_builds);
   ("server_builder_requires_cert_chain", server_builder_requires_cert_chain);
   ("server_builder_requires_key_after_cert", server_builder_requires_key_after_cert);
   ("server_builder_round_trip", server_builder_round_trip);
   ("server_builder_rejects_empty_cert_pem", server_builder_rejects_empty_cert_pem);
   ("server_builder_rejects_missing_key_pem", server_builder_rejects_missing_key_pem);
   ("add_ca_pem_file_propagates_read_error", add_ca_pem_file_propagates_read_error);
   ("add_ca_pem_file_reads_real_file", add_ca_pem_file_reads_real_file);
   ("cert_pem_file_propagates_read_error", cert_pem_file_propagates_read_error);
   ("key_pem_file_propagates_read_error", key_pem_file_propagates_read_error);
   ("cert_and_key_pem_files_round_trip_from_disk", cert_and_key_pem_files_round_trip_from_disk);
   ("add_self_signed_pem_ok", add_self_signed_pem_ok)].

Lemma tls_tests_pass : passes tls_tests = true.
Proof. vm_compute. reflexivity. Qed.

End TlsTests.
