(* ===== verification/TestOci.v ===== *)
(** * The unit tests of the blob store and of the OCI crate

    [mod tests] of [crates/ferro-blob-store/src] and of the metadata registry, the
    names, errors, uploads and documents of [crates/ferro-oci-server/src], run on
    the model: one definition per test, under its name. *)

From S2P Require Import Prelude Str Frame Net Fs Digest BlobStore FsStore OciReference OciUpload OciRegistry.
From S2P Require Import Json Http OciError OciHttp OciTypes OciManifestHandlers OciRouter Harness.

(** ** The unit tests of the blob stores and of digests

    [mod tests] of [fs.rs], [memory.rs] and [digest.rs] in
    [crates/ferro-blob-store/src], with the hash of the witnesses. The test that
    puts one digest from eight tasks is an instance of the theorem of
    [FsConcurrent]. *)

Module BlobTests.

Import Prelude Str Frame Net Fs Digest BlobStore FsStore Harness.

Local Open Scope string_scope.

Definition of_ (s : string) : Digest := Digest.sha256_of (bs s).
Definition is_not_found (e : BlobStoreError) : bool := match e with NotFound _ => true | _ => false end.
Definition is_mismatch (e : BlobStoreError) : bool := match e with DigestMismatch _ _ => true | _ => false end.
Definition is_io_error (e : BlobStoreError) : bool := match e with BsIo _ => true | _ => false end.

(** ** [fs.rs] *)

(** A store on a new temporary directory. *)
Definition dir : path := ["tmp"].
Definition with_store (t : FsBlobStore -> session Process unit) : run :=
  starting (mkProcess (mkFs {[ dir := Dir ]} []) 0 1) (store ← ok (FsStore.new dir); t store).

(** The test's own calls of [std::fs]. *)
Definition std_fs {A} (m : stm Fs io_error A) : session Process A := ok (FsStore.on_fs m).
Definition on_disk (p : path) : session Process (option node) := fun s => (s, Ok (files (p_fs s) !! p)).

Definition fs_put_get_round_trip : run := with_store (fun store =>
  let body := bs "persistent-bytes" in
  let d := Digest.sha256_of body in
  ok (FsStore.put store d body) ;;
  c ← ok (FsStore.contains store d); check (assert c) ;;
  b ← ok (FsStore.get store d); check (assert_eq b body)).

Definition fs_layout_uses_two_char_prefix : run := with_store (fun store =>
  let body := bs "layout-check" in
  let d := Digest.sha256_of body in
  ok (FsStore.put store d body) ;;
  let expected := (dir ++ ["sha256"; str_take 2 (hex d); str_drop 2 (hex d)])%list in
  n ← on_disk expected;
  check (match n with Some (File _) => Ok tt | _ => Panic end)).

Definition fs_get_missing_returns_not_found : run := with_store (fun store =>
  e ← err (FsStore.get store (of_ "absent")); check (assert (is_not_found e))).

Definition fs_put_rejects_digest_mismatch : run := with_store (fun store =>
  e ← err (FsStore.put store (of_ "a") (bs "b")); check (assert (is_mismatch e))).

Definition fs_delete_missing_ok : run := with_store (fun store => ok (FsStore.delete store (of_ "never-stored"))).

(** [sort_by_key(|d| d.hex().to_string())]. *)
Definition sorted_by_hex (l : list Digest) : list string := merge_sort str_le (hex <$> l).

Definition fs_list_finds_all_entries : run := with_store (fun store =>
  ok (FsStore.put store (of_ "a") (bs "a")) ;; ok (FsStore.put store (of_ "b") (bs "b")) ;; ok (FsStore.put store (of_ "c") (bs "c")) ;;
  listed ← ok (FsStore.list_ store);
  check (assert_eq (sorted_by_hex listed) (sorted_by_hex [of_ "a"; of_ "b"; of_ "c"]))).

Definition tmp_dir_is_under_root : run := with_store (fun store =>
  let tmp := FsStore.tmp_dir store Sha256 in
  check (assert_ne tmp [] ;; assert_eq (take (length dir) tmp) dir ;; assert_eq (last tmp) (Some ".tmp") ;;
         assert_eq tmp (dir ++ ["sha256"; ".tmp"])%list)).

Definition fs_contains_absent_is_false : run := with_store (fun store =>
  c ← ok (FsStore.contains store (of_ "definitely-absent")); check (assert (negb c)) ;;
  ok (FsStore.put store (of_ "present") (bs "present")) ;;
  c ← ok (FsStore.contains store (of_ "present")); check (assert c)).

Definition fs_get_non_not_found_error_propagates : run := with_store (fun store =>
  let d := of_ "dir-in-the-way" in
  blob_path ← check (unwrap (FsStore.path_for store d));
  std_fs (Fs.create_dir_all blob_path) ;;
  e ← err (FsStore.get store d);
  check (assert (negb (is_not_found e))) ;; check (assert (is_io_error e))).

Definition fs_contains_non_not_found_error_propagates : run := with_store (fun store =>
  let d := of_ "file-parent" in
  blob_path ← check (unwrap (FsStore.path_for store d));
  let parent := Fs.parent blob_path in
  std_fs (Fs.create_dir_all (Fs.parent parent)) ;;
  std_fs (Fs.write parent (bs "not a dir")) ;;
  e ← err (FsStore.contains store d);
  check (assert (is_io_error e))).

Definition fs_delete_removes_and_propagates_real_errors : run := with_store (fun store =>
  let d := of_ "delete-me" in
  ok (FsStore.put store d (bs "delete-me")) ;;
  c ← ok (FsStore.contains store d); check (assert c) ;;
  ok (FsStore.delete store d) ;;
  c ← ok (FsStore.contains store d); check (assert (negb c)) ;;
  g ← result (FsStore.get store d); check (assert (is_err g)) ;;
  let d2 := of_ "a-directory-blob" in
  blob_path ← check (unwrap (FsStore.path_for store d2));
  std_fs (Fs.create_dir_all blob_path) ;;
  e ← err (FsStore.delete store d2);
  check (assert (is_io_error e))).

(** [c.repeat(n)] of a one-character string. *)
Fixpoint copies (c : ascii) (n : nat) : string := match n with O => "" | S n => String c (copies c n) end.

Definition fs_list_skips_non_two_char_prefix_dir : run := with_store (fun store =>
  ok (FsStore.put store (of_ "genuine") (bs "genuine")) ;;
  let stray_rest := copies "b" 61 in
  let stray_dir := (dir ++ ["sha256"; "aaa"])%list in
  std_fs (Fs.create_dir_all stray_dir) ;;
  std_fs (Fs.write (stray_dir ++ [stray_rest])%list (bs "x")) ;;
  listed ← ok (FsStore.list_ store);
  check (assert (existsb (fun d => bool_decide (d = of_ "genuine")) listed)) ;;
  check (assert (forallb (fun d => negb (bool_decide (hex d = "aaa" ++ stray_rest))) listed))).

Definition fs_tests : suite :=
  [("fs_put_get_round_trip", fs_put_get_round_trip); ("fs_layout_uses_two_char_prefix", fs_layout_uses_two_char_prefix);
   ("fs_get_missing_returns_not_found", fs_get_missing_returns_not_found);
   ("fs_put_rejects_digest_mismatch", fs_put_rejects_digest_mismatch); ("fs_delete_missing_ok", fs_delete_missing_ok);
   ("fs_list_finds_all_entries", fs_list_finds_all_entries); ("tmp_dir_is_under_root", tmp_dir_is_under_root);
   ("fs_contains_absent_is_false", fs_contains_absent_is_false);
   ("fs_get_non_not_found_error_propagates", fs_get_non_not_found_error_propagates);
   ("fs_contains_non_not_found_error_propagates", fs_contains_non_not_found_error_propagates);
   ("fs_delete_removes_and_propagates_real_errors", fs_delete_removes_and_propagates_real_errors);
   ("fs_list_skips_non_two_char_prefix_dir", fs_list_skips_non_two_char_prefix_dir)].

Lemma fs_tests_pass : passes fs_tests = true.
Proof. vm_compute. reflexivity. Qed.

(** ** [memory.rs] *)

Definition with_memory (t : session InMemoryBlobStore unit) : run := starting Memory.new t.

Definition store_len : session InMemoryBlobStore nat := fun s => (s, Ok (Memory.len s)).
Definition store_is_empty : session InMemoryBlobStore bool := fun s => (s, Ok (Memory.is_empty s)).
Definition len_is (n : nat) : session InMemoryBlobStore unit := k ← store_len; check (assert_eq k n).
Definition empty_is (b : bool) : session InMemoryBlobStore unit := e ← store_is_empty; check (assert_eq e b).
Definition put_str (s : string) : session InMemoryBlobStore unit := ok (Memory.put (of_ s) (bs s)).

Definition put_get_round_trip : run := with_memory (
  put_str "hello" ;; b ← ok (Memory.get (of_ "hello")); check (assert_eq b (bs "hello"))).

Definition put_rejects_digest_mismatch : run := with_memory (
  e ← err (Memory.put (of_ "goodbye") (bs "hello")); check (assert (is_mismatch e))).

Definition contains_and_list : run := with_memory (
  c ← ok (Memory.contains (of_ "x")); check (assert (negb c)) ;;
  put_str "x" ;;
  c ← ok (Memory.contains (of_ "x")); check (assert c) ;;
  listed ← ok Memory.list_; check (assert_eq listed [of_ "x"])).

Definition get_returns_not_found : run := with_memory (
  e ← err (Memory.get (of_ "missing")); check (assert (is_not_found e))).

Definition delete_missing_is_ok : run := with_memory (ok (Memory.delete (of_ "never-stored"))).

(** [a] and [b] are handles of one map: both are the value of the session. *)
Definition clone_shares_storage : run := with_memory (
  put_str "shared" ;;
  b ← ok (Memory.get (of_ "shared")); check (assert_eq b (bs "shared")) ;;
  len_is 1 ;; ok Memory.clear ;; empty_is true).

Definition len_counts_distinct_puts : run := with_memory (
  len_is 0 ;; put_str "one" ;; len_is 1 ;; put_str "two" ;; len_is 2 ;; put_str "three" ;; len_is 3 ;; len_is 3).

Definition is_empty_tracks_contents : run := with_memory (
  empty_is true ;; put_str "data" ;; empty_is false ;; len_is 1 ;; ok Memory.clear ;; empty_is true).

Definition delete_actually_removes : run := with_memory (
  put_str "to-delete" ;;
  c ← ok (Memory.contains (of_ "to-delete")); check (assert c) ;; len_is 1 ;;
  ok (Memory.delete (of_ "to-delete")) ;;
  c ← ok (Memory.contains (of_ "to-delete")); check (assert (negb c)) ;;
  g ← result (Memory.get (of_ "to-delete")); check (assert (is_err g)) ;;
  len_is 0 ;; empty_is true).

Definition memory_tests : suite :=
  [("put_get_round_trip", put_get_round_trip); ("put_rejects_digest_mismatch", put_rejects_digest_mismatch);
   ("contains_and_list", contains_and_list); ("get_returns_not_found", get_returns_not_found);
   ("delete_missing_is_ok", delete_missing_is_ok); ("clone_shares_storage", clone_shares_storage);
   ("len_counts_distinct_puts", len_counts_distinct_puts); ("is_empty_tracks_contents", is_empty_tracks_contents);
   ("delete_actually_removes", delete_actually_removes)].

Lemma memory_tests_pass : passes memory_tests = true.
Proof. vm_compute. reflexivity. Qed.

(** ** [digest.rs] *)

Definition sha256_of_round_trips : run :=
  let d := of_ "hello" in
  assert_eq (algo d) Sha256 ;; assert_eq (String.length (hex d)) 64%nat ;;
  parsed ← unwrap (Digest.from_str (Digest.to_string d));
  assert_eq parsed d.

Definition sha512_of_round_trips : run :=
  let d := Digest.sha512_of (bs "hello") in
  assert_eq (algo d) Sha512 ;; assert_eq (String.length (hex d)) 128%nat ;;
  parsed ← unwrap (Digest.from_str (Digest.to_string d));
  assert_eq parsed d.

Definition parse_error (s : string) : outcome Empty_set DigestParseError := unwrap_err (Digest.from_str s).

Definition parse_missing_separator : run := e ← parse_error "abc"; match e with MissingSeparator => Ok tt | _ => Panic end.
Definition parse_unsupported_algo : run := e ← parse_error "md5:abc"; match e with UnsupportedAlgo _ => Ok tt | _ => Panic end.
Definition parse_bad_length : run := e ← parse_error "sha256:deadbeef"; match e with BadLength _ _ _ => Ok tt | _ => Panic end.
Definition parse_bad_hex : run :=
  e ← parse_error ("sha256:" ++ copies "z" 64);
  match e with BadHex bad => assert_eq bad "z"%char | _ => Panic end.

Definition upper_case_hex_is_normalized : run :=
  d ← unwrap (Digest.from_str ("sha256:" ++ copies "A" 64));
  assert (str_all (fun c => negb (is_ascii_uppercase c)) (hex d)).

(** [Digest::try_from(String)] is the parser, [String::from(Digest)] the printer. *)
Definition try_from_string_round_trips_exact : run :=
  let wire := "sha256:" ++ copies "a" 64 in
  d ← unwrap (Digest.from_str wire);
  assert_eq (algo d) Sha256 ;; assert_eq (hex d) (copies "a" 64) ;; assert_eq (Digest.to_string d) wire ;;
  let wire512 := "sha512:" ++ copies "b" 128 in
  d512 ← unwrap (Digest.from_str wire512);
  assert_eq (algo d512) Sha512 ;; assert_eq (Digest.to_string d512) wire512 ;;
  assert (is_err (Digest.from_str "not-a-digest")).

Definition into_string_is_exact_wire_form : run :=
  let d := of_ "payload" in
  let s := Digest.to_string d in
  assert_eq s ("sha256:" ++ hex d) ;; assert_ne s "" ;;
  back ← unwrap (Digest.from_str s);
  assert_eq back d.

Definition digest_tests : suite :=
  [("sha256_of_round_trips", sha256_of_round_trips); ("sha512_of_round_trips", sha512_of_round_trips);
   ("parse_missing_separator", parse_missing_separator); ("parse_unsupported_algo", parse_unsupported_algo);
   ("parse_bad_length", parse_bad_length); ("parse_bad_hex", parse_bad_hex);
   ("upper_case_hex_is_normalized", upper_case_hex_is_normalized);
   ("try_from_string_round_trips_exact", try_from_string_round_trips_exact);
   ("into_string_is_exact_wire_form", into_string_is_exact_wire_form)].

Lemma digest_tests_pass : passes digest_tests = true.
Proof. vm_compute. reflexivity. Qed.

End BlobTests.

(** ** The unit tests of the OCI metadata registry

    [mod tests] of [crates/ferro-oci-server/src/registry.rs], on an empty disk
    with the hash and the snapshot codec of the witnesses. A snapshot file that is
    a directory, and a directory that cannot be written, are states of the file
    system of [Fs]; the clock advances by a nanosecond from call to call. *)

Module RegistryTests.

Import Prelude Str Frame Net Fs Digest BlobStore OciReference OciUpload OciRegistry Harness.

Local Open Scope Z_scope.

(** ** Glue *)

Abbreviation test := (session Registry unit).

(** A temporary directory of its own. *)
Definition tempdir : path := ["tmp"%string].
Definition fresh_disk : World := mkWorld (mkFs {[ tempdir := Dir ]} []) 0 1.

Definition in_memory (t : RegistryConfig -> test) : run :=
  let '(cfg, reg) := InMemoryRegistryMeta_new fresh_disk in starting reg (t cfg).

Definition limited (lim : SessionLimits) (t : RegistryConfig -> test) : run :=
  let '(cfg, reg) := InMemoryRegistryMeta_with_session_limits lim fresh_disk in starting reg (t cfg).

Definition persistent (w : World) (t : RegistryConfig -> test) : run :=
  let '(cfg, reg) := with_persistence tempdir w in starting reg (t cfg).

Definition metadata_json : path := tempdir ++ [METADATA_FILE_NAME].

(** [remove_file(&meta)], [create_dir(&meta)], [write(meta.join("child"), b"x")]. *)
Definition as_directory (t : tree) : tree :=
  <[metadata_json ++ ["child"%string] := File (bs "x")]> (<[metadata_json := Dir]> (delete metadata_json t)).

Definition break_persistence : test := fun reg =>
  let w := world reg in
  (mkRegistry (inner reg) (mkWorld (mkFs (as_directory (files (w_fs w))) (faults (w_fs w))) (tmp_counter w) (w_pid w)), Ok tt).

Definition registry_with_failing_persist (t : RegistryConfig -> test) : run :=
  persistent (mkWorld (mkFs (as_directory {[ tempdir := Dir ]}) []) 0 1) t.

Definition started (adm : UploadAdmission) : outcome Empty_set string :=
  match adm with Started u => Ok u | AtCapacity _ => Panic end.

Definition image_manifest : string := "application/vnd.oci.image.manifest.v1+json".
Definition digest_of (s : string) : Digest := Digest.sha256_of (bs s).

Definition descriptor (d : Digest) (size : Z) (artifact_type : option string) : ReferrerDescriptor :=
  mkReferrer image_manifest d size artifact_type None.

Definition is_some {A} (o : option A) : bool := negb (is_none o).
Definition is_empty {A} (l : list A) : bool := match l with [] => true | _ => false end.
Definition is_io (e : BlobStoreError) : bool := match e with BsIo _ => true | _ => false end.

(** [reg.get_manifest(..).await.expect(..)], and whether it found one. *)
Definition get (name : string) (r : Reference) : session Registry (option (Digest * string * bytes)) := ok (get_manifest name r).
Definition absent (name : string) (r : Reference) : test := m ← get name r; check (assert (is_none m)).
Definition served (name : string) (r : Reference) : test := m ← get name r; check (assert (is_some m)).

(** The manifest a reference resolves to has this digest. *)
Definition resolves (name : string) (r : Reference) (d : Digest) : test :=
  m ← get name r; '(d', _, _) ← check (unwrap_some m); check (assert_eq d' d).

(** ** Uploads and manifests *)

Definition start_append_take_cycle : run := in_memory (fun cfg =>
  adm ← ok (start_upload cfg 0 "u-1" "lib/alpine");
  uuid ← check (started adm);
  new_off ← ok (append_upload 1 "lib/alpine" uuid 0 (bs "hello"));
  check (assert_eq new_off 5) ;;
  state ← ok (get_upload_state cfg 2 "lib/alpine" uuid);
  state ← check (unwrap_some state);
  check (assert_eq (UploadState.offset state) 5) ;;
  body ← ok (take_upload_bytes "lib/alpine" uuid);
  body ← check (unwrap_some body);
  check (assert_eq body (bs "hello"))).

Definition out_of_order_chunk_is_rejected : run := in_memory (fun cfg =>
  adm ← ok (start_upload cfg 0 "u-1" "lib/alpine");
  uuid ← check (started adm);
  ok (append_upload 1 "lib/alpine" uuid 0 (bs "ab")) ;;
  e ← err (append_upload 2 "lib/alpine" uuid 10 (bs "cd"));
  check (match e with NotFound _ => Ok tt | _ => Panic end)).

Definition manifest_put_and_lookup_by_digest_and_tag : run := in_memory (fun cfg =>
  let digest := digest_of "manifest-body" in
  ok (put_manifest cfg "lib/alpine" (Tag "latest") digest image_manifest (bs "manifest-body")) ;;
  resolves "lib/alpine" (Tag "latest") digest ;;
  resolves "lib/alpine" (RDigest digest) digest).

Definition delete_by_tag_returns_false : run := in_memory (fun cfg =>
  let digest := digest_of "manifest-body" in
  ok (put_manifest cfg "lib/alpine" (Tag "latest") digest image_manifest (bs "manifest-body")) ;;
  removed ← ok (delete_manifest cfg "lib/alpine" (Tag "latest"));
  check (assert (negb removed))).

Definition referrers_filter_by_artifact_type : run := in_memory (fun cfg =>
  let subject := digest_of "subject" in
  ok (register_referrer cfg "lib/alpine" subject (descriptor (digest_of "sbom") 10 (Some "application/spdx+json"%string))) ;;
  ok (register_referrer cfg "lib/alpine" subject (descriptor (digest_of "sig") 10 (Some "application/vnd.dev.cosign.sig"%string))) ;;
  all ← ok (list_referrers "lib/alpine" subject None);
  check (assert_eq (length all) 2%nat) ;;
  sboms ← ok (list_referrers "lib/alpine" subject (Some "application/spdx+json"%string));
  check (assert_eq (length sboms) 1%nat)).

Definition start_upload_enforces_concurrent_session_cap : run := limited (mkLimits 2 (3600 * 1000000000)) (fun cfg =>
  a ← ok (start_upload cfg 0 "u-1" "repo"); check (started a) ;;
  b ← ok (start_upload cfg 1 "u-2" "repo"); check (started b) ;;
  third ← ok (start_upload cfg 2 "u-3" "repo");
  check (match third with AtCapacity c => assert_eq c 2%nat | Started _ => Panic end)).

Definition idle_sessions_are_swept_on_new_upload_freeing_capacity : run := limited (mkLimits 1 0) (fun cfg =>
  adm ← ok (start_upload cfg 0 "u-1" "repo");
  first ← check (started adm);
  second ← ok (start_upload cfg 1 "u-2" "repo");
  check (started second) ;;
  gone ← ok (get_upload_state cfg 2 "repo" first);
  check (assert (is_none gone))).

(** ** The durable mirror *)

Definition schema_version : bytes := "{"%byte :: x22 :: bs "schemaVersion" ++ x22 :: bs ":2}".

(** The registry is dropped and rebuilt from the directory it left. *)
Definition metadata_persists_across_simulated_restart : run :=
  let digest := Digest.sha256_of schema_version in
  let subject := digest_of "subject-manifest" in
  let referrer_digest := digest_of "sbom-referrer" in
  let '(cfg, reg) := with_persistence tempdir fresh_disk in
  '(reg, _) ← call_ok (put_manifest cfg "lib/alpine" (Tag "latest") digest image_manifest schema_version) reg;
  '(reg, _) ← call_ok (register_referrer cfg "lib/alpine" subject
      (descriptor referrer_digest 12 (Some "application/spdx+json"%string))) reg;
  assert (match files (w_fs (world reg)) !! metadata_json with Some (File _) => true | _ => false end) ;;
  persistent (world reg) (fun _ =>
    by_tag ← get "lib/alpine" (Tag "latest");
    '(d, _, body) ← check (unwrap_some by_tag);
    check (assert_eq d digest) ;; check (assert_eq body schema_version) ;;
    resolves "lib/alpine" (RDigest digest) digest ;;
    referrers ← ok (list_referrers "lib/alpine" subject None);
    check (assert_eq (rd_digest <$> referrers) [referrer_digest]) ;;
    repos ← ok (list_repositories None None);
    check (assert_eq repos ["lib/alpine"%string])).

Definition put_with_subject_persist_failure_rolls_back_manifest_tag_and_referrer : run :=
  registry_with_failing_persist (fun cfg =>
    let digest := Digest.sha256_of schema_version in
    let subject := digest_of "subject-manifest" in
    e ← err (put_manifest_with_referrer cfg "lib/alpine" (Tag "latest") digest image_manifest schema_version
      (Some (subject, descriptor (digest_of "sbom-referrer") 12 (Some "application/spdx+json"%string))));
    check (assert (is_io e)) ;;
    absent "lib/alpine" (RDigest digest) ;; absent "lib/alpine" (Tag "latest") ;;
    referrers ← ok (list_referrers "lib/alpine" subject None);
    check (assert (is_empty referrers)) ;;
    repos ← ok (list_repositories None None);
    check (assert (is_empty repos))).

Definition put_with_subject_success_registers_manifest_tag_and_referrer : run := persistent fresh_disk (fun cfg =>
  let digest := Digest.sha256_of schema_version in
  let subject := digest_of "subject-manifest" in
  let referrer_digest := digest_of "sbom-referrer" in
  ok (put_manifest_with_referrer cfg "lib/alpine" (Tag "latest") digest image_manifest schema_version
    (Some (subject, descriptor referrer_digest 12 (Some "application/spdx+json"%string)))) ;;
  resolves "lib/alpine" (Tag "latest") digest ;;
  referrers ← ok (list_referrers "lib/alpine" subject None);
  check (assert_eq (rd_digest <$> referrers) [referrer_digest])).

Definition referrer_leg_persist_failure_does_not_strand_manifest : run :=
  let subject := digest_of "coupled-subject" in
  let referrer_descriptor := descriptor (digest_of "coupled-referrer") 16 None in
  persistent fresh_disk (fun cfg =>
    let digest := digest_of "old-manifest" in
    ok (put_manifest cfg "old/repo" (Tag "latest") digest image_manifest (bs "old-manifest")) ;;
    break_persistence ;;
    err (register_referrer cfg "old/repo" subject referrer_descriptor) ;;
    served "old/repo" (RDigest digest)) ;;
  persistent fresh_disk (fun cfg =>
    ok (put_manifest cfg "seed/repo" (Tag "v1") (digest_of "seed") image_manifest (bs "seed")) ;;
    break_persistence ;;
    let digest := digest_of "coupled-manifest" in
    err (put_manifest_with_referrer cfg "coupled/repo" (Tag "latest") digest image_manifest (bs "coupled-manifest")
      (Some (subject, referrer_descriptor))) ;;
    absent "coupled/repo" (RDigest digest) ;;
    referrers ← ok (list_referrers "coupled/repo" subject None);
    check (assert (is_empty referrers)) ;;
    repos ← ok (list_repositories None None);
    check (assert_eq repos ["seed/repo"%string])).

Definition failed_first_put_to_new_repo_leaves_catalog_empty : run := registry_with_failing_persist (fun cfg =>
  err (put_manifest cfg "brand/new" (Tag "v1") (digest_of "first-body") image_manifest (bs "first-body")) ;;
  repos ← ok (list_repositories None None);
  check (assert (is_empty repos)) ;;
  tags ← ok (list_tags "brand/new" None None);
  check (assert (is_empty tags))).

Definition failed_put_to_existing_repo_leaves_other_manifests_intact : run := persistent fresh_disk (fun cfg =>
  let first_digest := digest_of "keep-me" in
  let second_digest := digest_of "drop-me" in
  ok (put_manifest cfg "shared/repo" (Tag "stable") first_digest image_manifest (bs "keep-me")) ;;
  break_persistence ;;
  err (put_manifest cfg "shared/repo" (Tag "edge") second_digest image_manifest (bs "drop-me")) ;;
  served "shared/repo" (RDigest first_digest) ;; served "shared/repo" (Tag "stable") ;;
  absent "shared/repo" (RDigest second_digest) ;; absent "shared/repo" (Tag "edge") ;;
  repos ← ok (list_repositories None None);
  check (assert_eq repos ["shared/repo"%string])).

(** A disk whose directory holds this snapshot file. *)
Definition disk_with (content : bytes) : World :=
  mkWorld (mkFs (<[metadata_json := File content]> {[ tempdir := Dir ]}) []) 0 1.

Definition corrupt_metadata_file_starts_empty_not_panics : run := persistent (disk_with (bs "{ not json")) (fun _ =>
  repos ← ok (list_repositories None None);
  check (assert (is_empty repos))).

Definition in_memory_registry_does_not_write_metadata_file : run := in_memory (fun cfg =>
  let digest := digest_of "body" in
  ok (put_manifest cfg "repo" (RDigest digest) digest image_manifest (bs "body")) ;;
  served "repo" (RDigest digest)).

Definition default_session_ttl_is_one_hour : run := assert_eq DEFAULT_UPLOAD_SESSION_TTL (3600 * 1000000000).

Definition load_snapshot_missing_file_is_ok_none : run :=
  '(_, loaded) ← call_ok (load_snapshot (tempdir ++ ["does-not-exist.json"%string])) (w_fs fresh_disk);
  assert (is_none loaded).

Definition load_snapshot_non_notfound_io_error_is_err : run :=
  '(_, o) ← call (load_snapshot tempdir) (w_fs fresh_disk);
  e ← unwrap_err o;
  assert_ne (io_kind e) KNotFound.

Definition sweep_idle_uploads_returns_count_swept : run :=
  let uploads := <[("repo", "u1")%string := UploadState.new 0 "repo" "u1"]>
                 {[ ("repo", "u2")%string := UploadState.new 0 "repo" "u2" ]} in
  let '(kept, swept) := sweep_idle_uploads 1 0 uploads in
  assert_eq swept 2%nat ;; assert (bool_decide (kept = ∅)).

(** ** Deleting and listing *)

Definition delete_by_digest_drops_only_tags_pointing_at_it : run := in_memory (fun cfg =>
  let digest_a := digest_of "manifest-a" in
  let digest_b := digest_of "manifest-b" in
  ok (put_manifest cfg "repo" (Tag "a") digest_a image_manifest (bs "manifest-a")) ;;
  ok (put_manifest cfg "repo" (Tag "b") digest_b image_manifest (bs "manifest-b")) ;;
  removed ← ok (delete_manifest cfg "repo" (RDigest digest_a));
  check (assert removed) ;;
  absent "repo" (Tag "a") ;;
  resolves "repo" (Tag "b") digest_b).

Definition r5_3_delete_referrer_manifest_prunes_its_descriptor : run := in_memory (fun cfg =>
  let subject := digest_of "subject-image" in
  let m_digest := digest_of "referrer-M" in
  let n_digest := digest_of "referrer-N" in
  ok (put_manifest_with_referrer cfg "lib/app" (RDigest m_digest) m_digest image_manifest (bs "referrer-M")
    (Some (subject, descriptor m_digest 9 (Some "application/spdx+json"%string)))) ;;
  ok (put_manifest_with_referrer cfg "lib/app" (RDigest n_digest) n_digest image_manifest (bs "referrer-N")
    (Some (subject, descriptor n_digest 9 (Some "application/vnd.dev.cosign.sig"%string)))) ;;
  before ← ok (list_referrers "lib/app" subject None);
  check (assert_eq (length before) 2%nat) ;;
  removed ← ok (delete_manifest cfg "lib/app" (RDigest m_digest));
  check (assert removed) ;;
  after ← ok (list_referrers "lib/app" subject None);
  check (assert_eq (rd_digest <$> after) [n_digest]) ;;
  check (assert (negb (existsb (fun d => bool_decide (rd_digest d = m_digest)) after)))).

Definition r5_3_delete_referrer_prunes_across_multiple_subjects : run := in_memory (fun cfg =>
  let subject_a := digest_of "subject-a" in
  let subject_b := digest_of "subject-b" in
  let digest := digest_of "shared-referrer" in
  let other_digest := digest_of "other-referrer" in
  ok (put_manifest_with_referrer cfg "lib/app" (RDigest digest) digest image_manifest (bs "shared-referrer")
    (Some (subject_a, descriptor digest 15 None))) ;;
  ok (register_referrer cfg "lib/app" subject_b (descriptor digest 15 None)) ;;
  ok (register_referrer cfg "lib/app" subject_a (descriptor other_digest 7 None)) ;;
  ok (delete_manifest cfg "lib/app" (RDigest digest)) ;;
  under_a ← ok (list_referrers "lib/app" subject_a None);
  check (assert_eq (rd_digest <$> under_a) [other_digest]) ;;
  under_b ← ok (list_referrers "lib/app" subject_b None);
  check (assert (is_empty under_b))).

Definition r5_3_delete_referrer_persist_failure_does_not_prune : run := persistent fresh_disk (fun cfg =>
  let subject := digest_of "subject-image" in
  let digest := digest_of "referrer-M" in
  ok (put_manifest_with_referrer cfg "lib/app" (RDigest digest) digest image_manifest (bs "referrer-M")
    (Some (subject, descriptor digest 9 None))) ;;
  break_persistence ;;
  e ← err (delete_manifest cfg "lib/app" (RDigest digest));
  check (assert (is_io e)) ;;
  served "lib/app" (RDigest digest) ;;
  referrers ← ok (list_referrers "lib/app" subject None);
  check (assert_eq (rd_digest <$> referrers) [digest])).

(** [for x in l { .. }] on the registry. *)
Fixpoint each {A} (f : A -> test) (l : list A) : test :=
  match l with [] => mret tt | x :: l => f x ;; each f l end.

Definition list_tags_last_cursor_is_strictly_after : run := in_memory (fun cfg =>
  each (fun t => let body := ("m-" ++ t)%string in
    ok (put_manifest cfg "repo" (Tag t) (digest_of body) image_manifest (bs body))) ["a"; "b"; "c"]%string ;;
  page ← ok (list_tags "repo" (Some "b"%string) None);
  check (assert_eq page ["c"%string])).

Definition list_repositories_last_cursor_is_strictly_after : run := in_memory (fun cfg =>
  each (fun name => let body := ("m-" ++ name)%string in
    ok (put_manifest cfg name (RDigest (digest_of body)) (digest_of body) image_manifest (bs body)))
    ["repo-a"; "repo-b"; "repo-c"]%string ;;
  page ← ok (list_repositories (Some "repo-b"%string) None);
  check (assert_eq page ["repo-c"%string])).

Definition complete_upload_removes_the_session : run := in_memory (fun cfg =>
  adm ← ok (start_upload cfg 0 "u-1" "repo");
  uuid ← check (started adm);
  ok (append_upload 1 "repo" uuid 0 (bs "x")) ;;
  ok (complete_upload "repo" uuid (digest_of "x")) ;;
  after ← ok (get_upload_state cfg 2 "repo" uuid);
  check (assert (is_none after))).

Definition expired_session_is_evicted_on_access : run := limited (mkLimits 16 0) (fun cfg =>
  adm ← ok (start_upload cfg 0 "u-1" "repo");
  uuid ← check (started adm);
  state ← ok (get_upload_state cfg 1 "repo" uuid);
  check (assert (is_none state))).

(** ** Verification and rollback *)

Definition r3_1_load_drops_manifest_whose_key_digest_mismatches_body : run :=
  let good_body := "{"%byte :: x22 :: bs "schemaVersion" ++ x22 :: bs ":2," ++ x22 :: bs "good" ++ x22 :: bs ":true}" in
  let evil_body := bs "arbitrary attacker-chosen bytes" in
  let good_digest := Digest.to_string (Digest.sha256_of good_body) in
  let fake_key := Digest.to_string (digest_of "not-the-evil-body") in
  assert_ne fake_key (Digest.to_string (Digest.sha256_of evil_body)) ;;
  let entry body := mkPersisted image_manifest (hex_encode body) in
  let snapshot := mkSnapshot {[ "lib/alpine"%string := <[good_digest := entry good_body]> {[ fake_key := entry evil_body ]} ]} ∅ ∅ in
  content ← unwrap_some (json_to_vec snapshot);
  persistent (disk_with content) (fun _ =>
    fake ← check (unwrap (Digest.from_str fake_key));
    absent "lib/alpine" (RDigest fake) ;;
    good ← check (unwrap (Digest.from_str good_digest));
    m ← get "lib/alpine" (RDigest good);
    '(d, _, body) ← check (unwrap_some m);
    check (assert_eq d good) ;; check (assert_eq body good_body)).

(** [set_mode(0o500)]: the next call that writes the directory is refused. *)
Definition read_only : test := fun reg =>
  let w := world reg in
  (mkRegistry (inner reg) (mkWorld (mkFs (files (w_fs w)) [Some (mkFault None 13 "Permission denied")]) (tmp_counter w) (w_pid w)), Ok tt).

Definition r3_2_persist_failure_rolls_back_put_and_returns_error : run := persistent fresh_disk (fun cfg =>
  let digest := Digest.sha256_of schema_version in
  read_only ;;
  o ← result (put_manifest cfg "repo" (RDigest digest) digest image_manifest schema_version);
  check (assert (is_err o)) ;;
  absent "repo" (RDigest digest)).

Definition r3_2_in_memory_path_never_fails_persist : run := in_memory (fun cfg =>
  let digest := digest_of "body" in
  ok (put_manifest cfg "repo" (RDigest digest) digest image_manifest (bs "body"))).

(** The name ends in [.tmp], as [Path::extension] sees it. *)
Definition is_temp (p : path) : bool :=
  match last p with Some n => match rsplit_once "." n with Some (_, ext) => bool_decide (ext = "tmp"%string) | None => false end | None => false end.

Definition r3_5_write_snapshot_round_trips_and_leaves_no_temp : run :=
  let snap := mkSnapshot ∅ {[ "repo"%string := {[ "latest" := "sha256:deadbeef" ]}%string ]} ∅ in
  '(w, _) ← call_ok (write_snapshot_atomic metadata_json snap) fresh_disk;
  '(_, loaded) ← call_ok (load_snapshot metadata_json) (w_fs w);
  loaded ← unwrap_some loaded;
  assert_eq (tags loaded !! "repo"%string ≫= fun m => m !! "latest"%string) (Some "sha256:deadbeef"%string) ;;
  assert (is_empty (filter (fun p => is_temp p = true) (fst <$> map_to_list (files (w_fs w))))).

(** ** The suite *)

Definition registry_tests : suite :=
  [("start_append_take_cycle", start_append_take_cycle); ("out_of_order_chunk_is_rejected", out_of_order_chunk_is_rejected);
   ("manifest_put_and_lookup_by_digest_and_tag", manifest_put_and_lookup_by_digest_and_tag);
   ("delete_by_tag_returns_false", delete_by_tag_returns_false); ("referrers_filter_by_artifact_type", referrers_filter_by_artifact_type);
   ("start_upload_enforces_concurrent_session_cap", start_upload_enforces_concurrent_session_cap);
   ("idle_sessions_are_swept_on_new_upload_freeing_capacity", idle_sessions_are_swept_on_new_upload_freeing_capacity);
   ("metadata_persists_across_simulated_restart", metadata_persists_across_simulated_restart);
   ("put_with_subject_persist_failure_rolls_back_manifest_tag_and_referrer", put_with_subject_persist_failure_rolls_back_manifest_tag_and_referrer);
   ("put_with_subject_success_registers_manifest_tag_and_referrer", put_with_subject_success_registers_manifest_tag_and_referrer);
   ("referrer_leg_persist_failure_does_not_strand_manifest", referrer_leg_persist_failure_does_not_strand_manifest);
   ("failed_first_put_to_new_repo_leaves_catalog_empty", failed_first_put_to_new_repo_leaves_catalog_empty);
   ("failed_put_to_existing_repo_leaves_other_manifests_intact", failed_put_to_existing_repo_leaves_other_manifests_intact);
   ("corrupt_metadata_file_starts_empty_not_panics", corrupt_metadata_file_starts_empty_not_panics);
   ("in_memory_registry_does_not_write_metadata_file", in_memory_registry_does_not_write_metadata_file);
   ("default_session_ttl_is_one_hour", default_session_ttl_is_one_hour);
   ("load_snapshot_missing_file_is_ok_none", load_snapshot_missing_file_is_ok_none);
   ("load_snapshot_non_notfound_io_error_is_err", load_snapshot_non_notfound_io_error_is_err);
   ("sweep_idle_uploads_returns_count_swept", sweep_idle_uploads_returns_count_swept);
   ("delete_by_digest_drops_only_tags_pointing_at_it", delete_by_digest_drops_only_tags_pointing_at_it);
   ("r5_3_delete_referrer_manifest_prunes_its_descriptor", r5_3_delete_referrer_manifest_prunes_its_descriptor);
   ("r5_3_delete_referrer_prunes_across_multiple_subjects", r5_3_delete_referrer_prunes_across_multiple_subjects);
   ("r5_3_delete_referrer_persist_failure_does_not_prune", r5_3_delete_referrer_persist_failure_does_not_prune);
   ("list_tags_last_cursor_is_strictly_after", list_tags_last_cursor_is_strictly_after);
   ("list_repositories_last_cursor_is_strictly_after", list_repositories_last_cursor_is_strictly_after);
   ("complete_upload_removes_the_session", complete_upload_removes_the_session);
   ("expired_session_is_evicted_on_access", expired_session_is_evicted_on_access);
   ("r3_1_load_drops_manifest_whose_key_digest_mismatches_body", r3_1_load_drops_manifest_whose_key_digest_mismatches_body);
   ("r3_2_persist_failure_rolls_back_put_and_returns_error", r3_2_persist_failure_rolls_back_put_and_returns_error);
   ("r3_2_in_memory_path_never_fails_persist", r3_2_in_memory_path_never_fails_persist);
   ("r3_5_write_snapshot_round_trips_and_leaves_no_temp", r3_5_write_snapshot_round_trips_and_leaves_no_temp)]%string.

Lemma registry_tests_pass : passes registry_tests = true.
Proof. vm_compute. reflexivity. Qed.

End RegistryTests.

(** ** The unit tests of the OCI crate's pure parts

    [mod tests] of [reference.rs], [error.rs], [upload.rs], [media_types.rs],
    [manifest.rs], [handlers/manifest.rs] and [router.rs] in
    [crates/ferro-oci-server/src]. *)

Module PureTests.

Import Prelude Str Json Http Frame Net Digest BlobStore OciError OciReference OciUpload OciRegistry OciHttp OciTypes OciManifestHandlers OciRouter Harness.

Local Open Scope string_scope.

(** ** [reference.rs] *)

(** [c.repeat(n)] of a one-character string. *)
Fixpoint repeated (c : ascii) (n : nat) : string := match n with O => "" | S n => String c (repeated c n) end.

Definition accepts (name : string) : run := assert (is_ok (validate_name name)).
Definition rejects (name : string) : run := assert (is_err (validate_name name)).

(** [validate_name(name).expect_err(..)] has this code. *)
Definition rejects_with (code name : string) : run :=
  e ← unwrap_err (validate_name name); assert_eq (code_as_str (err_code e)) code.

Definition parse_reference (s : string) : outcome Empty_set Reference := unwrap (Reference.from_str s).
Definition no_reference (s : string) : run := assert (is_err (Reference.from_str s)).

Definition simple_single_component_name_is_valid : run := accepts "alpine".
Definition nested_path_name_is_valid : run := accepts "library/alpine" ;; accepts "my-org/sub-project/app".
Definition underscore_and_dot_and_dash_separators_are_valid : run :=
  for_each accepts ["foo_bar"; "foo__bar"; "foo.bar"; "foo-bar"; "foo---bar"].
Definition uppercase_is_rejected : run := rejects_with "NAME_INVALID" "Alpine".
Definition leading_separator_is_rejected : run := for_each rejects ["-alpine"; ".alpine"; "_alpine"].
Definition trailing_separator_is_rejected : run := for_each rejects ["alpine-"; "alpine."].
Definition empty_component_is_rejected : run := for_each rejects ["foo//bar"; "/foo"; "foo/"].
Definition too_long_name_is_rejected : run := rejects (repeated "a" 256).

Definition tag_reference_parses : run :=
  r ← parse_reference "v1.2.3-rc1";
  assert (Reference.is_tag r) ;; assert_eq (Reference.as_tag r) (Some "v1.2.3-rc1").

Definition digest_reference_parses : run :=
  let digest := "sha256:" ++ repeated "a" 64 in
  r ← parse_reference digest;
  assert (Reference.is_digest r) ;; assert_eq (Reference.to_string r) digest.

Definition bad_digest_reference_is_rejected : run := no_reference "sha256:beef".
Definition tag_with_colon_is_rejected_as_invalid_reference : run := no_reference "some:weird".

Definition name_at_exact_max_length_is_valid_over_is_rejected : run :=
  let at_max := repeated "a" MAX_NAME_LENGTH in
  assert_eq (String.length at_max) 255%nat ;; accepts at_max ;; rejects (repeated "a" (MAX_NAME_LENGTH + 1)).

Definition internal_invalid_separator_is_rejected : run := rejects_with "NAME_INVALID" "foo!bar" ;; accepts "foobar".
Definition mixed_dash_dot_separator_run_is_rejected : run := rejects "foo-.bar" ;; accepts "foo--bar".

Definition tag_at_exact_max_length_boundary : run :=
  r ← parse_reference (repeated "t" MAX_TAG_LENGTH);
  assert_eq (String.length <$> Reference.as_tag r) (Some 128%nat) ;;
  no_reference (repeated "t" (MAX_TAG_LENGTH + 1)).

Definition empty_tag_is_rejected : run := no_reference "".

Definition tag_starting_with_underscore_is_valid : run :=
  r ← parse_reference "_internal"; assert_eq (Reference.as_tag r) (Some "_internal").

Definition tag_starting_with_dot_is_rejected : run := no_reference ".bad".

Definition is_digest_and_as_digest_distinguish_variants : run :=
  tag ← parse_reference "latest";
  assert (negb (Reference.is_digest tag)) ;; assert (is_none (Reference.as_digest tag)) ;;
  let digest_str := "sha256:" ++ repeated "a" 64 in
  dig ← parse_reference digest_str;
  assert (Reference.is_digest dig) ;;
  d ← unwrap_some (Reference.as_digest dig);
  assert_eq (Digest.to_string d) digest_str.

Definition reference_tests : suite :=
  [("simple_single_component_name_is_valid", simple_single_component_name_is_valid);
   ("nested_path_name_is_valid", nested_path_name_is_valid);
   ("underscore_and_dot_and_dash_separators_are_valid", underscore_and_dot_and_dash_separators_are_valid);
   ("uppercase_is_rejected", uppercase_is_rejected); ("leading_separator_is_rejected", leading_separator_is_rejected);
   ("trailing_separator_is_rejected", trailing_separator_is_rejected); ("empty_component_is_rejected", empty_component_is_rejected);
   ("too_long_name_is_rejected", too_long_name_is_rejected); ("tag_reference_parses", tag_reference_parses);
   ("digest_reference_parses", digest_reference_parses); ("bad_digest_reference_is_rejected", bad_digest_reference_is_rejected);
   ("tag_with_colon_is_rejected_as_invalid_reference", tag_with_colon_is_rejected_as_invalid_reference);
   ("name_at_exact_max_length_is_valid_over_is_rejected", name_at_exact_max_length_is_valid_over_is_rejected);
   ("internal_invalid_separator_is_rejected", internal_invalid_separator_is_rejected);
   ("mixed_dash_dot_separator_run_is_rejected", mixed_dash_dot_separator_run_is_rejected);
   ("tag_at_exact_max_length_boundary", tag_at_exact_max_length_boundary); ("empty_tag_is_rejected", empty_tag_is_rejected);
   ("tag_starting_with_underscore_is_valid", tag_starting_with_underscore_is_valid);
   ("tag_starting_with_dot_is_rejected", tag_starting_with_dot_is_rejected);
   ("is_digest_and_as_digest_distinguish_variants", is_digest_and_as_digest_distinguish_variants)].

Lemma reference_tests_pass : passes reference_tests = true.
Proof. vm_compute. reflexivity. Qed.

(** ** [error.rs] *)

Definition wire (code : OciErrorCode) (s : string) : run := assert_eq (code_as_str code) s.

Definition code_wire_strings_match_spec : run :=
  wire BlobUnknown "BLOB_UNKNOWN" ;; wire BlobUploadInvalid "BLOB_UPLOAD_INVALID" ;;
  wire ManifestBlobUnknown "MANIFEST_BLOB_UNKNOWN" ;; wire NameInvalid "NAME_INVALID" ;; wire TooManyRequests "TOOMANYREQUESTS".

Definition default_statuses_align_with_spec : run :=
  for_each (fun '(code, status) => assert_eq (code_status code) status)
    [(BlobUnknown, 404); (DigestInvalid, 400); (Unauthorized, 401); (Denied, 403)]%Z.

Definition body_contains_single_error_entry : run :=
  match OciError.body (OciError.new NameInvalid (MText "bad name")) with
  | [info] => assert_eq (ei_code info) "NAME_INVALID" ;;
              match ei_message info with MText m => assert_eq m "bad name" | _ => Panic end
  | _ => Panic
  end.

Definition status_override_wins_over_code_default : run :=
  assert_eq (OciError.status (OciError.with_status 405 (OciError.new Unsupported (MText "no delete by tag")))) 405%Z.

Definition every_code_has_wire_string_and_status : run :=
  for_each (fun '(code, s, status) => wire code s ;; assert_eq (code_status code) status)
    [(BlobUnknown, "BLOB_UNKNOWN", 404); (BlobUploadInvalid, "BLOB_UPLOAD_INVALID", 400);
     (BlobUploadUnknown, "BLOB_UPLOAD_UNKNOWN", 404); (DigestInvalid, "DIGEST_INVALID", 400);
     (ManifestBlobUnknown, "MANIFEST_BLOB_UNKNOWN", 404); (ManifestInvalid, "MANIFEST_INVALID", 400);
     (ManifestUnknown, "MANIFEST_UNKNOWN", 404); (NameInvalid, "NAME_INVALID", 400); (NameUnknown, "NAME_UNKNOWN", 404);
     (SizeInvalid, "SIZE_INVALID", 400); (Unauthorized, "UNAUTHORIZED", 401); (Denied, "DENIED", 403);
     (Unsupported, "UNSUPPORTED", 405); (TooManyRequests, "TOOMANYREQUESTS", 429)]%Z.

Definition with_detail_is_surfaced_in_body : run :=
  match OciError.body (OciError.with_detail (JObject [("field", JString "config")]) (OciError.new ManifestInvalid (MText "bad"))) with
  | info :: _ =>
    detail ← unwrap_some (ei_detail info);
    match detail with JObject [("field", JString v)] => assert_eq v "config" | _ => Panic end
  | [] => Panic
  end.

Definition blob_store_error_maps_to_oci_codes : run :=
  let maps e code := assert_eq (err_code (OciError.from_blob_store e)) code in
  maps (NotFound "x") BlobUnknown ;;
  parse_err ← unwrap_err (Digest.from_str "no-colon");
  maps (InvalidDigest parse_err) DigestInvalid ;;
  maps (DigestMismatch "a" "b") DigestInvalid ;;
  maps (BsIo (mkIoError (KOther 5) "disk gone")) Unsupported.

Definition error_tests : suite :=
  [("code_wire_strings_match_spec", code_wire_strings_match_spec); ("default_statuses_align_with_spec", default_statuses_align_with_spec);
   ("body_contains_single_error_entry", body_contains_single_error_entry);
   ("status_override_wins_over_code_default", status_override_wins_over_code_default);
   ("every_code_has_wire_string_and_status", every_code_has_wire_string_and_status);
   ("with_detail_is_surfaced_in_body", with_detail_is_surfaced_in_body);
   ("blob_store_error_maps_to_oci_codes", blob_store_error_maps_to_oci_codes)].

Lemma error_tests_pass : passes error_tests = true.
Proof. vm_compute. reflexivity. Qed.

(** ** [upload.rs] *)

Definition session0 : UploadState := UploadState.new 0 "lib/alpine" "abc".

Definition append_updates_offset : run :=
  assert_eq (UploadState.offset session0) 0%Z ;;
  let '(s, n1) := UploadState.append 1 (bs "hello") session0 in
  assert_eq n1 5%Z ;;
  let '(_, n2) := UploadState.append 2 (bs "!") s in
  assert_eq n2 6%Z.

Definition take_bytes_returns_everything_and_resets : run :=
  let '(s, _) := UploadState.append 1 (bs "hello") session0 in
  let '(s, out) := UploadState.take_bytes s in
  assert_eq out (bs "hello") ;; assert_eq (UploadState.offset s) 0%Z.

(** The header parses to this range; it does not parse. *)
Definition range_is (value : string) (start end_ : Z) : outcome Empty_set ContentRange :=
  r ← unwrap (ContentRange.parse value);
  assert_eq (cr_start r) start ;; assert_eq (cr_end r) end_ ;; Ok r.
Definition no_range (value : string) : run := assert (is_err (ContentRange.parse value)).

Definition content_range_parse_bare_form : run := r ← range_is "0-1023" 0 1023; assert_eq (ContentRange.length r) 1024%Z.
Definition content_range_parse_bytes_prefix : run := range_is "bytes 100-199" 100 199 ;; Ok tt.
Definition content_range_parse_with_total : run := range_is "bytes 0-9/100" 0 9 ;; Ok tt.
Definition content_range_rejects_reversed : run := no_range "10-5".
Definition content_range_rejects_garbage : run := no_range "not-a-range" ;; no_range "".

Definition checked_length_handles_full_u64_range_without_overflow : run :=
  r ← unwrap (ContentRange.parse ("0-" ++ display_u64 U64_MAX));
  assert_eq (ContentRange.checked_length r) None ;; assert_eq (ContentRange.length r) U64_MAX.

Definition checked_length_normal_range_is_exact : run :=
  r ← unwrap (ContentRange.parse "0-1023"); assert_eq (ContentRange.checked_length r) (Some 1024%Z).

Definition equal_start_end_is_a_valid_single_byte_range : run :=
  r ← range_is "5-5" 5 5; assert_eq (ContentRange.length r) 1%Z ;; no_range "6-5".

Definition upload_tests : suite :=
  [("append_updates_offset", append_updates_offset);
   ("take_bytes_returns_everything_and_resets", take_bytes_returns_everything_and_resets);
   ("content_range_parse_bare_form", content_range_parse_bare_form);
   ("content_range_parse_bytes_prefix", content_range_parse_bytes_prefix);
   ("content_range_parse_with_total", content_range_parse_with_total);
   ("content_range_rejects_reversed", content_range_rejects_reversed); ("content_range_rejects_garbage", content_range_rejects_garbage);
   ("checked_length_handles_full_u64_range_without_overflow", checked_length_handles_full_u64_range_without_overflow);
   ("checked_length_normal_range_is_exact", checked_length_normal_range_is_exact);
   ("equal_start_end_is_a_valid_single_byte_range", equal_start_end_is_a_valid_single_byte_range)].

Lemma upload_tests_pass : passes upload_tests = true.
Proof. vm_compute. reflexivity. Qed.

(** ** [media_types.rs] *)

#[local] Instance ManifestKind_eq_dec : EqDecision ManifestKind.
Proof. solve_decision. Defined.

Definition classified (ct : string) (k : option ManifestKind) : run := assert_eq (classify_manifest_media_type ct) k.

Definition oci_image_manifest_is_classified_as_image : run := classified "application/vnd.oci.image.manifest.v1+json" (Some ImageManifest).
Definition oci_image_index_is_classified_as_index : run := classified "application/vnd.oci.image.index.v1+json" (Some ImageIndex).
Definition arbitrary_vnd_json_is_artifact : run := classified "application/vnd.cncf.helm.config.v1+json" (Some Artifact).
Definition plain_json_is_rejected : run := classified "application/json" None.
Definition charset_parameter_is_stripped : run :=
  classified "application/vnd.oci.image.manifest.v1+json; charset=utf-8" (Some ImageManifest).
Definition vnd_prefix_without_json_suffix_is_not_artifact : run :=
  classified "application/vnd.docker.image.rootfs.diff.tar.gzip" None ;; classified "application/custom+json" None.

Definition media_type_tests : suite :=
  [("oci_image_manifest_is_classified_as_image", oci_image_manifest_is_classified_as_image);
   ("oci_image_index_is_classified_as_index", oci_image_index_is_classified_as_index);
   ("arbitrary_vnd_json_is_artifact", arbitrary_vnd_json_is_artifact); ("plain_json_is_rejected", plain_json_is_rejected);
   ("charset_parameter_is_stripped", charset_parameter_is_stripped);
   ("vnd_prefix_without_json_suffix_is_not_artifact", vnd_prefix_without_json_suffix_is_not_artifact)].

Lemma media_type_tests_pass : passes media_type_tests = true.
Proof. vm_compute. reflexivity. Qed.

(** ** [manifest.rs] *)

#[local] Instance Value_eq_dec : EqDecision Value.
Proof.
  intros x y. destruct (decide (value_to_tree x = value_to_tree y)) as [E|E]; [left|right; congruence].
  rewrite <- (tree_value_roundtrip x), E. apply tree_value_roundtrip.
Defined.
#[local] Instance Descriptor_eq_dec : EqDecision Descriptor.
Proof. solve_decision. Defined.
#[local] Instance ImageManifest_eq_dec : EqDecision OciTypes.ImageManifest.
Proof. solve_decision. Defined.
#[local] Instance ImageIndex_eq_dec : EqDecision OciTypes.ImageIndex.
Proof. solve_decision. Defined.

Definition a_digest : Digest := Digest.sha256_of (bs "sample").

Definition plain_descriptor (media_type : string) (size : Z) (platform : option Value) : Descriptor :=
  mkDescriptor media_type a_digest size [] None None platform ∅.

(** [serde_json::from_str(&serde_json::to_string(v))]. *)
Definition through_json {A} (d : de A) (v : Value) : outcome Empty_set A :=
  text ← unwrap_some (json_write v); doc ← unwrap_some (json_read (bytes_of_string text)); unwrap_some (d doc).

Definition image_manifest_round_trips_via_json : run :=
  let m := mkImageManifest 2 (Some "application/vnd.oci.image.manifest.v1+json") None
    (plain_descriptor "application/vnd.oci.image.config.v1+json" 512 None)
    [plain_descriptor "application/vnd.oci.image.layer.v1.tar+gzip" 1024 None] None None ∅ in
  back ← through_json de_ImageManifest (ser_ImageManifest m);
  assert_eq back m.

Definition empty_image_index_has_no_manifests : run :=
  assert_eq (i_schema_version empty_image_index) 2%Z ;; assert_eq (length (i_manifests empty_image_index)) 0%nat.

Definition platform (architecture : string) : Value := JObject [("architecture", JString architecture); ("os", JString "linux")].

Definition image_index_with_two_platforms_round_trips : run :=
  let entry arch := plain_descriptor "application/vnd.oci.image.manifest.v1+json" 256 (Some (platform arch)) in
  let idx := mkImageIndex 2 (Some "application/vnd.oci.image.index.v1+json") None [entry "amd64"; entry "arm64"] None None ∅ in
  back ← through_json de_ImageIndex (ser_ImageIndex idx);
  assert_eq back idx.

(** ** [handlers/manifest.rs] *)

Definition range_headers (value : string) : headers := [("range", value)].

Definition parse_byte_range_equal_bounds_is_satisfiable : run :=
  match parse_byte_range "bytes=5-5" with BRange s e => assert_eq s 5%Z ;; assert_eq e 5%Z | _ => Panic end ;;
  match parse_byte_range "bytes=6-5" with BUnsatisfiable => Ok tt | _ => Panic end.

#[local] Existing Instance any_header.

(** The response to a range of a body. *)
Definition ranged (range : string) (body : bytes) : outcome Empty_set Response :=
  unwrap (range_or_full_response (range_headers range) (Digest.sha256_of body) "application/octet-stream" body).
Definition header_is (r : Response) (name value : string) : run := assert_eq (header_get (resp_headers r) name) (Some value).

Definition range_request_for_last_byte_is_partial_not_unsatisfiable : run :=
  resp ← ranged "bytes=4-4" (bs "hello");
  assert_eq (status resp) 206%Z ;; header_is resp "content-length" "1" ;; header_is resp "content-range" "bytes 4-4/5" ;;
  past ← ranged "bytes=5-9" (bs "hello");
  assert_eq (status past) 416%Z.

Definition multi_byte_range_content_length_is_exact : run :=
  resp ← ranged "bytes=2-7" (bs "0123456789");
  assert_eq (status resp) 206%Z ;; header_is resp "content-length" "6".

(** ** [router.rs] *)

Definition splits (rest name suffix : string) : run :=
  o ← split_rest rest; '(n, s) ← unwrap_some o; assert_eq n name ;; assert_eq s suffix.

Definition split_simple_manifest_path : run := splits "alpine/manifests/latest" "alpine" "manifests/latest".
Definition split_nested_blob_path : run := splits "my-org/lib/alpine/blobs/uploads/abc" "my-org/lib/alpine" "blobs/uploads/abc".
Definition split_tags_list : run := splits "lib/alpine/tags/list" "lib/alpine" "tags/list".
Definition split_referrers : run := splits "lib/alpine/referrers/sha256:abcd" "lib/alpine" "referrers/sha256:abcd".
Definition split_none_for_bare_name : run := o ← split_rest "alpine"; assert (is_none o).

Definition manifest_tests : suite :=
  [("image_manifest_round_trips_via_json", image_manifest_round_trips_via_json);
   ("empty_image_index_has_no_manifests", empty_image_index_has_no_manifests);
   ("image_index_with_two_platforms_round_trips", image_index_with_two_platforms_round_trips);
   ("parse_byte_range_equal_bounds_is_satisfiable", parse_byte_range_equal_bounds_is_satisfiable);
   ("range_request_for_last_byte_is_partial_not_unsatisfiable", range_request_for_last_byte_is_partial_not_unsatisfiable);
   ("multi_byte_range_content_length_is_exact", multi_byte_range_content_length_is_exact);
   ("split_simple_manifest_path", split_simple_manifest_path); ("split_nested_blob_path", split_nested_blob_path);
   ("split_tags_list", split_tags_list); ("split_referrers", split_referrers); ("split_none_for_bare_name", split_none_for_bare_name)].

Lemma manifest_tests_pass : passes manifest_tests = true.
Proof. vm_compute. reflexivity. Qed.

End PureTests.
