(* ===== verification/TestCargo.v ===== *)
(** * The unit tests of the Cargo registry crate

    [mod tests] of [persist.rs], [index.rs], [publish.rs], [error.rs], [name.rs],
    [version.rs], [config.rs] and [handlers.rs] in
    [crates/ferro-cargo-registry-server/src], with the hash and the JSON text of
    the witnesses. A check of the text of a JSON document is a check of the
    document it is the text of. The tests of log lines, and the one of a body of
    20 MiB, have no counterpart. *)

From S2P Require Import Prelude Str Frame Net Fs Json Http Regex Digest BlobStore FsStore CargoName CargoVersion CargoIndex CargoState CargoHandlers Harness.

Local Open Scope string_scope.

(** [s.repeat(n)]. *)
Fixpoint repeat_str (s : string) (n : nat) : string := match n with O => "" | S n => s ++ repeat_str s n end.

Definition hex_of (s : string) : string := hex (Digest.sha256_of (bs s)).

(** ** [persist.rs] *)

Definition entry (name vers cksum : string) : IndexEntry :=
  mkEntry name vers [] cksum ∅ false None (Some 2%Z) None None.

Definition yanked_entry (e : IndexEntry) : IndexEntry :=
  mkEntry (ie_name e) (ie_vers e) (ie_deps e) (ie_cksum e) (ie_features e) true (ie_links e) (ie_v e) (ie_features2 e) (ie_rust_version e).

Definition data : path := ["data"].
Definition empty_dir : World := mkWorld (mkFs {[ data := Dir ]} []) 0 1.

(** A disk whose directory holds this snapshot file. *)
Definition snapshot_file (n : node) : Fs := mkFs (<[state_path data := n]> {[ data := Dir ]}) [].

Definition loads (f : Fs) : outcome Empty_set crate_map := '(_, m) ← call_ok (load data) f; Ok m.
Definition loads_empty (f : Fs) : run := m ← loads f; assert (bool_decide (dom m = ∅)).

Definition missing_snapshot_loads_empty : run := loads_empty (w_fs empty_dir).
Definition unreadable_snapshot_takes_non_notfound_arm : run :=
  '(_, o) ← call (Fs.read (state_path data)) (snapshot_file Dir);
  e ← unwrap_err o;
  assert_ne (io_kind e) KNotFound ;; loads_empty (snapshot_file Dir).
Definition corrupt_snapshot_loads_empty : run := loads_empty (snapshot_file (File (bs "{ not json"))).

Definition record_of (es : list IndexEntry) (tarballs : list (string * Digest)) (owners : list Owner) : CrateRecord :=
  mkRecord es (list_to_map tarballs) owners.

Definition save_then_load_round_trips_entries_owners_and_digests : run :=
  let digest := Digest.sha256_of (bs "round-trip-bytes") in
  let rec := record_of [yanked_entry (entry "foo" "1.0.0" (hex digest))] [("1.0.0", digest)] [mkOwner 1 "alice" None] in
  '(w, _) ← call_ok (save data {[ "foo" := rec ]}) empty_dir;
  m ← loads (w_fs w);
  got ← unwrap_some (m !! "foo");
  assert_eq (map ie_vers (entries got)) ["1.0.0"] ;; assert_eq (map ie_yanked (entries got)) [true] ;;
  assert_eq (map o_login (owners got)) ["alice"] ;;
  assert_eq (tarballs got !! "1.0.0") (Some digest).

(** A snapshot file of one crate. *)
Definition snapshot_json (name : string) (es : list IndexEntry) : outcome Empty_set Fs :=
  text ← unwrap_some (json_write (ser_Snapshot {[ name := mkPersistedRecord es [] ]}));
  Ok (snapshot_file (File (bytes_of_string text))).

Definition load_drops_entry_with_invalid_cksum : run :=
  f ← snapshot_json "foo" [entry "foo" "1.0.0" (hex_of "good-bytes"); entry "foo" "2.0.0" "not-a-real-digest"];
  m ← loads f;
  got ← unwrap_some (m !! "foo");
  assert_eq (map ie_vers (entries got)) ["1.0.0"] ;;
  assert (bool_decide (is_Some (tarballs got !! "1.0.0"))) ;; assert (is_none (tarballs got !! "2.0.0")) ;;
  assert (negb (existsb (fun e => bool_decide (ie_vers e = "2.0.0")) (entries got))).

Definition load_drops_crate_when_all_versions_corrupt : run :=
  f ← snapshot_json "bar" [entry "bar" "1.0.0" "zz"; entry "bar" "2.0.0" ""];
  m ← loads f;
  assert (match m !! "bar" with None => true | Some _ => false end).

(** No file of the directory starts with the prefix of the temporary names. *)
Definition no_temp_files (t : tree) : bool :=
  forallb (fun p => match last p with Some n => negb (bool_decide (is_Some (strip_prefix (STATE_FILE ++ ".tmp.") n))) | None => true end)
    (fst <$> map_to_list t).

Definition exists_in (t : tree) (p : path) : bool := bool_decide (is_Some (t !! p)).

Definition save_is_atomic_no_tmp_left_behind : run :=
  '(w, _) ← call_ok (save data ∅) empty_dir;
  assert (exists_in (disk_of w) (state_path data)) ;; assert (no_temp_files (disk_of w)).

(** [for _ in 0..n { save(..).unwrap() }]. *)
Fixpoint saves (n : nat) (m : crate_map) (w : World) : outcome Empty_set World :=
  match n with O => Ok w | S n => '(w, _) ← call_ok (save data m) w; saves n m w end.

Definition repeated_saves_round_trip_without_temp_buildup : run :=
  let digest := Digest.sha256_of (bs "durable") in
  w ← saves 5 {[ "foo" := record_of [entry "foo" "1.0.0" (hex digest)] [("1.0.0", digest)] [] ]} empty_dir;
  assert (no_temp_files (disk_of w)) ;;
  m ← loads (w_fs w);
  got ← unwrap_some (m !! "foo");
  assert_eq (head (map ie_vers (entries got))) (Some "1.0.0").

(** The names of the temporary files the next [BLOCK] attempts would create. *)
Definition BLOCK : nat := 8.
Definition squatted (w : World) : list path :=
  (fun i => data ++ [save_tmp_name (w_pid w) (tmp_counter w + Z.of_nat i)])%list <$> seq 0 BLOCK.

(** One round of the loop: the counter is the process's own here, and no other test
    advances it. The next test is one of its eight equal rounds. *)
Definition save_handles_create_new_temp_collision : run :=
  let names := squatted empty_dir in
  let t := fold_left (fun t p => <[p := File (bs "squatter")]> t) names (disk_of empty_dir) in
  '(w, _) ← call_ok (save data ∅) (mkWorld (mkFs t []) (tmp_counter empty_dir) (w_pid empty_dir));
  assert (exists_in (disk_of w) (state_path data)) ;;
  for_each (fun p => assert_eq (disk_of w !! p) (Some (File (bs "squatter")))) names ;;
  assert (tmp_counter empty_dir + Z.of_nat BLOCK <=? tmp_counter w)%Z.

Definition save_propagates_non_already_exists_create_error : run :=
  '(w, o) ← call (save (data ++ ["does-not-exist"; "nested"])%list ∅) empty_dir;
  e ← unwrap_err o;
  assert_eq (io_kind e) KNotFound ;; assert (tmp_counter w - tmp_counter empty_dir <? 16)%Z.

Definition persist_tests : suite :=
  [("missing_snapshot_loads_empty", missing_snapshot_loads_empty);
   ("unreadable_snapshot_takes_non_notfound_arm", unreadable_snapshot_takes_non_notfound_arm);
   ("corrupt_snapshot_loads_empty", corrupt_snapshot_loads_empty);
   ("save_then_load_round_trips_entries_owners_and_digests", save_then_load_round_trips_entries_owners_and_digests);
   ("load_drops_entry_with_invalid_cksum", load_drops_entry_with_invalid_cksum);
   ("load_drops_crate_when_all_versions_corrupt", load_drops_crate_when_all_versions_corrupt);
   ("save_is_atomic_no_tmp_left_behind", save_is_atomic_no_tmp_left_behind);
   ("repeated_saves_round_trip_without_temp_buildup", repeated_saves_round_trip_without_temp_buildup);
   ("save_handles_create_new_temp_collision", save_handles_create_new_temp_collision);
   ("save_propagates_non_already_exists_create_error", save_propagates_non_already_exists_create_error)].

Lemma persist_tests_pass : passes persist_tests = true.
Proof. vm_compute. reflexivity. Qed.

(** ** [index.rs] *)

Definition sample_entry : IndexEntry :=
  mkEntry "foo" "1.0.0" [mkIndexDep "bar" "^1" [] false true None (Some "normal") None None] (repeat_str "00" 32) ∅ false None
    (Some 2%Z) None (Some "1.70.0").

Definition with_vers (v : string) (e : IndexEntry) : IndexEntry :=
  mkEntry (ie_name e) v (ie_deps e) (ie_cksum e) (ie_features e) (ie_yanked e) (ie_links e) (ie_v e) (ie_features2 e) (ie_rust_version e).

Definition line_serialisation_has_no_embedded_newlines : run :=
  line ← unwrap_some (to_line sample_entry); assert (str_all (fun c => negb (Ascii.eqb c "010")) line).

Definition render_and_parse_round_trip : run :=
  let b := with_vers "1.1.0" sample_entry in
  parsed ← unwrap_some (parse_lines (render_lines [sample_entry; b]));
  assert_eq parsed [sample_entry; b].

(** [entry_from_manifest(&json!(..), cksum).unwrap()]. *)
Definition entry_from (fields : list (string * Value)) (cksum : string) : outcome Empty_set IndexEntry :=
  unwrap_some (entry_from_manifest (value_of (JObject fields)) cksum).

Definition entry_from_manifest_pulls_cksum_in : run :=
  e ← entry_from [("name", JString "foo"); ("vers", JString "1.0.0"); ("deps", JArray []); ("features", JObject [])] (repeat_str "aa" 32);
  assert_eq (ie_name e) "foo" ;; assert_eq (ie_vers e) "1.0.0" ;; assert_eq (ie_cksum e) (repeat_str "aa" 32).

Definition entry_accepts_version_key_fallback : run :=
  e ← entry_from [("name", JString "foo"); ("vers", JString ""); ("version", JString "2.0.0"); ("features", JObject [])] "00";
  assert_eq (ie_vers e) "2.0.0".

Definition empty_lines_are_skipped_on_parse : run :=
  es ← unwrap_some (parse_lines (String "010" (String "010" ""))); assert_eq es [].

(** The metadata of a crate with one dependency, and the dependency its entry has. *)
Definition entry_with_dep (vers : string) (dep : list (string * Value)) (more : list (string * Value)) (cksum : string)
    : outcome Empty_set (IndexEntry * IndexDep) :=
  e ← entry_from ([("name", JString "consumer"); ("vers", JString vers); ("deps", JArray [JObject dep]); ("features", JObject [])] ++ more)%list cksum;
  match ie_deps e with [d] => Ok (e, d) | _ => Panic end.

Definition entry_from_manifest_maps_version_req_and_rename : run :=
  let registry_cksum := repeat_str "ab" 32 in
  '(e, dep) ← entry_with_dep "1.2.3"
    [("name", JString "serde"); ("version_req", JString "^1.0"); ("features", JArray []); ("optional", JBool false);
     ("default_features", JBool true); ("kind", JString "normal"); ("explicit_name_in_toml", JString "my_serde")]
    [("cksum", JString (repeat_str "ff" 32))] registry_cksum;
  assert_eq (ie_cksum e) registry_cksum ;; assert_eq (id_req dep) "^1.0" ;; assert_eq (id_name dep) "my_serde" ;;
  assert_eq (id_package dep) (Some "serde").

Definition dep_default_features_defaults_to_true : run :=
  '(_, dep) ← entry_with_dep "1.0.0" [("name", JString "serde"); ("version_req", JString "^1")] [] (repeat_str "00" 32);
  assert (id_default_features dep) ;;
  '(_, dep) ← entry_with_dep "1.0.0" [("name", JString "serde"); ("version_req", JString "^1"); ("default_features", JBool false)] []
    (repeat_str "00" 32);
  assert (negb (id_default_features dep)).

(** The keys and texts of an object of the index. *)
Definition field (v : Value) (k : string) : option Value := Value.get k v.

Definition entry_from_manifest_non_renamed_dep_has_no_package : run :=
  '(e, dep) ← entry_with_dep "0.1.0"
    [("name", JString "anyhow"); ("version_req", JString "=1.0.86"); ("default_features", JBool true); ("kind", JString "normal")] []
    (repeat_str "00" 32);
  assert_eq (id_name dep) "anyhow" ;; assert_eq (id_req dep) "=1.0.86" ;; assert_eq (id_package dep) None ;;
  match field (ser_IndexEntry e) "deps" with
  | Some (JArray [d]) =>
    match field d "req" with Some (JString req) => assert_eq req "=1.0.86" | _ => Panic end ;;
    assert (match field d "version_req" with None => true | Some _ => false end)
  | _ => Panic
  end.

Definition index_tests : suite :=
  [("line_serialisation_has_no_embedded_newlines", line_serialisation_has_no_embedded_newlines);
   ("render_and_parse_round_trip", render_and_parse_round_trip);
   ("entry_from_manifest_pulls_cksum_in", entry_from_manifest_pulls_cksum_in);
   ("entry_accepts_version_key_fallback", entry_accepts_version_key_fallback);
   ("empty_lines_are_skipped_on_parse", empty_lines_are_skipped_on_parse);
   ("entry_from_manifest_maps_version_req_and_rename", entry_from_manifest_maps_version_req_and_rename);
   ("dep_default_features_defaults_to_true", dep_default_features_defaults_to_true);
   ("entry_from_manifest_non_renamed_dep_has_no_package", entry_from_manifest_non_renamed_dep_has_no_package)].

Lemma index_tests_pass : passes index_tests = true.
Proof. vm_compute. reflexivity. Qed.

(** ** [publish.rs] *)

(** The JSON text of the witnesses, with the empty object written as the tests do. *)
Definition braces : JsonText := {|
  json_read b := if bool_decide (b = bs "{}") then Some (JObject []) else json_read (JsonText := bits_json) b;
  json_write := json_write (JsonText := bits_json);
  json_write_pretty := json_write_pretty (JsonText := bits_json);
|}.

Definition parse_body (b : bytes) : outcome CargoError PublishRequest := parse (J := braces) b.
Definition rejected (b : bytes) : run := assert (is_err (parse_body b)).

(** [parse(&body).expect_err(..)] is a publish error with this text. *)
Definition rejected_as (detail : string) (b : bytes) : run :=
  e ← unwrap_err (parse_body b);
  match e with InvalidPublish (PublishText t) => assert (str_contains detail t) | _ => Panic end.

Definition round_trip_encode_decode : run :=
  let m := JObject [("name", JString "foo"); ("vers", JString "1.0.0")] in
  p ← unwrap (parse_body (encode (J := braces) m (bs "synthetic-tar-bytes")));
  assert_eq (Value.as_str <$> Value.get "name" (manifest p)) (Some (Some "foo")) ;;
  assert_eq (Value.as_str <$> Value.get "vers" (manifest p)) (Some (Some "1.0.0")) ;;
  assert_eq (tarball p) (bs "synthetic-tar-bytes").

Definition short_body_is_rejected : run := rejected [x00; x00].
Definition truncated_metadata_is_rejected : run := rejected (u32_to_le_bytes 100 ++ bs "{}")%list.
Definition truncated_tarball_is_rejected : run :=
  rejected (u32_to_le_bytes 2 ++ bs "{}" ++ u32_to_le_bytes 10 ++ bs "abc")%list.
Definition invalid_json_is_rejected : run := rejected (u32_to_le_bytes 2 ++ bs "xx" ++ u32_to_le_bytes 0)%list.

Definition exact_fit_metadata_consumes_whole_rest_then_fails_at_crate_len : run :=
  rejected_as "4-byte length prefix" (u32_to_le_bytes 2 ++ bs "{}")%list.

Definition under_fit_metadata_is_truncated : run := rejected_as "metadata body truncated" (u32_to_le_bytes 10 ++ bs "{}")%list.

Definition exact_four_byte_prefix_is_read_not_rejected : run :=
  p ← unwrap (parse_body (u32_to_le_bytes 2 ++ bs "{}" ++ u32_to_le_bytes 0)%list);
  assert_eq (tarball p) [] ;; rejected [x00; x00; x00].

Definition publish_tests : suite :=
  [("round_trip_encode_decode", round_trip_encode_decode); ("short_body_is_rejected", short_body_is_rejected);
   ("truncated_metadata_is_rejected", truncated_metadata_is_rejected); ("truncated_tarball_is_rejected", truncated_tarball_is_rejected);
   ("invalid_json_is_rejected", invalid_json_is_rejected);
   ("exact_fit_metadata_consumes_whole_rest_then_fails_at_crate_len", exact_fit_metadata_consumes_whole_rest_then_fails_at_crate_len);
   ("under_fit_metadata_is_truncated", under_fit_metadata_is_truncated);
   ("exact_four_byte_prefix_is_read_not_rejected", exact_four_byte_prefix_is_read_not_rejected)].

Lemma publish_tests_pass : passes publish_tests = true.
Proof. vm_compute. reflexivity. Qed.

(** ** [error.rs], [name.rs], [version.rs] and [config.rs] *)

Definition status_is (e : CargoError) (n : Z) : run := assert_eq (cargo_status e) n.

Definition invalid_name_is_400 : run := status_is (InvalidName "") 400.
Definition not_found_is_404 : run := status_is (CrateNotFound "x") 404.
Definition not_implemented_is_501 : run := status_is (NotImplemented "git") 501.
Definition name_conflict_is_409 : run := status_is (NameConflict "foo_bar" "foo-bar") 409.
Definition duplicate_version_is_409 : run := status_is (DuplicateVersion "foo" "1.0.0") 409.
Definition checksum_mismatch_is_400 : run := status_is (ChecksumMismatch "a" "b") 400.
Definition persistence_is_500 : run := status_is (Persistence (mkIoError (KOther 28) "disk full")) 500.
Definition storage_not_found_is_404 : run := status_is (Storage (NotFound "digest")) 404.
Definition storage_digest_mismatch_is_400 : run := status_is (Storage (DigestMismatch "aa" "bb")) 400.
Definition storage_invalid_digest_is_400 : run :=
  parse_err ← unwrap_err (Digest.new Sha256 "zz"); status_is (Storage (InvalidDigest parse_err)) 400.
Definition storage_io_error_is_500 : run := status_is (Storage (BsIo (mkIoError (KOther 5) "disk on fire"))) 500.

Definition valid_crate_names : run := for_each (fun n => assert (is_valid_name n)) ["serde"; "tokio"; "abc-def"; "abc_def"; "A"].
Definition invalid_crate_names : run :=
  for_each (fun n => assert (negb (is_valid_name n))) [""; "-foo"; "1abc"; "foo bar"; repeat_str "a" 65].

Definition name_length_boundary_is_inclusive_at_max : run :=
  let at_max := repeat_str "a" MAX_NAME_LEN in
  assert_eq (String.length at_max) 64%nat ;; assert (is_valid_name at_max) ;;
  assert (negb (is_valid_name (repeat_str "a" (MAX_NAME_LEN + 1)))).

Definition path_is (name p : string) : run := got ← index_path name; assert_eq got p.

Definition index_path_empty_name_is_empty_string : run := path_is "" "".
Definition validate_surface_error : run := e ← unwrap_err (validate_name ""); match e with InvalidName _ => Ok tt | _ => Panic end.
Definition index_path_layout_by_length : run :=
  path_is "a" "1/a" ;; path_is "ab" "2/ab" ;; path_is "abc" "3/a/abc" ;; path_is "serde" "se/rd/serde" ;;
  path_is "tokio" "to/ki/tokio" ;; path_is "abcd" "ab/cd/abcd".
Definition index_path_lowercases : run := path_is "Serde" "se/rd/serde" ;; path_is "AB" "2/ab".
Definition canonical_name_folds_case_and_hyphen : run :=
  assert_eq (canonical_name "MyCrate") "mycrate" ;; assert_eq (canonical_name "Foo-Bar") "foo_bar" ;;
  assert_eq (canonical_name "foo_bar") "foo_bar" ;;
  assert (names_collide "foo-bar" "foo_bar") ;; assert (names_collide "Foo" "foo") ;; assert (names_collide "My-Crate" "my_crate") ;;
  assert (negb (names_collide "foo" "bar")).

Definition accepts_common_versions : run :=
  for_each (fun v => assert (is_valid_semver v)) ["1.0.0"; "0.1.0"; "1.2.3-alpha.1"; "1.2.3+build.5"; "1.2.3-rc.1+sha.abc"].
Definition rejects_non_semver : run :=
  for_each (fun v => assert (negb (is_valid_semver v))) [""; "1"; "1.0"; "v1.0.0"; "1.0.0-"].

Definition dl_template_matches_spec : run :=
  let c := IndexConfig_new "x" in assert (str_contains "{crate}" (dl c)) ;; assert (str_contains "{version}" (dl c)).

Definition publish_body_limit_is_documented_size : run := assert_eq MAX_PUBLISH_BODY_BYTES (20 * 1024 * 1024)%Z.

Definition name_tests : suite :=
  [("invalid_name_is_400", invalid_name_is_400); ("not_found_is_404", not_found_is_404); ("not_implemented_is_501", not_implemented_is_501);
   ("name_conflict_is_409", name_conflict_is_409); ("duplicate_version_is_409", duplicate_version_is_409);
   ("checksum_mismatch_is_400", checksum_mismatch_is_400); ("persistence_is_500", persistence_is_500);
   ("storage_not_found_is_404", storage_not_found_is_404); ("storage_digest_mismatch_is_400", storage_digest_mismatch_is_400);
   ("storage_invalid_digest_is_400", storage_invalid_digest_is_400); ("storage_io_error_is_500", storage_io_error_is_500);
   ("valid_crate_names", valid_crate_names); ("invalid_crate_names", invalid_crate_names);
   ("name_length_boundary_is_inclusive_at_max", name_length_boundary_is_inclusive_at_max);
   ("index_path_empty_name_is_empty_string", index_path_empty_name_is_empty_string);
   ("validate_surface_error", validate_surface_error); ("index_path_layout_by_length", index_path_layout_by_length);
   ("index_path_lowercases", index_path_lowercases); ("canonical_name_folds_case_and_hyphen", canonical_name_folds_case_and_hyphen);
   ("accepts_common_versions", accepts_common_versions); ("rejects_non_semver", rejects_non_semver);
   ("dl_template_matches_spec", dl_template_matches_spec); ("publish_body_limit_is_documented_size", publish_body_limit_is_documented_size)].

Lemma name_tests_pass : passes name_tests = true.
Proof. vm_compute. reflexivity. Qed.

(** ** [handlers.rs] *)

Definition derive_index_path_matches_index_path_layout : run :=
  for_each (fun n => a ← unwrap (derive_index_path n); b ← index_path n; assert_eq a b) ["a"; "ab"; "abc"; "serde"; "MyCrate"] ;;
  p ← unwrap (derive_index_path "serde"); assert_eq p "se/rd/serde" ;; assert_ne p "" ;;
  p ← unwrap (derive_index_path "a"); assert_eq p "1/a".

(** The blob store of the tests. *)
Definition blob_dir : path := ["blobs"].
Definition store : FsBlobStore := mkFsBlobStore blob_dir.
#[local] Instance test_blobs : BlobStore Process := FsStore.fs_store store.
Definition blob_disk : Process := mkProcess (mkFs {[ blob_dir := Dir ]} []) 0 1.

(** A persistence directory under a regular file. *)
Definition broken : path := ["blocker"; "persist"].
Definition blocked : World := mkWorld (mkFs {[ ["blocker"] := File (bs "file") ]} []) 0 1.

Definition state_with_seed_and_broken_persistence (key : string) (record : CrateRecord) : CargoConfig * CargoState Process :=
  (mkCargoConfig (IndexConfig_new "http://localhost") (Some broken), mkCargo blob_disk {[ key := record ]} blocked).

Definition seed_entry (vers : string) (yanked : bool) : IndexEntry :=
  mkEntry "foo" vers [] (hex_of "seed") ∅ yanked None (Some 2%Z) None None.

(** The record of a crate in the state, read under the lock. *)
Definition record_in (name : string) : session (CargoState Process) CrateRecord :=
  fun s => (s, unwrap_some (crates s !! canonical_name name)).

Definition yank_rolls_back_in_memory_flag_when_persist_fails : run :=
  let '(cfg, state) := state_with_seed_and_broken_persistence (canonical_name "foo") (mkRecord [seed_entry "1.0.0" false] ∅ []) in
  starting state (
    e ← err (set_yanked cfg "foo" "1.0.0" true);
    check (assert_eq (cargo_status e) 500%Z) ;;
    r ← record_in "foo";
    check (assert_eq (map ie_yanked (entries r)) [false])).

Definition owner_add_rolls_back_when_persist_fails : run :=
  let '(cfg, state) := state_with_seed_and_broken_persistence (canonical_name "foo")
    (mkRecord [seed_entry "1.0.0" false] ∅ [mkOwner 1 "alice" None]) in
  starting state (
    e ← err (mutate_owners cfg "foo" ["bob"] false);
    check (assert_eq (cargo_status e) 500%Z) ;;
    r ← record_in "foo";
    check (assert_eq (map o_login (owners r)) ["alice"])).

Definition yank_succeeds_with_persistence_disabled : run :=
  let '(cfg, state) := CargoState_new blob_disk "http://localhost" blocked in
  starting (set_crates {[ canonical_name "foo" := mkRecord [seed_entry "1.0.0" false] ∅ [] ]} state) (
    ok (set_yanked cfg "foo" "1.0.0" true) ;;
    r ← record_in "foo";
    check (assert_eq (map ie_yanked (entries r)) [true])).

(** The body of a publish of this crate. *)
Definition publish_body (name vers : string) (t : bytes) : bytes := encode (JObject [("name", JString name); ("vers", JString vers)]) t.

Definition publish_rollback_keeps_blob_referenced_by_other_crate : run :=
  let t := bs "shared-tarball-bytes-for-digest-D" in
  let digest := Digest.sha256_of t in
  let bee := record_of [mkEntry "bee" "1.0.0" [] (hex digest) ∅ false None (Some 2%Z) None None] [("1.0.0", digest)] [] in
  let '(cfg, state) := state_with_seed_and_broken_persistence (canonical_name "bee") bee in
  starting state (
    ok (on_blobs (bs_put digest t)) ;;
    e ← err (handle_publish cfg (publish_body "aye" "2.0.0" t));
    check (assert_eq (cargo_status e) 500%Z) ;;
    s ← st_get;
    check (assert (match crates s !! canonical_name "aye" with None => true | Some _ => false end)) ;;
    r ← record_in "bee";
    check (assert_eq (tarballs r !! "1.0.0") (Some digest)) ;;
    b ← ok (on_blobs (bs_get digest));
    check (assert_eq b t)).

Definition publish_rollback_deletes_truly_orphan_blob : run :=
  let t := bs "unique-orphan-tarball-bytes" in
  let '(cfg, state) := state_with_seed_and_broken_persistence (canonical_name "other") (mkRecord [seed_entry "9.9.9" false] ∅ []) in
  starting state (
    e ← err (handle_publish cfg (publish_body "lonely" "1.0.0" t));
    check (assert_eq (cargo_status e) 500%Z) ;;
    c ← ok (on_blobs (bs_contains (Digest.sha256_of t)));
    check (assert (negb c))).

(** The map after [rollback_publish] of a crate's version. *)
Definition rolled_back (r : CrateRecord) (vers : string) (digest : Digest) : option CrateRecord :=
  rollback_publish (canonical_name "foo") vers digest {[ canonical_name "foo" := r ]} !! canonical_name "foo".

Definition rollback_publish_keeps_record_with_surviving_sibling_version : run :=
  let digest := Digest.sha256_of (bs "v2-bytes") in
  got ← unwrap_some (rolled_back (record_of [seed_entry "1.0.0" false; seed_entry "2.0.0" false] [("2.0.0", digest)] []) "2.0.0" digest);
  assert_eq (map ie_vers (entries got)) ["1.0.0"] ;; assert (is_none (tarballs got !! "2.0.0")).

Definition rollback_publish_keeps_record_with_surviving_owners : run :=
  let digest := Digest.sha256_of (bs "only-version-bytes") in
  got ← unwrap_some (rolled_back (record_of [seed_entry "1.0.0" false] [("1.0.0", digest)] [mkOwner 7 "alice" None]) "1.0.0" digest);
  assert_eq (entries got) [] ;; assert (bool_decide (tarballs got = ∅)) ;; assert_eq (map o_login (owners got)) ["alice"].

Definition rollback_publish_removes_fully_emptied_record : run :=
  let digest := Digest.sha256_of (bs "fresh-crate-bytes") in
  assert (is_none (rolled_back (record_of [seed_entry "1.0.0" false] [("1.0.0", digest)] []) "1.0.0" digest)).

Definition handler_tests : suite :=
  [("derive_index_path_matches_index_path_layout", derive_index_path_matches_index_path_layout);
   ("yank_rolls_back_in_memory_flag_when_persist_fails", yank_rolls_back_in_memory_flag_when_persist_fails);
   ("owner_add_rolls_back_when_persist_fails", owner_add_rolls_back_when_persist_fails);
   ("yank_succeeds_with_persistence_disabled", yank_succeeds_with_persistence_disabled);
   ("publish_rollback_keeps_blob_referenced_by_other_crate", publish_rollback_keeps_blob_referenced_by_other_crate);
   ("publish_rollback_deletes_truly_orphan_blob", publish_rollback_deletes_truly_orphan_blob);
   ("rollback_publish_keeps_record_with_surviving_sibling_version", rollback_publish_keeps_record_with_surviving_sibling_version);
   ("rollback_publish_keeps_record_with_surviving_owners", rollback_publish_keeps_record_with_surviving_owners);
   ("rollback_publish_removes_fully_emptied_record", rollback_publish_removes_fully_emptied_record)].

Lemma handler_tests_pass : passes handler_tests = true.
Proof. vm_compute. reflexivity. Qed.
