(* ===== verification/TestMaven.v ===== *)
(** * The unit tests of the Maven layout crate

    [mod tests] of [layout.rs], [coordinate.rs], [checksum.rs], [error.rs] and
    [snapshot.rs] in [crates/ferro-maven-layout/src]. The two tests of known SHA
    vectors are about the hash functions, which are parameters here. *)

From S2P Require Import Prelude Str Frame Net Json Digest BlobStore MavenCoordinate MavenLayout Harness.

Local Open Scope string_scope.

#[local] Instance PathClass_eq_dec : EqDecision PathClass.
Proof. solve_decision. Defined.

(** ** [layout.rs] *)

Definition parse_ok (p : string) : outcome Empty_set LayoutPath := unwrap (parse_layout_path p).

(** [err.to_string()] of a path error. *)
Definition path_error (p : string) : outcome Empty_set string :=
  e ← unwrap_err (parse_layout_path p); match e with InvalidPath msg => Ok msg | _ => Panic end.

Definition metadata_at (level : bool) (p : LayoutPath) : run :=
  match class p with Metadata l _ => assert_eq l level | _ => Panic end.

Definition three_segment_metadata_path_is_accepted : run :=
  p ← parse_ok "com/example/maven-metadata.xml";
  assert_eq (group_id (coordinate p)) "com" ;; assert_eq (artifact_id (coordinate p)) "example" ;;
  assert_eq (class p) (Metadata false None).

Definition four_segment_artifact_path_is_accepted : run :=
  p ← parse_ok "g/foo/1.0/foo-1.0.jar";
  let c := coordinate p in
  assert_eq (group_id c) "g" ;; assert_eq (artifact_id c) "foo" ;; assert_eq (version c) "1.0" ;; assert_eq (extension c) "jar" ;;
  assert_eq (class p) Artifact.

Definition three_segment_artifact_path_is_rejected : run :=
  msg ← path_error "foo/1.0/foo-1.0.jar"; assert (str_contains "fewer than 4 segments" msg).

Definition deep_version_level_metadata_resolves_group_and_artifact : run :=
  p ← parse_ok "a/b/c/d/foo/1.0-SNAPSHOT/maven-metadata.xml";
  let c := coordinate p in
  assert_eq (artifact_id c) "foo" ;; assert_eq (group_id c) "a.b.c.d" ;; assert_eq (version c) "1.0-SNAPSHOT" ;; metadata_at true p.

Definition empty_classifier_with_extension_is_rejected : run :=
  msg ← path_error "g/foo/1.0/foo-1.0-.jar"; assert (str_contains "classifier.extension" msg).

Definition layout_is_snapshot_reflects_version : run :=
  snap ← parse_ok "com/example/foo/1.0-SNAPSHOT/foo-1.0-SNAPSHOT.jar";
  assert (layout_is_snapshot snap) ;;
  release ← parse_ok "com/example/foo/1.0/foo-1.0.jar";
  assert (negb (layout_is_snapshot release)).

Definition parses_simple_jar_path : run :=
  p ← parse_ok "com/example/foo/1.0/foo-1.0.jar";
  assert_eq (coordinate p) (mkCoordinate "com.example" "foo" "1.0" None "jar") ;; assert_eq (class p) Artifact.

Definition parses_classifier_jar : run :=
  p ← parse_ok "com/example/foo/1.0/foo-1.0-sources.jar";
  assert_eq (classifier (coordinate p)) (Some "sources") ;; assert_eq (extension (coordinate p)) "jar".

Definition parses_sha1_sidecar : run :=
  p ← parse_ok "com/example/foo/1.0/foo-1.0.jar.sha1";
  assert_eq (extension (coordinate p)) "jar" ;; assert_eq (class p) (Checksum CSha1).

Definition parses_pom : run := p ← parse_ok "com/example/foo/1.0/foo-1.0.pom"; assert_eq (extension (coordinate p)) "pom".

Definition parses_metadata_under_artifact_id : run :=
  p ← parse_ok "com/example/foo/maven-metadata.xml"; assert_eq (class p) (Metadata false None).

Definition parses_metadata_under_version : run := p ← parse_ok "com/example/foo/1.0-SNAPSHOT/maven-metadata.xml"; metadata_at true p.

Definition rejects_too_short_path : run := msg ← path_error "foo/1.0"; assert (str_contains "fewer than 3 segments" msg).

Definition compound_tar_gz_extension_preserved : run :=
  p ← parse_ok "com/example/foo/1.0/foo-1.0-dist.tar.gz";
  assert_eq (extension (coordinate p)) "tar.gz" ;; assert_eq (classifier (coordinate p)) (Some "dist").

Definition round_trip_path_to_coordinate_and_back : run :=
  p ← parse_ok "com/example/foo/1.0/foo-1.0-sources.jar";
  assert_eq (Coordinate.repository_path (coordinate p)) "com/example/foo/1.0/foo-1.0-sources.jar".

(** The bytes of the crash: a control character, NULs and two dots. *)
Definition crash : string :=
  String "023" ("/../" ++ String "000" ("//..-" ++ String "000" ".t")).

Definition fuzz_crash_path_traversal_input_is_rejected : run := unwrap_err (parse_layout_path crash) ;; Ok tt.

Definition dotdot_component_path_is_rejected : run :=
  for_each (fun p => assert (is_err (parse_layout_path p)))
    ["../foo/1.0/foo-1.0.jar"; "g/../1.0/foo-1.0.jar"; "g/foo/../foo-1.0.jar"].

(** No segment of the rendered path is a traversal segment. *)
Definition no_traversal (c : Coordinate) : run :=
  for_each (fun seg => assert_ne seg ".." ;; assert_ne seg ".") (split "/" (Coordinate.repository_path c)).

Definition accepted_paths_never_render_a_traversal_segment : run :=
  for_each (fun path =>
    p ← parse_ok path;
    match class p with Artifact | Checksum _ => no_traversal (coordinate p) | Metadata _ _ => Ok tt end)
    ["com/example/foo/1.0/foo-1.0.jar"; "com/example/foo/1.0/foo-1.0-sources.jar"; "com/example/foo/1.0/foo-1.0.jar.sha1";
     "com/example/foo/1.0-SNAPSHOT/foo-1.0-SNAPSHOT-dist.tar.gz"].

Definition layout_tests : suite :=
  [("three_segment_metadata_path_is_accepted", three_segment_metadata_path_is_accepted);
   ("four_segment_artifact_path_is_accepted", four_segment_artifact_path_is_accepted);
   ("three_segment_artifact_path_is_rejected", three_segment_artifact_path_is_rejected);
   ("deep_version_level_metadata_resolves_group_and_artifact", deep_version_level_metadata_resolves_group_and_artifact);
   ("empty_classifier_with_extension_is_rejected", empty_classifier_with_extension_is_rejected);
   ("layout_is_snapshot_reflects_version", layout_is_snapshot_reflects_version);
   ("parses_simple_jar_path", parses_simple_jar_path); ("parses_classifier_jar", parses_classifier_jar);
   ("parses_sha1_sidecar", parses_sha1_sidecar); ("parses_pom", parses_pom);
   ("parses_metadata_under_artifact_id", parses_metadata_under_artifact_id);
   ("parses_metadata_under_version", parses_metadata_under_version); ("rejects_too_short_path", rejects_too_short_path);
   ("compound_tar_gz_extension_preserved", compound_tar_gz_extension_preserved);
   ("round_trip_path_to_coordinate_and_back", round_trip_path_to_coordinate_and_back);
   ("fuzz_crash_path_traversal_input_is_rejected", fuzz_crash_path_traversal_input_is_rejected);
   ("dotdot_component_path_is_rejected", dotdot_component_path_is_rejected);
   ("accepted_paths_never_render_a_traversal_segment", accepted_paths_never_render_a_traversal_segment)].

Lemma layout_tests_pass : passes layout_tests = true.
Proof. vm_compute. reflexivity. Qed.

(** ** [coordinate.rs] *)

Definition jar (g a v : string) : outcome Empty_set Coordinate := unwrap (Coordinate.new_jar g a v).
Definition jar_error (g a v : string) : outcome Empty_set CoordinateParseError := unwrap_err (Coordinate.new_jar g a v).

Definition jar_filename_without_classifier : run :=
  c ← jar "com.example" "foo" "1.2.3"; assert_eq (Coordinate.filename c) "foo-1.2.3.jar".

Definition repository_path_dots_become_slashes : run :=
  c ← jar "com.example.foo" "bar" "1.0"; assert_eq (Coordinate.repository_path c) "com/example/foo/bar/1.0/bar-1.0.jar".

Definition classifier_is_inserted_before_extension : run :=
  c ← unwrap (Coordinate.new "com.example" "foo" "1.0" (Some "sources") "jar");
  assert_eq (Coordinate.filename c) "foo-1.0-sources.jar".

Definition empty_group_id_rejected : run :=
  e ← jar_error "" "foo" "1.0"; match e with EmptyField f => assert_eq f "groupId" | _ => Panic end.

Definition slash_in_artifact_id_rejected : run :=
  e ← jar_error "com.example" "foo/bar" "1.0";
  match e with IllegalCharacter f ch => assert_eq f "artifactId" ;; assert_eq ch "/" | _ => Panic end.

Definition display_uses_colon_form : run :=
  c ← jar "com.example" "foo" "1.0"; assert_eq (Coordinate.to_string c) "com.example:foo:jar:1.0".

Definition dotdot_component_rejected_as_path_traversal : run :=
  for_each (fun '(g, a, v) =>
    e ← unwrap_err (Coordinate.new g a v None "jar");
    match e with PathTraversal _ value => assert_eq value ".." | _ => Panic end)
    [("..", "foo", "1.0"); ("com.example", "..", "1.0"); ("com.example", "foo", "..")].

Definition dot_component_rejected_as_path_traversal : run :=
  e ← unwrap_err (Coordinate.new "com.example" "foo" "." None "jar");
  match e with PathTraversal _ v => assert_eq v "." | _ => Panic end ;;
  e ← unwrap_err (Coordinate.new "com.example" "foo" "1.0" (Some ".") "jar");
  match e with PathTraversal f v => assert_eq f "classifier" ;; assert_eq v "." | _ => Panic end ;;
  e ← unwrap_err (Coordinate.new "com.example" "foo" "1.0" None ".");
  match e with PathTraversal f v => assert_eq f "extension" ;; assert_eq v "." | _ => Panic end.

Definition nul_and_control_chars_rejected : run :=
  for_each (fun bad : ascii =>
    e ← unwrap_err (Coordinate.new "com.example" ("foo" ++ String bad "") "1.0" None "jar");
    match e with IllegalCharacter _ ch => assert_eq ch (String bad "") | _ => Panic end)
    ["000"; "009"; "010"; "023"; "127"]%char.

Definition accepted_coordinate_renders_no_traversal_segment : run :=
  c ← unwrap (Coordinate.new "com.example.foo" "bar" "1.0-SNAPSHOT" (Some "sources") "jar"); no_traversal c.

Definition coordinate_tests : suite :=
  [("jar_filename_without_classifier", jar_filename_without_classifier);
   ("repository_path_dots_become_slashes", repository_path_dots_become_slashes);
   ("classifier_is_inserted_before_extension", classifier_is_inserted_before_extension);
   ("empty_group_id_rejected", empty_group_id_rejected); ("slash_in_artifact_id_rejected", slash_in_artifact_id_rejected);
   ("display_uses_colon_form", display_uses_colon_form);
   ("dotdot_component_rejected_as_path_traversal", dotdot_component_rejected_as_path_traversal);
   ("dot_component_rejected_as_path_traversal", dot_component_rejected_as_path_traversal);
   ("nul_and_control_chars_rejected", nul_and_control_chars_rejected);
   ("accepted_coordinate_renders_no_traversal_segment", accepted_coordinate_renders_no_traversal_segment)].

Lemma coordinate_tests_pass : passes coordinate_tests = true.
Proof. vm_compute. reflexivity. Qed.

(** ** [checksum.rs] *)

Definition from_extension_maps_every_known_algo : run :=
  for_each (fun '(ext, a) => assert_eq (ChecksumAlgo.from_extension ext) a)
    [("md5", Some CMd5); ("sha1", Some CSha1); ("sha256", Some CSha256); ("sha512", Some CSha512);
     ("sha384", None); (".md5", None); ("", None)].

Definition extension_round_trips_with_from_extension : run :=
  for_each (fun a => assert_eq (ChecksumAlgo.from_extension (ChecksumAlgo.extension a)) (Some a)) [CMd5; CSha1; CSha256; CSha512].

Definition hex_len_matches_each_algo : run :=
  assert_eq (ChecksumAlgo.hex_len <$> [CMd5; CSha1; CSha256; CSha512]) [32; 40; 64; 128]%nat.

Definition sha1_abc : string := "a9993e364706816aba3e25717850c26c9cd0d89d".

Definition parse_sidecar_bare_form : run :=
  h ← unwrap (parse_sidecar CSha1 (bs (sha1_abc ++ String "010" ""))); assert_eq h sha1_abc.

Definition parse_sidecar_with_filename_suffix : run :=
  h ← unwrap (parse_sidecar CSha1 (bs (sha1_abc ++ " *foo-1.0.jar" ++ String "010" ""))); assert_eq h sha1_abc.

Definition parse_sidecar_rejects_wrong_length : run :=
  e ← unwrap_err (parse_sidecar CSha256 (bs "deadbeef"));
  match e with MvChecksumMismatch msg => assert (str_contains "64 hex characters" msg) | _ => Panic end.

(** Whatever the hash functions. *)
Definition md5_returns_none_from_compute `{H : Hashing} `{S1 : Sha1Lib} : run := assert (is_none (compute_checksum CMd5 (bs "abc"))).

(** ** [error.rs] and [snapshot.rs] *)

Definition maps_to (e : MavenError) (n : Z) : run := assert_eq (maven_status e) n.

Definition invalid_path_maps_to_400 : run := maps_to (InvalidPath "no artifactId segment") 400.
Definition not_found_maps_to_404 : run := maps_to (MvNotFound "foo.jar") 404.
Definition coordinate_and_pom_and_metadata_and_checksum_map_to_400 : run :=
  for_each (fun e => maps_to e 400)
    [CoordinateMismatch "gav"; InvalidPom "bad pom"; InvalidMetadata "bad metadata"; MvChecksumMismatch "nope"].
Definition storage_not_found_maps_to_404 : run := maps_to (MvStorage (NotFound "sha256:deadbeef")) 404.
Definition storage_digest_mismatch_maps_to_400 : run := maps_to (MvStorage (DigestMismatch "sha256:00" "sha256:11")) 400.
Definition storage_invalid_digest_maps_to_400 : run :=
  parse_err ← unwrap_err (Digest.from_str "not-a-digest"); maps_to (MvStorage (InvalidDigest parse_err)) 400.
Definition storage_io_maps_to_500 : run := maps_to (MvStorage (BsIo (mkIoError (KOther 5) "disk gone"))) 500.

Definition snapshot_suffix_detection : run :=
  assert (is_snapshot_version "1.0-SNAPSHOT") ;; assert (is_snapshot_version "1.2.3-SNAPSHOT") ;;
  assert (negb (is_snapshot_version "1.0")) ;; assert (negb (is_snapshot_version "1.0-20260423.000000-1")).

Definition base_version_strips_suffix : run :=
  assert_eq (base_version "1.2.3-SNAPSHOT") "1.2.3" ;; assert_eq (base_version "1.2.3") "1.2.3".

(** The instant 2026-04-23 12:30:45, as [chrono] formats it. *)
#[local] Instance one_instant : Chrono := { format_dotted _ := "20260423.123045"; format_plain _ := "20260423123045" }.

Definition compose_version_inserts_timestamp_and_build_number : run :=
  assert_eq (compose_version 0 "1.2.3-SNAPSHOT" 7) "1.2.3-20260423.123045-7".

Definition checksum_tests `{H : Hashing} `{S1 : Sha1Lib} : suite :=
  [("from_extension_maps_every_known_algo", from_extension_maps_every_known_algo);
   ("extension_round_trips_with_from_extension", extension_round_trips_with_from_extension);
   ("hex_len_matches_each_algo", hex_len_matches_each_algo); ("parse_sidecar_bare_form", parse_sidecar_bare_form);
   ("parse_sidecar_with_filename_suffix", parse_sidecar_with_filename_suffix);
   ("parse_sidecar_rejects_wrong_length", parse_sidecar_rejects_wrong_length);
   ("md5_returns_none_from_compute", md5_returns_none_from_compute);
   ("invalid_path_maps_to_400", invalid_path_maps_to_400); ("not_found_maps_to_404", not_found_maps_to_404);
   ("coordinate_and_pom_and_metadata_and_checksum_map_to_400", coordinate_and_pom_and_metadata_and_checksum_map_to_400);
   ("storage_not_found_maps_to_404", storage_not_found_maps_to_404);
   ("storage_digest_mismatch_maps_to_400", storage_digest_mismatch_maps_to_400);
   ("storage_invalid_digest_maps_to_400", storage_invalid_digest_maps_to_400); ("storage_io_maps_to_500", storage_io_maps_to_500);
   ("snapshot_suffix_detection", snapshot_suffix_detection); ("base_version_strips_suffix", base_version_strips_suffix);
   ("compose_version_inserts_timestamp_and_build_number", compose_version_inserts_timestamp_and_build_number)].

Lemma checksum_tests_pass `{H : Hashing} `{S1 : Sha1Lib} : passes checksum_tests = true.
Proof. vm_compute. reflexivity. Qed.
