(* ===== verification/TestAirflow.v ===== *)
(** * The unit tests of the Airflow DAG parser

    [mod tests] of [common.rs], [line_index.rs], [panic_safe.rs], [ruff_impl.rs],
    [dynamic_markers.rs] and [cache.rs] in [crates/ferro-airflow-dag-parser/src].
    The Python parser is third-party code: a test's source is given as the tokens
    or the syntax tree the parser makes of it. Nodes whose position no test looks
    at share one range. *)

From S2P Require Import Prelude Str Json AirflowText AirflowShield AirflowExtract AirflowChains AirflowMarkers AirflowScopes AirflowCache AirflowCodec Harness.

Local Open Scope string_scope.
Local Open Scope Z_scope.

(** [s.repeat(n)] and [vec.repeat(n)]. *)
Fixpoint times (s : string) (n : nat) : string := match n with O => "" | S n => s ++ times s n end.
Definition many {A} (l : list A) (n : nat) : list A := concat (replicate n l).

(** ** [common.rs] *)

Definition dag_named (s : string) : outcome Empty_set DagId := unwrap (DagId_new s).
Definition task_named (s : string) : outcome Empty_set TaskId := unwrap (TaskId_new s).

#[local] Instance SourceSpan_eq : EqDecision SourceSpan.
Proof. solve_decision. Defined.
#[local] Instance ExtractedDag_eq : EqDecision ExtractedDag.
Proof. solve_decision. Defined.

Definition extracted_dag_round_trips_through_json : run :=
  h ← dag_named "hello"; a ← task_named "a"; b ← task_named "b";
  let dag := mkExtractedDag (Some h) [a; b] (Some "@daily") true [(a, b)] (Some (mkSourceSpan 1 8)) in
  json ← unwrap_some (json_write (ser_ExtractedDag dag));
  v ← unwrap_some (json_read (bytes_of_string json));
  back ← unwrap_some (de_ExtractedDag v);
  assert_eq back dag.

Definition dag_id_rejects_invalid_chars : run :=
  e ← unwrap_err (DagId_new "has space");
  match e with InvalidCharacter kind bad => assert_eq kind "dag_id" ;; assert_eq bad " " | _ => Panic end.

Definition dag_id_rejects_too_long : run :=
  e ← unwrap_err (DagId_new (times "a" (Z.to_nat MAX_IDENTIFIER_LEN + 1)));
  match e with TooLong kind _ _ => assert_eq kind "dag_id" | _ => Panic end.

Definition dag_id_rejects_empty : run :=
  e ← unwrap_err (DagId_new ""); match e with IdEmpty kind => assert_eq kind "dag_id" | _ => Panic end.

Definition task_id_accepts_dotted_dashed_underscored : run :=
  for_each (fun s => assert (is_ok (TaskId_new s))) ["a"; "a.b"; "a-b"; "a_b"; "a.b-c_d.0"].

Definition dag_id_displays_inner : run := i ← dag_named "hello"; assert_eq (dag_str i) "hello".
Definition dag_id_from_str_round_trips : run := i ← dag_named "ok"; assert_eq (dag_str i) "ok".
Definition task_id_try_from_string_round_trips : run := i ← task_named "foo"; assert_eq (task_str i) "foo".

Definition make_dag_id_wraps_validation_error : run :=
  e ← unwrap_err (make_dag_id "has space");
  match e with InvalidIdentifier kind value _ => assert_eq kind "dag_id" ;; assert_eq value "has space" | _ => Panic end.

Definition push_unique_task_keeps_first_seen_order : run :=
  x ← task_named "x"; y ← task_named "y";
  let v := push_unique_task (push_unique_task (push_unique_task [] x) y) x in
  assert_eq (task_str <$> v) ["x"; "y"].

(** [line_index.rs]: the position of an offset in a text. *)
Definition nl : string := String "010" "".
Definition position (src : string) (offset : Z) : outcome Empty_set (Z * Z) := line_col (LineIndex_new src) offset.
Definition position_is (src : string) (offset line col : Z) : run := p ← position src offset; assert_eq p (line, col).

Definition first_byte_is_line_one_col_one : run := position_is ("abc" ++ nl ++ "def" ++ nl) 0 1 1.
Definition newline_advances_line : run :=
  let src := ("abc" ++ nl ++ "def" ++ nl)%string in position_is src 4 2 1 ;; position_is src 5 2 2.
Definition offset_past_eof_clamps_to_last_line : run := p ← position ("abc" ++ nl ++ "def") 99; assert_eq (fst p) 2.
Definition empty_source_collapses_to_one_one : run := position_is "" 0 1 1 ;; position_is "" 7 1 1.

Definition common_tests : suite :=
  [("first_byte_is_line_one_col_one", first_byte_is_line_one_col_one); ("newline_advances_line", newline_advances_line);
   ("offset_past_eof_clamps_to_last_line", offset_past_eof_clamps_to_last_line);
   ("empty_source_collapses_to_one_one", empty_source_collapses_to_one_one);
   ("extracted_dag_round_trips_through_json", extracted_dag_round_trips_through_json);
   ("dag_id_rejects_invalid_chars", dag_id_rejects_invalid_chars); ("dag_id_rejects_too_long", dag_id_rejects_too_long);
   ("dag_id_rejects_empty", dag_id_rejects_empty);
   ("task_id_accepts_dotted_dashed_underscored", task_id_accepts_dotted_dashed_underscored);
   ("dag_id_displays_inner", dag_id_displays_inner); ("dag_id_from_str_round_trips", dag_id_from_str_round_trips);
   ("task_id_try_from_string_round_trips", task_id_try_from_string_round_trips);
   ("make_dag_id_wraps_validation_error", make_dag_id_wraps_validation_error);
   ("push_unique_task_keeps_first_seen_order", push_unique_task_keeps_first_seen_order)].

Lemma common_tests_pass : passes common_tests = true.
Proof. vm_compute. reflexivity. Qed.

(** ** [panic_safe.rs] *)

(** A parser that makes this of every source. *)
Definition parser_of (r : ParserRun) : PyParser := {| lex _ := []; parse_module _ := r |}.

Definition happy_path_returns_parsed : run := ignore (parse_module_safely (H := parser_of (Parsed [OtherStmt])) "x = 1").

Definition parser_error_returns_parse_variant : run :=
  e ← unwrap_err (parse_module_safely (H := parser_of (SyntaxError "Expected an identifier")) "def !!!");
  match e with Parse _ => Ok tt | _ => Panic end.

(** [shield_parser_panic("test", "", || ..)] around a closure that returns or
    panics with this payload. *)
Definition shielded (payload : Payload) (f : outcome ParseError (list ExtractedDag)) : outcome ParseError (list ExtractedDag) :=
  shield_parser_panic (H := parser_of (Parsed [])) None payload "" f.

Definition shield_returns_ok_when_closure_does_not_panic : run :=
  out ← unwrap (shielded OtherPayload (Ok [])); assert_eq (length out) 0%nat.

Definition converts_panic (payload : Payload) (text : string) : run :=
  e ← unwrap_err (shielded payload Panic);
  match e with Internal msg => assert (str_contains text msg) | _ => Panic end.

Definition shield_converts_static_str_panic_to_internal : run := converts_panic (StaticStr "static-str payload") "static-str payload".
Definition shield_converts_string_panic_to_internal : run := converts_panic (OwnedString "owned-string payload") "owned-string payload".

Definition panic_payload_message_handles_unknown_shape : run :=
  assert_eq (panic_payload_message OtherPayload) "<non-string panic payload>".

Definition depth_is (src : string) (cap : Z) (d : option Z) : run := assert_eq (nesting_depth_exceeds src cap) d.

Definition nesting_depth_exceeds_reports_depth_only_past_cap : run :=
  depth_is "([{}])" 10 None ;; depth_is "" 10 None ;; depth_is "))))]]]" 10 None ;; depth_is (times "[" 20) 10 (Some 20).

Definition nesting_depth_exceeds_is_exact_at_the_cap_boundary : run :=
  let cap := 8%nat in
  depth_is (times "(" cap) (Z.of_nat cap) None ;; depth_is (times "(" (cap + 1)) (Z.of_nat cap) (Some (Z.of_nat cap + 1)) ;;
  depth_is "[][][]" 1 None ;; depth_is "{{{" 2 (Some 3) ;; depth_is "((( )))((( )))" 3 None.

Definition nesting_depth_exceeds_at_production_cap : run :=
  let cap := MAX_PARSE_NESTING_DEPTH in
  depth_is (times "(" (Z.to_nat cap)) cap None ;; depth_is (times "(" (Z.to_nat cap + 1)) cap (Some (cap + 1)).

Import TokenKind.

(** [lex_reject_reason] of a source with these tokens: an assignment, and a nest of
    blocks with a body. *)
Definition lexed (toks : list TokenKind) : option string := lex_reject_reason (H := {| lex _ := toks; parse_module _ := Parsed [] |}) "".
Definition assigned (toks : list TokenKind) : list TokenKind := [Other; Other] ++ toks ++ [Other; Newline].
Definition blocks (head : TokenKind) (n : nat) : list TokenKind :=
  many [head; Other; Other; Newline; Indent] n ++ [Other; Newline] ++ many [Dedent] n.

Definition lex_reject_catches_non_bracket_recursion_vectors : run :=
  for_each (fun toks => assert (negb (is_none (lexed toks))))
    [assigned (many [Not] 3000); assigned (many [Minus] 3000); assigned (many [Tilde] 3000); assigned (many [Await] 3000);
     assigned (many [Other; DoubleStar] 3000); assigned (many [Other; TokenKind.If; Other; Else] 2000);
     assigned (many [Lambda; Other] 3000); blocks TokenKind.If 1200].

Definition lex_reject_flags_tstrings : run :=
  reason ← unwrap_some (lexed [Other; Other; TStringStart; Other; Newline]); assert (str_contains "t-strings" reason).

Definition lex_reject_has_no_false_positives_on_real_expressions : run :=
  for_each (fun toks => assert (is_none (lexed toks)))
    [assigned (many [Other; Plus] 5000); assigned ([Lsqb] ++ many [Other; Plus; Other; Other] 5000 ++ [Rsqb]);
     assigned [Other; Other; Lbrace; Other; Rbrace; Other; Lbrace; Other; Rbrace; Other; Lbrace; Other; Plus; Other; Rbrace; Other];
     assigned (many [Lsqb] 96 ++ [Other] ++ many [Rsqb] 96); blocks Other 12].

Definition shield_tests : suite :=
  [("happy_path_returns_parsed", happy_path_returns_parsed); ("parser_error_returns_parse_variant", parser_error_returns_parse_variant);
   ("shield_returns_ok_when_closure_does_not_panic", shield_returns_ok_when_closure_does_not_panic);
   ("shield_converts_static_str_panic_to_internal", shield_converts_static_str_panic_to_internal);
   ("shield_converts_string_panic_to_internal", shield_converts_string_panic_to_internal);
   ("panic_payload_message_handles_unknown_shape", panic_payload_message_handles_unknown_shape);
   ("nesting_depth_exceeds_reports_depth_only_past_cap", nesting_depth_exceeds_reports_depth_only_past_cap);
   ("nesting_depth_exceeds_is_exact_at_the_cap_boundary", nesting_depth_exceeds_is_exact_at_the_cap_boundary);
   ("nesting_depth_exceeds_at_production_cap", nesting_depth_exceeds_at_production_cap);
   ("lex_reject_catches_non_bracket_recursion_vectors", lex_reject_catches_non_bracket_recursion_vectors);
   ("lex_reject_flags_tstrings", lex_reject_flags_tstrings);
   ("lex_reject_has_no_false_positives_on_real_expressions", lex_reject_has_no_false_positives_on_real_expressions)].

Lemma shield_tests_pass : passes shield_tests = true.
Proof. vm_compute. reflexivity. Qed.

(** ** [ruff_impl.rs] *)

(** Short forms of the nodes the sources have. *)
Definition at0 : TextRange := mkTextRange 0 1.
Definition name (s : string) : Expr := Name at0 s.
Definition str (s : string) : Expr := StringLiteral at0 s.
Definition call (f : Expr) (args : list Expr) (kws : list (string * Expr)) : Expr :=
  Call at0 f args ((fun kw => (Some (fst kw), snd kw)) <$> kws).
Definition with_dag (kws : list (string * Expr)) (body : list Stmt) : Stmt := With [call (name "DAG") [] kws] body at0.
Definition bash (task_id : Expr) : Expr := call (name "BashOperator") [] [("task_id", task_id); ("bash_command", str "echo")].

(** [extract_all(src)] where [src] parses to [body]; an import is a statement of
    another kind. *)
Definition extracted_from (src : string) (body : list Stmt) : outcome ParseError (list ExtractedDag) :=
  extract_all (H := parser_of (Parsed body)) None OtherPayload src.

Fixpoint text (lines : list string) : string :=
  match lines with [] => "" | l :: ls => l ++ String "010" (text ls) end.

Definition extracts_simple_with_dag : run :=
  let before := text [""; "from airflow import DAG"; "from airflow.operators.bash import BashOperator"; ""] in
  let block := text ["with DAG(..) as dag:"; "    a = BashOperator(..)"; "    b = BashOperator(..)"; "    a >> b"] in
  let range := mkTextRange (Z.to_N (str_len before)) (Z.to_N (str_len (before ++ block))) in
  ds ← unwrap (extracted_from (before ++ block)
    [OtherStmt; OtherStmt;
     With [call (name "DAG") [] [("dag_id", str "hello"); ("schedule", str "@daily"); ("default_args", OtherExpr at0)]]
       [Assign [name "a"] (bash (str "a")); Assign [name "b"] (bash (str "b")); ExprStmt (BinOp at0 (name "a") RShift (name "b"))]
       range]);
  match ds with
  | [dag] =>
    assert_eq (dag_str <$> dag_id dag) (Some "hello") ;; assert_eq (task_str <$> task_ids dag) ["a"; "b"] ;;
    assert_eq (schedule dag) (Some "@daily") ;; assert (has_default_args dag) ;;
    assert_eq ((fun e => (task_str (fst e), task_str (snd e))) <$> deps_edges dag) [("a", "b")] ;;
    span ← unwrap_some (source_span dag);
    assert ((5 <=? start_line span) && (start_line span <=? end_line span))
  | _ => Panic
  end.

Definition extracts_dag_decorator : run :=
  ds ← unwrap (extracted_from ""
    [OtherStmt;
     FunctionDef "my_pipeline" [call (name "dag") [] [("schedule", str "@daily")]]
       [FunctionDef "inner" [name "task"] [OtherStmt] at0; ExprStmt (call (name "inner") [] [])] at0]);
  match ds with
  | [dag] =>
    assert_eq (dag_str <$> dag_id dag) (Some "my_pipeline") ;; assert_eq (task_str <$> task_ids dag) ["inner"] ;;
    assert_eq (schedule dag) (Some "@daily") ;; assert (negb (is_none (source_span dag)))
  | _ => Panic
  end.

Definition parse_error_surfaces : run :=
  e ← unwrap_err (extract_all (H := parser_of (SyntaxError "Expected an identifier")) None OtherPayload "def !!!");
  match e with Parse _ => Ok tt | _ => Panic end.

Definition invalid_dag_id_literal_surfaces_as_invalid_identifier : run :=
  e ← unwrap_err (extracted_from "" [OtherStmt; with_dag [("dag_id", str "bad/id")] [OtherStmt]]);
  match e with InvalidIdentifier kind _ _ => assert_eq kind "dag_id" | _ => Panic end.

(** ** [dynamic_markers.rs] *)

(** [detect_dynamic_markers(src).expect("parse")] has a marker of this kind. *)
Definition kinds_of (body : list Stmt) : outcome Empty_set (list string) :=
  ms ← unwrap (detect_dynamic_markers (H := parser_of (Parsed body)) None OtherPayload "");
  Ok (map marker_kind ms).

Definition detects (kind : string) (body : list Stmt) : run := ks ← kinds_of body; assert (existsb (String.eqb kind) ks).

Definition detects_path_stem_dag_id : run :=
  detects "path_stem_dag_id"
    [OtherStmt; OtherStmt; with_dag [("dag_id", Attribute at0 (call (name "Path") [name "__file__"] []) "stem")] [OtherStmt]].

(** The list comprehension of the source is an expression of another kind. *)
Definition detects_chain_splat : run :=
  detects "chain_splat"
    [OtherStmt; OtherStmt; OtherStmt;
     with_dag [("dag_id", str "chain_splat")]
       [Assign [name "items"] (OtherExpr at0); ExprStmt (call (name "chain") [Starred at0] [])]].

Definition f_t_i : Expr := FString at0 [PartFString [ElementLiteral "t_"; Interpolation]].
Definition loop : Stmt := For (call (name "range") [NumberLiteral at0 (Int "3")] []) [ExprStmt (bash f_t_i)].

Definition detects_fstring_task_id : run := detects "fstring_task_id" [OtherStmt; OtherStmt; with_dag [("dag_id", str "fs")] [loop]].

Definition detects_dynamic_schedule_expr : run :=
  detects "dynamic_schedule_expr"
    [OtherStmt; OtherStmt;
     with_dag [("dag_id", str "sched"); ("schedule", call (name "Asset") [str "s3://bucket/x"] [])] [OtherStmt]].

Definition detects_import_time_branching : run :=
  detects "import_time_branching"
    [OtherStmt; OtherStmt;
     AirflowShield.If (call (Attribute at0 (Attribute at0 (name "os") "environ") "get") [str "ENABLE"] [])
       [with_dag [("dag_id", str "conditional")] [OtherStmt]] []].

Definition detects_for_loop_task_generation : run :=
  detects "for_loop_task_generation" [OtherStmt; OtherStmt; with_dag [("dag_id", str "loopgen")] [loop]].

Definition detects_unsupported_taskflow_expand : run :=
  detects "unsupported_task_flow"
    [OtherStmt;
     FunctionDef "my_pipe" [call (name "dag") [] [("schedule", str "@daily")]]
       [FunctionDef "fan_out" [call (name "task") [] [("expand", BooleanLiteral at0 true)]] [OtherStmt] at0;
        ExprStmt (call (name "fan_out") [ListExpr at0 []] [])] at0].

Definition no_markers_on_simple_dag : run :=
  ks ← kinds_of
    [OtherStmt; OtherStmt;
     with_dag [("dag_id", str "hello"); ("schedule", str "@daily")]
       [Assign [name "a"] (bash (str "a")); Assign [name "b"] (bash (str "b")); ExprStmt (BinOp at0 (name "a") RShift (name "b"))]];
  assert_eq ks [].

Definition marker_kind_strings : run :=
  assert_eq (marker_kind (PathStemDagId 1 1)) "path_stem_dag_id" ;; assert_eq (marker_kind (ChainSplat 1 1)) "chain_splat" ;;
  assert_eq (marker_kind (FStringTaskId 1 1 "x")) "fstring_task_id".

Definition extract_tests : suite :=
  [("extracts_simple_with_dag", extracts_simple_with_dag); ("extracts_dag_decorator", extracts_dag_decorator);
   ("parse_error_surfaces", parse_error_surfaces);
   ("invalid_dag_id_literal_surfaces_as_invalid_identifier", invalid_dag_id_literal_surfaces_as_invalid_identifier);
   ("detects_path_stem_dag_id", detects_path_stem_dag_id); ("detects_chain_splat", detects_chain_splat);
   ("detects_fstring_task_id", detects_fstring_task_id); ("detects_dynamic_schedule_expr", detects_dynamic_schedule_expr);
   ("detects_import_time_branching", detects_import_time_branching);
   ("detects_for_loop_task_generation", detects_for_loop_task_generation);
   ("detects_unsupported_taskflow_expand", detects_unsupported_taskflow_expand);
   ("no_markers_on_simple_dag", no_markers_on_simple_dag); ("marker_kind_strings", marker_kind_strings)].

Lemma extract_tests_pass : passes extract_tests = true.
Proof. vm_compute. reflexivity. Qed.

(** ** [cache.rs] *)

(** The two sources of the tests, and what they parse to. *)
Definition DAG_BODY (id : string) : string :=
  text [""; "from airflow import DAG"; ""; "with DAG(dag_id=" ++ id ++ "):"; "    pass"].

#[local] Instance dag_parser : PyParser := {|
  lex _ := [];
  parse_module src :=
    let id := if String.eqb src (DAG_BODY "cached") then "cached" else "renamed" in
    Parsed [OtherStmt; with_dag [("dag_id", str id)] [OtherStmt]]
|}.

(** A disk with these files, each with a content and a modification time. *)
Definition disk_of_files (fs : list (string * (string * Z))) : Disk :=
  let find (p : string) : option (string * Z) := option_map snd (List.find (fun f => String.eqb (fst f) p) fs) in
  {| metadata p := match find p with Some (c, t) => inl (mkMetadata (Some t) (str_len c)) | None => inr "not found" end;
     read p := match find p with Some (c, _) => inl c | None => inr "not found" end;
     canonicalize p := match find p with Some _ => Some p | None => None end |}.

(** [cache.get_or_parse(&p).unwrap()] and what the tests ask of the cache. *)
Definition parse_at (d : Disk) (p : string) : session ParseCache ParseOutcome := ok (get_or_parse (host 0) d d p).
Definition len_is (n : nat) : session ParseCache unit := fun c => (c, assert_eq (cache_len c) n).
Definition change (f : ParseCache -> ParseCache) : session ParseCache unit := st_modify f.

Definition first_call_parses_second_call_hits_cache : run :=
  let d := disk_of_files [("d1.py", (DAG_BODY "cached", 1))] in
  starting ParseCache_new (
    a ← parse_at d "d1.py"; len_is 1 ;;
    b ← parse_at d "d1.py";
    check (assert_eq (o_source_hash a) (o_source_hash b)) ;; check (assert_eq (length (o_dags a)) (length (o_dags b)))).

Definition rewrite_invalidates_cache_via_hash : run :=
  starting ParseCache_new (
    a ← parse_at (disk_of_files [("d2.py", (DAG_BODY "cached", 1))]) "d2.py";
    b ← parse_at (disk_of_files [("d2.py", (DAG_BODY "renamed", 2))]) "d2.py";
    check (assert_ne (o_source_hash a) (o_source_hash b)) ;;
    dag ← check (unwrap_some (head (o_dags b)));
    check (assert_eq (dag_str <$> dag_id dag) (Some "renamed"))).

Definition invalidate_drops_entry : run :=
  let d := disk_of_files [("d3.py", (DAG_BODY "cached", 1))] in
  starting ParseCache_new (parse_at d "d3.py" ;; len_is 1 ;; change (invalidate d "d3.py") ;; len_is 0).

Definition clear_drops_everything : run :=
  let d := disk_of_files [("a.py", (DAG_BODY "cached", 1)); ("b.py", (DAG_BODY "cached", 1))] in
  starting ParseCache_new (parse_at d "a.py" ;; parse_at d "b.py" ;; len_is 2 ;; change clear ;; len_is 0).

Definition peek_returns_none_when_unparsed : run :=
  let d := disk_of_files [("never.py", (DAG_BODY "cached", 1))] in
  starting ParseCache_new (
    c ← st_get; check (assert (is_none (peek c d "never.py"))) ;;
    parse_at d "never.py" ;;
    c ← st_get; check (assert (negb (is_none (peek c d "never.py"))))).

Definition missing_file_surfaces_io_error : run :=
  let d := disk_of_files [] in
  starting ParseCache_new (
    e ← err (get_or_parse (host 0) d d "does_not_exist.py");
    check (match e with Io _ _ => Ok tt | _ => Panic end)).

Definition hash_is_stable_across_runs : run :=
  assert_eq (hash_source "hello") (hash_source "hello") ;; assert_ne (hash_source "hello") (hash_source "hellp").

Definition cache_tests : suite :=
  [("first_call_parses_second_call_hits_cache", first_call_parses_second_call_hits_cache);
   ("rewrite_invalidates_cache_via_hash", rewrite_invalidates_cache_via_hash); ("invalidate_drops_entry", invalidate_drops_entry);
   ("clear_drops_everything", clear_drops_everything); ("peek_returns_none_when_unparsed", peek_returns_none_when_unparsed);
   ("missing_file_surfaces_io_error", missing_file_surfaces_io_error); ("hash_is_stable_across_runs", hash_is_stable_across_runs)].

Lemma cache_tests_pass : passes cache_tests = true.
Proof. vm_compute. reflexivity. Qed.
