(* ===== verification/TestServe.v ===== *)
(** * The unit tests of the two servers' start

    [mod tests] of [crates/ferro-oci-server/src/serve.rs] and
    [crates/ferro-cargo-registry-server/src/serve.rs], the configuration, the
    addresses, the stores and the assembled applications, and of the two
    [metrics.rs], the labels. The tests that set up logging, print with [Debug],
    read the process's own environment or look into the text of the metrics
    encoder have no counterpart. *)

From S2P Require Import Prelude Str Frame Net Fs Digest BlobStore FsStore Json Http Regex OciError OciReference OciUpload OciRegistry OciHttp OciBlobHandlers OciManifestHandlers OciRouter OciServer CargoName CargoVersion CargoIndex CargoState CargoHandlers Metrics Addr SharedDisk Serve CargoServe Harness.

Local Open Scope string_scope.
Local Open Scope Z_scope.

(** A process with an empty temporary directory. *)
Definition tmp : path := ["tmp"].
Definition fresh : Process := mkProcess (mkFs {[ tmp := Dir ]} []) 0 1.
Definition fresh_world : World := mkWorld (mkFs {[ tmp := Dir ]} []) 0 1.

Definition is_dir (t : tree) (p : path) : bool := bool_decide (t !! p = Some Dir).

(** The error names the environment variable. *)
Definition names_listen {A} (var : string) (o : outcome StartError A) : run :=
  e ← unwrap_err o; match e with SListen v _ => assert_eq v var | _ => Panic end.

(** The address and its text agree. *)
Definition addr_is (o : outcome StartError SocketAddr) (s : string) : run :=
  a ← unwrap o; assert_eq (display_socket_addr a) s.

(** ** The OCI server *)

Module Oci.
Import OciServe.
Abbreviation run := (outcome Empty_set unit).

Definition from_raw_applies_defaults_when_unset : run :=
  let cfg := from_raw None None in assert_eq (listen cfg) DEFAULT_LISTEN ;; assert_eq (storage_dir cfg) None.

Definition from_raw_reads_overrides : run :=
  let cfg := from_raw (Some "127.0.0.1:0") (Some "/var/lib/oci-xyz") in
  assert_eq (listen cfg) "127.0.0.1:0" ;; assert_eq (storage_dir cfg) (Some "/var/lib/oci-xyz").

Definition from_raw_treats_empty_storage_dir_as_inmemory : run := assert_eq (storage_dir (from_raw None (Some ""))) None.

Definition socket_addr_parses_valid_listen : run := addr_is (socket_addr (mkConfig "0.0.0.0:8080" None)) "0.0.0.0:8080".
Definition socket_addr_rejects_garbage : run := names_listen ENV_LISTEN (socket_addr (mkConfig "nope" None)).

Definition blob_store_in_memory_when_unset : run := assert (is_ok (snd (blob_store [] (mkConfig DEFAULT_LISTEN None) fresh))).

Definition blob_store_creates_fs_dir : run :=
  let dir := (tmp ++ ["nested"; "blobs"])%list in
  assert (negb (is_dir (files (p_fs fresh)) dir)) ;;
  '(p, _) ← call_ok (blob_store [] (mkConfig DEFAULT_LISTEN (Some "/tmp/nested/blobs"))) fresh;
  assert (is_dir (files (p_fs p)) dir).

(** A parser of the one body of the tests. *)
Definition schema2 : bytes := "{"%byte :: x22 :: (bs "schemaVersion" ++ x22 :: bs ":2}")%list.
#[local] Instance schema_http : HttpLib := {|
  header_value_ok _ := true;
  header_to_str_ok _ := true;
  json_parse b := if bool_decide (b = schema2) then Some (JObject [("schemaVersion", JNumber "2")]) else None;
|}.

Definition request (m : Method) (t : Target) (hs : headers) (body : bytes) : AppRequest :=
  AV2 (OciRouter.mkRequest m t ∅ hs body (mkReqEnv 0 0 "u")) true.

(** [app.oneshot(..).await.expect("resp").status()]. *)
Definition answers (q : AppRequest) (status : Z) (a : App) : outcome Empty_set App :=
  '(a, r) ← call_ok (instrumented q 1) a; assert_eq (response_status r) status ;; Ok a.

Definition build_app_serves_probes_v2_and_metrics : run :=
  let app := build_app (SMemory Memory.new) fresh_world in
  for_each (fun q => answers q 200 app ;; Ok tt)
    [ALive GET; AReady GET; AHealthz GET; request GET TVersion [] []; AMetrics GET].

Definition serve_rejects_invalid_listen_before_binding : run :=
  names_listen ENV_LISTEN (serve [] (mkConfig "definitely-not-an-addr" None) (fun _ => Ok tt) fresh fresh_world).

Definition build_app_persisted_serves_v2_and_survives_restart : run :=
  let app := build_app_persisted (SMemory Memory.new) tmp fresh_world in
  app ← answers (request GET TVersion [] []) 200 app;
  let target := TRest ("repo/manifests/" ++ Digest.to_string (Digest.sha256_of schema2)) in
  app ← answers (request PUT target [("content-type", "application/vnd.oci.image.manifest.v1+json")] schema2) 201 app;
  let app2 := build_app_persisted (OciHttp.blob_store (app_state app)) tmp (world (registry (app_state app))) in
  answers (request HEAD target [] []) 200 app2 ;; Ok tt.

(** The labels of [metrics.rs]. *)
Definition label (matched : option string) (path l : string) : run := assert_eq (OciMetrics.handler_for matched path) l.

Definition handler_for_classifies_known_routes : run :=
  label (Some "/v2/") "/v2/" "version" ;; label (Some "/v2/_catalog") "/v2/_catalog" "catalog" ;;
  label (Some "/healthz") "/healthz" "healthz".

Definition handler_for_classifies_wildcard_tails : run :=
  let m := Some "/v2/{*rest}" in
  label m "/v2/alpine/tags/list" "tags" ;; label m "/v2/alpine/manifests/latest" "manifests" ;;
  label m "/v2/alpine/blobs/uploads/abc" "uploads" ;; label m "/v2/alpine/blobs/sha256:deadbeef" "blobs" ;;
  label m "/v2/alpine/referrers/sha256:abcd" "referrers".

Definition handler_for_unmatched_is_bounded_to_other : run := label None "/random/garbage/path" "other".
Definition handler_for_probe_routes_are_labelled : run := label (Some "/live") "/live" "live" ;; label (Some "/ready") "/ready" "ready".

Definition method_label_maps_every_known_method : run :=
  for_each (fun m => assert_eq (method_label m) m) ["GET"; "HEAD"; "POST"; "PUT"; "PATCH"; "DELETE"; "OPTIONS"] ;;
  assert_eq (method_label "TRACE") "OTHER".

Definition serve_tests : suite :=
  [("handler_for_classifies_known_routes", handler_for_classifies_known_routes);
   ("handler_for_classifies_wildcard_tails", handler_for_classifies_wildcard_tails);
   ("handler_for_unmatched_is_bounded_to_other", handler_for_unmatched_is_bounded_to_other);
   ("handler_for_probe_routes_are_labelled", handler_for_probe_routes_are_labelled);
   ("method_label_maps_every_known_method", method_label_maps_every_known_method);
   ("from_raw_applies_defaults_when_unset", from_raw_applies_defaults_when_unset); ("from_raw_reads_overrides", from_raw_reads_overrides);
   ("from_raw_treats_empty_storage_dir_as_inmemory", from_raw_treats_empty_storage_dir_as_inmemory);
   ("socket_addr_parses_valid_listen", socket_addr_parses_valid_listen); ("socket_addr_rejects_garbage", socket_addr_rejects_garbage);
   ("blob_store_in_memory_when_unset", blob_store_in_memory_when_unset); ("blob_store_creates_fs_dir", blob_store_creates_fs_dir);
   ("build_app_serves_probes_v2_and_metrics", build_app_serves_probes_v2_and_metrics);
   ("serve_rejects_invalid_listen_before_binding", serve_rejects_invalid_listen_before_binding);
   ("build_app_persisted_serves_v2_and_survives_restart", build_app_persisted_serves_v2_and_survives_restart)].

End Oci.

Lemma oci_serve_tests_pass : passes Oci.serve_tests = true.
Proof. vm_compute. reflexivity. Qed.

(** ** The Cargo server *)

Module Cargo.

Definition lookup_from (pairs : list (string * string)) (k : string) : option string :=
  snd <$> List.find (fun p => String.eqb (fst p) k) pairs.

Definition from_vars_applies_defaults_when_unset : run :=
  let cfg := from_vars (lookup_from []) in
  assert_eq (data_dir cfg) DEFAULT_DATA ;; assert_eq (listen cfg) DEFAULT_LISTEN ;; assert_eq (api_host cfg) None.

Definition from_vars_reads_overrides : run :=
  let cfg := from_vars (lookup_from [(ENV_DATA, "/tmp/data-xyz"); (ENV_LISTEN, "127.0.0.1:0"); (ENV_API, "https://registry.example")]) in
  assert_eq (data_dir cfg) "/tmp/data-xyz" ;; assert_eq (listen cfg) "127.0.0.1:0" ;;
  assert_eq (api_host cfg) (Some "https://registry.example").

Definition from_vars_treats_empty_api_as_unset : run := assert_eq (api_host (from_vars (lookup_from [(ENV_API, "")]))) None.

Definition listening (l : string) (api : option string) : Config := mkConfig "." l api.

Definition socket_addr_parses_valid_listen : run := addr_is (socket_addr (listening "127.0.0.1:8081" None)) "127.0.0.1:8081".
Definition socket_addr_rejects_garbage : run := names_listen ENV_LISTEN (socket_addr (listening "not-an-addr" None)).

(** ["..".parse::<SocketAddr>().unwrap()]. *)
Definition addr (s : string) : outcome Empty_set SocketAddr := unwrap_some (parse_socket_addr s).

Definition resolve_api_host_prefers_explicit_then_derives : run :=
  a ← addr "127.0.0.1:9000";
  assert_eq (resolve_api_host (listening "127.0.0.1:9000" (Some "https://explicit.example")) a) "https://explicit.example" ;;
  assert_eq (resolve_api_host (listening "127.0.0.1:9000" None) a) "http://127.0.0.1:9000".

(** The origin is refused; it is this one. *)
Definition refused (l : string) : run :=
  a ← addr l; e ← unwrap_err (resolve_api_host_checked (listening l None) a); match e with SOrigin _ => Ok tt | _ => Panic end.
Definition origin_is (l : string) (api : option string) (o : string) : run :=
  a ← addr l; got ← unwrap (resolve_api_host_checked (listening l api) a); assert_eq got o.

Definition resolve_api_host_checked_rejects_wildcard_without_explicit_api : run := refused "0.0.0.0:8081".

Definition default_config_without_api_is_rejected : run :=
  let cfg := from_vars (lookup_from []) in
  a ← unwrap (socket_addr cfg); assert (is_err (resolve_api_host_checked cfg a)).

Definition resolve_api_host_checked_rejects_port_zero : run := refused "127.0.0.1:0".

Definition resolve_api_host_checked_honours_explicit_with_wildcard_listen : run :=
  origin_is "0.0.0.0:8081" (Some "https://registry.example") "https://registry.example".

Definition resolve_api_host_checked_derives_for_concrete_addr : run := origin_is "127.0.0.1:8081" None "http://127.0.0.1:8081".

Definition build_state_creates_missing_data_dir : run :=
  let data := (tmp ++ ["nested"; "created"])%list in
  assert (negb (is_dir (files (p_fs fresh)) data)) ;;
  let '(p, o) := build_state data "http://localhost" fresh fresh_world in
  '(_, cfg, _) ← unwrap o;
  assert (is_dir (files (p_fs p)) data) ;; assert_eq (api (config cfg)) "http://localhost".

#[local] Existing Instance any_header.

Definition build_app_serves_probes_and_config : run :=
  '(store, cfg, state) ← unwrap (snd (build_state tmp "http://localhost" fresh fresh_world));
  for_each (fun q =>
    '(_, r) ← call_ok (instrumented (BS := FsStore.fs_store store) cfg q 1) (build_app state);
    assert_eq (response_status r) 200)
    [AProbe Live; AProbe Ready; AProbe Healthz; AApi GetConfig; AMetrics].

Definition probe_routes_healthz_reports_ok_json : run :=
  let '(status, body) := probe_routes Healthz in
  assert_eq status 200 ;;
  match body with Some (JObject [("status", JString s)]) => assert_eq s "ok" | _ => Panic end.

Definition serve_rejects_invalid_listen_before_binding : run :=
  names_listen ENV_LISTEN (serve [] (listening "definitely-not-an-addr" None) (fun _ => Ok tt) fresh fresh_world).

(** The labels of [metrics.rs]. *)
Definition label (matched : option string) (path l : string) : run := assert_eq (CargoMetrics.handler_for matched path) l.

Definition method_label_maps_each_method : run :=
  for_each (fun m => assert_eq (method_label m) m) ["GET"; "HEAD"; "POST"; "PUT"; "PATCH"; "DELETE"; "OPTIONS"] ;;
  assert_eq (method_label "TRACE") "OTHER".

Definition handler_for_each_matched_arm_is_distinct : run :=
  for_each (fun '(pattern, l) => label (Some pattern) "x" l)
    [("/index/{*path}", "index"); ("/{prefix}/{name}", "index"); ("/{p0}/{p1}/{name}", "index"); ("/index.git/{*path}", "git_index");
     ("/api/v1/crates/{name}/{version}/yank", "yank"); ("/api/v1/crates/{name}/{version}/unyank", "unyank");
     ("/api/v1/crates/{name}/owners", "owners"); ("/live", "live"); ("/ready", "ready")].

Definition handler_for_classifies_known_routes : run :=
  label (Some "/config.json") "/config.json" "config" ;; label (Some "/api/v1/crates/new") "/api/v1/crates/new" "publish" ;;
  label (Some "/api/v1/crates/{name}/{version}/download") "/api/v1/crates/serde/1.0.0/download" "download" ;;
  label (Some "/index/{*path}") "/index/se/rd/serde" "index" ;; label (Some "/healthz") "/healthz" "healthz".

Definition handler_for_unmatched_is_bounded : run :=
  label None "/index/anything" "index" ;; label None "/api/v1/crates/foo" "crates_api" ;; label None "/totally/unknown" "other".

Definition serve_tests : suite :=
  [("method_label_maps_each_method", method_label_maps_each_method);
   ("handler_for_each_matched_arm_is_distinct", handler_for_each_matched_arm_is_distinct);
   ("handler_for_classifies_known_routes", handler_for_classifies_known_routes);
   ("handler_for_unmatched_is_bounded", handler_for_unmatched_is_bounded);
   ("from_vars_applies_defaults_when_unset", from_vars_applies_defaults_when_unset); ("from_vars_reads_overrides", from_vars_reads_overrides);
   ("from_vars_treats_empty_api_as_unset", from_vars_treats_empty_api_as_unset);
   ("socket_addr_parses_valid_listen", socket_addr_parses_valid_listen); ("socket_addr_rejects_garbage", socket_addr_rejects_garbage);
   ("resolve_api_host_prefers_explicit_then_derives", resolve_api_host_prefers_explicit_then_derives);
   ("resolve_api_host_checked_rejects_wildcard_without_explicit_api", resolve_api_host_checked_rejects_wildcard_without_explicit_api);
   ("default_config_without_api_is_rejected", default_config_without_api_is_rejected);
   ("resolve_api_host_checked_rejects_port_zero", resolve_api_host_checked_rejects_port_zero);
   ("resolve_api_host_checked_honours_explicit_with_wildcard_listen", resolve_api_host_checked_honours_explicit_with_wildcard_listen);
   ("resolve_api_host_checked_derives_for_concrete_addr", resolve_api_host_checked_derives_for_concrete_addr);
   ("build_state_creates_missing_data_dir", build_state_creates_missing_data_dir);
   ("build_app_serves_probes_and_config", build_app_serves_probes_and_config);
   ("probe_routes_healthz_reports_ok_json", probe_routes_healthz_reports_ok_json);
   ("serve_rejects_invalid_listen_before_binding", serve_rejects_invalid_listen_before_binding)].

End Cargo.

Lemma cargo_serve_tests_pass : passes Cargo.serve_tests = true.
Proof. vm_compute. reflexivity. Qed.
